(* ===== verification/_CoqProject ===== *)
-Q . S2P
Prelude.v
Runes.v
GoStrings.v
Readers.v
RuneReaders.v
Buffer.v
BufferCursor.v
BuffReader.v
Texts.v
IterMap.v
Concurrent.v
Paths.v
Streams.v
Opened.v
Serving.v
Mimetypes.v
Mimes.v
Sessions.v
MultiFs.v
FileSys.v
Listing.v
MapReader.v
Parsing.v
Attributes.v
Parameters.v
Scheduling.v
Statement.v
Rows.v
Connections.v
Records.v
Csv.v
Dlv.v
Code.v
Compile.v
Elements.v
Tags.v
Templates.v
Active.v
Handler.v
Site.v
