(* ===== verification/Prelude.v ===== *)
(** * lnksnk: a library of buffers, readers, templates and schedules, verified

    lnksnk is a web and script server written in Go.  Its own core is a tower of small
    machines that work on runes: a growable byte buffer with its readers and searches, a
    label parser driven by callbacks, the templates built on that parser, readers that
    replace keys while they read, and around them request parameters, prepared database
    statements, schedules and maps that tell of their changes.  On top of these a request
    gets a session, a file is looked for, parsed and kept when it is an active page, and
    written to the client.  This library models that core, from the buffers to the answer
    to a request, and proves what its parts promise each other.

    ** The parts, and the files that model them

    - [Prelude] (this file): the result type [exec] - a value, a Go panic, or not enough
      fuel -, slices and indices with Go's bounds, the automation and the generic lemmas.
    - [Runes] (src/ioext/adhoc.go): UTF-8 as encoding/utf8 has it, white space, quotes.
    - [GoStrings]: Go's strings functions over runes, with letter cases as an interface.
    - [Readers] (src/ioext/adhoc.go): io.RuneReader and io.Reader as the classes
      [RuneReader] and [ByteReader]; their contracts [RuneSource] and [ByteSource]; the
      loops that read lines and texts from any reader.
    - [RuneReaders] (src/iorw/runesreader.go, slicerunereader.go): readers over runes and
      over a slice of readers, which implement the contracts.
    - [Buffer] (src/ioext/buffer.go): the buffer of chunks; [BufferCursor]: the cursor
      that walks it both ways and the searches built on it; [BuffReader]: the reader over
      a range of it.  [Texts] says what the buffer operations do to a buffer of UTF-8.
    - [IterMap] (src/ioext/itermap.go): the map that tells of its changes.
    - [Concurrent] (src/concurrent): the maps and slices scripts share, as a heap of nodes
      that hold each other by pointers; the order of [sync.Map.Range] is an argument.
    - [Streams] (src/fs/multifilesys.go [contextreader], src/iorw/adhoc.go): readers of open
      files and the loops that copy them; the interface [SeekSource] of readers with a
      position, and [io.LimitReader] as another [ByteSource].
    - [Opened] (src/fs/filesys.go [file]): opened files, over any [SeekSource].
    - [Serving] (src/serve/serveio/writer.go, reader.go, src/iorw/adhoc.go): the writer of a
      response with its buffer and its largest size, over any target of the class
      [Outgoing]; printing; the reader of a request, its range and its body; what of
      net/http, bufio and strconv they use.
    - [Mimes] (src/mimes/mimetypes.go): the type of a file by its extension, from a table;
      [Mimetypes] (src/mimes/mimetypes.txt) is the table that is embedded.
    - [Sessions] (src/serve/serveio/session): sessions and registries that hold each other by
      pointers, with what closing leaves to goroutines as tasks.
    - [Paths], [MultiFs] (src/fs/multifilesys.go) and [FileSys] (src/fs/filesys.go): paths,
      file systems mapped under paths and the search over a path for the one to ask, and a
      file system over a directory with set and cached files.  [MultiFs] asks its file
      systems through the class [FileSystem], which [FileSys] implements; the operating
      system is an argument.  [Listing] has the listing of a directory with its masks.
    - [MapReader] (src/ioext/mapreader.go): readers that replace keys as they read.
    - [Parsing] (src/template/parser.go, textparsing.go): the label parser, for callbacks
      that thread a state of their own and may change the parser.
    - [Attributes] (src/template/attributeparser.go): the attributes of an element.
    - [Code] (src/template/code.go): the script a template becomes; [Compile] proves it
      equal to a reference compiler.
    - [Elements] (src/template/content.go, markup.go): templates whose elements are other
      files, with the parsers as a heap and a stack of positions in it; [Tags] has what
      becomes of one tag, [Templates] the specification [expands] of whole pages and the
      proof that the code implements it.
    - [Active] (src/fs/active/active.go): pages that are parsed once, kept under their path
      and parsed again when files they name change.
    - [Handler] (src/globalsession/globalsession.go): what is done with a request; it brings
      [Sessions], [Mimes], [Active], [Streams] and [Serving] together.
    - [Site]: the file systems behind the handler: the reader a file is read with, whether
      it is set, opened or in an archive, and requests for the files of [MultiFs].
    - [Parameters] (src/parameters/parameters.go): the parameters of a request.
    - [Statement] (src/dbms/statement.go): prepared statements.
    - [Connections] (src/dbms/drivers.go, driver.go, connections.go, connection.go,
      dbmshandler.go, dbms.go): the registries of drivers and connections over the map of
      [IterMap], the handlers of readers, loading and unloading; queries go on to [Statement].
    - [Rows] (src/dbms/rows.go) and [Records] (src/dbms/reader.go, record.go): the rows of a
      query, read one ahead, over a database behind the class [IRows]; the reader of records
      over them, with its conditions, its end and what it closes.
    - [Csv] (src/dbdvl/gocsvreader.go) and [Dlv] (src/dbdvl/driver.go, connection.go, stmt.go):
      CSV files as rows of a database driver, with the arrays encoding/csv uses again, and the
      driver that opens them.
    - [Scheduling] (src/scheduling): intervals, calendars and when they tick.

    An operation keeps the name of its Go method; where two types have the same method the
    file tells them apart.  A receiver that may be nil is an [option].  State that a method
    changes is returned; pointers that are shared are heap positions where the sharing
    shows (the files of the parameters), values where it does not.

    ** What the theorems show

    - Refinement: any sequence of operations on a [Buffer] behaves like the same sequence
      on a string of bytes, for any chunk size ([Buffer.Buffer_refines_bytes]).
    - Searches and readers: what each search finds, also where it finds less than its name
      promises (the exact condition is the theorem's hypothesis, the other side an Example);
      what a reader delivers after seeking, limiting and copying.
    - The label parser loses nothing ([Parsing.Parse_lossless]) and keeps its states in
      bounds whatever its callbacks do ([Parsing.Parse_safe]); a whole template compiles to
      what the reference compiler says ([Compile.template_compiles]).
    - Templates: a page whose elements are files is parsed to its end and becomes what the
      relation [expands] says, however deep elements are in each other
      ([Templates.templates_expand]).  The relation covers text, tags that name no file and
      single elements; elements with content, code in elements and scripts are in the model
      and shown by Examples.
    - Parameters keep their count and their two kinds apart through any operations, URLs
      round trip; statements equal a reference, keep values out of texts, and fail exactly
      when a mark is open; calendars stay sorted and free of overlap through any operations,
      their loops end, and a tick always moves on; the events of a map tell what becomes of
      it, and a copy kept by them is right for every key whose events are handled in the order
      they were started in ([IterMap.events_follow]; nothing in the code keeps them in it).
    - A request for a file, or for a part of it, is answered with exactly these bytes and a
      header that tells what is sent ([Handler.file_delivered], [Handler.range_delivered]); a
      request for an active page with what its text expands to, from the cache from then on
      ([Handler.page_delivered], [Active.Parse_serves]).  They rest on a writer that passes on
      what it is given up to its largest size ([Serving.writer_delivers]), the table of types, of which the
      embedded one is an instance ([Mimes.FindMimeType_table], [Mimes.mimetypes_ok]) and registries that hold the sessions that are open,
      whatever the order in which goroutines run ([Sessions.registry_holds_open]).  Where the
      code goes wrong the Examples show it; a Seek after reading a rune makes the reader of a
      file call itself without end ([Streams.Seek_after_ReadRune_hangs]).
    - Maps and slices of [Concurrent] stay well typed and never panic through any operations,
      also when they hold each other in circles ([Concurrent.heap_typed]); with plain values
      they behave as finite maps and lists do.
    - The registries of databases stay well formed through any operations
      ([Connections.registries_ok]), a query reaches the database of its connection, which is
      opened once ([Connections.query_reaches_database]), registering again loses a connection
      ([Connections.Register_again_loses]) and unloading waits for registries that are empty
      ([Connections.Unload_waits]).
    - The rows of a query are delivered in their order, numbered, with the first and the last
      told, by reading one row ahead ([Rows.rows_deliver]), and a reader's loop gets the
      selected records and closes the reader once ([Records.Records_yields]); a CSV file gives
      its columns and rows, trimmed where the trimming works ([Csv.csv_delivers]).
    - Searching files ends for every path ([MultiFs.searches_end]), asks every file system
      that is mapped to a part of the path ([MultiFs.Stat_finds], [MultiFs.Open_finds]), and
      stays below the root for paths that meet the condition the stripping of [/../] needs and
      do not end in [/..]
      ([FileSys.Stat_inside]; the Examples show the paths that escape); what is set is found
      ([FileSys.Set_Stat]), unless another file was cached under the path and is not replaced, and what is set in a site is what the client receives
      ([Site.set_then_served]), but for a range that begins at the last byte of a piece of the
      file's buffer, of which nothing is received ([Site.last_of_a_piece]).  An opened file is
      its content with a position and a limit through reads and seeks of all kinds, but for
      seeks before the first read, which do nothing, and seeks from the current position, which
      count from where the reader has read ahead to ([Opened.opened_refines]).  A directory lists what
      is in it, each name once, and its masks find nothing ([Listing.List_directory]).

    ** Fuel and bounds

    Loops whose end depends on a reader or on the data run on fuel and answer [NoFuel] when
    it is used up; every theorem about such a loop states a fuel that is enough (the length
    of what is read, or a constant number of rounds where the proof finds one) and that the
    loop then answers.  Where the code does not return there is a theorem that no fuel is
    enough ([BuffReader.ForEachRunes_diverges], [Scheduling.bad_end_hangs],
    [Streams.Seek_after_ReadRune_hangs]).  Positions in
    buffers are unbounded integers: a buffer of 2^63 bytes is out of reach; nanoseconds
    wrap at 64 bits, as they do in the code for the year 0.

    ** Not modelled

    Locks and goroutines (one operation at a time; what operations leave to goroutines is
    told as events or tasks); contexts beyond being done or not; the
    JSON methods of buffers and readers; calls of methods by reflection; of file systems
    the watchers and unloading; network and file I/O; the running
    of scripts (an argument of [Handler]) and the handler of plain streams, whose type is
    declared nowhere; the older request handler in src/serve; the packages under
    src/ that are forks of third-party projects (script engine, spreadsheets, PDF, bar codes,
    IMAP, SMTP, WebSocket, minifiers), and src/iorw beyond its readers, its loops and its printing,
    an older copy of src/ioext. *)

From Stdlib Require Export ZArith Lia Bool.
From stdpp Require Export base tactics list option numbers.

#[global] Open Scope Z_scope.
#[global] Set Default Goal Selector "!".

(** ** Outcomes of Go code

    A Go statement either completes, panics (index or slice out of range, nil
    dereference) or, for a loop run with too little fuel, has not finished. *)

Inductive exec (A : Type) : Type :=
| Done (a : A)
| Panic
| NoFuel.

Arguments Done {A} a.
Arguments Panic {A}.
Arguments NoFuel {A}.

Definition exec_bind {A B} (m : exec A) (f : A → exec B) : exec B :=
  match m with
  | Done a => f a
  | Panic => Panic
  | NoFuel => NoFuel
  end.

Declare Scope go_scope.
Delimit Scope go_scope with go.
#[global] Open Scope go_scope.

Notation "'let*' x ':=' m 'in' k" := (exec_bind m (λ x, k))
  (at level 200, x binder, m at level 100, k at level 200, right associativity) : go_scope.
Notation "'let*' ' p ':=' m 'in' k" := (exec_bind m (λ x, let p := x in k))
  (at level 200, p strict pattern, m at level 100, k at level 200, right associativity) : go_scope.

#[global] Instance exec_eq_dec `{EqDecision A} : EqDecision (exec A).
Proof. solve_decision. Defined.

(** ** Go errors: the only error the code compares with is [io.EOF]. *)

Inductive goerr : Type :=
| EOF
| OtherErr (code : Z).

#[global] Instance goerr_eq_dec : EqDecision goerr.
Proof. solve_decision. Defined.

(** ** Slices: Go's [len], [l[i]] and [l[i:j]] with their run-time checks *)

Notation len l := (Z.of_nat (length l)).

Definition sub {A} (l : list A) (i j : Z) : list A :=
  take (Z.to_nat (j - i)) (drop (Z.to_nat i) l).

Definition slice {A} (l : list A) (i j : Z) : exec (list A) :=
  if (0 <=? i) && (i <=? j) && (j <=? len l) then Done (sub l i j) else Panic.

Definition index {A} (l : list A) (i : Z) : exec A :=
  if 0 <=? i then match l !! Z.to_nat i with Some x => Done x | None => Panic end
  else Panic.

(** Go's [copy(dst[d:d+n], src)] on a destination array, [n = len src]. *)
Definition blit {A} (dst : list A) (d : Z) (src : list A) : list A :=
  take (Z.to_nat d) dst ++ src ++ drop (Z.to_nat d + length src) dst.

(** Go's [append(l[:n], l[n+1:]...)]: element [n] removed. *)
Definition remove_at {A} (l : list A) (n : nat) : list A :=
  take n l ++ drop (S n) l.

Section slices.
Context {A : Type}.
Implicit Types l : list A.

Lemma sub_full l : sub l 0 (len l) = l.
Proof. unfold sub. rewrite drop_0, Z.sub_0_r, Nat2Z.id. apply firstn_all. Qed.

Lemma sub_nil l i : sub l i i = [].
Proof. unfold sub. by rewrite Z.sub_diag. Qed.

Lemma length_sub l i j : 0 ≤ i → i ≤ j → j ≤ len l → len (sub l i j) = j - i.
Proof. intros. unfold sub. rewrite length_take, length_drop. lia. Qed.

Lemma sub_app l i j k : 0 ≤ i → i ≤ j → j ≤ k → sub l i j ++ sub l j k = sub l i k.
Proof.
  intros. unfold sub.
  rewrite <- (take_drop (Z.to_nat (j - i)) (take (Z.to_nat (k - i)) (drop (Z.to_nat i) l))).
  rewrite take_take, skipn_firstn_comm, drop_drop. f_equal; f_equal; try lia.
  f_equal; lia.
Qed.

Lemma sub_to_end l i : 0 ≤ i → sub l i (len l) = drop (Z.to_nat i) l.
Proof.
  intros. unfold sub. apply take_ge. rewrite length_drop. lia.
Qed.

Lemma sub_from_0 l j : sub l 0 j = take (Z.to_nat j) l.
Proof. unfold sub. by rewrite drop_0, Z.sub_0_r. Qed.

Lemma sub_app_l l1 l2 i j : 0 ≤ i → j ≤ len l1 → sub (l1 ++ l2) i j = sub l1 i j.
Proof.
  intros. unfold sub. destruct (decide (i ≤ j)).
  - rewrite drop_app_le by lia. apply take_app_le. rewrite length_drop. lia.
  - replace (Z.to_nat (j - i)) with 0%nat by lia. by rewrite !take_0.
Qed.

Lemma sub_app_r l1 l2 i j :
  len l1 ≤ i → sub (l1 ++ l2) i j = sub l2 (i - len l1) (j - len l1).
Proof.
  intros. unfold sub. rewrite drop_app_ge by lia. f_equal; [lia|f_equal; lia].
Qed.

Lemma slice_ok l i j :
  0 ≤ i → i ≤ j → j ≤ len l → slice l i j = Done (sub l i j).
Proof.
  intros. unfold slice.
  by rewrite !(proj2 (Z.leb_le _ _)) by lia.
Qed.

Lemma slice_panic l i j :
  ¬ (0 ≤ i ∧ i ≤ j ∧ j ≤ len l) → slice l i j = Panic.
Proof.
  intros. unfold slice.
  destruct (Z.leb_spec 0 i), (Z.leb_spec i j), (Z.leb_spec j (len l)); simpl; auto; lia.
Qed.

Lemma slice_Done l i j r :
  slice l i j = Done r → 0 ≤ i ∧ i ≤ j ∧ j ≤ len l ∧ r = sub l i j.
Proof.
  unfold slice.
  destruct (Z.leb_spec 0 i), (Z.leb_spec i j), (Z.leb_spec j (len l)); simpl;
    intros [= <-]; auto.
Qed.

Lemma index_app_mid l1 x l2 : index (l1 ++ x :: l2) (len l1) = Done x.
Proof.
  unfold index. rewrite (proj2 (Z.leb_le _ _)) by lia.
  by rewrite Nat2Z.id, list_lookup_middle.
Qed.

Lemma index_lookup l i x :
  0 ≤ i → l !! Z.to_nat i = Some x → index l i = Done x.
Proof. intros. unfold index. rewrite (proj2 (Z.leb_le _ _)) by lia. by simplify_option_eq. Qed.

Lemma length_blit l d src :
  0 ≤ d → d + len src ≤ len l → length (blit l d src) = length l.
Proof.
  intros. unfold blit. rewrite !length_app, length_take, length_drop. lia.
Qed.

Lemma take_blit l d src :
  0 ≤ d → d + len src ≤ len l →
  take (Z.to_nat (d + len src)) (blit l d src) = take (Z.to_nat d) l ++ src.
Proof.
  intros. unfold blit. rewrite app_assoc, take_app_le.
  - apply take_ge. rewrite length_app, length_take. lia.
  - rewrite length_app, length_take. lia.
Qed.

Lemma length_remove_at l n :
  (n < length l)%nat → S (length (remove_at l n)) = length l.
Proof. intros. unfold remove_at. rewrite length_app, length_take, length_drop. lia. Qed.
End slices.

(** ** Automation *)

Create HintDb golen.
#[export] Hint Rewrite @length_app @length_take @length_drop @length_cons
  @length_nil @length_reverse @length_replicate : golen.

(** Arithmetic on lengths. *)
Ltac len_solve := autorewrite with golen in *; lia.

(** Case analysis on the boolean comparisons of the code. *)
Ltac zcase :=
  match goal with
  | |- context [?x <? ?y] => destruct (Z.ltb_spec x y)
  | |- context [?x <=? ?y] => destruct (Z.leb_spec x y)
  | |- context [?x =? ?y] => destruct (Z.eqb_spec x y)
  end.

Ltac zcase_in H :=
  match type of H with
  | context [?x <? ?y] => destruct (Z.ltb_spec x y)
  | context [?x <=? ?y] => destruct (Z.leb_spec x y)
  | context [?x =? ?y] => destruct (Z.eqb_spec x y)
  end.

(** Decide one comparison by [lia]. *)
Ltac ztrue x y :=
  first [ rewrite (proj2 (Z.ltb_lt x y)) by lia
        | rewrite (proj2 (Z.leb_le x y)) by lia
        | rewrite (proj2 (Z.eqb_eq x y)) by lia ].

Ltac zsimp :=
  repeat match goal with
  | |- context [?x <? ?y] =>
      first [ rewrite (proj2 (Z.ltb_lt x y)) by lia
            | rewrite (proj2 (Z.ltb_ge x y)) by lia ]
  | |- context [?x <=? ?y] =>
      first [ rewrite (proj2 (Z.leb_le x y)) by lia
            | rewrite (proj2 (Z.leb_gt x y)) by lia ]
  | |- context [?x =? ?y] =>
      first [ rewrite (proj2 (Z.eqb_eq x y)) by lia
            | rewrite (proj2 (Z.eqb_neq x y)) by lia ]
  end; simpl andb; simpl orb; simpl negb; cbv iota.
