(* ===== verification/Runes.v ===== *)
(** Runes, UTF-8 and the small helpers of src/ioext/adhoc.go.

    Bytes and runes are [Z] (a Go [byte] is in [0,256), a [rune] is an int32).
    The standard library's [unicode/utf8] and [unicode.IsSpace], which the code
    calls, are defined here; [RunesToUTF8], [IsSpace], [IsTxtPar] and
    [copyBytes] are the functions of the file. *)

From S2P Require Import Prelude.

(** ** unicode/utf8 *)
Module utf8.
Definition RuneError : Z := 65533.

Definition ValidRune (r : Z) : bool :=
  ((0 <=? r) && (r <? 55296)) || ((57343 <? r) && (r <=? 1114111)).

(** Number of bytes of the encoding, [-1] for a value that is not a rune. *)
Definition RuneLen (r : Z) : Z :=
  if r <? 0 then -1
  else if r <=? 127 then 1
  else if r <=? 2047 then 2
  else if (55296 <=? r) && (r <=? 57343) then -1
  else if r <=? 65535 then 3
  else if r <=? 1114111 then 4
  else -1.

Definition enc3 (r : Z) : list Z := [224 + r / 4096; 128 + (r / 64) mod 64; 128 + r mod 64].

(** The bytes [EncodeRune] writes: an invalid value is written as [RuneError]. *)
Definition encode (r : Z) : list Z :=
  if (0 <=? r) && (r <=? 127) then [r]
  else if (0 <=? r) && (r <=? 2047) then [192 + r / 64; 128 + r mod 64]
  else if negb (ValidRune r) then enc3 RuneError
  else if r <=? 65535 then enc3 r
  else [240 + r / 262144; 128 + (r / 4096) mod 64; 128 + (r / 64) mod 64; 128 + r mod 64].

(** [EncodeRune(p, r)]: the destination must have room for the bytes. *)
Definition EncodeRune (p : list Z) (r : Z) : exec (list Z * Z) :=
  let bs := encode r in
  if len bs <=? len p then Done (bs ++ drop (length bs) p, len bs) else Panic.

Definition cont (b : Z) : bool := (128 <=? b) && (b <=? 191).

(** Size of the sequence a first byte announces and the range of its second
    byte; [None] for a byte that starts no sequence. *)
Definition first (b : Z) : option (nat * Z * Z) :=
  if (194 <=? b) && (b <=? 223) then Some (2%nat, 128, 191)
  else if b =? 224 then Some (3%nat, 160, 191)
  else if b =? 237 then Some (3%nat, 128, 159)
  else if (225 <=? b) && (b <=? 239) then Some (3%nat, 128, 191)
  else if b =? 240 then Some (4%nat, 144, 191)
  else if (241 <=? b) && (b <=? 243) then Some (4%nat, 128, 191)
  else if b =? 244 then Some (4%nat, 128, 143)
  else None.

Definition DecodeRune (p : list Z) : Z * Z :=
  match p with
  | [] => (RuneError, 0)
  | p0 :: q =>
    if p0 <? 128 then (p0, 1)
    else match first p0 with
    | None => (RuneError, 1)
    | Some (sz, lo, hi) =>
      match q with
      | [] => (RuneError, 1)
      | b1 :: q1 =>
        if (length p <? sz)%nat then (RuneError, 1)
        else if (b1 <? lo) || (hi <? b1) then (RuneError, 1)
        else if (sz <=? 2)%nat then (p0 mod 32 * 64 + b1 mod 64, 2)
        else match q1 with
        | [] => (RuneError, 1)
        | b2 :: q2 =>
          if negb (cont b2) then (RuneError, 1)
          else if (sz <=? 3)%nat then (p0 mod 16 * 4096 + b1 mod 64 * 64 + b2 mod 64, 3)
          else match q2 with
          | [] => (RuneError, 1)
          | b3 :: _ =>
            if negb (cont b3) then (RuneError, 1)
            else (p0 mod 8 * 262144 + b1 mod 64 * 4096 + b2 mod 64 * 64 + b3 mod 64, 4)
          end
        end
      end
    end
  end.

(** [[]rune(s)] and [ReadRune] over a whole byte stream. *)
Fixpoint decode_fuel (n : nat) (p : list Z) : list Z :=
  match n, p with
  | _, [] => []
  | O, _ => []
  | S n', _ => let '(r, s) := DecodeRune p in r :: decode_fuel n' (drop (Z.to_nat s) p)
  end.
Definition runes (p : list Z) : list Z := decode_fuel (length p) p.
End utf8.

(** ** The functions of adhoc.go *)

(** [RunesToUTF8]: the buffer has the sum of the [RuneLen]s, [make] panics on a
    negative size and [EncodeRune] on a slice too short for its rune. *)
Definition runes_size (rs : list Z) : Z := foldl (λ s r, s + utf8.RuneLen r) 0 rs.

Fixpoint encode_into (bs : list Z) (count : Z) (rs : list Z) : exec (list Z) :=
  match rs with
  | [] => Done bs
  | r :: rs' =>
    let* tail := slice bs count (len bs) in
    let* '(tail', n) := utf8.EncodeRune tail r in
    encode_into (sub bs 0 count ++ tail') (count + n) rs'
  end.

Definition RunesToUTF8 (rs : list Z) : exec (list Z) :=
  let size := runes_size rs in
  if size <? 0 then Panic else encode_into (replicate (Z.to_nat size) 0) 0 rs.

Definition RunesToBytes (rs : list Z) : exec (list Z * Z) :=
  let* bs := RunesToUTF8 rs in Done (bs, len rs).

Definition asciiSpace (r : Z) : bool :=
  existsb (Z.eqb r) [9; 10; 11; 12; 13; 32].

(** [unicode.IsSpace] *)
Definition unicode_IsSpace (r : Z) : bool :=
  if r <=? 255 then existsb (Z.eqb r) [9; 10; 11; 12; 13; 32; 133; 160]
  else existsb (Z.eqb r) [5760; 8232; 8233; 8239; 8287; 12288] || ((8192 <=? r) && (r <=? 8202)).

Definition IsSpace (r : Z) : bool := asciiSpace r || ((128 <? r) && unicode_IsSpace r).

Definition IsTxtPar (r : Z) : bool := existsb (Z.eqb r) [39; 34; 96].

(** [copyBytes dest desti src srci] returns the destination written, the number
    of bytes copied and the two new positions. *)
Definition copyBytes (dest : list Z) (desti : Z) (src : list Z) (srci : Z)
  : exec (list Z * Z * Z * Z) :=
  let destl := len dest in
  let srcl := len src in
  if (0 <? destl) && (desti <? destl) && ((0 <? srcl) && (srci <? srcl)) then
    if srcl - srci <=? destl - desti then
      let* _ := slice dest desti (desti + (srcl - srci)) in
      let* s := slice src srci (srci + (srcl - srci)) in
      Done (blit dest desti s, len s, desti + len s, srci + len s)
    else if destl - desti <? srcl - srci then
      let* _ := slice dest desti (desti + (destl - desti)) in
      let* s := slice src srci (srci + (destl - desti)) in
      Done (blit dest desti s, len s, desti + len s, srci + len s)
    else Done (dest, 0, 0, 0)
  else Done (dest, 0, 0, 0).

(** [strings.TrimFunc] on the runes of a string. *)
Fixpoint TrimLeftFunc (f : Z → bool) (s : list Z) : list Z :=
  match s with
  | r :: s' => if f r then TrimLeftFunc f s' else s
  | [] => []
  end.
Definition TrimFunc (f : Z → bool) (s : list Z) : list Z :=
  reverse (TrimLeftFunc f (reverse (TrimLeftFunc f s))).

(** ** Lemmas *)

Notation valid_runes rs := (Forall (λ r, utf8.ValidRune r = true) rs).

Lemma ValidRune_spec r :
  utf8.ValidRune r = true ↔ (0 ≤ r < 55296) ∨ (57343 < r ≤ 1114111).
Proof. unfold utf8.ValidRune. repeat zcase; simpl; split; intros; try done; lia. Qed.

Lemma length_encode r :
  utf8.ValidRune r = true → len (utf8.encode r) = utf8.RuneLen r.
Proof.
  intros H. pose proof (proj1 (ValidRune_spec r) H). unfold utf8.encode, utf8.RuneLen.
  rewrite H. simpl negb. repeat zcase; simpl; try lia; done.
Qed.

Lemma RuneLen_pos r : utf8.ValidRune r = true → 1 ≤ utf8.RuneLen r ≤ 4.
Proof. intros H%ValidRune_spec. unfold utf8.RuneLen. repeat zcase; simpl; lia. Qed.

Lemma RuneLen_invalid r : utf8.ValidRune r = false → utf8.RuneLen r = -1.
Proof.
  unfold utf8.ValidRune, utf8.RuneLen. repeat zcase; simpl; intros; try done; lia.
Qed.

Lemma encode_nonempty r : utf8.encode r ≠ [].
Proof. unfold utf8.encode, utf8.enc3. repeat case_match; done. Qed.

(** The bytes of an encoding are bytes. *)
Lemma encode_bytes r : Forall (λ b, 0 ≤ b < 256) (utf8.encode r).
Proof.
  unfold utf8.encode, utf8.enc3, utf8.RuneError, utf8.ValidRune.
  repeat zcase; simpl; repeat constructor; Z.to_euclidean_division_equations; lia.
Qed.

(** The base-64 digits of a rune. *)
Lemma digits3 r :
  0 ≤ (r / 64) mod 64 < 64 ∧ 0 ≤ r mod 64 < 64 ∧
  r = r / 4096 * 4096 + (r / 64) mod 64 * 64 + r mod 64.
Proof. Z.to_euclidean_division_equations; lia. Qed.

Lemma digits4 r :
  0 ≤ (r / 4096) mod 64 < 64 ∧ r / 4096 = r / 262144 * 64 + (r / 4096) mod 64.
Proof. Z.to_euclidean_division_equations; lia. Qed.

(** [DecodeRune] reads back what [encode] wrote. *)
Lemma DecodeRune_encode r rest :
  utf8.ValidRune r = true →
  utf8.DecodeRune (utf8.encode r ++ rest) = (r, utf8.RuneLen r).
Proof.
  intros H. pose proof (proj1 (ValidRune_spec r) H) as Hr.
  unfold utf8.encode, utf8.RuneLen, utf8.enc3. rewrite H.
  zsimp. destruct (Z.leb_spec r 127); [zsimp; simpl; by zsimp|].
  destruct (Z.leb_spec r 2047).
  { cbn [app utf8.DecodeRune]. unfold utf8.first. zsimp.
    assert (194 ≤ 192 + r / 64 ≤ 223) by (Z.to_euclidean_division_equations; lia).
    zsimp. simpl. assert (0 ≤ r mod 64 < 64) by (apply Z.mod_pos_bound; lia). zsimp. simpl.
    f_equal. Z.to_euclidean_division_equations; lia. }
  pose proof (digits3 r) as (Hb & Hc & Hd). pose proof (digits4 r) as (Hf & Hg).
  assert ((55296 <=? r) && (r <=? 57343) = false) as -> by (repeat zcase; simpl; try done; lia).
  simpl negb. cbv iota.
  set (c := r mod 64) in *. set (b := (r / 64) mod 64) in *. set (a := r / 4096) in *.
  set (e := (r / 4096) mod 64) in *. set (f := r / 262144) in *.
  clearbody a b c e f.
  destruct (Z.leb_spec r 65535).
  - zsimp. simpl. unfold utf8.first, utf8.cont. zsimp.
    destruct (Z.eqb_spec (224 + a) 224); [|destruct (Z.eqb_spec (224 + a) 237)]; zsimp; simpl;
      zsimp; simpl; zsimp; simpl; f_equal; Z.to_euclidean_division_equations; lia.
  - zsimp. simpl. unfold utf8.first, utf8.cont. zsimp.
    destruct (Z.eqb_spec (240 + f) 240); [|destruct (Z.leb_spec (240 + f) 243)];
      zsimp; simpl; zsimp; simpl; zsimp; simpl; f_equal;
      Z.to_euclidean_division_equations; lia.
Qed.

(** A strict prefix of an encoding decodes to an error of size one: UTF-8 is
    self-delimiting, which is what [SubString] relies on. *)
Lemma DecodeRune_prefix r (k : nat) :
  utf8.ValidRune r = true → (0 < k)%nat → Z.of_nat k < utf8.RuneLen r →
  utf8.DecodeRune (take k (utf8.encode r)) = (utf8.RuneError, 1).
Proof.
  intros H Hk0 Hk. pose proof (proj1 (ValidRune_spec r) H) as Hr.
  rewrite <- length_encode in Hk by done.
  pose proof (digits3 r) as (Hb & Hc & Hd). pose proof (digits4 r) as (Hf & Hg).
  revert Hk. unfold utf8.encode, utf8.enc3. rewrite H. simpl negb. cbv iota.
  set (c := r mod 64) in *. set (b := (r / 64) mod 64) in *. set (a := r / 4096) in *.
  set (e := a mod 64) in *. set (f := r / 262144) in *. set (d := r / 64) in *.
  assert (0 ≤ d ∧ (r ≤ 2047 → d ≤ 31) ∧ (127 < r → 2 ≤ d))
    by (subst d; Z.to_euclidean_division_equations; lia).
  clearbody a b c d e f.
  destruct (Z.leb_spec r 127); [simpl; zsimp; simpl; lia|].
  destruct (Z.leb_spec r 2047); [|destruct (Z.leb_spec r 65535)]; zsimp; simpl; intros Hk;
    (destruct k as [|[|[|[|k]]]]; [lia|..]); simpl; unfold utf8.first, utf8.cont;
    simpl; try lia; repeat (zcase; simpl; try done; try lia).
Qed.

Lemma DecodeRune_size p : p ≠ [] → 1 ≤ (utf8.DecodeRune p).2 ≤ len p.
Proof.
  intros Hp. destruct p as [|p0 q]; [done|]. unfold utf8.DecodeRune.
  repeat (case_match; simpl; try lia).
Qed.

Lemma DecodeRune_nil : utf8.DecodeRune [] = (utf8.RuneError, 0).
Proof. done. Qed.

Definition encode_all (rs : list Z) : list Z := concat (map utf8.encode rs).

Lemma encode_all_app r1 r2 : encode_all (r1 ++ r2) = encode_all r1 ++ encode_all r2.
Proof. unfold encode_all. by rewrite map_app, concat_app. Qed.

Lemma drop_RuneLen_encode r rest :
  utf8.ValidRune r = true →
  drop (Z.to_nat (utf8.RuneLen r)) (utf8.encode r ++ rest) = rest.
Proof. intros H. rewrite <- length_encode, Nat2Z.id by done. apply drop_app_length. Qed.

Lemma decode_fuel_S n p :
  p ≠ [] →
  utf8.decode_fuel (S n) p =
    (utf8.DecodeRune p).1 :: utf8.decode_fuel n (drop (Z.to_nat (utf8.DecodeRune p).2) p).
Proof. intros H. destruct p; [done|]. cbn [utf8.decode_fuel]. by destruct (utf8.DecodeRune _). Qed.

Lemma encode_all_cons r rs : encode_all (r :: rs) = utf8.encode r ++ encode_all rs.
Proof. done. Qed.

Lemma decode_fuel_encode n rs :
  valid_runes rs → (length (encode_all rs) ≤ n)%nat → utf8.decode_fuel n (encode_all rs) = rs.
Proof.
  intros Hv. revert n. induction Hv as [|r rs Hr Hv IH]; intros n Hn; [by destruct n|].
  rewrite encode_all_cons in *. rewrite length_app in Hn.
  pose proof (encode_nonempty r) as Hne.
  assert (0 < length (utf8.encode r))%nat by (destruct (utf8.encode r); simpl; [done|lia]).
  destruct n as [|n]; [lia|].
  rewrite decode_fuel_S by (by intros [? _]%app_eq_nil).
  rewrite DecodeRune_encode by done. simpl. rewrite drop_RuneLen_encode by done.
  f_equal. apply IH. lia.
Qed.

Lemma runes_encode_all rs : valid_runes rs → utf8.runes (encode_all rs) = rs.
Proof. intros. by apply decode_fuel_encode. Qed.

Lemma runes_size_encode_all_go rs s :
  valid_runes rs → foldl (λ s r, s + utf8.RuneLen r) s rs = s + len (encode_all rs).
Proof.
  intros Hv. revert s. unfold encode_all.
  induction Hv as [|r rs Hr Hv IH]; intros s; simpl; [lia|].
  rewrite IH, length_app, <- length_encode by done. lia.
Qed.

Lemma encode_into_valid rs done_ (n : nat) :
  valid_runes rs → n = length (encode_all rs) →
  encode_into (done_ ++ replicate n 0) (len done_) rs = Done (done_ ++ encode_all rs).
Proof.
  intros Hv. revert done_ n. induction Hv as [|r rs Hr Hv IH]; intros d n ->; [done|].
  simpl. rewrite slice_ok by len_solve. simpl.
  rewrite sub_app_r by lia. rewrite Z.sub_diag.
  replace (len (d ++ _) - len d) with (len (replicate (length (encode_all (r :: rs))) 0)) by len_solve.
  rewrite sub_full. unfold utf8.EncodeRune, encode_all. simpl.
  rewrite (proj2 (Z.leb_le _ _)) by len_solve. simpl.
  rewrite drop_replicate, sub_app_l, sub_full by lia.
  rewrite app_assoc.
  replace (len d + len (utf8.encode r)) with (len (d ++ utf8.encode r)) by len_solve.
  rewrite IH; [by rewrite <- app_assoc|]. unfold encode_all. len_solve.
Qed.

Lemma RunesToUTF8_valid rs : valid_runes rs → RunesToUTF8 rs = Done (encode_all rs).
Proof.
  intros Hv. unfold RunesToUTF8, runes_size. rewrite runes_size_encode_all_go by done.
  zsimp. rewrite Z.add_0_l, Nat2Z.id.
  by apply (encode_into_valid rs [] (length (encode_all rs))).
Qed.

Lemma length_encode_all_ge rs : (length rs ≤ length (encode_all rs))%nat.
Proof.
  unfold encode_all. induction rs as [|r rs IH]; simpl; [lia|]. rewrite length_app.
  pose proof (encode_nonempty r). destruct (utf8.encode r); simpl; [done|lia].
Qed.

(** [copyBytes] copies as much as fits. *)
Lemma copyBytes_spec dest desti src srci :
  0 ≤ desti ≤ len dest → 0 ≤ srci ≤ len src →
  let n := Z.min (len dest - desti) (len src - srci) in
  copyBytes dest desti src srci =
    if n =? 0 then Done (dest, 0, 0, 0)
    else Done (blit dest desti (sub src srci (srci + n)), n, desti + n, srci + n).
Proof.
  intros Hd Hs n. subst n. unfold copyBytes.
  destruct (Z.ltb_spec 0 (len dest)), (Z.ltb_spec desti (len dest)),
    (Z.ltb_spec 0 (len src)), (Z.ltb_spec srci (len src)); simpl;
    try (rewrite (proj2 (Z.eqb_eq _ _)) by lia; done).
  destruct (Z.leb_spec (len src - srci) (len dest - desti)) as [Hle|Hgt];
    [rewrite Z.min_r by lia|rewrite Z.min_l by lia; zsimp];
    rewrite !slice_ok by lia; simpl; zsimp; rewrite length_sub by lia;
    rewrite Z.add_simpl_l; done.
Qed.

Notation is_bytes bs := (Forall (λ b, 0 ≤ b < 256) bs).

#[local] Ltac first_side :=
  solve [ done | lia | intros; Z.to_euclidean_division_equations; lia
        | Z.to_euclidean_division_equations; lia ].

(** The lead bytes, with what a valid sequence of each may encode. *)
Lemma first_cases p0 sz lo hi :
  utf8.first p0 = Some (sz, lo, hi) →
  (sz = 2%nat) ∨
  (sz = 3%nat ∧ 128 ≤ lo ∧ hi ≤ 191 ∧ 0 ≤ p0 mod 16 ≤ 15 ∧ (p0 mod 16 = 13 → hi = 159)) ∨
  (sz = 4%nat ∧ 128 ≤ lo ∧ hi ≤ 191 ∧ 0 ≤ p0 mod 8 ≤ 4 ∧ (p0 mod 8 = 4 → hi = 143) ∧
    (p0 mod 8 = 0 → lo = 144)).
Proof.
  unfold utf8.first. repeat zcase; simpl; intros [= <- <- <-]; subst;
    first [ left; done | right; left; split_and!; first_side | right; right; split_and!; first_side ].
Qed.

Lemma mod64_bounds b : 0 ≤ b mod 64 < 64.
Proof. apply Z.mod_pos_bound. lia. Qed.

Lemma mod64_cont b : 128 ≤ b ≤ 191 → b mod 64 = b - 128.
Proof. intros. Z.to_euclidean_division_equations; lia. Qed.

(** Whatever the bytes, decoding yields runes. *)
Lemma DecodeRune_valid p : is_bytes p → utf8.ValidRune (utf8.DecodeRune p).1 = true.
Proof.
  intros Hp. apply ValidRune_spec. unfold utf8.DecodeRune.
  destruct p as [|p0 q]; [simpl; unfold utf8.RuneError; lia|].
  inversion Hp as [|? ? Hp0 Hq]; subst.
  destruct (Z.ltb_spec p0 128); [simpl; lia|].
  destruct (utf8.first p0) as [[[sz lo] hi]|] eqn:Hf; [|simpl; unfold utf8.RuneError; lia].
  apply first_cases in Hf.
  destruct q as [|b1 q]; [simpl; unfold utf8.RuneError; lia|]. unfold utf8.RuneError.
  destruct (Nat.ltb (length (p0 :: b1 :: q)) sz); [simpl; lia|].
  destruct (Z.ltb_spec b1 lo); [simpl; lia|]. destruct (Z.ltb_spec hi b1); [simpl; lia|].
  pose proof (mod64_bounds b1) as Hm1. simpl orb. cbv iota.
  destruct Hf as [->|[(-> & Hlo & Hhi & Hm & Hs)|(-> & Hlo & Hhi & Hm & Hs & Hs0)]]; simpl.
  - pose proof (Z.mod_pos_bound p0 32 ltac:(lia)). lia.
  - pose proof (mod64_cont b1 ltac:(lia)) as Hx.
    destruct q as [|b2 q]; simpl; [lia|]. pose proof (mod64_bounds b2).
    destruct (negb _); simpl; [lia|]. set (x := p0 mod 16) in *.
    destruct (decide (x = 13)) as [E|E]; [specialize (Hs E)|]; lia.
  - pose proof (mod64_cont b1 ltac:(lia)) as Hx.
    destruct q as [|b2 q]; simpl; [lia|]. pose proof (mod64_bounds b2).
    destruct (negb _); simpl; [lia|].
    destruct q as [|b3 q]; simpl; [lia|]. pose proof (mod64_bounds b3).
    destruct (negb _); simpl; [lia|]. set (x := p0 mod 8) in *.
    destruct (decide (x = 4)) as [E|E]; [specialize (Hs E); lia|].
    destruct (decide (x = 0)) as [E0|E0]; [specialize (Hs0 E0)|]; lia.
Qed.

Lemma runes_valid p : is_bytes p → valid_runes (utf8.runes p).
Proof.
  unfold utf8.runes. generalize (length p) as n. intros n. revert p.
  induction n as [|n IH]; intros p Hp; [by destruct p|].
  destruct (decide (p = [])) as [->|Hne]; [done|].
  rewrite decode_fuel_S by done. constructor; [by apply DecodeRune_valid|].
  apply IH. by apply Forall_drop.
Qed.

Lemma length_runes_le p : (length (utf8.runes p) ≤ length p)%nat.
Proof.
  unfold utf8.runes. generalize (length p) as n. intros n. revert p.
  induction n as [|n IH]; intros [|b p]; try (simpl; lia).
  cbn [utf8.decode_fuel]. destruct (utf8.DecodeRune (b :: p)) as [r k]. simpl.
  specialize (IH (drop (Z.to_nat k) (b :: p))). lia.
Qed.

Lemma encode_all_is_bytes rs : is_bytes (encode_all rs).
Proof.
  induction rs as [|r rs IH]; [constructor|].
  rewrite encode_all_cons. apply Forall_app. split; [apply encode_bytes|done].
Qed.

(** RunesToUTF8 and RunesToBytes encode valid runes as bytes that decode to the
    same runes. *)
Theorem RunesToUTF8_roundtrip rs :
  valid_runes rs →
  ∃ bs, RunesToUTF8 rs = Done bs ∧ RunesToBytes rs = Done (bs, len rs) ∧ is_bytes bs ∧ utf8.runes bs = rs.
Proof.
  intros Hv. exists (encode_all rs). unfold RunesToBytes. rewrite RunesToUTF8_valid by done.
  split_and!; [done|done|apply encode_all_is_bytes|by apply runes_encode_all].
Qed.

Lemma RunesToUTF8_roundtrip_witness :
  ∃ bs, RunesToUTF8 [97; 8364; 128512] = Done bs ∧ RunesToBytes [97; 8364; 128512] = Done (bs, 3) ∧
    is_bytes bs ∧ utf8.runes bs = [97; 8364; 128512].
Proof. apply (RunesToUTF8_roundtrip [97; 8364; 128512]). by repeat constructor. Defined.

(** A surrogate half has length -1, so that the slice made is too short: the encoding
    panics where [utf8.EncodeRune] would write the replacement character. *)
Example RunesToUTF8_surrogate : RunesToUTF8 [55296] = Panic.
Proof. reflexivity. Qed.
