(* ===== verification/GoStrings.v ===== *)
(** Go's strings package as the code uses it, on strings given by their runes: the
    cases of letters, trimming, splitting and joining.  The case tables of the letters
    beyond ASCII belong to the unicode package and are an interface here. *)

From S2P Require Import Prelude Runes.
#[local] Open Scope Z_scope.

(** Upper and lower case beyond ASCII, and the runes that fold to each other when one
    of them is beyond ASCII. *)
Class UnicodeCase := {
  unicode_ToUpper : Z → Z;
  unicode_ToLower : Z → Z;
  unicode_fold : Z → Z → bool;
  unicode_upper_idem r : 128 ≤ r → 128 ≤ unicode_ToUpper r → unicode_ToUpper (unicode_ToUpper r) = unicode_ToUpper r;
  unicode_upper_ascii r : 128 ≤ r → unicode_ToUpper r < 128 → ¬ (97 ≤ unicode_ToUpper r ≤ 122);
  unicode_upper_space r : 128 ≤ r → IsSpace (unicode_ToUpper r) = IsSpace r;
  unicode_upper_valid r : utf8.ValidRune r = true → 128 ≤ r → utf8.ValidRune (unicode_ToUpper r) = true }.

Section case.
Context `{UnicodeCase}.

Definition rune_ToUpper (r : Z) : Z :=
  if r <? 128 then (if (97 <=? r) && (r <=? 122) then r - 32 else r) else unicode_ToUpper r.
Definition rune_ToLower (r : Z) : Z :=
  if r <? 128 then (if (65 <=? r) && (r <=? 90) then r + 32 else r) else unicode_ToLower r.

Definition ToUpper (s : list Z) : list Z := map rune_ToUpper s.
Definition ToLower (s : list Z) : list Z := map rune_ToLower s.

Definition rune_fold (a b : Z) : bool :=
  if a =? b then true
  else if (a <? 128) && (b <? 128) then rune_ToLower a =? rune_ToLower b
  else unicode_fold a b.

Fixpoint EqualFold (s t : list Z) : bool :=
  match s, t with
  | [], [] => true
  | a :: s', b :: t' => rune_fold a b && EqualFold s' t'
  | _, _ => false
  end.
End case.

Definition TrimRightFunc (f : Z → bool) (s : list Z) : list Z := reverse (TrimLeftFunc f (reverse s)).
Definition TrimSpace (s : list Z) : list Z := TrimFunc IsSpace s.

Fixpoint Join (a : list (list Z)) (sep : list Z) : list Z :=
  match a with
  | [] => []
  | [x] => x
  | x :: a' => x ++ sep ++ Join a' sep
  end.

(** [Split] at a separator of one rune. *)
Fixpoint Split (s : list Z) (sep : Z) : list (list Z) :=
  match s with
  | [] => [[]]
  | r :: s' =>
    if r =? sep then [] :: Split s' sep
    else match Split s' sep with
         | x :: a => (r :: x) :: a
         | [] => [[r]]
         end
  end.

(** [Replace] of one rune by a string, everywhere. *)
Definition Replace (s : list Z) (old : Z) (new : list Z) : list Z :=
  concat (map (λ r, if r =? old then new else [r]) s).

(** [ReplaceAll] of a string that is not empty; [n] is at least the length. *)
Fixpoint ReplaceAll_from (n : nat) (s old new : list Z) : list Z :=
  match n, s with
  | S n', r :: s' =>
    if bool_decide (take (length old) s = old) then new ++ ReplaceAll_from n' (drop (length old) s) old new
    else r :: ReplaceAll_from n' s' old new
  | _, _ => s
  end.
Definition ReplaceAll (s old new : list Z) : list Z := ReplaceAll_from (length s) s old new.

(** [Cut] at a separator of one rune: what is before it, after it, and whether it is there. *)
Fixpoint Cut (s : list Z) (sep : Z) : list Z * list Z * bool :=
  match s with
  | [] => ([], [], false)
  | r :: s' =>
    if r =? sep then ([], s', true)
    else let '(a, b, f) := Cut s' sep in (r :: a, b, f)
  end.

Definition contains_rune (s : list Z) (r : Z) : bool := existsb (Z.eqb r) s.

(** * Lemmas *)

Lemma TrimLeftFunc_split f s :
  ∃ a, s = a ++ TrimLeftFunc f s ∧ Forall (λ r, f r = true) a.
Proof.
  induction s as [|r s (a & E & Ha)]; [by exists []|]. cbn. destruct (f r) eqn:Ef; [|by exists []].
  exists (r :: a). split; [cbn; by rewrite <- E|by constructor].
Qed.

Lemma TrimLeftFunc_head f s : match TrimLeftFunc f s with r :: _ => f r = false | [] => True end.
Proof. induction s as [|r s IH]; [done|]. cbn. destruct (f r) eqn:Ef; [exact IH|done]. Qed.

Lemma TrimLeftFunc_id f s : match s with r :: _ => f r = false | [] => True end → TrimLeftFunc f s = s.
Proof. destruct s as [|r s]; [done|]. cbn. by intros ->. Qed.

Lemma TrimLeftFunc_idem f s : TrimLeftFunc f (TrimLeftFunc f s) = TrimLeftFunc f s.
Proof. apply TrimLeftFunc_id, TrimLeftFunc_head. Qed.

Lemma TrimRightFunc_split f s :
  ∃ a, s = TrimRightFunc f s ++ a ∧ Forall (λ r, f r = true) a.
Proof.
  destruct (TrimLeftFunc_split f (reverse s)) as (a & E & Ha). exists (reverse a). split.
  - unfold TrimRightFunc. rewrite <- reverse_app, <- E. by rewrite reverse_involutive.
  - by apply Forall_reverse.
Qed.

(** The first rune stays first when the end is trimmed. *)
Lemma TrimRightFunc_head f s :
  match s with r :: _ => f r = false | [] => True end →
  match TrimRightFunc f s with r :: _ => f r = false | [] => True end.
Proof.
  destruct (TrimRightFunc_split f s) as (a & E & _). destruct (TrimRightFunc f s) as [|r t]; [done|].
  rewrite E. cbn. done.
Qed.

Lemma TrimFunc_right f s : TrimFunc f s = TrimRightFunc f (TrimLeftFunc f s).
Proof. done. Qed.

Lemma TrimFunc_idem f s : TrimFunc f (TrimFunc f s) = TrimFunc f s.
Proof.
  rewrite !TrimFunc_right, (TrimLeftFunc_id f (TrimRightFunc f (TrimLeftFunc f s))).
  - unfold TrimRightFunc. by rewrite reverse_involutive, TrimLeftFunc_idem.
  - apply TrimRightFunc_head, TrimLeftFunc_head.
Qed.

Lemma TrimLeftFunc_map f g s : (∀ r, f (g r) = f r) → TrimLeftFunc f (map g s) = map g (TrimLeftFunc f s).
Proof. intros Hg. induction s as [|r s IH]; [done|]. cbn. rewrite Hg, IH. by destruct (f r). Qed.

Lemma TrimFunc_map f g s : (∀ r, f (g r) = f r) → TrimFunc f (map g s) = map g (TrimFunc f s).
Proof.
  intros Hg. rewrite !TrimFunc_right. unfold TrimRightFunc. rewrite TrimLeftFunc_map by done.
  by rewrite <- fmap_reverse, TrimLeftFunc_map, <- fmap_reverse by done.
Qed.

Lemma TrimFunc_incl f s (P : Z → Prop) : Forall P s → Forall P (TrimFunc f s).
Proof.
  intros Hs. destruct (TrimLeftFunc_split f s) as (a & E & _). destruct (TrimRightFunc_split f (TrimLeftFunc f s)) as (b & E' & _). rewrite TrimFunc_right.
  rewrite E in Hs. apply Forall_app in Hs as [_ Hs]. rewrite E' in Hs. by apply Forall_app in Hs as [Hs _].
Qed.

Section case_lemmas.
Context `{UnicodeCase}.

Lemma rune_ToUpper_space r : IsSpace (rune_ToUpper r) = IsSpace r.
Proof.
  unfold rune_ToUpper. destruct (Z.ltb_spec r 128); [|by apply unicode_upper_space].
  destruct (Z.leb_spec 97 r), (Z.leb_spec r 122); try done. cbn [andb].
  assert (∀ x, 60 ≤ x < 128 → IsSpace x = false) as Hx.
  { intros x Hx. unfold IsSpace, asciiSpace. cbn [existsb].
    repeat match goal with |- context [x =? ?k] => rewrite (proj2 (Z.eqb_neq x k)) by lia end.
    cbn [orb]. by rewrite (proj2 (Z.ltb_ge 128 x)) by lia. }
  by rewrite !Hx by lia.
Qed.

Lemma rune_ToUpper_idem r : rune_ToUpper (rune_ToUpper r) = rune_ToUpper r.
Proof.
  unfold rune_ToUpper at 2 3. destruct (Z.ltb_spec r 128).
  - destruct (Z.leb_spec 97 r), (Z.leb_spec r 122); cbn [andb]; unfold rune_ToUpper;
      repeat (first [rewrite (proj2 (Z.ltb_lt _ _)) by lia | rewrite (proj2 (Z.leb_gt _ _)) by lia]); try done;
      rewrite ?(proj2 (Z.leb_gt r 122)), ?andb_false_r by lia; done.
  - unfold rune_ToUpper. destruct (Z.ltb_spec (unicode_ToUpper r) 128) as [Hu|Hu]; [|by apply unicode_upper_idem].
    pose proof (unicode_upper_ascii r ltac:(done) Hu).
    destruct (Z.leb_spec 97 (unicode_ToUpper r)), (Z.leb_spec (unicode_ToUpper r) 122); try done; lia.
Qed.

Lemma ToUpper_idem s : ToUpper (ToUpper s) = ToUpper s.
Proof. unfold ToUpper. rewrite map_map. apply map_ext. apply rune_ToUpper_idem. Qed.

Lemma TrimSpace_ToUpper s : TrimSpace (ToUpper s) = ToUpper (TrimSpace s).
Proof. unfold TrimSpace, ToUpper. apply TrimFunc_map, rune_ToUpper_space. Qed.

Lemma rune_fold_refl r : rune_fold r r = true.
Proof. unfold rune_fold. by rewrite Z.eqb_refl. Qed.

Lemma EqualFold_refl s : EqualFold s s = true.
Proof. induction s as [|r s IH]; [done|]. cbn. by rewrite rune_fold_refl, IH. Qed.
End case_lemmas.

(** Without letters beyond ASCII. *)
#[export] Instance ascii_case : UnicodeCase.
Proof.
  refine {| unicode_ToUpper r := r; unicode_ToLower r := r; unicode_fold _ _ := false |}; [done|lia|done|done].
Defined.

(** ** Splitting what was joined *)

Lemma contains_cons c s k : contains_rune (c :: s) k = (k =? c) || contains_rune s k.
Proof. done. Qed.

Lemma contains_app s t k : contains_rune (s ++ t) k = contains_rune s k || contains_rune t k.
Proof. apply existsb_app. Qed.

Lemma Cut_first s t k : contains_rune s k = false → Cut (s ++ k :: t) k = (s, t, true).
Proof.
  induction s as [|c s IH]; [cbn; by rewrite Z.eqb_refl|]. rewrite contains_cons.
  intros [Hc Hs]%orb_false_iff. cbn. by rewrite Z.eqb_sym, Hc, IH.
Qed.

Lemma Split_plain s k : contains_rune s k = false → Split s k = [s].
Proof.
  induction s as [|c s IH]; [done|]. rewrite contains_cons. intros [Hc Hs]%orb_false_iff. cbn.
  by rewrite Z.eqb_sym, Hc, IH.
Qed.

Lemma Split_first s t k : contains_rune s k = false → Split (s ++ k :: t) k = s :: Split t k.
Proof.
  induction s as [|c s IH]; [cbn; by rewrite Z.eqb_refl|]. rewrite contains_cons.
  intros [Hc Hs]%orb_false_iff. cbn. by rewrite Z.eqb_sym, Hc, IH.
Qed.

Lemma Join_cons s s' parts sep : Join (s :: s' :: parts) sep = s ++ sep ++ Join (s' :: parts) sep.
Proof. done. Qed.

Lemma Split_Join parts k :
  parts ≠ [] → Forall (λ s, contains_rune s k = false) parts → Split (Join parts [k]) k = parts.
Proof.
  intros Hne Hp. induction Hp as [|s parts Hs Hp IH]; [done|]. destruct parts as [|s' parts]; [by apply Split_plain|].
  rewrite Join_cons. cbn [app]. rewrite Split_first by done. by rewrite IH.
Qed.
