(* ===== verification/Readers.v ===== *)
(** The reader interfaces and the generic reading loops of src/ioext/adhoc.go.

    [RuneReader] and [ByteReader] are Go's [io.RuneReader] and [io.Reader] as
    step functions on the reader's state; [RuneSource] and [ByteSource] are the
    contracts under which the loops are verified: a component that implements a
    reader proves its instance, a component that reads from one uses the laws. *)

From S2P Require Import Prelude Runes.

(** ** Interfaces *)

(** [ReadRune() (r rune, size int, err error)] *)
Class RuneReader (S : Type) := read_rune : S → exec (Z * Z * option goerr * S).

(** [Read(p) (n int, err error)]: the bytes put at the start of a [p] of the
    given length. *)
Class ByteReader (S : Type) := read_bytes : S → Z → exec (list Z * option goerr * S).

(** A rune reader that delivers a finite sequence of runes, then [io.EOF]. *)
Class RuneSource (S : Type) `{!RuneReader S} := {
  pending : S → list Z → Prop;
  pending_cons s r rs : pending s (r :: rs) →
    ∃ n s', read_rune s = Done (r, n, None, s') ∧ 0 < n ∧ pending s' rs;
  pending_nil s : pending s [] →
    ∃ r s', read_rune s = Done (r, 0, Some EOF, s') ∧ pending s' [] }.

(** A byte reader that delivers a finite sequence of bytes in non-empty pieces,
    then [io.EOF]. *)
Class ByteSource (S : Type) `{!ByteReader S} := {
  bpending : S → list Z → Prop;
  bpending_cons s bs n : bpending s bs → bs ≠ [] → 0 < n →
    ∃ k s', read_bytes s n = Done (take k bs, None, s') ∧ (0 < k)%nat ∧
            Z.of_nat k ≤ n ∧ (k ≤ length bs)%nat ∧ bpending s' (drop k bs);
  bpending_nil s n : bpending s [] → 0 < n →
    ∃ s', read_bytes s n = Done ([], Some EOF, s') ∧ bpending s' [] }.

(** ** bufio.Reader *)

Record bufio := Bufio { bb_buf : list Z; bb_err : option goerr }.

Definition bufio_new : bufio := Bufio [] None.

(** [utf8.FullRune] *)
Definition FullRune (p : list Z) : bool :=
  match p with
  | [] => false
  | p0 :: q =>
    match utf8.first p0 with
    | None => true
    | Some (sz, lo, hi) =>
      (sz <=? length p)%nat ||
      match q with
      | [] => false
      | b1 :: q1 => (b1 <? lo) || (hi <? b1) ||
        match q1 with [] => false | b2 :: _ => negb (utf8.cont b2) end
      end
    end
  end.

Section bufio.
Context {S : Type} `{!ByteReader S}.

(** [fill]: at most 100 empty reads, then [io.ErrNoProgress] (error 100). *)
Fixpoint bufio_fill (tries : nat) (cap : Z) (b : bufio) (s : S) : exec (bufio * S) :=
  match tries with
  | O => Done (Bufio (bb_buf b) (Some (OtherErr 100)), s)
  | Datatypes.S tries' =>
    let* '(bs, err, s') := read_bytes s (cap - len (bb_buf b)) in
    let b' := Bufio (bb_buf b ++ bs) (bb_err b) in
    match err with
    | Some _ => Done (Bufio (bb_buf b') err, s')
    | None => if 0 <? len bs then Done (b', s') else bufio_fill tries' cap b' s'
    end
  end.

Definition needs_fill (cap : Z) (b : bufio) : bool :=
  (len (bb_buf b) <? 4) && negb (FullRune (bb_buf b)) &&
  bool_decide (bb_err b = None) && (len (bb_buf b) <? cap).

Fixpoint bufio_fill_rune (fuel : nat) (cap : Z) (b : bufio) (s : S) : exec (bufio * S) :=
  match fuel with
  | O => NoFuel
  | Datatypes.S fuel' =>
    if needs_fill cap b then
      let* '(b', s') := bufio_fill 100 cap b s in bufio_fill_rune fuel' cap b' s'
    else Done (b, s)
  end.

(** [ReadRune]: every [fill] adds a byte or sets the error, so five rounds are
    always enough. *)
Definition bufio_ReadRune (cap : Z) (b : bufio) (s : S)
  : exec (Z * Z * option goerr * bufio * S) :=
  let* '(b', s') := bufio_fill_rune 6 cap b s in
  if len (bb_buf b') =? 0 then Done (0, 0, bb_err b', Bufio [] None, s')
  else
    let '(r, n) := utf8.DecodeRune (bb_buf b') in
    Done (r, n, None, Bufio (drop (Z.to_nat n) (bb_buf b')) (bb_err b'), s').
End bufio.

Lemma bufio_fill_read {S} `{!ByteReader S} tries cap b (s s' : S) bs err :
  read_bytes s (cap - len (bb_buf b)) = Done (bs, err, s') → err ≠ None ∨ 0 < len bs →
  bufio_fill (Datatypes.S tries) cap b s =
  Done (Bufio (bb_buf b ++ bs) (match err with Some e => Some e | None => bb_err b end), s').
Proof.
  intros Hr Hor. cbn [bufio_fill]. rewrite Hr. cbn [exec_bind]. destruct err; [done|].
  destruct Hor as [?|Hl]; [done|]. by zsimp.
Qed.

#[global] Instance bufio_RuneReader {S} `{!ByteReader S} : RuneReader (bufio * S) :=
  λ '(b, s), let* '(r, n, e, b', s') := bufio_ReadRune 4096 b s in Done (r, n, e, (b', s')).

(** ** Reading loops *)
Section loops.
Context {S : Type} `{!RuneReader S}.

(** [ReadRunes(p, rd)]: at most [pl] runes; the loop ends when [p] is full or
    the reader stops. *)
Fixpoint ReadRunes_loop (fuel : nat) (pl : Z) (p : list Z) (rd : S)
  : exec (list Z * option goerr * S) :=
  match fuel with
  | O => NoFuel
  | Datatypes.S fuel' =>
    if len p <? pl then
      let* '(pr, ps, perr, rd') := read_rune rd in
      let p' := if 0 <? ps then p ++ [pr] else p in
      match perr with
      | Some e => Done (p', Some e, rd')
      | None => if ps =? 0 then Done (p', Some EOF, rd')
                else ReadRunes_loop fuel' pl p' rd'
      end
    else Done (p, None, rd)
  end.

Definition ReadRunes (fuel : nat) (pl : Z) (rd : S) : exec (list Z * option goerr * S) :=
  if 0 <? pl then
    let* '(p, err, rd') := ReadRunes_loop fuel pl [] rd in
    let err' := if (0 <? len p) && bool_decide (err = Some EOF) then None else err in
    Done (p, err', rd')
  else Done ([], None, rd).

(** [ReadRunesEOFFunc(r, fncrne)] with the callback as a state transformer. *)
Fixpoint ReadRunesEOFFunc {T} (fuel : nat) (fncrne : Z → T → option goerr * T) (t : T) (r : S)
  : exec (option goerr * T * S) :=
  match fuel with
  | O => NoFuel
  | Datatypes.S fuel' =>
    let* '(rn, size, rnerr, r') := read_rune r in
    let '(err, t') := if 0 <? size then fncrne rn t else (None, t) in
    match err with
    | Some e => Done (Some e, t', r')
    | None =>
      match rnerr with
      | Some EOF => Done (None, t', r')
      | Some e => Done (Some e, t', r')
      | None => ReadRunesEOFFunc fuel' fncrne t' r'
      end
    end
  end.

(** The runes read are collected in a buffer of [cap] runes, which is appended to
    the string [s] when it is full. *)
Definition push_rune (cap : Z) (rn : Z) (s rns : list Z) : list Z * list Z :=
  let rns' := rns ++ [rn] in
  if len rns' =? cap then (s ++ rns', []) else (s, rns').

(** [ReaderToString] *)
Definition to_string_step (rn : Z) (st : list Z * list Z)
  : option goerr * (list Z * list Z) := (None, push_rune 1024 rn st.1 st.2).

Definition ReaderToString (fuel : nat) (r : S) : exec (list Z * option goerr * S) :=
  let* '(err, (s, rns), r') := ReadRunesEOFFunc fuel to_string_step ([], []) r in
  let s' := match err with None | Some EOF => s ++ rns | _ => s end in
  Done (s', match err with Some EOF => None | e => e end, r').

(** [ReadLine(r)] without and with the trim flag. *)
Fixpoint ReadLine_loop (fuel : nat) (s rns : list Z) (rd : S)
  : exec (list Z * option goerr * S) :=
  match fuel with
  | O => NoFuel
  | Datatypes.S fuel' =>
    let* '(rn, size, rnerr, rd') := read_rune rd in
    if (0 <? size) && (rn =? 10) then
      Done (if 0 <? len rns then s ++ TrimFunc IsSpace rns else s, None, rd')
    else
      let '(s', rns') :=
        if 0 <? size then
          push_rune 1024 rn s rns
        else (s, rns) in
      match rnerr with
      | Some e =>
        if 0 <? len rns' then
          Done (s' ++ rns', if bool_decide (e = EOF) then None else Some e, rd')
        else Done (s', Some e, rd')
      | None => ReadLine_loop fuel' s' rns' rd'
      end
  end.

Definition ReadLine (fuel : nat) (cantrim : bool) (rd : S) : exec (list Z * option goerr * S) :=
  let* '(s, err, rd') := ReadLine_loop fuel [] [] rd in
  Done (if cantrim then TrimFunc IsSpace s else s, err, rd').

(** [ReadLines(r)]: [strings.TrimSpace] trims [unicode.IsSpace]. *)
Definition add_line (lines : list (list Z)) (s : list Z) : list (list Z) :=
  if 0 <? len s then lines ++ [TrimFunc unicode_IsSpace s] else lines.

Fixpoint ReadLines_loop (fuel : nat) (lines : list (list Z)) (s rns : list Z) (rd : S)
  : exec (list (list Z) * option goerr * S) :=
  match fuel with
  | O => NoFuel
  | Datatypes.S fuel' =>
    let* '(rn, size, rnerr, rd') := read_rune rd in
    if (0 <? size) && (rn =? 10) then
      ReadLines_loop fuel' (add_line lines (s ++ rns)) [] [] rd'
    else
      let '(s', rns') :=
        if 0 <? size then
          push_rune 1024 rn s rns
        else (s, rns) in
      match rnerr with
      | Some e =>
        Done (add_line lines (s' ++ rns'), if bool_decide (e = EOF) then None else Some e, rd')
      | None => ReadLines_loop fuel' lines s' rns' rd'
      end
  end.

Definition ReadLines (fuel : nat) (rd : S) : exec (list (list Z) * option goerr * S) :=
  ReadLines_loop fuel [] [] [] rd.
End loops.

(** ** The bufio reader is a rune source over any byte source *)

Lemma FullRune_app p q : FullRune p = true → utf8.DecodeRune (p ++ q) = utf8.DecodeRune p.
Proof.
  unfold FullRune, utf8.DecodeRune.
  destruct p as [|p0 p]; [done|]. cbn [app]; cbv iota.
  destruct (p0 <? 128); [by destruct q, p|].
  destruct (utf8.first p0) as [[[sz lo] hi]|] eqn:Hf; [|by destruct q, p].
  assert (sz = 2 ∨ sz = 3 ∨ sz = 4)%nat as Hsz.
  { revert Hf. unfold utf8.first. repeat case_match; intros [= <- <- <-]; auto. }
  destruct p as [|b1 [|b2 [|b3 p]]], q as [|c1 [|c2 [|c3 q]]];
    destruct Hsz as [->|[->| ->]]; simpl; try done;
    repeat (case_match; simpl in *; try done);
    repeat match goal with H : orb _ _ = true |- _ => apply orb_true_iff in H as [?|?] end; congruence.
Qed.

Lemma FullRune_encode r q : utf8.ValidRune r = true → FullRune (utf8.encode r ++ q) = true.
Proof.
  intros Hv. pose proof (DecodeRune_encode r q Hv) as Hd. pose proof (encode_nonempty r) as Hne.
  apply not_false_is_true. intros Hf. revert Hd.
  destruct (utf8.encode r ++ q) as [|p0 p] eqn:E.
  { destruct (utf8.encode r); done. }
  unfold FullRune in Hf. cbn [utf8.DecodeRune].
  destruct (utf8.first p0) as [[[sz lo] hi]|] eqn:Ef; [|done].
  apply orb_false_iff in Hf as [Hsz _]. apply Nat.leb_gt in Hsz.
  assert (p0 <? 128 = false) as ->.
  { unfold utf8.first in Ef. apply Z.ltb_ge.
    destruct (Z.leb_spec 194 p0); [lia|]. cbn [andb] in Ef.
    destruct (Z.eqb_spec p0 224); [lia|]. destruct (Z.eqb_spec p0 237); [lia|].
    destruct (Z.leb_spec 225 p0); [lia|]. cbn [andb] in Ef.
    destruct (Z.eqb_spec p0 240); [lia|]. destruct (Z.leb_spec 241 p0); [lia|]. cbn [andb] in Ef.
    destruct (Z.eqb_spec p0 244); [lia|done]. }
  destruct p as [|b1 p]; [by intros [= <-]|]. rewrite (proj2 (Nat.ltb_lt _ _) Hsz). by intros [= <-].
Qed.

Lemma DecodeRune_long p q : (4 ≤ length p)%nat → utf8.DecodeRune (p ++ q) = utf8.DecodeRune p.
Proof.
  intros H. destruct p as [|p0 [|p1 [|p2 [|p3 p]]]]; simpl in H; try lia.
  unfold utf8.DecodeRune; simpl. repeat (case_match; try done).
  all: repeat match goal with H : (_ <? _)%nat = _ |- _ => revert H end; unfold utf8.first in *;
    repeat case_match; simplify_eq; simpl; try done.
Qed.

Lemma decode_fuel_enough n p : (length p ≤ n)%nat → utf8.decode_fuel n p = utf8.runes p.
Proof.
  unfold utf8.runes. remember (length p) as m eqn:Hm.
  assert (length p ≤ m)%nat as Hp by lia. clear Hm. revert n p Hp.
  induction m as [|m IH]; intros n p Hp Hn.
  - destruct p; [by destruct n|simpl in *; lia].
  - destruct n as [|n]; [lia|]. destruct (decide (p = [])) as [->|Hne]; [done|].
    rewrite !decode_fuel_S by done. f_equal.
    pose proof (DecodeRune_size p Hne).
    rewrite (IH n); [done|rewrite length_drop; lia|lia].
Qed.

Lemma runes_nonempty p :
  p ≠ [] →
  utf8.runes p = (utf8.DecodeRune p).1 :: utf8.runes (drop (Z.to_nat (utf8.DecodeRune p).2) p).
Proof.
  intros H. pose proof (DecodeRune_size p H). unfold utf8.runes at 1.
  destruct (length p) eqn:E; [destruct p; done|].
  rewrite decode_fuel_S by done. f_equal. apply decode_fuel_enough.
  rewrite length_drop. lia.
Qed.

Lemma runes_nil p : utf8.runes p = [] ↔ p = [].
Proof.
  split; [|by intros ->]. intros H. destruct p as [|b p]; [done|].
  rewrite runes_nonempty in H by done. done.
Qed.

Section bufio_source.
Context {S : Type} `{ByteSource S}.

(** The bytes a bufio reader still has to deliver: its buffer, then the source. *)
Definition bufio_bytes (b : bufio) (s : S) (bs : list Z) : Prop :=
  ∃ rest, bpending s rest ∧ bs = bb_buf b ++ rest ∧
    (bb_err b = None ∨ (bb_err b = Some EOF ∧ rest = [])).

Lemma bufio_fill_spec tries cap b s bs :
  bufio_bytes b s bs → bb_err b = None → len (bb_buf b) < cap →
  ∃ b' s', bufio_fill (Datatypes.S tries) cap b s = Done (b', s') ∧ bufio_bytes b' s' bs ∧
    ((length (bb_buf b) < length (bb_buf b'))%nat ∨ bb_err b' = Some EOF).
Proof.
  intros (rest & Hp & -> & _) He Hcap. simpl.
  destruct (decide (rest = [])) as [->|Hne].
  - destruct (bpending_nil s (cap - len (bb_buf b)) Hp) as (s' & -> & Hp'); [lia|].
    simpl. eexists _, _; split_and!; [done| |by right].
    exists []. rewrite !app_nil_r. simpl. auto.
  - destruct (bpending_cons s rest (cap - len (bb_buf b)) Hp Hne)
      as (k & s' & -> & Hk & Hk' & Hl & Hp'); [lia|].
    simpl. rewrite length_take. zsimp.
    eexists _, _; split_and!; [done| |left; simpl; rewrite length_app, length_take; lia].
    exists (drop k rest). simpl. rewrite <- app_assoc, take_drop. auto.
Qed.

Lemma bufio_fill_rune_spec fuel cap b s bs :
  4 ≤ cap → bufio_bytes b s bs →
  (1 ≤ fuel)%nat → 4 - len (bb_buf b) < Z.of_nat fuel ∨ bb_err b ≠ None →
  ∃ b' s', bufio_fill_rune fuel cap b s = Done (b', s') ∧ bufio_bytes b' s' bs ∧
    needs_fill cap b' = false.
Proof.
  intros Hcap. revert b s. induction fuel as [|fuel IH]; intros b s Hb Hf1 Hf; [lia|].
  cbn [bufio_fill_rune].
  destruct (needs_fill cap b) eqn:E; [|eauto 6].
  unfold needs_fill in E.
  apply andb_true_iff in E as [E E4]. apply andb_true_iff in E as [E E3].
  apply andb_true_iff in E as [E1 E2]. apply bool_decide_eq_true in E3.
  apply Z.ltb_lt in E1, E4.
  destruct (bufio_fill_spec 99 cap b s bs Hb E3 E4) as (b' & s' & -> & Hb' & Hor).
  simpl. destruct Hf as [Hf|?]; [|done].
  apply IH; [done|lia|]. destruct Hor as [Hlt|Heq]; [left; lia|right; by rewrite Heq].
Qed.

Definition bufio_pending (st : bufio * S) (rs : list Z) : Prop :=
  ∃ bs, bufio_bytes st.1 st.2 bs ∧ rs = utf8.runes bs.

(** What is delivered next is the first rune of the remaining bytes. *)
Lemma bufio_ReadRune_spec b s bs :
  bufio_bytes b s bs →
  ∃ b' s',
    (bs ≠ [] ∧
     bufio_ReadRune 4096 b s =
       Done ((utf8.DecodeRune bs).1, (utf8.DecodeRune bs).2, None, b', s') ∧
     bufio_bytes b' s' (drop (Z.to_nat (utf8.DecodeRune bs).2) bs)) ∨
    (bs = [] ∧ bufio_ReadRune 4096 b s = Done (0, 0, Some EOF, b', s') ∧ bufio_bytes b' s' []).
Proof.
  intros Hb. unfold bufio_ReadRune.
  destruct (bufio_fill_rune_spec 6 4096 b s bs) as (b' & s' & -> & Hb' & Hn);
    [lia|done|lia|left; lia|].
  destruct Hb' as (rest & Hp & -> & He). simpl.
  assert (rest = [] ∨ utf8.DecodeRune (bb_buf b' ++ rest) = utf8.DecodeRune (bb_buf b')) as Hdec.
  { destruct He as [He|[_ He]]; [|by left]. right. unfold needs_fill in Hn. rewrite He in Hn.
    destruct (Z.ltb_spec (len (bb_buf b')) 4); [|apply DecodeRune_long; lia].
    destruct (FullRune (bb_buf b')) eqn:EF; [by apply FullRune_app|].
    simpl in Hn. revert Hn. zcase; [done|lia]. }
  destruct (Z.eqb_spec (len (bb_buf b')) 0) as [E|E].
  - assert (bb_buf b' = []) as Hnil by (destruct (bb_buf b'); [done|simpl in E; lia]).
    rewrite Hnil in *. unfold needs_fill in Hn. rewrite Hnil in Hn. simpl in Hn.
    destruct He as [He|[He ->]]; [rewrite He in Hn; done|]. rewrite He.
    eexists _, _; right; split_and!; [done|done|]. exists []; simpl; auto.
  - assert (bb_buf b' ++ rest ≠ []) by (destruct (bb_buf b'); done).
    assert (utf8.DecodeRune (bb_buf b' ++ rest) = utf8.DecodeRune (bb_buf b')) as Hd
      by (destruct Hdec as [->|]; [by rewrite app_nil_r|done]).
    pose proof (DecodeRune_size (bb_buf b')) as Hsz. rewrite Hd.
    destruct (utf8.DecodeRune (bb_buf b')) as [r n]. simpl in *.
    eexists _, _; left; split_and!; [done|done|].
    exists rest. split_and!; [done| |done]. simpl. rewrite drop_app_le; [done|].
  assert (bb_buf b' ≠ []) as Hbne by (destruct (bb_buf b'); done). specialize (Hsz Hbne). lia.
Qed.

#[export] Program Instance bufio_RuneSource : RuneSource (bufio * S) :=
  {| pending := bufio_pending |}.
Next Obligation.
  intros [b s] r rs (bs & Hb & Hrs).
  destruct (bufio_ReadRune_spec b s bs Hb) as (b' & s' & [(Hne & Hr & Hb')|(-> & _)]); [|done].
  rewrite runes_nonempty in Hrs by done. injection Hrs as -> ->.
  pose proof (DecodeRune_size bs Hne).
  unfold read_rune, bufio_RuneReader. rewrite Hr. simpl.
  eexists _, _; split_and!; [done|lia|]. eexists; split; [done|done].
Qed.
Next Obligation.
  intros [b s] (bs & Hb & Hrs). symmetry in Hrs. apply runes_nil in Hrs as ->.
  destruct (bufio_ReadRune_spec b s [] Hb) as (b' & s' & [(Hne & _)|(_ & Hr & Hb')]); [done|].
  unfold read_rune, bufio_RuneReader. rewrite Hr. simpl.
  eexists _, _; split; [done|]. exists []; done.
Qed.
End bufio_source.

(** ** The loops over a rune source *)
Section loop_specs.
Context {S : Type} `{RuneSource S}.

(** Reading [line] into the 1024-rune buffer. *)
Definition push_line (cap : Z) (s rns line : list Z) : list Z * list Z :=
  foldl (λ st r, push_rune cap r st.1 st.2) (s, rns) line.

(** The part of a line that filled whole buffers, and the rest. *)
Definition full_part (cap : Z) (line : list Z) : list Z :=
  take (Z.to_nat (cap * (len line / cap))) line.
Definition last_part (cap : Z) (line : list Z) : list Z :=
  drop (Z.to_nat (cap * (len line / cap))) line.

Lemma push_line_spec cap line :
  0 < cap → push_line cap [] [] line = (full_part cap line, last_part cap line).
Proof.
  intros Hc. unfold push_line, full_part, last_part.
  induction line as [|r line IH] using rev_ind; [by rewrite take_nil, drop_nil|].
  rewrite foldl_snoc, IH, length_app. simpl length. unfold push_rune.
  cbn [fst snd]. rewrite length_app, length_drop. simpl length.
  pose proof (Z.div_mod (len line) cap ltac:(lia)) as Hd.
  pose proof (Z.mod_pos_bound (len line) cap Hc) as Hm.
  assert (0 ≤ len line / cap) by (apply Z.div_pos; lia).
  assert (0 ≤ cap * (len line / cap)) by nia.
  set (q := len line / cap) in *. set (m := len line mod cap) in *.
  replace (Z.of_nat (length line - Z.to_nat (cap * q) + 1)) with (m + 1) by lia.
  replace (Z.of_nat (length line + 1)) with (len line + 1) by lia.
  destruct (Z.eqb_spec (m + 1) cap).
  - assert ((len line + 1) / cap = q + 1) as ->.
    { symmetry. apply (Z.div_unique _ _ _ 0); lia. }
    rewrite app_assoc, take_drop. rewrite take_ge, drop_ge; [done|..];
      rewrite length_app; simpl length; lia.
  - assert ((len line + 1) / cap = q) as ->.
    { symmetry. apply (Z.div_unique _ _ _ (m + 1)); lia. }
    rewrite take_app_le, drop_app_le by lia. done.
Qed.

Lemma push_rune_app cap r s rns :
  (push_rune cap r s rns).1 ++ (push_rune cap r s rns).2 = s ++ rns ++ [r].
Proof. unfold push_rune. zcase; simpl; by rewrite ?app_nil_r. Qed.

Lemma push_line_app cap line st :
  let st' := foldl (λ st r, push_rune cap r st.1 st.2) st line in
  st'.1 ++ st'.2 = st.1 ++ st.2 ++ line.
Proof.
  revert st. induction line as [|r line IH]; intros st; simpl; [by rewrite app_nil_r|].
  rewrite IH, (app_assoc (push_rune _ _ _ _).1), push_rune_app. by rewrite <- !app_assoc.
Qed.

Lemma ReadRunes_loop_spec fuel pl p rd rs :
  pending rd rs → len rs < Z.of_nat fuel → len p ≤ pl →
  ∃ err rd', ReadRunes_loop fuel pl p rd = Done (p ++ take (Z.to_nat (pl - len p)) rs, err, rd') ∧
    err = (if len rs <? pl - len p then Some EOF else None) ∧
    pending rd' (drop (Z.to_nat (pl - len p)) rs).
Proof.
  revert p rd rs. induction fuel as [|fuel IH]; intros p rd rs Hp Hf Hl; [lia|]. simpl.
  destruct (Z.ltb_spec (len p) pl).
  - destruct rs as [|r rs].
    + destruct (pending_nil rd Hp) as (r & rd' & -> & Hp'). simpl. zsimp.
      rewrite take_nil, app_nil_r, drop_nil. eauto.
    + destruct (pending_cons rd r rs Hp) as (n & rd' & -> & Hn & Hp'). simpl. zsimp.
      replace (n =? 0) with false by lia.
      destruct (IH (p ++ [r]) rd' rs Hp') as (err & rd'' & -> & -> & Hp''); [simpl in Hf; lia|len_solve|].
      replace (Z.to_nat (pl - len p)) with (Datatypes.S (Z.to_nat (pl - len (p ++ [r])))) by len_solve.
      simpl. rewrite <- app_assoc. eexists _, _; split_and!; [done| |done].
      rewrite length_app. simpl length. repeat zcase; done || lia.
  - replace (Z.to_nat (pl - len p)) with 0%nat by lia. simpl. rewrite app_nil_r.
    eexists _, _; split_and!; [done| |done]. by replace (len rs <? pl - len p) with false by lia.
Qed.

(** [ReadRunes] fills [p] with the next runes, and reports [io.EOF] only when
    there was none. *)
Lemma ReadRunes_source fuel pl rd rs :
  pending rd rs → len rs < Z.of_nat fuel → 0 < pl →
  ∃ rd', ReadRunes fuel pl rd =
      Done (take (Z.to_nat pl) rs, if len rs =? 0 then Some EOF else None, rd') ∧
    pending rd' (drop (Z.to_nat pl) rs).
Proof.
  intros Hp Hf Hpl. unfold ReadRunes. zsimp.
  destruct (ReadRunes_loop_spec fuel pl [] rd rs Hp Hf) as (err & rd' & -> & -> & Hp'); [simpl; lia|].
  simpl. rewrite Z.sub_0_r in *. eexists; split; [|done]. do 3 f_equal.
  rewrite length_take. repeat zcase; simpl; try done; lia.
Qed.

Lemma ReadRunesEOFFunc_source {T} fuel (f : Z → T → option goerr * T) t rd rs :
  pending rd rs → len rs < Z.of_nat fuel → (∀ r t, (f r t).1 = None) →
  ∃ rd', ReadRunesEOFFunc fuel f t rd = Done (None, foldl (λ t r, (f r t).2) t rs, rd') ∧
    pending rd' [].
Proof.
  intros Hp Hf Hnone. revert t rd rs Hp Hf.
  induction fuel as [|fuel IH]; intros t rd rs Hp Hf; [lia|]. simpl.
  destruct rs as [|r rs].
  - destruct (pending_nil rd Hp) as (r & rd' & -> & Hp'). simpl. eauto.
  - destruct (pending_cons rd r rs Hp) as (n & rd' & -> & Hn & Hp'). simpl. zsimp.
    pose proof (Hnone r t). destruct (f r t) as [e t'] eqn:E. simpl in *. subst e.
    destruct (IH t' rd' rs Hp') as (rd'' & -> & ?); [simpl in Hf; lia|]. eauto.
Qed.

(** [ReaderToString] returns everything the reader delivers. *)
Lemma ReaderToString_source fuel rd rs :
  pending rd rs → len rs < Z.of_nat fuel →
  ∃ rd', ReaderToString fuel rd = Done (rs, None, rd') ∧ pending rd' [].
Proof.
  intros Hp Hf. unfold ReaderToString.
  destruct (ReadRunesEOFFunc_source fuel to_string_step ([], []) rd rs Hp Hf) as (rd' & -> & Hp'); [done|].
  simpl. pose proof (push_line_app 1024 rs ([], [])) as Hpl. simpl in Hpl.
  change (foldl (λ t r, (to_string_step r t).2) ([], []) rs)
    with (foldl (λ st r, push_rune 1024 r st.1 st.2) ([], []) rs).
  destruct (foldl _ _ rs) as [s rns]. simpl in Hpl. subst. simpl. eauto.
Qed.

(** What [ReadLine] does with a line: the runes that filled whole buffers are
    kept as they are, only the rest is trimmed. *)
Definition line_text (line : list Z) : list Z :=
  full_part 1024 line ++ TrimFunc IsSpace (last_part 1024 line).

Lemma ReadLine_loop_spec fuel s rns rd line rs :
  10 ∉ line → pending rd (line ++ rs) → len line < Z.of_nat fuel →
  let '(s', rns') := push_line 1024 s rns line in
  ∃ rd', pending rd' rs ∧
    ReadLine_loop fuel s rns rd = ReadLine_loop (fuel - length line) s' rns' rd'.
Proof.
  revert fuel s rns rd. induction line as [|r line IH]; intros fuel s rns rd Hn Hp Hf.
  - simpl. rewrite Nat.sub_0_r. eauto.
  - apply not_elem_of_cons in Hn as [Hr Hn].
    destruct fuel as [|fuel]; [lia|]. simpl.
    destruct (pending_cons rd r _ Hp) as (n & rd' & Hrd & Hn' & Hp').
    specialize (IH fuel (push_rune 1024 r s rns).1 (push_rune 1024 r s rns).2 rd' Hn Hp').
    unfold push_line in *. simpl foldl. rewrite <- surjective_pairing in IH.
    destruct (foldl _ _ line) as [s' rns'].
    destruct IH as (rd'' & Hp'' & Heq); [simpl in Hf; lia|].
    exists rd''; split; [done|]. rewrite Hrd. simpl. zsimp.
    replace (r =? 10) with false by lia. simpl.
    destruct (push_rune 1024 r s rns). simpl in Heq. by rewrite Heq.
Qed.

Lemma TrimFunc_nil f : TrimFunc f [] = [].
Proof. done. Qed.

(** [ReadLine] up to a newline, which is consumed; and at the end of the input. *)
Lemma ReadLine_source_nl fuel rd line rest :
  10 ∉ line → pending rd (line ++ 10 :: rest) → len line < Z.of_nat fuel →
  ∃ rd', ReadLine fuel false rd = Done (line_text line, None, rd') ∧ pending rd' rest.
Proof.
  intros Hn Hp Hf. unfold ReadLine.
  pose proof (ReadLine_loop_spec fuel [] [] rd line (10 :: rest) Hn Hp Hf) as Hs.
  rewrite push_line_spec in Hs by lia. destruct Hs as (rd' & Hp' & ->).
  destruct (fuel - length line)%nat as [|f'] eqn:E; [lia|]. simpl.
  destruct (pending_cons rd' 10 rest Hp') as (n & rd'' & -> & Hn' & Hp''). simpl. zsimp. simpl.
  eexists; split; [|done]. do 3 f_equal. unfold line_text.
  destruct (last_part 1024 line) eqn:El; simpl; [by rewrite app_nil_r|done].
Qed.

Lemma ReadLine_source_eof fuel rd line :
  10 ∉ line → pending rd line → len line < Z.of_nat fuel →
  ∃ rd', ReadLine fuel false rd =
      Done (line, if len (last_part 1024 line) =? 0 then Some EOF else None, rd') ∧ pending rd' [].
Proof.
  intros Hn Hp Hf. unfold ReadLine. rewrite <- (app_nil_r line) in Hp.
  pose proof (ReadLine_loop_spec fuel [] [] rd line [] Hn Hp Hf) as Hs.
  rewrite push_line_spec in Hs by lia. destruct Hs as (rd' & Hp' & ->).
  destruct (fuel - length line)%nat as [|f'] eqn:E; [lia|]. simpl.
  destruct (pending_nil rd' Hp') as (n & rd'' & -> & Hp''). simpl.
  eexists; split; [|done].
  assert (full_part 1024 line ++ last_part 1024 line = line) as Hl by apply take_drop.
  destruct (last_part 1024 line) as [|x l] eqn:El; simpl.
  - rewrite app_nil_r in Hl. by rewrite Hl.
  - rewrite Hl. done.
Qed.
(** The lines of a text: the text between newlines, trimmed, empty ones left out. *)
Fixpoint text_lines (cur rs : list Z) : list (list Z) :=
  match rs with
  | [] => add_line [] cur
  | r :: rs' => if r =? 10 then add_line [] cur ++ text_lines [] rs' else text_lines (cur ++ [r]) rs'
  end.

Lemma add_line_app lines s : add_line lines s = lines ++ add_line [] s.
Proof. unfold add_line. zcase; [done|by rewrite app_nil_r]. Qed.

Lemma ReadLines_loop_spec fuel lines s rns rd rs :
  pending rd rs → len rs < Z.of_nat fuel →
  ∃ rd', ReadLines_loop fuel lines s rns rd = Done (lines ++ text_lines (s ++ rns) rs, None, rd') ∧
    pending rd' [].
Proof.
  revert lines s rns rd rs. induction fuel as [|fuel IH]; intros lines s rns rd rs Hp Hf; [lia|].
  simpl. destruct rs as [|r rs].
  - destruct (pending_nil rd Hp) as (r & rd' & -> & Hp'). simpl.
    eexists; split; [|done]. by rewrite add_line_app.
  - destruct (pending_cons rd r rs Hp) as (n & rd' & -> & Hn & Hp'). simpl. zsimp.
    simpl in Hf. destruct (Z.eqb_spec r 10) as [->|]; simpl.
    + destruct (IH (add_line lines (s ++ rns)) [] [] rd' rs Hp') as (rd'' & -> & ?); [lia|].
      eexists; split; [|done]. rewrite add_line_app. by rewrite <- app_assoc.
    + pose proof (push_rune_app 1024 r s rns) as Hpr.
      destruct (push_rune 1024 r s rns) as [s' rns']. simpl in Hpr.
      destruct (IH lines s' rns' rd' rs Hp') as (rd'' & -> & ?); [lia|].
      eexists; split; [|done]. by rewrite Hpr, app_assoc.
Qed.

Lemma ReadLines_source fuel rd rs :
  pending rd rs → len rs < Z.of_nat fuel →
  ∃ rd', ReadLines fuel rd = Done (text_lines [] rs, None, rd') ∧ pending rd' [].
Proof. intros. by apply (ReadLines_loop_spec fuel [] [] []). Qed.
End loop_specs.

(** ** strings.Reader: the bytes of a string, as runes and as bytes. *)
Module strings.
Record Reader := MkReader { rd_bytes : list Z }.

#[export] Instance Reader_ReadRune : RuneReader Reader := λ r,
  match rd_bytes r with
  | [] => Done (0, 0, Some EOF, r)
  | bs => let '(x, n) := utf8.DecodeRune bs in
          Done (x, n, None, MkReader (drop (Z.to_nat n) bs))
  end.

#[export] Instance Reader_Read : ByteReader Reader := λ r n,
  match rd_bytes r with
  | [] => Done ([], Some EOF, r)
  | bs => Done (take (Z.to_nat n) bs, None, MkReader (drop (Z.to_nat n) bs))
  end.

#[export] Program Instance Reader_RuneSource : RuneSource Reader :=
  {| pending r rs := utf8.runes (rd_bytes r) = rs |}.
Next Obligation.
  intros [bs] r rs H. simpl in H. assert (bs ≠ []) as Hne by (by intros ->).
  rewrite runes_nonempty in H by done. injection H as <- <-.
  pose proof (DecodeRune_size bs Hne). unfold read_rune, Reader_ReadRune. simpl rd_bytes.
  destruct bs as [|b bs]; [done|]. destruct (utf8.DecodeRune (b :: bs)) as [x n]. simpl in *.
  eexists _, _; split_and!; [done|lia|done].
Qed.
Next Obligation.
  intros [bs] H. simpl in H. apply runes_nil in H as ->. by eexists _, _.
Qed.

#[export] Program Instance Reader_ByteSource : ByteSource Reader :=
  {| bpending r bs := rd_bytes r = bs |}.
Next Obligation.
  intros [l] bs n H Hne Hn. simpl in H. subst l. unfold read_bytes, Reader_Read. simpl rd_bytes.
  destruct bs as [|b bs]; [done|].
  exists (Nat.min (Z.to_nat n) (length (b :: bs))).
  eexists; split_and!; [|simpl; lia..|].
  - destruct (Nat.min_spec (Z.to_nat n) (length (b :: bs))) as [[_ ->]|[? ->]]; [done|].
    by rewrite !take_ge by lia.
  - destruct (Nat.min_spec (Z.to_nat n) (length (b :: bs))) as [[_ ->]|[? ->]]; [done|].
    cbn [rd_bytes]. by rewrite !drop_ge by lia.
Qed.
Next Obligation. intros [l] n H Hn. simpl in H. subst. by eexists. Qed.
End strings.

Import strings.

(** ** What the readers deliver *)

(** ReadLines over any reader of runes returns the lines of its text: the text
    between newlines, trimmed by strings.TrimSpace, without the empty ones; the end is
    no error. *)
Theorem ReadLines_lines {S} `{RuneSource S} fuel rd rs :
  pending rd rs → len rs < Z.of_nat fuel →
  ∃ rd', ReadLines fuel rd = Done (text_lines [] rs, None, rd').
Proof. intros Hp Hf. destruct (ReadLines_source fuel rd rs Hp Hf) as (rd' & E & _). eauto. Qed.

Lemma ReadLines_lines_witness :
  ∃ rd', ReadLines 20 (strings.MkReader [32; 97; 10; 10; 98; 32; 99; 13; 10; 100]) =
    Done (text_lines [] [32; 97; 10; 10; 98; 32; 99; 13; 10; 100], None, rd').
Proof. apply (@ReadLines_lines strings.Reader _ strings.Reader_RuneSource); [reflexivity|cbn; lia]. Defined.

Example ReadLines_example : text_lines [] [32; 97; 10; 10; 98; 32; 99; 13; 10; 100] = [[97]; [98; 32; 99]; [100]].
Proof. reflexivity. Qed.

(** ReadLine returns the text up to the next newline, which it consumes, and
    trims only its last block of fewer than 1024 runes; a last line without a newline
    is returned untrimmed, without an error unless it ends a block of 1024. *)
Theorem ReadLine_line {S} `{RuneSource S} fuel rd line rest nl :
  10 ∉ line → pending rd (line ++ if nl : bool then 10 :: rest else []) → len line < Z.of_nat fuel →
  ∃ rd', pending rd' (if nl then rest else []) ∧
    ReadLine fuel false rd =
      Done (if nl then full_part 1024 line ++ TrimFunc IsSpace (last_part 1024 line) else line,
            if nl then None else if len (last_part 1024 line) =? 0 then Some EOF else None, rd').
Proof.
  intros Hn Hp Hf. destruct nl.
  - destruct (ReadLine_source_nl fuel rd line rest Hn Hp Hf) as (rd' & E & Hp'). eauto.
  - rewrite app_nil_r in Hp. destruct (ReadLine_source_eof fuel rd line Hn Hp Hf) as (rd' & E & Hp'). eauto.
Qed.

Lemma ReadLine_line_witness :
  ∃ rd', pending rd' [98] ∧
    ReadLine 20 false (strings.MkReader [32; 97; 13; 10; 98]) =
      Done (full_part 1024 [32; 97; 13] ++ TrimFunc IsSpace (last_part 1024 [32; 97; 13]), None, rd').
Proof.
  apply (@ReadLine_line strings.Reader _ strings.Reader_RuneSource 20 _ [32; 97; 13] [98] true).
  - repeat (apply not_elem_of_cons; split; [done|]). apply not_elem_of_nil.
  - reflexivity.
  - cbn. lia.
Defined.
