(* ===== verification/RuneReaders.v ===== *)
(** The rune readers of src/iorw: [RunesReader] (runesreader.go) and the reader over a
    slice of readers (slicerunereader.go). *)

From S2P Require Import Prelude Runes Readers.

(** ** runesreader.go *)
Module RunesReader.

Record t := Mk { rns : list Z; rnsl : Z }.

Definition NewRunesReader (rs : list Z) : option t :=
  if 0 <? len rs then Some (Mk rs (len rs)) else None.

Definition Close (o : option t) : option t :=
  match o with
  | None => None
  | Some r => Some (if 0 <? len (rns r) then Mk [] 0 else r)
  end.

Definition ReadRune (o : option t) : exec (Z * Z * option goerr * option t) :=
  match o with
  | None => Done (0, 0, Some EOF, None)
  | Some r =>
    if 0 <? rnsl r then
      let* x := index (rns r) 0 in
      let* rest := slice (rns r) 1 (len (rns r)) in
      Done (x, utf8.RuneLen x, None, Some (Mk rest (rnsl r - 1)))
    else Done (0, 0, Some EOF, Close (Some r))
  end.

#[export] Instance reader : RuneReader (option t) := ReadRune.

(** The runes a reader still has; they must be runes, for [ReadRune] reports the
    size [-1] for any other value. *)
Definition holds (o : option t) (rs : list Z) : Prop :=
  valid_runes rs ∧
  match o with None => rs = [] | Some r => rns r = rs ∧ rnsl r = len rs end.

#[export] Program Instance source : RuneSource (option t) := {| pending := holds |}.
Next Obligation.
  intros [[l n]|] r rs (Hv & H); [|done]. destruct H as [Hl Hn]. simpl in *. subst.
  inversion_clear Hv.
  unfold read_rune, reader, ReadRune. cbn [rns rnsl]. zsimp.
  rewrite slice_ok, (sub_to_end (r :: rs) 1) by (simpl; lia). simpl.
  eexists _, _; split_and!; [done| |].
  - pose proof (RuneLen_pos r). simpl in *. naive_solver lia.
  - split; [done|]. split; [done|].
    cbn [rnsl]. simpl length. lia.
Qed.
Next Obligation.
  intros [[l n]|] (Hv & H).
  - destruct H as [Hl Hn]. simpl in *. subst. eexists _, _; split; [done|].
    split; [done|]. done.
  - eexists _, _; split; [done|]. done.
Qed.

Lemma NewRunesReader_holds rs : valid_runes rs → holds (NewRunesReader rs) rs.
Proof.
  intros Hv. unfold NewRunesReader, holds. split; [done|].
  destruct rs; simpl; [done|]. done.
Qed.
End RunesReader.

(** ** slicerunereader.go *)

(** A reader of any type, as the interface value [io.RuneReader]. *)
Record anyrdr := AnyRdr { ar_state : Type; ar_read : RuneReader ar_state; ar_st : ar_state }.

#[export] Instance anyrdr_reader : RuneReader anyrdr :=
  λ a, let* '(r, n, e, s') := ar_read a (ar_st a) in
       Done (r, n, e, AnyRdr (ar_state a) (ar_read a) s').

Module runeReaderSlice.

(** [EventEof] is recorded as whether it is set, its calls as the log of errors it
    was given. *)
Record t := Mk {
  rnrdrs : list anyrdr;
  crntrdr : option anyrdr;
  EventEof : bool;
  eof_log : list (option goerr) }.

Definition NewSliceRuneReader (rdrs : list anyrdr) : t := Mk rdrs None false [].

Definition Length (o : option t) : Z :=
  match o with None => 0 | Some s => len (rnrdrs s) end.

Definition Empty (o : option t) : bool :=
  match o with
  | None => true
  | Some s => match crntrdr s, rnrdrs s with None, [] => true | _, _ => false end
  end.

Definition PreAppend (o : option t) (rdrs : list anyrdr) : option t :=
  match o with
  | None => None
  | Some s =>
    if 0 <? len rdrs then
      match crntrdr s with
      | Some c => Some (Mk (rdrs ++ [c] ++ rnrdrs s) None (EventEof s) (eof_log s))
      | None => Some (Mk (rdrs ++ rnrdrs s) None (EventEof s) (eof_log s))
      end
    else Some s
  end.

Definition PostAppend (o : option t) (rdrs : list anyrdr) : option t :=
  match o with
  | None => None
  | Some s =>
    if 0 <? len rdrs then Some (Mk (rnrdrs s ++ rdrs) (crntrdr s) (EventEof s) (eof_log s))
    else Some s
  end.

(** The arguments the [...Args] forms tell apart; an [io.Reader] is the rune reader
    [bufio.NewReaderSize] makes of it. *)
Inductive rarg :=
| AString (s : list Z)
| ARunes (rs : list Z)
| ARune (r : Z)
| AReader (a : anyrdr)
| AOther.

Definition string_reader (s : list Z) : anyrdr := AnyRdr strings.Reader strings.Reader_ReadRune (strings.MkReader s).
Definition runes_reader (rs : list Z) : anyrdr := AnyRdr (option RunesReader.t) RunesReader.reader (RunesReader.NewRunesReader rs).

(** A single rune is taken by PostAppendArgs only. *)
Definition args_readers (single : bool) (argrdrs : list rarg) : list anyrdr :=
  concat (map (λ a,
    match a with
    | AString s => if bool_decide (s = []) then [] else [string_reader s]
    | ARunes rs => if 0 <? len rs then [runes_reader rs] else []
    | ARune r => if single then [runes_reader [r]] else []
    | AReader a => [a]
    | AOther => []
    end) argrdrs).

Definition PostAppendArgs (o : option t) (argrdrs : list rarg) : option t :=
  match o with
  | None => None
  | Some s =>
    let rdrs := args_readers true argrdrs in if 0 <? len rdrs then PostAppend o rdrs else o
  end.

Definition PreAppendArgs (o : option t) (argrdrs : list rarg) : option t :=
  match o with
  | None => None
  | Some s =>
    let rdrs := args_readers false argrdrs in if 0 <? len rdrs then PreAppend o rdrs else o
  end.

Definition call_eof (s : t) (err : option goerr) : t :=
  if EventEof s then Mk (rnrdrs s) (crntrdr s) true (eof_log s ++ [err]) else s.

Definition set_crnt (s : t) (c : option anyrdr) : t := Mk (rnrdrs s) c (EventEof s) (eof_log s).

(** [goto NXTR] with the next reader, or the end of the slice. *)
Definition advance (nxtr : t → option anyrdr → exec (Z * Z * option goerr * t))
    (r size : Z) (s : t) : exec (Z * Z * option goerr * t) :=
  match rnrdrs s with
  | n :: rest => nxtr (Mk rest (Some n) (EventEof s) (eof_log s)) (Some n)
  | [] => Done (r, size, Some EOF, s)
  end.

(** [readSliceRune]: the current reader, then the next ones until a rune comes. *)
Fixpoint readSliceRune (fuel : nat) (s : t) (c : option anyrdr)
  : exec (Z * Z * option goerr * t) :=
  match fuel with
  | O => NoFuel
  | S fuel' =>
    match c with
    | None => advance (readSliceRune fuel') 0 0 s
    | Some a =>
      let* '(r, size, err, a') := anyrdr_reader a in
      if 0 <? size then Done (r, size, err, set_crnt s (Some a'))
      else
        let s1 := set_crnt s None in
        if bool_decide (err = None) || bool_decide (err = Some EOF) then
          if len (rnrdrs s) =? 0 then Done (r, size, Some EOF, call_eof s1 (Some EOF))
          else advance (readSliceRune fuel') r size (call_eof s1 None)
        else advance (readSliceRune fuel') r size (call_eof s1 err)
    end
  end.

Definition ReadRune (s : t) : exec (Z * Z * option goerr * t) :=
  readSliceRune (S (S (length (rnrdrs s)))) s (crntrdr s).

#[export] Instance reader : RuneReader t := ReadRune.

Definition Close (o : option t) : option t :=
  match o with
  | None => None
  | Some s => Some (Mk [] None (EventEof s) (eof_log s))
  end.

(** The slice of readers delivers what its readers deliver, one after the other. *)
Definition any_pending (a : anyrdr) (rs : list Z) : Prop :=
  ∃ src : @RuneSource (ar_state a) (ar_read a), @pending _ _ src (ar_st a) rs.

Definition opt_pending (c : option anyrdr) (rs : list Z) : Prop :=
  match c with None => rs = [] | Some a => any_pending a rs end.

Definition holds (s : t) (rs : list Z) : Prop :=
  ∃ r0 rss, opt_pending (crntrdr s) r0 ∧ Forall2 any_pending (rnrdrs s) rss ∧
            rs = r0 ++ concat rss.

Lemma any_cons a r rs :
  any_pending a (r :: rs) →
  ∃ n a', anyrdr_reader a = Done (r, n, None, a') ∧ 0 < n ∧ any_pending a' rs.
Proof.
  intros [src Hp]. destruct (pending_cons _ _ _ Hp) as (n & s' & Hr & Hn & Hp').
  unfold read_rune in Hr. unfold anyrdr_reader. rewrite Hr. simpl.
  eexists _, _; split_and!; [done|done|]. by exists src.
Qed.

Lemma any_nil a :
  any_pending a [] → ∃ r a', anyrdr_reader a = Done (r, 0, Some EOF, a') ∧ any_pending a' [].
Proof.
  intros [src Hp]. destruct (pending_nil _ Hp) as (r & s' & Hr & Hp').
  unfold read_rune in Hr. unfold anyrdr_reader. rewrite Hr. simpl.
  eexists _, _; split; [done|]. by exists src.
Qed.

(** A read that delivers the next of [rs], or [io.EOF]. *)
Definition delivers (res : exec (Z * Z * option goerr * t)) (rs : list Z) : Prop :=
  match rs with
  | r :: rs' => ∃ n s', res = Done (r, n, None, s') ∧ 0 < n ∧ holds s' rs'
  | [] => ∃ r s', res = Done (r, 0, Some EOF, s') ∧ holds s' []
  end.

Lemma advance_spec fuel s r rss :
  (∀ s c r0 rss, opt_pending c r0 → Forall2 any_pending (rnrdrs s) rss →
    (length (rnrdrs s) < fuel)%nat → (c = None → crntrdr s = None) →
    delivers (readSliceRune fuel s c) (r0 ++ concat rss)) →
  crntrdr s = None → Forall2 any_pending (rnrdrs s) rss → (length (rnrdrs s) ≤ fuel)%nat →
  delivers (advance (readSliceRune fuel) r 0 s) (concat rss).
Proof.
  intros IH Hs Hl Hf. unfold advance. destruct (rnrdrs s) as [|n rest] eqn:E.
  - apply Forall2_nil_inv_l in Hl as ->. simpl. eexists _, _; split; [done|].
    exists [], []. by rewrite Hs, E.
  - apply Forall2_cons_inv_l in Hl as (r1 & rss' & Ha & Hl & ->). simpl.
    apply IH; simpl in *; [done|done|lia|done].
Qed.

Lemma call_eof_fields s err :
  rnrdrs (call_eof s err) = rnrdrs s ∧ crntrdr (call_eof s err) = crntrdr s.
Proof. unfold call_eof. by destruct (EventEof s). Qed.

Lemma readSliceRune_spec fuel s c r0 rss :
  opt_pending c r0 → Forall2 any_pending (rnrdrs s) rss → (length (rnrdrs s) < fuel)%nat →
  (c = None → crntrdr s = None) →
  delivers (readSliceRune fuel s c) (r0 ++ concat rss).
Proof.
  revert s c r0 rss. induction fuel as [|fuel IH]; intros s c r0 rss Hc Hl Hf Hcn; [lia|].
  simpl. destruct c as [a|].
  - destruct r0 as [|r r0]; simpl in Hc.
    + destruct (any_nil a Hc) as (r & a' & -> & _). simpl.
      destruct (call_eof_fields (set_crnt s None) None) as [Hr Hcr].
      destruct (Z.eqb_spec (len (rnrdrs s)) 0).
      * assert (rnrdrs s = []) as Hnil by (destruct (rnrdrs s); [done|simpl in *; lia]).
        rewrite Hnil in Hl. apply Forall2_nil_inv_l in Hl as ->. simpl.
        destruct (call_eof_fields (set_crnt s None) (Some EOF)) as [Hr' Hcr'].
        eexists _, _; split; [done|]. exists [], []. by rewrite Hcr', Hr'; simpl; rewrite Hnil.
      * apply advance_spec; [apply IH|done|by rewrite Hr|]. rewrite Hr. simpl. lia.
    + destruct (any_cons a r r0 Hc) as (n & a' & -> & Hn & Ha'). simpl. zsimp.
      eexists _, _; split_and!; [done|done|]. by exists r0, rss.
  - simpl in Hc. subst r0. apply advance_spec; [apply IH|auto|done|lia].
Qed.

Lemma slice_ReadRune_delivers s rs : holds s rs → delivers (ReadRune s) rs.
Proof.
  intros (r0 & rss & Hc & Hl & ->). apply readSliceRune_spec; [done|done|lia|done].
Qed.

#[export] Program Instance source : RuneSource t := {| pending := holds |}.
Next Obligation. intros s r rs H. apply slice_ReadRune_delivers in H. exact H. Qed.
Next Obligation. intros s H. apply slice_ReadRune_delivers in H. exact H. Qed.

(** Appending readers before or after what is being read. *)
Lemma PreAppend_holds s rdrs rs rss :
  holds s rs → Forall2 any_pending rdrs rss →
  ∃ s', PreAppend (Some s) rdrs = Some s' ∧ holds s' (concat rss ++ rs).
Proof.
  intros (r0 & rss0 & Hc & Hl & ->) Hr. unfold PreAppend.
  destruct (Z.ltb_spec 0 (len rdrs)).
  - destruct (crntrdr s) as [c|]; eexists; (split; [done|]).
    + exists [], (rss ++ r0 :: rss0). simpl. split_and!; [done| |].
      * apply Forall2_app; [done|]. by constructor.
      * by rewrite concat_app.
    + simpl in Hc. subst r0. exists [], (rss ++ rss0). simpl. split_and!; [done| |].
      * by apply Forall2_app.
      * by rewrite concat_app.
  - destruct rdrs; [|simpl in *; lia]. apply Forall2_nil_inv_l in Hr as ->.
    eexists; split; [done|]. by exists r0, rss0.
Qed.

Lemma PostAppend_holds s rdrs rs rss :
  holds s rs → Forall2 any_pending rdrs rss →
  ∃ s', PostAppend (Some s) rdrs = Some s' ∧ holds s' (rs ++ concat rss).
Proof.
  intros (r0 & rss0 & Hc & Hl & ->) Hr. unfold PostAppend.
  destruct (Z.ltb_spec 0 (len rdrs)).
  - eexists; split; [done|]. exists r0, (rss0 ++ rss). simpl. split_and!; [done| |].
    + by apply Forall2_app.
    + by rewrite concat_app, app_assoc.
  - destruct rdrs; [|simpl in *; lia]. apply Forall2_nil_inv_l in Hr as ->.
    eexists; split; [done|]. rewrite app_nil_r. by exists r0, rss0.
Qed.

(** The text of an argument. *)
Inductive arg_text (single : bool) : rarg → list Z → Prop :=
| text_string s : arg_text single (AString s) (utf8.runes s)
| text_runes rs : valid_runes rs → arg_text single (ARunes rs) rs
| text_rune r : utf8.ValidRune r = true → arg_text single (ARune r) (if single then [r] else [])
| text_reader a rs : any_pending a rs → arg_text single (AReader a) rs
| text_other : arg_text single AOther [].

Lemma string_reader_pending s : any_pending (string_reader s) (utf8.runes s).
Proof. by exists strings.Reader_RuneSource. Qed.

Lemma runes_reader_pending rs : valid_runes rs → any_pending (runes_reader rs) rs.
Proof. intros. exists RunesReader.source. by apply RunesReader.NewRunesReader_holds. Qed.

Lemma args_readers_pending single args ts :
  Forall2 (arg_text single) args ts →
  ∃ rss, Forall2 any_pending (args_readers single args) rss ∧ concat rss = concat ts.
Proof.
  unfold args_readers. induction 1 as [|a t args ts Ha _ (rss & Hr & Hc)]; [by exists []|].
  cbn [map concat]. rewrite <- Hc.
  assert (∃ l, Forall2 any_pending
    match a with
    | AString s => if bool_decide (s = []) then [] else [string_reader s]
    | ARunes rs => if 0 <? len rs then [runes_reader rs] else []
    | ARune r => if single then [runes_reader [r]] else []
    | AReader a => [a]
    | AOther => []
    end l ∧ concat l = t) as (l & Hl & <-).
  { destruct Ha as [s|rs Hv|r Hv|a rs Hp|].
    - case_bool_decide as E; [subst; by exists []|]. exists [utf8.runes s]. cbn. rewrite app_nil_r.
      split; [|done]. constructor; [apply string_reader_pending|constructor].
    - destruct (Z.ltb_spec 0 (len rs)); [|destruct rs; [by exists []|cbn in *; lia]].
      exists [rs]. cbn. rewrite app_nil_r. split; [|done]. constructor; [by apply runes_reader_pending|constructor].
    - destruct single; [|by exists []]. exists [[r]]. split; [|done].
      constructor; [apply runes_reader_pending; by constructor|constructor].
    - exists [rs]. cbn. rewrite app_nil_r. split; [|done]. by repeat constructor.
    - by exists []. }
  exists (l ++ rss). split; [by apply Forall2_app|apply concat_app].
Qed.

(** A slice of readers delivers the texts of its readers one after the other:
    after PreAppendArgs and PostAppendArgs, called at any point of the reading, what is
    read next is the text put before, then all that was still to be read, the reader in
    use included, then the text put after. *)
Theorem append_args_order s rs fuel pre post tpre tpost :
  holds s rs → Forall2 (arg_text false) pre tpre → Forall2 (arg_text true) post tpost →
  len (concat tpre ++ rs ++ concat tpost) < Z.of_nat fuel →
  ∃ s1 s2 s3, PreAppendArgs (Some s) pre = Some s1 ∧ PostAppendArgs (Some s1) post = Some s2 ∧
    ReaderToString fuel s2 = Done (concat tpre ++ rs ++ concat tpost, None, s3).
Proof.
  intros Hs Hpre Hpost Hf.
  destruct (args_readers_pending false pre tpre Hpre) as (r1 & Hr1 & E1).
  destruct (args_readers_pending true post tpost Hpost) as (r2 & Hr2 & E2).
  assert (∃ s1, PreAppendArgs (Some s) pre = Some s1 ∧ holds s1 (concat tpre ++ rs)) as (s1 & Es1 & Hs1).
  { unfold PreAppendArgs. destruct (PreAppend_holds s _ rs r1 Hs Hr1) as (s1 & E & H1). rewrite <- E1.
    destruct (Z.ltb_spec 0 (len (args_readers false pre))); [eauto|].
    destruct (args_readers false pre); [|cbn in *; lia]. apply Forall2_nil_inv_l in Hr1 as ->. eauto. }
  assert (∃ s2, PostAppendArgs (Some s1) post = Some s2 ∧ holds s2 ((concat tpre ++ rs) ++ concat tpost))
    as (s2 & Es2 & Hs2).
  { unfold PostAppendArgs. destruct (PostAppend_holds s1 _ _ r2 Hs1 Hr2) as (s2 & E & H2). rewrite <- E2.
    destruct (Z.ltb_spec 0 (len (args_readers true post))); [eauto|].
    destruct (args_readers true post); [|cbn in *; lia]. apply Forall2_nil_inv_l in Hr2 as ->.
    rewrite app_nil_r in *. eauto. }
  rewrite <- app_assoc in Hs2. destruct (ReaderToString_source (H := source) fuel s2 _ Hs2 Hf) as (s3 & Es3 & _).
  by exists s1, s2, s3.
Qed.

Lemma append_args_order_witness :
  ∃ s1 s2 s3, PreAppendArgs (Some (Mk [runes_reader [98]] (Some (string_reader [97])) false [])) [AString [120]] = Some s1 ∧
    PostAppendArgs (Some s1) [ARune 99; AOther] = Some s2 ∧
    ReaderToString 9 s2 = Done (concat [utf8.runes [120]] ++ [97; 98] ++ concat [[99]; []], None, s3).
Proof.
  apply append_args_order.
  - exists [97], [[98]]. split_and!; [apply string_reader_pending| |done].
    constructor; [apply runes_reader_pending; by repeat constructor|constructor].
  - repeat constructor.
  - constructor; [exact (text_rune true 99 eq_refl)|]. constructor; [apply text_other|constructor].
  - vm_compute. reflexivity.
Defined.

(** An error of a reader that is not the last is not reported. *)
Definition failing_reader : anyrdr := AnyRdr unit (λ s, Done (0, 0, Some (OtherErr 7), s)) tt.

Example error_swallowed :
  (let* '(r, n, e, _) := ReadRune (Mk [failing_reader; string_reader [98]] None false []) in Done (r, n, e)) =
  Done (98, 1, None).
Proof. reflexivity. Qed.
End runeReaderSlice.
