(* ===== verification/Buffer.v ===== *)
(** [Buffer] of src/ioext/buffer.go: a growable byte buffer made of full chunks
    ([buffer]) and a partly filled one ([bytes], of which [bytesi] bytes are in
    use).  NewBuffer makes chunks of 8192 bytes; every operation works for any
    chunk size, and so do the theorems.

    [OnMaxWritten] is a pure predicate here, [OnClose] is recorded as whether it is
    set and how often it was called.  The lock is a flag: nil or not. *)

From S2P Require Import Prelude Runes Readers RuneReaders.

Record Buffer := MkBuffer {
  buffer : list (list Z);
  bytes : list Z;
  bytesi : Z;
  lck : bool;
  OnClose : bool;
  close_calls : nat;
  MaxLenToWrite : Z;
  maxwrttnl : Z;
  OnMaxWritten : option (Z → bool) }.

Definition set_data (b : Buffer) (bf : list (list Z)) (bs : list Z) (i : Z) : Buffer :=
  MkBuffer bf bs i (lck b) (OnClose b) (close_calls b) (MaxLenToWrite b) (maxwrttnl b)
    (OnMaxWritten b).

Definition set_max (b : Buffer) (ml mw : Z) : Buffer :=
  MkBuffer (buffer b) (bytes b) (bytesi b) (lck b) (OnClose b) (close_calls b) ml mw
    (OnMaxWritten b).

Definition chunk_size : Z := 8192.

Definition empty_buffer (c : Z) : Buffer :=
  MkBuffer [] (replicate (Z.to_nat c) 0) 0 true false 0 (-1) (-1) None.

(** ** Size *)

Definition BuffersLen (o : option Buffer) : exec Z :=
  match o with None => Panic | Some b => Done (len (buffer b)) end.

Definition Empty (o : option Buffer) : bool :=
  match o with
  | None => true
  | Some b => (bytesi b =? 0) && (len (buffer b) =? 0)
  end.

Definition chunk0_len (bf : list (list Z)) : Z :=
  match bf with [] => 0 | c :: _ => len c end.

Definition Size (o : option Buffer) : Z :=
  match o with
  | None => 0
  | Some b =>
    if Empty o then 0
    else (if 0 <? len (buffer b) then len (buffer b) * chunk0_len (buffer b) else 0) +
         (if 0 <? bytesi b then bytesi b else 0)
  end.

(** ** Writing *)

Definition wrapupWrite (b : Buffer) : Buffer :=
  if (0 <? MaxLenToWrite b) && (MaxLenToWrite b <=? maxwrttnl b) then
    match OnMaxWritten b with
    | Some f => if f (maxwrttnl b) then set_max b (MaxLenToWrite b) (-1) else set_max b (-1) (-1)
    | None => set_max b (-1) (-1)
    end
  else b.

(** One [copy] of [tl] bytes of [p] into the open chunk, and the count of it. *)
Definition copy_in (b : Buffer) (p : list Z) (n tl : Z) : exec (Buffer * Z) :=
  let* _ := slice (bytes b) (bytesi b) (bytesi b + tl) in
  let* src := slice p n (n + tl) in
  let cl := len src in
  if 0 <? cl then
    let b1 := set_data b (buffer b) (blit (bytes b) (bytesi b) src) (bytesi b + cl) in
    Done (if 0 <? MaxLenToWrite b1 then
            set_max b1 (MaxLenToWrite b1)
              (if maxwrttnl b1 <? 0 then cl else maxwrttnl b1 + cl)
          else b1, n + cl)
  else Done (b, n).

(** A full chunk is copied to the list of chunks. *)
Definition seal (b : Buffer) : exec Buffer :=
  if bytesi b =? len (bytes b) then
    let* full := slice (bytes b) 0 (bytesi b) in
    Done (set_data b (buffer b ++ [full]) (bytes b) 0)
  else Done b.

Fixpoint writeBytes_loop (fuel : nat) (b : Buffer) (pl : Z) (p : list Z) (n : Z)
  : exec (Z * Buffer) :=
  match fuel with
  | O => NoFuel
  | S fuel' =>
    if n <? pl then
      let tl := len (bytes b) - bytesi b in
      let* '(b1, n1) := if tl <=? pl - n then copy_in b p n tl
                        else copy_in b p n (pl - n) in
      let* b2 := seal b1 in
      writeBytes_loop fuel' b2 pl p n1
    else Done (n, b)
  end.

Definition writeBytes (b : Buffer) (pl : Z) (p : list Z) : exec (Z * Buffer) :=
  let* '(n, b1) := writeBytes_loop (S (Z.to_nat pl)) b pl p 0 in
  Done (n, wrapupWrite b1).

Definition Write (b : Buffer) (p : list Z) : exec (Z * option goerr * Buffer) :=
  let pl := len p in
  if 0 <? pl then
    if lck b then
      let* '(n, b1) := writeBytes b pl p in Done (n, None, wrapupWrite b1)
    else Panic
  else Done (0, None, b).

Definition WriteRune (b : Buffer) (r : Z) : exec (option goerr * Buffer) :=
  let* bs := RunesToUTF8 [r] in
  if 0 <? len bs then let* '(_, err, b') := Write b bs in Done (err, b') else Done (None, b).

Definition WriteRunes (b : Buffer) (p : list Z) : exec (Z * option goerr * Buffer) :=
  if 0 <? len p then
    let* bs := RunesToUTF8 p in
    let* '(err, b') := if 0 <? len bs then let* '(_, err, b') := Write b bs in Done (err, b')
                       else Done (None, b) in
    Done (len p, err, b')
  else Done (0, None, b).

(** ** Reading from a reader into the buffer *)
Section read_from.
Context {S : Type}.

(** [ReadFrom]: the 4096-byte reads go through a bufio.Reader of 4096 bytes, which
    hands them to the underlying reader unchanged. *)
Fixpoint ReadFrom `{!ByteReader S} (fuel : nat) (b : Buffer) (n : Z) (r : S)
  : exec (Z * option goerr * Buffer * S) :=
  match fuel with
  | O => NoFuel
  | Datatypes.S fuel' =>
    let* '(p, pnerr, r') := read_bytes r 4096 in
    let* '(n1, b1) := if 0 <? len p then let* '(wn, b1) := writeBytes b (len p) p in Done (n + wn, b1)
                      else Done (n, b) in
    match pnerr with
    | Some e => Done (n1, Some e, b1, r')
    | None => if len p =? 0 then Done (n1, Some EOF, b1, r') else ReadFrom fuel' b1 n1 r'
    end
  end.

(** [ReadRunesFrom]: runes are collected 4096 at a time; the result counts the
    bytes read and the bytes written. *)
Definition flush_runes (b : Buffer) (n : Z) (p : list Z) : exec (Z * Buffer) :=
  let* bs := RunesToUTF8 p in
  if 0 <? len bs then let* '(wn, b1) := writeBytes b (len bs) bs in Done (n + wn, b1)
  else Done (n, b).

Fixpoint ReadRunesFrom_loop `{!RuneReader S} (fuel : nat) (b : Buffer) (n : Z) (p : list Z) (r : S)
  : exec (Z * option goerr * list Z * Buffer * S) :=
  match fuel with
  | O => NoFuel
  | Datatypes.S fuel' =>
    let* '(pr, pn, pnerr, r') := read_rune r in
    let* '(n1, p1, b1) :=
      if 0 <? pn then
        let p1 := p ++ [pr] in
        if len p1 =? 4096 then
          let* '(n1, b1) := flush_runes b (n + pn) p1 in Done (n1, [], b1)
        else Done (n + pn, p1, b)
      else Done (n, p, b) in
    match pnerr with
    | Some e => Done (n1, Some e, p1, b1, r')
    | None => if pn =? 0 then Done (n1, Some EOF, p1, b1, r')
              else ReadRunesFrom_loop fuel' b1 n1 p1 r'
    end
  end.

Definition ReadRunesFrom `{!RuneReader S} (fuel : nat) (b : Buffer) (r : S)
  : exec (Z * option goerr * Buffer * S) :=
  let* '(n, err, p, b1, r') := ReadRunesFrom_loop fuel b 0 [] r in
  let* '(n2, b2) := if 0 <? len p then flush_runes b1 n p else Done (n, b1) in
  Done (n2, err, b2, r').
End read_from.

(** ** Clearing, closing, cloning *)

Definition Clear (o : option Buffer) : option Buffer :=
  match o with
  | None => None
  | Some b =>
    if lck b then
      let b1 := set_data b [] (bytes b) (if 0 <? bytesi b then 0 else bytesi b) in
      Some (if (0 <? MaxLenToWrite b1) && match OnMaxWritten b1 with None => true | _ => false end
            then set_max b1 (-1) (-1) else b1)
    else Some b
  end.

Definition Close (o : option Buffer) : option Buffer :=
  match o with
  | None => None
  | Some b =>
    if lck b then
      let b1 := if OnClose b then
          MkBuffer (buffer b) (bytes b) (bytesi b) (lck b) false (S (close_calls b))
            (MaxLenToWrite b) (maxwrttnl b) (OnMaxWritten b)
        else b in
      match Clear (Some b1) with
      | Some b2 => Some (MkBuffer (buffer b2) (bytes b2) (bytesi b2) false (OnClose b2)
                           (close_calls b2) (MaxLenToWrite b2) (maxwrttnl b2) (OnMaxWritten b2))
      | None => None
      end
    else Some b
  end.

(** [Clone(clear)]: the clone shares the chunks, which are never written again; its
    open chunk is always of 8192 bytes. *)
Definition Clone (o : option Buffer) (clear : bool) : exec (Buffer * option Buffer) :=
  let cln := empty_buffer chunk_size in
  match o with
  | None => Done (cln, None)
  | Some b =>
    if Empty o then Done (cln, o)
    else
      let cln1 := set_data cln (buffer b) (bytes cln) (bytesi cln) in
      let* cln2 :=
        if 0 <? bytesi b then
          let* src := slice (bytes b) 0 (bytesi b) in
          let n := Z.min (len (bytes cln1)) (len src) in
          Done (set_data cln1 (buffer cln1) (blit (bytes cln1) 0 (sub src 0 n)) (bytesi b))
        else Done cln1 in
      Done (cln2, if clear then Clear (Some (set_data b [] (bytes b) (bytesi b))) else Some b)
  end.

(** ** LastByte *)

(** [fnbt]: the last byte of a piece, or its last byte that is not a space. *)
Fixpoint last_byte_of (any : bool) (rev_bs : list Z) : option Z :=
  match rev_bs with
  | [] => None
  | x :: rest => if any then Some x else if negb (IsSpace x) then Some x else last_byte_of any rest
  end.

Fixpoint last_byte_chunks (any : bool) (rev_chunks : list (list Z)) : option Z :=
  match rev_chunks with
  | [] => None
  | c :: rest =>
    match last_byte_of any (reverse c) with
    | Some x => Some x
    | None => last_byte_chunks any rest
    end
  end.

Definition LastByte (o : option Buffer) (noneempty : bool) : exec Z :=
  match o with
  | None => Done 0
  | Some b =>
    if lck b then
      let any := negb noneempty in
      let* tail := if 0 <? bytesi b then
                     let* t := slice (bytes b) 0 (bytesi b) in Done (last_byte_of any (reverse t))
                   else Done None in
      match tail with
      | Some x => Done x
      | None => Done (default 0 (last_byte_chunks any (reverse (buffer b))))
      end
    else Panic
  end.

(** ** Writing a range of the buffer out *)

(** [io.Writer]: bytes written and the error. *)
Class ByteWriter (W : Type) := write_to : W → list Z → exec (Z * option goerr * W).

#[export] Instance Buffer_writer : ByteWriter Buffer := Write.

(** The plainest writer: everything it was given. *)
#[export] Instance log_writer : ByteWriter (list Z) := λ w p, Done (len p, None, w ++ p).

(** Outcome of one round of the loop over the chunks. *)
Inductive round (W : Type) : Type :=
| Next (n : Z) (w : W)
| Return (n : Z) (err : option goerr) (w : W).
Arguments Next {W} n w.
Arguments Return {W} n err w.

Section write_offset.
Context {W : Type} `{!ByteWriter W}.

Definition wrtbst (w : W) (n : Z) (b : list Z) : exec (Z * option goerr * W) :=
  let* '(wn, err, w') := write_to w b in Done (n + wn, err, w').

Definition next_unless_err (res : exec (Z * option goerr * W)) : exec (round W) :=
  let* '(n, err, w) := res in
  Done (match err with Some e => Return n (Some e) w | None => Next n w end).

Definition return_of (res : exec (Z * option goerr * W)) : exec (round W) :=
  let* '(n, err, w) := res in Done (Return n err w).

(** The body of the loop for the piece [bts] that starts at [off] and ends at
    [offlen]: the same code is written twice in the source, once for the chunks and
    once for the open chunk. *)
Definition write_piece (stroffset endoffset off offlen : Z) (bts : list Z) (n : Z) (w : W)
  : exec (round W) :=
  if off <? endoffset then
    if off <=? stroffset then
      if stroffset <? off + offlen then
        let btsn := stroffset - off in
        if endoffset <=? offlen then
          let* p := slice bts btsn (endoffset - off) in return_of (wrtbst w n p)
        else
          let* p := slice bts btsn (len bts) in next_unless_err (wrtbst w n p)
      else Done (Return n None w)
    else
      if endoffset <=? offlen then
        let* p := slice bts 0 (endoffset - off) in return_of (wrtbst w n p)
      else if offlen <? endoffset then next_unless_err (wrtbst w n bts)
      else Done (Return n None w)
  else Done (Return n None w).

Fixpoint write_chunks (stroffset endoffset c : Z) (btsn : Z) (chunks : list (list Z)) (n : Z) (w : W)
  : exec (round W) :=
  match chunks with
  | [] => Done (Next n w)
  | bts :: rest =>
    let* r := write_piece stroffset endoffset (c * btsn) (c * (btsn + 1)) bts n w in
    match r with
    | Next n' w' => write_chunks stroffset endoffset c (btsn + 1) rest n' w'
    | Return _ _ _ => Done r
    end
  end.

Definition internalBufferWriteToOffSet (o : option Buffer) (w : W)
    (stroffset endoffset maxoffset : Z) : exec (Z * option goerr * W) :=
  match o with
  | None => Done (0, None, w)
  | Some b =>
    if (0 <=? stroffset) && (stroffset <? endoffset) && (0 <? maxoffset) && (maxoffset <=? Size o) then
      let* r := write_chunks stroffset endoffset (chunk0_len (buffer b)) 0 (buffer b) 0 w in
      match r with
      | Return n err w' => Done (n, err, w')
      | Next n w' =>
        if 0 <? bytesi b then
          let* bts := slice (bytes b) 0 (bytesi b) in
          let off := if 0 <? len (buffer b) then len (buffer b) * chunk0_len (buffer b) else 0 in
          let* r' := write_piece stroffset endoffset off (off + bytesi b) bts n w' in
          match r' with
          | Next n' w'' => Done (n', None, w'')
          | Return n' err w'' => Done (n', err, w'')
          end
        else Done (n, None, w')
      end
    else Done (0, None, w)
  end.

Definition WriteTo (o : option Buffer) (w : W) : exec (Z * option goerr * W) :=
  let bufs := Size o in
  if 0 <? bufs then internalBufferWriteToOffSet o w 0 bufs bufs else Done (0, None, w).

Definition WriteSubOffsetTo (o : option Buffer) (w : W) (offsets : list Z)
  : exec (Z * option goerr * W) :=
  let bufs := Size o in
  if (0 <? bufs) && (0 <? len offsets) then
    let* stroffset := index offsets 0 in
    let offsets' := if len offsets =? 1 then offsets ++ [Size o] else offsets in
    let* e := index offsets' 1 in
    internalBufferWriteToOffSet o w stroffset e bufs
  else Done (0, None, w).
End write_offset.

(** ** SubString *)

(** The writer SubString passes: the bytes of the rune being decoded, the runes
    decoded so far (flushed to the string 8192 at a time) and the string. *)
Record substr := Substr { runebts : list Z; rns : list Z; str : list Z }.

Fixpoint substr_bytes (p : list Z) (st : substr) : exec (Z * option goerr * substr) :=
  match p with
  | [] => Done (0, None, st)
  | b :: p' =>
    if len (runebts st) <? 4 then
      let bts := runebts st ++ [b] in
      let '(r, rs) := utf8.DecodeRune bts in
      let st1 :=
        if negb ((r =? utf8.RuneError) && ((rs =? 0) || (rs =? 1))) && (0 <? rs) then
          let rns' := rns st ++ [r] in
          if len rns' =? 8192 then Substr [] [] (str st ++ encode_all rns')
          else Substr [] rns' (str st)
        else Substr bts (rns st) (str st) in
      if len (runebts st1) =? 4 then Done (0, Some EOF, st1)
      else substr_bytes p' st1
    else Panic
  end.

#[export] Instance substr_writer : ByteWriter substr := λ st p, substr_bytes p st.

Definition SubString (o : option Buffer) (offset : list Z) : exec (list Z * option goerr) :=
  match o with
  | None => Done ([], None)
  | Some _ =>
    let offset' := if len offset =? 1 then offset ++ [Size o] else offset in
    if (0 <? len offset') && (len offset' mod 2 =? 0) then
      let* s := index offset' 0 in
      let* e := index offset' 1 in
      let* '(_, err, st) := internalBufferWriteToOffSet o (Substr [] [] []) s e e in
      Done (match err with
            | None => if 0 <? len (rns st) then str st ++ encode_all (rns st) else str st
            | Some _ => str st
            end, err)
    else Done ([], None)
  end.

(** [String]: the content as a string, empty when it does not decode. *)
Definition String_ (o : option Buffer) : exec (list Z) :=
  if Empty o then Done []
  else
    let* '(s, err) := SubString o [0] in
    Done (match err with Some _ => [] | None => s end).

(** ** Print *)

(** The arguments [Fprint] tells apart; [PReader] is a reader that is no reader of runes,
    of any type.  Strings are their bytes; a map is the JSON
    text [json.Encoder] writes for it and any other value the text [fmt.Fprint]
    writes. *)
Record anybytes := AnyBytes { ab_type : Type; ab_Read : ByteReader ab_type; ab_reader : ab_type }.

Unset Elimination Schemes.
Inductive parg : Type :=
| PBool (b : bool)
| PString (s : list Z)
| PRuneReader (r : anyrdr)
| PReader (r : anybytes)
| PBuffer (b : Buffer)
| PMap (entries : Z) (json : list Z)
| PArr (a : list parg)
| PRunes (rs : list Z)
| PStrs (ss : list (list Z))
| PNil
| POther (text : list Z).
Set Elimination Schemes.

Definition true_bytes : list Z := [116; 114; 117; 101].
Definition false_bytes : list Z := [102; 97; 108; 115; 101].

Definition write_string (w : Buffer) (s : list Z) : exec (option goerr * Buffer) :=
  let* bs := RunesToUTF8 (utf8.runes s) in
  let* '(_, err, w') := Write w bs in Done (err, w').

(** What one argument does to the loop: the error it leaves and whether it ends the
    loop; an [io.EOF] is dropped and the loop goes on. *)
Definition after (res : exec (option goerr * Buffer)) : exec (option goerr * bool * Buffer) :=
  let* '(err, w) := res in
  Done (match err with
        | None => (None, false, w)
        | Some EOF => (None, false, w)
        | Some e => (Some e, true, w)
        end).

(** [Fprint(w, a...)] for a [*Buffer] w: [Fprint_arg] is the body of the loop. *)
Fixpoint Fprint_arg (fuel : nat) (w : Buffer) (err : option goerr) (d : parg) {struct d}
  : exec (option goerr * bool * Buffer) :=
  match d with
  | PBool b => after (write_string w (if b then true_bytes else false_bytes))
  | PString s => after (write_string w s)
  | PRuneReader r =>
    after (let* '(_, err', w', _) := ReadRunesFrom fuel w r in Done (err', w'))
  | PReader r =>
    after (let* '(_, err', w', _) := ReadFrom (ByteReader0 := ab_Read r) fuel w 0 (ab_reader r) in Done (err', w'))
  | PBuffer b => let* '(_, err', w') := WriteTo (Some b) w in Done (err', false, w')
  | PMap entries json =>
    if 0 <? entries then let* '(_, _, w') := Write w json in Done (err, false, w')
    else Done (err, false, w)
  | PArr a =>
    if 0 <? len a then
      let* '(err', w') :=
        (fix go (w : Buffer) (err : option goerr) (a : list parg) : exec (option goerr * Buffer) :=
           match a with
           | [] => Done (err, w)
           | x :: a' =>
             let* '(err', stop, w') := Fprint_arg fuel w err x in
             if (stop : bool) then Done (err', w') else go w' err' a'
           end) w None a in
      Done (err', bool_decide (err' ≠ None), w')
    else Done (err, false, w)
  | PRunes rs =>
    if 0 <? len rs then after (write_string w (encode_all rs)) else Done (err, false, w)
  | PStrs ss =>
    if 0 <? len ss then
      let* '(err', w') := write_string w (concat ss) in Done (err', bool_decide (err' ≠ None), w')
    else Done (err, false, w)
  | PNil => Done (err, false, w)
  | POther text =>
    let* '(_, err', w') := Write w text in Done (err', bool_decide (err' ≠ None), w')
  end.

Fixpoint Fprint_loop (fuel : nat) (w : Buffer) (err : option goerr) (a : list parg)
  : exec (option goerr * Buffer) :=
  match a with
  | [] => Done (err, w)
  | d :: a' =>
    let* '(err', stop, w') := Fprint_arg fuel w err d in
    if (stop : bool) then Done (err', w') else Fprint_loop fuel w' err' a'
  end.

Definition Fprint (fuel : nat) (w : Buffer) (a : list parg) : exec (option goerr * Buffer) :=
  Fprint_loop fuel w None a.

Definition Print (fuel : nat) (b : Buffer) (a : list parg) : exec (option goerr * Buffer) :=
  Fprint fuel b a.

Definition Fprintln (fuel : nat) (w : Buffer) (a : list parg) : exec (option goerr * Buffer) :=
  let* '(err, w1) := if 0 <? len a then Fprint fuel w a else Done (None, w) in
  match err with
  | None => Fprint fuel w1 [PString [13; 10]]
  | Some e => Done (Some e, w1)
  end.

Definition Println (fuel : nat) (b : Buffer) (a : list parg) : exec (option goerr * Buffer) :=
  Fprintln fuel b a.

Definition NewBufferError (fuel : nat) (a : list parg) : exec (Buffer * option goerr) :=
  let buff := empty_buffer chunk_size in
  if 0 <? len a then let* '(err, b) := Print fuel buff a in Done (b, err) else Done (buff, None).

Definition NewBuffer (fuel : nat) (a : list parg) : exec Buffer :=
  let buff := empty_buffer chunk_size in
  if 0 <? len a then let* '(_, b) := Print fuel buff a in Done b else Done buff.

(** [InsertAt]: the buffer it prints its arguments to is dropped, the receiver is
    left as it is. *)
Definition InsertAt (fuel : nat) (o : option Buffer) (offset whence : Z) (a : list parg)
  : exec (option Buffer) :=
  match o with
  | None => Done None
  | Some b =>
    if (0 <? len a) && (-1 <? offset) then
      let* inbf := NewBuffer fuel a in
      if Empty (Some inbf) then Done o
      else if (whence =? 0) || (whence =? 1) || (whence =? 2) then
        if lck b then
          let* _ := slice (bytes b) 0 (bytesi b) in Done o
        else Panic
      else Done o
    else Done o
  end.

(** * Theory *)

(** The open chunk has room, and every sealed chunk has its size. *)
Record wf (b : Buffer) : Prop := {
  wf_lck : lck b = true;
  wf_open : 0 ≤ bytesi b < len (bytes b);
  wf_chunks : Forall (λ c, length c = length (bytes b)) (buffer b) }.

(** What a buffer holds. *)
Definition contents (b : Buffer) : list Z :=
  concat (buffer b) ++ take (Z.to_nat (bytesi b)) (bytes b).

Lemma wf_empty c : 0 < c → wf (empty_buffer c).
Proof. intros. split; simpl; [done| |constructor]. rewrite length_replicate. lia. Qed.

Lemma contents_empty c : contents (empty_buffer c) = [].
Proof. done. Qed.

Lemma length_concat_chunks (n : nat) (bf : list (list Z)) :
  Forall (λ c, length c = n) bf → length (concat bf) = (length bf * n)%nat.
Proof. induction 1 as [|c bf Hc _ IH]; simpl; [done|]. rewrite length_app. lia. Qed.

Lemma chunk0_len_wf (n : nat) (bf : list (list Z)) :
  Forall (λ c, length c = n) bf → bf ≠ [] → chunk0_len bf = Z.of_nat n.
Proof. destruct 1; [done|]. simpl. lia. Qed.

Lemma length_contents b :
  wf b → len (contents b) = len (buffer b) * len (bytes b) + bytesi b.
Proof.
  intros [_ Ho Hc]. unfold contents.
  rewrite length_app, (length_concat_chunks _ _ Hc), length_take. lia.
Qed.

Lemma Empty_contents b : wf b → Empty (Some b) = bool_decide (contents b = []).
Proof.
  intros Hw. pose proof (length_contents b Hw) as Hl. destruct Hw as [_ Ho Hc].
  unfold Empty. case_bool_decide as He.
  - rewrite He in Hl. simpl in Hl. assert (len (buffer b) = 0 ∧ bytesi b = 0) by nia. by zsimp.
  - destruct (Z.eqb_spec (bytesi b) 0), (Z.eqb_spec (len (buffer b)) 0); simpl; try done.
    exfalso. apply He. destruct (contents b); [done|]. simpl in Hl. nia.
Qed.

Lemma Size_contents b : wf b → Size (Some b) = len (contents b).
Proof.
  intros Hw. unfold Size. rewrite Empty_contents, length_contents by done.
  pose proof (length_contents b Hw) as Hl. destruct Hw as [_ Ho Hc].
  case_bool_decide as He; [rewrite He in Hl; simpl in Hl; lia|].
  destruct (Z.ltb_spec 0 (len (buffer b))), (Z.ltb_spec 0 (bytesi b));
    try rewrite (chunk0_len_wf _ _ Hc) by (destruct (buffer b); done); lia.
Qed.

(** ** Writing appends *)

Lemma copy_in_spec b p n tl :
  wf b → 0 ≤ n → 0 < tl → n + tl ≤ len p → bytesi b + tl ≤ len (bytes b) →
  ∃ b', copy_in b p n tl = Done (b', n + tl) ∧
    buffer b' = buffer b ∧ length (bytes b') = length (bytes b) ∧ lck b' = lck b ∧
    bytesi b' = bytesi b + tl ∧
    take (Z.to_nat (bytesi b')) (bytes b') =
      take (Z.to_nat (bytesi b)) (bytes b) ++ sub p n (n + tl).
Proof.
  intros [Hl Ho Hc] Hn Htl Hp Hb. unfold copy_in. rewrite !slice_ok by lia. simpl.
  assert (len (sub p n (n + tl)) = tl) as Hs by (rewrite length_sub; lia).
  rewrite Hs. zsimp. simpl.
  assert (length (blit (bytes b) (bytesi b) (sub p n (n + tl))) = length (bytes b))
    by (apply length_blit; lia).
  eexists; split; [done|]. destruct (0 <? MaxLenToWrite b); simpl; split_and!; try done;
    (pose proof (take_blit (bytes b) (bytesi b) (sub p n (n + tl)) ltac:(lia)) as Ht;
     rewrite Hs in Ht; apply Ht; lia).
Qed.

Lemma seal_spec b :
  lck b = true → 0 ≤ bytesi b ≤ len (bytes b) → 0 < len (bytes b) →
  Forall (λ c, length c = length (bytes b)) (buffer b) →
  ∃ b', seal b = Done b' ∧ wf b' ∧ length (bytes b') = length (bytes b) ∧ contents b' = contents b.
Proof.
  intros Hl Ho Hb Hc. unfold seal. destruct (Z.eqb_spec (bytesi b) (len (bytes b))) as [He|].
  - rewrite slice_ok by lia. simpl. eexists; split_and!; [done| |done|].
    + split; simpl; [done|lia|]. apply Forall_app; split; [done|]. constructor; [|done].
      rewrite He, sub_full. done.
    + unfold contents. simpl. rewrite concat_app. simpl. rewrite !app_nil_r.
      by rewrite sub_from_0.
  - eexists; split_and!; [done| |done|done]. split; [done|lia|done].
Qed.

Lemma writeBytes_loop_spec fuel b pl p n :
  wf b → 0 ≤ n ≤ pl → pl = len p → pl - n < Z.of_nat fuel →
  ∃ b', writeBytes_loop fuel b pl p n = Done (pl, b') ∧ wf b' ∧
    length (bytes b') = length (bytes b) ∧
    contents b' = contents b ++ drop (Z.to_nat n) p.
Proof.
  revert b n. induction fuel as [|fuel IH]; intros b n Hw Hn -> Hf; [lia|]. simpl.
  destruct (Z.ltb_spec n (len p)).
  - set (tl := if len (bytes b) - bytesi b <=? len p - n then len (bytes b) - bytesi b else len p - n).
    assert ((if len (bytes b) - bytesi b <=? len p - n
             then copy_in b p n (len (bytes b) - bytesi b) else copy_in b p n (len p - n)) =
            copy_in b p n tl) as -> by (subst tl; zcase; done).
    pose proof (wf_open b Hw).
    assert (0 < tl ∧ n + tl ≤ len p ∧ bytesi b + tl ≤ len (bytes b)) by (subst tl; zcase; lia).
    destruct (copy_in_spec b p n tl Hw) as (b1 & -> & Hbf & Hlen & Hlk & Hi & Ht); try lia. simpl.
    destruct (seal_spec b1) as (b2 & -> & Hw2 & Hl2 & Hc2).
    { rewrite Hlk. apply Hw. } { lia. } { lia. }
    { rewrite Hbf, Hlen. apply Hw. }
    simpl. destruct (IH b2 (n + tl) Hw2) as (b' & -> & Hw' & Hl' & Hc'); try lia.
    eexists; split_and!; [done|done|lia|].
    rewrite Hc', Hc2. unfold contents. rewrite Hbf, Ht, <- !app_assoc. do 2 f_equal.
    rewrite <- (sub_to_end p (n + tl)), sub_app by lia. by rewrite sub_to_end by lia.
  - assert (n = len p) as -> by lia. eexists; split_and!; [done|done|done|].
    rewrite drop_ge by lia. by rewrite app_nil_r.
Qed.

Lemma wrapupWrite_data b :
  buffer (wrapupWrite b) = buffer b ∧ bytes (wrapupWrite b) = bytes b ∧
  bytesi (wrapupWrite b) = bytesi b ∧ lck (wrapupWrite b) = lck b.
Proof. unfold wrapupWrite. repeat case_match; done. Qed.

Lemma wrapupWrite_wf b : wf b → wf (wrapupWrite b).
Proof.
  intros [Hl Ho Hc]. destruct (wrapupWrite_data b) as (Hb & Hbs & Hi & Hlk).
  split; rewrite ?Hb, ?Hbs, ?Hi, ?Hlk; done.
Qed.

Lemma wrapupWrite_contents b : contents (wrapupWrite b) = contents b.
Proof.
  destruct (wrapupWrite_data b) as (Hb & Hbs & Hi & _). unfold contents. by rewrite Hb, Hbs, Hi.
Qed.

Lemma writeBytes_spec b p :
  wf b →
  ∃ b', writeBytes b (len p) p = Done (len p, b') ∧ wf b' ∧
    length (bytes b') = length (bytes b) ∧ contents b' = contents b ++ p.
Proof.
  intros Hw. unfold writeBytes.
  destruct (writeBytes_loop_spec (S (Z.to_nat (len p))) b (len p) p 0 Hw)
    as (b' & -> & Hw' & Hl' & Hc'); try lia.
  simpl. eexists; split_and!; [done|by apply wrapupWrite_wf| |].
  - destruct (wrapupWrite_data b') as (_ & -> & _). done.
  - rewrite wrapupWrite_contents, Hc'. done.
Qed.

Lemma Write_ok b p :
  wf b →
  ∃ b', Write b p = Done (len p, None, b') ∧ wf b' ∧
    length (bytes b') = length (bytes b) ∧ contents b' = contents b ++ p.
Proof.
  intros Hw. unfold Write. destruct (Z.ltb_spec 0 (len p)).
  - rewrite (wf_lck b Hw). destruct (writeBytes_spec b p Hw) as (b' & -> & Hw' & Hl' & Hc').
    simpl. eexists; split_and!; [done|by apply wrapupWrite_wf| |].
    + destruct (wrapupWrite_data b') as (_ & -> & _). done.
    + by rewrite wrapupWrite_contents.
  - assert (p = []) as -> by (destruct p; [done|simpl in *; lia]).
    eexists; split_and!; [done|done|done|by rewrite app_nil_r].
Qed.

(** What an operation that appends [p] leaves behind. *)
Definition appended (b : Buffer) (p : list Z) (b' : Buffer) : Prop :=
  wf b' ∧ length (bytes b') = length (bytes b) ∧ contents b' = contents b ++ p.

Lemma appended_refl b : wf b → appended b [] b.
Proof. intros. split_and!; [done|done|by rewrite app_nil_r]. Qed.

Lemma appended_trans b1 p b2 q b3 :
  appended b1 p b2 → appended b2 q b3 → appended b1 (p ++ q) b3.
Proof.
  intros (H1 & H2 & H3) (H4 & H5 & H6). split_and!; [done|congruence|].
  by rewrite H6, H3, app_assoc.
Qed.

Lemma appended_wf b p b' : appended b p b' → wf b'.
Proof. by intros [? _]. Qed.

#[local] Hint Resolve appended_refl appended_trans appended_wf : core.

Lemma writeBytes_appends b p :
  wf b → ∃ b', writeBytes b (len p) p = Done (len p, b') ∧ appended b p b'.
Proof.
  intros Hw. destruct (writeBytes_spec b p Hw) as (b' & H & ? & ? & ?). by exists b'.
Qed.

Lemma Write_appends b p :
  wf b → ∃ b', Write b p = Done (len p, None, b') ∧ appended b p b'.
Proof. intros Hw. destruct (Write_ok b p Hw) as (b' & H & ? & ? & ?). by exists b'. Qed.

Lemma encode_all_nonempty rs : 0 < len rs → 0 < len (encode_all rs).
Proof. intros. pose proof (length_encode_all_ge rs). lia. Qed.

Lemma WriteRunes_appends b rs :
  wf b → valid_runes rs →
  ∃ b', WriteRunes b rs = Done (len rs, None, b') ∧ appended b (encode_all rs) b'.
Proof.
  intros Hw Hv. unfold WriteRunes. destruct (Z.ltb_spec 0 (len rs)).
  - rewrite RunesToUTF8_valid by done. simpl.
    pose proof (encode_all_nonempty rs). zsimp.
    destruct (Write_appends b (encode_all rs) Hw) as (b' & -> & Hb). simpl. eauto.
  - destruct rs; [|simpl in *; lia]. eauto.
Qed.

Lemma flush_runes_appends b n p :
  wf b → valid_runes p →
  ∃ b', flush_runes b n p = Done (n + len (encode_all p), b') ∧ appended b (encode_all p) b'.
Proof.
  intros Hw Hv. unfold flush_runes. rewrite RunesToUTF8_valid by done. simpl.
  destruct (Z.ltb_spec 0 (len (encode_all p))).
  - destruct (writeBytes_appends b (encode_all p) Hw) as (b' & -> & Hb). simpl. eauto.
  - assert (encode_all p = []) as -> by (destruct (encode_all p); [done|simpl in *; lia]).
    simpl. rewrite Z.add_0_r. eauto.
Qed.

Section read_from_spec.
Context {S : Type}.

(** [ReadFrom] copies the whole source and reports [io.EOF]. *)
Lemma ReadFrom_spec `{ByteSource S} fuel b n r bs :
  wf b → bpending r bs → len bs < Z.of_nat fuel →
  ∃ b' r', ReadFrom fuel b n r = Done (n + len bs, Some EOF, b', r') ∧ appended b bs b'.
Proof.
  revert b n r bs. induction fuel as [|fuel IH]; intros b n r bs Hw Hp Hf; [lia|].
  cbn [ReadFrom]. destruct (decide (bs = [])) as [->|Hne].
  - destruct (bpending_nil r 4096 Hp) as (r' & -> & Hp'); [lia|]. simpl.
    rewrite Z.add_0_r. eauto 6.
  - destruct (bpending_cons r bs 4096 Hp Hne) as (k & r' & -> & Hk & _ & Hkl & Hp'); [lia|].
    cbn [exec_bind].
    assert (len (take k bs) = Z.of_nat k) as Hlk by (rewrite length_take; lia).
    destruct (writeBytes_appends b (take k bs) Hw) as (b1 & Hwb & Hb1).
    rewrite Hwb, Hlk. cbn [exec_bind]. zsimp. cbn [exec_bind].
    destruct (IH b1 (n + Z.of_nat k) r' (drop k bs)) as (b' & r'' & -> & Hb'); [eauto|done| |].
    { rewrite length_drop. lia. }
    eexists _, _; split; [|rewrite <- (take_drop k bs); eauto].
    rewrite length_drop. do 4 f_equal. lia.
Qed.

Lemma ReadRunesFrom_loop_spec `{RuneSource S} fuel b n p r rs :
  wf b → pending r rs → len rs < Z.of_nat fuel → valid_runes (p ++ rs) →
  ∃ n' p' b' r' q, ReadRunesFrom_loop fuel b n p r = Done (n', Some EOF, p', b', r') ∧
    valid_runes p' ∧ appended b q b' ∧ q ++ encode_all p' = encode_all (p ++ rs).
Proof.
  revert b n p r rs. induction fuel as [|fuel IH]; intros b n p r rs Hw Hp Hf Hv; [lia|].
  cbn [ReadRunesFrom_loop]. destruct rs as [|x rs].
  - destruct (pending_nil r Hp) as (x & r' & -> & Hp'). simpl. rewrite app_nil_r in *.
    exists n, p, b, r', []. eauto 6.
  - destruct (pending_cons r x rs Hp) as (m & r' & -> & Hm & Hp'). cbn [exec_bind].
    zsimp. rewrite (app_assoc p [x] rs : p ++ x :: rs = (p ++ [x]) ++ rs) in *. simpl in Hf.
    destruct (len (p ++ [x]) =? 4096).
    + pose proof (proj1 (Forall_app _ _ _) Hv) as [Hv1 Hv2].
      destruct (flush_runes_appends b (n + m) (p ++ [x]) Hw Hv1) as (b1 & -> & Hb1).
      cbn [exec_bind]. zsimp.
      destruct (IH b1 (n + m + len (encode_all (p ++ [x]))) [] r' rs)
        as (n' & p' & b' & r'' & q & -> & Hv' & Hb' & Hq); [eauto|done|lia|done|].
      exists n', p', b', r'', (encode_all (p ++ [x]) ++ q). split_and!; [done|done|eauto|].
      rewrite <- app_assoc, Hq. simpl. by rewrite <- encode_all_app.
    + cbn [exec_bind]. zsimp. apply IH; [done|done|lia|done].
Qed.

(** [ReadRunesFrom] appends the UTF-8 of what the reader delivers. *)
Lemma ReadRunesFrom_spec `{RuneSource S} fuel b r rs :
  wf b → pending r rs → len rs < Z.of_nat fuel → valid_runes rs →
  ∃ n b' r', ReadRunesFrom fuel b r = Done (n, Some EOF, b', r') ∧ appended b (encode_all rs) b'.
Proof.
  intros Hw Hp Hf Hv. unfold ReadRunesFrom.
  destruct (ReadRunesFrom_loop_spec fuel b 0 [] r rs Hw Hp Hf Hv)
    as (n & p & b1 & r' & q & -> & Hvp & Hb1 & Hq). cbn [exec_bind]. simpl in Hq.
  destruct (Z.ltb_spec 0 (len p)).
  - destruct (flush_runes_appends b1 n p (appended_wf _ _ _ Hb1) Hvp) as (b2 & -> & Hb2).
    cbn [exec_bind]. rewrite <- Hq. eauto 7.
  - destruct p; [|simpl in *; lia]. rewrite <- Hq, app_nil_r. cbn [exec_bind]. eauto 7.
Qed.
End read_from_spec.

(** ** Writing out *)

(** A writer that takes the bytes [p] when they come in pieces: [written w p w'] says
    [w'] is [w] with [p] added, [count] is what it reports. *)
Class ByteSink (W : Type) `{!ByteWriter W} := {
  takes : W → list Z → Prop;
  written : W → list Z → W → Prop;
  count : list Z → Z;
  count_nil : count [] = 0;
  count_app p q : count (p ++ q) = count p + count q;
  written_refl w q : takes w q → written w [] w;
  written_trans w1 p w2 q w3 : written w1 p w2 → written w2 q w3 → written w1 (p ++ q) w3;
  write_to_sink w p q : takes w (p ++ q) →
    ∃ w', write_to w p = Done (count p, None, w') ∧ takes w' q ∧ written w p w' }.

#[export] Instance Buffer_sink : ByteSink Buffer.
Proof.
  refine {| takes b _ := wf b; written := appended; count p := len p |}; [done| | |eauto|].
  - intros. rewrite length_app. lia.
  - intros b _. eauto.
  - intros b p q Hw. destruct (Write_appends b p Hw) as (b' & H & Hb). eauto 6.
Defined.

#[export] Instance log_sink : ByteSink (list Z).
Proof.
  refine {| takes _ _ := True; written w p w' := w' = w ++ p; count p := len p |}.
  - done.
  - intros. rewrite length_app. lia.
  - intros. by rewrite app_nil_r.
  - intros w1 p w2 q w3 -> ->. by rewrite app_assoc.
  - intros w p q _. by eexists.
Defined.

Section write_spec.
Context {W : Type} `{ByteSink W}.

(** Chunk after chunk, for a range that begins at the start of the buffer. *)
Lemma write_chunks_spec c chunks k n w e q :
  0 < c → Forall (λ ch, len ch = c) chunks → 0 ≤ k → c * k + len (concat chunks) ≤ e →
  takes w (concat chunks ++ q) →
  ∃ r w', write_chunks 0 e c k chunks n w = Done r ∧ takes w' q ∧ written w (concat chunks) w' ∧
    ((r = Next (n + count (concat chunks)) w') ∨
     (r = Return (n + count (concat chunks)) None w' ∧ e = c * k + len (concat chunks))).
Proof.
  intros Hc Hch. revert k n w.
  induction Hch as [|ch chunks Hlen Hch IH]; intros k n w Hk He Hw.
  - simpl. rewrite count_nil. eexists _, _; split_and!; [done|done|by eapply written_refl|left; f_equal; lia].
  - simpl concat in *. rewrite length_app in *. cbn [write_chunks]. unfold write_piece, wrtbst.
    assert (c * k < e) by nia. zsimp. rewrite count_app. rewrite <- app_assoc in Hw.
    destruct (write_to_sink w ch _ Hw) as (w1 & Hw1 & Hok1 & Hwr1).
    assert (∃ r' w', write_chunks 0 e c (k + 1) chunks (n + count ch) w1 = Done r' ∧ takes w' q ∧
        written w (ch ++ concat chunks) w' ∧
        (r' = Next (n + (count ch + count (concat chunks))) w' ∨
         r' = Return (n + (count ch + count (concat chunks))) None w' ∧
         e = c * k + Z.of_nat (length ch + length (concat chunks)))) as Hgo.
    { destruct (IH (k + 1) (n + count ch) w1) as (r' & w' & -> & Hok' & Hwr' & Hr'); [lia|lia|done|].
      eexists _, w'; split_and!; [done|done|eauto using written_trans|].
      destruct Hr' as [->|[-> Heq]]; [left; f_equal; lia|right; split; [f_equal; lia|lia]]. }
    assert (e ≤ c * (k + 1) → chunks = []) as Hlast.
    { intros Heq. destruct chunks as [|c1 chunks]; [done|].
      inversion Hch; subst. simpl concat in He. rewrite length_app in He. lia. }
    assert (e ≤ c * (k + 1) →
      ∃ r' w', Done (Return (n + count ch) None w1) = Done r' ∧ takes w' q ∧
        written w (ch ++ concat chunks) w' ∧
        (r' = Next (n + (count ch + count (concat chunks))) w' ∨
         r' = Return (n + (count ch + count (concat chunks))) None w' ∧
         e = c * k + Z.of_nat (length ch + length (concat chunks)))) as Hend.
    { intros Heq. rewrite (Hlast Heq) in *. simpl concat in *. simpl length in *. simpl app in *.
      rewrite app_nil_r, count_nil. eexists _, w1; split_and!; [done|done|done|].
      right; split; [f_equal; lia|lia]. }
    destruct (Z.leb_spec (c * k) 0).
    + zsimp. rewrite !Z.sub_0_l. assert (c * k = 0) as Hz by nia. rewrite Hz in *. simpl Z.opp.
      destruct (Z.leb_spec e (c * (k + 1))).
      * assert (e = len ch) as -> by lia. rewrite slice_ok by lia. cbn [exec_bind].
        rewrite Z.sub_0_r, sub_full, Hw1. exact (Hend ltac:(lia)).
      * rewrite slice_ok by lia. cbn [exec_bind]. rewrite sub_full, Hw1. exact Hgo.
    + destruct (Z.leb_spec e (c * (k + 1))).
      * rewrite slice_ok by lia. cbn [exec_bind]. replace (e - c * k) with (len ch) by lia.
        rewrite sub_full, Hw1. exact (Hend ltac:(lia)).
      * zsimp. rewrite Hw1. exact Hgo.
Qed.

(** A range that is the whole buffer. *)
Lemma internalBufferWriteToOffSet_full b w q m :
  wf b → contents b ≠ [] → 0 < m ≤ len (contents b) → takes w (contents b ++ q) →
  ∃ w', internalBufferWriteToOffSet (Some b) w 0 (len (contents b)) m =
      Done (count (contents b), None, w') ∧ takes w' q ∧ written w (contents b) w'.
Proof.
  intros Hw Hne Hm Ht. unfold internalBufferWriteToOffSet. rewrite Size_contents by done.
  assert (0 < len (contents b)) by (destruct (contents b); [done|simpl; lia]). zsimp.
  pose proof (length_contents b Hw) as Hl. pose proof (wf_open b Hw) as Ho.
  pose proof (wf_chunks b Hw) as Hc.
  assert (contents b = concat (buffer b) ++ sub (bytes b) 0 (bytesi b)) as Hcon
    by (unfold contents; by rewrite sub_from_0).
  assert (len (concat (buffer b)) = len (buffer b) * len (bytes b)) as Hlc
    by (rewrite (length_concat_chunks _ _ Hc); lia).
  remember (len (contents b)) as e eqn:He. clear He Hne.
  rewrite Hcon in *. rewrite count_app, <- app_assoc in *. clear Hcon.
  assert (∃ r w', write_chunks 0 e (chunk0_len (buffer b)) 0 (buffer b) 0 w = Done r ∧
    takes w' (sub (bytes b) 0 (bytesi b) ++ q) ∧ written w (concat (buffer b)) w' ∧
    (r = Next (count (concat (buffer b))) w' ∨
     r = Return (count (concat (buffer b))) None w' ∧ bytesi b = 0)) as (r & w' & -> & Hok & Hwr & Hr).
  { destruct (decide (buffer b = [])) as [Hbn|Hbn].
    - rewrite Hbn in *. simpl in *. rewrite count_nil. eexists _, w; split_and!; [done|exact Ht|by eapply written_refl|by left].
    - rewrite (chunk0_len_wf _ _ Hc Hbn).
      destruct (write_chunks_spec (len (bytes b)) (buffer b) 0 0 w e
        (sub (bytes b) 0 (bytesi b) ++ q)) as (r & w' & -> & Hok & Hwr & Hr);
        [lia|eapply Forall_impl; [|exact Hc]; simpl; lia|lia|lia|done|].
      rewrite Z.add_0_l in Hr. eexists _, w'; split_and!; [done|done|done|].
      destruct Hr as [->|[-> Heq]]; [by left|right; split; [done|lia]]. }
  destruct Hr as [->|[-> Hz]]; cbn [exec_bind].
  - destruct (Z.ltb_spec 0 (bytesi b)).
    + rewrite slice_ok by lia. cbn [exec_bind].
      assert (len (sub (bytes b) 0 (bytesi b)) = bytesi b) as Hls by (rewrite length_sub; lia).
      destruct (write_to_sink w' (sub (bytes b) 0 (bytesi b)) q Hok) as (w2 & Hw2 & Hok2 & Hwr2).
      assert ((if 0 <? len (buffer b) then len (buffer b) * chunk0_len (buffer b) else 0) =
              len (concat (buffer b))) as ->.
      { destruct (Z.ltb_spec 0 (len (buffer b))); [|lia].
        rewrite (chunk0_len_wf _ _ Hc); [lia|]. destruct (buffer b); done. }
      unfold write_piece, wrtbst. zsimp.
      destruct (Z.leb_spec (len (concat (buffer b))) 0).
      * zsimp. rewrite slice_ok by lia. cbn [exec_bind].
        replace (0 - len (concat (buffer b))) with 0 by lia.
        replace (e - len (concat (buffer b))) with (len (sub (bytes b) 0 (bytesi b))) by lia.
        rewrite sub_full, Hw2. simpl. eauto 6 using written_trans.
      * rewrite slice_ok by lia. cbn [exec_bind].
        replace (e - len (concat (buffer b))) with (len (sub (bytes b) 0 (bytesi b))) by lia.
        rewrite sub_full, Hw2. simpl. eauto 6 using written_trans.
    + assert (bytesi b = 0) as Hz by lia.
      rewrite Hz, sub_nil, ?count_nil, ?app_nil_r, ?Z.add_0_r in *. simpl in Hok. eauto.
  - rewrite Hz, sub_nil, ?count_nil, ?app_nil_r, ?Z.add_0_r in *. simpl in Hok. eauto.
Qed.

Lemma WriteTo_sink b w q :
  wf b → takes w (contents b ++ q) →
  ∃ w', WriteTo (Some b) w = Done (count (contents b), None, w') ∧ takes w' q ∧ written w (contents b) w'.
Proof.
  intros Hw Ht. unfold WriteTo. rewrite Size_contents by done.
  destruct (Z.ltb_spec 0 (len (contents b))).
  - apply internalBufferWriteToOffSet_full; [done| |lia|done]. intros Hn. rewrite Hn in *. done.
  - assert (contents b = []) as Hn by (destruct (contents b); [done|simpl in *; lia]).
    rewrite Hn, count_nil in *. exists w; split_and!; [done|done|by eapply written_refl].
Qed.
End write_spec.

(** ** SubString and String *)

Section substr_spec.
(** The bytes to come complete the rune begun. *)
Definition completes (st : substr) (p : list Z) : Prop :=
  ∃ rs, valid_runes rs ∧ runebts st ++ p = encode_all rs ∧
    match rs with [] => True | r :: _ => len (runebts st) < len (utf8.encode r) end.

Definition substr_text (st : substr) : list Z := str st ++ encode_all (rns st) ++ runebts st.

Lemma substr_bytes_step b p st :
  completes st (b :: p) →
  ∃ st1, (∀ p', substr_bytes (b :: p') st = substr_bytes p' st1) ∧ completes st1 p ∧
    substr_text st1 = substr_text st ++ [b].
Proof.
  intros (rs & Hv & Heq & Hlt). destruct rs as [|r rs].
  { apply (f_equal length) in Heq. rewrite length_app in Heq. simpl in Heq. lia. }
  inversion Hv as [|? ? Hr Hvs]; subst. rewrite encode_all_cons in Heq.
  pose proof (RuneLen_pos r Hr) as Hpos. rewrite <- (length_encode r Hr) in Hpos.
  assert (runebts st ++ [b] = take (S (length (runebts st))) (utf8.encode r)) as Hbts.
  { rewrite <- (take_app_le _ (encode_all rs)) by lia. rewrite <- Heq.
    rewrite take_app_ge by lia. f_equal.
    replace (S (length (runebts st)) - length (runebts st))%nat with 1%nat by lia. done. }
  destruct (decide (len (utf8.encode r) = len (runebts st) + 1)) as [Hfull|Hpart].
  - rewrite take_ge in Hbts by lia.
    pose proof (DecodeRune_encode r [] Hr) as Hdec. rewrite app_nil_r in Hdec.
    assert (negb ((r =? utf8.RuneError) && ((utf8.RuneLen r =? 0) || (utf8.RuneLen r =? 1))) &&
            (0 <? utf8.RuneLen r) = true) as Hok.
    { rewrite (length_encode r Hr) in Hpos. unfold utf8.RuneError.
      destruct (Z.eqb_spec r 65533) as [->|]; [done|]. zsimp. done. }
    assert (p = encode_all rs) as ->.
    { rewrite <- Hbts, <- app_assoc in Heq. by simplify_list_eq. }
    exists (if len (rns st ++ [r]) =? 8192 then Substr [] [] (str st ++ encode_all (rns st ++ [r]))
            else Substr [] (rns st ++ [r]) (str st)).
    split; [intros p'; cbn [substr_bytes]; zsimp; rewrite Hbts, Hdec, Hok|split; [|shelve]].
    + destruct (len (rns st ++ [r]) =? 8192); simpl; reflexivity.
    + exists rs. destruct (len (rns st ++ [r]) =? 8192); (split_and!; [done|done|]);
        (destruct rs as [|r' rs']; [done|]); inversion Hvs as [|? ? Hr' _]; subst; simpl;
        rewrite length_encode by done; pose proof (RuneLen_pos r' Hr'); lia.
    Unshelve.
    unfold substr_text. destruct (len (rns st ++ [r]) =? 8192); simpl;
      rewrite encode_all_app; unfold encode_all at 2; simpl;
      rewrite ?app_nil_r, <- Hbts, <- ?app_assoc; done.
  - set (st1 := Substr (runebts st ++ [b]) (rns st) (str st)). assert (len (runebts st1) = len (runebts st) + 1) as Hl1.
    { simpl. rewrite length_app. simpl. lia. }
    exists st1; split_and!; [intros p'| |].
    + cbn [substr_bytes]. zsimp.
      assert (utf8.DecodeRune (runebts st ++ [b]) = (utf8.RuneError, 1)) as ->.
      { rewrite Hbts. apply DecodeRune_prefix; [done|lia|]. rewrite <- length_encode by done. lia. }
      simpl andb. cbv iota. fold st1. by zsimp.
    + exists (r :: rs). simpl runebts. rewrite encode_all_cons.
      split_and!; [done| |simpl in Hl1; lia].
      rewrite <- app_assoc. done.
    + unfold substr_text. simpl. by rewrite <- !app_assoc.
Qed.

Lemma substr_bytes_spec p q st :
  completes st (p ++ q) →
  ∃ st', substr_bytes p st = Done (0, None, st') ∧ completes st' q ∧
    substr_text st' = substr_text st ++ p.
Proof.
  revert st. induction p as [|b p IH]; intros st Hc.
  - exists st. rewrite app_nil_r. done.
  - destruct (substr_bytes_step b (p ++ q) st Hc) as (st1 & Hst1 & Hc1 & Ht1).
    destruct (IH st1 Hc1) as (st' & Hst' & Hc' & Ht'). exists st'; split_and!; [|done|].
    + rewrite <- Hst'. apply Hst1.
    + rewrite Ht', Ht1, <- app_assoc. done.
Qed.

#[export] Instance substr_sink : ByteSink substr.
Proof.
  refine {| takes := completes; written st p st' := substr_text st' = substr_text st ++ p;
            count _ := 0 |}; [done|done| | |].
  - intros. by rewrite app_nil_r.
  - intros w1 p w2 q w3 H1 H2. by rewrite H2, H1, app_assoc.
  - intros st p q Hc. destruct (substr_bytes_spec p q st Hc) as (st' & H & ? & ?). eauto.
Defined.

(** The string of a buffer that holds UTF-8 is its content. *)
Lemma String_contents b rs :
  wf b → valid_runes rs → contents b = encode_all rs → String_ (Some b) = Done (contents b).
Proof.
  intros Hw Hv Hc. unfold String_. rewrite Empty_contents by done.
  case_bool_decide as He; [by rewrite He|]. unfold SubString. cbv zeta. rewrite Size_contents by done.
  cbn [length app]. change (Z.of_nat 1 =? 1) with true. cbv iota. cbn [length].
  change ((0 <? Z.of_nat 2) && (Z.of_nat 2 mod 2 =? 0)) with true. cbv iota.
  rewrite (index_lookup [0; len (contents b)] 0 0), (index_lookup [0; len (contents b)] 1 (len (contents b)))
    by done. cbn [exec_bind].
  assert (0 < len (contents b)) by (destruct (contents b); [done|simpl; lia]).
  destruct (internalBufferWriteToOffSet_full b (Substr [] [] []) [] (len (contents b)) Hw He)
    as (st & -> & Hst & Hwr); [lia| |].
  { exists rs. rewrite app_nil_r, Hc. split_and!; [done|done|].
    destruct rs as [|r rs]; [done|]. inversion Hv; subst. simpl. rewrite length_encode by done.
    pose proof (RuneLen_pos r). intuition lia. }
  cbn [exec_bind]. change (substr_text st = contents b) in Hwr. rewrite <- Hwr. unfold substr_text.
  destruct Hst as (rs' & Hv' & Heq & Hlt). rewrite app_nil_r in Heq.
  assert (rs' = []) as ->.
  { destruct rs' as [|r rs']; [done|]. rewrite Heq, encode_all_cons, length_app in Hlt. lia. }
  rewrite Heq, app_nil_r. destruct (Z.ltb_spec 0 (len (rns st))); [done|].
  destruct (rns st); [by rewrite app_nil_r|simpl in *; lia].
Qed.
End substr_spec.

(** ** Clear and Clone *)

Lemma Clear_spec b :
  wf b → ∃ b', Clear (Some b) = Some b' ∧ wf b' ∧ contents b' = [] ∧ length (bytes b') = length (bytes b).
Proof.
  intros [Hl Ho Hc]. unfold Clear. rewrite Hl. eexists; split; [done|].
  destruct (0 <? MaxLenToWrite _); destruct (OnMaxWritten _); simpl;
    (split_and!; [split; simpl; [done| |constructor]| |done];
     [destruct (Z.ltb_spec 0 (bytesi b)); lia|unfold contents; simpl;
      destruct (Z.ltb_spec 0 (bytesi b)); [done|by replace (bytesi b) with 0 by lia]]).
Qed.

Lemma clone_open (dst bs : list Z) i :
  0 ≤ i ≤ len bs → len bs ≤ len dst →
  let l := blit dst 0 (sub (sub bs 0 i) 0 (Z.min (len dst) (len (sub bs 0 i)))) in
  length l = length dst ∧ take (Z.to_nat i) l = take (Z.to_nat i) bs.
Proof.
  intros Hi Hd. cbv zeta. assert (len (sub bs 0 i) = i) as Hls by (rewrite length_sub; lia).
  rewrite Z.min_r, sub_full by lia. split; [apply length_blit; lia|].
  pose proof (take_blit dst 0 (sub bs 0 i) ltac:(lia) ltac:(lia)) as Ht.
  rewrite Hls in Ht. rewrite sub_from_0 in *. exact Ht.
Qed.

(** The clone of a buffer of 8192-byte chunks holds what the buffer holds; a buffer
    cloned with [clear] keeps nothing. *)
Lemma Clone_spec b clear :
  wf b → len (bytes b) = chunk_size →
  ∃ b1 b2, Clone (Some b) clear = Done (b1, Some b2) ∧ wf b1 ∧ wf b2 ∧
    contents b1 = contents b ∧
    contents b2 = (if clear && negb (bool_decide (contents b = [])) then [] else contents b) ∧
    len (bytes b1) = chunk_size ∧ len (bytes b2) = chunk_size.
Proof.
  intros Hw Hs. pose proof Hw as [Hl Ho Hc]. unfold Clone. cbv zeta. rewrite Empty_contents by done.
  assert (0 < chunk_size) as H0 by done.
  case_bool_decide as He.
  { exists (empty_buffer chunk_size), b. rewrite He, andb_false_r.
    split_and!; [done|by apply wf_empty|done|done|done|done|done]. }
  rewrite andb_true_r. set (cln1 := set_data (empty_buffer chunk_size) (buffer b) _ _).
  assert (∃ b1, (if 0 <? bytesi b then
      let* src := slice (bytes b) 0 (bytesi b) in
      Done (set_data cln1 (buffer cln1)
        (blit (bytes cln1) 0 (sub src 0 (Z.min (len (bytes cln1)) (len src)))) (bytesi b))
    else Done cln1) = Done b1 ∧ wf b1 ∧ contents b1 = contents b ∧ len (bytes b1) = chunk_size)
    as (b1 & -> & Hw1 & Hc1 & Hlb1).
  { assert (len (bytes cln1) = len (bytes b)) as Hcl
      by (change (bytes cln1) with (replicate (Z.to_nat chunk_size) 0); rewrite length_replicate; lia).
    assert (bytesi cln1 = 0) as Hi0 by done.
    destruct (Z.ltb_spec 0 (bytesi b)).
    - rewrite slice_ok by lia. cbn [exec_bind].
      destruct (clone_open (bytes cln1) (bytes b) (bytesi b)) as [Hlb Htb]; [lia|lia|].
      eexists; split_and!; [done| | |cbn [set_data bytes]; lia].
      + split; cbn [set_data lck bytes bytesi buffer]; [done|lia|].
        change (buffer cln1) with (buffer b). eapply Forall_impl; [|exact Hc]. intros. cbv beta in *. lia.
      + unfold contents. cbn [set_data bytes bytesi buffer]. by rewrite Htb.
    - exists cln1; split_and!; [done| | |lia].
      + split; cbn [lck bytes bytesi buffer]; [done|lia|].
        change (buffer cln1) with (buffer b). eapply Forall_impl; [|exact Hc]. intros. cbv beta in *. lia.
      + unfold contents. assert (bytesi b = 0) as -> by lia. done. }
  cbn [exec_bind]. destruct clear.
  - destruct (Clear_spec (set_data b [] (bytes b) (bytesi b))) as (b2 & -> & Hw2 & Hc2 & Hl2);
      [split; simpl; done|]. cbn [set_data bytes] in Hl2. rewrite <- Hs, <- Hl2 in *. eauto 12.
  - eauto 12.
Qed.

(** ** LastByte *)

Lemma last_byte_of_app any l1 l2 :
  last_byte_of any (l1 ++ l2) =
  match last_byte_of any l1 with Some x => Some x | None => last_byte_of any l2 end.
Proof.
  induction l1 as [|x l1 IH]; [done|]. simpl. destruct any; [done|].
  destruct (negb (IsSpace x)); done.
Qed.

Lemma last_byte_chunks_spec any chunks :
  last_byte_chunks any (reverse chunks) = last_byte_of any (reverse (concat chunks)).
Proof.
  induction chunks as [|c chunks IH] using rev_ind; [done|].
  rewrite reverse_snoc, concat_app. simpl. rewrite app_nil_r, reverse_app, last_byte_of_app, IH. done.
Qed.

(** The bytes [LastByte] looks at. *)
Definition lookable (noneempty : bool) (x : Z) : bool := if noneempty then negb (IsSpace x) else true.

Lemma last_byte_of_spec ne l :
  default 0 (last_byte_of (negb ne) (reverse l)) = List.last (List.filter (lookable ne) l) 0.
Proof.
  induction l as [|x l IH] using rev_ind; [done|].
  rewrite reverse_snoc, List.filter_app. simpl.
  destruct ne; simpl; [|by rewrite List.last_last].
  destruct (IsSpace x); simpl; [by rewrite app_nil_r|by rewrite List.last_last].
Qed.

Lemma LastByte_contents b ne :
  wf b → LastByte (Some b) ne = Done (List.last (List.filter (lookable ne) (contents b)) 0).
Proof.
  intros [Hl Ho Hc]. unfold LastByte. rewrite Hl, <- last_byte_of_spec. unfold contents.
  rewrite reverse_app, last_byte_of_app. destruct (Z.ltb_spec 0 (bytesi b)).
  - rewrite slice_ok by lia. cbn [exec_bind]. rewrite sub_from_0.
    destruct (last_byte_of _ _); simpl; [done|]. by rewrite last_byte_chunks_spec.
  - assert (bytesi b = 0) as -> by lia. simpl. by rewrite last_byte_chunks_spec.
Qed.

(** ** Print *)

#[export] Instance any_source : RuneSource anyrdr.
Proof.
  refine {| pending := runeReaderSlice.any_pending |};
    [apply runeReaderSlice.any_cons|apply runeReaderSlice.any_nil].
Defined.

(** The text an argument stands for; [fuel] bounds the runes its readers hold. *)
Inductive prints (fuel : nat) : parg → list Z → Prop :=
| prints_bool b : prints fuel (PBool b) (if b then true_bytes else false_bytes)
| prints_string s : is_bytes s → prints fuel (PString s) (encode_all (utf8.runes s))
| prints_reader r rs : runeReaderSlice.any_pending r rs → valid_runes rs → len rs < Z.of_nat fuel →
    prints fuel (PRuneReader r) (encode_all rs)
| prints_bytes {S} `{!ByteReader S} `{!ByteSource S} (r : S) bs : bpending r bs → len bs < Z.of_nat fuel →
    prints fuel (PReader (AnyBytes S _ r)) bs
| prints_buffer b : wf b → prints fuel (PBuffer b) (contents b)
| prints_map n json : prints fuel (PMap n json) (if 0 <? n then json else [])
| prints_arr a t : prints_list fuel a t → prints fuel (PArr a) t
| prints_runes rs : valid_runes rs → prints fuel (PRunes rs) (encode_all rs)
| prints_strs ss : is_bytes (concat ss) → prints fuel (PStrs ss) (encode_all (utf8.runes (concat ss)))
| prints_nil_arg : prints fuel PNil []
| prints_other t : prints fuel (POther t) t
with prints_list (fuel : nat) : list parg → list Z → Prop :=
| prints_none : prints_list fuel [] []
| prints_cons d a t u : prints fuel d t → prints_list fuel a u → prints_list fuel (d :: a) (t ++ u).

Scheme prints_mind := Induction for prints Sort Prop
with prints_list_mind := Induction for prints_list Sort Prop.
Combined Scheme prints_both from prints_mind, prints_list_mind.

Lemma write_string_appends w s :
  wf w → is_bytes s →
  ∃ w', write_string w s = Done (None, w') ∧ appended w (encode_all (utf8.runes s)) w'.
Proof.
  intros Hw Hs. unfold write_string. rewrite RunesToUTF8_valid by by apply runes_valid.
  cbn [exec_bind]. destruct (Write_appends w (encode_all (utf8.runes s)) Hw) as (w' & -> & Hw'). eauto.
Qed.

Lemma encode_all_bytes rs : is_bytes (encode_all rs).
Proof.
  induction rs as [|r rs IH]; [constructor|].
  rewrite encode_all_cons. apply Forall_app. split; [apply encode_bytes|done].
Qed.

#[local] Hint Resolve write_string_appends encode_all_bytes : core.

Lemma Fprint_arg_arr fuel w a :
  Fprint_arg fuel w None (PArr a) =
  if 0 <? len a then
    let* '(err', w') := Fprint_loop fuel w None a in Done (err', bool_decide (err' ≠ None), w')
  else Done (None, false, w).
Proof.
  cbn [Fprint_arg]. destruct (0 <? len a); [|done]. f_equal.
  generalize (@None goerr) as err. revert w.
  induction a as [|d a IH]; intros w err; [done|]. simpl.
  destruct (Fprint_arg fuel w err d) as [[[err' stop] w']| |]; simpl; [|done..].
  destruct stop; [done|]. apply IH.
Qed.

(** Every argument is printed, in order, and no error is left. *)
Lemma Fprint_spec fuel :
  (∀ d t, prints fuel d t → ∀ w, wf w →
     ∃ w', Fprint_arg fuel w None d = Done (None, false, w') ∧ appended w t w') ∧
  (∀ a t, prints_list fuel a t → ∀ w, wf w →
     ∃ w', Fprint_loop fuel w None a = Done (None, w') ∧ appended w t w').
Proof.
  apply prints_both with (P := λ d t _, _) (P0 := λ a t _, _).
  - intros b w Hw. cbn [Fprint_arg].
    destruct (write_string_appends w (if b then true_bytes else false_bytes)) as (w' & -> & Hw');
      [done|destruct b; repeat constructor; done|]. destruct b; simpl; eauto.
  - intros s Hs w Hw. cbn [Fprint_arg].
    destruct (write_string_appends w s) as (w' & -> & Hw'); [done..|]. simpl. eauto.
  - intros r rs Hr Hv Hf w Hw. cbn [Fprint_arg].
    destruct (ReadRunesFrom_spec fuel w r rs) as (n & w' & r' & -> & Hw'); [done..|]. simpl. eauto.
  - intros S HR HS r bs Hr Hf w Hw. cbn [Fprint_arg ab_type ab_Read ab_reader].
    destruct (ReadFrom_spec fuel w 0 r bs) as (w' & r' & -> & Hw'); [done|done|done|]. simpl. eauto.
  - intros b Hb w Hw. cbn [Fprint_arg].
    destruct (WriteTo_sink b w []) as (w' & -> & _ & Hw'); [done..|]. simpl. eauto.
  - intros n json w Hw. cbn [Fprint_arg]. destruct (0 <? n); [|eauto].
    destruct (Write_appends w json) as (w' & -> & Hw'); [done|]. simpl. eauto.
  - intros a t Ha IH w Hw. rewrite Fprint_arg_arr.
    destruct (IH w Hw) as (w' & -> & Hw'). destruct (Z.ltb_spec 0 (len a)).
    + simpl. eauto.
    + destruct a; [|simpl in *; lia]. inversion Ha. eauto.
  - intros rs Hv w Hw. cbn [Fprint_arg]. destruct (Z.ltb_spec 0 (len rs)).
    + destruct (write_string_appends w (encode_all rs)) as (w' & -> & Hw'); [done..|].
      rewrite runes_encode_all in Hw' by done. simpl. eauto.
    + destruct rs; [|simpl in *; lia]. eauto.
  - intros ss Hs w Hw. cbn [Fprint_arg]. destruct (Z.ltb_spec 0 (len ss)).
    + destruct (write_string_appends w (concat ss)) as (w' & -> & Hw'); [done..|]. simpl. eauto.
    + destruct ss; [|simpl in *; lia]. eauto.
  - intros w Hw. eauto.
  - intros t w Hw. cbn [Fprint_arg].
    destruct (Write_appends w t) as (w' & -> & Hw'); [done|]. simpl. eauto.
  - intros w Hw. eauto.
  - intros d a t u Hd IHd Ha IHa w Hw. cbn [Fprint_loop].
    destruct (IHd w Hw) as (w1 & -> & Hw1). simpl.
    destruct (IHa w1) as (w' & -> & Hw'); eauto.
Qed.

(** ** The buffer as a string of bytes *)

(** The operations that change a buffer, as a client calls them, and what they do to
    the string of bytes the buffer stands for. *)
Inductive bufop :=
| OpWrite (p : list Z)
| OpWriteRune (r : Z)
| OpWriteRunes (rs : list Z)
| OpPrint (a : list parg)
| OpPrintln (a : list parg)
| OpReadRunesFrom (r : anyrdr)
| OpClear.

Definition run_op (fuel : nat) (o : bufop) (b : Buffer) : exec Buffer :=
  match o with
  | OpWrite p => let* '(_, _, b') := Write b p in Done b'
  | OpWriteRune r => let* '(_, b') := WriteRune b r in Done b'
  | OpWriteRunes rs => let* '(_, _, b') := WriteRunes b rs in Done b'
  | OpPrint a => let* '(_, b') := Print fuel b a in Done b'
  | OpPrintln a => let* '(_, b') := Println fuel b a in Done b'
  | OpReadRunesFrom r => let* '(_, _, b', _) := ReadRunesFrom fuel b r in Done b'
  | OpClear => match Clear (Some b) with Some b' => Done b' | None => Panic end
  end.

Fixpoint run_ops (fuel : nat) (os : list bufop) (b : Buffer) : exec Buffer :=
  match os with
  | [] => Done b
  | o :: os' => let* b' := run_op fuel o b in run_ops fuel os' b'
  end.

(** [spec_op o c c']: the operation turns the string [c] into [c']. *)
Inductive spec_op (fuel : nat) : bufop → list Z → list Z → Prop :=
| spec_write p c : spec_op fuel (OpWrite p) c (c ++ p)
| spec_rune r c : utf8.ValidRune r = true → spec_op fuel (OpWriteRune r) c (c ++ utf8.encode r)
| spec_runes rs c : valid_runes rs → spec_op fuel (OpWriteRunes rs) c (c ++ encode_all rs)
| spec_print a t c : prints_list fuel a t → spec_op fuel (OpPrint a) c (c ++ t)
| spec_println a t c : prints_list fuel a t → spec_op fuel (OpPrintln a) c (c ++ t ++ [13; 10])
| spec_read r rs c : runeReaderSlice.any_pending r rs → valid_runes rs → len rs < Z.of_nat fuel →
    spec_op fuel (OpReadRunesFrom r) c (c ++ encode_all rs)
| spec_clear c : spec_op fuel OpClear c [].

Inductive spec_ops (fuel : nat) : list bufop → list Z → list Z → Prop :=
| spec_none c : spec_ops fuel [] c c
| spec_more o os c c' c'' : spec_op fuel o c c' → spec_ops fuel os c' c'' → spec_ops fuel (o :: os) c c''.

Lemma Print_appends fuel b a t :
  wf b → prints_list fuel a t → ∃ b', Print fuel b a = Done (None, b') ∧ appended b t b'.
Proof. intros Hw Ha. by apply (proj2 (Fprint_spec fuel)). Qed.

Lemma WriteRune_appends b r :
  wf b → utf8.ValidRune r = true →
  ∃ b', WriteRune b r = Done (None, b') ∧ appended b (utf8.encode r) b'.
Proof.
  intros Hw Hv. unfold WriteRune. rewrite RunesToUTF8_valid by by repeat constructor. cbn [exec_bind].
  rewrite encode_all_cons. change (encode_all []) with (@nil Z). rewrite app_nil_r.
  assert (0 < len (utf8.encode r)) by (pose proof (encode_nonempty r); destruct (utf8.encode r); [done|cbn; lia]).
  zsimp. destruct (Write_appends b (utf8.encode r) Hw) as (b' & -> & Ha). cbn. eauto.
Qed.

Lemma run_op_refines fuel o b c' :
  wf b → spec_op fuel o (contents b) c' → ∃ b', run_op fuel o b = Done b' ∧ wf b' ∧ contents b' = c'.
Proof.
  intros Hw Hs. remember (contents b) as c eqn:Ec. destruct Hs; subst c; cbn [run_op].
  - destruct (Write_appends b p Hw) as (b' & -> & ? & _ & ?). cbn. eauto.
  - destruct (WriteRune_appends b r Hw) as (b' & -> & ? & _ & ?); [done|]. cbn. eauto.
  - destruct (WriteRunes_appends b rs Hw) as (b' & -> & ? & _ & ?); [done|]. cbn. eauto.
  - destruct (Print_appends fuel b a t Hw) as (b' & -> & ? & _ & ?); [done|]. cbn. eauto.
  - unfold Println, Fprintln.
    assert (∃ b1, (if 0 <? len a then Fprint fuel b a else Done (None, b)) = Done (None, b1) ∧ appended b t b1)
      as (b1 & -> & H1).
    { destruct (Z.ltb_spec 0 (len a)); [by apply Print_appends|].
      destruct a; [|cbn in *; lia]. inversion H; subst. eauto. }
    cbn [exec_bind]. destruct (Print_appends fuel b1 [PString [13; 10]] ([13; 10] ++ [])) as (b2 & E & H2).
    + by eapply appended_wf.
    + constructor; [|constructor].
      change (prints fuel (PString [13; 10]) (encode_all (utf8.runes [13; 10]))). by repeat constructor.
    + unfold Print in E. rewrite E. cbn [exec_bind]. exists b2. split; [done|].
      destruct H1 as (? & _ & H1), H2 as (? & _ & H2). split; [done|]. by rewrite H2, H1, <- app_assoc.
  - destruct (ReadRunesFrom_spec fuel b r rs Hw) as (n & b' & r' & -> & ? & _ & ?); [done..|]. cbn. eauto.
  - destruct (Clear_spec b Hw) as (b' & -> & ? & ? & _). eauto.
Qed.

Lemma filter_all l : List.filter (lookable false) l = l.
Proof. induction l as [|x l IH]; [done|]. cbn. by rewrite IH. Qed.

(** C15: a buffer implements a string of bytes: after any sequence of writes, prints,
    reads of readers and Clear, none of which panics, its content is what the same
    operations make of a string; and its observers agree: Size is the length, Empty
    says whether it is empty, LastByte is the last byte, WriteTo writes the content
    into another buffer and counts it. *)
Theorem Buffer_refines_bytes fuel os c b :
  wf b → spec_ops fuel os (contents b) c →
  ∃ b', run_ops fuel os b = Done b' ∧ wf b' ∧ contents b' = c ∧
    Size (Some b') = len c ∧ Empty (Some b') = bool_decide (c = []) ∧
    LastByte (Some b') false = Done (List.last c 0) ∧
    ∀ w, wf w → ∃ w', WriteTo (Some b') w = Done (len c, None, w') ∧ wf w' ∧ contents w' = contents w ++ c.
Proof.
  intros Hw Hs.
  assert (∃ b', run_ops fuel os b = Done b' ∧ wf b' ∧ contents b' = c) as (b' & E & Hw' & Hc).
  { remember (contents b) as c0 eqn:Ec. revert b Hw Ec. induction Hs as [c|o os c c1 c2 Ho _ IH]; intros b Hw Ec.
    - exists b. auto.
    - subst c. destruct (run_op_refines fuel o b c1 Hw Ho) as (b1 & E1 & Hw1 & Hc1).
      cbn [run_ops]. rewrite E1. cbn [exec_bind]. auto. }
  exists b'. split; [done|]. split; [done|]. split; [done|]. rewrite <- Hc. split_and!.
  - by apply Size_contents.
  - by apply Empty_contents.
  - rewrite LastByte_contents by done. do 2 f_equal. apply filter_all.
  - intros w Hww. destruct (WriteTo_sink b' w [] Hw') as (w' & -> & _ & Ha); [done|]. exists w'.
    destruct Ha as (? & _ & ?). auto.
Qed.

Lemma Buffer_refines_bytes_witness :
  ∃ b', run_ops 10 [OpWrite [1; 2; 3]; OpClear; OpWriteRunes [233; 97]; OpPrintln [PBool true]] (empty_buffer 2) = Done b' ∧
    wf b' ∧ contents b' = [195; 169; 97; 116; 114; 117; 101; 13; 10] ∧
    Size (Some b') = len [195; 169; 97; 116; 114; 117; 101; 13; 10] ∧
    Empty (Some b') = bool_decide ([195; 169; 97; 116; 114; 117; 101; 13; 10] = []) ∧
    LastByte (Some b') false = Done (List.last [195; 169; 97; 116; 114; 117; 101; 13; 10] 0) ∧
    ∀ w, wf w → ∃ w', WriteTo (Some b') w = Done (len [195; 169; 97; 116; 114; 117; 101; 13; 10], None, w') ∧ wf w' ∧
      contents w' = contents w ++ [195; 169; 97; 116; 114; 117; 101; 13; 10].
Proof.
  apply Buffer_refines_bytes.
  - by apply wf_empty.
  - eapply spec_more; [apply spec_write|]. eapply spec_more; [apply spec_clear|].
    eapply spec_more; [apply spec_runes; by repeat constructor|].
    eapply spec_more; [|apply spec_none].
    refine (spec_println 10 [PBool true] (true_bytes ++ []) _ _).
    apply prints_cons; [exact (prints_bool 10 true)|apply prints_none].
Defined.

(** Clone makes a buffer with the same content; a buffer cloned with [clear] is
    left empty, and one cloned without is left as it was. *)
Theorem Clone_copies b clear :
  wf b → len (bytes b) = chunk_size → contents b ≠ [] →
  ∃ b1 b2, Clone (Some b) clear = Done (b1, Some b2) ∧ wf b1 ∧ wf b2 ∧
    contents b1 = contents b ∧ contents b2 = if clear then [] else contents b.
Proof.
  intros Hw Hs Hne. destruct (Clone_spec b clear Hw Hs) as (b1 & b2 & E & H1 & H2 & H3 & H4 & _).
  rewrite bool_decide_eq_false_2 in H4 by done. rewrite andb_true_r in H4. eauto 8.
Qed.

Definition small_buffer : Buffer :=
  MkBuffer [] ([1; 2; 3] ++ replicate (Z.to_nat 8189) 0) 3 true false 0 (-1) (-1) None.

Lemma Clone_copies_witness :
  ∃ b1 b2, Clone (Some small_buffer) true = Done (b1, Some b2) ∧ wf b1 ∧ wf b2 ∧
    contents b1 = contents small_buffer ∧ contents b2 = [].
Proof.
  apply (Clone_copies small_buffer true).
  - split; [done| |constructor]. cbn [small_buffer bytesi bytes]. rewrite length_app, length_replicate.
    cbn [length]. lia.
  - cbn [small_buffer bytes]. rewrite length_app, length_replicate. cbn [length]. unfold chunk_size. lia.
  - discriminate.
Defined.

(** String answers the content of a buffer that holds UTF-8, however its runes
    fall across the chunks. *)
Theorem String_utf8 b rs :
  wf b → valid_runes rs → contents b = encode_all rs → String_ (Some b) = Done (contents b).
Proof. apply String_contents. Qed.

Definition utf8_buffer : Buffer := MkBuffer [[97; 195]] [169; 0] 1 true false 0 (-1) (-1) None.

Lemma String_utf8_witness : String_ (Some utf8_buffer) = Done [97; 195; 169].
Proof.
  apply (String_utf8 utf8_buffer [97; 233]).
  - split; [done|cbn; lia|]. by repeat constructor.
  - by repeat constructor.
  - reflexivity.
Defined.
