(* ===== verification/BufferCursor.v ===== *)
(** [bufferCursor] of src/ioext/buffer.go, which walks a buffer forwards or
    backwards a chunk at a time, and the searches built on it: HasPrefix, HasSuffix,
    Contains, IndexOf, LastIndexOf and their byte forms.

    A cursor holds the chunks and the used part of the open chunk as they were when
    it was reset. *)

From S2P Require Import Prelude Runes Readers RuneReaders Buffer.

Record bufferCursor := MkCursor {
  c_buffer : list (list Z);
  c_bytes : list Z;
  lastBytes : list Z;
  noMoreBytes : bool;
  fromOffset : Z;
  toOffset : Z;
  buffs : Z;
  curOffset : Z;
  lastOffset : Z;
  asc : bool }.

(** [reset]: the offsets are taken when they are a range of the buffer. *)
Definition reset (c : bufferCursor) (buff : option Buffer) (asc : bool) (offsets : list Z)
  : exec bufferCursor :=
  let* '(bf, bs) := match buff with
    | Some b => let* bs := slice (bytes b) 0 (bytesi b) in Done (buffer b, bs)
    | None => Done ([], [])
    end in
  let bfs := (if 0 <? len bf then len bf * chunk0_len bf else 0) + len bs in
  let none := MkCursor bf bs (lastBytes c) (noMoreBytes c) (-1) (-1) bfs (-1) (-1) asc in
  if (0 <? len offsets) && (len offsets mod 2 =? 0) then
    let* o0 := index offsets 0 in
    let* o1 := index offsets 1 in
    Done (if (0 <=? o0) && (0 <? o1) && (o0 <? o1) && (o1 <=? bfs) then
            MkCursor bf bs (lastBytes c) (noMoreBytes c) o0 o1 bfs (-1) (-1) asc
          else none)
  else Done none.

Definition newBufferCursor (buff : option Buffer) (asc : bool) (offsets : list Z) : exec bufferCursor :=
  reset (MkCursor [] [] [] false (-1) (-1) 0 (-1) 0 asc) buff asc offsets.

Definition set_pos (c : bufferCursor) (from to cur : Z) : bufferCursor :=
  MkCursor (c_buffer c) (c_bytes c) (lastBytes c) (noMoreBytes c) from to (buffs c) cur
    (lastOffset c) (asc c).

Definition set_lastOffset (c : bufferCursor) (o : Z) : bufferCursor :=
  MkCursor (c_buffer c) (c_bytes c) (lastBytes c) (noMoreBytes c) (fromOffset c) (toOffset c)
    (buffs c) (curOffset c) o (asc c).

Definition set_lastBytes (c : bufferCursor) (l : list Z) (nm : bool) : bufferCursor :=
  MkCursor (c_buffer c) (c_bytes c) l nm (fromOffset c) (toOffset c) (buffs c) (curOffset c)
    (lastOffset c) (asc c).

(** A piece read forwards: [fromOffset] moves past it. *)
Definition forward (c : bufferCursor) (bts : list Z) : list Z * bool * bufferCursor :=
  let from := fromOffset c + len bts in
  (bts, toOffset c <=? from, set_pos c from (toOffset c) (fromOffset c)).

(** A piece read backwards: [toOffset] moves before it. *)
Definition backward (c : bufferCursor) (bts : list Z) : list Z * bool * bufferCursor :=
  let to := toOffset c - len bts in
  (bts, to <=? fromOffset c, set_pos c (fromOffset c) to to).

Definition nextBytes_asc (c : bufferCursor) (bufs : Z) : exec (list Z * bool * bufferCursor) :=
  let from := fromOffset c in let to := toOffset c in
  if from <? to then
    if from <? bufs then
      let bl := chunk0_len (c_buffer c) in
      let bfi := (from + 1) / bl in
      let bi := from mod bl in
      let* chunk := index (c_buffer c) bfi in
      let* bts :=
        if (to <=? bl) || ((to <=? bufs) && (bufs - bl <? to)) then
          slice chunk bi (bl - to mod bl)
        else slice chunk bi bl in
      Done (forward c bts)
    else if from <? buffs c then
      let* bts := slice (c_bytes c) (from - bufs) (to - bufs) in Done (forward c bts)
    else Done ([], to <=? from, c)
  else Done ([], to <=? from, c).

Definition nextBytes_desc (c : bufferCursor) (bufs : Z) : exec (list Z * bool * bufferCursor) :=
  let from := fromOffset c in let to := toOffset c in
  if from <? to then
    if to <=? bufs then
      let bl := chunk0_len (c_buffer c) in
      let* bts :=
        if to <? bl then let* chunk := index (c_buffer c) 0 in slice chunk from to
        else
          let bfi := to / bl in
          let bmi := to - bl * (bfi - 1) in
          let* chunk := index (c_buffer c) (bfi - 1) in
          if (bfi - 1) * bl <=? from then slice chunk (from mod bl) bmi else slice chunk 0 bmi in
      Done (backward c bts)
    else
      let* bts := if bufs <? from then slice (c_bytes c) (from - bufs) (to - bufs)
                  else slice (c_bytes c) 0 (to - bufs) in
      Done (backward c bts)
  else Done ([], true, c).

Definition nextBytes (c : bufferCursor) : exec (list Z * bool * bufferCursor) :=
  if ((0 <? len (c_buffer c)) || (0 <? len (c_bytes c))) && (0 <=? fromOffset c) then
    let bufs := if 0 <? len (c_buffer c) then len (c_buffer c) * chunk0_len (c_buffer c) else 0 in
    if asc c then nextBytes_asc c bufs else nextBytes_desc c bufs
  else Done ([], true, c).

(** [Read]: the pieces fill the slice; the end of the range is reported with the
    read that meets it. *)
Fixpoint cursor_Read_loop (fuel : nat) (c : bufferCursor) (pl : Z) (p : list Z)
  : exec (list Z * option goerr * bufferCursor) :=
  match fuel with
  | O => NoFuel
  | S fuel' =>
    if len p <? pl then
      let* c1 := if len (lastBytes c) =? 0 then
          let* '(bts, lst, c1) := nextBytes c in Done (set_lastBytes c1 bts lst)
        else Done c in
      if len (lastBytes c1) =? 0 then Done (p, Some EOF, c1)
      else
        let cpn := Z.min (pl - len p) (len (lastBytes c1)) in
        let* rest := slice (lastBytes c1) cpn (len (lastBytes c1)) in
        cursor_Read_loop fuel' (set_lastBytes c1 rest (noMoreBytes c1)) pl
          (p ++ sub (lastBytes c1) 0 cpn)
    else Done (p, None, c)
  end.

Definition cursor_Read (fuel : nat) (c : bufferCursor) (pl : Z)
  : exec (list Z * option goerr * bufferCursor) := cursor_Read_loop fuel c pl [].

(** ** The matchers *)

Record checkbytes := MkCheck {
  bufcur : bufferCursor;
  testbts : list Z;
  testbtsi : Z;
  prvb : Z;
  dne : bool }.

Definition testbtsl (k : checkbytes) : Z := len (testbts k).

Definition newCheckBytes (c : bufferCursor) (testbts : list Z) : checkbytes :=
  MkCheck c testbts 0 0 false.

Definition at_ (k : checkbytes) (i prv : Z) : checkbytes :=
  MkCheck (bufcur k) (testbts k) i prv (dne k).

Definition found_at (k : checkbytes) (i : Z) (lastOff : Z) : checkbytes :=
  MkCheck (set_lastOffset (bufcur k) lastOff) (testbts k) i (prvb k) true.

(** The test that a match begun does not go on: the pattern starts again. *)
Definition restart (k : checkbytes) (bt : Z) : exec bool :=
  if 0 <? testbtsi k then
    let* a := index (testbts k) (testbtsi k - 1) in
    if a =? prvb k then let* b := index (testbts k) (testbtsi k) in Done (negb (b =? bt))
    else Done false
  else Done false.

(** The body the two forward searches share: they differ in the [prvb] left when the
    pattern starts again. *)
Fixpoint found_forward (again : checkbytes → Z) (bn : Z) (bts : list Z) (k : checkbytes)
  : exec (bool * checkbytes) :=
  match bts with
  | [] => Done (false, k)
  | bt :: bts' =>
    let* rst := restart k bt in
    let k0 := if (rst : bool) then at_ k 0 (again k) else k in
    let* t := index (testbts k0) (testbtsi k0) in
    if t =? bt then
      let i := testbtsi k0 + 1 in
      if i =? testbtsl k0 then Done (true, found_at k0 i (curOffset (bufcur k0) + bn - testbtsl k0))
      else found_forward again (bn + 1) bts' (at_ k0 i bt)
    else
      found_forward again (bn + 1) bts' (at_ k0 (if 0 <? testbtsi k0 then 0 else testbtsi k0) bt)
  end.

Definition foundContains (bts : list Z) (k : checkbytes) : exec (bool * checkbytes) :=
  found_forward prvb 0 bts k.

(** [foundIndexOf] clears [prvb]. *)
Definition foundIndexOf (bts : list Z) (k : checkbytes) : exec (bool * checkbytes) :=
  found_forward (λ _, 0) 0 bts k.

(** Backwards, over the reversed piece; [p] is the index of its first byte.  A
    mismatch starts again with the next byte.  [foundLastIndexOf] is the same code
    as [foundContainsReverse]. *)
Fixpoint foundReverse (p : Z) (rbts : list Z) (k : checkbytes) : exec (bool * checkbytes) :=
  match rbts with
  | [] => Done (false, k)
  | bt :: rbts' =>
    let* t := index (testbts k) (testbtsl k - (testbtsi k + 1)) in
    if t =? bt then
      let i := testbtsi k + 1 in
      if i =? testbtsl k then Done (true, found_at k i (curOffset (bufcur k) + p))
      else foundReverse (p - 1) rbts' (at_ k i bt)
    else foundReverse (p - 1) rbts' (at_ k (if 0 <? testbtsi k then 0 else testbtsi k) bt)
  end.

Definition foundContainsReverse (bts : list Z) (k : checkbytes) : exec (bool * checkbytes) :=
  foundReverse (len bts - 1) (reverse bts) k.

Definition foundLastIndexOf (bts : list Z) (k : checkbytes) : exec (bool * checkbytes) :=
  foundReverse (len bts - 1) (reverse bts) k.

Fixpoint foundPrefix (bn : Z) (bts : list Z) (k : checkbytes) : exec (bool * checkbytes) :=
  match bts with
  | [] => Done (false, k)
  | bt :: bts' =>
    let* rst := restart k bt in
    if (rst : bool) then Done (true, at_ k 0 (prvb k))
    else
      let* t := index (testbts k) (testbtsi k) in
      if t =? bt then
        let i := testbtsi k + 1 in
        if i =? testbtsl k then Done (true, found_at k i (curOffset (bufcur k) + bn - testbtsl k))
        else foundPrefix (bn + 1) bts' (at_ k i bt)
      else Done (true, k)
  end.

Fixpoint foundSuffix_rev (p : Z) (rbts : list Z) (k : checkbytes) : exec (bool * checkbytes) :=
  match rbts with
  | [] => Done (false, k)
  | bt :: rbts' =>
    let* t := index (testbts k) (testbtsl k - (testbtsi k + 1)) in
    if t =? bt then
      let i := testbtsi k + 1 in
      if i =? testbtsl k then Done (true, found_at k i (curOffset (bufcur k) + p - testbtsl k))
      else foundSuffix_rev (p - 1) rbts' (at_ k i bt)
    else Done (true, k)
  end.

Definition foundSuffix (bts : list Z) (k : checkbytes) : exec (bool * checkbytes) :=
  foundSuffix_rev (len bts - 1) (reverse bts) k.

(** A matcher, and what [OnFound] is given. *)
Definition matcher := list Z → checkbytes → exec (bool * checkbytes).

(** [foundMatch]: the next piece is given to the matcher; [OnFound] gets the last
    offset when the matcher is done. *)
Definition foundMatch (FoundMatch : matcher) (k : checkbytes)
  : exec (bool * option Z * checkbytes) :=
  let* '(bts, lst, c) := nextBytes (bufcur k) in
  let k1 := MkCheck c (testbts k) (testbtsi k) (prvb k) (dne k) in
  if 0 <? len bts then
    let* '(fnd, k2) := FoundMatch bts k1 in
    Done ((fnd : bool) || lst, if fnd && dne k2 then Some (lastOffset (bufcur k2)) else None, k2)
  else Done (lst, None, k1).

(** [for { if chkbts.foundMatch() { break } }], and the last offset reported. *)
Fixpoint scan (fuel : nat) (FoundMatch : matcher) (k : checkbytes) : exec (option Z) :=
  match fuel with
  | O => NoFuel
  | S fuel' =>
    let* '(stop, onfound, k') := foundMatch FoundMatch k in
    if (stop : bool) then Done onfound else scan fuel' FoundMatch k'
  end.

(** The loop of internalContainsBytes: forwards and backwards in turn. *)
Fixpoint scan_both (fuel : nat) (k kback : checkbytes) : exec bool :=
  match fuel with
  | O => NoFuel
  | S fuel' =>
    let* '(stop, onfound, k') := foundMatch foundContains k in
    if (stop : bool) then Done (bool_decide (onfound ≠ None))
    else
      let* '(stop', onfound', kback') := foundMatch foundContainsReverse kback in
      if (stop' : bool) then Done (bool_decide (onfound' ≠ None)) else scan_both fuel' k' kback'
  end.

(** Chunks, and a round more than there are pieces. *)
Definition rounds (buff : option Buffer) : nat :=
  match buff with None => 0%nat | Some b => (2 + length (buffer b))%nat end.

Definition all_of (buff : option Buffer) (offsets : list Z) : list Z :=
  if len offsets =? 0 then [0; Size buff] else offsets.

Definition internalScan (buff : option Buffer) (testbts offsets : list Z) (asc : bool)
    (FoundMatch : matcher) : exec (option Z) :=
  if (0 <? len testbts) && (0 <? Size buff) then
    let* c := newBufferCursor buff asc (all_of buff offsets) in
    scan (rounds buff) FoundMatch (newCheckBytes c testbts)
  else Done None.

Definition internalContainsBytes (buff : option Buffer) (testbts offsets : list Z) : exec bool :=
  if (0 <? len testbts) && (0 <? Size buff) then
    let* c := newBufferCursor buff true (all_of buff offsets) in
    let* cback := newBufferCursor buff false (all_of buff offsets) in
    scan_both (rounds buff) (newCheckBytes c testbts) (newCheckBytes cback testbts)
  else Done false.

Definition internalHasPrefixBytes (buff : option Buffer) (testbts offsets : list Z) : exec bool :=
  let* r := internalScan buff testbts offsets true (foundPrefix 0) in Done (bool_decide (r ≠ None)).

Definition internalHasSuffixBytes (buff : option Buffer) (testbts offsets : list Z) : exec bool :=
  let* r := internalScan buff testbts offsets false foundSuffix in Done (bool_decide (r ≠ None)).

Definition internalIndexOfBytes (buff : option Buffer) (testbts offsets : list Z) : exec Z :=
  let* r := internalScan buff testbts offsets true foundIndexOf in Done (default (-1) r).

Definition internalLastIndexOfBytes (buff : option Buffer) (testbts offsets : list Z) : exec Z :=
  let* r := internalScan buff testbts offsets false foundLastIndexOf in Done (default (-1) r).

(** The exported operations: an empty or nil receiver or an empty string answers
    false, or index 0 for the string forms of the index operations. *)
Definition ContainsBytes (buff : option Buffer) (testbts : list Z) := internalContainsBytes buff testbts [].
Definition HasPrefixBytes (buff : option Buffer) (testbts : list Z) := internalHasPrefixBytes buff testbts [].
Definition IndexOfBytes (buff : option Buffer) (testbts : list Z) := internalIndexOfBytes buff testbts [].
Definition LastIndexOfBytes (buff : option Buffer) (testbts : list Z) := internalLastIndexOfBytes buff testbts [].
Definition HasSuffixBytes (buff : option Buffer) (testbts : list Z) : exec bool :=
  if (0 <? len testbts) && (0 <? Size buff) then internalHasSuffixBytes buff testbts [] else Done false.

Definition has_text (buff : option Buffer) (teststring : list Z) : bool :=
  bool_decide (buff ≠ None) && bool_decide (teststring ≠ []).

(** The string forms answer 0 for a nil buffer or an empty string. *)
Definition Contains (buff : option Buffer) (s : list Z) : exec bool :=
  if has_text buff s then ContainsBytes buff s else Done false.
Definition HasPrefix (buff : option Buffer) (s : list Z) : exec bool :=
  if has_text buff s then HasPrefixBytes buff s else Done false.
Definition HasSuffix (buff : option Buffer) (s : list Z) : exec bool :=
  if has_text buff s then HasSuffixBytes buff s else Done false.
Definition IndexOf (buff : option Buffer) (s : list Z) : exec Z :=
  if has_text buff s then IndexOfBytes buff s else Done 0.
Definition LastIndexOf (buff : option Buffer) (s : list Z) : exec Z :=
  if has_text buff s then LastIndexOfBytes buff s else Done 0.

Fixpoint ContainsAnyBytes (buff : option Buffer) (testbts : list (list Z)) : exec (bool * list (list Z)) :=
  match testbts with
  | [] => Done (false, [])
  | t :: ts =>
    let* fnd := if 0 <? len t then internalContainsBytes buff t [] else Done false in
    let* '(contains, found) := ContainsAnyBytes buff ts in
    Done (fnd || contains, if (fnd : bool) then t :: found else found)
  end.

(** * Theory *)

(** ** The matchers as automata over a whole text *)

(** How a text is left: a match whose last byte is at [p], no match to be had, or
    [i] bytes of the pattern matched so far. *)
Inductive outcome := Hit (p : nat) | Miss | More (i : nat).

Definition shift (n : nat) (o : outcome) : outcome :=
  match o with Hit p => Hit (n + p) | _ => o end.

Definition is_hit (o : outcome) : bool := match o with Hit _ => true | _ => false end.

Lemma is_hit_shift n o : is_hit (shift n o) = is_hit o.
Proof. by destruct o. Qed.

Section run.
Context (step : nat → Z → option nat) (n : nat).

Fixpoint run (i : nat) (l : list Z) : outcome :=
  match l with
  | [] => More i
  | b :: l' =>
    match step i b with
    | None => Miss
    | Some j => if decide (j = n) then Hit 0 else shift 1 (run j l')
    end
  end.

Lemma run_app i l1 l2 :
  run i (l1 ++ l2) =
  match run i l1 with More j => shift (length l1) (run j l2) | o => o end.
Proof.
  revert i. induction l1 as [|b l1 IH]; intros i; simpl; [by destruct (run i l2)|].
  destruct (step i b) as [j|]; [|done]. destruct (decide (j = n)); [done|].
  rewrite IH. destruct (run j l1) as [p| |k]; simpl; [done|done|].
  destruct (run k l2); done.
Qed.

Lemma run_take_hit i l p :
  run i l = Hit p → (p < length l)%nat.
Proof.
  revert i p. induction l as [|b l IH]; intros i p; simpl; [done|].
  destruct (step i b) as [j|]; [|done]. destruct (decide (j = n)); [intros [= <-]; lia|].
  destruct (run j l) as [q| |k] eqn:E; simpl; [|done|done]. intros [= <-]. apply IH in E. lia.
Qed.

Lemma run_total i l : (∀ i b, step i b ≠ None) → run i l ≠ Miss.
Proof.
  intros Ht. revert i. induction l as [|b l IH]; intros i; simpl; [done|].
  pose proof (Ht i b). destruct (step i b) as [j|]; [|done]. destruct (decide (j = n)); [done|].
  specialize (IH j). by destruct (run j l).
Qed.

(** Soundness and exactness follow from an invariant between what was read and
    the state. *)
Lemma run_sound (I : list Z → nat → Prop) i l done p :
  (∀ d i b j, I d i → step i b = Some j → I (d ++ [b]) j) →
  I done i → run i l = Hit p → I (done ++ take (S p) l) n.
Proof.
  intros Hs. revert i done p. induction l as [|b l IH]; intros i d p Hi; simpl; [done|].
  destruct (step i b) as [j|] eqn:E; [|done]. pose proof (Hs _ _ _ _ Hi E) as Hj.
  destruct (decide (j = n)) as [->|]; [by intros [= <-]|].
  destruct (run j l) as [q| |k] eqn:Er; simpl; [|done|done]. intros [= <-].
  specialize (IH j (d ++ [b]) q Hj Er). by rewrite <- app_assoc in IH.
Qed.

(** Before the match, and over a text without one, the state never was [n]. *)
Lemma run_before (I : list Z → nat → Prop) i l done q :
  (∀ d i b j, I d i → step i b = Some j → I (d ++ [b]) j) →
  I done i → (q < length l)%nat →
  match run i l with Hit p => (q < p)%nat | Miss => False | More _ => True end →
  ∃ j, I (done ++ take (S q) l) j ∧ j ≠ n.
Proof.
  intros Hs. revert i done q. induction l as [|b l IH]; intros i d q Hi Hq; simpl in *; [lia|].
  destruct (step i b) as [j|] eqn:E; [|done]. pose proof (Hs _ _ _ _ Hi E) as Hj.
  destruct (decide (j = n)) as [->|Hjn]; [lia|].
  destruct q as [|q]; [eauto|]. intros Hr.
  destruct (IH j (d ++ [b]) q Hj) as (j' & Hj' & Hn); [lia| |].
  - destruct (run j l); simpl in *; [lia|done|done].
  - rewrite <- app_assoc in Hj'. eauto.
Qed.
End run.

(** The automata of the four searches, for the pattern in reading order. *)
Definition fwd_step (pat : list Z) (i : nat) (b : Z) : option nat :=
  Some (if decide (pat !! i = Some b) then S i
        else if decide (pat !! 0%nat = Some b) then 1%nat else 0%nat).

Definition bwd_step (pat : list Z) (i : nat) (b : Z) : option nat :=
  Some (if decide (pat !! i = Some b) then S i else 0%nat).

Definition pre_step (pat : list Z) (i : nat) (b : Z) : option nat :=
  if decide (pat !! i = Some b) then Some (S i) else None.

Lemma take_S_suffix (pat d : list Z) i b :
  take i pat `suffix_of` d → pat !! i = Some b → take (S i) pat `suffix_of` d ++ [b].
Proof.
  intros [k ->] Hb. exists k. rewrite (take_S_r _ _ _ Hb), app_assoc. done.
Qed.

Lemma suffix_nil_any (d : list Z) : [] `suffix_of` d.
Proof. exists d. by rewrite app_nil_r. Qed.

Lemma fwd_step_sound pat d i b j :
  take i pat `suffix_of` d → fwd_step pat i b = Some j → take j pat `suffix_of` d ++ [b].
Proof.
  intros Hi [= <-]. destruct (decide (pat !! i = Some b)); [by apply take_S_suffix|].
  destruct (decide (pat !! 0%nat = Some b)) as [Hb|].
  - apply (take_S_suffix pat d 0); [apply suffix_nil_any|done].
  - apply suffix_nil_any.
Qed.

Lemma bwd_step_sound pat d i b j :
  take i pat `suffix_of` d → bwd_step pat i b = Some j → take j pat `suffix_of` d ++ [b].
Proof.
  intros Hi [= <-]. destruct (decide (pat !! i = Some b)); [by apply take_S_suffix|].
  apply suffix_nil_any.
Qed.

(** Prefix matching is exact. *)
Lemma pre_run_spec pat i l :
  (i < length pat)%nat →
  is_hit (run (pre_step pat) (length pat) i l) = bool_decide (drop i pat `prefix_of` l).
Proof.
  revert i. induction l as [|b l IH]; intros i Hi; simpl.
  - destruct (lookup_lt_is_Some_2 pat i Hi) as [x Hx].
    rewrite bool_decide_eq_false_2; [done|]. rewrite (drop_S _ _ _ Hx).
    intros H. by apply prefix_nil_inv in H.
  - destruct (lookup_lt_is_Some_2 pat i Hi) as [x Hx]. rewrite (drop_S _ _ _ Hx).
    unfold pre_step. rewrite Hx. destruct (decide (Some x = Some b)) as [[= ->]|Hne].
    + destruct (decide (S i = length pat)) as [He|].
      * rewrite bool_decide_eq_true_2; [done|]. rewrite drop_ge by lia. exists l. done.
      * rewrite is_hit_shift, IH by lia. apply bool_decide_ext. split.
        { apply prefix_cons. } { apply prefix_cons_inv_2. }
    + rewrite bool_decide_eq_false_2; [done|]. intros H. apply prefix_cons_inv_1 in H. congruence.
Qed.

(** The first byte of the pattern occurs nowhere else in it. *)
Definition head_once (pat : list Z) : Prop := ∀ i, (0 < i)%nat → pat !! i ≠ pat !! 0%nat ∨ pat !! i = None.

(** [take i pat] is the longest prefix of the pattern that ends the text. *)
Definition longest (pat : list Z) (d : list Z) (i : nat) : Prop :=
  (i ≤ length pat)%nat ∧ take i pat `suffix_of` d ∧
  ∀ j, (j ≤ length pat)%nat → take j pat `suffix_of` d → (j ≤ i)%nat.

Lemma suffix_lookup (pat d : list Z) i k :
  (k < i)%nat → (i ≤ length pat)%nat → take i pat `suffix_of` d →
  d !! (length d - i + k)%nat = pat !! k ∧ (i ≤ length d)%nat.
Proof.
  intros Hk Hi [p ->]. rewrite length_app, length_take. split; [|lia].
  rewrite lookup_app_r by lia.
  replace (length p + i `min` length pat - i + k - length p)%nat with k by lia.
  by rewrite lookup_take_lt by lia.
Qed.

Lemma head_once_same pat d i j :
  head_once pat → (1 ≤ j ≤ i)%nat → (i ≤ length pat)%nat →
  take i pat `suffix_of` d → take j pat `suffix_of` d → j = i.
Proof.
  intros Hh Hj Hi Hsi Hsj. destruct (decide (j = i)); [done|exfalso].
  destruct (suffix_lookup pat d i (i - j)) as [H1 Hd]; [lia..|done|].
  destruct (suffix_lookup pat d j 0) as [H2 _]; [lia..|done|].
  replace (length d - i + (i - j))%nat with (length d - j + 0)%nat in H1 by lia.
  rewrite H1 in H2. destruct (lookup_lt_is_Some_2 pat (i - j)) as [x Hx]; [lia|].
  destruct (Hh (i - j)%nat); [lia|done|congruence].
Qed.

Lemma suffix_snoc_inv (l d : list Z) x b : l ++ [x] `suffix_of` d ++ [b] → x = b ∧ l `suffix_of` d.
Proof.
  intros [k Hk]. rewrite app_assoc in Hk. apply app_inj_tail in Hk as [-> ->]. split; [done|].
  by exists k.
Qed.

Lemma take_suffix_pred (pat d : list Z) b j :
  (1 ≤ j ≤ length pat)%nat → take j pat `suffix_of` d ++ [b] →
  pat !! (j - 1)%nat = Some b ∧ take (j - 1) pat `suffix_of` d.
Proof.
  intros Hj Hs. destruct (lookup_lt_is_Some_2 pat (j - 1)) as [x Hx]; [lia|].
  replace j with (S (j - 1)) in Hs by lia. rewrite (take_S_r _ _ _ Hx) in Hs.
  apply suffix_snoc_inv in Hs as [-> ?]. done.
Qed.

Lemma fwd_step_longest pat d i b j :
  head_once pat → longest pat d i → fwd_step pat i b = Some j → longest pat (d ++ [b]) j.
Proof.
  intros Hh (Hi & Hs & Hmax) Hst. pose proof (fwd_step_sound pat d i b j Hs Hst) as Hsj.
  injection Hst as <-. split; [|split; [done|]].
  - case_decide as H1; [apply lookup_lt_Some in H1; lia|].
    case_decide as H2; [apply lookup_lt_Some in H2; lia|lia].
  - intros j Hj Hjs. destruct (decide (j = 0)%nat) as [->|Hj0]; [lia|].
    destruct (take_suffix_pred pat d b j) as [Hb Hp]; [lia|done|].
    pose proof (Hmax (j - 1)%nat ltac:(lia) Hp) as Hle.
    case_decide as H1; [lia|].
    destruct (decide (j = 1)%nat) as [->|]; [case_decide; [lia|done]|].
    exfalso. apply H1. rewrite <- (head_once_same pat d i (j - 1)) at 1; [done|done|lia|done..].
Qed.

(** [pat] ends at byte [p] of the text. *)
Definition ends_at (pat l : list Z) (p : nat) : Prop := pat `suffix_of` take (S p) l.

Lemma fwd_hit_ends pat l p :
  run (fwd_step pat) (length pat) 0 l = Hit p → ends_at pat l p.
Proof.
  intros H. pose proof (run_sound _ _ (λ d i, take i pat `suffix_of` d) 0 l [] p
    (fwd_step_sound pat) (suffix_nil_any _) H) as Hs. cbv beta in Hs.
  by rewrite (firstn_all pat) in Hs.
Qed.

Lemma bwd_hit_ends pat l p :
  run (bwd_step pat) (length pat) 0 l = Hit p → ends_at pat l p.
Proof.
  intros H. pose proof (run_sound _ _ (λ d i, take i pat `suffix_of` d) 0 l [] p
    (bwd_step_sound pat) (suffix_nil_any _) H) as Hs. cbv beta in Hs.
  by rewrite (firstn_all pat) in Hs.
Qed.

(** With a first byte that does not come again, the first occurrence is found. *)
Lemma fwd_first pat l :
  head_once pat → pat ≠ [] →
  match run (fwd_step pat) (length pat) 0 l with
  | Hit p => ends_at pat l p ∧ ∀ q, (q < p)%nat → ¬ ends_at pat l q
  | Miss => False
  | More _ => ∀ q, (q < length l)%nat → ¬ ends_at pat l q
  end.
Proof.
  intros Hh Hne.
  assert (longest pat [] 0) as H0.
  { split; [lia|]. split; [apply suffix_nil_any|]. intros j Hj Hs. apply suffix_length in Hs.
    rewrite length_take in Hs. simpl in Hs. lia. }
  assert (∀ q, (q < length l)%nat →
    match run (fwd_step pat) (length pat) 0 l with Hit p => (q < p)%nat | Miss => False | More _ => True end →
    ¬ ends_at pat l q) as Hb.
  { intros q Hq Hr He.
    destruct (run_before (fwd_step pat) (length pat) (longest pat) 0 l [] q) as (j & (Hj & _ & Hmax) & Hjn);
      [by intros; eapply fwd_step_longest|done..|].
    specialize (Hmax (length pat) ltac:(lia)). rewrite (firstn_all pat) in Hmax.
    specialize (Hmax He). lia. }
  destruct (run _ _ 0 l) as [p| |k] eqn:E.
  - split; [by apply fwd_hit_ends|]. intros q Hq. apply Hb; [|done].
    apply run_take_hit in E. lia.
  - by eapply (run_total (fwd_step pat)), E.
  - intros q Hq. by apply Hb.
Qed.

(** Where the pattern occurs. *)
Definition occurs (pat l : list Z) : Prop := ∃ l1 l2, l = l1 ++ pat ++ l2.

Lemma ends_at_occurs pat l p : ends_at pat l p → occurs pat l.
Proof.
  intros [k Hk]. exists k, (drop (S p) l). rewrite app_assoc, <- Hk. by rewrite take_drop.
Qed.

Lemma occurs_ends_at pat l1 l2 :
  pat ≠ [] → ends_at pat (l1 ++ pat ++ l2) (length l1 + length pat - 1).
Proof.
  intros Hne. exists l1. destruct pat as [|x pat]; [done|].
  replace (S (length l1 + length (x :: pat) - 1))%nat with (length (l1 ++ x :: pat))%nat
    by (rewrite length_app; simpl; lia).
  rewrite app_assoc. by rewrite take_app_length.
Qed.

(** ** The pieces of a cursor *)

(** A cursor on a buffer that holds [l], made of chunks of [bl] bytes. *)
Record on_text (c : bufferCursor) (l : list Z) (bl : Z) : Prop := {
  ot_bl : 2 ≤ bl;
  ot_chunks : Forall (λ ch, len ch = bl) (c_buffer c);
  ot_text : l = concat (c_buffer c) ++ c_bytes c;
  ot_buffs : buffs c = len l;
  ot_range : 0 ≤ fromOffset c ≤ toOffset c ∧ toOffset c ≤ len l }.

Lemma len_concat (bl : Z) (bf : list (list Z)) :
  Forall (λ ch, len ch = bl) bf → len (concat bf) = len bf * bl.
Proof. induction 1 as [|c bf Hc _ IH]; simpl; [done|]. rewrite length_app. lia. Qed.

Lemma chunk0_len_Forall (bl : Z) (bf : list (list Z)) :
  Forall (λ ch, len ch = bl) bf → bf ≠ [] → chunk0_len bf = bl.
Proof. by destruct 1. Qed.

(** A range within chunk [k]. *)
Lemma chunk_range (bl : Z) (bf : list (list Z)) (tail : list Z) k i j :
  0 < bl → Forall (λ ch, len ch = bl) bf → 0 ≤ k < len bf → 0 ≤ i → i ≤ j → j ≤ bl →
  ∃ ch, index bf k = Done ch ∧ len ch = bl ∧
    slice ch i j = Done (sub (concat bf ++ tail) (k * bl + i) (k * bl + j)).
Proof.
  intros Hbl Hbf Hk Hi Hij Hj. destruct (lookup_lt_is_Some_2 bf (Z.to_nat k)) as [ch Hch]; [lia|].
  pose proof (proj1 (Forall_lookup _ _) Hbf _ _ Hch) as Hlen. cbv beta in Hlen.
  exists ch. split; [apply index_lookup; [lia|done]|]. split; [done|].
  rewrite slice_ok by lia. f_equal.
  rewrite <- (take_drop_middle bf _ _ Hch), concat_app, concat_cons, <- !app_assoc.
  assert (len (concat (take (Z.to_nat k) bf)) = k * bl) as Hpre.
  { rewrite (len_concat bl) by (by apply Forall_take). rewrite length_take. lia. }
  rewrite sub_app_r by lia. rewrite Hpre, sub_app_l by lia. f_equal; lia.
Qed.

(** Forwards: the end of the range is in the open chunk or at the end of a chunk, and
    the start is not the last byte of a chunk. *)
Definition asc_ok (c : bufferCursor) (bl : Z) : Prop :=
  asc c = true ∧
  (len (c_buffer c) * bl ≤ toOffset c ∨ toOffset c mod bl = 0) ∧
  (fromOffset c < len (c_buffer c) * bl → fromOffset c mod bl ≠ bl - 1).

(** Pieces still to come. *)
Definition asc_pieces (c : bufferCursor) (bl : Z) : Z :=
  (if fromOffset c <? len (c_buffer c) * bl then len (c_buffer c) - fromOffset c / bl else 0) +
  (if fromOffset c <? toOffset c then 1 else 0).

Lemma asc_pieces_pos c l bl :
  on_text c l bl → fromOffset c < toOffset c → 0 < asc_pieces c bl.
Proof.
  intros Hot Hlt. unfold asc_pieces. pose proof (ot_range _ _ _ Hot). pose proof (ot_bl _ _ _ Hot).
  rewrite (proj2 (Z.ltb_lt (fromOffset c) (toOffset c))) by lia.
  destruct (Z.ltb_spec (fromOffset c) (len (c_buffer c) * bl)); [|lia].
  assert (fromOffset c / bl < len (c_buffer c)); [|lia]. apply Z.div_lt_upper_bound; lia.
Qed.

Definition same_source (c c' : bufferCursor) : Prop :=
  c_buffer c' = c_buffer c ∧ c_bytes c' = c_bytes c ∧ buffs c' = buffs c ∧ asc c' = asc c ∧
  lastBytes c' = lastBytes c ∧ noMoreBytes c' = noMoreBytes c.

Lemma nextBytes_end c :
  fromOffset c = toOffset c → nextBytes c = Done ([], true, c).
Proof.
  intros He. unfold nextBytes, nextBytes_asc, nextBytes_desc. rewrite He.
  rewrite Z.ltb_irrefl, Z.leb_refl. by repeat case_match.
Qed.

Lemma bufs_eq c bl :
  Forall (λ ch, len ch = bl) (c_buffer c) →
  (if 0 <? len (c_buffer c) then len (c_buffer c) * chunk0_len (c_buffer c) else 0) =
  len (c_buffer c) * bl.
Proof.
  intros Hc. destruct (Z.ltb_spec 0 (len (c_buffer c))); [|assert (len (c_buffer c) = 0) as -> by lia; done].
  rewrite (chunk0_len_Forall bl) by (destruct (c_buffer c); done). done.
Qed.

Lemma nonempty_source c l bl :
  on_text c l bl → 0 < len l → (0 <? len (c_buffer c)) || (0 <? len (c_bytes c)) = true.
Proof.
  intros [? Hc Ht ? ?] Hl. subst l. rewrite length_app, Nat2Z.inj_add, (len_concat bl) in Hl by done.
  destruct (Z.ltb_spec 0 (len (c_buffer c))); [done|]. simpl. apply Z.ltb_lt. nia.
Qed.

(** Where the next piece ends. *)
Definition asc_end (c : bufferCursor) (bl : Z) : Z :=
  if fromOffset c <? len (c_buffer c) * bl then (fromOffset c / bl + 1) * bl else toOffset c.

(** The next piece forwards: it is the start of the range, and the rest of the range
    is left. *)
Lemma nextBytes_asc_spec c l bl :
  on_text c l bl → asc_ok c bl → fromOffset c < toOffset c →
  ∃ bts c', nextBytes c = Done (bts, toOffset c <=? fromOffset c', c') ∧
    0 < len bts ∧ fromOffset c' = fromOffset c + len bts ∧ toOffset c' = toOffset c ∧
    curOffset c' = fromOffset c ∧ same_source c c' ∧
    bts = sub l (fromOffset c) (fromOffset c') ∧
    on_text c' l bl ∧ asc_ok c' bl ∧ asc_pieces c' bl < asc_pieces c bl ∧
    fromOffset c' = asc_end c bl.
Proof.
  intros Hot (Ha & Hto & Hfrom) Hlt. pose proof Hot as [Hbl Hc Ht Hbs Hr].
  assert (∃ e, fromOffset c < e ≤ toOffset c ∧
    nextBytes c = Done (forward c (sub l (fromOffset c) e)) ∧
    (e < len (c_buffer c) * bl → e mod bl ≠ bl - 1) ∧
    asc_pieces (set_pos c e (toOffset c) (fromOffset c)) bl < asc_pieces c bl ∧ e = asc_end c bl)
    as (e & He & Hn & Hmod & Hpc & Hend).
  { unfold nextBytes, nextBytes_asc. rewrite (nonempty_source c l bl Hot) by lia.
    rewrite (bufs_eq c bl Hc), Ha. zsimp. unfold asc_pieces, asc_end. cbn [set_pos c_buffer fromOffset toOffset].
    set (bufs := len (c_buffer c) * bl) in *.
    destruct (Z.ltb_spec (fromOffset c) bufs) as [Hin|Hout].
    - assert (c_buffer c ≠ []) as Hne by (intros Hn; subst bufs; rewrite Hn in Hin; simpl in Hin; lia).
      rewrite (chunk0_len_Forall bl _ Hc Hne). specialize (Hfrom Hin).
      set (k := fromOffset c / bl) in *.
      assert (fromOffset c = k * bl + fromOffset c mod bl ∧ 0 ≤ fromOffset c mod bl < bl) as [Hk Hm]
        by (subst k; pose proof (Z.div_mod (fromOffset c) bl); pose proof (Z.mod_pos_bound (fromOffset c) bl); lia).
      assert ((fromOffset c + 1) / bl = k) as ->.
      { symmetry. apply (Z.div_unique _ _ _ (fromOffset c mod bl + 1)); lia. }
      assert (0 ≤ k < len (c_buffer c)) as Hkr by (subst bufs; nia).
      assert (k * bl + bl ≤ toOffset c) as Hend.
      { destruct Hto as [Hto|Hto]; [subst bufs; nia|].
        pose proof (Z.div_mod (toOffset c) bl ltac:(lia)) as Hdm. rewrite Hto, Z.add_0_r in Hdm.
        assert (k < toOffset c / bl) by nia. nia. }
      assert ((toOffset c <=? bl) || ((toOffset c <=? bufs) && (bufs - bl <? toOffset c)) = true →
        toOffset c mod bl = 0) as Hlast.
      { intros Hcond. destruct Hto as [Hto|]; [|done]. apply orb_true_iff in Hcond as [Hcond|Hcond].
        - apply Z.leb_le in Hcond. assert (k = 0) as Hk0 by nia. rewrite Hk0 in Hend.
          assert (toOffset c = bl) as -> by lia. by rewrite Z_mod_same_full.
        - apply andb_true_iff in Hcond as [H1 _]. apply Z.leb_le in H1.
          assert (toOffset c = bufs) as -> by lia. subst bufs. apply Z.mod_mul. lia. }
      exists (k * bl + bl).
      destruct (chunk_range bl (c_buffer c) (c_bytes c) k (fromOffset c mod bl) bl)
        as (ch & -> & Hlch & Hsl); [lia|done|lia|lia|lia|lia|]. cbn [exec_bind].
      split; [lia|]. split; [|split; [|split; [|lia]]].
      + rewrite <- Ht, <- Hk in Hsl.
        destruct ((toOffset c <=? bl) || _) eqn:Econd.
        * rewrite (Hlast eq_refl), Z.sub_0_r, Hsl. done.
        * rewrite Hsl. done.
      + intros _. replace (k * bl + bl) with ((k + 1) * bl) by lia. rewrite Z.mod_mul by lia. lia.
      + replace (k * bl + bl) with ((k + 1) * bl) by lia. rewrite Z.div_mul by lia.
        destruct (Z.ltb_spec ((k + 1) * bl) bufs), (Z.ltb_spec ((k + 1) * bl) (toOffset c)); zsimp; lia.
    - exists (toOffset c). zsimp.
      assert (len (concat (c_buffer c)) = bufs) as Hcl by (by apply len_concat).
      rewrite Ht in Hr. rewrite length_app in Hr.
      rewrite slice_ok by lia. cbn [exec_bind]. split; [lia|]. split; [|split; [lia|split; [|lia]]].
      + rewrite Ht. rewrite sub_app_r by lia. by rewrite Hcl.
      + destruct (Z.ltb_spec (toOffset c) bufs), (Z.ltb_spec (toOffset c) (toOffset c)); lia. }
  assert (len (sub l (fromOffset c) e) = e - fromOffset c) as Hls by (apply length_sub; lia).
  unfold forward in Hn. rewrite Hls in Hn.
  replace (fromOffset c + (e - fromOffset c)) with e in Hn by lia.
  exists (sub l (fromOffset c) e), (set_pos c e (toOffset c) (fromOffset c)).
  split_and!; try done; [rewrite Hls; lia|rewrite Hls; cbn [set_pos fromOffset]; lia|].
  split; try done. cbn [set_pos fromOffset toOffset]. lia.
Qed.

(** Backwards: the end of the range is in the open chunk, at the end of a chunk or
    within the first chunk. *)
Definition desc_ok (c : bufferCursor) (bl : Z) : Prop :=
  asc c = false ∧
  (fromOffset c < toOffset c →
   len (c_buffer c) * bl < toOffset c ∨ toOffset c mod bl = 0 ∨ toOffset c < bl).

Definition desc_start (c : bufferCursor) (bl : Z) : Z :=
  if len (c_buffer c) * bl <? toOffset c then Z.max (fromOffset c) (len (c_buffer c) * bl)
  else Z.max (fromOffset c) ((toOffset c / bl - 1) * bl).

(** A bound on the pieces still to come. *)
Definition desc_pieces (c : bufferCursor) (bl : Z) : Z :=
  if fromOffset c <? toOffset c then
    if len (c_buffer c) * bl <? toOffset c then len (c_buffer c) + 2 else toOffset c / bl + 1
  else 0.

Lemma nextBytes_desc_spec c l bl :
  on_text c l bl → desc_ok c bl → fromOffset c < toOffset c →
  ∃ bts c', nextBytes c = Done (bts, toOffset c' <=? fromOffset c, c') ∧
    0 < len bts ∧ toOffset c' = toOffset c - len bts ∧ fromOffset c' = fromOffset c ∧
    curOffset c' = toOffset c' ∧ same_source c c' ∧
    bts = sub l (toOffset c') (toOffset c) ∧
    on_text c' l bl ∧ desc_ok c' bl ∧ desc_pieces c' bl < desc_pieces c bl ∧
    toOffset c' = desc_start c bl.
Proof.
  intros Hot (Ha & Hto) Hlt. pose proof Hot as [Hbl Hc Ht Hbs Hr]. specialize (Hto Hlt).
  assert (∃ e, fromOffset c ≤ e < toOffset c ∧
    nextBytes c = Done (backward c (sub l e (toOffset c))) ∧
    desc_ok (set_pos c (fromOffset c) e e) bl ∧
    desc_pieces (set_pos c (fromOffset c) e e) bl < desc_pieces c bl ∧ e = desc_start c bl)
    as (e & He & Hn & Hok & Hpc & Hend).
  { unfold nextBytes, nextBytes_desc. rewrite (nonempty_source c l bl Hot) by lia.
    rewrite (bufs_eq c bl Hc), Ha. zsimp. unfold desc_pieces, desc_ok, desc_start.
    cbn [set_pos c_buffer fromOffset toOffset asc]. zsimp.
    set (bufs := len (c_buffer c) * bl) in *.
    destruct (Z.leb_spec (toOffset c) bufs) as [Hin|Hout].
    - assert (c_buffer c ≠ []) as Hne by (intros Hn; subst bufs; rewrite Hn in Hin; simpl in Hin; lia).
      rewrite (chunk0_len_Forall bl _ Hc Hne). zsimp.
      assert (0 < len (c_buffer c)) by (subst bufs; nia).
      destruct (Z.ltb_spec (toOffset c) bl) as [Hsm|Hbig].
      + exists (fromOffset c).
        destruct (chunk_range bl (c_buffer c) (c_bytes c) 0 (fromOffset c) (toOffset c))
          as (ch & -> & Hlch & Hsl); [lia|done|lia|lia|lia|lia|]. cbn [exec_bind].
        rewrite Hsl, <- Ht. cbn [exec_bind]. rewrite !Z.add_0_l, Z.ltb_irrefl.
        rewrite (Z.div_small (toOffset c) bl) by lia.
        split; [lia|]. split; [done|]. split; [split; [done|lia]|]. split; lia.
      + destruct Hto as [|[Hto|]]; [lia| |lia].
        pose proof (Z.div_mod (toOffset c) bl ltac:(lia)) as Hdm. rewrite Hto, Z.add_0_r in Hdm.
        set (q := toOffset c / bl) in *.
        replace (toOffset c - bl * (q - 1)) with bl by lia.
        assert (1 ≤ q ≤ len (c_buffer c)) as Hq by (subst bufs; nia).
        exists (if (q - 1) * bl <=? fromOffset c then fromOffset c else (q - 1) * bl).
        assert (∀ i, 0 ≤ i ≤ bl → ∃ ch, index (c_buffer c) (q - 1) = Done ch ∧
          slice ch i bl = Done (sub l ((q - 1) * bl + i) (toOffset c))) as Hch.
        { intros i Hi. destruct (chunk_range bl (c_buffer c) (c_bytes c) (q - 1) i bl)
            as (ch & -> & _ & Hsl); [lia|done|lia|lia|lia|lia|].
          exists ch. rewrite Hsl, <- Ht. split; [done|]. do 2 f_equal. lia. }
        destruct (Z.leb_spec ((q - 1) * bl) (fromOffset c)) as [Hlast|Hmore].
        * assert (fromOffset c mod bl = fromOffset c - (q - 1) * bl) as ->.
          { symmetry. apply (Z.mod_unique _ _ (q - 1)); lia. }
          destruct (Hch (fromOffset c - (q - 1) * bl)) as (ch & -> & Hsl); [lia|]. cbn [exec_bind].
          rewrite Hsl. cbn [exec_bind]. rewrite Z.ltb_irrefl.
          replace ((q - 1) * bl + (fromOffset c - (q - 1) * bl)) with (fromOffset c) by lia.
          split; [lia|]. split; [done|]. split; [split; [done|lia]|]. split; lia.
        * destruct (Hch 0) as (ch & -> & Hsl); [lia|]. cbn [exec_bind].
          rewrite Hsl, Z.add_0_r. cbn [exec_bind].
          split; [lia|]. split; [done|]. split; [split; [done|]|].
          { intros _. right; left. apply Z.mod_mul. lia. }
          zsimp. rewrite Z.div_mul by lia. split; lia.
    - exists (if bufs <? fromOffset c then fromOffset c else bufs).
      assert (len (concat (c_buffer c)) = bufs) as Hcl by (by apply len_concat).
      assert (len l = bufs + len (c_bytes c)) as Hll by (rewrite Ht, length_app; lia).
      zsimp. destruct (Z.ltb_spec bufs (fromOffset c)) as [Hlate|Hearly].
      + rewrite slice_ok by lia. cbn [exec_bind]. rewrite Z.ltb_irrefl.
        split; [lia|]. split; [|split; [split; [done|lia]|split; lia]].
        rewrite Ht, sub_app_r by lia. by rewrite Hcl.
      + rewrite slice_ok by lia. cbn [exec_bind]. split; [lia|]. split.
        { rewrite Ht, sub_app_r by lia. rewrite Hcl, Z.sub_diag. done. }
        rewrite Z.ltb_irrefl. split.
        { split; [done|]. intros _. right; left. subst bufs. apply Z.mod_mul. lia. }
        subst bufs. rewrite Z.div_mul by lia.
        destruct (Z.ltb_spec (fromOffset c) (len (c_buffer c) * bl)); (split; lia). }
  assert (len (sub l e (toOffset c)) = toOffset c - e) as Hls by (apply length_sub; lia).
  unfold backward in Hn. rewrite Hls in Hn.
  replace (toOffset c - (toOffset c - e)) with e in Hn by lia.
  exists (sub l e (toOffset c)), (set_pos c (fromOffset c) e e).
  split_and!; try done; [rewrite Hls; lia|rewrite Hls; cbn [set_pos toOffset]; lia|].
  split; try done. cbn [set_pos fromOffset toOffset]. lia.
Qed.

Lemma reset_range c0 b a from to :
  wf b → 2 ≤ len (bytes b) → 0 ≤ from < to → to ≤ len (contents b) →
  ∃ c, reset c0 (Some b) a [from; to] = Done c ∧ on_text c (contents b) (len (bytes b)) ∧
    asc c = a ∧ fromOffset c = from ∧ toOffset c = to ∧ c_buffer c = buffer b ∧
    lastBytes c = lastBytes c0 ∧ curOffset c = -1.
Proof.
  intros Hw Hbl Hft Hto. pose proof Hw as [_ Ho Hc].
  assert (Forall (λ ch, len ch = len (bytes b)) (buffer b)) as Hc'
    by (eapply Forall_impl; [|exact Hc]; simpl; lia).
  unfold reset. rewrite slice_ok by lia. cbn [exec_bind].
  set (bfs := (if 0 <? len (buffer b) then _ else 0) + _).
  assert (bfs = len (contents b)) as Hbfs.
  { subst bfs. rewrite length_contents by done. rewrite length_sub by lia.
    destruct (Z.ltb_spec 0 (len (buffer b))).
    - rewrite (chunk0_len_Forall _ _ Hc') by (destruct (buffer b); done). lia.
    - assert (len (buffer b) = 0) as -> by lia. lia. }
  change (len [from; to]) with 2. change ((0 <? 2) && (2 mod 2 =? 0)) with true. cbv iota.
  rewrite (index_lookup _ 0 from), (index_lookup _ 1 to) by done. cbn [exec_bind].
  rewrite Hbfs. zsimp. eexists; split; [done|]. split; [|done].
  split; cbn [c_buffer c_bytes buffs fromOffset toOffset]; [done|done| |done|lia].
  unfold contents. by rewrite sub_from_0.
Qed.

Lemma cursor_range b a from to :
  wf b → 2 ≤ len (bytes b) → 0 ≤ from < to → to ≤ len (contents b) →
  ∃ c, newBufferCursor (Some b) a [from; to] = Done c ∧ on_text c (contents b) (len (bytes b)) ∧
    asc c = a ∧ fromOffset c = from ∧ toOffset c = to ∧ c_buffer c = buffer b ∧
    lastBytes c = [] ∧ curOffset c = -1.
Proof. apply reset_range. Qed.

(** ** The search loops run the automaton over the text *)

(** The matcher's state: [i] bytes of [pat] matched; [tb] is the
    pattern the matcher has, [pat] the order it is read in. *)
Definition in_state (tb pat : list Z) (k : checkbytes) (i : nat) : Prop :=
  testbts k = tb ∧ testbtsi k = Z.of_nat i ∧ dne k = false ∧
  (0 < i → pat !! (i - 1)%nat = Some (prvb k))%nat.

(** What a matcher must do with a piece for an automaton [flat]: [idx] gives the last
    offset it stores for a match at [p]. *)
Definition implements (tb pat : list Z) (FM : matcher) (flat : list Z → nat → list Z → outcome)
    (order : list Z → list Z) (idx : Z → Z → Z → Z) : Prop :=
  ∀ bts k i, in_state tb pat k i → (i < length pat)%nat → 0 < len bts →
    ∃ k', FM bts k = Done (match flat pat i (order bts) with More _ => false | _ => true end, k') ∧
    match flat pat i (order bts) with
    | Hit p => dne k' = true ∧ lastOffset (bufcur k') = idx (curOffset (bufcur k)) (len bts) (Z.of_nat p)
    | Miss => dne k' = false
    | More j => in_state tb pat k' j ∧ (j < length pat)%nat ∧ bufcur k' = bufcur k
    end.

Definition appends (flat : nat → list Z → outcome) : Prop :=
  (∀ i, flat i [] = More i) ∧
  ∀ i l1 l2, flat i (l1 ++ l2) =
    match flat i l1 with More j => shift (length l1) (flat j l2) | o => o end.

Lemma run_appends step n : appends (run step n).
Proof. split; [done|]. intros. apply run_app. Qed.

Definition hit_offset (o : outcome) (f : Z → Z) : option Z :=
  match o with Hit p => Some (f (Z.of_nat p)) | _ => None end.

Lemma in_state_cursor tb pat k i c :
  in_state tb pat k i → in_state tb pat (MkCheck c (testbts k) (testbtsi k) (prvb k) (dne k)) i.
Proof. done. Qed.

Section scans.
Context (tb pat : list Z) (flat : list Z → nat → list Z → outcome) (FM : matcher).
Hypothesis Happ : appends (flat pat).

Lemma hit_offset_shift n o f :
  hit_offset (shift n o) f = hit_offset o (λ p, f (Z.of_nat n + p)).
Proof. destruct o; simpl; [|done..]. by rewrite Nat2Z.inj_add. Qed.

Lemma hit_offset_ext o f g : (∀ p, f p = g p) → hit_offset o f = hit_offset o g.
Proof. intros H. destruct o; simpl; [by rewrite H|done..]. Qed.

(** A piece of the text through the matcher: the loop stops with a match, without
    hope of one, or with the last piece; else the automaton has run over the piece. *)
Lemma foundMatch_piece ord idx f k i c' bts rest lst :
  implements tb pat FM flat ord idx → in_state tb pat k i → (i < length pat)%nat →
  nextBytes (bufcur k) = Done (bts, lst, c') → 0 < len bts → length (ord bts) = length bts →
  (lst = true → rest = []) → (∀ p, idx (curOffset c') (len bts) p = f p) →
  ∃ stop onf k', foundMatch FM k = Done (stop, onf, k') ∧
    if (stop : bool) then
      onf = hit_offset (flat pat i (ord bts ++ rest)) f ∧
      (lst = true ∨ ∀ j, flat pat i (ord bts ++ rest) ≠ More j)
    else ∃ j, in_state tb pat k' j ∧ (j < length pat)%nat ∧ bufcur k' = c' ∧ lst = false ∧
      ∀ rest', hit_offset (flat pat i (ord bts ++ rest')) f =
               hit_offset (flat pat j rest') (λ p, f (len bts + p)).
Proof.
  intros Him Hst Hi Hnb Hlb Hord Hlst Hidx.
  destruct (Him bts _ i (in_state_cursor tb pat k i c' Hst) Hi Hlb) as (k' & Hfm & Hres).
  unfold foundMatch. rewrite Hnb. cbn [exec_bind]. zsimp. rewrite Hfm. cbn [exec_bind].
  pose proof (proj2 Happ i (ord bts)) as Hrun.
  destruct (flat pat i (ord bts)) as [p| |j] eqn:E.
  - destruct Hres as [Hd Hlo]. rewrite Hd. cbn [bufcur] in Hlo. eexists _, _, k'. split; [done|].
    simpl. rewrite Hlo, Hidx, Hrun. split; [done|by right].
  - rewrite Hres. eexists _, _, k'. split; [done|]. simpl. rewrite Hrun. split; [done|by right].
  - destruct Hres as (Hst' & Hj & Hcur). eexists _, _, k'. split; [done|]. simpl.
    destruct lst.
    + rewrite Hrun, (Hlst eq_refl), (proj1 Happ). split; [done|by left].
    + exists j. split_and!; [done|done|done|done|]. intros rest'. rewrite Hrun, hit_offset_shift.
      by rewrite Hord.
Qed.

(** The last offset a forward search reports for a match that ends at [p] of the
    range, and the one a backward search reports for the [p]-th byte from its end. *)
Definition asc_off (d from p : Z) : Z := from + p + d.
Definition desc_off (d to p : Z) : Z := to - 1 - p + d.

Lemma foundMatch_asc d k i l bl :
  implements tb pat FM flat id (λ cur _ p, cur + p + d) →
  in_state tb pat k i → (i < length pat)%nat → on_text (bufcur k) l bl → asc_ok (bufcur k) bl →
  fromOffset (bufcur k) < toOffset (bufcur k) →
  let from := fromOffset (bufcur k) in let to := toOffset (bufcur k) in
  ∃ stop onf k', foundMatch FM k = Done (stop, onf, k') ∧
    if (stop : bool) then onf = hit_offset (flat pat i (sub l from to)) (asc_off d from)
    else ∃ j, in_state tb pat k' j ∧ (j < length pat)%nat ∧
      from < fromOffset (bufcur k') < to ∧ toOffset (bufcur k') = to ∧
      on_text (bufcur k') l bl ∧ asc_ok (bufcur k') bl ∧
      asc_pieces (bufcur k') bl < asc_pieces (bufcur k) bl ∧
      same_source (bufcur k) (bufcur k') ∧ fromOffset (bufcur k') = asc_end (bufcur k) bl ∧
      hit_offset (flat pat i (sub l from to)) (asc_off d from) =
      hit_offset (flat pat j (sub l (fromOffset (bufcur k')) to)) (asc_off d (fromOffset (bufcur k'))).
Proof.
  intros Him Hst Hi Hot Hok Hlt from to. subst from to.
  destruct (nextBytes_asc_spec _ _ _ Hot Hok Hlt)
    as (bts & c' & Hnb & Hlb & Hfrom & Hto & Hcur & Hsrc & Hbts & Hot' & Hok' & Hpc & Hend).
  pose proof (ot_range _ _ _ Hot). pose proof (ot_range _ _ _ Hot').
  assert (sub l (fromOffset (bufcur k)) (toOffset (bufcur k)) =
    bts ++ sub l (fromOffset c') (toOffset (bufcur k))) as ->
    by (rewrite Hbts at 1; rewrite sub_app; [done|lia..]).
  destruct (foundMatch_piece id (λ cur _ p, cur + p + d) (asc_off d (fromOffset (bufcur k))) k i c' bts
    (sub l (fromOffset c') (toOffset (bufcur k))) (toOffset (bufcur k) <=? fromOffset c')) as (stop & onf & k' & Hfm & Hres);
    [exact Him|done|done|exact Hnb|done|done| | |].
  - intros Hl. apply Z.leb_le in Hl. assert (fromOffset c' = toOffset (bufcur k)) as -> by lia.
    apply sub_nil.
  - intros p. rewrite Hcur. done.
  - exists stop, onf, k'. split; [done|]. destruct stop; [by destruct Hres|].
    destruct Hres as (j & Hst' & Hj & -> & Hl & Heq). exists j. apply Z.leb_gt in Hl.
    split_and!; [done|done|lia|lia|done|done|done|done|done|done|].
    unfold id in Heq. rewrite Heq. apply hit_offset_ext. intros p. unfold asc_off. lia.
Qed.

Lemma foundMatch_desc d k i l bl :
  implements tb pat FM flat reverse (λ cur n p, cur + (n - 1 - p) + d) →
  in_state tb pat k i → (i < length pat)%nat → on_text (bufcur k) l bl → desc_ok (bufcur k) bl →
  fromOffset (bufcur k) < toOffset (bufcur k) →
  let from := fromOffset (bufcur k) in let to := toOffset (bufcur k) in
  ∃ stop onf k', foundMatch FM k = Done (stop, onf, k') ∧
    if (stop : bool) then
      onf = hit_offset (flat pat i (reverse (sub l from to))) (desc_off d to) ∧
      (from < desc_start (bufcur k) bl → ∀ j, flat pat i (reverse (sub l from to)) ≠ More j)
    else ∃ j, in_state tb pat k' j ∧ (j < length pat)%nat ∧
      from < toOffset (bufcur k') < to ∧ fromOffset (bufcur k') = from ∧
      on_text (bufcur k') l bl ∧ desc_ok (bufcur k') bl ∧
      desc_pieces (bufcur k') bl < desc_pieces (bufcur k) bl ∧
      same_source (bufcur k) (bufcur k') ∧ toOffset (bufcur k') = desc_start (bufcur k) bl ∧
      ∀ m, from ≤ m ≤ toOffset (bufcur k') →
        hit_offset (flat pat i (reverse (sub l m to))) (desc_off d to) =
        hit_offset (flat pat j (reverse (sub l m (toOffset (bufcur k')))))
          (desc_off d (toOffset (bufcur k'))).
Proof.
  intros Him Hst Hi Hot Hok Hlt from to. subst from to.
  destruct (nextBytes_desc_spec _ _ _ Hot Hok Hlt)
    as (bts & c' & Hnb & Hlb & Hto & Hfrom & Hcur & Hsrc & Hbts & Hot' & Hok' & Hpc & Hend).
  pose proof (ot_range _ _ _ Hot). pose proof (ot_range _ _ _ Hot').
  assert (reverse (sub l (fromOffset (bufcur k)) (toOffset (bufcur k))) =
    reverse bts ++ reverse (sub l (fromOffset (bufcur k)) (toOffset c'))) as ->
    by (rewrite <- reverse_app; rewrite Hbts at 1; rewrite sub_app; [done|lia..]).
  destruct (foundMatch_piece reverse (λ cur n p, cur + (n - 1 - p) + d) (desc_off d (toOffset (bufcur k))) k i c' bts
    (reverse (sub l (fromOffset (bufcur k)) (toOffset c'))) (toOffset c' <=? fromOffset (bufcur k)))
    as (stop & onf & k' & Hfm & Hres);
    [exact Him|done|done|exact Hnb|done|apply length_reverse| | |].
  - intros Hl. apply Z.leb_le in Hl. assert (toOffset c' = fromOffset (bufcur k)) as -> by lia.
    by rewrite sub_nil.
  - intros p. cbv beta. rewrite Hcur. unfold desc_off. lia.
  - exists stop, onf, k'. split; [done|]. destruct stop.
    { destruct Hres as [-> Hl]. split; [done|]. intros Hds. destruct Hl as [Hl|Hl]; [|done].
      apply Z.leb_le in Hl. lia. }
    destruct Hres as (j & Hst' & Hj & -> & Hl & Heq). exists j. apply Z.leb_gt in Hl.
    split_and!; [done|done|lia|lia|done|done|done|done|done|done|].
    intros m Hm. replace (reverse (sub l m (toOffset (bufcur k)))) with
      (reverse bts ++ reverse (sub l m (toOffset c'))).
    + rewrite Heq. apply hit_offset_ext. intros p. unfold desc_off. lia.
    + rewrite <- reverse_app. f_equal. rewrite Hbts at 1. rewrite sub_app; [done|lia..].
Qed.

Lemma scan_asc d fuel k i l bl :
  implements tb pat FM flat id (λ cur _ p, cur + p + d) →
  in_state tb pat k i → (i < length pat)%nat → on_text (bufcur k) l bl → asc_ok (bufcur k) bl →
  fromOffset (bufcur k) < toOffset (bufcur k) → asc_pieces (bufcur k) bl ≤ Z.of_nat fuel →
  scan fuel FM k =
  Done (hit_offset (flat pat i (sub l (fromOffset (bufcur k)) (toOffset (bufcur k))))
          (asc_off d (fromOffset (bufcur k)))).
Proof.
  intros Him. revert k i. induction fuel as [|fuel IH]; intros k i Hst Hi Hot Hok Hlt Hf.
  - pose proof (asc_pieces_pos _ _ _ Hot Hlt). lia.
  - cbn [scan]. destruct (foundMatch_asc d k i l bl Him Hst Hi Hot Hok Hlt) as (stop & onf & k' & -> & Hres).
    cbn [exec_bind]. destruct stop; [by rewrite Hres|].
    destruct Hres as (j & Hst' & Hj & Hr & Hto & Hot' & Hok' & Hpc & _ & _ & ->).
    rewrite (IH k' j) by (done || lia). by rewrite Hto.
Qed.

Lemma scan_desc d fuel k i l bl :
  implements tb pat FM flat reverse (λ cur n p, cur + (n - 1 - p) + d) →
  in_state tb pat k i → (i < length pat)%nat → on_text (bufcur k) l bl → desc_ok (bufcur k) bl →
  fromOffset (bufcur k) < toOffset (bufcur k) → desc_pieces (bufcur k) bl ≤ Z.of_nat fuel →
  scan fuel FM k =
  Done (hit_offset (flat pat i (reverse (sub l (fromOffset (bufcur k)) (toOffset (bufcur k)))))
          (desc_off d (toOffset (bufcur k)))).
Proof.
  intros Him. revert k i. induction fuel as [|fuel IH]; intros k i Hst Hi Hot Hok Hlt Hf.
  - exfalso. unfold desc_pieces in Hf. pose proof (ot_range _ _ _ Hot). pose proof (ot_bl _ _ _ Hot).
    rewrite (proj2 (Z.ltb_lt (fromOffset (bufcur k)) (toOffset (bufcur k)))) in Hf by lia.
    pose proof (Z.div_pos (toOffset (bufcur k)) bl ltac:(lia) ltac:(lia)).
    destruct (_ <? toOffset (bufcur k)); lia.
  - cbn [scan]. destruct (foundMatch_desc d k i l bl Him Hst Hi Hot Hok Hlt) as (stop & onf & k' & -> & Hres).
    cbn [exec_bind]. destruct stop; [by destruct Hres as [-> _]|].
    destruct Hres as (j & Hst' & Hj & Hr & Hfrom & Hot' & Hok' & Hpc & _ & _ & Hh).
    rewrite (IH k' j) by (done || lia). rewrite Hfrom, Hh by lia. done.
Qed.
End scans.

(** *** The matchers implement their automata *)

(** At a state inside the pattern, [restart] asks whether the next byte differs from
    the one expected. *)
Lemma restart_spec pat k i bt :
  in_state pat pat k i → (i < length pat)%nat →
  restart k bt = Done (bool_decide (0 < i)%nat && bool_decide (pat !! i ≠ Some bt)).
Proof.
  intros (Hp & Hi & _ & Hprev) Hlt. unfold restart. rewrite Hp, Hi.
  destruct (Z.ltb_spec 0 (Z.of_nat i)).
  - rewrite (bool_decide_eq_true_2 (0 < i)%nat) by lia. specialize (Hprev ltac:(lia)).
    rewrite (index_lookup _ _ (prvb k)) by (lia || (by replace (Z.to_nat (Z.of_nat i - 1)) with (i - 1)%nat by lia)).
    cbn [exec_bind]. rewrite Z.eqb_refl.
    destruct (lookup_lt_is_Some_2 pat i Hlt) as [x Hx].
    rewrite (index_lookup _ _ x) by (lia || (by rewrite Nat2Z.id)). cbn [exec_bind].
    f_equal. simpl. rewrite Hx. destruct (Z.eqb_spec x bt) as [->|]; case_bool_decide; simpl; congruence.
  - by rewrite (bool_decide_eq_false_2 (0 < i)%nat) by lia.
Qed.

Lemma in_state_next tb pat k i bt :
  in_state tb pat k i → pat !! i = Some bt → in_state tb pat (at_ k (Z.of_nat i + 1) bt) (S i).
Proof.
  intros (Hp & Hi & Hd & _) Hb. split_and!; [done|simpl; lia|done|].
  intros _. by replace (S i - 1)%nat with i by lia.
Qed.

Lemma in_state_0 tb pat k i prv : in_state tb pat k i → in_state tb pat (at_ k 0 prv) 0.
Proof. intros (Hp & Hi & Hd & _). split_and!; [done|done|done|lia]. Qed.

Lemma expected pat k i :
  in_state pat pat k i → (i < length pat)%nat →
  ∃ t, index (testbts k) (testbtsi k) = Done t ∧ pat !! i = Some t.
Proof.
  intros (Hp & Hi & _) Hlt. destruct (lookup_lt_is_Some_2 pat i Hlt) as [x Hx].
  exists x. rewrite Hp, Hi. split; [apply index_lookup; [lia|by rewrite Nat2Z.id]|done].
Qed.

(** The result of running a matcher, with the offset a match at [p] stores. *)
Definition runs_as (res : exec (bool * checkbytes)) (tb pat : list Z) (k : checkbytes) (o : outcome)
    (off : Z → Z) : Prop :=
  ∃ k', res = Done (match o with More _ => false | _ => true end, k') ∧
    match o with
    | Hit p => dne k' = true ∧ lastOffset (bufcur k') = off (Z.of_nat p)
    | Miss => dne k' = false
    | More j => in_state tb pat k' j ∧ (j < length pat)%nat ∧ bufcur k' = bufcur k
    end.

Lemma runs_as_shift res tb pat k k0 o off off0 :
  bufcur k0 = bufcur k → (∀ p, off0 p = off (1 + p)) →
  runs_as res tb pat k0 o off0 → runs_as res tb pat k (shift 1 o) off.
Proof.
  intros Hk Hoff (k' & -> & Hres). exists k'. destruct o as [p| |j]; simpl; [|done|].
  - rewrite (Hoff (Z.of_nat p)) in Hres. by replace (Z.of_nat (S p)) with (1 + Z.of_nat p) by lia.
  - by rewrite Hk in Hres.
Qed.

(** The state after the test for a restart, and what the automaton does next. *)
Lemma restarted pat k i bt prv :
  in_state pat pat k i → (i < length pat)%nat →
  let rst := bool_decide (0 < i)%nat && bool_decide (pat !! i ≠ Some bt) in
  let k0 := if rst then at_ k 0 prv else k in
  ∃ i0 t, in_state pat pat k0 i0 ∧ (i0 < length pat)%nat ∧ bufcur k0 = bufcur k ∧
    index (testbts k0) (testbtsi k0) = Done t ∧ pat !! i0 = Some t ∧
    fwd_step pat i bt = Some (if t =? bt then S i0 else 0%nat).
Proof.
  intros Hst Hi rst k0. exists (if rst then 0%nat else i).
  assert (in_state pat pat k0 (if rst then 0%nat else i) ∧ ((if rst then 0%nat else i) < length pat)%nat ∧
    bufcur k0 = bufcur k) as (Hst0 & Hi0 & Hc0).
  { subst k0. destruct rst; split_and!; [by eapply in_state_0|lia|done..]. }
  destruct (expected pat k0 _ Hst0 Hi0) as (t & Hidx & Ht). exists t. split_and!; try done.
  unfold fwd_step. f_equal. subst rst. destruct (decide (pat !! i = Some bt)) as [Hb|Hb].
  - rewrite (bool_decide_eq_false_2 (pat !! i ≠ Some bt)) in * by auto. rewrite andb_false_r in *.
    rewrite Hb in Ht. injection Ht as <-. by rewrite Z.eqb_refl.
  - rewrite (bool_decide_eq_true_2 (pat !! i ≠ Some bt)) in * by auto. rewrite andb_true_r in *.
    destruct (decide (0 < i)%nat) as [Hpos|Hz].
    + rewrite bool_decide_eq_true_2 in * by done. rewrite Ht.
      destruct (Z.eqb_spec t bt) as [->|]; case_decide; congruence.
    + rewrite bool_decide_eq_false_2 in * by done. assert (i = 0%nat) as -> by lia.
      rewrite Ht. destruct (Z.eqb_spec t bt) as [->|]; case_decide; congruence.
Qed.

(** One byte of a piece in a matcher: a match, the next state or the pattern from
    its start. *)
Lemma step_back k i : (if 0 <? testbtsi k then 0 else testbtsi k) = Z.of_nat i → 0 ≤ testbtsi k → i = 0%nat.
Proof. destruct (Z.ltb_spec 0 (testbtsi k)); lia. Qed.

Lemma reset_index (i : nat) : (if 0 <? Z.of_nat i then 0 else Z.of_nat i) = 0.
Proof. destruct (Z.ltb_spec 0 (Z.of_nat i)); lia. Qed.

Lemma found_forward_runs again pat bts bn k i :
  in_state pat pat k i → (i < length pat)%nat →
  runs_as (found_forward again bn bts k) pat pat k (run (fwd_step pat) (length pat) i bts)
    (λ p, curOffset (bufcur k) + (bn + p) - len pat).
Proof.
  revert bn k i. induction bts as [|bt bts IH]; intros bn k i Hst Hi; cbn [run found_forward].
  { exists k. done. }
  rewrite (restart_spec pat k i bt Hst Hi). cbn [exec_bind].
  destruct (restarted pat k i bt (again k) Hst Hi) as (i0 & t & Hst0 & Hi0 & Hc0 & -> & Ht & ->).
  set (k0 := if _ && _ then _ else k) in *. cbn [exec_bind].
  pose proof Hst0 as (Hp & Hti & _). unfold testbtsl. rewrite Hti, Hp, reset_index.
  destruct (Z.eqb_spec t bt) as [->|Hne].
  - destruct (decide (S i0 = length pat)) as [Hl|Hl].
    + rewrite (proj2 (Z.eqb_eq _ _)) by lia. eexists. split; [done|]. simpl. split; [done|]. rewrite Hc0. lia.
    + rewrite (proj2 (Z.eqb_neq _ _)) by lia.
      eapply runs_as_shift; [|intros p|apply IH; [by apply in_state_next|lia]]; [done|].
      cbn [at_ bufcur]. rewrite Hc0. lia.
  - destruct (decide (0 = length pat)%nat); [lia|].
    eapply runs_as_shift; [|intros p|apply IH; [by eapply in_state_0|lia]]; [done|].
    cbn [at_ bufcur]. rewrite Hc0. lia.
Qed.

Lemma foundPrefix_runs pat bts bn k i :
  in_state pat pat k i → (i < length pat)%nat →
  runs_as (foundPrefix bn bts k) pat pat k (run (pre_step pat) (length pat) i bts)
    (λ p, curOffset (bufcur k) + (bn + p) - len pat).
Proof.
  revert bn k i. induction bts as [|bt bts IH]; intros bn k i Hst Hi; cbn [run foundPrefix].
  { exists k. done. }
  rewrite (restart_spec pat k i bt Hst Hi). cbn [exec_bind].
  pose proof Hst as (Hp & Hti & Hd & _). unfold pre_step.
  destruct (expected pat k i Hst Hi) as (t & Hidx & Ht). rewrite Hidx, Ht.
  destruct (decide (Some t = Some bt)) as [[= ->]|Hne].
  - rewrite (bool_decide_eq_false_2 (Some bt ≠ Some bt)) by auto. rewrite andb_false_r.
    cbn [exec_bind]. unfold testbtsl. rewrite Hti, Hp, Z.eqb_refl.
    destruct (decide (S i = length pat)) as [Hl|Hl].
    + rewrite (proj2 (Z.eqb_eq _ _)) by lia. eexists. split; [done|]. simpl. split; [done|]. lia.
    + rewrite (proj2 (Z.eqb_neq _ _)) by lia.
      eapply runs_as_shift; [|intros p|apply IH; [by apply in_state_next|lia]]; [done|].
      cbn [at_ bufcur]. lia.
  - cbn [exec_bind]. rewrite (proj2 (Z.eqb_neq t bt)) by congruence.
    destruct (bool_decide _ && _); (eexists; split; [done|]); done.
Qed.

(** Backwards the pattern is read from its end. *)
Lemma expected_rev pat k i :
  in_state pat (reverse pat) k i → (i < length pat)%nat →
  ∃ t, index (testbts k) (testbtsl k - (testbtsi k + 1)) = Done t ∧ reverse pat !! i = Some t.
Proof.
  intros (Hp & Hi & _) Hlt. unfold testbtsl. rewrite Hp, Hi.
  destruct (lookup_lt_is_Some_2 (reverse pat) i) as [x Hx]; [by rewrite length_reverse|].
  exists x. split; [|done]. apply reverse_lookup_Some in Hx as [Hx ?].
  apply index_lookup; [lia|]. by replace (Z.to_nat (len pat - (Z.of_nat i + 1))) with (length pat - S i)%nat by lia.
Qed.

Lemma foundReverse_runs pat rbts q k i :
  in_state pat (reverse pat) k i → (i < length pat)%nat →
  runs_as (foundReverse q rbts k) pat (reverse pat) k (run (bwd_step (reverse pat)) (length pat) i rbts)
    (λ p, curOffset (bufcur k) + (q - p)).
Proof.
  revert q k i. induction rbts as [|bt rbts IH]; intros q k i Hst Hi; cbn [run foundReverse].
  { exists k. split; [done|]. by rewrite length_reverse. }
  destruct (expected_rev pat k i Hst Hi) as (t & -> & Ht). cbn [exec_bind].
  pose proof Hst as (Hp & Hti & _). unfold testbtsl, bwd_step. rewrite Hti, Hp, Ht, reset_index.
  destruct (Z.eqb_spec t bt) as [->|Hne].
  - destruct (decide (Some bt = Some bt)); [|congruence].
    destruct (decide (S i = length pat)) as [Hl|Hl].
    + rewrite (proj2 (Z.eqb_eq _ _)) by lia. eexists. split; [done|]. simpl. split; [done|]. lia.
    + rewrite (proj2 (Z.eqb_neq _ _)) by lia.
      eapply runs_as_shift; [|intros p|apply IH; [by apply in_state_next|lia]]; [done|].
      cbn [at_ bufcur]. lia.
  - destruct (decide (Some t = Some bt)); [congruence|]. destruct (decide (0 = length pat)%nat); [lia|].
    eapply runs_as_shift; [|intros p|apply IH; [by eapply in_state_0|lia]]; [done|].
    cbn [at_ bufcur]. lia.
Qed.

Lemma foundSuffix_runs pat rbts q k i :
  in_state pat (reverse pat) k i → (i < length pat)%nat →
  runs_as (foundSuffix_rev q rbts k) pat (reverse pat) k (run (pre_step (reverse pat)) (length pat) i rbts)
    (λ p, curOffset (bufcur k) + (q - p) - len pat).
Proof.
  revert q k i. induction rbts as [|bt rbts IH]; intros q k i Hst Hi; cbn [run foundSuffix_rev].
  { exists k. split; [done|]. by rewrite length_reverse. }
  destruct (expected_rev pat k i Hst Hi) as (t & -> & Ht). cbn [exec_bind].
  pose proof Hst as (Hp & Hti & Hd & _). unfold testbtsl, pre_step. rewrite Hti, Hp, Ht.
  destruct (Z.eqb_spec t bt) as [->|Hne].
  - destruct (decide (Some bt = Some bt)); [|congruence].
    destruct (decide (S i = length pat)) as [Hl|Hl].
    + rewrite (proj2 (Z.eqb_eq _ _)) by lia. eexists. split; [done|]. simpl. split; [done|]. lia.
    + rewrite (proj2 (Z.eqb_neq _ _)) by lia.
      eapply runs_as_shift; [|intros p|apply IH; [by apply in_state_next|lia]]; [done|].
      cbn [at_ bufcur]. lia.
  - destruct (decide (Some t = Some bt)); [congruence|]. eexists. split; [done|]. done.
Qed.

Lemma in_state_start c tb pat : in_state tb pat (newCheckBytes c tb) 0.
Proof. split_and!; [done|done|done|lia]. Qed.

Lemma foundContains_implements pat :
  implements pat pat foundContains (λ p, run (fwd_step p) (length p)) id
    (λ cur _ p, cur + p + - len pat).
Proof.
  intros bts k i Hst Hi _. destruct (found_forward_runs prvb pat bts 0 k i Hst Hi) as (k' & Hr & H).
  exists k'. split; [exact Hr|]. unfold id. destruct (run _ _ i bts); [|done..].
  destruct H as [? ->]. split; [done|lia].
Qed.

Lemma foundIndexOf_implements pat :
  implements pat pat foundIndexOf (λ p, run (fwd_step p) (length p)) id
    (λ cur _ p, cur + p + - len pat).
Proof.
  intros bts k i Hst Hi _. destruct (found_forward_runs (λ _, 0) pat bts 0 k i Hst Hi) as (k' & Hr & H).
  exists k'. split; [exact Hr|]. unfold id. destruct (run _ _ i bts); [|done..].
  destruct H as [? ->]. split; [done|lia].
Qed.

Lemma foundPrefix_implements pat :
  implements pat pat (foundPrefix 0) (λ p, run (pre_step p) (length p)) id
    (λ cur _ p, cur + p + - len pat).
Proof.
  intros bts k i Hst Hi _. destruct (foundPrefix_runs pat bts 0 k i Hst Hi) as (k' & Hr & H).
  exists k'. split; [exact Hr|]. unfold id. destruct (run _ _ i bts); [|done..].
  destruct H as [? ->]. split; [done|lia].
Qed.

Lemma foundReverse_implements pat :
  implements pat (reverse pat) foundContainsReverse (λ p, run (bwd_step p) (length p)) reverse
    (λ cur n p, cur + (n - 1 - p) + 0).
Proof.
  intros bts k i Hst Hi _. rewrite length_reverse in Hi.
  destruct (foundReverse_runs pat (reverse bts) (len bts - 1) k i Hst Hi) as (k' & Hr & H).
  exists k'. cbv beta. rewrite !length_reverse. split; [exact Hr|]. destruct (run _ _ i _); rewrite ?length_reverse in H; [|done..].
  destruct H as [? ->]. split; [done|lia].
Qed.

Lemma foundSuffix_implements pat :
  implements pat (reverse pat) foundSuffix (λ p, run (pre_step p) (length p)) reverse
    (λ cur n p, cur + (n - 1 - p) + - len pat).
Proof.
  intros bts k i Hst Hi _. rewrite length_reverse in Hi.
  destruct (foundSuffix_runs pat (reverse bts) (len bts - 1) k i Hst Hi) as (k' & Hr & H).
  exists k'. cbv beta. rewrite !length_reverse. split; [exact Hr|]. destruct (run _ _ i _); rewrite ?length_reverse in H; [|done..].
  destruct H as [? ->]. split; [done|lia].
Qed.

(** ** The searches over a buffer *)

(** A buffer to search: well formed, with chunks of at least two bytes. *)
Definition searchable (b : Buffer) : Prop := wf b ∧ 2 ≤ len (bytes b).

Lemma full_range b a :
  searchable b → contents b ≠ [] →
  ∃ c, newBufferCursor (Some b) a (all_of (Some b) []) = Done c ∧
    on_text c (contents b) (len (bytes b)) ∧ fromOffset c = 0 ∧ toOffset c = len (contents b) ∧
    c_buffer c = buffer b ∧ 0 < len (contents b) ∧
    (if a then asc_ok c (len (bytes b)) else desc_ok c (len (bytes b))).
Proof.
  intros [Hw Hbl] Hne. assert (0 < len (contents b)) as Hpos by (destruct (contents b); [done|simpl; lia]).
  change (all_of (Some b) []) with [0; Size (Some b)]. rewrite Size_contents by done.
  destruct (cursor_range b a 0 (len (contents b)) Hw Hbl)
    as (c & Hc & Hot & Ha & Hf & Ht & Hb & _); [lia..|].
  exists c. split_and!; try done. pose proof (length_contents b Hw). pose proof (wf_open b Hw).
  unfold asc_ok, desc_ok. rewrite Ha, Hf, Ht, Hb. destruct a; (split; [done|]).
  - rewrite Z.mod_0_l by lia. split; [left|]; lia.
  - intros _. destruct (decide (bytesi b = 0)) as [Hz|]; [right; left|left; lia].
    rewrite H, Hz, Z.add_0_r. apply Z.mod_mul. lia.
Qed.

Lemma scan_guard b (pat : list Z) :
  wf b → (0 <? len pat) && (0 <? Size (Some b)) = bool_decide (pat ≠ []) && bool_decide (contents b ≠ []).
Proof.
  intros Hw. rewrite Size_contents by done. f_equal.
  - destruct pat; [done|]. rewrite bool_decide_eq_true_2 by done. apply Z.ltb_lt. simpl. lia.
  - destruct (contents b); [done|]. rewrite bool_decide_eq_true_2 by done. apply Z.ltb_lt. simpl. lia.
Qed.

Lemma internalScan_asc b tb (flat : list Z → nat → list Z → outcome) FM :
  searchable b → tb ≠ [] → contents b ≠ [] → appends (flat tb) →
  implements tb tb FM flat id (λ cur _ p, cur + p + - len tb) →
  internalScan (Some b) tb [] true FM =
  Done (hit_offset (flat tb 0%nat (contents b)) (λ p, p - len tb)).
Proof.
  intros Hs Hne Hc Ha Him. unfold internalScan. rewrite scan_guard by apply Hs.
  rewrite !bool_decide_eq_true_2 by done. simpl andb. cbv iota.
  destruct (full_range b true Hs Hc) as (c & -> & Hot & Hf & Ht & Hb & Hpos & Hok). cbn [exec_bind].
  rewrite (scan_asc tb tb flat FM Ha (- len tb) _ _ 0 (contents b) (len (bytes b)));
    cbn [newCheckBytes bufcur]; rewrite ?Hf, ?Ht; try done.
  - f_equal. rewrite sub_full. apply hit_offset_ext. intros p. unfold asc_off. lia.
  - apply in_state_start.
  - destruct tb; [done|simpl; lia].
  - unfold asc_pieces, rounds. rewrite Hf, Ht, Hb, Z.div_0_l by (destruct Hs; lia). repeat zcase; lia.
Qed.

Lemma internalScan_desc b tb (flat : list Z → nat → list Z → outcome) FM d :
  searchable b → tb ≠ [] → contents b ≠ [] → appends (flat (reverse tb)) →
  implements tb (reverse tb) FM flat reverse (λ cur n p, cur + (n - 1 - p) + d) →
  internalScan (Some b) tb [] false FM =
  Done (hit_offset (flat (reverse tb) 0%nat (reverse (contents b))) (λ p, len (contents b) - 1 - p + d)).
Proof.
  intros Hs Hne Hc Ha Him. unfold internalScan. rewrite scan_guard by apply Hs.
  rewrite !bool_decide_eq_true_2 by done. simpl andb. cbv iota.
  destruct (full_range b false Hs Hc) as (c & -> & Hot & Hf & Ht & Hb & Hpos & Hok). cbn [exec_bind].
  rewrite (scan_desc tb (reverse tb) flat FM Ha d _ _ 0 (contents b) (len (bytes b)));
    cbn [newCheckBytes bufcur]; rewrite ?Hf, ?Ht; try done.
  - f_equal. rewrite sub_full. done.
  - apply in_state_start.
  - rewrite length_reverse. destruct tb; [done|simpl; lia].
  - unfold desc_pieces, rounds. rewrite Hf, Ht, Hb. repeat zcase; try lia.
    pose proof (Z.div_le_upper_bound (len (contents b)) (len (bytes b)) (len (buffer b))). destruct Hs. lia.
Qed.

Lemma is_hit_offset o f : bool_decide (hit_offset o f ≠ None) = is_hit o.
Proof. destruct o; [by rewrite bool_decide_eq_true_2|by rewrite bool_decide_eq_false_2 by auto..]. Qed.

(** HasPrefixBytes answers whether the content of the buffer starts with the
    bytes (never for no bytes), however the content is split into chunks. *)
Theorem HasPrefixBytes_spec b pat :
  searchable b →
  HasPrefixBytes (Some b) pat = Done (bool_decide (pat ≠ [] ∧ pat `prefix_of` contents b)).
Proof.
  intros Hs. unfold HasPrefixBytes, internalHasPrefixBytes.
  destruct (decide (pat = [])) as [->|Hne]; [|destruct (decide (contents b = [])) as [Hc|Hc]].
  - unfold internalScan. rewrite scan_guard by apply Hs. simpl. f_equal.
  - unfold internalScan. rewrite scan_guard by apply Hs. rewrite Hc, (bool_decide_eq_false_2 ([] ≠ [])) by auto.
    rewrite andb_false_r. simpl. f_equal. symmetry. apply bool_decide_eq_false_2.
    intros [_ H]. by apply prefix_nil_inv in H.
  - rewrite (internalScan_asc b pat (λ p, run (pre_step p) (length p)))
      by (done || apply run_appends || apply foundPrefix_implements).
    cbn [exec_bind]. rewrite is_hit_offset, pre_run_spec by (destruct pat; [done|simpl; lia]).
    f_equal. apply bool_decide_ext. rewrite drop_0. naive_solver.
Qed.

(** HasSuffixBytes answers whether the content of the buffer ends with the
    bytes (never for no bytes): the backward walk over the chunks is right. *)
Theorem HasSuffixBytes_spec b pat :
  searchable b →
  HasSuffixBytes (Some b) pat = Done (bool_decide (pat ≠ [] ∧ pat `suffix_of` contents b)).
Proof.
  intros Hs. unfold HasSuffixBytes, internalHasSuffixBytes. rewrite scan_guard by apply Hs.
  destruct (decide (pat = [])) as [->|Hne]; [|destruct (decide (contents b = [])) as [Hc|Hc]].
  - simpl. f_equal.
  - rewrite Hc, (bool_decide_eq_false_2 ([] ≠ [])) by auto. rewrite andb_false_r. f_equal.
    symmetry. apply bool_decide_eq_false_2. intros [_ H]. by apply suffix_nil_inv in H.
  - rewrite !bool_decide_eq_true_2 by done. simpl andb. cbv iota.
    rewrite (internalScan_desc b pat (λ p, run (pre_step p) (length p)) _ (- len pat))
      by (done || apply run_appends || apply foundSuffix_implements).
    cbn [exec_bind]. rewrite is_hit_offset, pre_run_spec
      by (rewrite length_reverse; destruct pat; [done|simpl; lia]).
    f_equal. apply bool_decide_ext. rewrite drop_0, <- suffix_prefix_reverse. naive_solver.
Qed.

(** The first occurrence of a pattern. *)
Definition first_at (pat l : list Z) (s : nat) : Prop :=
  pat `prefix_of` drop s l ∧ ∀ s', (s' < s)%nat → ¬ pat `prefix_of` drop s' l.

Lemma prefix_drop_ends_at pat l s :
  pat ≠ [] → pat `prefix_of` drop s l →
  ends_at pat l (s + length pat - 1) ∧ (s + length pat - 1 < length l)%nat.
Proof.
  intros Hne [k Hk]. pose proof (f_equal length Hk) as Hl. rewrite length_drop, length_app in Hl.
  assert (0 < length pat)%nat by (destruct pat; [done|simpl; lia]). split; [|lia].
  rewrite <- (take_drop s l), Hk.
  replace (s + length pat - 1)%nat with (length (take s l) + length pat - 1)%nat
    by (rewrite length_take; lia).
  by apply occurs_ends_at.
Qed.

Lemma ends_at_prefix_drop pat l p :
  pat ≠ [] → (p < length l)%nat → ends_at pat l p →
  (length pat ≤ S p)%nat ∧ pat `prefix_of` drop (S p - length pat) l.
Proof.
  intros Hne Hp [k Hk]. pose proof (f_equal length Hk) as Hl.
  rewrite length_take, length_app in Hl. split; [lia|].
  replace (S p - length pat)%nat with (length k) by lia.
  rewrite <- (take_drop (S p) l), Hk, <- app_assoc, drop_app_length. by exists (drop (S p) l).
Qed.

Lemma prefix_drop_occurs pat l : pat ≠ [] → (∃ s, pat `prefix_of` drop s l) ↔ occurs pat l.
Proof.
  intros Hne. split.
  - intros (s & k & Hk). exists (take s l), k. by rewrite <- Hk, take_drop.
  - intros (l1 & l2 & ->). exists (length l1). rewrite drop_app_length. by exists l2.
Qed.

(** A hit of the forward automaton, as the place where the pattern starts. *)
Lemma fwd_first_at pat l :
  head_once pat → pat ≠ [] →
  match run (fwd_step pat) (length pat) 0 l with
  | Hit p => ∃ s, first_at pat l s ∧ Z.of_nat p - len pat = Z.of_nat s - 1
  | Miss => False
  | More _ => ¬ occurs pat l
  end.
Proof.
  intros Hh Hne. pose proof (fwd_first pat l Hh Hne) as Hf.
  destruct (run _ _ 0 l) as [p| |j] eqn:E; [|done|].
  - destruct Hf as [He Hmin]. pose proof (run_take_hit _ _ _ _ _ E) as Hp.
    destruct (ends_at_prefix_drop pat l p Hne Hp He) as [Hl Hpre].
    exists (S p - length pat)%nat. split; [split; [done|]|lia].
    intros s' Hs' Hpre'. destruct (prefix_drop_ends_at pat l s' Hne Hpre') as [He' ?].
    assert (0 < length pat)%nat by (destruct pat; [done|simpl; lia]).
    eapply Hmin; [|exact He']. lia.
  - intros Ho. apply prefix_drop_occurs in Ho as [s Hs]; [|done].
    destruct (prefix_drop_ends_at pat l s Hne Hs) as [He Hlt]. by eapply Hf.
Qed.

(** IndexOfBytes finds the first occurrence of a pattern whose first byte does
    not come again in it, in a buffer split into any chunks; the index it answers is
    one less than the offset at which the occurrence starts, and -1 when there is
    none. *)
Theorem IndexOfBytes_spec b pat :
  searchable b → head_once pat → pat ≠ [] →
  ∃ r, IndexOfBytes (Some b) pat = Done r ∧
    ((∃ s, first_at pat (contents b) s ∧ r = Z.of_nat s - 1) ∨
     (¬ occurs pat (contents b) ∧ r = -1)).
Proof.
  intros Hs Hh Hne. unfold IndexOfBytes, internalIndexOfBytes.
  destruct (decide (contents b = [])) as [Hc|Hc].
  - unfold internalScan. rewrite scan_guard by apply Hs. rewrite Hc, (bool_decide_eq_false_2 ([] ≠ [])) by auto.
    rewrite andb_false_r. exists (-1). split; [done|]. right. split; [|done].
    intros (l1 & l2 & Heq). destruct l1, pat; done.
  - rewrite (internalScan_asc b pat (λ p, run (fwd_step p) (length p)))
      by (done || apply run_appends || apply foundIndexOf_implements).
    pose proof (fwd_first_at pat (contents b) Hh Hne) as Hf. cbn [exec_bind].
    destruct (run _ _ 0 (contents b)); [|done|]; cbn [hit_offset default]; eauto.
Qed.

(** A pattern found backwards ends, in reading order, where the automaton says. *)
Lemma bwd_hit_prefix pat l p :
  pat ≠ [] → run (bwd_step (reverse pat)) (length (reverse pat)) 0 (reverse l) = Hit p →
  pat `prefix_of` drop (length l - 1 - p) l ∧ (p < length l)%nat.
Proof.
  intros Hne Hr. pose proof (run_take_hit _ _ _ _ _ Hr) as Hp. rewrite length_reverse in Hp.
  apply bwd_hit_ends in Hr as He. split; [|done]. unfold ends_at in He.
  rewrite take_reverse in He. replace (length l - S p)%nat with (length l - 1 - p)%nat in He by lia.
  by apply suffix_prefix_reverse in He; rewrite !reverse_involutive in He.
Qed.

(** *** Forwards and backwards in turn *)

(** Both cursors walk the whole text a chunk at a time: the backward one has not
    passed over what the forward one has not read. *)
Definition in_step (c cb : bufferCursor) (l : list Z) (bl : Z) : Prop :=
  c_buffer cb = c_buffer c ∧ toOffset c = len l ∧ fromOffset cb = 0 ∧
  fromOffset c mod bl = 0 ∧ (toOffset cb = len l ∨ toOffset cb mod bl = 0) ∧
  len l ≤ fromOffset c + toOffset cb ∧ len l < len (c_buffer c) * bl + bl.

Lemma in_step_next c cb c' cb' l bl :
  on_text c l bl → on_text cb l bl → in_step c cb l bl →
  same_source c c' → same_source cb cb' → toOffset c' = toOffset c → fromOffset cb' = fromOffset cb →
  fromOffset c' = asc_end c bl → fromOffset c' < toOffset c → toOffset cb' = desc_start cb bl →
  in_step c' cb' l bl.
Proof.
  intros Hot Hotb (Hbuf & Hto & Hfb & Hmod & Htb & Hsum & Hl) (Hs1 & _) (Hs2 & _) Hto' Hfb' Hc' Hlt Hcb'.
  pose proof (ot_bl _ _ _ Hot). pose proof (ot_range _ _ _ Hotb). pose proof (ot_range _ _ _ Hot).
  assert (len (concat (c_buffer c)) = len (c_buffer c) * bl) as Hcl by (apply len_concat, Hot).
  assert (len l = len (c_buffer c) * bl + len (c_bytes c)) as Hll
    by (rewrite (ot_text _ _ _ Hot), length_app; lia).
  pose proof (Z.div_mod (fromOffset c) bl ltac:(lia)) as Hdm. rewrite Hmod in Hdm.
  set (k := fromOffset c / bl) in *.
  unfold asc_end in Hc'. fold k in Hc'.
  assert (fromOffset c < len (c_buffer c) * bl ∧ fromOffset c' = (k + 1) * bl) as [Hin Hc''].
  { destruct (Z.ltb_spec (fromOffset c) (len (c_buffer c) * bl)); [done|lia]. }
  unfold in_step. rewrite Hs1, Hs2, Hto', Hfb', Hbuf, Hc''. unfold desc_start in Hcb'.
  rewrite Hbuf, Hfb in Hcb'.
  assert (toOffset cb' mod bl = 0 ∧ len l ≤ (k + 1) * bl + toOffset cb') as [Hmod' Hsum'].
  { destruct (Z.ltb_spec (len (c_buffer c) * bl) (toOffset cb)) as [Hgt|Hle].
    - rewrite Z.max_r in Hcb' by lia. rewrite Hcb'. split; [apply Z.mod_mul; lia|nia].
    - assert (toOffset cb mod bl = 0) as Htm.
      { destruct Htb as [Htb|]; [|done]. assert (toOffset cb = len (c_buffer c) * bl) as -> by lia.
        apply Z.mod_mul. lia. }
      pose proof (Z.div_mod (toOffset cb) bl ltac:(lia)) as Hdb. rewrite Htm in Hdb.
      set (q := toOffset cb / bl) in *. assert (0 ≤ q) by (apply Z.div_pos; lia).
      destruct (decide (q = 0)) as [Hq|Hq].
      { rewrite Hq in *. rewrite Z.max_l in Hcb' by lia. rewrite Hcb', Z.mod_0_l by lia. lia. }
      rewrite Z.max_r in Hcb' by nia. rewrite Hcb'. split; [apply Z.mod_mul; lia|nia]. }
  split_and!; try done; [apply Z.mod_mul; lia|by right].
Qed.

Section scan_both.
Context (pat : list Z).
Notation fwd_hit i l := (is_hit (run (fwd_step pat) (length pat) i l)).
Notation bwd_hit i l := (is_hit (run (bwd_step (reverse pat)) (length (reverse pat)) i l)).

(** The whole text is searched forwards; backwards, some end of it. *)
Lemma scan_both_spec fuel k kb i j l bl :
  in_state pat pat k i → (i < length pat)%nat → in_state pat (reverse pat) kb j → (j < length pat)%nat →
  on_text (bufcur k) l bl → asc_ok (bufcur k) bl → on_text (bufcur kb) l bl → desc_ok (bufcur kb) bl →
  in_step (bufcur k) (bufcur kb) l bl → fromOffset (bufcur k) < toOffset (bufcur k) →
  asc_pieces (bufcur k) bl ≤ Z.of_nat fuel →
  ∃ m r, 0 ≤ m ≤ toOffset (bufcur kb) ∧ scan_both fuel k kb = Done r ∧
    (r = true ↔ fwd_hit i (sub l (fromOffset (bufcur k)) (len l)) = true ∨
                bwd_hit j (reverse (sub l m (toOffset (bufcur kb)))) = true).
Proof.
  revert k kb i j. induction fuel as [|fuel IH];
    intros k kb i j Hst Hi Hstb Hj Hot Hok Hotb Hokb Hstep Hlt Hf.
  - pose proof (asc_pieces_pos _ _ _ Hot Hlt). lia.
  - cbn [scan_both]. pose proof Hstep as (Hbuf & Hto & Hfb & _ & _ & Hsum & _).
    destruct (foundMatch_asc pat pat (λ p, run (fwd_step p) (length p)) _ (run_appends _ _) _ k i l bl
      (foundContains_implements pat) Hst Hi Hot Hok Hlt) as (stop & onf & k' & -> & Hres).
    cbn [exec_bind]. rewrite Hto in *. destruct stop.
    { exists (toOffset (bufcur kb)). eexists. split; [pose proof (ot_range _ _ _ Hotb); lia|].
      split; [done|]. rewrite Hres, is_hit_offset, sub_nil. simpl. intuition congruence. }
    destruct Hres as (i' & Hst' & Hi' & Hr & Hto' & Hot' & Hok' & Hpc & Hsrc & Hend & Hhit).
    assert (fromOffset (bufcur kb) < toOffset (bufcur kb)) as Hltb by (rewrite Hfb; lia).
    destruct (foundMatch_desc pat (reverse pat) (λ p, run (bwd_step p) (length p)) _ (run_appends _ _) _
      kb j l bl (foundReverse_implements pat) Hstb ltac:(by rewrite length_reverse) Hotb Hokb Hltb)
      as (stop' & onf' & kb' & -> & Hres'). cbn [exec_bind].
    pose proof (f_equal (λ o, bool_decide (o ≠ None)) Hhit) as Hh. cbv beta in Hh.
    rewrite !is_hit_offset in Hh.
    pose proof (ot_range _ _ _ Hotb). destruct stop'.
    + exists 0. eexists. split; [lia|]. split; [done|]. destruct Hres' as [-> Hmore].
      rewrite is_hit_offset. rewrite Hfb in *.
      destruct (run (bwd_step (reverse pat)) _ j _) as [p| |j'] eqn:E; [intuition| |].
      * exfalso. by eapply run_total, E.
      * exfalso. apply (Hmore) with j'; [|done].
        pose proof (in_step_next _ _ (bufcur k') (set_pos (bufcur kb) 0 (desc_start (bufcur kb) bl) 0)
          l bl Hot Hotb Hstep Hsrc) as Hnext.
        destruct Hnext as (_ & _ & _ & _ & _ & Hs & _); [done|lia|by rewrite Hfb|done|lia|done|].
        cbn [set_pos toOffset] in Hs. lia.
    + destruct Hres' as (j' & Hstb' & Hj' & Hrb & Hfb' & Hotb' & Hokb' & Hpcb & Hsrcb & Hendb & Hhitb).
      rewrite length_reverse in Hj'.
      assert (in_step (bufcur k') (bufcur kb') l bl) as Hstep'
        by (apply (in_step_next (bufcur k) (bufcur kb)); done || lia).
      destruct (IH k' kb' i' j') as (m & r & Hm & Hrun & Hiff); try done; [lia|lia|].
      exists m, r. split; [lia|]. split; [done|].
      specialize (Hhitb m ltac:(lia)).
      pose proof (f_equal (λ o, bool_decide (o ≠ None)) Hhitb) as Hhb. cbv beta in Hhb.
      rewrite !is_hit_offset in Hhb. rewrite Hh, Hhb, Hiff. done.
Qed.
End scan_both.

Lemma ContainsBytes_answers b pat :
  searchable b → pat ≠ [] →
  ∃ r, ContainsBytes (Some b) pat = Done r ∧
    (r = true → occurs pat (contents b)) ∧
    (head_once pat → occurs pat (contents b) → r = true).
Proof.
  intros Hs Hne. unfold ContainsBytes, internalContainsBytes. rewrite scan_guard by apply Hs.
  rewrite (bool_decide_eq_true_2 (pat ≠ [])) by done.
  destruct (decide (contents b = [])) as [Hc|Hc].
  { rewrite bool_decide_eq_false_2 by auto. exists false. split_and!; [done|done|].
    intros _ (l1 & l2 & Heq). rewrite Hc in Heq. destruct l1, pat; done. }
  rewrite bool_decide_eq_true_2 by done. simpl andb. cbv iota.
  destruct (full_range b true Hs Hc) as (c & -> & Hot & Hf & Ht & Hb & Hpos & Hok).
  destruct (full_range b false Hs Hc) as (cb & -> & Hotb & Hfb & Htb & Hbb & _ & Hokb).
  cbn [exec_bind]. assert (0 < length pat)%nat by (destruct pat; [done|simpl; lia]).
  destruct Hs as [Hw Hbl]. pose proof (length_contents b Hw). pose proof (wf_open b Hw).
  destruct (scan_both_spec pat (rounds (Some b)) (newCheckBytes c pat) (newCheckBytes cb pat) 0 0
    (contents b) (len (bytes b))) as (m & r & Hm & -> & Hiff); cbn [newCheckBytes bufcur]; try done.
  - apply in_state_start.
  - apply in_state_start.
  - unfold in_step. rewrite Hf, Ht, Hfb, Htb, Hb, Hbb. split_and!; try done; [by left|lia].
  - lia.
  - unfold asc_pieces, rounds. rewrite Hf, Ht, Hb, Z.div_0_l by lia. repeat zcase; lia.
  - exists r. cbn [newCheckBytes bufcur] in Hm, Hiff. rewrite Hf, Htb, sub_full in Hiff.
    split_and!; [done| |].
    + intros Hr. apply Hiff in Hr as [Hr|Hr].
      * destruct (run _ _ 0 (contents b)) eqn:E; [|done..]. by eapply ends_at_occurs, fwd_hit_ends.
      * destruct (run _ _ 0 (reverse _)) eqn:E; [|done..].
        apply (bwd_hit_prefix pat) in E as [[k Hk] _]; [|done].
        set (s := sub (contents b) m (len (contents b))) in *.
        exists (take (Z.to_nat m) (contents b) ++ take (length s - 1 - p) s), k.
        rewrite <- app_assoc, <- Hk, take_drop. subst s. rewrite sub_to_end by lia.
        by rewrite take_drop.
    + intros Hh Ho. apply Hiff. left. pose proof (fwd_first_at pat (contents b) Hh Hne) as Hr.
      by destruct (run _ _ 0 (contents b)).
Qed.

(** ContainsBytes answers true only for bytes that occur in the content, and
    does answer true for every occurring pattern whose first byte does not come again
    in it, wherever the chunk borders fall. *)
Theorem ContainsBytes_spec b pat :
  searchable b → pat ≠ [] →
  ∃ r, ContainsBytes (Some b) pat = Done r ∧
    (r = true → occurs pat (contents b)) ∧
    (head_once pat → occurs pat (contents b) → r = true).
Proof. apply ContainsBytes_answers. Qed.

(** A pattern of one byte is found at the byte read first. *)
Lemma bwd_run_single x l :
  match run (bwd_step [x]) 1 0 l with
  | Hit p => ∀ q, (q < p)%nat → l !! q ≠ Some x
  | _ => x ∉ l
  end.
Proof.
  induction l as [|b l IH]; simpl; [apply not_elem_of_nil|].
  destruct (decide (Some x = Some b)) as [[= ->]|Hne].
  - rewrite decide_True by done. lia.
  - rewrite decide_False by done. destruct (run _ _ 0 l) as [p| |j]; simpl.
    + intros [|q] Hq; simpl; [congruence|]. apply IH. lia.
    + rewrite not_elem_of_cons. split; congruence.
    + rewrite not_elem_of_cons. split; congruence.
Qed.

(** LastIndexOfBytes answers -1 or the offset of an occurrence of the bytes, and
    for a single byte the offset of its last occurrence, -1 when there is none. *)
Theorem LastIndexOfBytes_spec b pat :
  searchable b → pat ≠ [] →
  ∃ r, LastIndexOfBytes (Some b) pat = Done r ∧
    (r = -1 ∨ 0 ≤ r ∧ pat `prefix_of` drop (Z.to_nat r) (contents b)) ∧
    ∀ x, pat = [x] →
      (r = -1 → x ∉ contents b) ∧
      (r ≠ -1 → ∀ s, (Z.to_nat r < s)%nat → contents b !! s ≠ Some x).
Proof.
  intros Hs Hne. unfold LastIndexOfBytes, internalLastIndexOfBytes.
  destruct (decide (contents b = [])) as [Hc|Hc].
  { unfold internalScan. rewrite scan_guard by apply Hs. rewrite Hc, (bool_decide_eq_false_2 ([] ≠ [])) by auto.
    rewrite andb_false_r. exists (-1). split_and!; [done|by left|].
    intros x _. split; [intros _; apply not_elem_of_nil|done]. }
  rewrite (internalScan_desc b pat (λ p, run (bwd_step p) (length p)) _ 0)
    by (done || apply run_appends || apply foundReverse_implements).
  cbn [exec_bind]. destruct (run _ _ 0 _) as [p| |j] eqn:E; cbn [hit_offset default from_option].
  - destruct (bwd_hit_prefix _ _ _ Hne E) as [Hpre Hp].
    exists (len (contents b) - 1 - Z.of_nat p + 0). split_and!; [done|right; split; [lia|]|].
    + by replace (Z.to_nat (len (contents b) - 1 - Z.of_nat p + 0)) with (length (contents b) - 1 - p)%nat by lia.
    + intros x ->. split; [lia|]. intros _ s Hs' Hx.
      pose proof (bwd_run_single x (reverse (contents b))) as H1.
      change (reverse [x]) with [x] in E. change (length [x]) with 1%nat in E. rewrite E in H1.
      apply lookup_lt_Some in Hx as Hlt. apply (H1 (length (contents b) - S s)%nat); [lia|].
      apply reverse_lookup_Some. rewrite <- Hx. split; [f_equal; lia|lia].
  - exfalso. by eapply (run_total (bwd_step (reverse pat))), E.
  - exists (-1). split_and!; [done|by left|]. intros x ->. split; [|done]. intros _ Hx.
    pose proof (bwd_run_single x (reverse (contents b))) as H1.
    change (reverse [x]) with [x] in E. change (length [x]) with 1%nat in E. rewrite E in H1.
    by apply H1, elem_of_reverse.
Qed.

(** ** Reading through a cursor *)

Definition cursor_holds (c : bufferCursor) (bl : Z) (bs : list Z) : Prop :=
  ∃ l, on_text c l bl ∧ asc_ok c bl ∧ bs = lastBytes c ++ sub l (fromOffset c) (toOffset c).

Lemma cursor_Read_loop_spec fuel c bl bs pl p :
  cursor_holds c bl bs → 0 ≤ pl - len p < Z.of_nat fuel →
  ∃ c', cursor_Read_loop fuel c pl p =
      Done (p ++ take (Z.to_nat (pl - len p)) bs, if len bs <? pl - len p then Some EOF else None, c') ∧
    cursor_holds c' bl (drop (Z.to_nat (pl - len p)) bs).
Proof.
  revert c bs p. induction fuel as [|fuel IH]; intros c bs p Hh Hf; [lia|]. cbn [cursor_Read_loop].
  destruct (Z.ltb_spec (len p) pl) as [Hlt|Hge].
  2:{ assert (pl - len p = 0) as -> by lia. zsimp. rewrite app_nil_r. eauto. }
  assert (∃ c1, (if len (lastBytes c) =? 0 then
      let* '(bts, lst, c1) := nextBytes c in Done (set_lastBytes c1 bts lst) else Done c) = Done c1 ∧
    cursor_holds c1 bl bs ∧ (len (lastBytes c1) = 0 → bs = [])) as (c1 & -> & Hh1 & Hnil).
  { destruct Hh as (l & Hot & Hok & Hbs).
    destruct (Z.eqb_spec (len (lastBytes c)) 0) as [Hz|Hz]; [|exists c; split; [done|split; [by exists l|lia]]].
    assert (lastBytes c = []) as Hl0 by (destruct (lastBytes c); [done|simpl in Hz; lia]).
    rewrite Hl0 in Hbs. simpl in Hbs.
    destruct (decide (fromOffset c < toOffset c)) as [Hft|Hft].
    - destruct (nextBytes_asc_spec _ _ _ Hot Hok Hft)
        as (bts & c' & -> & Hlb & Hfrom & Hto & Hcur & Hsrc & Hbts & Hot' & Hok' & _).
      pose proof (ot_range _ _ _ Hot'). pose proof (ot_range _ _ _ Hot).
      cbn [exec_bind]. eexists; split; [done|]. split; [|simpl; lia]. exists l. split_and!; [..|simpl].
      + split; apply Hot'.
      + exact Hok'.
      + rewrite Hbs, Hbts, Hto, sub_app by lia. done.
    - assert (fromOffset c = toOffset c) as He by (pose proof (ot_range _ _ _ Hot); lia).
      rewrite (nextBytes_end c He). cbn [exec_bind]. eexists; split; [done|].
      rewrite He, sub_nil in Hbs. subst bs. split; [|done]. exists l. split_and!; [..|simpl].
      + split; apply Hot.
      + exact Hok.
      + by rewrite He, sub_nil. }
  cbn [exec_bind]. destruct (Z.eqb_spec (len (lastBytes c1)) 0) as [Hz|Hz].
  - rewrite (Hnil Hz) in *. simpl. rewrite take_nil, app_nil_r. zsimp. eexists; split; [done|].
    by rewrite drop_nil.
  - set (cpn := Z.min (pl - len p) (len (lastBytes c1))). rewrite slice_ok by lia. cbn [exec_bind].
    destruct Hh1 as (l & Hot & Hok & Hbs). rewrite sub_to_end, sub_from_0 by lia.
    set (c2 := set_lastBytes c1 _ _).
    assert (len (take (Z.to_nat cpn) (lastBytes c1)) = cpn) as Hlt' by (rewrite length_take; lia).
    destruct (IH c2 (drop (Z.to_nat cpn) bs) (p ++ take (Z.to_nat cpn) (lastBytes c1)))
      as (c' & -> & Hh').
    + exists l. split_and!; [split; apply Hot|exact Hok|]. simpl. rewrite Hbs.
      rewrite drop_app_le by lia. done.
    + rewrite length_app. lia.
    + rewrite length_app, Nat2Z.inj_add, Hlt' in *.
      assert (take (Z.to_nat cpn) (lastBytes c1) = take (Z.to_nat cpn) bs) as Ht
        by (rewrite Hbs, take_app_le by lia; done).
      rewrite Ht. exists c'. split.
      * assert (take (Z.to_nat cpn) bs ++ take (Z.to_nat (pl - (len p + cpn))) (drop (Z.to_nat cpn) bs) =
          take (Z.to_nat (pl - len p)) bs) as Ha.
        { rewrite <- (take_drop (Z.to_nat cpn) (take (Z.to_nat (pl - len p)) bs)).
          rewrite take_take, skipn_firstn_comm. f_equal; f_equal; lia. }
        rewrite <- app_assoc, Ha, length_drop. assert (cpn ≤ len bs) by (rewrite Hbs, length_app; lia).
        destruct (Z.ltb_spec (len bs) (pl - len p)); zsimp; done.
      * rewrite drop_drop in Hh'. by replace (Z.to_nat (pl - len p)) with
          (Z.to_nat cpn + Z.to_nat (pl - (len p + cpn)))%nat by lia.
Qed.

(** Reading [pl] bytes through a cursor over a range that ends at the end of a
    chunk or in the open chunk fills the slice with the next bytes of the range, and
    reports the end exactly when fewer were left. *)
Theorem cursor_Read_spec b from to c pl fuel :
  searchable b → 0 ≤ from < to → to ≤ len (contents b) → from mod len (bytes b) ≠ len (bytes b) - 1 →
  (len (buffer b) * len (bytes b) ≤ to ∨ to mod len (bytes b) = 0) →
  newBufferCursor (Some b) true [from; to] = Done c → 0 ≤ pl < Z.of_nat fuel →
  ∃ c', cursor_Read fuel c pl =
    Done (take (Z.to_nat pl) (sub (contents b) from to), if to - from <? pl then Some EOF else None, c').
Proof.
  intros [Hw Hbl] Hft Hto Hmod Hend Hc Hf.
  destruct (cursor_range b true from to Hw Hbl Hft Hto) as (c0 & Hc0 & Hot & Ha & Hfr & Ht & Hb & Hlb & _).
  rewrite Hc0 in Hc. injection Hc as <-.
  destruct (cursor_Read_loop_spec fuel c0 (len (bytes b)) (sub (contents b) from to) pl []) as (c' & Hr & _).
  - exists (contents b). split; [done|]. rewrite Hlb, Hfr, Ht. split; [|done].
    unfold asc_ok. by rewrite Ha, Hfr, Ht, Hb.
  - simpl. lia.
  - exists c'. unfold cursor_Read. rewrite Hr. cbn [length]. rewrite Z.sub_0_r, length_sub by lia. done.
Qed.

(** ** Where the searches and the cursor miss *)

(** A buffer whose content is in its open chunk. *)
Definition open_buffer (bs : list Z) : Buffer :=
  MkBuffer [] (bs ++ replicate 8 0) (len bs) true false 0 (-1) (-1) None.

(** An occurrence that overlaps a match given up is not seen: aab in aaab forwards,
    ab in abb backwards; and a match at the start looks like none. *)
Example Contains_misses : ContainsBytes (Some (open_buffer [97; 97; 97; 98])) [97; 97; 98] = Done false.
Proof. reflexivity. Qed.

Example LastIndexOf_misses : LastIndexOfBytes (Some (open_buffer [97; 98; 98])) [97; 98] = Done (-1).
Proof. reflexivity. Qed.

Example IndexOf_at_start : IndexOfBytes (Some (open_buffer [97; 98; 99])) [97] = Done (-1).
Proof. reflexivity. Qed.

(** Chunks of four bytes: a range that ends inside a chunk reads the wrong bytes, one
    that starts at the last byte of a chunk reads the next chunk's. *)
Definition chunked_buffer : Buffer :=
  MkBuffer [[1; 2; 3; 4]; [5; 6; 7; 8]] [9; 0; 0; 0] 1 true false 0 (-1) (-1) None.

Example cursor_inside_chunk :
  (let* c := newBufferCursor (Some chunked_buffer) true [0; 1] in
   let* '(bts, _, _) := nextBytes c in Done bts) = Done [1; 2; 3].
Proof. reflexivity. Qed.

Example cursor_last_byte :
  (let* c := newBufferCursor (Some chunked_buffer) true [3; 9] in
   let* '(bts, _, _) := nextBytes c in Done bts) = Done [8].
Proof. reflexivity. Qed.

#[export] Instance searchable_dec b : Decision (searchable b).
Proof.
  refine (cast_if (decide ((lck b = true ∧ 0 ≤ bytesi b < len (bytes b)) ∧
    Forall (λ c, length c = length (bytes b)) (buffer b) ∧ 2 ≤ len (bytes b)))).
  - abstract (destruct_and!; split; [split; done|done]).
  - abstract (intros [[? ? ?] ?]; naive_solver).
Defined.

Definition head_onceb (pat : list Z) : bool :=
  match pat with [] => true | x :: p => bool_decide (x ∉ p) end.

Lemma head_onceb_once pat : head_onceb pat = true → head_once pat.
Proof.
  intros H i Hi. destruct pat as [|x p]; [by right|]. destruct i as [|i]; [lia|]. left. simpl.
  apply bool_decide_eq_true in H. intros Hx. apply H. by eapply list_elem_of_lookup_2.
Qed.

(** Applications at a concrete buffer. *)
Lemma HasPrefixBytes_spec_witness :
  searchable chunked_buffer ∧ HasPrefixBytes (Some chunked_buffer) [1; 2; 3; 4; 5] = Done true.
Proof.
  split; [by apply (bool_decide_unpack (searchable chunked_buffer))|].
  rewrite (HasPrefixBytes_spec chunked_buffer [1; 2; 3; 4; 5]); [reflexivity|].
  by apply (bool_decide_unpack (searchable chunked_buffer)).
Defined.

Lemma HasSuffixBytes_spec_witness :
  searchable chunked_buffer ∧ HasSuffixBytes (Some chunked_buffer) [4; 5; 6; 7; 8; 9] = Done true.
Proof.
  split; [by apply (bool_decide_unpack (searchable chunked_buffer))|].
  rewrite (HasSuffixBytes_spec chunked_buffer [4; 5; 6; 7; 8; 9]); [reflexivity|].
  by apply (bool_decide_unpack (searchable chunked_buffer)).
Defined.

Lemma IndexOfBytes_spec_witness :
  IndexOfBytes (Some chunked_buffer) [4; 5] = Done 2 ∧
  ∃ r, IndexOfBytes (Some chunked_buffer) [4; 5] = Done r ∧
    ((∃ s, first_at [4; 5] (contents chunked_buffer) s ∧ r = Z.of_nat s - 1) ∨
     (¬ occurs [4; 5] (contents chunked_buffer) ∧ r = -1)).
Proof.
  split; [reflexivity|]. apply (IndexOfBytes_spec chunked_buffer [4; 5]); [|by apply head_onceb_once|done].
  by apply (bool_decide_unpack (searchable chunked_buffer)).
Defined.

Lemma ContainsBytes_spec_witness :
  ContainsBytes (Some chunked_buffer) [8; 9] = Done true ∧
  ∃ r, ContainsBytes (Some chunked_buffer) [8; 9] = Done r ∧
    (r = true → occurs [8; 9] (contents chunked_buffer)) ∧
    (head_once [8; 9] → occurs [8; 9] (contents chunked_buffer) → r = true).
Proof.
  split; [reflexivity|]. apply (ContainsBytes_spec chunked_buffer [8; 9]); [|done].
  by apply (bool_decide_unpack (searchable chunked_buffer)).
Defined.

Lemma LastIndexOfBytes_spec_witness :
  LastIndexOfBytes (Some chunked_buffer) [6] = Done 5 ∧
  ∃ r, LastIndexOfBytes (Some chunked_buffer) [6] = Done r ∧
    (r = -1 ∨ 0 ≤ r ∧ [6] `prefix_of` drop (Z.to_nat r) (contents chunked_buffer)) ∧
    ∀ x, [6] = [x] →
      (r = -1 → x ∉ contents chunked_buffer) ∧
      (r ≠ -1 → ∀ s, (Z.to_nat r < s)%nat → contents chunked_buffer !! s ≠ Some x).
Proof.
  split; [reflexivity|]. apply (LastIndexOfBytes_spec chunked_buffer [6]); [|done].
  by apply (bool_decide_unpack (searchable chunked_buffer)).
Defined.

Lemma cursor_Read_spec_witness :
  ∃ c, newBufferCursor (Some chunked_buffer) true [2; 8] = Done c ∧
  ∃ c', cursor_Read 6 c 5 = Done ([3; 4; 5; 6; 7], None, c').
Proof.
  eexists; split; [reflexivity|].
  destruct (cursor_Read_spec chunked_buffer 2 8 _ 5 6 ltac:(by apply (bool_decide_unpack (searchable chunked_buffer)))
    ltac:(lia) ltac:(simpl; lia) ltac:(done) ltac:(by left) ltac:(reflexivity) ltac:(lia)) as (c' & Hr).
  by exists c'.
Defined.
