(* ===== verification/BuffReader.v ===== *)
(** [BuffReader] of src/ioext/buffer.go: the reader over a range of a buffer.  It
    reads bytes through a [bufferCursor] and runes through a bufio.Reader over
    itself, can be limited to [MaxRead] bytes, and can be moved.

    The reader's buffer is its own copy of the state of the buffer it reads: a
    buffer that is written while it is read is not modelled.  [Disposed] is recorded
    as whether it is set and how often it was called.  A context is live, cancelled,
    or done with another error. *)

From S2P Require Import Prelude Runes Readers RuneReaders Buffer BufferCursor.

Inductive context := NoContext | Live | Canceled | Expired (code : Z).

Record BuffReader := MkBuffReader {
  rbuffer : option Buffer;
  rnr : option bufio;
  MaxRead : Z;
  ctx : context;
  rcur : option bufferCursor;
  rbytes : list Z;
  rbytesi : Z;
  Disposed : bool;
  disposed_calls : nat;
  Options : option (list (list Z * list Z));
  DisposeBuffer : bool;
  DisposeReader : bool }.

Definition set_rnr (r : BuffReader) (b : option bufio) : BuffReader :=
  MkBuffReader (rbuffer r) b (MaxRead r) (ctx r) (rcur r) (rbytes r) (rbytesi r) (Disposed r)
    (disposed_calls r) (Options r) (DisposeBuffer r) (DisposeReader r).

Definition set_read (r : BuffReader) (maxread : Z) (cur : option bufferCursor) (bs : list Z) (i : Z)
  : BuffReader :=
  MkBuffReader (rbuffer r) (rnr r) maxread (ctx r) cur bs i (Disposed r) (disposed_calls r)
    (Options r) (DisposeBuffer r) (DisposeReader r).

(** [Buffer.Reader(args...)]: the context, the dispose flag and the offsets it finds
    among its arguments. *)
Definition reader_offsets (buff : option Buffer) (offset : list Z) : list Z :=
  if (len offset =? 0) && (0 <? Size buff) then [0; Size buff]
  else if (len offset =? 1) && (0 <? Size buff) then offset ++ [Size buff]
  else offset.

Definition Reader (buff : option Buffer) (cx : context) (disposeBuffer : bool) (offset : list Z)
  : exec (option BuffReader) :=
  if Empty buff then Done None
  else
    let* c := newBufferCursor buff true (reader_offsets buff offset) in
    Done (Some (MkBuffReader buff None (-1) cx (Some c) [] 0 false 0 (Some []) disposeBuffer false)).

Definition DisposeEOFReader (o : option BuffReader) : option BuffReader :=
  match o with
  | None => None
  | Some r => Some (MkBuffReader (rbuffer r) (rnr r) (MaxRead r) (ctx r) (rcur r) (rbytes r) (rbytesi r)
      (Disposed r) (disposed_calls r) (Options r) (DisposeBuffer r) true)
  end.

Definition SetMaxRead (o : option BuffReader) (maxlen : Z) : option BuffReader :=
  match o with
  | None => None
  | Some r => Some (set_read r (if maxlen <? 0 then -1 else maxlen) (rcur r) (rbytes r) (rbytesi r))
  end.

Definition Close (o : option BuffReader) : option BuffReader :=
  match o with
  | None => None
  | Some r =>
    let buf_open := bool_decide (rbuffer r ≠ None) in
    Some (MkBuffReader None None (MaxRead r) (ctx r) None [] (rbytesi r) false
      (disposed_calls r + if Disposed r then 1 else 0) None
      (if buf_open then false else DisposeBuffer r) false)
  end.

(** What closing a reader does to the buffer it was made for. *)
Definition Close_buffer (o : option BuffReader) : option Buffer :=
  match o with
  | Some r => if DisposeBuffer r then Buffer.Close (rbuffer r) else rbuffer r
  | None => None
  end.

(** ** Read *)

Definition nextReaderBytes (r : BuffReader) : exec (list Z * bool * BuffReader) :=
  match rcur r with
  | Some c =>
    let* '(bts, lst, c') := nextBytes c in
    Done (bts, lst, set_read r (MaxRead r) (Some c') (rbytes r) (rbytesi r))
  | None => Done ([], true, r)
  end.

Definition may_read (r : BuffReader) : bool := (0 <? MaxRead r) || (MaxRead r =? -1).

(** [for n < pl && bufr.rbytesi < rbtsl]: p is the slice being filled. *)
Fixpoint copy_out (fuel : nat) (pl rbtsl : Z) (p : list Z) (n : Z) (r : BuffReader)
  : exec (list Z * Z * BuffReader) :=
  match fuel with
  | O => NoFuel
  | S fuel' =>
    if (n <? pl) && (rbytesi r <? rbtsl) then
      let* src := slice (rbytes r) 0 rbtsl in
      let* '(p', cl, n', i') := copyBytes p n src (rbytesi r) in
      let mr := if (0 <? cl) && (0 <? MaxRead r) then
                  (if MaxRead r - cl <? 0 then 0 else MaxRead r - cl) else MaxRead r in
      copy_out fuel' pl rbtsl p' n' (set_read r mr (rcur r) (rbytes r) i')
    else Done (p, n, r)
  end.

(** Where the copy stops: [MaxRead] may be less than what is left of the piece. *)
Definition read_end (r : BuffReader) : Z :=
  let rbtsl := len (rbytes r) in
  if 0 <? MaxRead r then
    let ln := rbtsl - rbytesi r in
    let rl := if MaxRead r <? ln then MaxRead r else ln in
    if rl + rbytesi r <? rbtsl then rl + rbytesi r else rbtsl
  else rbtsl.

Fixpoint fill_out (fuel : nat) (pl : Z) (p : list Z) (n : Z) (r : BuffReader)
  : exec (list Z * Z * BuffReader) :=
  match fuel with
  | O => NoFuel
  | S fuel' =>
    if may_read r && (n <? pl) && (rbytesi r <? len (rbytes r)) then
      let* '(p', n', r') := copy_out fuel pl (read_end r) p n r in
      fill_out fuel' pl p' n' r'
    else Done (p, n, r)
  end.

(** The outer loop: the next piece when there is none, else bytes of it. *)
Fixpoint Read_loop (fuel : nat) (pl : Z) (p : list Z) (n : Z) (r : BuffReader)
  : exec (list Z * Z * BuffReader) :=
  match fuel with
  | O => NoFuel
  | S fuel' =>
    if (n <? pl) && may_read r then
      if (len (rbytes r) =? 0) || ((0 <? len (rbytes r)) && (len (rbytes r) =? rbytesi r)) then
        match rcur r with
        | None => Panic
        | Some _ =>
          let* '(bts, btslst, r1) := nextReaderBytes r in
          if 0 <? len bts then
            Read_loop fuel' pl p n (set_read r1 (MaxRead r1) (rcur r1) bts 0)
          else if (btslst : bool) then Done (p, n, r1)
          else Read_loop fuel' pl p n r1
        end
      else
        let* '(p', n', r') := fill_out 2 pl p n r in
        Read_loop fuel' pl p' n' r'
    else Done (p, n, r)
  end.

(** [Read(p)] for a [p] of [pl] bytes: the bytes read. *)
Definition Read (o : option BuffReader) (pl : Z) : exec (list Z * option goerr * option BuffReader) :=
  match o with
  | None => Done ([], Some EOF, None)
  | Some r =>
    if 0 <? pl then
      match ctx r with
      | Canceled => Done ([], Some EOF, Close o)
      | Expired e => Done ([], Some (OtherErr e), Close o)
      | _ =>
        let* '(p, n, r') :=
          if may_read r then
            Read_loop (2 + 2 * Z.to_nat pl) pl (replicate (Z.to_nat pl) 0) 0 r
          else Done ([], 0, r) in
        if n =? 0 then
          Done ([], Some EOF, if DisposeBuffer r' || DisposeReader r' then Close (Some r') else Some r')
        else let* bs := slice p 0 n in Done (bs, None, Some r')
      end
    else Done ([], Some EOF, o)
  end.

#[export] Instance BuffReader_Read : ByteReader (option BuffReader) := Read.

(** ** Runes: a bufio.Reader over the reader itself *)

(** Run an operation of the bufio.Reader, made when there is none; when a read
    closed the reader its bufio.Reader is gone, as is its cursor. *)
Definition with_rnr {A} (r : BuffReader) (op : bufio → option BuffReader → exec (A * bufio * option BuffReader))
  : exec (A * option BuffReader) :=
  let b := default bufio_new (rnr r) in
  let* '(x, b', o') := op b (Some (set_rnr r (Some b))) in
  Done (x, match o' with
           | Some r' => Some (match rcur r' with Some _ => set_rnr r' (Some b') | None => r' end)
           | None => None
           end).

Definition ReadRune (o : option BuffReader) : exec (Z * Z * option goerr * option BuffReader) :=
  match o with
  | Some r =>
    match rcur r with
    | Some _ =>
      with_rnr r (λ b s, let* '(x, n, e, b', s') := bufio_ReadRune 4096 b s in Done (x, n, e, b', s'))
    | None => Done (0, 0, Some EOF, o)
    end
  | None => Done (0, 0, Some EOF, o)
  end.

#[export] Instance BuffReader_ReadRune : RuneReader (option BuffReader) := ReadRune.

(** [ReadRunes(p)] for a [p] of [pl] runes. *)
Definition ReadRunes (fuel : nat) (o : option BuffReader) (pl : Z)
  : exec (list Z * option goerr * option BuffReader) :=
  match o with
  | Some r =>
    match rcur r with
    | Some _ =>
      with_rnr r (λ b s, let* '(p, e, (b', s')) := Readers.ReadRunes fuel pl (b, s) in Done (p, e, b', s'))
    | None => Done ([], Some EOF, o)
    end
  | None => Done ([], Some EOF, o)
  end.

Definition Readln (fuel : nat) (o : option BuffReader) := ReadLine fuel false o.

(** [n] bounds the lines, [fuel] the runes of each. *)
Fixpoint Readlines_loop (n fuel : nat) (o : option BuffReader) (lines : list (list Z))
  : exec (list (list Z) * option BuffReader) :=
  match n with
  | O => NoFuel
  | S n' =>
    let* '(ln, lnerr, o') := Readln fuel o in
    match lnerr with
    | None => Readlines_loop n' fuel o' (if 0 <? len ln then lines ++ [ln] else lines)
    | Some _ => Done (lines, o')
    end
  end.

Definition Readlines (fuel : nat) (o : option BuffReader) : exec (list (list Z) * option BuffReader) :=
  Readlines_loop fuel fuel o [].

Definition ReadAll (fuel : nat) (o : option BuffReader) := ReaderToString fuel o.

(** ** CanRead, WriteTo *)

(** [bufio.Reader.Peek(2)]: whether two bytes are there; the read error is taken. *)
Fixpoint bufio_peek2 (fuel : nat) (b : bufio) (s : option BuffReader) : exec (bool * bufio * option BuffReader) :=
  match fuel with
  | O => NoFuel
  | S fuel' =>
    if (len (bb_buf b) <? 2) && bool_decide (bb_err b = None) then
      let* '(b', s') := bufio_fill 100 4096 b s in bufio_peek2 fuel' b' s'
    else if len (bb_buf b) <? 2 then Done (false, Bufio (bb_buf b) None, s)
    else Done (true, b, s)
  end.

Definition CanRead (o : option BuffReader) : exec (bool * option BuffReader) :=
  match o with
  | None => Done (false, None)
  | Some r =>
    match rnr r with
    | Some b =>
      if 0 <? len (bb_buf b) then Done (true, o)
      else with_rnr r (λ b s, bufio_peek2 4 b s)
    | None =>
      Done (match rcur r with Some c => fromOffset c <? toOffset c | None => false end, o)
    end
  end.

(** [bufio.Reader.Read(p)] for a [p] of [n] bytes: the bytes buffered, or one read of
    the source, which goes to [p] itself when [p] is as large as the buffer. *)
Definition bufio_Read (cap : Z) (b : bufio) (s : option BuffReader) (n : Z)
  : exec (list Z * option goerr * bufio * option BuffReader) :=
  if 0 <? len (bb_buf b) then
    Done (take (Z.to_nat n) (bb_buf b), None, Bufio (drop (Z.to_nat n) (bb_buf b)) (bb_err b), s)
  else
    match bb_err b with
    | Some e => Done ([], Some e, Bufio [] None, s)
    | None =>
      if cap <=? n then
        let* '(bs, err, s') := Read s n in Done (bs, err, Bufio [] None, s')
      else
        let* '(bs, err, s') := Read s cap in
        if len bs =? 0 then Done ([], err, Bufio [] None, s')
        else Done (take (Z.to_nat n) bs, None, Bufio (drop (Z.to_nat n) bs) err, s')
    end.

Section write_to.
Context {W : Type} `{!ByteWriter W}.

(** The inner loop hands [p] to the writer until it is all taken. *)
Fixpoint write_all (fuel : nat) (w : W) (p : list Z) : exec (option goerr * W) :=
  match fuel with
  | O => NoFuel
  | S fuel' =>
    if 0 <? len p then
      let* '(wn, wnerr, w') := write_to w p in
      let p' := if 0 <? wn then drop (Z.to_nat wn) p else p in
      match wnerr with
      | Some e => Done (Some e, w')
      | None => if wn =? 0 then Done (None, w') else write_all fuel' w' p'
      end
    else Done (None, w)
  end.

(** The source of a WriteTo: the bufio.Reader when the reader has one. *)
Definition read_4096 (via : bool) (b : bufio) (o : option BuffReader)
  : exec (list Z * option goerr * bufio * option BuffReader) :=
  if via then bufio_Read 4096 b o 4096
  else let* '(p, err, o') := Read o 4096 in Done (p, err, b, o').

Fixpoint WriteTo_loop (fuel : nat) (via : bool) (b : bufio) (o : option BuffReader) (w : W) (n : Z)
  : exec (Z * option goerr * bufio * option BuffReader * W) :=
  match fuel with
  | O => NoFuel
  | S fuel' =>
    let* '(p, pnerr, b', o') := read_4096 via b o in
    let* '(werr, w') := if 0 <? len p then write_all (S (length p)) w p else Done (None, w) in
    let n' := n + len p in
    match (match werr with Some e => Some e | None => pnerr end) with
    | Some e => Done (n', Some e, b', o', w')
    | None => if len p =? 0 then Done (n', Some EOF, b', o', w') else WriteTo_loop fuel' via b' o' w' n'
    end
  end.

Definition WriteTo (fuel : nat) (o : option BuffReader) (w : W)
  : exec (Z * option goerr * option BuffReader * W) :=
  match o with
  | None => Done (0, None, None, w)
  | Some r =>
    let via := bool_decide (rnr r ≠ None) in
    let* '(n, err, b, o', w') := WriteTo_loop fuel via (default bufio_new (rnr r)) o w 0 in
    Done (n, err, match o' with
                  | Some r' => Some (match rnr r', rcur r' with
                                     | Some _, Some _ => set_rnr r' (Some b)
                                     | _, _ => r'
                                     end)
                  | None => None
                  end, w')
  end.
End write_to.

(** ** Seek *)

Definition Seek (o : option BuffReader) (offset whence : Z) : exec (Z * option BuffReader) :=
  match o with
  | None => Done (-1, None)
  | Some r =>
    match rbuffer r with
    | None => Done (-1, o)
    | Some _ =>
      let bufs := Size (rbuffer r) in
      (** [adjustOffsetRead]: the cursor starts again at [n]; the bufio.Reader is
          emptied.  The piece being read is not. *)
      let adjust n :=
        let* cur' := match rcur r with
          | Some c => let* c' := reset c (rbuffer r) true [n; bufs] in Done (Some c')
          | None => Done None
          end in
        let r1 := set_read r (MaxRead r) cur' (rbytes r) (rbytesi r) in
        Done (n, Some (match rnr r1 with Some _ => set_rnr r1 (Some bufio_new) | None => r1 end)) in
      if 0 <? bufs then
        let rajust := if 0 <? rbytesi r then rbytesi r else 0 in
        if whence =? 0 then
          if (0 <=? offset) && (offset <? bufs) then adjust offset else Done (-1, o)
        else if whence =? 1 then
          match rcur r with
          | None => Panic
          | Some c =>
            if (-1 <=? curOffset c - rajust) && (curOffset c - rajust + offset <? bufs) then
              adjust (if curOffset c =? -1 then curOffset c + 1 + offset else curOffset c - rajust + offset)
            else Done (-1, o)
          end
        else if whence =? 2 then
          if (0 <=? bufs - offset) && (bufs - offset <=? bufs) then adjust (bufs - offset) else Done (-1, o)
        else Done (-1, o)
      else Done (-1, o)
    end
  end.

(** [Reset]: the cursor is reset when there is none, which does nothing. *)
Definition Reset (o : option BuffReader) : option BuffReader :=
  match o with
  | None => None
  | Some r => Some (set_read r (-1) (rcur r) [] 0)
  end.

(** ** SubString *)

(** Runes are read into a buffer of 1024 until [offs] reaches [offe]: the offsets
    count runes here, while Seek counts bytes. *)
Fixpoint SubString_loop (fuel : nat) (o : option BuffReader) (offs offe : Z) (s rns : list Z)
  : exec (list Z * option BuffReader) :=
  match fuel with
  | O => NoFuel
  | S fuel' =>
    let* '(r, rs, rerr, o') := ReadRune o in
    let '(s', rns') := if 0 <? rs then push_rune 1024 r s rns else (s, rns) in
    match rerr with
    | Some _ => Done (s' ++ rns', o')
    | None => if offe <=? offs + 1 then Done (s' ++ rns', o')
              else SubString_loop fuel' o' (offs + 1) offe s' rns'
    end
  end.

(** The end offset SubString adds to a lone start offset. *)
Definition substring_offsets (r : BuffReader) (sl : Z) (offset : list Z) : exec (list Z * Z) :=
  if len offset mod 2 =? 1 then
    let* last := index offset (len offset - 1) in
    if 0 <=? last then
      if 0 <? MaxRead r then
        let '(offset1, mr) := if sl <? last + MaxRead r then (offset ++ [last + (sl - last)], sl - last)
                              else (offset, MaxRead r) in
        let* last1 := index offset1 (len offset1 - 1) in
        Done (offset1 ++ [last1 + mr], mr)
      else Done (offset ++ [if 0 <? last + sl then sl else last + sl], MaxRead r)
    else Done (offset, MaxRead r)
  else Done (offset, MaxRead r).

Definition SubString (fuel : nat) (o : option BuffReader) (offset : list Z)
  : exec (list Z * option BuffReader) :=
  match o with
  | None => Done ([], None)
  | Some r =>
    match rbuffer r with
    | None => Done ([], o)
    | Some _ =>
      let sl := Size (rbuffer r) in
      if sl =? 0 then Done ([], o)
      else
        let* '(offset1, mr) := substring_offsets r sl offset in
        let r1 := set_read r mr (rcur r) (rbytes r) (rbytesi r) in
        if (0 <? len offset1) && (len offset1 mod 2 =? 0) then
          let* o0 := index offset1 0 in
          let* o1 := index offset1 1 in
          let offs := if o0 =? -1 then 0 else o0 in
          let offe := if o1 =? -1 then sl - 1 else o1 in
          if (offs <=? sl) && (offe <=? sl) then
            let* '(_, o2) := Seek (Some r1) offs 0 in
            SubString_loop fuel o2 offs offe [] []
          else Done ([], Some r1)
        else Done ([], Some r1)
    end
  end.

(** [RuneAt]: the first byte of the UTF-8 of the string at the offset. *)
Definition RuneAt (fuel : nat) (o : option BuffReader) (offset : Z) : exec (Z * option BuffReader) :=
  let* '(s, o') := SubString fuel o [offset; offset] in
  Done (match encode_all s with b :: _ => b | [] => -1 end, o').

(** ** ForEachRunes *)

(** The loop of the callback over pieces of [bufsize] runes: [ri] is the position in
    the round, [rns] the array, [lstri] the last position filled.  A read of nothing
    that reports the end leaves [err] as it is.  The loop gives [inl] the error of the
    callback, which is returned at once, or [inr] the error it is left with. *)
Section foreach.
Context {T : Type} (foreachrnsfunc : list Z → T → option goerr * T) (bufsize : Z).

Fixpoint ForEachRunes_loop (fuel : nat) (o : option BuffReader) (t : T) (ri lstri : Z) (rns : list Z)
    (err : option goerr) : exec ((goerr + goerr) * option BuffReader * T) :=
  match fuel with
  | O => NoFuel
  | S fuel' =>
    if ri <? bufsize then
      let* '(r, size, rerr, o') := ReadRune o in
      if 0 <? size then
        let* _ := slice rns ri (ri + 1) in
        let rns' := blit rns ri [r] in
        let '(err1, t1, lstri1) :=
          if ri =? bufsize - 1 then let '(e, t') := foreachrnsfunc rns' t in (e, t', -1) else (err, t, ri) in
        match (if ri =? bufsize - 1 then err1 else None) with
        | Some e => Done (inl e, o', t1)
        | None =>
          match rerr with
          | Some e =>
            if -1 <? lstri1 then
              let* p := slice rns' 0 (lstri1 + 1) in
              let '(e2, t2) := foreachrnsfunc p t1 in
              match e2 with
              | Some e' => Done (inl e', o', t2)
              | None => Done (inr e, o', t2)
              end
            else Done (inr e, o', t1)
          | None => ForEachRunes_loop fuel' o' t1 (ri + 1) lstri1 rns' err
          end
        end
      else ForEachRunes_loop fuel' o' t (ri + 1) lstri rns (match rerr with None => Some EOF | Some _ => err end)
    else
      match err with
      | Some e => Done (inr e, o, t)
      | None => ForEachRunes_loop fuel' o t 0 lstri rns err
      end
  end.

Definition ForEachRunes (fuel : nat) (o : option BuffReader) (t : T) (offsets : list Z)
  : exec (option goerr * option BuffReader * T) :=
  match o with
  | None => Done (None, None, t)
  | Some _ =>
    if 0 <? len offsets then
      let* o0 := index offsets 0 in
      let* '(_, o1) := Seek o o0 0 in
      let* o2 :=
        if 1 <? len offsets then
          let* e := index offsets 1 in
          Done (if 0 <? e + 1 - o0 then
                  match o1 with
                  | Some r => Some (set_read r (e + 1 - o0) (rcur r) (rbytes r) (rbytesi r))
                  | None => None
                  end else o1)
        else Done o1 in
      if bufsize <? 0 then Panic
      else
        let* '(err, o3, t') := ForEachRunes_loop fuel o2 t 0 (-1) (replicate (Z.to_nat bufsize) 0) None in
        Done (match err with
              | inl e => Some e
              | inr e => if bool_decide (e = EOF) then None else Some e
              end, o3, t')
    else Done (None, o, t)
  end.
End foreach.

(** ** Searching through a reader *)

(** [ByteIndex]: over the bytes of a piece; the state is the offset of the last byte
    seen, the bytes matched and the last byte that matched. *)
Fixpoint index_piece (bs : list Z) (bts : list Z) (toffset bsi prvb : Z)
  : exec (option Z * (Z * Z * Z)) :=
  match bts with
  | [] => Done (None, (toffset, bsi, prvb))
  | bt :: bts' =>
    let toffset := toffset + 1 in
    let* '(bsi, prvb) :=
      if 0 <? bsi then
        let* a := index bs (bsi - 1) in
        let* b := index bs bsi in
        Done (if (a =? prvb) && negb (b =? bt) then (0, 0) else (bsi, prvb))
      else Done (bsi, prvb) in
    let* b := index bs bsi in
    if b =? bt then
      if bsi + 1 =? len bs then Done (Some (toffset - len bs), (toffset, bsi + 1, prvb))
      else index_piece bs bts' toffset (bsi + 1) bt
    else index_piece bs bts' toffset (if 0 <? bsi then 0 else bsi) prvb
  end.

(** The chunks: an index of -1, of a match at the start, does not end the loop. *)
Fixpoint index_pieces (bs : list Z) (pieces : list (list Z)) (st : Z * Z * Z)
  : exec (Z * (Z * Z * Z)) :=
  match pieces with
  | [] => Done (-1, st)
  | p :: ps =>
    let '(toffset, bsi, prvb) := st in
    let* '(found, st') := index_piece bs p toffset bsi prvb in
    let i := default (-1) found in
    if -1 <? i then Done (i, st') else index_pieces bs ps st'
  end.

Definition ByteIndex (o : option BuffReader) (bs : list Z) : exec Z :=
  match o with
  | Some r =>
    match rbuffer r with
    | Some b =>
      if 0 <? len bs then
        let* '(i, st) := index_pieces bs (buffer b) (-1, 0, 0) in
        if (i =? -1) && (0 <? bytesi b) then
          let* tail := slice (bytes b) 0 (bytesi b) in
          let* '(i', _) := index_pieces bs [tail] st in Done i'
        else Done i
      else Done (-1)
    | None => Done (-1)
    end
  | None => Done (-1)
  end.

Definition Index (o : option BuffReader) (s : list Z) : exec Z :=
  match o with
  | None => Done (-1)
  | Some _ => if bool_decide (s = []) then Done (-1) else ByteIndex o s
  end.

(** [LastByteIndexWithinOffsets]: the offsets it is given are not used.  [count_at]
    is called with each byte of a piece from its end; [every] says whether each byte
    is counted in [toffset], as in the open chunk, or only the piece, as in the
    chunks, whose bytes are taken from the open chunk. *)
Fixpoint last_index_piece (every : bool) (bs arr : list Z) (size : Z) (bti : nat) (toffset bsi prvb : Z)
  : exec (option Z * (Z * Z * Z)) :=
  match bti with
  | O => Done (None, (toffset, bsi, prvb))
  | S bti' =>
    let toffset := if every then toffset + 1 else toffset in
    let* bt := index arr (Z.of_nat bti') in
    let* '(bsi, prvb) :=
      if 0 <? bsi then
        let* a := index bs (bsi - 1) in
        let* b := index bs bsi in
        Done (if (a =? prvb) && negb (b =? bt) then (0, 0) else (bsi, prvb))
      else Done (bsi, prvb) in
    let* b := index bs bsi in
    if b =? bt then
      if bsi + 1 =? len bs then Done (Some (size - (toffset + len bs)), (toffset + len bs, bsi + 1, prvb))
      else last_index_piece every bs arr size bti' toffset (bsi + 1) bt
    else last_index_piece every bs arr size bti' toffset (if 0 <? bsi then 0 else bsi) prvb
  end.

Fixpoint last_index_chunks (bs arr : list Z) (size : Z) (rev_chunks : list (list Z)) (st : Z * Z * Z)
  : exec Z :=
  match rev_chunks with
  | [] => Done (-1)
  | bf :: rest =>
    let '(toffset, bsi, prvb) := st in
    let* '(found, st') := last_index_piece false bs arr size (length bf) (toffset + 1) bsi prvb in
    let i := default (-1) found in
    if -1 <? i then Done i else last_index_chunks bs arr size rest st'
  end.

Definition LastByteIndexWithinOffsets (o : option BuffReader) (startoffset endoffset : Z) (bs : list Z)
  : exec Z :=
  match o with
  | Some r =>
    match rbuffer r with
    | Some b =>
      let size := Size (Some b) in
      if (0 <? len bs) && (0 <? size) then
        let rbs := reverse bs in
        let* '(found, st) :=
          if 0 <? bytesi b then last_index_piece true rbs (bytes b) size (Z.to_nat (bytesi b)) 0 0 0
          else Done (None, (0, 0, 0)) in
        let i := default (-1) found in
        if (i =? -1) && (0 <? len (buffer b)) then
          last_index_chunks rbs (bytes b) size (reverse (buffer b)) st
        else Done i
      else Done (-1)
    | None => Done (-1)
    end
  | None => Done (-1)
  end.

Definition LastIndex (o : option BuffReader) (s : list Z) (offset : list Z) : exec Z :=
  match o with
  | None => Done (-1)
  | Some _ =>
    if bool_decide (s = []) then Done (-1)
    else
      match offset with
      | [a; b] => LastByteIndexWithinOffsets o a b s
      | [a] => LastByteIndexWithinOffsets o (-1) a s
      | _ => LastByteIndexWithinOffsets o (-1) (-1) s
      end
  end.

(** ** SubBuffer: a new buffer read from a range of this one *)

Definition SubBuffer (fuel : nat) (buff : option Buffer) (offsets : list Z) : exec Buffer :=
  let subbf := empty_buffer chunk_size in
  match buff with
  | None => Done subbf
  | Some _ =>
    if 0 <? len offsets then
      let* o0 := index offsets 0 in
      let bfs := Size buff in
      if (o0 <? bfs) && (-1 <? o0) then
        let offsets1 := if len offsets =? 1 then offsets ++ [bfs] else offsets in
        let* o1 := index offsets1 1 in
        if (o0 <? bfs) && (o1 <=? bfs) then
          let* rd := Reader buff NoContext false (if 0 <=? o1 then [o0; o1] else [o0]) in
          let* '(_, _, b, _) := ReadFrom fuel subbf 0 rd in Done b
        else Done subbf
      else Done subbf
    else Done subbf
  end.

(** * Theory *)

(** ** What a reader still has to deliver *)

Definition limit (maxread : Z) (bs : list Z) : list Z :=
  if maxread =? -1 then bs else take (Z.to_nat maxread) bs.

(** An open reader: the rest of the piece, then the rest of the range, up to
    [MaxRead] bytes. *)
Definition reader_holds (o : option BuffReader) (bs : list Z) : Prop :=
  ∃ r c l bl, o = Some r ∧ rcur r = Some c ∧ on_text c l bl ∧ asc_ok c bl ∧
    0 ≤ rbytesi r ≤ len (rbytes r) ∧ -1 ≤ MaxRead r ∧
    (ctx r = NoContext ∨ ctx r = Live) ∧ DisposeBuffer r = false ∧ DisposeReader r = false ∧
    bs = limit (MaxRead r) (drop (Z.to_nat (rbytesi r)) (rbytes r) ++ sub l (fromOffset c) (toOffset c)).

(** A reader between two reads: [bs] is what it holds ignoring [MaxRead], [fl] says
    whether it closes its buffer and itself at the end. *)
Section ready.
Context (fl : bool * bool).

Record ready (r : BuffReader) (bs : list Z) : Prop := {
  rd_cur : ∃ c l bl, rcur r = Some c ∧ on_text c l bl ∧ asc_ok c bl ∧
    bs = drop (Z.to_nat (rbytesi r)) (rbytes r) ++ sub l (fromOffset c) (toOffset c);
  rd_pos : 0 ≤ rbytesi r ≤ len (rbytes r);
  rd_max : -1 ≤ MaxRead r;
  rd_ctx : ctx r = NoContext ∨ ctx r = Live;
  rd_keep : DisposeBuffer r = fl.1 ∧ DisposeReader r = fl.2 }.

Lemma may_read_spec r bs : ready r bs → may_read r = negb (MaxRead r =? 0).
Proof. intros [_ _ Hm _ _]. unfold may_read. repeat zcase; simpl; done || lia. Qed.

(** Moving over [k] bytes of the piece. *)
Definition advanced (r : BuffReader) (k : Z) : BuffReader :=
  set_read r (if 0 <? MaxRead r then MaxRead r - k else MaxRead r) (rcur r) (rbytes r) (rbytesi r + k).

Lemma advanced_ready r bs k :
  ready r bs → 0 ≤ k → rbytesi r + k ≤ len (rbytes r) → (0 < MaxRead r → k ≤ MaxRead r) →
  ready (advanced r k) (drop (Z.to_nat k) bs).
Proof.
  intros [(c & l & bl & Hc & Hot & Hok & ->) Hi Hm Hx Hd] Hk Hle Hmx.
  split; unfold advanced; simpl; try done.
  - exists c, l, bl. split_and!; try done. rewrite drop_app_le by (rewrite length_drop; lia).
    rewrite drop_drop. f_equal. f_equal. lia.
  - lia.
  - destruct (Z.ltb_spec 0 (MaxRead r)); lia.
Qed.

(** The bytes copied in one go. *)
Definition chunk_of (r : BuffReader) (pl n : Z) : Z :=
  Z.min (pl - n) (if 0 <? MaxRead r then Z.min (MaxRead r) (len (rbytes r) - rbytesi r)
                  else len (rbytes r) - rbytesi r).

Lemma read_end_spec r :
  0 ≤ rbytesi r ≤ len (rbytes r) →
  read_end r = rbytesi r + (if 0 <? MaxRead r then Z.min (MaxRead r) (len (rbytes r) - rbytesi r)
                            else len (rbytes r) - rbytesi r).
Proof.
  intros Hi. unfold read_end. cbv zeta. destruct (Z.ltb_spec 0 (MaxRead r)); [|lia].
  destruct (Z.ltb_spec (MaxRead r) (len (rbytes r) - rbytesi r)); zcase; lia.
Qed.

Lemma copy_out_spec r bs pl p n :
  ready r bs → len p = pl → 0 ≤ n < pl → MaxRead r ≠ 0 → rbytesi r < len (rbytes r) →
  let k := chunk_of r pl n in
  copy_out 2 pl (read_end r) p n r = Done (blit p n (take (Z.to_nat k) bs), n + k, advanced r k) ∧
  0 < k ≤ len bs ∧ k ≤ pl - n ∧ rbytesi r + k ≤ len (rbytes r) ∧ (0 < MaxRead r → k ≤ MaxRead r).
Proof.
  intros Hr Hp Hn Hm0 Hlt k. pose proof (rd_pos _ _ Hr) as Hi. pose proof (rd_max _ _ Hr) as Hm.
  destruct (rd_cur _ _ Hr) as (c & l & bl & _ & _ & _ & Hbs).
  assert (0 < k ∧ k ≤ pl - n ∧ rbytesi r + k ≤ len (rbytes r) ∧ (0 < MaxRead r → k ≤ MaxRead r)) as (Hk & Hkn & Hki & Hkm)
    by (subst k; unfold chunk_of; destruct (Z.ltb_spec 0 (MaxRead r)); lia).
  assert (k ≤ len bs) as Hkb by (rewrite Hbs, length_app, length_drop; lia).
  split; [|lia]. rewrite read_end_spec by lia.
  set (lim := if 0 <? MaxRead r then _ else _).
  assert (k = Z.min (pl - n) lim ∧ 0 < lim ≤ len (rbytes r) - rbytesi r) as [Hkl Hlim]
    by (subst k lim; unfold chunk_of; destruct (Z.ltb_spec 0 (MaxRead r)); lia).
  cbn [copy_out]. zsimp. rewrite slice_ok by lia. cbn [exec_bind].
  rewrite sub_from_0. assert (len (take (Z.to_nat (rbytesi r + lim)) (rbytes r)) = rbytesi r + lim) as Htl
    by (rewrite length_take; lia).
  rewrite copyBytes_spec by lia. cbv zeta. rewrite Htl, Hp.
  replace (Z.min (pl - n) (rbytesi r + lim - rbytesi r)) with k by lia. zsimp. cbn [exec_bind].
  assert (sub (take (Z.to_nat (rbytesi r + lim)) (rbytes r)) (rbytesi r) (rbytesi r + k) = take (Z.to_nat k) bs) as ->.
  { unfold sub. rewrite Hbs, take_app_le by (rewrite length_drop; lia).
    rewrite skipn_firstn_comm, take_take. f_equal. lia. }
  cbn [copy_out set_read rbytesi]. replace ((n + k <? pl) && (rbytesi r + k <? rbytesi r + lim)) with false
    by (symmetry; apply andb_false_iff; rewrite !Z.ltb_ge; lia).
  unfold advanced. destruct (Z.ltb_spec 0 (MaxRead r)); simpl; zsimp; reflexivity.
Qed.

Lemma fill_out_spec r bs pl p n :
  ready r bs → len p = pl → 0 ≤ n < pl → MaxRead r ≠ 0 → rbytesi r < len (rbytes r) →
  let k := chunk_of r pl n in
  fill_out 2 pl p n r = Done (blit p n (take (Z.to_nat k) bs), n + k, advanced r k).
Proof.
  intros Hr Hp Hn Hm0 Hlt k. pose proof (copy_out_spec r bs pl p n Hr Hp Hn Hm0 Hlt) as (Hc & Hk & Hkn & Hki & Hkm).
  fold k in Hc, Hk, Hkn, Hki, Hkm. pose proof (rd_pos _ _ Hr). pose proof (rd_max _ _ Hr).
  cbn [fill_out]. rewrite (may_read_spec r bs Hr). zsimp. rewrite Hc. cbn [exec_bind fill_out].
  assert (may_read (advanced r k) && (n + k <? pl) && (rbytesi (advanced r k) <? len (rbytes (advanced r k))) = false) as ->; [|done].
  rewrite (may_read_spec _ _ (advanced_ready r bs k Hr ltac:(lia) Hki Hkm)).
  cbn [advanced set_read rbytesi rbytes MaxRead]. subst k. unfold chunk_of in *.
  destruct (Z.ltb_spec 0 (MaxRead r)); repeat zcase; simpl; try done; lia.
Qed.

(** Fetching the next piece keeps what the reader holds. *)
Lemma nextReaderBytes_spec r bs :
  ready r bs → rbytesi r = len (rbytes r) →
  ∃ bts lst r1, nextReaderBytes r = Done (bts, lst, r1) ∧ MaxRead r1 = MaxRead r ∧
    if 0 <? len bts then
      ready (set_read r1 (MaxRead r1) (rcur r1) bts 0) bs
    else lst = true ∧ bs = [] ∧ ready r1 bs.
Proof.
  intros [(c & l & bl & Hc & Hot & Hok & Hbs) Hi Hm Hx Hd] Hend. unfold nextReaderBytes. rewrite Hc.
  rewrite drop_ge in Hbs by lia. simpl in Hbs.
  destruct (decide (fromOffset c < toOffset c)) as [Hlt|Hge].
  - destruct (nextBytes_asc_spec _ _ _ Hot Hok Hlt)
      as (bts & c' & -> & Hlb & Hfrom & Hto & Hcur & Hsrc & Hbts & Hot' & Hok' & _).
    cbn [exec_bind]. eexists _, _, _; split; [done|]. split; [done|]. zsimp.
    split; simpl; try done; [|lia]. exists c', l, bl. split_and!; try done.
    pose proof (ot_range _ _ _ Hot). pose proof (ot_range _ _ _ Hot').
    rewrite Hbs, Hbts, Hto, drop_0, sub_app by lia. done.
  - assert (fromOffset c = toOffset c) as He by (pose proof (ot_range _ _ _ Hot); lia).
    rewrite (nextBytes_end c He). cbn [exec_bind]. eexists _, _, _; split; [done|]. split; [done|].
    rewrite He, sub_nil in Hbs. subst bs. split_and!; [done|done|].
    split; simpl; try done. exists c, l, bl. split_and!; try done.
    rewrite drop_ge by lia. by rewrite He, sub_nil.
Qed.

Lemma limit_length m bs : 0 ≤ m → len (limit m bs) = Z.min m (len bs).
Proof. intros. unfold limit. zsimp. rewrite length_take. lia. Qed.

(** The outer loop fills the slice with what the reader holds. *)
Lemma Read_loop_spec fuel r bs pl p n :
  ready r bs → len p = pl → 0 ≤ n ≤ pl →
  2 * (pl - n) + (if rbytesi r =? len (rbytes r) then 1 else 0) < Z.of_nat fuel →
  ∃ p' r' bs', Read_loop fuel pl p n r =
      Done (p', n + Z.min (pl - n) (len (limit (MaxRead r) bs)), r') ∧
    ready r' bs' ∧ len p' = pl ∧
    take (Z.to_nat (n + Z.min (pl - n) (len (limit (MaxRead r) bs)))) p' =
      take (Z.to_nat n) p ++ take (Z.to_nat (pl - n)) (limit (MaxRead r) bs) ∧
    limit (MaxRead r') bs' = drop (Z.to_nat (pl - n)) (limit (MaxRead r) bs).
Proof.
  revert r bs p n. induction fuel as [|fuel IH]; intros r bs p n Hr Hp Hn Hf.
  { destruct (rbytesi r =? len (rbytes r)); lia. }
  cbn [Read_loop]. rewrite (may_read_spec r bs Hr). pose proof (rd_max _ _ Hr).
  destruct (Z.ltb_spec n pl) as [Hlt|Hge].
  2:{ assert (n = pl) as -> by lia. simpl. exists p, r, bs.
      rewrite Z.sub_diag, Z.min_l by lia. simpl. rewrite app_nil_r, Z.add_0_r. done. }
  destruct (Z.eqb_spec (MaxRead r) 0) as [Hz|Hnz].
  { simpl. exists p, r, bs. rewrite Hz. assert (limit 0 bs = []) as -> by done.
    rewrite take_nil, drop_nil, app_nil_r. simpl. rewrite Z.min_r, Z.add_0_r by lia.
    done. }
  simpl andb. cbv iota. pose proof (rd_pos _ _ Hr) as Hi.
  destruct (Z.eqb_spec (rbytesi r) (len (rbytes r))) as [Hend|Hmore].
  - assert ((len (rbytes r) =? 0) || ((0 <? len (rbytes r)) && (len (rbytes r) =? rbytesi r)) = true) as ->
      by (rewrite Hend, Z.eqb_refl; repeat zcase; simpl; done || lia).
    destruct (rd_cur _ _ Hr) as (c & l & bl & Hc & _). rewrite Hc.
    destruct (nextReaderBytes_spec r bs Hr Hend) as (bts & lst & r1 & -> & Hmr & Hres). cbn [exec_bind].
    destruct (Z.ltb_spec 0 (len bts)).
    + destruct (IH _ bs p n Hres Hp Hn) as (p' & r' & bs' & Heq & Hr' & Hp' & Htk & Hlim).
      { cbn [set_read rbytes rbytesi]. zsimp. lia. }
      exists p', r', bs'. cbn [set_read MaxRead] in *. rewrite Hmr in *. done.
    + destruct Hres as (-> & -> & Hr1). exists p, r1, []. unfold limit.
      replace (if MaxRead r =? -1 then [] else take (Z.to_nat (MaxRead r)) []) with (@nil Z)
        by (rewrite take_nil; by case_match).
      rewrite !take_nil, drop_nil, app_nil_r. simpl. rewrite Z.min_r, Z.add_0_r by lia.
      split_and!; try done. by case_match.
  - assert ((len (rbytes r) =? 0) || ((0 <? len (rbytes r)) && (len (rbytes r) =? rbytesi r)) = false) as ->
      by (repeat zcase; simpl; done || lia).
    rewrite (fill_out_spec r bs) by (done || lia). cbn [exec_bind].
    destruct (copy_out_spec r bs pl p n Hr Hp ltac:(lia) Hnz ltac:(lia)) as (_ & Hk & Hkn & Hki & Hkm).
    set (k := chunk_of r pl n) in *.
    assert (len (take (Z.to_nat k) bs) = k) as Htk by (rewrite length_take; lia).
    assert (length (blit p n (take (Z.to_nat k) bs)) = length p) as Hbl by (apply length_blit; lia).
    destruct (IH (advanced r k) (drop (Z.to_nat k) bs) (blit p n (take (Z.to_nat k) bs)) (n + k))
      as (p' & r' & bs' & Heq & Hr' & Hp' & Htake & Hlim).
    { apply advanced_ready; done || lia. } { lia. } { lia. }
    { cbn [advanced set_read rbytes rbytesi]. zcase; lia. }
    assert (limit (MaxRead (advanced r k)) (drop (Z.to_nat k) bs) =
            drop (Z.to_nat k) (limit (MaxRead r) bs)) as Hla.
    { cbn [advanced set_read MaxRead]. unfold limit. destruct (Z.ltb_spec 0 (MaxRead r)).
      - zsimp. rewrite skipn_firstn_comm. f_equal. lia.
      - assert (MaxRead r = -1) as -> by lia. done. }
    assert (k ≤ len (limit (MaxRead r) bs)) as Hkl.
    { unfold limit. destruct (Z.eqb_spec (MaxRead r) (-1)); [lia|]. rewrite length_take. lia. }
    rewrite Hla, length_drop in *.
    assert (take (Z.to_nat k) bs = take (Z.to_nat k) (limit (MaxRead r) bs)) as Htl.
    { unfold limit. destruct (Z.eqb_spec (MaxRead r) (-1)); [done|]. rewrite take_take. f_equal. lia. }
    exists p', r', bs'. rewrite Heq. split_and!; [|done|done| |].
    + do 3 f_equal. lia.
    + replace (n + Z.min (pl - n) (len (limit (MaxRead r) bs))) with
        (n + k + Z.min (pl - (n + k)) (Z.of_nat (length (limit (MaxRead r) bs) - Z.to_nat k))) by lia.
      rewrite Htake. pose proof (take_blit p n (take (Z.to_nat k) bs) ltac:(lia) ltac:(lia)) as Hb.
      rewrite Htk in Hb. rewrite Hb, <- app_assoc, Htl. f_equal.
      rewrite <- (take_drop (Z.to_nat k) (take (Z.to_nat (pl - n)) (limit (MaxRead r) bs))).
      rewrite take_take, skipn_firstn_comm. f_equal; f_equal; lia.
    + rewrite Hlim, drop_drop. f_equal. lia.
Qed.

End ready.

Lemma reader_holds_ready o bs :
  reader_holds o bs ↔ ∃ r bs', o = Some r ∧ ready (false, false) r bs' ∧ bs = limit (MaxRead r) bs'.
Proof.
  split.
  - intros (r & c & l & bl & -> & Hc & Hot & Hok & Hi & Hm & Hx & Hd1 & Hd2 & ->).
    eexists _, _; split; [done|]. split; [|done]. split; try done. eauto 10.
  - intros (r & bs' & -> & [(c & l & bl & Hc & Hot & Hok & ->) Hi Hm Hx [Hd1 Hd2]] & ->).
    exists r, c, l, bl. split_and!; done || lia.
Qed.

(** A read takes as many bytes as there are; the end is a read of none, at which the
    reader closes itself when it was made to. *)
Lemma Read_ready fl r bs' pl :
  ready fl r bs' → 0 < pl →
  let bs := limit (MaxRead r) bs' in
  ∃ r' bs'', Read (Some r) pl =
      Done (take (Z.to_nat pl) bs, if decide (bs = []) then Some EOF else None,
            if bool_decide (bs = []) && (fl.1 || fl.2) then Close (Some r') else Some r') ∧
    ready fl r' bs'' ∧ limit (MaxRead r') bs'' = drop (Z.to_nat pl) bs.
Proof.
  intros Hr Hpl bs. unfold Read. zsimp.
  assert (∃ p' r' bs'', (if may_read r then Read_loop (2 + 2 * Z.to_nat pl) pl (replicate (Z.to_nat pl) 0) 0 r
      else Done ([], 0, r)) = Done (p', Z.min pl (len bs), r') ∧
    ready fl r' bs'' ∧ Z.min pl (len bs) ≤ len p' ∧
    take (Z.to_nat (Z.min pl (len bs))) p' = take (Z.to_nat pl) bs ∧
    limit (MaxRead r') bs'' = drop (Z.to_nat pl) bs)
    as (p' & r' & bs'' & Heq & Hr' & Hlen & Htk & Hlim).
  { rewrite (may_read_spec fl r bs' Hr). subst bs. destruct (Z.eqb_spec (MaxRead r) 0) as [Hz|Hnz]; simpl negb; cbv iota.
    - exists [], r, bs'. rewrite Hz. assert (limit 0 bs' = []) as -> by done.
      rewrite drop_nil. simpl length. rewrite Z.min_r by lia. rewrite !take_nil. split_and!; try done; try lia.
    - destruct (Read_loop_spec fl (2 + 2 * Z.to_nat pl) r bs' pl (replicate (Z.to_nat pl) 0) 0)
        as (p' & r' & bs'' & Heq & Hr' & Hp' & Htk & Hlim);
        [done|rewrite length_replicate; lia|lia|destruct (rbytesi r =? len (rbytes r)); lia|].
      rewrite Z.sub_0_r, Z.add_0_l in *. exists p', r', bs''. rewrite Heq, Hlim.
      split_and!; [done|done|lia|exact Htk|done]. }
  exists r', bs''. split; [|done]. rewrite Heq.
  destruct (rd_keep _ _ _ Hr') as [Hk1 Hk2]. cbn [exec_bind]. rewrite Hk1, Hk2.
  assert ((if Z.min pl (len bs) =? 0 then Done ([], Some EOF, if fl.1 || fl.2 then Close (Some r') else Some r')
           else let* bs := slice p' 0 (Z.min pl (len bs)) in Done (bs, None, Some r')) =
          Done (take (Z.to_nat pl) bs, if decide (bs = []) then Some EOF else None,
                if bool_decide (bs = []) && (fl.1 || fl.2) then Close (Some r') else Some r')) as ->;
    [|by destruct (rd_ctx _ _ _ Hr) as [-> | ->]].
  destruct (decide (bs = [])) as [He|He].
  - rewrite bool_decide_eq_true_2, He by done. simpl length. rewrite Z.min_r by lia. simpl. by rewrite take_nil.
  - rewrite bool_decide_eq_false_2 by done. assert (0 < len bs) by (destruct bs; [done|simpl; lia]).
    zsimp. rewrite slice_ok by lia. cbn [exec_bind]. by rewrite sub_from_0, Htk.
Qed.

Lemma Read_spec o bs pl :
  reader_holds o bs → 0 < pl →
  ∃ o', Read o pl = Done (take (Z.to_nat pl) bs, if decide (bs = []) then Some EOF else None, o') ∧
    reader_holds o' (drop (Z.to_nat pl) bs).
Proof.
  intros Hh Hpl. apply reader_holds_ready in Hh as (r & bs' & -> & Hr & ->).
  destruct (Read_ready (false, false) r bs' pl Hr Hpl) as (r' & bs'' & -> & Hr' & Hlim).
  rewrite andb_false_r. eexists; split; [done|]. apply reader_holds_ready. eauto.
Qed.

#[export] Instance BuffReader_ByteSource : ByteSource (option BuffReader).
Proof.
  refine {| bpending := reader_holds |}.
  - intros o bs n Hh Hne Hn. destruct (Read_spec o bs n Hh Hn) as (o' & Hr & Hh').
    rewrite decide_False in Hr by done. unfold read_bytes, BuffReader_Read.
    assert (0 < length bs)%nat by (destruct bs; [done|simpl; lia]).
    exists (Nat.min (Z.to_nat n) (length bs)), o'.
    destruct (Nat.min_spec (Z.to_nat n) (length bs)) as [[? ->]|[? ->]].
    + split_and!; [done|lia|lia|lia|done].
    + rewrite !take_ge in * by lia. rewrite !drop_ge in * by lia. split_and!; [done|lia|lia|lia|done].
  - intros o n Hh Hn. destruct (Read_spec o [] n Hh Hn) as (o' & Hr & Hh').
    rewrite decide_True in Hr by done. rewrite take_nil in Hr. rewrite drop_nil in Hh'.
    exists o'. split; done.
Defined.

(** ** The reader as a source of runes *)

(** What is left to be read as runes: the bytes of the bufio.Reader, then those the
    reader holds. *)
Definition rune_bytes (o : option BuffReader) (bs : list Z) : Prop :=
  ∃ r, o = Some r ∧ bufio_bytes (default bufio_new (rnr r)) o bs.

Lemma reader_holds_rnr r b bs : reader_holds (Some r) bs ↔ reader_holds (Some (set_rnr r b)) bs.
Proof.
  split; intros (r' & c & l & bl & Heq & H); injection Heq as <-.
  - exists (set_rnr r b), c, l, bl. split; [done|exact H].
  - exists r, c, l, bl. split; [done|exact H].
Qed.

Lemma bufio_bytes_rnr b r b' bs :
  bufio_bytes b (Some r) bs ↔ bufio_bytes b (Some (set_rnr r b')) bs.
Proof.
  split; intros (rest & Hp & H); exists rest; (split; [|done]); simpl in *; by apply (reader_holds_rnr r b').
Qed.

Lemma reader_holds_some o bs : reader_holds o bs → ∃ r c, o = Some r ∧ rcur r = Some c.
Proof. intros (r & c & _ & _ & -> & Hc & _). eauto. Qed.

(** An operation of the bufio.Reader through [with_rnr]. *)
Lemma with_rnr_bytes {A} r (op : bufio → option BuffReader → exec (A * bufio * option BuffReader)) x bs bs' :
  (∀ b s, bufio_bytes b s bs →
     ∃ b' s', op b s = Done (x, b', s') ∧ bufio_bytes b' s' bs') →
  rune_bytes (Some r) bs →
  ∃ o', with_rnr r op = Done (x, o') ∧ rune_bytes o' bs'.
Proof.
  intros Hop (r0 & [= <-] & Hb). unfold with_rnr.
  apply (bufio_bytes_rnr _ r (Some (default bufio_new (rnr r)))) in Hb.
  destruct (Hop _ _ Hb) as (b' & s' & -> & Hb'). cbn [exec_bind].
  pose proof Hb' as (rest & Hp & _). destruct (reader_holds_some s' rest Hp) as (r' & c & -> & Hc).
  rewrite Hc. eexists; split; [done|]. eexists; split; [done|]. by apply bufio_bytes_rnr.
Qed.

Lemma rune_bytes_some o bs : rune_bytes o bs → ∃ r c, o = Some r ∧ rcur r = Some c.
Proof.
  intros (r & -> & rest & Hp & _). destruct (reader_holds_some _ _ Hp) as (r' & c & [= <-] & Hc). eauto.
Qed.

Lemma ReadRune_spec o bs :
  rune_bytes o bs →
  ∃ o',
    (bs ≠ [] ∧ ReadRune o = Done ((utf8.DecodeRune bs).1, (utf8.DecodeRune bs).2, None, o') ∧
     rune_bytes o' (drop (Z.to_nat (utf8.DecodeRune bs).2) bs)) ∨
    (bs = [] ∧ ReadRune o = Done (0, 0, Some EOF, o') ∧ rune_bytes o' []).
Proof.
  intros Hb. destruct (rune_bytes_some o bs Hb) as (r & c & -> & Hc). unfold ReadRune. rewrite Hc.
  destruct (decide (bs = [])) as [->|Hne].
  - destruct (with_rnr_bytes r
      (λ b s, let* '(x, n, e, b', s') := bufio_ReadRune 4096 b s in Done (x, n, e, b', s'))
      (0, 0, Some EOF) [] []) as (o' & Hr & Ho'); [|done|].
    + intros b s H. destruct (bufio_ReadRune_spec b s [] H) as (b' & s' & [[? _]|(_ & -> & ?)]); [done|].
      simpl. eauto.
    + exists o'. right. eauto.
  - destruct (with_rnr_bytes r
      (λ b s, let* '(x, n, e, b', s') := bufio_ReadRune 4096 b s in Done (x, n, e, b', s'))
      ((utf8.DecodeRune bs).1, (utf8.DecodeRune bs).2, None) bs
      (drop (Z.to_nat (utf8.DecodeRune bs).2) bs)) as (o' & Hr & Ho'); [|done|].
    + intros b s H. destruct (bufio_ReadRune_spec b s bs H) as (b' & s' & [(_ & -> & ?)|[? _]]); [|done].
      simpl. eauto.
    + exists o'. left. eauto.
Qed.

#[export] Instance BuffReader_RuneSource : RuneSource (option BuffReader).
Proof.
  refine {| pending o rs := ∃ bs, rune_bytes o bs ∧ rs = utf8.runes bs |}.
  - intros o r rs (bs & Hb & Hrs).
    destruct (ReadRune_spec o bs Hb) as (o' & [(Hne & Hr & Hb')|(-> & _)]); [|done].
    rewrite runes_nonempty in Hrs by done. injection Hrs as -> ->.
    pose proof (DecodeRune_size bs Hne). unfold read_rune, BuffReader_ReadRune. rewrite Hr.
    eexists _, _; split_and!; [done|lia|]. eauto.
  - intros o (bs & Hb & Hrs). symmetry in Hrs. apply runes_nil in Hrs as ->.
    destruct (ReadRune_spec o [] Hb) as (o' & [(? & _)|(_ & Hr & Hb')]); [done|].
    unfold read_rune, BuffReader_ReadRune. rewrite Hr. eexists _, _; split; [done|]. eauto.
Defined.

(** *** A reader that closes at the end

    A reader made to close its buffer or itself at the end of what it reads delivers
    valid UTF-8 text all the same: its bufio.Reader reads on only for a rune that is
    not whole yet, so that the closing read is the one that finds nothing left. *)
Definition closing_holds (o : option BuffReader) (bs : list Z) : Prop :=
  ∃ fl r bs', o = Some r ∧ ready fl r bs' ∧ bs = limit (MaxRead r) bs'.

Lemma closing_read o bs pl :
  closing_holds o bs → 0 < pl →
  ∃ o', Read o pl = Done (take (Z.to_nat pl) bs, if decide (bs = []) then Some EOF else None, o') ∧
    (if decide (bs = []) then closing_holds o' [] ∨ ∃ r, o' = Some r ∧ rcur r = None
     else closing_holds o' (drop (Z.to_nat pl) bs)).
Proof.
  intros (fl & r & bs' & -> & Hr & ->) Hpl.
  destruct (Read_ready fl r bs' pl Hr Hpl) as (r' & bs'' & -> & Hr' & Hlim).
  eexists; split; [done|]. destruct (decide (limit (MaxRead r) bs' = [])) as [He|He].
  - rewrite bool_decide_eq_true_2, He in * by done. rewrite drop_nil in Hlim. cbn [andb].
    destruct (fl.1 || fl.2); [right; by eexists|left]. exists fl, r', bs''. done.
  - rewrite bool_decide_eq_false_2 by done. exists fl, r', bs''. done.
Qed.

(** Filling goes on until the first rune is whole. *)
Lemma closing_fill fuel b o rest x rs :
  closing_holds o rest → bb_err b = None → bb_buf b ++ rest = encode_all (x :: rs) →
  utf8.ValidRune x = true → 4 - len (bb_buf b) < Z.of_nat fuel → (1 ≤ fuel)%nat →
  ∃ b' o' rest', bufio_fill_rune fuel 4096 b o = Done (b', o') ∧ closing_holds o' rest' ∧
    bb_err b' = None ∧ bb_buf b' ++ rest' = encode_all (x :: rs) ∧ FullRune (bb_buf b') = true.
Proof.
  intros Hh He Hb Hv. revert b o rest Hh He Hb. induction fuel as [|fuel IH]; intros b o rest Hh He Hb Hf Hf1; [lia|].
  cbn [bufio_fill_rune]. unfold needs_fill. rewrite He, bool_decide_eq_true_2, andb_true_r by done.
  destruct (FullRune (bb_buf b)) eqn:EF.
  { rewrite andb_false_r. exists b, o, rest. done. }
  assert (rest ≠ []) as Hne.
  { intros ->. rewrite app_nil_r in Hb. rewrite Hb, encode_all_cons, FullRune_encode in EF by done. done. }
  assert (len (bb_buf b) < 4) as Hlt.
  { destruct (decide (len (bb_buf b) < 4)) as [|Hge]; [done|]. exfalso. revert EF. unfold FullRune.
    destruct (bb_buf b) as [|p0 p]; [cbn in Hge; lia|]. destruct (utf8.first p0) as [[[sz lo] hi]|] eqn:Ef; [|done].
    assert (sz ≤ 4)%nat by (apply first_cases in Ef; lia).
    rewrite (proj2 (Nat.leb_le sz _)) by lia. done. }
  rewrite (proj2 (Z.ltb_lt _ _)), (proj2 (Z.ltb_lt (len (bb_buf b)) 4096)) by lia. cbn [andb negb].
  destruct (closing_read o rest (4096 - len (bb_buf b)) Hh) as (o' & Hr & Ho'); [lia|].
  destruct (decide (rest = [])) as [|_]; [done|].
  assert (0 < len (take (Z.to_nat (4096 - len (bb_buf b))) rest)) as Ht
    by (rewrite length_take; destruct rest; [done|cbn [length]; lia]).
  rewrite (bufio_fill_read _ _ _ _ _ _ _ Hr (or_intror Ht)). cbn [exec_bind].
  destruct (IH (Bufio (bb_buf b ++ take (Z.to_nat (4096 - len (bb_buf b))) rest) (bb_err b)) o'
    (drop (Z.to_nat (4096 - len (bb_buf b))) rest)) as (b' & o'' & rest' & H); [done|done| | |lia|by exists b', o'', rest'].
  - cbn [bb_buf]. by rewrite <- app_assoc, take_drop.
  - cbn [bb_buf]. rewrite length_app. lia.
Qed.

(** What it still delivers: a whole number of runes in its bufio.Reader and its range,
    or nothing once it is closed. *)
Definition closing_pending (o : option BuffReader) (rs : list Z) : Prop :=
  (∃ r c rest, o = Some r ∧ rcur r = Some c ∧ closing_holds o rest ∧ valid_runes rs ∧
     bb_err (default bufio_new (rnr r)) = None ∧ bb_buf (default bufio_new (rnr r)) ++ rest = encode_all rs) ∨
  (rs = [] ∧ ∃ r, o = Some r ∧ rcur r = None).

Lemma closing_rnr r b bs : closing_holds (Some r) bs → closing_holds (Some (set_rnr r b)) bs.
Proof. intros (fl & r' & bs' & [= <-] & Hr & ->). exists fl, (set_rnr r b), bs'. split; [done|]. split; [|done]. destruct Hr; by constructor. Qed.

Lemma closing_cur o bs : closing_holds o bs → ∃ r c, o = Some r ∧ rcur r = Some c.
Proof. intros (fl & r & bs' & -> & [(c & _ & _ & Hc & _)] & _). eauto. Qed.

Lemma closing_closed r : rcur r = None → ReadRune (Some r) = Done (0, 0, Some EOF, Some r).
Proof. intros E. unfold ReadRune. by rewrite E. Qed.

Lemma closing_cons o r rs :
  closing_pending o (r :: rs) →
  ∃ o', ReadRune o = Done (r, utf8.RuneLen r, None, o') ∧ closing_pending o' rs.
Proof.
  intros [(rd & c & rest & -> & Hc & Hh & Hv & He & Hb)|(? & _)]; [|done]. inversion Hv as [|? ? Hr Hv']; subst.
  unfold ReadRune. rewrite Hc. unfold with_rnr. set (b := default bufio_new (rnr rd)) in *.
  apply (closing_rnr rd (Some b)) in Hh.
  destruct (closing_fill 6 b _ rest r rs Hh He Hb Hr) as (b' & o' & rest' & Hf & Hh' & He' & Hb' & Hfull); [lia|lia|].
  unfold bufio_ReadRune. rewrite Hf. cbn [exec_bind].
  assert (bb_buf b' ≠ []) as Hne by (intros E; by rewrite E in Hfull).
  assert (0 < len (bb_buf b')) by (destruct (bb_buf b'); [done|cbn; lia]). zsimp.
  assert (utf8.DecodeRune (bb_buf b') = (r, utf8.RuneLen r)) as Hd.
  { rewrite <- (FullRune_app _ rest' Hfull), Hb', encode_all_cons. by apply DecodeRune_encode. }
  rewrite Hd. cbn [exec_bind]. destruct (closing_cur o' rest' Hh') as (rd' & c' & -> & Hc'). rewrite Hc'.
  eexists; split; [done|]. left. exists (set_rnr rd' (Some (Bufio (drop (Z.to_nat (utf8.RuneLen r)) (bb_buf b')) (bb_err b')))), c', rest'.
  split; [done|]. split; [done|]. split; [by apply closing_rnr|]. split; [done|]. split; [done|].
  cbn [set_rnr rnr from_option bb_buf id]. pose proof (DecodeRune_size (bb_buf b') Hne) as Hsz. rewrite Hd in Hsz. cbn [snd] in Hsz.
  rewrite <- drop_app_le by lia. rewrite Hb'. apply drop_RuneLen_encode.
  done.
Qed.

Lemma closing_nil o :
  closing_pending o [] → ∃ o', ReadRune o = Done (0, 0, Some EOF, o') ∧ closing_pending o' [].
Proof.
  intros [(rd & c & rest & -> & Hc & Hh & _ & He & Hb)|(_ & rd & -> & Hc)].
  - apply app_eq_nil in Hb as [Hb ->]. unfold ReadRune. rewrite Hc. unfold with_rnr.
    set (b := default bufio_new (rnr rd)) in *. apply (closing_rnr rd (Some b)) in Hh.
    unfold bufio_ReadRune. change 6%nat with (S 5). cbn [bufio_fill_rune]. unfold needs_fill. rewrite He, Hb.
    rewrite bool_decide_eq_true_2 by done. cbn [length FullRune negb andb].
    change ((Z.of_nat 0 <? 4) && true && true && (Z.of_nat 0 <? 4096)) with true. cbv iota.
    destruct (closing_read _ [] (4096 - len (bb_buf b)) Hh) as (o' & Hr & Ho'); [rewrite Hb; done|].
    destruct (decide (@nil Z = [])) as [_|]; [|done]. rewrite take_nil in Hr.
    assert (Some EOF ≠ None ∨ 0 < len (@nil Z)) as Hx by (by left).
    rewrite (bufio_fill_read _ _ _ _ _ _ _ Hr Hx). rewrite Hb. cbn [exec_bind app].
    change 5%nat with (S 4). cbn [bufio_fill_rune].
    unfold needs_fill. cbn [bb_buf bb_err]. rewrite bool_decide_eq_false_2 by done. rewrite andb_false_r. cbn [andb].
    cbn [exec_bind bb_buf length]. change (Z.of_nat 0 =? 0) with true. cbv iota. cbn [exec_bind].
    destruct Ho' as [Ho'|(rd' & -> & Hc')].
    + destruct (closing_cur o' [] Ho') as (rd' & c' & -> & Hc'). rewrite Hc'. eexists; split; [done|].
      left. eexists _, c', []. split; [done|]. split; [done|]. split; [by apply closing_rnr|]. done.
    + rewrite Hc'. eexists; split; [done|]. right. eauto.
  - rewrite closing_closed by done. eexists; split; [done|]. right. eauto.
Qed.

Definition BuffReader_closing_source : RuneSource (option BuffReader).
Proof.
  refine {| pending := closing_pending |}.
  - intros o r rs Hp. destruct (closing_cons o r rs Hp) as (o' & Hr & Hp').
    unfold read_rune, BuffReader_ReadRune. rewrite Hr. eexists _, _; split; [done|]. split; [|done].
    destruct Hp as [(rd & c & rest & _ & _ & _ & Hv & _)|[? _]]; [|done]. inversion Hv; subst.
    pose proof (RuneLen_pos r). naive_solver lia.
  - intros o Hp. destruct (closing_nil o Hp) as (o' & Hr & Hp').
    unfold read_rune, BuffReader_ReadRune. rewrite Hr. eexists _, _; split; [done|done].
Defined.

(** [ReadRunes] through the bufio.Reader. *)
Lemma ReadRunes_spec fuel o bs pl :
  rune_bytes o bs → len (utf8.runes bs) < Z.of_nat fuel → 0 < pl →
  ∃ o' bs', ReadRunes fuel o pl =
      Done (take (Z.to_nat pl) (utf8.runes bs), if len (utf8.runes bs) =? 0 then Some EOF else None, o') ∧
    rune_bytes o' bs' ∧ utf8.runes bs' = drop (Z.to_nat pl) (utf8.runes bs).
Proof.
  intros Hb Hf Hpl. destruct (rune_bytes_some o bs Hb) as (r & c & -> & Hc). unfold ReadRunes. rewrite Hc.
  destruct Hb as (r0 & [= <-] & Hb).
  apply (bufio_bytes_rnr _ r (Some (default bufio_new (rnr r)))) in Hb. unfold with_rnr.
  destruct (ReadRunes_source fuel pl
    (default bufio_new (rnr r), Some (set_rnr r (Some (default bufio_new (rnr r))))) (utf8.runes bs))
    as ([b' s'] & -> & bs' & Hb' & Hd); [by exists bs|done|done|]. simpl in Hb'. cbn [exec_bind].
  pose proof Hb' as (rest & Hp & _). destruct (reader_holds_some s' rest Hp) as (r' & c' & -> & Hc').
  rewrite Hc'. eexists _, bs'; split; [done|]. split; [|done].
  eexists; split; [done|]. by apply bufio_bytes_rnr.
Qed.

(** ** A reader for a buffer *)

(** The ranges a cursor reads right. *)
Definition good_range (b : Buffer) (from to : Z) : Prop :=
  0 ≤ from < to ∧ to ≤ len (contents b) ∧ from mod len (bytes b) ≠ len (bytes b) - 1 ∧
  (len (buffer b) * len (bytes b) ≤ to ∨ to mod len (bytes b) = 0).

Lemma good_range_whole b : searchable b → contents b ≠ [] → good_range b 0 (len (contents b)).
Proof.
  intros [Hw Hbl] Hne. assert (0 < len (contents b)) by (destruct (contents b); [done|simpl; lia]).
  pose proof (length_contents b Hw). pose proof (wf_open b Hw).
  unfold good_range. rewrite Z.mod_0_l by lia. lia.
Qed.

Lemma Reader_range b from to :
  searchable b → contents b ≠ [] → good_range b from to →
  ∃ r, Reader (Some b) NoContext false [from; to] = Done (Some r) ∧
    reader_holds (Some r) (sub (contents b) from to) ∧ rnr r = None ∧ rbuffer r = Some b ∧
    MaxRead r = -1 ∧ rbytes r = [] ∧ rbytesi r = 0.
Proof.
  intros [Hw Hbl] Hne (Hft & Hto & Hmod & Hend). unfold Reader.
  rewrite Empty_contents, bool_decide_eq_false_2 by done.
  change (reader_offsets (Some b) [from; to]) with [from; to].
  destruct (cursor_range b true from to Hw Hbl Hft Hto) as (c & -> & Hot & Ha & Hf & Ht & Hb & _).
  cbn [exec_bind]. eexists; split; [done|]. split; [|done].
  eexists _, c, (contents b), (len (bytes b)). split_and!; try done; simpl; try lia.
  - unfold asc_ok. by rewrite Ha, Hf, Ht, Hb.
  - by left.
  - by rewrite Hf, Ht.
Qed.

Lemma Reader_all b :
  searchable b → contents b ≠ [] →
  Reader (Some b) NoContext false [] = Reader (Some b) NoContext false [0; len (contents b)].
Proof.
  intros [Hw Hbl] Hne. unfold Reader, reader_offsets.
  assert (0 < len (contents b)) by (destruct (contents b); [done|simpl; lia]).
  rewrite Size_contents by done. simpl length. zsimp. done.
Qed.

Lemma fresh_rune_bytes r bs :
  reader_holds (Some r) bs → rnr r = None → rune_bytes (Some r) bs.
Proof. intros Hh Hr. exists r. split; [done|]. rewrite Hr. exists bs. simpl. auto. Qed.

(** A reader of the whole buffer that closes it at the end, or does not. *)
Lemma Reader_closing_in cx b d rs :
  cx = NoContext ∨ cx = Live →
  searchable b → contents b = encode_all rs → rs ≠ [] → valid_runes rs →
  ∃ r, Reader (Some b) cx d [] = Done (Some r) ∧ closing_pending (Some r) rs.
Proof.
  intros Hx Hs Hc Hne Hv.
  assert (contents b ≠ []) as Hcne by (rewrite Hc; intros E; apply Hne; by rewrite <- (runes_encode_all rs), E by done).
  destruct Hs as [Hw Hbl].
  assert (0 < len (contents b)) by (destruct (contents b); [done|simpl; lia]).
  unfold Reader. rewrite Empty_contents, bool_decide_eq_false_2 by done. unfold reader_offsets.
  rewrite Size_contents by done. simpl length. zsimp.
  destruct (good_range_whole b (conj Hw Hbl) Hcne) as (Hft & Hto & Hmod & Hend).
  destruct (cursor_range b true 0 (len (contents b)) Hw Hbl Hft Hto) as (c & -> & Hot & Ha & Hf & Ht & Hb & _).
  cbn [exec_bind]. eexists. split; [done|]. left. eexists _, c, (encode_all rs). split; [done|]. split; [done|].
  split; [|done]. eexists (d, false), _, (contents b). split; [done|]. split; [|done].
  split; cbn; [|lia|lia|done|done].
  exists c, (contents b), (len (bytes b)). split_and!; [done|done| |].
  - unfold asc_ok. by rewrite Ha, Hf, Ht, Hb.
  - by rewrite Hf, Ht, sub_full.
Qed.

Lemma Reader_closing b d rs :
  searchable b → contents b = encode_all rs → rs ≠ [] → valid_runes rs →
  ∃ r, Reader (Some b) NoContext d [] = Done (Some r) ∧ closing_pending (Some r) rs.
Proof. apply Reader_closing_in. by left. Qed.

(** C17: what is written to a buffer is what a reader of it reads back: ReadAll of a
    reader of the buffer returns the runes of the content, and for runes written with
    WriteRunes to an empty buffer those runes. *)
Theorem Reader_ReadAll b0 rs fuel :
  searchable b0 → contents b0 = [] → valid_runes rs → rs ≠ [] → len rs < Z.of_nat fuel →
  ∃ b r o', WriteRunes b0 rs = Done (len rs, None, b) ∧
    Reader (Some b) NoContext false [] = Done (Some r) ∧
    ReadAll fuel (Some r) = Done (rs, None, o').
Proof.
  intros [Hw Hbl] Hc Hv Hne Hf.
  destruct (WriteRunes_appends b0 rs Hw Hv) as (b & Hwr & Hwb & Hlb & Hcb).
  rewrite Hc in Hcb. simpl in Hcb.
  assert (contents b ≠ []) as Hcne.
  { rewrite Hcb. intros He. apply Hne. by rewrite <- (runes_encode_all rs), He by done. }
  assert (searchable b) as Hs by (split; [done|lia]).
  destruct (Reader_range b 0 (len (contents b)) Hs Hcne (good_range_whole b Hs Hcne))
    as (r & Hr & Hh & Hrn & _).
  destruct (ReaderToString_source fuel (Some r) rs) as (o' & Hra & _).
  - exists (contents b). rewrite sub_full in Hh. split; [by apply fresh_rune_bytes|].
    by rewrite Hcb, runes_encode_all.
  - done.
  - exists b, r, o'. split; [done|]. split; [by rewrite Reader_all|done].
Qed.

(** A reader over a range, limited with SetMaxRead, reads the first [m] bytes of
    the range and then the end: each Read fills its slice as far as there are bytes. *)
Theorem Reader_SetMaxRead b from to m pl :
  searchable b → contents b ≠ [] → good_range b from to → 0 ≤ m → 0 < pl →
  let bs := take (Z.to_nat m) (sub (contents b) from to) in
  ∃ r o', Reader (Some b) NoContext false [from; to] = Done (Some r) ∧
    Read (SetMaxRead (Some r) m) pl =
      Done (take (Z.to_nat pl) bs, if decide (bs = []) then Some EOF else None, o') ∧
    reader_holds o' (drop (Z.to_nat pl) bs).
Proof.
  intros Hs Hne Hg Hm Hpl bs.
  destruct (Reader_range b from to Hs Hne Hg) as (r & Hr & Hh & _ & _ & Hmr & _).
  assert (reader_holds (SetMaxRead (Some r) m) bs) as Hh'.
  { apply reader_holds_ready in Hh as (r' & bs' & [= <-] & Hrd & Hbs').
    apply reader_holds_ready. exists (set_read r m (rcur r) (rbytes r) (rbytesi r)), bs'.
    unfold SetMaxRead. zsimp. split; [done|]. split.
    - destruct Hrd. split; simpl; done || lia.
    - subst bs. rewrite Hmr in Hbs'. unfold limit in *. simpl in *. zsimp. by rewrite Hbs'. }
  destruct (Read_spec _ bs pl Hh' Hpl) as (o' & Hread & Ho'). eauto 10.
Qed.

(** SubBuffer of a range that ends at the end of a chunk or in the open chunk,
    and does not start at the last byte of a chunk, is a buffer that holds exactly that
    range. *)
Theorem SubBuffer_spec b from to fuel :
  searchable b → contents b ≠ [] → good_range b from to → to - from < Z.of_nat fuel →
  ∃ b', SubBuffer fuel (Some b) [from; to] = Done b' ∧ wf b' ∧
    contents b' = sub (contents b) from to.
Proof.
  intros Hs Hne Hg Hf. destruct (Reader_range b from to Hs Hne Hg) as (r & Hr & Hh & _).
  destruct Hg as (Hft & Hto & _). destruct Hs as [Hw Hbl].
  unfold SubBuffer. change (0 <? len [from; to]) with true. cbv iota zeta.
  rewrite (index_lookup [from; to] 0 from) by done. cbn [exec_bind]. rewrite Size_contents by done. zsimp.
  change (len [from; to] =? 1) with false. cbv iota.
  rewrite (index_lookup [from; to] 1 to) by done. cbn [exec_bind]. zsimp. rewrite Hr. cbn [exec_bind].
  assert (len (sub (contents b) from to) = to - from) as Hl by (apply length_sub; lia).
  destruct (ReadFrom_spec fuel (empty_buffer chunk_size) 0 (Some r) (sub (contents b) from to))
    as (b' & r' & -> & Hw' & _ & Hc); [by apply wf_empty|done|lia|].
  exists b'. by rewrite Hc, contents_empty.
Qed.

(** ** Readlines *)

(** The lines Readln finds: the text up to each newline, with the 1024-rune rule of
    its trim; the text after the last newline is a line when the last of its blocks of
    1024 runes is not empty. *)
Definition eof_line (cur : list Z) : list (list Z) :=
  if len (last_part 1024 cur) =? 0 then [] else [cur].

Definition nonempty_line (l : list Z) : list (list Z) := if 0 <? len l then [l] else [].

Fixpoint readln_lines (cur rs : list Z) : list (list Z) :=
  match rs with
  | [] => eof_line cur
  | r :: rs' => if r =? 10 then nonempty_line (line_text cur) ++ readln_lines [] rs'
                else readln_lines (cur ++ [r]) rs'
  end.

Lemma readln_lines_line cur line rest :
  10 ∉ line →
  readln_lines cur (line ++ 10 :: rest) = nonempty_line (line_text (cur ++ line)) ++ readln_lines [] rest.
Proof.
  revert cur. induction line as [|r line IH]; intros cur Hn; simpl; [by rewrite app_nil_r|].
  apply not_elem_of_cons in Hn as [Hr Hn]. rewrite (proj2 (Z.eqb_neq r 10)) by auto.
  rewrite IH by done. by rewrite <- app_assoc.
Qed.

Lemma readln_lines_last cur line : 10 ∉ line → readln_lines cur line = eof_line (cur ++ line).
Proof.
  revert cur. induction line as [|r line IH]; intros cur Hn; simpl; [by rewrite app_nil_r|].
  apply not_elem_of_cons in Hn as [Hr Hn]. rewrite (proj2 (Z.eqb_neq r 10)) by auto.
  rewrite IH by done. by rewrite <- app_assoc.
Qed.

(** A text is a line and the rest after its newline, or a line without one. *)
Lemma split_line (rs : list Z) :
  (∃ line rest, rs = line ++ 10 :: rest ∧ 10 ∉ line) ∨ 10 ∉ rs.
Proof.
  induction rs as [|r rs IH]; [right; apply not_elem_of_nil|].
  destruct (decide (r = 10)) as [->|Hr]; [left; exists [], rs; split; [done|apply not_elem_of_nil]|].
  destruct IH as [(line & rest & -> & Hn)|Hn].
  - left. exists (r :: line), rest. split; [done|]. apply not_elem_of_cons. split; [auto|done].
  - right. apply not_elem_of_cons. split; [auto|done].
Qed.

Lemma Readlines_loop_spec n fuel o lines rs :
  pending o rs → len rs < Z.of_nat fuel → (length rs + 2 ≤ n)%nat →
  ∃ o', Readlines_loop n fuel o lines = Done (lines ++ readln_lines [] rs, o') ∧ pending o' [].
Proof.
  revert o lines rs. induction n as [|n IH]; intros o lines rs Hp Hf Hn; [lia|].
  cbn [Readlines_loop]. unfold Readln.
  destruct (split_line rs) as [(line & rest & -> & Hl)|Hl].
  - rewrite length_app in Hf, Hn. simpl in Hf, Hn.
    destruct (ReadLine_source_nl fuel o line rest Hl Hp) as (o1 & -> & Hp1); [lia|]. cbn [exec_bind].
    destruct (IH o1 (if 0 <? len (line_text line) then lines ++ [line_text line] else lines) rest Hp1)
      as (o' & -> & Hp'); [lia|lia|].
    exists o'. split; [|done]. rewrite readln_lines_line by done. unfold nonempty_line. simpl app at 3.
    destruct (0 <? len (line_text line)); [by rewrite <- app_assoc|done].
  - destruct (ReadLine_source_eof fuel o rs Hl Hp) as (o1 & -> & Hp1); [lia|]. cbn [exec_bind].
    rewrite readln_lines_last by done. unfold eof_line. simpl app.
    destruct (Z.eqb_spec (len (last_part 1024 rs)) 0) as [Hz|Hz].
    + exists o1. by rewrite app_nil_r.
    + assert (0 < len rs) as Hpos.
      { destruct rs; [exfalso; by apply Hz|simpl; lia]. }
      zsimp. destruct (IH o1 (lines ++ [rs]) [] Hp1) as (o' & -> & Hp'); [simpl; lia|simpl in *; lia|].
      exists o'. simpl. unfold eof_line. change (len (last_part 1024 []) =? 0) with true. cbv iota.
      by rewrite app_nil_r.
Qed.

(** Readlines over a reader of a buffer returns the non-empty lines of its text,
    each as Readln makes it; a last line without a newline is returned unless its
    length is a multiple of 1024 runes. *)
Theorem Readlines_spec b fuel :
  searchable b → contents b ≠ [] → (length (utf8.runes (contents b)) + 2 ≤ fuel)%nat →
  ∃ r o', Reader (Some b) NoContext false [] = Done (Some r) ∧
    Readlines fuel (Some r) = Done (readln_lines [] (utf8.runes (contents b)), o').
Proof.
  intros Hs Hne Hf.
  destruct (Reader_range b 0 (len (contents b)) Hs Hne (good_range_whole b Hs Hne)) as (r & Hr & Hh & Hrn & _).
  rewrite sub_full in Hh.
  destruct (Readlines_loop_spec fuel fuel (Some r) [] (utf8.runes (contents b))) as (o' & Hl & _);
    [exists (contents b); split; [by apply fresh_rune_bytes|done]|lia|done|].
  exists r, o'. split; [by rewrite Reader_all|exact Hl].
Qed.

(** ** WriteTo *)

Section write_to_spec.
Context {W : Type} `{!ByteWriter W} `{!ByteSink W}.
Hypothesis counts : ∀ l, count (W := W) l = len l.

Lemma write_all_spec fuel w p q :
  takes w (p ++ q) → (1 < fuel)%nat →
  ∃ w', write_all fuel w p = Done (None, w') ∧ takes w' q ∧ written w p w'.
Proof.
  intros Ht Hf. destruct fuel as [|[|fuel]]; [lia..|]. cbn [write_all].
  destruct (Z.ltb_spec 0 (len p)).
  - destruct (write_to_sink w p q Ht) as (w' & -> & Ht' & Hw'). cbn [exec_bind]. rewrite counts. zsimp.
    rewrite drop_ge by lia. simpl. eauto.
  - assert (p = []) as -> by (destruct p; [done|simpl in *; lia]).
    exists w. split_and!; [done|done|by eapply written_refl].
Qed.

Lemma read_4096_spec (via : bool) b o bs :
  (if via then bufio_bytes b o bs else reader_holds o bs) →
  ∃ p rest b' o', read_4096 via b o = Done (p, if decide (bs = []) then Some EOF else None, b', o') ∧
    bs = p ++ rest ∧ (bs ≠ [] → 0 < len p) ∧
    (if via then bufio_bytes b' o' rest else reader_holds o' rest).
Proof.
  intros Hh. unfold read_4096. destruct via.
  - destruct Hh as (rest & Hp & -> & He). unfold bufio_Read. destruct (Z.ltb_spec 0 (len (bb_buf b))).
    + rewrite decide_False by (destruct (bb_buf b); done).
      exists (take 4096 (bb_buf b)), (drop 4096 (bb_buf b) ++ rest). eexists _, o. split; [done|].
      split; [by rewrite app_assoc, take_drop|]. split; [rewrite length_take; lia|].
      exists rest. split_and!; [done|done|]. simpl. exact He.
    + assert (bb_buf b = []) as Hb by (destruct (bb_buf b); [done|simpl in *; lia]).
      rewrite Hb. simpl app. destruct He as [He|[He ->]]; rewrite He.
      * destruct (Read_spec o rest 4096 Hp) as (o' & Hr & Ho'); [lia|].
        change (4096 <=? 4096) with true. cbv iota. rewrite Hr. cbn [exec_bind].
        exists (take 4096 rest), (drop 4096 rest), (Bufio [] None), o'. split; [done|].
        split; [by rewrite take_drop|]. split.
        { intros Hne. rewrite length_take. destruct rest; [done|simpl length; lia]. }
        exists (drop 4096 rest). split_and!; [done|done|by left].
      * rewrite decide_True by done. exists [], [], (Bufio [] None), o. split_and!; try done.
        exists []. split_and!; [done|done|by left].
  - destruct (Read_spec o bs 4096 Hh) as (o' & -> & Ho'); [lia|]. cbn [exec_bind].
    exists (take (Z.to_nat 4096) bs), (drop (Z.to_nat 4096) bs), b, o'. split; [done|].
    split; [by rewrite take_drop|]. split; [|done]. intros Hne. rewrite length_take.
    destruct bs; [done|simpl length; lia].
Qed.

Lemma WriteTo_loop_spec fuel (via : bool) b o w n bs :
  (if via then bufio_bytes b o bs else reader_holds o bs) →
  takes w (bs ++ []) → len bs < Z.of_nat fuel →
  ∃ b' o' w', WriteTo_loop fuel via b o w n = Done (n + len bs, Some EOF, b', o', w') ∧ written w bs w'.
Proof.
  revert b o w n bs. induction fuel as [|fuel IH]; intros b o w n bs Hh Ht Hf; [lia|].
  cbn [WriteTo_loop].
  destruct (read_4096_spec via b o bs Hh) as (p & rest & b1 & o1 & -> & Hbs & Hp & Hh1). cbn [exec_bind].
  destruct (decide (bs = [])) as [He|Hne].
  - assert (p = [] ∧ rest = []) as [-> ->] by (subst bs; by destruct p, rest).
    simpl. rewrite He. simpl. rewrite Z.add_0_r. rewrite He in Ht.
    exists b1, o1, w. split; [done|]. by eapply written_refl.
  - specialize (Hp Hne). zsimp. rewrite Hbs, <- app_assoc in Ht.
    destruct (write_all_spec (S (length p)) w p (rest ++ []) Ht) as (w1 & -> & Ht1 & Hw1); [lia|].
    cbn [exec_bind]. zsimp. rewrite Hbs, length_app in Hf.
    destruct (IH b1 o1 w1 (n + len p) rest Hh1 Ht1) as (b' & o' & w' & -> & Hw'); [lia|].
    exists b', o', w'. split; [|rewrite Hbs; by eapply written_trans].
    rewrite Hbs, length_app. do 5 f_equal. lia.
Qed.
End write_to_spec.

(** WriteTo hands every byte a reader still holds to the writer, counts them,
    and reports [io.EOF] as its error (where [io.WriterTo] asks for none). *)
Theorem WriteTo_spec r bs fuel :
  reader_holds (Some r) bs → rnr r = None → len bs < Z.of_nat fuel →
  ∃ o', WriteTo fuel (Some r) ([] : list Z) = Done (len bs, Some EOF, o', bs).
Proof.
  intros Hh Hrn Hf. unfold WriteTo. rewrite Hrn, bool_decide_eq_false_2 by auto.
  assert (∀ l, count (W := list Z) l = len l) as Hc by done.
  change (default bufio_new None) with bufio_new.
  destruct (WriteTo_loop_spec Hc fuel false bufio_new (Some r) [] 0 bs)
    as (b' & o' & w' & -> & Hw'); [done|done|done|]. simpl in Hw'. subst w'.
  cbn [exec_bind]. rewrite Z.add_0_l. eauto.
Qed.

(** ** Seek *)

Lemma Seek_start_bytes b r c n :
  searchable b → rbuffer r = Some b → rcur r = Some c → -1 ≤ MaxRead r →
  0 ≤ rbytesi r ≤ len (rbytes r) → (ctx r = NoContext ∨ ctx r = Live) →
  DisposeBuffer r = false → DisposeReader r = false →
  0 ≤ n < len (contents b) → n mod len (bytes b) ≠ len (bytes b) - 1 →
  ∃ r', Seek (Some r) n 0 = Done (n, Some r') ∧
    reader_holds (Some r') (limit (MaxRead r) (drop (Z.to_nat (rbytesi r)) (rbytes r) ++ drop (Z.to_nat n) (contents b))) ∧
    bb_buf (default bufio_new (rnr r')) = [] ∧ bb_err (default bufio_new (rnr r')) = None.
Proof.
  intros [Hw Hbl] Hb Hc Hm Hi Hx Hd1 Hd2 Hn Hmod. unfold Seek. rewrite Hb, Size_contents by done.
  zsimp. rewrite Hc. change (0 =? 0) with true. cbv iota. zsimp.
  destruct (reset_range c b true n (len (contents b)) Hw Hbl) as (c' & -> & Hot & Ha & Hf & Ht & Hcb & _);
    [lia|lia|]. cbn [exec_bind].
  set (r1 := set_read r (MaxRead r) (Some c') (rbytes r) (rbytesi r)).
  assert (reader_holds (Some r1)
    (limit (MaxRead r) (drop (Z.to_nat (rbytesi r)) (rbytes r) ++ drop (Z.to_nat n) (contents b)))) as Hh.
  { eexists r1, c', (contents b), (len (bytes b)). split_and!; try done; simpl; try lia.
    - unfold asc_ok. rewrite Ha, Hf, Ht, Hcb. split; [done|].
      pose proof (length_contents b Hw). pose proof (wf_open b Hw). split; [left; lia|done].
    - by rewrite Hf, Ht, sub_to_end by lia. }
  eexists; split; [done|]. destruct (rnr r1) eqn:E; [split; [by apply reader_holds_rnr|done]|]. by rewrite E.
Qed.

Lemma Seek_start_holds b r c n :
  searchable b → rbuffer r = Some b → rcur r = Some c → -1 ≤ MaxRead r →
  0 ≤ rbytesi r ≤ len (rbytes r) → (ctx r = NoContext ∨ ctx r = Live) →
  DisposeBuffer r = false → DisposeReader r = false →
  0 ≤ n < len (contents b) → n mod len (bytes b) ≠ len (bytes b) - 1 →
  ∃ r', Seek (Some r) n 0 = Done (n, Some r') ∧
    rune_bytes (Some r')
      (limit (MaxRead r) (drop (Z.to_nat (rbytesi r)) (rbytes r) ++ drop (Z.to_nat n) (contents b))).
Proof.
  intros. destruct (Seek_start_bytes b r c n) as (r' & E & Hh & Hbuf & Herr); [done..|]. exists r'. split; [done|].
  exists r'. split; [done|]. eexists. split; [exact Hh|]. rewrite Hbuf. auto.
Qed.

(** After Seek to an offset from the start the reader goes on with the rest of
    the piece it had before, and only then with the content from the offset: the piece
    is not dropped; a reader that had read nothing reads from the offset. *)
Theorem Seek_start_spec b r c n :
  searchable b → rbuffer r = Some b → rcur r = Some c → -1 ≤ MaxRead r →
  0 ≤ rbytesi r ≤ len (rbytes r) → (ctx r = NoContext ∨ ctx r = Live) →
  DisposeBuffer r = false → DisposeReader r = false →
  0 ≤ n < len (contents b) → n mod len (bytes b) ≠ len (bytes b) - 1 →
  ∃ r', Seek (Some r) n 0 = Done (n, Some r') ∧
    rune_bytes (Some r')
      (limit (MaxRead r) (drop (Z.to_nat (rbytesi r)) (rbytes r) ++ drop (Z.to_nat n) (contents b))).
Proof. apply Seek_start_holds. Qed.

(** ** ForEachRunes never ends *)

Lemma foreach_stuck {T} (f : list Z → T → option goerr * T) bufsize fuel o t ri lstri rns rs :
  pending o rs → 0 ≤ ri → 0 ≤ bufsize → length rns = Z.to_nat bufsize → (∀ p t, (f p t).1 = None) →
  ForEachRunes_loop f bufsize fuel o t ri lstri rns None = NoFuel.
Proof.
  intros Hp Hri Hbs Hl Hf. revert o t ri lstri rns rs Hp Hri Hl.
  induction fuel as [|fuel IH]; intros o t ri lstri rns rs Hp Hri Hl; [done|].
  cbn [ForEachRunes_loop]. destruct (Z.ltb_spec ri bufsize); [|by eapply IH].
  destruct rs as [|r rs].
  - destruct (pending_nil o Hp) as (x & o' & Hr & Hp'). unfold read_rune, BuffReader_ReadRune in Hr.
    rewrite Hr. cbn [exec_bind]. change (0 <? 0) with false. cbv iota. eapply IH; [done|lia|done].
  - destruct (pending_cons o r rs Hp) as (m & o' & Hr & Hm & Hp'). unfold read_rune, BuffReader_ReadRune in Hr.
    rewrite Hr. cbn [exec_bind]. zsimp. rewrite slice_ok by lia. cbn [exec_bind].
    assert (length (blit rns ri [r]) = length rns) as Hlb by (apply length_blit; simpl; lia).
    destruct (Z.eqb_spec ri (bufsize - 1)) as [Hlast|Hlast].
    + pose proof (Hf (blit rns ri [r]) t) as Hn. destruct (f (blit rns ri [r]) t) as [e t']. simpl in Hn. subst e.
      eapply IH; [done|lia|lia].
    + eapply IH; [done|lia|lia].
Qed.

(** The second offset sets [MaxRead]. *)
Lemma reader_holds_max r m bs : reader_holds (Some r) bs → -1 ≤ m →
  ∃ bs', reader_holds (Some (set_read r m (rcur r) (rbytes r) (rbytesi r))) bs'.
Proof.
  intros (r' & c & l & bl & E & Hc & Ht & Ha & Hi & _ & Hx & Hd1 & Hd2 & _) Hm. injection E as <-.
  eexists; eexists (set_read r m _ _ _), c, l, bl. split_and!; done || (simpl; lia).
Qed.

Lemma reader_holds_pending r bs :
  reader_holds (Some r) bs → bb_buf (default bufio_new (rnr r)) = [] → bb_err (default bufio_new (rnr r)) = None →
  pending (Some r) (utf8.runes bs).
Proof.
  intros Hh Hb He. exists bs. split; [|done]. exists r. split; [done|]. exists bs. split; [exact Hh|]. rewrite Hb. auto.
Qed.

(** C19: ForEachRunes does not return: with offsets of which the first lies inside the
    buffer and is not the last byte of one of its chunks, on a reader over the buffer that
    does not close itself, of a context that is not done, and with a callback that reports
    no error, no number of rounds is enough, for any text and any size of the pieces,
    because the end of the text ends neither loop.  (Without offsets it returns at once.) *)
Theorem ForEachRunes_diverges {T} (f : list Z → T → option goerr * T) bufsize b r c t n offsets fuel :
  searchable b → rbuffer r = Some b → rcur r = Some c → -1 ≤ MaxRead r → 0 ≤ rbytesi r ≤ len (rbytes r) →
  (ctx r = NoContext ∨ ctx r = Live) → DisposeBuffer r = false → DisposeReader r = false →
  0 ≤ n < len (contents b) → n mod len (bytes b) ≠ len (bytes b) - 1 →
  0 ≤ bufsize → (∀ p t, (f p t).1 = None) →
  ForEachRunes f bufsize fuel (Some r) t (n :: offsets) = NoFuel.
Proof.
  intros Hs Hb Hc Hm Hri Hx Hd1 Hd2 Hn Hmod Hbs Hf. unfold ForEachRunes.
  rewrite (proj2 (Z.ltb_lt _ _)) by (cbn; lia). rewrite (index_lookup _ 0 n) by done. cbn [exec_bind].
  destruct (Seek_start_bytes b r c n) as (r' & -> & Hh & Hbuf & Herr); try done. cbn [exec_bind].
  assert (∃ r2 bs, (if 1 <? len (n :: offsets) then let* e := index (n :: offsets) 1 in
      Done (if 0 <? e + 1 - n then Some (set_read r' (e + 1 - n) (rcur r') (rbytes r') (rbytesi r')) else Some r')
    else Done (Some r')) = Done (Some r2) ∧ pending (Some r2) bs) as (r2 & bs & -> & Hp).
  { assert (∃ bs, pending (Some r') bs) as [bs Hp] by (eexists; by apply reader_holds_pending).
    destruct offsets as [|e offsets]; [by exists r', bs|]. rewrite (proj2 (Z.ltb_lt _ _)) by (cbn; lia).
    rewrite (index_lookup _ 1 e) by done. cbn [exec_bind]. destruct (Z.ltb_spec 0 (e + 1 - n)); [|by exists r', bs].
    destruct (reader_holds_max r' (e + 1 - n) _ Hh) as [bs' Hh']; [lia|].
    eexists _, _. split; [done|]. by apply reader_holds_pending. }
  cbn [exec_bind]. rewrite (proj2 (Z.ltb_ge _ _)) by lia.
  by rewrite (foreach_stuck f bufsize fuel (Some r2) t 0 (-1) _ bs) by (lia || done || by rewrite length_replicate).
Qed.

(** ** SubString *)

Lemma SubString_loop_spec {Src : RuneSource (option BuffReader)} fuel o offs offe s rns rs :
  pending o rs → len rs < Z.of_nat fuel →
  ∃ o', SubString_loop fuel o offs offe s rns =
    Done (s ++ rns ++ take (Z.to_nat (Z.max 1 (offe - offs))) rs, o').
Proof.
  revert o offs s rns rs. induction fuel as [|fuel IH]; intros o offs s rns rs Hp Hf; [lia|].
  cbn [SubString_loop]. destruct rs as [|r rs].
  - destruct (pending_nil o Hp) as (x & o' & Hr & _). unfold read_rune, BuffReader_ReadRune in Hr.
    rewrite Hr. cbn [exec_bind]. change (0 <? 0) with false. cbv iota. rewrite take_nil, app_nil_r. eauto.
  - destruct (pending_cons o r rs Hp) as (m & o' & Hr & Hm & Hp'). unfold read_rune, BuffReader_ReadRune in Hr.
    rewrite Hr. cbn [exec_bind]. zsimp.
    pose proof (push_rune_app 1024 r s rns) as Hpr. destruct (push_rune 1024 r s rns) as [s' rns']. simpl in Hpr.
    destruct (Z.leb_spec offe (offs + 1)).
    + rewrite Z.max_l by lia. simpl. rewrite take_0, Hpr. eauto.
    + destruct (IH o' (offs + 1) s' rns' rs Hp') as (o'' & ->); [simpl in Hf; lia|].
      replace (Z.to_nat (Z.max 1 (offe - offs))) with (S (Z.to_nat (Z.max 1 (offe - (offs + 1))))) by lia.
      simpl. rewrite !(app_assoc s'), Hpr, <- !app_assoc. eauto.
Qed.

(** SubString(from, to) of a reader that has read nothing is the string of the
    [to - from] runes (one at least) that start at byte [from]: the start counts bytes,
    the length runes. *)
Theorem SubString_spec b r c from to fuel :
  searchable b → rbuffer r = Some b → rcur r = Some c → MaxRead r = -1 → rbytes r = [] → rbytesi r = 0 →
  (ctx r = NoContext ∨ ctx r = Live) → DisposeBuffer r = false → DisposeReader r = false →
  0 ≤ from < len (contents b) → 0 ≤ to ≤ len (contents b) →
  from mod len (bytes b) ≠ len (bytes b) - 1 → len (contents b) < Z.of_nat fuel →
  ∃ o', SubString fuel (Some r) [from; to] =
    Done (take (Z.to_nat (Z.max 1 (to - from))) (utf8.runes (drop (Z.to_nat from) (contents b))), o').
Proof.
  intros Hs Hb Hc Hm Hrb Hri Hx Hd1 Hd2 Hfr Hto Hmod Hf. unfold SubString.
  rewrite Hb, Size_contents by apply Hs. zsimp.
  unfold substring_offsets. change (len [from; to] mod 2 =? 1) with false. cbv iota. cbn [exec_bind].
  change ((0 <? len [from; to]) && (len [from; to] mod 2 =? 0)) with true. cbv iota.
  rewrite (index_lookup [from; to] 0 from), (index_lookup [from; to] 1 to) by done. cbn [exec_bind].
  zsimp.
  set (r1 := set_read r _ _ _ _).
  destruct (Seek_start_holds b r1 c from) as (r' & -> & Hr'); try done; simpl; try lia.
  cbn [exec_bind]. simpl in Hr'. rewrite Hm, Hrb, Hri in Hr'. simpl in Hr'. unfold limit in Hr'. simpl in Hr'.
  destruct (SubString_loop_spec fuel (Some r') from to [] [] (utf8.runes (drop (Z.to_nat from) (contents b))))
    as (o' & Hl); [by eexists| |].
  { pose proof (length_runes_le (drop (Z.to_nat from) (contents b))) as Hle. rewrite length_drop in Hle. lia. }
  exists o'. by rewrite Hl.
Qed.

(** ** ByteIndex *)

Definition index_state (pat : list Z) (i : nat) (st : Z * Z * Z) (toffset : Z) : Prop :=
  let '(t, bsi, prvb) := st in
  t = toffset ∧ bsi = Z.of_nat i ∧ (0 < i → pat !! (i - 1)%nat = Some prvb)%nat.

Lemma index_piece_spec pat bts t bsi prvb i :
  index_state pat i (t, bsi, prvb) t → (i < length pat)%nat →
  match run (fwd_step pat) (length pat) i bts with
  | Hit p => ∃ st, index_piece pat bts t bsi prvb = Done (Some (t + 1 + Z.of_nat p - len pat), st)
  | More j => ∃ st, index_piece pat bts t bsi prvb = Done (None, st) ∧
      index_state pat j st (t + len bts) ∧ (j < length pat)%nat
  | Miss => False
  end.
Proof.
  revert t bsi prvb i. induction bts as [|bt bts IH]; intros t bsi prvb i (_ & -> & Hprev) Hi.
  { simpl. eexists; split; [done|]. split; [|done]. split_and!; [simpl; lia|done|done]. }
  cbn [run index_piece].
  assert (∃ i0 prv0 x, (if 0 <? Z.of_nat i then
      let* a := index pat (Z.of_nat i - 1) in
      let* b := index pat (Z.of_nat i) in
      Done (if (a =? prvb) && negb (b =? bt) then (0, 0) else (Z.of_nat i, prvb))
    else Done (Z.of_nat i, prvb)) = Done (Z.of_nat i0, prv0) ∧ (i0 < length pat)%nat ∧
    (0 < i0 → pat !! (i0 - 1)%nat = Some prv0)%nat ∧ pat !! i0 = Some x ∧
    fwd_step pat i bt = Some (if x =? bt then S i0 else 0%nat)) as (i0 & prv0 & x & -> & Hi0 & Hp0 & Hx & ->).
  { destruct (lookup_lt_is_Some_2 pat i Hi) as [y Hy]. unfold fwd_step. rewrite Hy.
    destruct (Z.ltb_spec 0 (Z.of_nat i)) as [Hpos|Hz].
    - specialize (Hprev ltac:(lia)).
      rewrite (index_lookup _ _ prvb) by (lia || (by replace (Z.to_nat (Z.of_nat i - 1)) with (i - 1)%nat by lia)).
      rewrite (index_lookup _ _ y) by (lia || (by rewrite Nat2Z.id)). cbn [exec_bind].
      rewrite Z.eqb_refl. simpl andb. destruct (Z.eqb_spec y bt) as [->|Hne]; simpl negb; cbv iota.
      + exists i, prvb, bt. split_and!; try done. rewrite Z.eqb_refl. by rewrite decide_True by done.
      + destruct (lookup_lt_is_Some_2 pat 0) as [z Hz]; [lia|]. exists 0%nat, 0, z.
        split_and!; [done|lia|lia|done|]. rewrite decide_False by congruence. rewrite Hz.
        destruct (Z.eqb_spec z bt) as [->|]; case_decide; congruence.
    - assert (i = 0%nat) as -> by lia. exists 0%nat, prvb, y. split_and!; try done.
      rewrite Hy. destruct (Z.eqb_spec y bt) as [->|]; repeat case_decide; congruence. }
  cbn [exec_bind]. rewrite (index_lookup _ _ x) by (lia || (by rewrite Nat2Z.id)). cbn [exec_bind].
  destruct (Z.eqb_spec x bt) as [->|Hne].
  - destruct (decide (S i0 = length pat)) as [Hl|Hl].
    + rewrite (proj2 (Z.eqb_eq _ _)) by lia. eexists. do 3 f_equal. lia.
    + rewrite (proj2 (Z.eqb_neq _ _)) by lia.
      specialize (IH (t + 1) (Z.of_nat i0 + 1) bt (S i0)).
      destruct (run (fwd_step pat) (length pat) (S i0) bts) as [p| |j]; simpl.
      * destruct IH as (st & ->); [split_and!; [done|lia|intros _; by replace (S i0 - 1)%nat with i0 by lia]|lia|].
        eexists. do 3 f_equal. lia.
      * apply IH; [split_and!; [done|lia|intros _; by replace (S i0 - 1)%nat with i0 by lia]|lia].
      * destruct IH as (st & -> & Hst & Hj); [split_and!; [done|lia|intros _; by replace (S i0 - 1)%nat with i0 by lia]|lia|].
        exists st. split; [done|]. split; [|done]. by replace (t + Z.of_nat (S (length bts))) with (t + 1 + len bts) by lia.
  - destruct (decide (0 = length pat)%nat); [lia|]. rewrite reset_index.
    specialize (IH (t + 1) 0 prv0 0%nat).
    destruct (run (fwd_step pat) (length pat) 0 bts) as [p| |j]; simpl.
    + destruct IH as (st & ->); [split_and!; [done|done|lia]|lia|]. eexists. do 3 f_equal. lia.
    + apply IH; [split_and!; [done|done|lia]|lia].
    + destruct IH as (st & -> & Hst & Hj); [split_and!; [done|done|lia]|lia|].
      exists st. split; [done|]. split; [|done]. by replace (t + Z.of_nat (S (length bts))) with (t + 1 + len bts) by lia.
Qed.

(** The chunks one after the other, for a match that does not start the text. *)
Lemma index_pieces_spec pat pieces t bsi prvb i :
  index_state pat i (t, bsi, prvb) t → (i < length pat)%nat →
  (∀ p, run (fwd_step pat) (length pat) i (concat pieces) = Hit p → -1 < t + 1 + Z.of_nat p - len pat) →
  match run (fwd_step pat) (length pat) i (concat pieces) with
  | Hit p => ∃ st, index_pieces pat pieces (t, bsi, prvb) = Done (t + 1 + Z.of_nat p - len pat, st)
  | More j => ∃ st, index_pieces pat pieces (t, bsi, prvb) = Done (-1, st) ∧
      index_state pat j st (t + len (concat pieces)) ∧ (j < length pat)%nat
  | Miss => False
  end.
Proof.
  revert t bsi prvb i. induction pieces as [|bts pieces IH]; intros t bsi prvb i Hst Hi Hpos.
  { simpl in *. eexists; split; [done|]. split; [|done]. destruct Hst as (_ & ? & ?). split_and!; [lia|done|done]. }
  cbn [concat index_pieces] in *. rewrite run_app in *.
  pose proof (index_piece_spec pat bts t bsi prvb i Hst Hi) as Hp.
  destruct (run (fwd_step pat) (length pat) i bts) as [p| |j]; [|done|].
  - destruct Hp as (st & ->). cbn [exec_bind]. simpl default.
    specialize (Hpos p eq_refl). zsimp. eauto.
  - destruct Hp as ([[t' bsi'] prvb'] & -> & Hst' & Hj). cbn [exec_bind]. simpl default.
    change (-1 <? -1) with false. cbv iota.
    assert (t' = t + len bts) as -> by apply Hst'.
    specialize (IH (t + len bts) bsi' prvb' j Hst' Hj).
    destruct (run (fwd_step pat) (length pat) j (concat pieces)) as [p| |j']; simpl in *.
    + destruct IH as (st & ->); [intros q [= <-]; specialize (Hpos _ eq_refl); lia|].
      eexists. do 2 f_equal. lia.
    + by apply IH.
    + destruct IH as (st & -> & Hst'' & Hj'); [done|]. exists st. split; [done|]. split; [|done].
      rewrite length_app. by replace (t + Z.of_nat (length bts + length (concat pieces)))
        with (t + len bts + len (concat pieces)) by lia.
Qed.

(** ByteIndex finds the first occurrence in the buffer of bytes whose first byte
    does not come again in them and with which the buffer does not start; the index is
    one less than the offset of the occurrence, -1 when there is none.  (A match at the
    very start is answered -1, or runs past the end of the pattern when more chunks
    follow.) *)
Theorem ByteIndex_spec b r pat :
  wf b → rbuffer r = Some b → head_once pat → pat ≠ [] → ¬ pat `prefix_of` contents b →
  ∃ i, ByteIndex (Some r) pat = Done i ∧
    ((∃ s, first_at pat (contents b) s ∧ i = Z.of_nat s - 1) ∨ (¬ occurs pat (contents b) ∧ i = -1)).
Proof.
  intros Hw Hb Hh Hne Hnp. unfold ByteIndex. rewrite Hb.
  assert (0 < length pat)%nat by (destruct pat; [done|simpl; lia]). zsimp.
  pose proof (wf_open b Hw) as Ho.
  set (tail := take (Z.to_nat (bytesi b)) (bytes b)).
  assert (contents b = concat (buffer b) ++ concat [tail]) as Hc
    by (unfold contents; simpl; by rewrite app_nil_r).
  pose proof (fwd_first_at pat (contents b) Hh Hne) as Hf.
  assert (∀ p, run (fwd_step pat) (length pat) 0 (contents b) = Hit p → -1 < Z.of_nat p - len pat) as Hpos.
  { intros p Hp. rewrite Hp in Hf. destruct Hf as (s & [Hs _] & Heq).
    destruct s as [|s]; [by rewrite drop_0 in Hs|lia]. }
  assert (index_state pat 0 (-1, 0, 0) (-1)) as Hst0 by (split_and!; [done|done|lia]).
  rewrite Hc, run_app in Hf, Hpos.
  pose proof (index_pieces_spec pat (buffer b) (-1) 0 0 0 Hst0 ltac:(lia)) as H1.
  destruct (run (fwd_step pat) (length pat) 0 (concat (buffer b))) as [p| |j].
  - destruct H1 as (st & ->); [intros q [= <-]; specialize (Hpos p eq_refl); lia|].
    cbn [exec_bind]. specialize (Hpos p eq_refl). zsimp. destruct Hf as (s & Hs & Heq).
    eexists; split; [done|]. left. exists s. rewrite Hc. split; [done|lia].
  - by destruct H1.
  - destruct H1 as ([[t' bsi'] prvb'] & -> & Hst & Hj); [done|]. cbn [exec_bind].
    change (-1 =? -1) with true. simpl andb. assert (t' = -1 + len (concat (buffer b))) as -> by apply Hst.
    destruct (Z.ltb_spec 0 (bytesi b)).
    + rewrite slice_ok by lia. cbn [exec_bind]. rewrite sub_from_0. fold tail.
      pose proof (index_pieces_spec pat [tail] _ bsi' prvb' j Hst Hj) as H2.
      destruct (run (fwd_step pat) (length pat) j (concat [tail])) as [p| |j']; simpl in Hf.
      * destruct H2 as (st & ->); [intros q [= <-]; specialize (Hpos _ eq_refl); lia|].
        cbn [exec_bind]. eexists; split; [done|]. left. destruct Hf as (s & Hs & Heq). exists s.
        rewrite Hc. split; [done|lia].
      * done.
      * destruct H2 as (st & -> & _); [done|]. cbn [exec_bind]. exists (-1). split; [done|]. right.
        rewrite Hc. split; done.
    + exists (-1). split; [done|]. right. split; [|done].
      assert (tail = []) as Ht by (subst tail; by assert (bytesi b = 0) as -> by lia).
      rewrite Ht in Hf. rewrite Hc, Ht. exact Hf.
Qed.

(** ** At concrete readers *)

Definition chunked_reader : BuffReader :=
  MkBuffReader (Some chunked_buffer) None (-1) NoContext
    (Some (MkCursor [[1; 2; 3; 4]; [5; 6; 7; 8]] [9] [] false 0 9 9 (-1) (-1) true)) [] 0
    false 0 (Some []) false false.

(** After two bytes the rest of the first chunk is still to be read. *)
Definition moved_reader : BuffReader :=
  MkBuffReader (Some chunked_buffer) None (-1) NoContext
    (Some (MkCursor [[1; 2; 3; 4]; [5; 6; 7; 8]] [9] [] false 4 9 9 0 (-1) true)) [1; 2; 3; 4] 2
    false 0 (Some []) false false.

Example moved_reader_reached :
  (let* o := Reader (Some chunked_buffer) NoContext false [] in Read o 2) = Done ([1; 2], None, Some moved_reader).
Proof. reflexivity. Qed.

(** A Seek to offset 5 and a Read of four bytes: 3 and 4 come first. *)
Example Seek_stale :
  (let* '(_, o) := Seek (Some moved_reader) 5 0 in
   let* '(p, _, _) := Read o 4 in Done p) = Done [3; 4; 6; 7].
Proof. reflexivity. Qed.

(** A closed reader that was not limited reads through a nil cursor. *)
Example Read_closed : Read (Close (Some chunked_reader)) 1 = Panic.
Proof. reflexivity. Qed.

Example ByteIndex_start : ByteIndex (Some chunked_reader) [1; 2] = Panic.
Proof. reflexivity. Qed.

(** The last index is off by the length of the pattern in the open chunk. *)
Example LastIndex_off :
  LastIndex (Some (MkBuffReader (Some (open_buffer [97; 98; 99])) None (-1) NoContext None [] 0 false 0 None false false))
    [98; 99] [] = Done (-1).
Proof. reflexivity. Qed.

(** A range of six bytes of two four-byte chunks: after two bytes the cursor gives an
    empty piece that is not the last, again and again, and a Read of three bytes does
    not end. *)
Definition stuck_cursor (to : Z) : bufferCursor :=
  MkCursor [[1; 2; 3; 4]; [5; 6; 7; 8]] [] [] false 2 to 8 2 (-1) true.

Example cursor_stuck :
  (let* '(bts, lst, c) := nextBytes (stuck_cursor 6) in Done (bts, lst, fromOffset c, toOffset c)) =
  Done ([], false, 2, 6).
Proof. reflexivity. Qed.

Lemma Read_stuck fuel r p n pl :
  rcur r = Some (stuck_cursor 6) → rbytes r = [] → rbytesi r = 0 → MaxRead r = -1 → n < pl →
  Read_loop fuel pl p n r = NoFuel.
Proof.
  intros Hc Hb Hi Hm Hn. revert r Hc Hb Hi Hm. induction fuel as [|fuel IH]; intros r Hc Hb Hi Hm; [done|].
  cbn [Read_loop]. unfold may_read, nextReaderBytes. rewrite Hm, Hb, Hc. zsimp.
  change (len [] =? 0) with true. simpl orb. cbv iota.
  change (nextBytes (stuck_cursor 6)) with (Done ([] : list Z, false, stuck_cursor 6)). cbn [exec_bind].
  change (0 <? len []) with false. cbv iota. apply IH; done.
Qed.

Ltac searchable_solve := by apply (bool_decide_unpack (searchable chunked_buffer)).

Lemma chunked_reader_holds : reader_holds (Some chunked_reader) [1; 2; 3; 4; 5; 6; 7; 8; 9].
Proof.
  eexists chunked_reader, _, [1; 2; 3; 4; 5; 6; 7; 8; 9], 4.
  split; [done|]. split; [done|]. split.
  { split; simpl; try done; repeat constructor; lia. }
  split; [split; [done|split; [left; simpl; lia|done]]|].
  split_and!; simpl; done || lia || by left.
Qed.

Lemma chunked_searchable : searchable chunked_buffer.
Proof. searchable_solve. Qed.

Lemma good_range_chunked : good_range chunked_buffer 1 8.
Proof. unfold good_range. simpl. split_and!; lia || (by right) || done. Qed.

Lemma Reader_ReadAll_witness :
  ∃ b r o', WriteRunes (empty_buffer 4) [97; 8364; 98] = Done (3, None, b) ∧
    Reader (Some b) NoContext false [] = Done (Some r) ∧ ReadAll 9 (Some r) = Done ([97; 8364; 98], None, o').
Proof.
  apply (Reader_ReadAll (empty_buffer 4) [97; 8364; 98] 9).
  - by apply (bool_decide_unpack (searchable (empty_buffer 4))).
  - reflexivity.
  - repeat constructor.
  - done.
  - simpl. lia.
Defined.

Lemma Reader_SetMaxRead_witness :
  ∃ r o', Reader (Some chunked_buffer) NoContext false [1; 8] = Done (Some r) ∧
    Read (SetMaxRead (Some r) 3) 9 = Done ([2; 3; 4], None, o') ∧ reader_holds o' [].
Proof.
  apply (Reader_SetMaxRead chunked_buffer 1 8 3 9); [apply chunked_searchable|done|apply good_range_chunked|lia..].
Defined.

Lemma SubBuffer_spec_witness :
  ∃ b', SubBuffer 8 (Some chunked_buffer) [1; 8] = Done b' ∧ wf b' ∧ contents b' = [2; 3; 4; 5; 6; 7; 8].
Proof.
  apply (SubBuffer_spec chunked_buffer 1 8 8); [apply chunked_searchable|done|apply good_range_chunked|lia].
Defined.

Lemma Readlines_spec_witness :
  ∃ r o', Reader (Some (open_buffer [97; 10; 32; 10; 98])) NoContext false [] = Done (Some r) ∧
    Readlines 7 (Some r) = Done ([[97]; [98]], o').
Proof.
  apply (Readlines_spec (open_buffer [97; 10; 32; 10; 98]) 7).
  - by apply (bool_decide_unpack (searchable (open_buffer [97; 10; 32; 10; 98]))).
  - done.
  - reflexivity || (simpl; lia).
Defined.

Lemma WriteTo_spec_witness :
  ∃ o', WriteTo 10 (Some chunked_reader) ([] : list Z) = Done (9, Some EOF, o', [1; 2; 3; 4; 5; 6; 7; 8; 9]).
Proof.
  apply (WriteTo_spec chunked_reader [1; 2; 3; 4; 5; 6; 7; 8; 9] 10); [apply chunked_reader_holds|done|simpl; lia].
Defined.

Lemma Seek_start_spec_witness :
  ∃ r', Seek (Some moved_reader) 5 0 = Done (5, Some r') ∧ rune_bytes (Some r') [3; 4; 6; 7; 8; 9].
Proof.
  apply (Seek_start_spec chunked_buffer moved_reader
    (MkCursor [[1; 2; 3; 4]; [5; 6; 7; 8]] [9] [] false 4 9 9 0 (-1) true) 5);
    [apply chunked_searchable|reflexivity|reflexivity|simpl; lia|simpl; lia|by left|reflexivity|reflexivity
    |simpl; lia|simpl; done].
Defined.

Lemma ForEachRunes_diverges_witness :
  ForEachRunes (λ p t, (None, t ++ p)) 4 1000 (Some chunked_reader) [] [0; 5] = NoFuel.
Proof.
  apply (ForEachRunes_diverges (λ p t, (None, t ++ p)) 4 chunked_buffer chunked_reader
    (MkCursor [[1; 2; 3; 4]; [5; 6; 7; 8]] [9] [] false 0 9 9 (-1) (-1) true) [] 0 [5] 1000);
    [apply chunked_searchable|reflexivity|reflexivity|simpl; lia|simpl; lia|by left|reflexivity
    |reflexivity|simpl; lia|simpl; done|lia|done].
Defined.

(** Without offsets nothing is read; an end of the callback's own is given back. *)
Example foreach_no_offsets : ForEachRunes (λ p t, (None, t ++ p)) 4 1 (Some chunked_reader) [] [] = Done (None, Some chunked_reader, []).
Proof. reflexivity. Qed.
Example foreach_callback_end :
  match ForEachRunes (λ p t, (Some EOF, t ++ p)) 4 100 (Some chunked_reader) [] [0] with
  | Done (err, _, t) => (err, t) = (Some EOF, [1; 2; 3; 4])
  | _ => False
  end.
Proof. vm_compute. reflexivity. Qed.

Lemma SubString_spec_witness :
  ∃ o', SubString 10 (Some chunked_reader) [1; 4] = Done ([2; 3; 4], o').
Proof.
  apply (SubString_spec chunked_buffer chunked_reader
    (MkCursor [[1; 2; 3; 4]; [5; 6; 7; 8]] [9] [] false 0 9 9 (-1) (-1) true) 1 4 10);
    [apply chunked_searchable|reflexivity|reflexivity|reflexivity|reflexivity|reflexivity|by left|reflexivity
    |reflexivity|simpl; lia|simpl; lia|simpl; done|simpl; lia].
Defined.

Lemma ByteIndex_spec_witness :
  ByteIndex (Some chunked_reader) [4; 5] = Done 2 ∧
  ∃ i, ByteIndex (Some chunked_reader) [4; 5] = Done i ∧
    ((∃ s, first_at [4; 5] (contents chunked_buffer) s ∧ i = Z.of_nat s - 1) ∨
     (¬ occurs [4; 5] (contents chunked_buffer) ∧ i = -1)).
Proof.
  split; [reflexivity|].
  apply (ByteIndex_spec chunked_buffer chunked_reader [4; 5]);
    [apply chunked_searchable|reflexivity|by apply head_onceb_once|done|].
  intros [k Hk]. discriminate Hk.
Defined.
