(* ===== verification/Texts.v ===== *)
(** Buffers that hold a text: [buf_is o l] says that a buffer, or none, holds the runes
    [l] in UTF-8.  What the buffer operations the template and the statements use do to
    such a buffer; shared by the components that build texts. *)

From S2P Require Import Prelude Runes Readers Buffer BufferCursor BuffReader.
#[local] Open Scope Z_scope.

Definition occursb (pat l : list Z) : bool :=
  existsb (λ i, bool_decide (take (length pat) (drop i l) = pat)) (seq 0 (S (length l))).

Definition buf_is (o : option Buffer) (l : list Z) : Prop :=
  match o with
  | None => l = []
  | Some b => wf b ∧ len (bytes b) = chunk_size ∧ contents b = encode_all l
  end.

Lemma buf_is_appended b l r b' :
  buf_is (Some b) l → appended b (encode_all r) b' → buf_is (Some b') (l ++ r).
Proof.
  intros (Hw & Hl & Hc) (Hw' & Hl' & Hc'). split; [done|]. split; [lia|]. by rewrite Hc', Hc, encode_all_app.
Qed.

Lemma new_is : buf_is (Some (empty_buffer chunk_size)) [].
Proof. split; [by apply wf_empty|]. by vm_compute. Qed.

Lemma NewBuffer_is fuel rns :
  valid_runes rns → ∃ b, NewBuffer fuel [PRunes rns] = Done b ∧ buf_is (Some b) rns.
Proof.
  intros Hv. unfold NewBuffer. cbn [length]. change (0 <? Z.of_nat 1) with true. cbv iota zeta.
  destruct (Print_appends fuel (empty_buffer chunk_size) [PRunes rns] (encode_all rns ++ [])) as (b & -> & Ha).
  - apply new_is.
  - repeat constructor. done.
  - exists b. split; [done|]. rewrite app_nil_r in Ha. by apply (buf_is_appended _ _ _ _ new_is).
Qed.

Lemma cleared_is o l : buf_is o l → buf_is (Buffer.Clear o) [].
Proof.
  destruct o as [b|]; [|done]. intros (Hw & Hl & _). destruct (Clear_spec b Hw) as (b' & -> & Hw' & Hc' & Hl').
  split; [done|]. split; [lia|done].
Qed.

Lemma Empty_is o l : buf_is o l → valid_runes l → Buffer.Empty o = bool_decide (l = []).
Proof.
  destruct o as [b|]; cbn [buf_is].
  - intros (Hw & _ & Hc) Hv. rewrite Empty_contents, Hc by done. apply bool_decide_ext.
    split; [|by intros ->]. intros E. by rewrite <- (runes_encode_all l), E by done.
  - intros -> _. done.
Qed.

Lemma occursb_spec pat l : occursb pat l = true ↔ occurs pat l.
Proof.
  unfold occursb. rewrite existsb_exists. split.
  - intros (i & _ & Hi). apply bool_decide_eq_true in Hi. exists (take i l), (drop (length pat) (drop i l)).
    rewrite <- Hi at 1. by rewrite take_drop, take_drop.
  - intros (l1 & l2 & ->). exists (length l1). split.
    + apply in_seq. rewrite length_app. lia.
    + rewrite drop_app_length, take_app_length. by apply bool_decide_eq_true.
Qed.

Lemma Contains_mark b pat l :
  buf_is (Some b) l → pat ≠ [] → head_once pat → Contains (Some b) pat = Done (occursb pat (encode_all l)).
Proof.
  intros (Hw & Hl & Hc) Hne Ho. unfold Contains, has_text. rewrite !bool_decide_eq_true_2 by done. cbn [andb].
  destruct (ContainsBytes_answers b pat) as (r & -> & H1 & H2); [split; [done|rewrite Hl; done]|done|].
  f_equal. rewrite Hc in *. destruct r, (occursb pat (encode_all l)) eqn:E; try done.
  - rewrite <- E. symmetry. apply occursb_spec. auto.
  - exfalso. apply occursb_spec in E. by specialize (H2 Ho E).
Qed.

Lemma LastByte_is b l ne :
  buf_is (Some b) l → LastByte (Some b) ne = Done (List.last (List.filter (lookable ne) (encode_all l)) 0).
Proof. intros (Hw & _ & <-). by apply LastByte_contents. Qed.

Lemma lookable_all l : List.filter (lookable false) l = l.
Proof. induction l as [|x l IH]; [done|]. cbn. by rewrite IH. Qed.


(** A reader that closes the buffer gives the whole text as a string, whether it is
    empty or not. *)
Lemma SubString_is b l d fuel :
  buf_is (Some b) l → valid_runes l → len l < Z.of_nat fuel →
  ∃ r o, Reader (Some b) NoContext d [] = Done r ∧ SubString fuel r [0] = Done (l, o).
Proof.
  intros (Hw & Hl & Hc) Hv Hf. destruct (decide (l = [])) as [->|Hne].
  { exists None, None. unfold Reader. by rewrite Empty_contents, Hc by done. }
  assert (searchable b) as Hs by (split; [done|rewrite Hl; done]).
  assert (contents b ≠ []) as Hcne by (rewrite Hc; intros E; apply Hne; by rewrite <- (runes_encode_all l), E by done).
  assert (len l ≤ len (contents b)) as Hle by (rewrite Hc; pose proof (length_runes_le (encode_all l)); rewrite runes_encode_all in *; [lia|done]).
  assert (0 < len (contents b)) by (destruct (contents b); [done|simpl; lia]).
  unfold Reader. rewrite Empty_contents, bool_decide_eq_false_2 by done. unfold reader_offsets.
  rewrite Size_contents by done. simpl length. zsimp.
  destruct Hs as [_ Hbl]. destruct (good_range_whole b (conj Hw Hbl) Hcne) as (Hft & Hto & Hmod & Hend).
  destruct (cursor_range b true 0 (len (contents b)) Hw Hbl Hft Hto) as (c & -> & _ & _ & _ & _ & _ & _).
  cbn [exec_bind]. set (r := MkBuffReader _ _ _ _ _ _ _ _ _ _ _ _). exists (Some r).
  unfold SubString. change (rbuffer r) with (Some b). cbv iota. rewrite Size_contents by done. zsimp.
  assert (substring_offsets r (len (contents b)) [0] = Done ([0; len (contents b)], -1)) as ->.
  { unfold substring_offsets. change (len [0] mod 2 =? 1) with true. cbv iota. rewrite (index_lookup [0] _ 0) by done.
    cbn [exec_bind]. change (MaxRead r) with (-1). rewrite (Z.add_0_l (len _)). zsimp. done. }
  cbn [exec_bind]. change ((0 <? len [0; len (contents b)]) && (len [0; len (contents b)] mod 2 =? 0)) with true. cbv iota.
  rewrite (index_lookup [0; len (contents b)] 0 0), (index_lookup [0; len (contents b)] 1 (len (contents b))) by done.
  cbn [exec_bind]. zsimp.
  unfold Seek. change (rbuffer (set_read r (-1) (rcur r) (rbytes r) (rbytesi r))) with (Some b). cbv iota.
  rewrite Size_contents by done. zsimp. change (rcur (set_read r _ _ _ _)) with (Some c). change (0 =? 0) with true. cbv iota.
  destruct (reset_range c b true 0 (len (contents b)) Hw Hbl) as (c' & -> & Hot & Ha & Hf' & Ht & Hb & _); [lia|lia|].
  cbn [exec_bind]. change (rnr (set_read _ _ _ _ _)) with (@None bufio). cbv iota.
  set (r1 := set_read _ _ _ _ _).
  destruct (SubString_loop_spec (Src := BuffReader_closing_source) fuel (Some r1) 0 (len (contents b)) [] [] l) as (o' & E).
  - left. exists r1, c', (encode_all l). split; [done|]. split; [done|]. split; [|done].
    exists (d, false), r1, (contents b). split; [done|]. split; [|done]. split; cbn; [|lia|lia|by left|done].
    exists c', (contents b), (len (bytes b)). split; [done|]. split; [done|]. split.
    + unfold asc_ok. by rewrite Ha, Hf', Ht, Hb.
    + by rewrite Hf', Ht, sub_full.
  - done.
  - exists o'. split; [done|]. rewrite E, take_ge by lia. done.
Qed.
