(* ===== verification/IterMap.v ===== *)
(** src/ioext/itermap.go: a map that tells of its changes.

    The [sync.Map] is a finite map, gone over by [Range] in the order of [map_to_list].
    An event is handed to a goroutine of its own; an operation here gives the events it
    starts a goroutine for, in the order it starts them.  The goroutines run in any order.  [fmt] of keys and values does not matter: a key is asked
    whether it is the empty string, values whether they are equal, which panics for
    values of a type that cannot be compared ([reflect.Value.Equal]). *)

From S2P Require Import Prelude.
From stdpp Require Import gmap.
#[local] Open Scope Z_scope.

(** What the map asks of its keys and values. *)
Class Entries (K V : Type) := {
  empty_name : K → bool;
  value_Equal : V → V → exec bool;
  zero_value : V }.

Section itermap.
Context {K V : Type} `{Countable K} `{!Entries K V}.

Inductive event :=
| Deleted (mp : gmap K V)
| Changed (name : K) (old new : V)
| Disposed (mp : gmap K V)
| Add (name : K) (new : V).

(** The handlers that are set, and whether an event reaches one. *)
Record MapIterateEvents := MkEvents {
  EventDeleted : bool;
  EventDisposed : bool;
  EventChanged : bool;
  EventAdd : bool }.

Definition handled (mpevents : option MapIterateEvents) (e : event) : bool :=
  match mpevents with
  | None => false
  | Some h => match e with
              | Deleted _ => EventDeleted h
              | Changed _ _ _ => EventChanged h
              | Disposed _ => EventDisposed h
              | Add _ _ => EventAdd h
              end
  end.

Record itermap := MkIterMap {
  orgsncmp : option (gmap K V);
  mpevents : option MapIterateEvents }.

Definition MapIterator : itermap := MkIterMap (Some ∅) None.

Definition Empty (o : option itermap) : bool :=
  match o with
  | None => true
  | Some imp => match orgsncmp imp with Some m => bool_decide (m = ∅) | None => true end
  end.

Definition Contains (o : option itermap) (name : K) : bool :=
  match o with
  | None => false
  | Some imp => match orgsncmp imp with Some m => bool_decide (is_Some (m !! name)) | None => false end
  end.

(** A goroutine for the event, when there are handlers to ask: the list is the goroutines
    in the order they are started, which says nothing of the order they run in. *)
Definition send (imp : itermap) (e : event) : list event :=
  match mpevents imp with Some _ => [e] | None => [] end.
Definition send_map (imp : itermap) (mk : gmap K V → event) (tmp : gmap K V) : list event :=
  if bool_decide (tmp = ∅) then [] else send imp (mk tmp).

Definition Clear (o : option itermap) : option itermap * list event :=
  match o with
  | None => (None, [])
  | Some imp =>
    match orgsncmp imp with
    | Some m => (Some (MkIterMap (Some ∅) (mpevents imp)), send_map imp Deleted m)
    | None => (o, [])
    end
  end.

Definition Delete (o : option itermap) (name : list K) : option itermap * list event :=
  let name := List.filter (λ k, negb (empty_name k)) name in
  match o, name with
  | None, _ | _, [] => (o, [])
  | Some imp, _ =>
    match orgsncmp imp with
    | Some m =>
      let tmp := base.filter (λ kv, kv.1 ∈ name) m in
      (Some (MkIterMap (Some (base.filter (λ kv, kv.1 ∉ name) m)) (mpevents imp)), send_map imp Deleted tmp)
    | None => (o, [])
    end
  end.

Definition Get (o : option itermap) (name : K) : V * bool :=
  if empty_name name then (zero_value, false)
  else match o with
       | Some imp => match orgsncmp imp with
                     | Some m => match m !! name with Some v => (v, true) | None => (zero_value, false) end
                     | None => (zero_value, false)
                     end
       | None => (zero_value, false)
       end.

Definition Set_ (o : option itermap) (name : K) (value : V) : exec (option itermap * list event) :=
  if empty_name name then Done (o, [])
  else
    match o with
    | None => Done (None, [])
    | Some imp =>
      match orgsncmp imp with
      | None => Done (o, [])
      | Some m =>
        let stored := Some (MkIterMap (Some (<[name := value]> m)) (mpevents imp)) in
        match m !! name with
        | Some prvval =>
          let* eq := value_Equal prvval value in
          if (eq : bool) then Done (o, []) else Done (stored, send imp (Changed name prvval value))
        | None => Done (stored, send imp (Add name value))
        end
      end
    end.

(** [Events]: from the first call on there are handlers to ask. *)
Definition Events (o : option itermap) : option itermap * option MapIterateEvents :=
  match o with
  | None => (None, None)
  | Some imp =>
    match mpevents imp with
    | Some h => (o, Some h)
    | None => let h := MkEvents false false false false in (Some (MkIterMap (orgsncmp imp) (Some h)), Some h)
    end
  end.

(** [Iterate]: the entries in turn until [yield] has enough. *)
Fixpoint yield_all {T} (yield : K → V → T → bool * T) (kvs : list (K * V)) (t : T) : T :=
  match kvs with
  | [] => t
  | (k, v) :: kvs' => let '(go, t') := yield k v t in if go then yield_all yield kvs' t' else t'
  end.
Definition Iterate {T} (o : option itermap) (yield : K → V → T → bool * T) (t : T) : T :=
  match o with
  | Some imp => match orgsncmp imp with Some m => yield_all yield (map_to_list m) t | None => t end
  | None => t
  end.

Definition DisposeMap (mp : gmap K V) : gmap K V := ∅.

Definition Close (o : option itermap) : option itermap * list event :=
  match o with
  | None => (None, [])
  | Some imp =>
    (Some (MkIterMap None None), match orgsncmp imp with Some m => send_map imp Disposed m | None => [] end)
  end.

Definition finalizeItermap (imp : itermap) : option itermap * list event := Close (Some imp).

(** * Theory *)

(** ** The events tell what the map holds *)

Inductive iop := OpSet (name : K) (value : V) | OpDelete (names : list K) | OpClear | OpEvents | OpClose.

Definition run_iop (op : iop) (o : option itermap) : exec (option itermap * list event) :=
  match op with
  | OpSet name value => Set_ o name value
  | OpDelete names => Done (Delete o names)
  | OpClear => Done (Clear o)
  | OpEvents => Done ((Events o).1, [])
  | OpClose => Done (Close o)
  end.

Fixpoint run_iops (ops : list iop) (o : option itermap) : exec (option itermap * list event) :=
  match ops with
  | [] => Done (o, [])
  | op :: ops' =>
    let* '(o1, es1) := run_iop op o in
    let* '(o2, es2) := run_iops ops' o1 in Done (o2, es1 ++ es2)
  end.

(** What an event tells one who knows the map before it: what the map holds after it. *)
Inductive follows : gmap K V → event → gmap K V → Prop :=
| follows_add m name new : m !! name = None → follows m (Add name new) (<[name := new]> m)
| follows_changed m name old new : m !! name = Some old → follows m (Changed name old new) (<[name := new]> m)
| follows_deleted m mp : mp ≠ ∅ → mp ⊆ m → follows m (Deleted mp) (m ∖ mp)
| follows_disposed m : m ≠ ∅ → follows m (Disposed m) ∅.

Inductive follows_all : gmap K V → list event → gmap K V → Prop :=
| follows_none m : follows_all m [] m
| follows_more m e m1 es m2 : follows m e m1 → follows_all m1 es m2 → follows_all m (e :: es) m2.

Lemma follows_app m es1 m1 es2 m2 : follows_all m es1 m1 → follows_all m1 es2 m2 → follows_all m (es1 ++ es2) m2.
Proof. induction 1 as [|m e m' es m'' He Hes IH]; [done|]. intros Hm. cbn. econstructor; [done|by apply IH]. Qed.

Lemma follows_one m e m' : follows m e m' → follows_all m [e] m'.
Proof. intros He. econstructor; [done|constructor]. Qed.

(** What a map holds; nothing once it is closed. *)
Definition content (o : option itermap) : gmap K V :=
  match o with Some imp => default ∅ (orgsncmp imp) | None => ∅ end.

(** A map that tells of its changes: it has handlers to ask, unless it is closed. *)
Definition telling (o : option itermap) : Prop :=
  match o with Some imp => is_Some (mpevents imp) ∨ orgsncmp imp = None | None => True end.

(** Some of the entries are taken out of an open map that tells of it. *)
Lemma taken_out imp m mp mk m' :
  orgsncmp imp = Some m → is_Some (mpevents imp) → (mp ≠ ∅ → follows m (mk mp) m') → (mp = ∅ → m' = m) →
  follows_all m (send_map imp mk mp) m'.
Proof.
  intros Hm [h Hh] Hf He. unfold send_map, send. rewrite Hh. case_bool_decide as Hmp.
  - rewrite (He Hmp). constructor.
  - apply follows_one. by apply Hf.
Qed.

Lemma Clear_follows o :
  telling o → telling (Clear o).1 ∧ follows_all (content o) (Clear o).2 (content (Clear o).1).
Proof.
  destruct o as [imp|]; [|split; [done|constructor]]. intros Ht. unfold Clear.
  destruct (orgsncmp imp) as [m|] eqn:Em; [|split; [done|constructor]]. destruct Ht as [Ht|?]; [|congruence].
  split; [by left|]. cbn. rewrite Em. apply (taken_out imp m m); [done|done| |done].
  intros Hne. rewrite <- (map_difference_diag m). by apply follows_deleted.
Qed.

Lemma Delete_follows o names :
  telling o → telling (Delete o names).1 ∧ follows_all (content o) (Delete o names).2 (content (Delete o names).1).
Proof.
  intros Ht. unfold Delete. generalize (List.filter (λ k, negb (empty_name k)) names). intros ns.
  destruct o as [imp|]; [|destruct ns; (split; [done|constructor])].
  destruct ns as [|n ns']; [split; [done|constructor]|]. set (ns := n :: ns').
  destruct (orgsncmp imp) as [m|] eqn:Em; [|split; [done|constructor]].
  destruct Ht as [Ht|?]; [|congruence]. split; [by left|]. cbn [content orgsncmp fst snd]. rewrite Em. cbn [default from_option id].
  match goal with |- follows_all _ (send_map _ _ ?mp) ?m' => set (out := mp); set (kept := m') end.
  assert (kept = m ∖ out) as Ek.
  { apply map_eq. intros k. unfold kept, out. rewrite lookup_difference. rewrite !map_lookup_filter.
    destruct (m !! k) as [v|]; [|done]. cbn. destruct (decide (k ∈ ns)); repeat case_guard; done. }
  apply (taken_out imp m out); [done|done| |].
  - intros Hne. rewrite Ek. apply follows_deleted; [done|]. apply map_filter_subseteq.
  - intros He. by rewrite Ek, He, map_difference_empty.
Qed.

Lemma Set_follows o name value o' es :
  telling o → Set_ o name value = Done (o', es) → telling o' ∧ follows_all (content o) es (content o').
Proof.
  intros Ht E. unfold Set_ in E. destruct (empty_name name); [injection E as <- <-; split; [done|constructor]|].
  destruct o as [imp|]; [|injection E as <- <-; split; [done|constructor]].
  destruct (orgsncmp imp) as [m|] eqn:Em; [|injection E as <- <-; split; [done|constructor]].
  destruct Ht as [Ht|?]; [|congruence]. pose proof Ht as [h Hh]. unfold send in E. rewrite Hh in E.
  destruct (m !! name) as [old|] eqn:Ek.
  - destruct (value_Equal old value) as [[]| |]; try done; cbn [exec_bind] in E; injection E as <- <-.
    + split; [by left|constructor].
    + split; [by left|]. cbn. rewrite Em. by apply follows_one, follows_changed.
  - injection E as <- <-. split; [by left|]. cbn. rewrite Em. by apply follows_one, follows_add.
Qed.

Lemma Close_follows o :
  telling o → telling (Close o).1 ∧ follows_all (content o) (Close o).2 (content (Close o).1).
Proof.
  destruct o as [imp|]; [|split; [done|constructor]]. intros Ht. split; [by right|]. cbn.
  destruct (orgsncmp imp) as [m|] eqn:Em; [|constructor]. destruct Ht as [Ht|?]; [|congruence].
  apply (taken_out imp m m); [done|done| |done]. intros Hne. by apply follows_disposed.
Qed.

Lemma run_iop_follows op o o' es :
  telling o → run_iop op o = Done (o', es) → telling o' ∧ follows_all (content o) es (content o').
Proof.
  intros Ht E. destruct op as [name value|names| | |]; cbn [run_iop] in E.
  - by eapply Set_follows.
  - injection E as E. pose proof (Delete_follows o names Ht). by rewrite E in *.
  - injection E as E. pose proof (Clear_follows o Ht). by rewrite E in *.
  - injection E as <- <-. destruct o as [imp|]; [|split; [done|constructor]]. cbn.
    destruct (mpevents imp) as [h|] eqn:Eh; cbn; split; try constructor; eauto.
  - injection E as E. pose proof (Close_follows o Ht). by rewrite E in *.
Qed.

Lemma run_iops_follow ops o o' es :
  telling o → run_iops ops o = Done (o', es) → follows_all (content o) es (content o').
Proof.
  revert o es. induction ops as [|op ops IH]; intros o es Ht E; cbn in E; [injection E as <- <-; constructor|].
  destruct (run_iop op o) as [[o1 es1]| |] eqn:E1; cbn [exec_bind] in E; try discriminate.
  destruct (run_iops ops o1) as [[o2 es2]| |] eqn:E2; cbn [exec_bind] in E; try discriminate. injection E as <- <-.
  destruct (run_iop_follows op o o1 es1 Ht E1) as [Ht1 H1]. eapply follows_app; [done|by apply IH].
Qed.

(** ** A copy kept by the events

    Nothing keeps the goroutines of the events in an order.  A copy is kept by doing, for
    each event, what it tells; what comes of a key depends on the events of that key. *)
Definition apply_event (m : gmap K V) (e : event) : gmap K V :=
  match e with
  | Add name new | Changed name _ new => <[name := new]> m
  | Deleted mp | Disposed mp => m ∖ mp
  end.

Definition touches (k : K) (e : event) : bool :=
  match e with
  | Add name _ | Changed name _ _ => bool_decide (name = k)
  | Deleted mp | Disposed mp => bool_decide (is_Some (mp !! k))
  end.

(** Of the events of a key the last one counts. *)
Definition told (k : K) (was : option V) (e : event) : option V :=
  match e with
  | Add _ new | Changed _ _ new => Some new
  | Deleted _ | Disposed _ => None
  end.

Lemma apply_event_lookup m e k : apply_event m e !! k = if touches k e then told k (m !! k) e else m !! k.
Proof.
  assert (∀ mp : gmap K V, (m ∖ mp) !! k = if bool_decide (is_Some (mp !! k)) then None else m !! k) as Hd.
  { intros mp. rewrite lookup_difference. case_bool_decide as Hk; [by destruct Hk as [v ->]|]. by destruct (mp !! k) eqn:?; [destruct Hk|]. }
  destruct e as [mp|name old new|mp|name new]; cbn; [done| |done|]; case_bool_decide as Hk;
    [subst; by rewrite lookup_insert_eq|by rewrite lookup_insert_ne|subst; by rewrite lookup_insert_eq|by rewrite lookup_insert_ne].
Qed.

Lemma copy_lookup es m k :
  foldl apply_event m es !! k = foldl (told k) (m !! k) (List.filter (touches k) es).
Proof.
  revert m. induction es as [|e es IH]; intros m; [done|]. cbn [foldl]. rewrite IH, apply_event_lookup. cbn.
  by destruct (touches k e).
Qed.

Lemma follows_apply m e m' : follows m e m' → apply_event m e = m'.
Proof. destruct 1; cbn; [done..|apply map_difference_diag]. Qed.

Lemma follows_all_apply m es m' : follows_all m es m' → foldl apply_event m es = m'.
Proof. induction 1 as [|m e m1 es m2 He _ IH]; [done|]. cbn. by rewrite (follows_apply m e m1 He). Qed.

Lemma Permutation_filter {A} (f : A → bool) l l' : l ≡ₚ l' → List.filter f l ≡ₚ List.filter f l'.
Proof.
  induction 1 as [|x l l' _ IH|x y l|l1 l2 l3 _ IH1 _ IH2]; cbn; [done| | |by transitivity (List.filter f l2)].
  - destruct (f x); [by constructor|done].
  - destruct (f x), (f y); done || constructor.
Qed.

Lemma Permutation_short {A} (l l' : list A) : l ≡ₚ l' → (length l' ≤ 1)%nat → l = l'.
Proof.
  intros Hp Hl. destruct l' as [|x [|y l']]; cbn in Hl; [by apply Permutation_nil_r in Hp| |lia].
  by apply Permutation_singleton_r in Hp.
Qed.

(** C32: the events of a map that was asked for its events, for each of which it starts a
    goroutine, lead in the order they are started from what it held to what it holds, each of them fitting what is held before it, after
    any sequence of operations, closing it too.  The goroutines may run in any order: of
    whatever order they run in, a copy that does what each event tells holds for a key
    what the map holds for it, when the events of that key came in the order they were
    started, and always when it is at most one; the events of other keys do not matter. *)
Theorem events_follow ops o o' es :
  telling o → run_iops ops o = Done (o', es) →
  follows_all (content o) es (content o') ∧
  ∀ l k, l ≡ₚ es →
    List.filter (touches k) l = List.filter (touches k) es ∨ (length (List.filter (touches k) es) ≤ 1)%nat →
    foldl apply_event (content o) l !! k = content o' !! k.
Proof.
  intros Ht E. pose proof (run_iops_follow ops o o' es Ht E) as Hf. split; [done|]. intros l k Hp Hk.
  rewrite <- (follows_all_apply _ _ _ Hf), !copy_lookup. f_equal. destruct Hk as [|Hk]; [done|].
  apply Permutation_short; [by apply Permutation_filter|done].
Qed.

(** A value that was set is what Get finds: the value itself, or the one that was
    there if they are equal; other names keep theirs. *)
Theorem Set_then_Get imp m name value o' es name' :
  orgsncmp imp = Some m → empty_name name = false → empty_name name' = false →
  Set_ (Some imp) name value = Done (o', es) →
  Get o' name' = (if bool_decide (name' = name) then
                    match m !! name with
                    | Some old => match value_Equal old value with Done true => (old, true) | _ => (value, true) end
                    | None => (value, true)
                    end
                  else Get (Some imp) name').
Proof.
  intros Em Hn Hn' E. unfold Set_ in E. rewrite Hn, Em in E. unfold Get. rewrite Hn'.
  destruct (m !! name) as [old|] eqn:Ek.
  - destruct (value_Equal old value) as [[]| |]; try done; cbn [exec_bind] in E; injection E as <- <-; rewrite ?Em; cbn [orgsncmp].
    + case_bool_decide as Hd; [subst; by rewrite Ek|done].
    + case_bool_decide as Hd; [subst; by rewrite lookup_insert_eq|by rewrite lookup_insert_ne by done].
  - injection E as <- <-. cbn [orgsncmp]. rewrite Em.
    case_bool_decide as Hd; [subst; by rewrite lookup_insert_eq|by rewrite lookup_insert_ne by done].
Qed.
End itermap.
Arguments iop : clear implicits.

(** * Instances *)

#[export] Instance number_entries : Entries Z Z :=
  {| empty_name _ := false; value_Equal a b := Done (a =? b); zero_value := 0 |}.

Definition demo : option (itermap (K := Z) (V := Z)) := (Events (Some MapIterator)).1.
Definition demo_ops : list (iop Z Z) := [OpSet 1 5; OpSet 2 6; OpSet 1 7; OpSet 2 6; OpDelete [2; 3]; OpClose].

Definition demo_events : list (event (K := Z) (V := Z)) :=
  [Add 1 5; Add 2 6; Changed 1 5 7; Deleted {[ 2 := 6 ]}; Disposed {[ 1 := 7 ]}].

(** The events of 1 in their order, those of 2 among them. *)
Lemma events_follow_witness :
  follows_all (V := Z) ∅ demo_events ∅ ∧
  foldl apply_event ∅ [Add 2 6; Add 1 5; Deleted {[ 2 := 6 ]}; Changed 1 5 7; Disposed {[ 1 := 7 ]}] !! 1 = (None : option Z).
Proof.
  pose proof (events_follow demo_ops demo (Some (MkIterMap None None)) demo_events
    (or_introl (ex_intro _ _ eq_refl)) eq_refl) as [Hf Hk].
  split; [exact Hf|]. apply (Hk _ 1); [|left; vm_compute; reflexivity].
  unfold demo_events. apply perm_trans with [Add 1 5; Add 2 6; Deleted {[ 2 := 6 ]}; Changed 1 5 7; Disposed {[ 1 := 7 ]}];
    [apply perm_swap|apply perm_skip, perm_skip, perm_swap].
Defined.

(** Two values set for a name, and the second event handled before the first: the copy
    keeps the first value. *)
Example events_overtake :
  run_iops [OpSet 1 5; OpSet 1 7] demo = Done (Some (MkIterMap (Some {[ 1 := 7 ]}) (Some (MkEvents false false false false))),
                                              [Add 1 5; Changed 1 5 7]) ∧
  foldl apply_event ∅ [Changed 1 5 7; Add 1 5] !! 1 = Some 5.
Proof. split; reflexivity. Qed.

Lemma Set_then_Get_witness :
  Get (Some (MkIterMap (Some {[ 1 := 5 ]}) None)) 1 = (5, true).
Proof.
  exact (Set_then_Get MapIterator ∅ 1 5 (Some (MkIterMap (Some {[ 1 := 5 ]}) None)) [] 1 eq_refl eq_refl eq_refl eq_refl).
Defined.
