(* ===== verification/Concurrent.v ===== *)
(** src/concurrent: Map and Slice, maps and growing slices that scripts and requests share,
    which hold each other by pointers, and the values they make of Go's maps and slices.

    [heap] holds the Map, Slice and [sync.Map] values pointers point to.  A [sync.Map] is a
    finite map; the order [Range] goes over it in is an argument ([ranged]), any order.  An
    entry that is gone when [Range] comes to it is passed over.  Operations run one at a
    time.  Callbacks thread a state of their own.  An interface value that cannot be a key
    panics where a map is asked for it. *)

From S2P Require Import Prelude GoStrings.
From stdpp Require Import gmap sorting.
#[local] Open Scope Z_scope.

(** Interface values, as far as the maps tell them apart: [VArr] and [VMapv] are Go's slices
    and maps (in the order reflection gives their keys), [VMapP] and [VSliceP] pointers to
    Map and Slice, the last two functions of the types the package looks for. *)
Inductive value :=
| VNil
| VInt (z : Z)
| VStr (s : list Z)
| VArr (l : list value)
| VMapv (kvs : list (value * value))
| VMapP (p : nat)
| VSliceP (p : nat)
| VDone
| VIndexDone.

(** Values that can be keys. *)
Inductive key := KNil | KInt (z : Z) | KStr (s : list Z) | KMapP (p : nat) | KSliceP (p : nat).

#[export] Instance key_eq_dec : EqDecision key.
Proof. solve_decision. Defined.

#[export] Instance key_countable : Countable key.
Proof.
  apply (inj_countable'
    (λ k, match k with
          | KNil => inl (inl ()) | KInt z => inl (inr z) | KStr s => inr (inl s)
          | KMapP p => inr (inr (inl p)) | KSliceP p => inr (inr (inr p)) end)
    (λ x : (unit + Z) + (list Z + (nat + nat)), match x with
          | inl (inl _) => KNil | inl (inr z) => KInt z | inr (inl s) => KStr s
          | inr (inr (inl p)) => KMapP p | inr (inr (inr p)) => KSliceP p end)).
  by intros [].
Defined.

Definition of_key (k : key) : value :=
  match k with KNil => VNil | KInt z => VInt z | KStr s => VStr s | KMapP p => VMapP p | KSliceP p => VSliceP p end.

(** The hash of a value: a slice, a map or a function has none. *)
Definition hash (v : value) : exec key :=
  match v with
  | VNil => Done KNil
  | VInt z => Done (KInt z)
  | VStr s => Done (KStr s)
  | VMapP p => Done (KMapP p)
  | VSliceP p => Done (KSliceP p)
  | _ => Panic
  end.

(** [a == b]: values of different types are not equal, those of one type without equality
    cannot be compared. *)
Definition equal (a b : value) : exec bool :=
  match a, b with
  | VArr _, VArr _ | VMapv _, VMapv _ | VDone, VDone | VIndexDone, VIndexDone => Panic
  | _, _ => Done (match hash a, hash b with Done k, Done k' => bool_decide (k = k') | _, _ => false end)
  end.

Inductive node :=
| MapN (elmmp : option nat) (cnt : Z)
| SliceN (mp : option nat)
| SyncN (m : gmap key value).

Abbreviation heap := (list node).

Definition the_map (h : heap) (p : nat) : exec (option nat * Z) :=
  match h !! p with Some (MapN e c) => Done (e, c) | _ => Panic end.
Definition the_slice (h : heap) (p : nat) : exec (option nat) :=
  match h !! p with Some (SliceN o) => Done o | _ => Panic end.
Definition the_sync (h : heap) (p : nat) : exec (gmap key value) :=
  match h !! p with Some (SyncN m) => Done m | _ => Panic end.

Definition new (h : heap) (n : node) : heap * nat := (h ++ [n], length h).

(** ** sync.Map *)

Definition Load (h : heap) (s : nat) (v : value) : exec (value * bool) :=
  let* k := hash v in
  let* m := the_sync h s in
  Done match m !! k with Some x => (x, true) | None => (VNil, false) end.

Definition Store (h : heap) (s : nat) (v x : value) : exec heap :=
  let* k := hash v in
  let* m := the_sync h s in Done (<[s := SyncN (<[k := x]> m)]> h).

Definition Delete (h : heap) (s : nat) (k : key) : exec heap :=
  let* m := the_sync h s in Done (<[s := SyncN (delete k m)]> h).

(** [Range] with a callback that changes no map. *)
Fixpoint range {S} (f : key → value → S → exec (bool * S)) (kvs : list (key * value)) (s : S) : exec S :=
  match kvs with
  | [] => Done s
  | (k, v) :: kvs' => let* '(go, s') := f k v s in if (go : bool) then range f kvs' s' else Done s'
  end.

(** [Range] with one that may. *)
Fixpoint range_live {S} (heap_of : S → heap) (sm : nat) (f : key → value → S → exec (bool * S)) (ks : list key) (s : S) : exec S :=
  match ks with
  | [] => Done s
  | k :: ks' =>
    let* m := the_sync (heap_of s) sm in
    match m !! k with
    | None => range_live heap_of sm f ks' s
    | Some v => let* '(go, s') := f k v s in if (go : bool) then range_live heap_of sm f ks' s' else Done s'
    end
  end.

(** ** Map *)

Definition NewMap (h : heap) : heap * nat :=
  let '(h1, s) := new h (SyncN ∅) in new h1 (MapN (Some s) 0).

Definition Count (h : heap) (o : option nat) : exec Z :=
  match o with None => Done 0 | Some p => let* '(_, c) := the_map h p in Done c end.

Definition Exist (h : heap) (o : option nat) (v : value) : exec bool :=
  match o with
  | None => Done false
  | Some p => let* '(e, _) := the_map h p in
              match e with None => Done false | Some s => let* '(_, b) := Load h s v in Done b end
  end.

Definition Get (h : heap) (o : option nat) (v : value) : exec (value * bool) :=
  match o with
  | None => Done (VNil, false)
  | Some p => let* '(e, _) := the_map h p in match e with None => Done (VNil, false) | Some s => Load h s v end
  end.

(** [Set], with [constructValue] as an argument. *)
Definition set_with (constructValue : value → heap → exec (value * heap)) (o : option nat) (k v : value) (h : heap) : exec heap :=
  match o with
  | None => Done h
  | Some p =>
    let* '(e, c) := the_map h p in
    match e with
    | None => Done h
    | Some s =>
      let* '(oldval, loaded) := Load h s k in
      let h1 := if (loaded : bool) then h else <[p := MapN e (c + 1)]> h in
      let* same := equal oldval v in
      if (same : bool) then Done h1 else let* '(x, h2) := constructValue v h1 in Store h2 s k x
    end
  end.

(** *** Slice.Append and constructValue

    The elements of a Go slice are read from an array of reflect values that was never
    filled: each becomes nil.  A value that is no slice or map is kept as it is; so is one
    made here before, which is why [Append] and [Set] do not make it again ([kept]). *)

Definition kept (v : value) (h : heap) : exec (value * heap) := Done (v, h).

Fixpoint append_with (constructValue : value → heap → exec (value * heap)) (mp : nat) (at_ : Z) (a : list value) (h : heap) : exec heap :=
  match a with
  | [] => Done h
  | v :: a' =>
    let* '(x, h1) := constructValue v h in
    let* h2 := set_with constructValue (Some mp) (VInt at_) x h1 in append_with constructValue mp (at_ + 1) a' h2
  end.

Definition NewSlice (h : heap) : heap * nat :=
  let '(h1, p) := NewMap h in new h1 (SliceN (Some p)).

Definition slice_append (constructValue : value → heap → exec (value * heap)) (o : option nat) (a : list value) (h : heap) : exec heap :=
  match o, a with
  | Some p, _ :: _ =>
    let* mp := the_slice h p in
    match mp with
    | Some q => let* adjustby := Count h (Some q) in append_with constructValue q adjustby a h
    | None => Done h
    end
  | _, _ => Done h
  end.

Fixpoint constructValue (v : value) (h : heap) {struct v} : exec (value * heap) :=
  match v with
  | VArr l =>
    let '(h1, p) := NewSlice h in
    let* h2 := slice_append kept (Some p) (map (λ _, VNil) l) h1 in Done (VSliceP p, h2)
  | VMapv kvs =>
    let '(h1, p) := NewMap h in
    let* h2 := (fix go kvs h :=
      match kvs with
      | [] => Done h
      | (k, x) :: kvs' =>
        let* '(k', h1) := constructValue k h in
        let* '(x', h2) := constructValue x h1 in
        let* h3 := set_with kept (Some p) k' x' h2 in go kvs' h3
      end) kvs h1 in
    Done (VMapP p, h2)
  | _ => Done (v, h)
  end.

Definition Set_ (o : option nat) (k v : value) (h : heap) : exec heap := set_with constructValue o k v h.
Definition Append (o : option nat) (a : list value) (h : heap) : exec heap := slice_append constructValue o a h.

(** *** Lookups by several keys

    The keys asked for are marked, those asked for twice taken out.  Keys and Values stay at
    a key once they have marked it, find it marked and take it out; ForEach moves on;
    iteratemap moves on and puts what follows a key asked for twice in its place, as one
    value. *)

Definition cut_out (k : list value) (ki : Z) : list value := take (Z.to_nat ki) k ++ drop (Z.to_nat (ki + 1)) k.
Definition cut_wrong (k : list value) (ki : Z) : list value := take (Z.to_nat ki) k ++ [VArr (drop (Z.to_nat (ki + 1)) k)].

Fixpoint mark_keys (n : nat) (step : Z) (cut : list value → Z → list value) (mpk : gset key) (k : list value) (ki kl : Z)
  : exec (gset key * Z) :=
  match n with
  | O => NoFuel
  | S n' =>
    if ki <? kl then
      let* x := index k ki in
      let* kx := hash x in
      if decide (kx ∈ mpk) then mark_keys n' step cut mpk (cut k ki) ki (kl - 1)
      else mark_keys n' step cut ({[kx]} ∪ mpk) k (ki + step) kl
    else Done (mpk, kl)
  end.

Definition marks (step : Z) (cut : list value → Z → list value) (k : list value) : exec (gset key * Z) :=
  mark_keys (2 * length k + 1) step cut ∅ k 0 (len k).

Section ranged.
Context (ranged : gmap key value → list (key * value)).

(** Keys and Values differ in what they pick of an entry. *)
Definition picked (pick : key → value → value) (h : heap) (o : option nat) (k : list value) : exec (list value) :=
  match o with
  | None => Done []
  | Some p =>
    let* '(e, _) := the_map h p in
    match e with
    | None => Done []
    | Some s =>
      if 0 <? len k then
        let* '(mpk, kl) := marks 0 cut_out k in
        let* m := the_sync h s in
        let* '(l, _) := range (λ ke v '(l, kl),
          let '(l, kl) := if decide (ke ∈ mpk) then (l ++ [pick ke v], kl - 1) else (l, kl) in
          Done (negb (0 <? kl), (l, kl))) (ranged m) ([], kl) in
        Done l
      else
        let* m := the_sync h s in
        range (λ ke v l, Done (true, l ++ [pick ke v])) (ranged m) []
    end
  end.

Definition Keys : heap → option nat → list value → exec (list value) := picked (λ k _, of_key k).
Definition Values : heap → option nat → list value → exec (list value) := picked (λ _ v, v).

(** *** Iterating *)

Section callbacks.
Context {S : Type}.

Definition iteratemap (h : heap) (e : option nat) (k : list value) (yield : value → value → S → exec (bool * S)) (s : S) : exec S :=
  match e with
  | None => Done s
  | Some sm =>
    if 0 <? len k then
      let* '(mpks, kl) := marks 1 cut_wrong k in
      let* m := the_sync h sm in
      let* _ := range (λ ke _ kl, let kl := if decide (ke ∈ mpks) then kl - 1 else kl in Done (negb (0 <? kl), kl)) (ranged m) kl in
      Done s
    else let* m := the_sync h sm in range (λ ke v s, yield (of_key ke) v s) (ranged m) s
  end.

Definition Iterate (h : heap) (o : option nat) (k : list value) (yield : value → value → S → exec (bool * S)) (s : S) : exec S :=
  match o with
  | None => Done s
  | Some p => let* '(e, _) := the_map h p in iteratemap h e k yield s
  end.
Definition Iter := Iterate.

Definition Range (h : heap) (o : option nat) (f : value → value → S → exec (bool * S)) (k : list value) (s : S) : exec S :=
  match o with
  | None => Done s
  | Some p =>
    let* '(e, _) := the_map h p in
    iteratemap h e k (λ ke v s, let* '(b, s') := f ke v s in Done (negb b, s')) s
  end.

(** *** ForEach: an entry is told when the one after the next has come, so that the last
    one is told as the last *)

Definition seen : Type := option (value * value) * option (value * value) * bool * S.

Definition prfrm (f : value → value → bool → bool → S → exec (bool * S)) (ke v : value) (x : seen) : exec (bool * seen) :=
  let '(prv, nxt, first, s) := x in
  match prv, nxt with
  | None, _ => Done (true, (Some (ke, v), nxt, first, s))
  | Some _, None => Done (true, (prv, Some (ke, v), first, s))
  | Some (pk, pv), Some _ =>
    let* '(stop, s') := f pk pv first false s in
    if (stop : bool) then Done (false, (prv, nxt, first, s')) else Done (true, (nxt, Some (ke, v), false, s'))
  end.

Definition wrpup (f : value → value → bool → bool → S → exec (bool * S)) (x : seen) : exec S :=
  let '(prv, nxt, first, s) := x in
  match prv, nxt with
  | Some (pk, pv), Some (nk, nv) =>
    let* '(stop, s') := f pk pv first false s in
    if (stop : bool) then Done s' else let* '(_, s'') := f nk nv false true s' in Done s''
  | Some (pk, pv), None => let* '(_, s') := f pk pv true true s in Done s'
  | None, _ => Done s
  end.

Definition ForEach (h : heap) (o : option nat) (f : value → value → bool → bool → S → exec (bool * S)) (k : list value) (s : S) : exec S :=
  match o with
  | None => Done s
  | Some p =>
    let* '(e, _) := the_map h p in
    match e with
    | None => Done s
    | Some sm =>
      let* x :=
        if 0 <? len k then
          let* '(mpk, kl) := marks 1 cut_out k in
          let* m := the_sync h sm in
          range (λ ke v x, if decide (ke ∈ mpk) then prfrm f (of_key ke) v x else Done (negb (0 <? kl), x)) (ranged m) (None, None, true, s)
        else let* m := the_sync h sm in range (λ ke v x, prfrm f (of_key ke) v x) (ranged m) (None, None, true, s) in
      wrpup f x
    end
  end.
End callbacks.

(** *** Dispose

    [Dispose] of a Map leaves [Range] after its first entry; that of a Slice goes over all
    of them first.  [n] bounds how deep they are in each other. *)
Fixpoint dispose (n : nat) (v : value) (h : heap) : exec heap :=
  match n with
  | O => NoFuel
  | S n' =>
    match v with
    | VMapP p =>
      let* '(e, c) := the_map h p in
      match e with
      | None => Done h
      | Some s =>
        let h1 := <[p := MapN None c]> h in
        let* m := the_sync h1 s in
        match ranged m with
        | [] => Done h1
        | (ke, x) :: _ => let* h2 := Delete h1 s ke in dispose n' x h2
        end
      end
    | VSliceP p =>
      let* mp := the_slice h p in
      match mp with
      | None => Done h
      | Some q =>
        let h1 := <[p := SliceN None]> h in
        let* vals := picked (λ _ v, v) h1 (Some q) [] in
        let* h2 := foldl (λ r v, let* h := r in dispose n' v h) (Done h1) vals in
        dispose n' (VMapP q) h2
      end
    | _ => Done h
    end
  end.

(** *** Del

    The keys that are found are taken out of the list of those asked for; with a callback
    as the last one, what was deleted is told to it, and otherwise disposed of. *)
Record deleting := MkDel { d_heap : heap; d_key : list value; d_keysl : Z; d_keys : list value; d_values : list value }.

Fixpoint find_key (ke : key) (l : list value) : exec (option nat) :=
  match l with
  | [] => Done None
  | k :: l' =>
    let* same := equal k (of_key ke) in
    if (same : bool) then Done (Some 0%nat) else let* o := find_key ke l' in Done (Datatypes.S <$> o)
  end.

Definition del_one (n : nat) (p s : nat) (told : bool) (ke : key) (_ : value) (d : deleting) : exec (bool * deleting) :=
  let* o := find_key ke (d_key d) in
  let* d' :=
    match o with
    | None => Done d
    | Some kn =>
      let* m := the_sync (d_heap d) s in
      let rest := cut_out (d_key d) (Z.of_nat kn) in
      match m !! ke with
      | None => Done (MkDel (d_heap d) rest (d_keysl d - 1) (d_keys d) (d_values d))
      | Some delval =>
        let* h1 := Delete (d_heap d) s ke in
        let* '(e, c) := the_map h1 p in
        let h2 := <[p := MapN e (c - 1)]> h1 in
        if told then Done (MkDel h2 rest (d_keysl d - 1) (d_keys d ++ [of_key ke]) (d_values d ++ [delval]))
        else let* h3 := dispose n delval h2 in Done (MkDel h3 rest (d_keysl d - 1) (d_keys d) (d_values d))
      end
    end in
  Done (0 <? d_keysl d', d').

(** What is told to the callback: the keys and values deleted, if there are any. *)
Definition Del (n : nat) (o : option nat) (ks : list value) (h : heap) : exec (heap * option (list value * list value)) :=
  match o, ks with
  | Some p, _ :: _ =>
    let* '(e, _) := the_map h p in
    match e with
    | None => Done (h, None)
    | Some s =>
      let told := match List.last ks VNil with VDone => true | _ => false end in
      let key := if told then removelast ks else ks in
      let* m := the_sync h s in
      let* d := range_live d_heap s (del_one n p s told) (map fst (ranged m)) (MkDel h key (len key) [] []) in
      Done (d_heap d, if told && (0 <? len (d_keys d)) then Some (d_keys d, d_values d) else None)
    end
  | _, _ => Done (h, None)
  end.

(** *** Find: a path of keys through maps and slices in each other *)

Fixpoint findvalue (h : heap) (cur : value) (k : list value) : exec (value * bool) :=
  match k with
  | [] => Done (VNil, false)
  | ke :: k' =>
    let* e :=
      match cur with
      | VMapP p => let* '(e, _) := the_map h p in Done e
      | VSliceP p =>
        let* mp := the_slice h p in
        match mp with Some q => let* '(e, _) := the_map h q in Done e | None => Panic end
      | _ => Done None
      end in
    match e with
    | None => Done (VNil, false)
    | Some s =>
      let* '(v, found) := Load h s ke in
      if negb found then Done (VNil, false)
      else match k', v with
           | [], _ => Done (v, true)
           | _, VMapP _ | _, VSliceP _ => findvalue h v k'
           | _, _ => Done (VNil, false)
           end
    end
  end.

Definition path (k : list value) : list value :=
  match k with
  | [VStr ks] => if contains_rune ks 44 then map VStr (Split ks 44) else k
  | _ => k
  end.

Definition Find (h : heap) (o : option nat) (k : list value) : exec (value * bool) :=
  match o with None => Done (VNil, false) | Some p => findvalue h (VMapP p) (path k) end.

(** ** Slice *)

Definition slice_Get (h : heap) (o : option nat) (i : Z) : exec value :=
  match o with
  | None => Done VNil
  | Some p =>
    if 0 <=? i then
      let* mp := the_slice h p in
      let* '(v, _) := Get h mp (VInt i) in Done v
    else Done VNil
  end.

Definition slice_Find (h : heap) (o : option nat) (k : list value) : exec (value * bool) :=
  match o with None => Done (VNil, false) | Some p => findvalue h (VSliceP p) (path k) end.

(** [k.(int)] *)
Definition as_int (v : value) : exec Z := match v with VInt z => Done z | _ => Panic end.

Fixpoint as_ints (l : list value) : exec (list Z) :=
  match l with
  | [] => Done []
  | v :: l' => let* z := as_int v in let* zs := as_ints l' in Done (z :: zs)
  end.

Definition Indexes (h : heap) (o : option nat) (index : list Z) : exec (list Z) :=
  match o with
  | None => Done []
  | Some p => let* mp := the_slice h p in let* ks := Keys h mp (map VInt index) in as_ints ks
  end.

Definition slice_Values (h : heap) (o : option nat) (index : list Z) : exec (list value) :=
  match o with None => Done [] | Some p => let* mp := the_slice h p in Values h mp (map VInt index) end.

Definition slice_Iterate {S} (h : heap) (o : option nat) (index : list Z) (yield : Z → value → S → exec (bool * S)) (s : S) : exec S :=
  match o with
  | None => Done s
  | Some p =>
    let* mp := the_slice h p in
    Iterate h mp (map VInt index) (λ ix v s, let* i := as_int ix in yield i v s) s
  end.
Definition slice_Iter {S} := @slice_Iterate S.

Definition slice_ForEach {S} (h : heap) (o : option nat) (eachitem : value → Z → bool → bool → S → exec (bool * S)) (index : list Z) (s : S) : exec S :=
  match o with
  | None => Done s
  | Some p =>
    let* mp := the_slice h p in
    ForEach h mp (λ k v first last s, let* i := as_int k in eachitem v i first last s) (map VInt index) s
  end.

(** The callback that should close the gap has a type that [Map.Del] does not look for: it
    is one more key that is not found, and is never called. *)
Definition slice_Del (n : nat) (o : option nat) (index : list Z) (h : heap) : exec heap :=
  match index with
  | [] => Done h
  | _ =>
    match o with
    | None => Panic
    | Some p =>
      let* mp := the_slice h p in
      let* cnt := Count h mp in
      if len index <=? cnt then
        let ixs := List.filter (λ i, negb ((i <? 0) || (cnt <=? i))) index in
        if 0 <? len ixs then
          let* '(h', _) := Del n mp (map VInt (merge_sort Z.le ixs) ++ [VIndexDone]) h in Done h'
        else Done h
      else Done h
    end
  end.

Definition Dispose (n : nat) (o : option nat) (h : heap) : exec heap :=
  match o with None => Done h | Some p => dispose n (VMapP p) h end.
Definition slice_Dispose (n : nat) (o : option nat) (h : heap) : exec heap :=
  match o with None => Done h | Some p => dispose n (VSliceP p) h end.
End ranged.

(** * Theory *)

Lemma hash_of_key k : hash (of_key k) = Done k.
Proof. by destruct k. Qed.

Lemma hash_Some v k : hash v = Done k → v = of_key k.
Proof. destruct v; cbn; congruence || (intros [= <-]; done). Qed.

(** ** The heap is typed: every pointer is to a value of its type *)

Inductive kind := KMap | KSlice | KSync.
Definition kind_of (n : node) : kind := match n with MapN _ _ => KMap | SliceN _ => KSlice | SyncN _ => KSync end.
Definition kinds (h : heap) : list kind := kind_of <$> h.

(** A value that may be stored, and one that may be given: the keys of a Go map have
    hashes; functions are left out, since two of them cannot be compared. *)
Definition stored (ks : list kind) (v : value) : Prop :=
  match v with
  | VMapP p => ks !! p = Some KMap
  | VSliceP p => ks !! p = Some KSlice
  | VArr _ | VMapv _ | VDone | VIndexDone => False
  | _ => True
  end.

Fixpoint given (ks : list kind) (v : value) : Prop :=
  match v with
  | VArr _ => True
  | VMapv kvs => (fix all kvs := match kvs with
      | [] => True
      | (k, x) :: kvs' => (∃ k', hash k = Done k' ∧ stored ks k) ∧ given ks x ∧ all kvs'
      end) kvs
  | _ => stored ks v
  end.

Definition node_typed (ks : list kind) (n : node) : Prop :=
  match n with
  | MapN (Some s) _ => ks !! s = Some KSync
  | SliceN (Some q) => ks !! q = Some KMap
  | SyncN m => map_Forall (λ k v, stored ks (of_key k) ∧ stored ks v) m
  | _ => True
  end.

Definition typed (h : heap) : Prop := Forall (node_typed (kinds h)) h.

(** A heap that has the values of another, with the same types, and maybe more. *)
Definition extends (h h' : heap) : Prop := kinds h `prefix_of` kinds h'.

#[export] Instance extends_po : PreOrder extends.
Proof. split; unfold extends; [intros ?; done|intros ???; apply transitivity]. Qed.

Lemma stored_mono ks ks' v : ks `prefix_of` ks' → stored ks v → stored ks' v.
Proof. intros Hp. destruct v; cbn; try done; intros; by eapply prefix_lookup_Some. Qed.

Lemma node_typed_mono ks ks' n : ks `prefix_of` ks' → node_typed ks n → node_typed ks' n.
Proof.
  intros Hp. destruct n as [[s|] c|[q|]|m]; cbn; try done; try by (intros; eapply prefix_lookup_Some).
  intros Hm k v Hv. destruct (Hm k v Hv). split; by eapply stored_mono.
Qed.

Lemma kinds_lookup h p k : kinds h !! p = Some k → ∃ n, h !! p = Some n ∧ kind_of n = k.
Proof. unfold kinds. rewrite list_lookup_fmap. intros (n & E & ->)%fmap_Some. by exists n. Qed.

Lemma the_map_typed h p : kinds h !! p = Some KMap → ∃ e c, the_map h p = Done (e, c) ∧ h !! p = Some (MapN e c).
Proof. intros ([] & E & ?)%kinds_lookup; try done. unfold the_map. rewrite E. eauto. Qed.

Lemma the_slice_typed h p : kinds h !! p = Some KSlice → ∃ o, the_slice h p = Done o ∧ h !! p = Some (SliceN o).
Proof. intros ([] & E & ?)%kinds_lookup; try done. unfold the_slice. rewrite E. eauto. Qed.

Lemma the_sync_typed h p : kinds h !! p = Some KSync → ∃ m, the_sync h p = Done m ∧ h !! p = Some (SyncN m).
Proof. intros ([] & E & ?)%kinds_lookup; try done. unfold the_sync. rewrite E. eauto. Qed.

Lemma typed_node h p n : typed h → h !! p = Some n → node_typed (kinds h) n.
Proof. intros Ht E. by eapply Forall_lookup_1 in Ht. Qed.

Lemma kinds_insert h p n n' : h !! p = Some n → kind_of n = kind_of n' → kinds (<[p := n']> h) = kinds h.
Proof. intros E Ek. unfold kinds. rewrite list_fmap_insert. apply list_insert_id. by rewrite list_lookup_fmap, E, <- Ek. Qed.

Lemma typed_insert h p n n' :
  typed h → h !! p = Some n → kind_of n = kind_of n' → node_typed (kinds h) n' → typed (<[p := n']> h) ∧ extends h (<[p := n']> h).
Proof.
  intros Ht E Ek Hn. unfold typed, extends. rewrite (kinds_insert h p n n') by done. split; [|done]. by apply Forall_insert.
Qed.

Lemma typed_new h n : typed h → node_typed (kinds h) n → typed (h ++ [n]) ∧ extends h (h ++ [n]) ∧ kinds (h ++ [n]) !! length h = Some (kind_of n).
Proof.
  intros Ht Hn. assert (extends h (h ++ [n])) as He by (unfold extends, kinds; rewrite fmap_app; by eexists).
  split; [|split; [done|]].
  - apply Forall_app. split; [|constructor; [|done]]; [eapply Forall_impl; [exact Ht|]; intros n0 Hn0|]; by eapply node_typed_mono.
  - unfold kinds. by rewrite list_lookup_fmap, lookup_app_r, Nat.sub_diag by done.
Qed.

Lemma NewMap_typed h : typed h → let '(h', p) := NewMap h in typed h' ∧ extends h h' ∧ kinds h' !! p = Some KMap.
Proof.
  intros Ht. unfold NewMap, new. destruct (typed_new h (SyncN ∅) Ht) as (H1 & H2 & H3); [by intros ???%lookup_empty_Some|].
  destruct (typed_new _ (MapN (Some (length h)) 0) H1) as (H4 & H5 & H6); [done|].
  split; [done|]. split; [by etransitivity|done].
Qed.

Lemma NewSlice_typed h : typed h → let '(h', p) := NewSlice h in typed h' ∧ extends h h' ∧ kinds h' !! p = Some KSlice.
Proof.
  intros Ht. unfold NewSlice. pose proof (NewMap_typed h Ht) as Hm. destruct (NewMap h) as [h1 p]. destruct Hm as (H1 & H2 & H3).
  unfold new. destruct (typed_new h1 (SliceN (Some p)) H1) as (H4 & H5 & H6); [done|]. split; [done|]. split; [by etransitivity|done].
Qed.

Lemma Load_typed h s v k :
  typed h → kinds h !! s = Some KSync → hash v = Done k →
  ∃ x b, Load h s v = Done (x, b) ∧ stored (kinds h) x.
Proof.
  intros Ht Hs Hk. unfold Load. rewrite Hk. destruct (the_sync_typed h s Hs) as (m & -> & E). cbn [exec_bind].
  pose proof (typed_node _ _ _ Ht E) as Hm. destruct (m !! k) as [x|] eqn:Ex; eexists _, _; (split; [done|]); [by apply Hm in Ex as []|done].
Qed.

Lemma Store_typed h s v k x :
  typed h → kinds h !! s = Some KSync → hash v = Done k → stored (kinds h) v → stored (kinds h) x →
  ∃ h', Store h s v x = Done h' ∧ typed h' ∧ extends h h'.
Proof.
  intros Ht Hs Hk Hv Hx. unfold Store. rewrite Hk. destruct (the_sync_typed h s Hs) as (m & -> & E). cbn [exec_bind].
  eexists. split; [done|]. apply (typed_insert h s (SyncN m)); try done. pose proof (typed_node _ _ _ Ht E) as Hm.
  apply map_Forall_insert_2; [|done]. by rewrite <- (hash_Some v k).
Qed.

Lemma equal_given ks ks' a b : stored ks a → given ks' b → ∃ r, equal a b = Done r.
Proof. destruct a, b; cbn; try done; eauto. Qed.

(** What a way to make values does: the value may be stored, the heap stays typed. *)
Definition makes (cv : value → heap → exec (value * heap)) (v : value) : Prop :=
  ∀ h, typed h → given (kinds h) v → ∃ x h', cv v h = Done (x, h') ∧ typed h' ∧ extends h h' ∧ stored (kinds h') x.

(** Induction over the values in Go maps. *)
Fixpoint value_maps_ind (P : value → Prop) (Hmap : ∀ kvs, Forall (λ kv, P kv.2) kvs → P (VMapv kvs))
    (Hother : ∀ v, match v with VMapv _ => False | _ => True end → P v) (v : value) {struct v} : P v.
Proof.
  destruct v as [| | | |kvs| | | |]; try by apply Hother.
  apply Hmap. induction kvs as [|[k x] kvs IH]; constructor; [|exact IH]. exact (value_maps_ind P Hmap Hother x).
Defined.

Lemma given_pairs ks kvs : given ks (VMapv kvs) ↔ Forall (λ kv, (∃ k', hash kv.1 = Done k' ∧ stored ks kv.1) ∧ given ks kv.2) kvs.
Proof.
  induction kvs as [|[k x] kvs IH]; [done|]. rewrite Forall_cons, <- IH. cbn. split; [intros (? & ? & ?)|intros [[? ?] ?]]; done.
Qed.

Lemma given_mono v ks ks' : ks `prefix_of` ks' → given ks v → given ks' v.
Proof.
  intros Hp. induction v as [kvs IH|v Hv] using value_maps_ind.
  - rewrite !given_pairs. intros H. induction H as [|[k x] kvs [(k' & Hk & Hs) Hx] _ IH2]; [constructor|].
    inversion IH; subst. constructor; [|auto]. split; [|auto]. exists k'. split; [done|]. by eapply stored_mono.
  - destruct v; try done; by apply stored_mono.
Qed.

Lemma ext_lookup h h' p k : extends h h' → kinds h !! p = Some k → kinds h' !! p = Some k.
Proof. intros He Hp. by eapply prefix_lookup_Some. Qed.

Lemma ext_stored h h' v : extends h h' → stored (kinds h) v → stored (kinds h') v.
Proof. apply stored_mono. Qed.

Lemma ext_given h h' v : extends h h' → given (kinds h) v → given (kinds h') v.
Proof. apply given_mono. Qed.

Lemma stored_given ks v : stored ks v → given ks v.
Proof. by destruct v. Qed.

Lemma set_with_typed cv p k k' v h :
  makes cv v → typed h → kinds h !! p = Some KMap → hash k = Done k' → stored (kinds h) k → given (kinds h) v →
  ∃ h', set_with cv (Some p) k v h = Done h' ∧ typed h' ∧ extends h h'.
Proof.
  intros Hcv Ht Hp Hk Hsk Hv. unfold set_with. destruct (the_map_typed h p Hp) as (e & c & -> & E). cbn [exec_bind].
  destruct e as [s|]; [|by exists h]. pose proof (typed_node _ _ _ Ht E) as Hs. cbn in Hs.
  destruct (Load_typed h s k k' Ht Hs Hk) as (old & b & -> & Hold). cbn [exec_bind].
  set (h1 := if b then h else <[p := MapN (Some s) (c + 1)]> h).
  assert (typed h1 ∧ extends h h1) as [Ht1 He1].
  { unfold h1. destruct b; [done|]. by apply (typed_insert h p (MapN (Some s) c)). }
  destruct (equal_given (kinds h) (kinds h) old v) as [r ->]; [done|done|]. cbn [exec_bind]. destruct r; [by exists h1|].
  destruct (Hcv h1) as (x & h2 & -> & Ht2 & He2 & Hx); [done|by apply (ext_given h)|]. cbn [exec_bind].
  destruct (Store_typed h2 s k k' x Ht2) as (h3 & -> & Ht3 & He3); [|done| |done|].
  - by apply (ext_lookup h1), (ext_lookup h).
  - by apply (ext_stored h1), (ext_stored h).
  - exists h3. split; [done|]. split; [done|]. etransitivity; [exact He1|]. by etransitivity.
Qed.

Lemma kept_makes v ks : stored ks v → makes kept v.
Proof. intros Hv h Ht Hg. exists v, h. split; [done|]. split; [done|]. split; [done|]. by destruct v. Qed.

Lemma append_with_typed cv a mp i h :
  (∀ v, v ∈ a → makes cv v) → (∀ x, (∃ ks, stored ks x) → makes cv x) → typed h → kinds h !! mp = Some KMap → Forall (given (kinds h)) a →
  ∃ h', append_with cv mp i a h = Done h' ∧ typed h' ∧ extends h h'.
Proof.
  intros Ha Hst. revert i h. induction a as [|v a IH]; intros i h Ht Hmp Hg; [by exists h|]. inversion Hg as [|? ? Hv Hg']; subst. cbn [append_with].
  destruct (Ha v ltac:(left) h Ht Hv) as (x & h1 & -> & Ht1 & He1 & Hx). cbn [exec_bind].
  destruct (set_with_typed cv mp (VInt i) (KInt i) x h1) as (h2 & -> & Ht2 & He2); [by apply Hst; eexists|done|by apply (ext_lookup h)|done|done|by apply stored_given|].
  cbn [exec_bind]. destruct (IH ltac:(intros; apply Ha; by right) (i + 1) h2 Ht2) as (h3 & -> & Ht3 & He3).
  - by apply (ext_lookup h1), (ext_lookup h).
  - eapply Forall_impl; [exact Hg'|]. intros y Hy. by apply (ext_given h1), (ext_given h).
  - exists h3. split; [done|]. split; [done|]. etransitivity; [exact He1|]. by etransitivity.
Qed.

Lemma slice_append_typed cv a p h :
  (∀ v, v ∈ a → makes cv v) → (∀ x, (∃ ks, stored ks x) → makes cv x) → typed h → kinds h !! p = Some KSlice → Forall (given (kinds h)) a →
  ∃ h', slice_append cv (Some p) a h = Done h' ∧ typed h' ∧ extends h h'.
Proof.
  intros Ha Hst Ht Hp Hg. unfold slice_append. destruct a as [|v a]; [by exists h|].
  destruct (the_slice_typed h p Hp) as ([q|] & -> & E); cbn [exec_bind]; [|by exists h]. pose proof (typed_node _ _ _ Ht E) as Hq. cbn in Hq.
  unfold Count. destruct (the_map_typed h q Hq) as (e & c & -> & _). cbn [exec_bind]. by apply append_with_typed.
Qed.

(** What is given becomes a value that may be stored. *)
Lemma constructValue_makes v : makes constructValue v.
Proof.
  induction v as [kvs IH|v Hv] using value_maps_ind; intros h Ht Hg.
  - cbn [constructValue]. pose proof (NewMap_typed h Ht) as Hnew. destruct (NewMap h) as [h1 p]. destruct Hnew as (Ht1 & He1 & Hp1).
    rewrite given_pairs in Hg.
    assert (∃ h2, (fix go kvs h := match kvs with
      | [] => Done h
      | (k, x) :: kvs' => let* '(k', h1) := constructValue k h in let* '(x', h2) := constructValue x h1 in
                          let* h3 := set_with kept (Some p) k' x' h2 in go kvs' h3
      end) kvs h1 = Done h2 ∧ typed h2 ∧ extends h1 h2) as (h2 & -> & Ht2 & He2).
    { assert (Forall (λ kv, (∃ k', hash kv.1 = Done k' ∧ stored (kinds h1) kv.1) ∧ given (kinds h1) kv.2) kvs) as Hg1.
      { eapply Forall_impl; [exact Hg|]. intros [k x] [(k' & Hk & Hs) Hx]. split; [|by apply (ext_given h)]. exists k'. split; [done|]. by apply (ext_stored h). }
      clear Hg Ht He1. revert h1 Ht1 Hp1 Hg1. induction IH as [|[k x] kvs Hx _ IH2]; intros h1 Ht1 Hp1 Hg1; [by exists h1|].
      inversion Hg1 as [|? ? [(k' & Hk & Hs) Hgx] Hg2]; subst. cbn [fst snd] in *.
      assert (constructValue k h1 = Done (k, h1)) as -> by by destruct k. cbn [exec_bind].
      destruct (Hx h1 Ht1 Hgx) as (x' & h2 & -> & Ht2 & He2 & Hx'). cbn [exec_bind].
      destruct (set_with_typed kept p k k' x' h2) as (h3 & -> & Ht3 & He3).
      { by eapply kept_makes. } { done. } { by apply (ext_lookup h1). } { done. } { by apply (ext_stored h1). } { by apply stored_given. }
      cbn [exec_bind]. destruct (IH2 h3 Ht3) as (h4 & -> & Ht4 & He4).
      { by apply (ext_lookup h2), (ext_lookup h1). }
      { eapply Forall_impl; [exact Hg2|]. intros [ky y] [(k2 & Hk2 & Hs2) Hy].
        split; [|by apply (ext_given h2), (ext_given h1)]. exists k2. split; [done|]. by apply (ext_stored h2), (ext_stored h1). }
      exists h4. split; [done|]. split; [done|]. etransitivity; [exact He2|]. by etransitivity. }
    cbn [exec_bind]. eexists _, _. split; [done|]. split; [done|]. split; [by etransitivity|]. by apply (ext_lookup h1).
  - destruct v as [| | |l| | | | |]; try done; try (by exists VNil, h); try by eexists _, h.
    cbn [constructValue]. pose proof (NewSlice_typed h Ht) as Hnew. destruct (NewSlice h) as [h1 p]. destruct Hnew as (Ht1 & He1 & Hp1).
    destruct (slice_append_typed kept (map (λ _, VNil) l) p h1) as (h2 & -> & Ht2 & He2); [| |done|done| |].
    + intros v (? & -> & _)%list_elem_of_fmap. by apply (kept_makes _ []).
    + intros x (ks & Hx). by eapply kept_makes.
    + by apply Forall_fmap, Forall_true.
    + cbn [exec_bind]. eexists _, _. split; [done|]. split; [done|]. split; [by etransitivity|]. by apply (ext_lookup h1).
Qed.

(** ** Dispose ends, Del and Dispose keep the types *)

(** A Map or Slice that was not disposed of. *)
Definition weight (n : node) : nat := match n with MapN (Some _) _ | SliceN (Some _) => 1 | _ => 0 end.
Fixpoint live (h : heap) : nat := match h with [] => 0%nat | n :: h' => (weight n + live h')%nat end.

Lemma live_insert h p n n' : h !! p = Some n → (live (<[p := n']> h) + weight n = live h + weight n')%nat.
Proof.
  revert p. induction h as [|x h IH]; intros [|p] E; cbn in E; try done.
  - injection E as ->. change (<[0%nat := n']> (n :: h)) with (n' :: h). cbn [live]. lia.
  - change (<[S p := n']> (x :: h)) with (x :: <[p := n']> h). cbn [live]. specialize (IH p E). lia.
Qed.

Lemma typed_lookup h s m k v : typed h → h !! s = Some (SyncN m) → m !! k = Some v → stored (kinds h) (of_key k) ∧ stored (kinds h) v.
Proof. intros Ht E Ek. exact (typed_node _ _ _ Ht E k v Ek). Qed.

Lemma Delete_typed h s k :
  typed h → kinds h !! s = Some KSync → ∃ h', Delete h s k = Done h' ∧ typed h' ∧ extends h h' ∧ live h' = live h.
Proof.
  intros Ht Hs. unfold Delete. destruct (the_sync_typed h s Hs) as (m & -> & E). cbn [exec_bind]. eexists. split; [done|].
  pose proof (live_insert h s (SyncN m) (SyncN (delete k m)) E) as Hl. cbn [weight] in Hl.
  destruct (typed_insert h s (SyncN m) (SyncN (delete k m)) Ht E) as [H1 H2]; [done| |].
  - apply map_Forall_delete, (typed_node _ _ _ Ht E).
  - split; [done|]. split; [done|lia].
Qed.

Lemma equal_of_key v k : ∃ b, equal v (of_key k) = Done b.
Proof. destruct v, k; cbn; eauto. Qed.

Lemma find_key_Done ke l : ∃ o, find_key ke l = Done o.
Proof.
  induction l as [|k l [o IH]]; [by eexists|]. cbn [find_key]. destruct (equal_of_key k ke) as [b ->]. cbn [exec_bind].
  destruct b; [by eexists|]. rewrite IH. by eexists.
Qed.

Section dispose.
Context (ranged : gmap key value → list (key * value)).
Hypothesis ranged_perm : ∀ m, ranged m ≡ₚ map_to_list m.

Lemma ranged_lookup m k v : (k, v) ∈ ranged m ↔ m !! k = Some v.
Proof. by rewrite ranged_perm, elem_of_map_to_list. Qed.

Lemma range_collect (pick : key → value → value) kvs l :
  range (λ ke v l, Done (true, l ++ [pick ke v])) kvs l = Done (l ++ map (λ kv, pick kv.1 kv.2) kvs).
Proof.
  revert l. induction kvs as [|[k v] kvs IH]; intros l; cbn [range map]; [by rewrite app_nil_r|].
  cbn [exec_bind]. by rewrite IH, <- app_assoc.
Qed.

(** Keys or Values of all entries. *)
Lemma picked_all pick h p e c m :
  h !! p = Some (MapN e c) → (∀ s, e = Some s → h !! s = Some (SyncN m)) →
  picked ranged pick h (Some p) [] = Done (match e with Some _ => map (λ kv, pick kv.1 kv.2) (ranged m) | None => [] end).
Proof.
  intros E Es. unfold picked, the_map. rewrite E. cbn [exec_bind]. destruct e as [s|]; [|done].
  change (0 <? len (@nil value)) with false. cbv iota. unfold the_sync. rewrite (Es s) by done. cbn [exec_bind]. apply range_collect.
Qed.

(** What a way to dispose of values does. *)
Definition disposes (n : nat) (d : value → heap → exec heap) : Prop := ∀ v h,
  typed h → stored (kinds h) v → (live h < n)%nat → ∃ h', d v h = Done h' ∧ typed h' ∧ extends h h' ∧ (live h' ≤ live h)%nat.

Lemma dispose_all n d vals h :
  disposes n d → typed h → Forall (stored (kinds h)) vals → (live h < n)%nat →
  ∃ h', foldl (λ r v, let* h := r in d v h) (Done h) vals = Done h' ∧ typed h' ∧ extends h h' ∧ (live h' ≤ live h)%nat.
Proof.
  intros Hd. revert h. induction vals as [|v vals IH]; intros h Ht Hv Hl; [by exists h|]. inversion Hv as [|? ? Hv1 Hv2]; subst.
  cbn [foldl exec_bind]. destruct (Hd v h Ht Hv1 Hl) as (h1 & -> & Ht1 & He1 & Hl1).
  destruct (IH h1 Ht1) as (h2 & -> & Ht2 & He2 & Hl2).
  - eapply Forall_impl; [exact Hv2|]. intros x. by apply ext_stored.
  - lia.
  - exists h2. split; [done|]. split; [done|]. split; [by transitivity h1|lia].
Qed.

Lemma dispose_typed n : disposes n (dispose ranged n).
Proof.
  induction n as [|n IH]; intros v h Ht Hv Hl; [lia|]. destruct v as [| | | | |p|p| |]; try done; try (by exists h); cbn [dispose].
  - destruct (the_map_typed h p Hv) as ([s|] & c & -> & E); cbn [exec_bind]; [|by exists h].
    pose proof (live_insert h p (MapN (Some s) c) (MapN None c) E) as Hl1. cbn [weight] in Hl1.
    destruct (typed_insert h p (MapN (Some s) c) (MapN None c) Ht E eq_refl) as [Ht1 He1]; [done|].
    set (h1 := <[p := MapN None c]> h) in *. pose proof (typed_node _ _ _ Ht E) as Hs. cbn in Hs.
    apply (ext_lookup h h1 _ _ He1) in Hs. destruct (the_sync_typed h1 s Hs) as (m & -> & Em). cbn [exec_bind].
    destruct (ranged m) as [|[ke x] l] eqn:Er.
    + exists h1. split; [done|]. split; [done|]. split; [done|lia].
    + assert (m !! ke = Some x) as Ex by (apply ranged_lookup; rewrite Er; left).
      destruct (Delete_typed h1 s ke Ht1 Hs) as (h2 & -> & Ht2 & He2 & Hl2). cbn [exec_bind].
      destruct (IH x h2 Ht2) as (h3 & -> & Ht3 & He3 & Hl3); [|lia|].
      * apply (ext_stored h1); [done|]. by eapply typed_lookup.
      * exists h3. split; [done|]. split; [done|]. split; [transitivity h1; [done|]; by transitivity h2|lia].
  - destruct (the_slice_typed h p Hv) as ([q|] & -> & E); cbn [exec_bind]; [|by exists h].
    pose proof (live_insert h p (SliceN (Some q)) (SliceN None) E) as Hl1. cbn [weight] in Hl1.
    destruct (typed_insert h p (SliceN (Some q)) (SliceN None) Ht E eq_refl) as [Ht1 He1]; [done|].
    set (h1 := <[p := SliceN None]> h) in *. pose proof (typed_node _ _ _ Ht E) as Hq. cbn in Hq.
    apply (ext_lookup h h1 _ _ He1) in Hq. destruct (the_map_typed h1 q Hq) as (e & c & _ & Eq).
    assert (∃ vals, picked ranged (λ _ v, v) h1 (Some q) [] = Done vals ∧ Forall (stored (kinds h1)) vals) as (vals & -> & Hvals).
    { destruct e as [s|].
      - pose proof (typed_node _ _ _ Ht1 Eq) as Hs. cbn in Hs. destruct (the_sync_typed h1 s Hs) as (m & _ & Em).
        rewrite (picked_all _ h1 q (Some s) c m Eq) by by intros ? [= <-]. eexists. split; [done|]. apply Forall_forall.
        intros x ([k v] & -> & Hin)%list_elem_of_fmap. apply ranged_lookup in Hin. by eapply typed_lookup.
      - rewrite (picked_all _ h1 q None c ∅ Eq) by done. by exists []. }
    cbn [exec_bind]. destruct (dispose_all n (dispose ranged n) vals h1 IH Ht1 Hvals) as (h2 & -> & Ht2 & He2 & Hl2); [lia|]. cbn [exec_bind].
    destruct (IH (VMapP q) h2 Ht2) as (h3 & -> & Ht3 & He3 & Hl3); [by apply (ext_lookup h1)|lia|].
    exists h3. split; [done|]. split; [done|]. split; [transitivity h1; [done|]; by transitivity h2|lia].
Qed.

(** The state while keys are deleted. *)
Definition deleting_ok (h : heap) (d : deleting) : Prop := typed (d_heap d) ∧ extends h (d_heap d) ∧ (live (d_heap d) ≤ live h)%nat.

Lemma del_one_typed n h p s told ke v d :
  kinds h !! p = Some KMap → kinds h !! s = Some KSync → (live h < n)%nat → deleting_ok h d →
  ∃ b d', del_one ranged n p s told ke v d = Done (b, d') ∧ deleting_ok h d'.
Proof.
  intros Hp Hs Hl (Ht & He & Hle). unfold del_one. destruct (find_key_Done ke (d_key d)) as [o ->]. cbn [exec_bind].
  destruct o as [kn|]; [|by eexists _, _].
  destruct (the_sync_typed (d_heap d) s) as (m & -> & Em); [by apply (ext_lookup h)|]. cbn [exec_bind].
  destruct (m !! ke) as [delval|] eqn:Ek; [|by eexists _, _].
  destruct (Delete_typed (d_heap d) s ke Ht) as (h1 & -> & Ht1 & He1 & Hl1); [by apply (ext_lookup h)|]. cbn [exec_bind].
  destruct (the_map_typed h1 p) as (e & c & -> & Ep); [by apply (ext_lookup (d_heap d)), (ext_lookup h)|]. cbn [exec_bind].
  destruct (typed_insert h1 p (MapN e c) (MapN e (c - 1)) Ht1 Ep eq_refl) as [Ht2 He2]; [by apply (typed_node _ _ _ Ht1 Ep)|].
  pose proof (live_insert h1 p (MapN e c) (MapN e (c - 1)) Ep) as Hl2. set (h2 := <[p := MapN e (c - 1)]> h1) in *.
  assert (weight (MapN e c) = weight (MapN e (c - 1))) as Hw by done.
  assert (extends h h2) as Hh2 by (transitivity (d_heap d); [done|]; by transitivity h1).
  destruct told; cbn [exec_bind].
  - eexists _, _. split; [done|]. split; [done|]. split; [done|]. cbn [d_heap]. lia.
  - destruct (dispose_typed n delval h2 Ht2) as (h3 & -> & Ht3 & He3 & Hl3); [|lia|].
    + apply (ext_stored (d_heap d)); [by transitivity h1|]. by eapply typed_lookup.
    + eexists _, _. split; [done|]. split; [done|]. cbn [d_heap]. split; [by transitivity h2|lia].
Qed.

Lemma range_live_typed n h p s told ks d :
  kinds h !! p = Some KMap → kinds h !! s = Some KSync → (live h < n)%nat → deleting_ok h d →
  ∃ d', range_live d_heap s (del_one ranged n p s told) ks d = Done d' ∧ deleting_ok h d'.
Proof.
  intros Hp Hs Hl. revert d. induction ks as [|k ks IH]; intros d Hd; [by exists d|]. cbn [range_live].
  destruct (the_sync_typed (d_heap d) s) as (m & -> & Em); [apply (ext_lookup h); [apply Hd|done]|]. cbn [exec_bind].
  destruct (m !! k) as [v|]; [|by apply IH]. destruct (del_one_typed n h p s told k v d Hp Hs Hl Hd) as (b & d1 & -> & Hd1). cbn [exec_bind].
  destruct b; [by apply IH|by exists d1].
Qed.

Lemma Del_typed n p ks h :
  typed h → kinds h !! p = Some KMap → (live h < n)%nat →
  ∃ h' told, Del ranged n (Some p) ks h = Done (h', told) ∧ typed h' ∧ extends h h'.
Proof.
  intros Ht Hp Hl. unfold Del. destruct ks as [|k ks]; [by eexists _, _|].
  destruct (the_map_typed h p Hp) as ([s|] & c & -> & E); cbn [exec_bind]; [|by eexists _, _].
  pose proof (typed_node _ _ _ Ht E) as Hs. cbn in Hs. destruct (the_sync_typed h s Hs) as (m & -> & _). cbn [exec_bind].
  set (told := match List.last (k :: ks) VNil with VDone => true | _ => false end).
  set (keys := if told then removelast (k :: ks) else k :: ks).
  destruct (range_live_typed n h p s told (map fst (ranged m)) (MkDel h keys (len keys) [] []) Hp Hs Hl) as (d & -> & Hd & He & _); [done|].
  cbn [exec_bind]. by eexists _, _.
Qed.

Lemma slice_Del_typed n p ixs h :
  typed h → kinds h !! p = Some KSlice → (live h < n)%nat → ∃ h', slice_Del ranged n (Some p) ixs h = Done h' ∧ typed h' ∧ extends h h'.
Proof.
  intros Ht Hp Hl. unfold slice_Del. destruct ixs as [|i ixs]; [by exists h|].
  destruct (the_slice_typed h p Hp) as (mp & -> & E). cbn [exec_bind].
  assert (∃ c, Count h mp = Done c) as [c ->].
  { destruct mp as [q|]; [|by eexists]. pose proof (typed_node _ _ _ Ht E) as Hq. destruct (the_map_typed h q Hq) as (e & c & E2 & _).
    unfold Count. rewrite E2. by eexists. }
  cbn [exec_bind]. destruct (_ <=? c); [|by exists h]. destruct (0 <? _); [|by exists h].
  destruct mp as [q|]; [|by exists h]. pose proof (typed_node _ _ _ Ht E) as Hq.
  destruct (Del_typed n q (map VInt (merge_sort Z.le (List.filter (λ i, negb ((i <? 0) || (c <=? i))) (i :: ixs))) ++ [VIndexDone]) h Ht Hq Hl)
    as (h' & told & -> & ? & ?). by exists h'.
Qed.

(** *** Every sequence of operations *)

Inductive op :=
| OpNewMap
| OpNewSlice
| OpSet (p : nat) (k v : value)
| OpAppend (p : nat) (a : list value)
| OpDel (p : nat) (ks : list value)
| OpSliceDel (p : nat) (ixs : list Z)
| OpDispose (p : nat)
| OpSliceDispose (p : nat).

Definition run_op (n : nat) (o : op) (h : heap) : exec heap :=
  match o with
  | OpNewMap => Done (NewMap h).1
  | OpNewSlice => Done (NewSlice h).1
  | OpSet p k v => Set_ (Some p) k v h
  | OpAppend p a => Append (Some p) a h
  | OpDel p ks => let* '(h', _) := Del ranged n (Some p) ks h in Done h'
  | OpSliceDel p ixs => slice_Del ranged n (Some p) ixs h
  | OpDispose p => Dispose ranged n (Some p) h
  | OpSliceDispose p => slice_Dispose ranged n (Some p) h
  end.

(** An operation a Go program can ask for: its pointers are there, its keys have hashes. *)
Definition op_ok (h : heap) (o : op) : Prop :=
  match o with
  | OpNewMap | OpNewSlice => True
  | OpSet p k v => kinds h !! p = Some KMap ∧ (∃ k', hash k = Done k') ∧ stored (kinds h) k ∧ given (kinds h) v
  | OpAppend p a => kinds h !! p = Some KSlice ∧ Forall (given (kinds h)) a
  | OpDel p _ | OpDispose p => kinds h !! p = Some KMap
  | OpSliceDel p _ | OpSliceDispose p => kinds h !! p = Some KSlice
  end.

Inductive reachable : heap → Prop :=
| reach_start : reachable []
| reach_op h n o h' : reachable h → op_ok h o → (live h < n)%nat → run_op n o h = Done h' → reachable h'.

Lemma run_op_typed n o h :
  typed h → op_ok h o → (live h < n)%nat → ∃ h', run_op n o h = Done h' ∧ typed h' ∧ extends h h'.
Proof.
  intros Ht Ho Hl. destruct o as [| |p k v|p a|p ks|p ixs|p|p]; cbn [run_op op_ok] in *.
  - pose proof (NewMap_typed h Ht) as H. destruct (NewMap h) as [h' p]. destruct H as (? & ? & _). by exists h'.
  - pose proof (NewSlice_typed h Ht) as H. destruct (NewSlice h) as [h' p]. destruct H as (? & ? & _). by exists h'.
  - destruct Ho as (Hp & (k' & Hk) & Hsk & Hv). by apply (set_with_typed constructValue p k k'); [apply constructValue_makes|..].
  - destruct Ho as (Hp & Ha). apply slice_append_typed; try done; intros; apply constructValue_makes.
  - destruct (Del_typed n p ks h Ht Ho Hl) as (h' & told & -> & ? & ?). by exists h'.
  - by apply slice_Del_typed.
  - destruct (dispose_typed n (VMapP p) h Ht Ho Hl) as (h' & E & ? & ? & _). by exists h'.
  - destruct (dispose_typed n (VSliceP p) h Ht Ho Hl) as (h' & E & ? & ? & _). by exists h'.
Qed.
End dispose.

(** C39: maps and slices built and taken apart by any sequence of operations stay well
    typed: every pointer in them is to a Map, a Slice or a [sync.Map] that is there, and
    every further operation - also Dispose of values that hold each other in a circle -
    ends without a panic, whatever order [Range] has. *)
Theorem heap_typed ranged h n o :
  (∀ m, ranged m ≡ₚ map_to_list m) → reachable ranged h → op_ok h o → (live h < n)%nat →
  typed h ∧ ∃ h', run_op ranged n o h = Done h' ∧ typed h' ∧ extends h h'.
Proof.
  intros Hr Hreach Ho Hl. assert (typed h) as Ht; [|by split; [|apply run_op_typed]]. clear Ho Hl.
  induction Hreach as [|h0 n0 o0 h' _ IH Ho Hl E]; [constructor|].
  destruct (run_op_typed ranged Hr n0 o0 h0 IH Ho Hl) as (h2 & E2 & Ht & _). congruence.
Qed.

(** ** A Map of plain values is a finite map *)

Definition plain (v : value) : Prop := match v with VInt _ | VStr _ => True | _ => False end.

(** The Map [p] has the entries [m], and its count is their number. *)
Definition holds (h : heap) (p : nat) (m : gmap key value) : Prop :=
  ∃ s, h !! p = Some (MapN (Some s) (Z.of_nat (size m))) ∧ h !! s = Some (SyncN m).

Lemma holds_update h p s c m m' :
  h !! p = Some (MapN (Some s) c) → h !! s = Some (SyncN m) →
  holds (<[s := SyncN m']> (<[p := MapN (Some s) (Z.of_nat (size m'))]> h)) p m'.
Proof.
  intros Hp Hs. assert (p ≠ s) as Hne by (intros ->; congruence). exists s. split.
  - rewrite list_lookup_insert_ne by done. apply list_lookup_insert_eq. by eapply lookup_lt_Some.
  - apply list_lookup_insert_eq. rewrite length_insert. by eapply lookup_lt_Some.
Qed.

Lemma NewMap_holds h : let '(h', p) := NewMap h in holds h' p ∅.
Proof.
  cbn. exists (length h). split.
  - rewrite lookup_app_r, Nat.sub_diag by done. done.
  - rewrite lookup_app_l by (rewrite length_app; cbn; lia). by rewrite lookup_app_r, Nat.sub_diag by done.
Qed.

(** What Set does on the way: the count, then the entry. *)
Lemma Set_holds h p m k v :
  holds h p m → plain v →
  ∃ h', Set_ (Some p) (of_key k) v h = Done h' ∧ holds h' p (<[k := v]> m) ∧ length h' = length h ∧
    ∀ q, q ≠ p → (∀ s, h !! p = Some (MapN (Some s) (Z.of_nat (size m))) → q ≠ s) → h' !! q = h !! q.
Proof.
  intros (s & Hp & Hs) Hv. assert (p ≠ s) as Hne by (intros ->; congruence). unfold Set_, set_with, the_map. rewrite Hp. cbn [exec_bind].
  unfold Load, the_sync. rewrite hash_of_key, Hs. cbn [exec_bind].
  assert (∀ h1, constructValue v h1 = Done (v, h1)) as Hcv by by destruct v.
  assert (∀ h1, h1 !! s = Some (SyncN m) → Store h1 s (of_key k) v = Done (<[s := SyncN (<[k := v]> m)]> h1)) as Hst.
  { intros h1 E. unfold Store, the_sync. by rewrite hash_of_key, E. }
  destruct (m !! k) as [old|] eqn:Ek; cbn [exec_bind].
  - assert (∃ b, equal old v = Done b ∧ (b = true → old = v)) as (b & -> & Hb).
    { destruct v as [|z|t| | | | | |]; try done; destruct old; cbn; eexists; (split; [done|]); try done; intros H%bool_decide_eq_true; congruence. }
    cbn [exec_bind]. assert (size (<[k:=v]> m) = size m) as Hsz by (apply map_size_insert_Some; by eexists). destruct b.
    + rewrite <- (Hb eq_refl), insert_id by done. exists h. split; [done|]. split; [by exists s|]. done.
    + rewrite Hcv. cbn [exec_bind]. rewrite (Hst h) by done. eexists. split; [done|]. split; [|split; [by rewrite length_insert|]].
      * exists s. rewrite Hsz, list_lookup_insert_ne, list_lookup_insert_eq by (done || by eapply lookup_lt_Some). done.
      * intros q Hq1 Hq2. rewrite list_lookup_insert_ne; [done|]. intros ->. by eapply Hq2.
  - assert (equal VNil v = Done false) as -> by by destruct v. cbn [exec_bind]. rewrite Hcv. cbn [exec_bind].
    rewrite Hst by by rewrite list_lookup_insert_ne. eexists. split; [done|].
    assert (size (<[k:=v]> m) = S (size m)) as Hsz by by apply map_size_insert_None.
    split; [|split; [by rewrite !length_insert|]].
    + replace (Z.of_nat (size m) + 1) with (Z.of_nat (size (<[k:=v]> m))) by lia. by eapply holds_update.
    + intros q Hq1 Hq2. rewrite !list_lookup_insert_ne; try done. intros ->. by eapply Hq2.
Qed.

(** *** Keys asked for *)

Lemma index_here {A} (l1 : list A) x l2 : index (l1 ++ x :: l2) (Z.of_nat (length l1)) = Done x.
Proof. apply index_app_mid. Qed.

(** With the step 0 every key is marked and taken out. *)
Lemma mark_keys_0 K n mpk :
  (2 * length K < n)%nat → mark_keys n 0 cut_out mpk (map of_key K) 0 (Z.of_nat (length K)) = Done (list_to_set K ∪ mpk, 0).
Proof.
  revert n mpk. induction K as [|k K IH]; intros n mpk Hn; (destruct n as [|n]; [cbn in Hn; lia|]); cbn [mark_keys map length].
  { change (0 <? Z.of_nat 0) with false. cbv iota. do 2 f_equal. set_solver. }
  rewrite (proj2 (Z.ltb_lt 0 (Z.of_nat (S (length K))))) by lia. change (index (of_key k :: map of_key K) 0) with (Done (of_key k)).
  cbn [exec_bind]. rewrite hash_of_key. cbn [exec_bind].
  assert (∀ n mpk, (2 * length K < n)%nat → mark_keys n 0 cut_out mpk (cut_out (of_key k :: map of_key K) 0) 0 (Z.of_nat (S (length K)) - 1) =
    Done (list_to_set K ∪ mpk, 0)) as IH'.
  { intros n' mpk' Hn'. replace (Z.of_nat (S (length K)) - 1) with (Z.of_nat (length K)) by lia. by apply IH. }
  destruct (decide (k ∈ mpk)) as [Hk|Hk].
  - rewrite IH' by (cbn in Hn; lia). do 2 f_equal. set_solver.
  - destruct n as [|n]; [cbn in Hn; lia|]. cbn [mark_keys]. change (0 + 0) with 0.
    rewrite (proj2 (Z.ltb_lt 0 (Z.of_nat (S (length K))))) by lia. change (index (of_key k :: map of_key K) 0) with (Done (of_key k)).
    cbn [exec_bind]. rewrite hash_of_key. cbn [exec_bind]. rewrite decide_True by set_solver.
    rewrite IH' by (cbn in Hn; lia). do 2 f_equal. set_solver.
Qed.

(** Different keys are all marked, whatever is done with keys that come twice. *)
Lemma mark_keys_nodup cut K1 K2 n mpk :
  NoDup (K1 ++ K2) → mpk = list_to_set K1 → (length K2 < n)%nat →
  mark_keys n 1 cut mpk (map of_key (K1 ++ K2)) (Z.of_nat (length K1)) (Z.of_nat (length (K1 ++ K2))) =
  Done (list_to_set (K1 ++ K2), Z.of_nat (length (K1 ++ K2))).
Proof.
  revert K1 n mpk. induction K2 as [|k K2 IH]; intros K1 n mpk Hnd -> Hn; (destruct n as [|n]; [cbn in Hn; lia|]); cbn [mark_keys].
  { rewrite app_nil_r, Z.ltb_irrefl. done. }
  rewrite (proj2 (Z.ltb_lt (Z.of_nat (length K1)) (Z.of_nat (length (K1 ++ k :: K2))))) by (rewrite length_app; cbn; lia).
  assert (index (map of_key (K1 ++ k :: K2)) (Z.of_nat (length K1)) = Done (of_key k)) as ->.
  { rewrite map_app. cbn [map]. rewrite <- (length_map of_key K1). apply index_here. }
  cbn [exec_bind]. rewrite hash_of_key. cbn [exec_bind].
  apply NoDup_app in Hnd as Hnd'. destruct Hnd' as (_ & Hd & _).
  rewrite decide_False by (rewrite elem_of_list_to_set; intros Hin; apply (Hd k Hin); left).
  assert (K1 ++ k :: K2 = (K1 ++ [k]) ++ K2) as E by by rewrite <- app_assoc.
  rewrite E in *. replace (Z.of_nat (length K1) + 1) with (Z.of_nat (length (K1 ++ [k]))) by (rewrite length_app; cbn; lia).
  apply IH; [done| |cbn in Hn; lia]. rewrite list_to_set_app_L. set_solver.
Qed.

(** *** Deleting *)

Lemma find_key_in ke K : ke ∈ K → ∃ K1 K2, K = K1 ++ ke :: K2 ∧ find_key ke (map of_key K) = Done (Some (length K1)).
Proof.
  induction K as [|k K IH]; [by intros ?%elem_of_nil|]. intros Hin. cbn [map find_key].
  assert (equal (of_key k) (of_key ke) = Done (bool_decide (k = ke))) as ->.
  { unfold equal. rewrite !hash_of_key. by destruct k, ke. }
  cbn [exec_bind]. case_bool_decide as E; [subst; by exists [], K|]. apply elem_of_cons in Hin as [->|Hin]; [done|].
  destruct (IH Hin) as (K1 & K2 & -> & ->). by exists (k :: K1), K2.
Qed.

Lemma find_key_not ke K : ke ∉ K → find_key ke (map of_key K) = Done None.
Proof.
  induction K as [|k K IH]; [done|]. rewrite not_elem_of_cons. intros [Hne Hin]. cbn [map find_key].
  assert (equal (of_key k) (of_key ke) = Done (bool_decide (k = ke))) as ->.
  { unfold equal. rewrite !hash_of_key. by destruct k, ke. }
  rewrite bool_decide_eq_false_2 by congruence. cbn [exec_bind]. by rewrite IH.
Qed.

(** The entries with the keys [K]. *)
Definition those (K : list key) (kvs : list (key * value)) : list (key * value) := filter (λ kv, kv.1 ∈ K) kvs.

Lemma cut_out_here K1 ke K2 : cut_out (map of_key (K1 ++ ke :: K2)) (Z.of_nat (length K1)) = map of_key (K1 ++ K2).
Proof.
  unfold cut_out. replace (Z.to_nat (Z.of_nat (length K1) + 1)) with (S (length K1)) by lia. rewrite Nat2Z.id, !map_app. cbn [map].
  assert (length K1 = length (map of_key K1)) as -> by by rewrite length_map.
  rewrite take_app_length. f_equal. rewrite (cons_middle (of_key ke)), app_assoc.
  replace (S (length (map of_key K1))) with (length (map of_key K1 ++ [of_key ke])) by (rewrite length_app; cbn; lia). apply drop_app_length.
Qed.

Lemma del_one_in ranged n told p s ke v K m h ks vs :
  (0 < n)%nat → ke ∈ K → m !! ke = Some v → plain v →
  h !! p = Some (MapN (Some s) (Z.of_nat (size m))) → h !! s = Some (SyncN m) →
  ∃ K1 K2 h', K = K1 ++ ke :: K2 ∧
    del_one ranged n p s told ke v (MkDel h (map of_key K) (len K) ks vs) =
      Done (0 <? len (K1 ++ K2), MkDel h' (map of_key (K1 ++ K2)) (len (K1 ++ K2))
        (ks ++ if told then [of_key ke] else []) (vs ++ if told then [v] else [])) ∧
    h' !! p = Some (MapN (Some s) (Z.of_nat (size (delete ke m)))) ∧ h' !! s = Some (SyncN (delete ke m)).
Proof.
  intros Hn Hin Hk Hv Hp Hs. assert (p ≠ s) as Hne by (intros ->; congruence).
  destruct (find_key_in ke K Hin) as (K1 & K2 & EK & E). exists K1, K2.
  unfold del_one. cbn [d_key d_heap d_keysl d_keys d_values]. rewrite E. cbn [exec_bind]. unfold the_sync at 1. rewrite Hs. cbn [exec_bind].
  rewrite Hk. unfold Delete, the_sync. rewrite Hs. cbn [exec_bind]. unfold the_map. rewrite list_lookup_insert_ne, Hp by done. cbn [exec_bind].
  rewrite EK, cut_out_here. set (h2 := <[p := _]> _). exists h2. split; [done|].
  assert (Z.of_nat (size m) - 1 = Z.of_nat (size (delete ke m))) as Esz.
  { rewrite map_size_delete_Some by by eexists. assert (size m ≠ 0%nat) by (intros ->%map_size_empty_inv; done). lia. }
  split.
  - replace (len (K1 ++ ke :: K2) - 1) with (len (K1 ++ K2)) by (rewrite !length_app; cbn; lia).
    destruct told; [done|]. rewrite !app_nil_r. destruct n as [|n]; [lia|]. by destruct v.
  - unfold h2. rewrite Esz. split.
    + apply list_lookup_insert_eq. rewrite length_insert. by eapply lookup_lt_Some.
    + rewrite list_lookup_insert_ne by done. apply list_lookup_insert_eq. by eapply lookup_lt_Some.
Qed.

Lemma del_one_out ranged n told p s ke v K h ks vs :
  ke ∉ K → del_one ranged n p s told ke v (MkDel h (map of_key K) (len K) ks vs) =
    Done (0 <? len K, MkDel h (map of_key K) (len K) ks vs).
Proof. intros Hin. unfold del_one. cbn [d_key]. by rewrite find_key_not. Qed.

(** What is left of [m] when those of the keys [K] that are in [ke] are deleted. *)
Definition left_of (K ke : list key) (m : gmap key value) : gmap key value := filter (λ kv, ¬ (kv.1 ∈ K ∧ kv.1 ∈ ke)) m.

Lemma left_of_none K ke m : K = [] ∨ ke = [] → left_of K ke m = m.
Proof. intros H. apply map_filter_id. intros i x _ [H1 H2]. cbn in *. destruct H as [-> | ->]; set_solver. Qed.

Lemma left_of_out k K ke m : k ∉ K → left_of K (k :: ke) m = left_of K ke m.
Proof. intros H. apply map_filter_ext. intros i x _. cbn. set_solver. Qed.

Lemma left_of_in K1 k K2 ke m : k ∉ ke → left_of (K1 ++ K2) ke (delete k m) = left_of (K1 ++ k :: K2) (k :: ke) m.
Proof.
  intros Hn. apply map_eq. intros j. apply option_eq. intros x. unfold left_of. rewrite !map_lookup_filter_Some, lookup_delete_Some. cbn.
  rewrite !elem_of_app, !elem_of_cons. split.
  - intros [[? ?] Hx]. split; [done|]. intros [H1 [H2|H2]]; [congruence|]. apply Hx. intuition congruence.
  - intros [? Hx]. split; [split; [|done]|]; [intros ->; apply Hx; auto|]. intros [H1 H2]. apply Hx. intuition.
Qed.

Lemma those_nil kvs : those [] kvs = [].
Proof. unfold those. induction kvs as [|x kvs IH]; [done|]. rewrite filter_cons_False; [done|by intros ?%elem_of_nil]. Qed.

Lemma those_in K1 k v K2 kvs : k ∉ kvs.*1 → those (K1 ++ k :: K2) ((k, v) :: kvs) = (k, v) :: those (K1 ++ K2) kvs.
Proof.
  intros Hn. unfold those. rewrite filter_cons_True by (cbn; set_solver). f_equal.
  induction kvs as [|[j x] kvs IH]; [done|]. cbn in Hn. apply not_elem_of_cons in Hn as [Hj Hn]. rewrite !filter_cons, IH by done.
  cbn. destruct (decide (j ∈ K1 ++ k :: K2)), (decide (j ∈ K1 ++ K2)); try done; set_solver.
Qed.

Lemma those_out k v K kvs : k ∉ K → those K ((k, v) :: kvs) = those K kvs.
Proof. intros H. unfold those. by rewrite filter_cons_False. Qed.

(** Range deletes the keys asked for, and takes down what it deletes when that is told. *)
Lemma range_live_del ranged n told p s kvs K m h ks vs :
  NoDup kvs.*1 → (∀ k v, (k, v) ∈ kvs → m !! k = Some v ∧ plain v) → (0 < n)%nat →
  h !! p = Some (MapN (Some s) (Z.of_nat (size m))) → h !! s = Some (SyncN m) →
  ∃ d, range_live d_heap s (del_one ranged n p s told) kvs.*1 (MkDel h (map of_key K) (len K) ks vs) = Done d ∧
      holds (d_heap d) p (left_of K kvs.*1 m) ∧
      d_keys d = ks ++ (if told then map (λ kv, of_key kv.1) (those K kvs) else []) ∧
      d_values d = vs ++ (if told then map snd (those K kvs) else []).
Proof.
  intros Hnd Hm Hn. revert K m h ks vs Hm. induction kvs as [|[k v] kvs IH]; intros K m h ks vs Hm Hp Hs.
  { eexists. split; [done|]. cbn [d_heap d_keys d_values]. rewrite left_of_none by by right. split; [by exists s|]. by destruct told; rewrite !app_nil_r. }
  cbn [fmap list_fmap] in Hnd |- *. apply NoDup_cons in Hnd as [Hnin Hnd]. destruct (Hm k v ltac:(left)) as [Hk Hv].
  cbn [range_live d_heap fst]. unfold the_sync at 1. rewrite Hs. cbn [exec_bind]. rewrite Hk.
  destruct (decide (k ∈ K)) as [Hin|Hin].
  - destruct (del_one_in ranged n told p s k v K m h ks vs Hn Hin Hk Hv Hp Hs) as (K1 & K2 & h' & -> & -> & Hp' & Hs'). cbn [exec_bind].
    rewrite those_in by done. destruct (0 <? len (K1 ++ K2)) eqn:El.
    + edestruct (IH Hnd (K1 ++ K2) (delete k m) h') as (d & -> & H1 & H2 & H3); [|done|done|].
      { intros j x Hjx. destruct (Hm j x ltac:(by right)) as [Hj ?]. split; [|done]. rewrite lookup_delete_ne; [done|].
        intros ->. apply Hnin. apply list_elem_of_fmap. by exists (j, x). }
      exists d. split; [done|]. rewrite left_of_in in H1 by done. split; [done|]. rewrite H2, H3. destruct told; by rewrite <- ?app_assoc.
    + assert (K1 ++ K2 = []) as E0 by (by destruct (K1 ++ K2)).
      eexists. split; [done|]. cbn [d_heap d_keys d_values]. rewrite E0, those_nil, <- left_of_in, E0, left_of_none by (done || by left).
      split; [by exists s|]. by destruct told.
  - rewrite (del_one_out ranged n told p s k v K h ks vs Hin), those_out, left_of_out by done. cbn [exec_bind].
    destruct (0 <? len K) eqn:El; [apply IH; [done|intros; apply Hm; by right|done|done]|].
    assert (K = []) as -> by (by destruct K). eexists. split; [done|]. cbn [d_heap d_keys d_values].
    rewrite those_nil, left_of_none by by left. split; [by exists s|]. by destruct told; rewrite !app_nil_r.
Qed.

(** *** A Map against a finite map *)

Inductive call :=
| CSet (k : key) (v : value)
| CDel (told : bool) (K : list key)
| CGet (k : key)
| CExist (k : key)
| CCount
| CKeys (K : list key)
| CValues (K : list key).

Inductive answer :=
| ANothing
| AValue (v : value) (found : bool)
| AExists (b : bool)
| ACount (c : Z)
| AList (l : list value)
| ATold (o : option (list value * list value)).

Definition plain_call (c : call) : Prop := match c with CSet _ v => plain v | _ => True end.

Definition run_call (ranged : gmap key value → list (key * value)) (n : nat) (p : nat) (c : call) (h : heap) : exec (heap * answer) :=
  match c with
  | CSet k v => let* h' := Set_ (Some p) (of_key k) v h in Done (h', ANothing)
  | CDel told K =>
    let* '(h', o) := Del ranged n (Some p) (map of_key K ++ if told then [VDone] else []) h in Done (h', ATold o)
  | CGet k => let* '(v, found) := Get h (Some p) (of_key k) in Done (h, AValue v found)
  | CExist k => let* b := Exist h (Some p) (of_key k) in Done (h, AExists b)
  | CCount => let* c := Count h (Some p) in Done (h, ACount c)
  | CKeys K => let* l := Keys ranged h (Some p) (map of_key K) in Done (h, AList l)
  | CValues K => let* l := Values ranged h (Some p) (map of_key K) in Done (h, AList l)
  end.

Fixpoint run_calls (ranged : gmap key value → list (key * value)) (n : nat) (p : nat) (cs : list call) (h : heap) : exec (heap * list answer) :=
  match cs with
  | [] => Done (h, [])
  | c :: cs' =>
    let* '(h1, a) := run_call ranged n p c h in
    let* '(h2, l) := run_calls ranged n p cs' h1 in Done (h2, a :: l)
  end.

(** What is asked of a finite map.  All entries are asked for with no keys. *)
Definition asked (K : list key) (kvs : list (key * value)) : list (key * value) :=
  match K with [] => kvs | _ => those K kvs end.

Definition spec_call (ranged : gmap key value → list (key * value)) (c : call) (m : gmap key value) : gmap key value * answer :=
  match c with
  | CSet k v => (<[k := v]> m, ANothing)
  | CDel told K =>
    (filter (λ kv, kv.1 ∉ K) m,
     ATold match those K (ranged m) with
           | [] => None
           | kvs => if told then Some (map (λ kv, of_key kv.1) kvs, map snd kvs) else None
           end)
  | CGet k => (m, AValue (default VNil (m !! k)) (bool_decide (is_Some (m !! k))))
  | CExist k => (m, AExists (bool_decide (is_Some (m !! k))))
  | CCount => (m, ACount (Z.of_nat (size m)))
  | CKeys K => (m, AList (map (λ kv, of_key kv.1) (asked K (ranged m))))
  | CValues K => (m, AList (map snd (asked K (ranged m))))
  end.

Fixpoint spec_calls (ranged : gmap key value → list (key * value)) (cs : list call) (m : gmap key value) : gmap key value * list answer :=
  match cs with
  | [] => (m, [])
  | c :: cs' =>
    let '(m1, a) := spec_call ranged c m in
    let '(m2, l) := spec_calls ranged cs' m1 in (m2, a :: l)
  end.

Lemma holds_Load h p m k : holds h p m → ∃ s, the_map h p = Done (Some s, Z.of_nat (size m)) ∧ h !! s = Some (SyncN m) ∧
  Load h s (of_key k) = Done match m !! k with Some x => (x, true) | None => (VNil, false) end.
Proof.
  intros (s & Hp & Hs). exists s. unfold the_map, Load, the_sync. rewrite hash_of_key, Hp, Hs. done.
Qed.

Lemma holds_Get h p m k : holds h p m → Get h (Some p) (of_key k) = Done (default VNil (m !! k), bool_decide (is_Some (m !! k))).
Proof. intros (s & E & _ & El)%(holds_Load h p m k). unfold Get. rewrite E. cbn [exec_bind]. rewrite El. by destruct (m !! k). Qed.

Lemma holds_Exist h p m k : holds h p m → Exist h (Some p) (of_key k) = Done (bool_decide (is_Some (m !! k))).
Proof. intros (s & E & _ & El)%(holds_Load h p m k). unfold Exist. rewrite E. cbn [exec_bind]. rewrite El. by destruct (m !! k). Qed.

Lemma holds_Count h p m : holds h p m → Count h (Some p) = Done (Z.of_nat (size m)).
Proof. intros (s & Hp & _). unfold Count, the_map. by rewrite Hp. Qed.

Section gmap.
Context (ranged : gmap key value → list (key * value)) (ranged_perm : ∀ m, ranged m ≡ₚ map_to_list m).

Lemma ranged_nodup m : NoDup (ranged m).*1.
Proof. rewrite ranged_perm. apply NoDup_fst_map_to_list. Qed.

Lemma ranged_in m k v : (k, v) ∈ ranged m ↔ m !! k = Some v.
Proof. by rewrite ranged_perm, elem_of_map_to_list. Qed.

Lemma left_of_ranged K m : left_of K (ranged m).*1 m = filter (λ kv, kv.1 ∉ K) m.
Proof.
  apply map_filter_ext. intros k v E. cbn. split; [|tauto]. intros H Hk. apply H. split; [done|].
  apply list_elem_of_fmap. exists (k, v). split; [done|]. by apply ranged_in.
Qed.

(** Asked for by keys, every key has been taken out when the entries are gone over. *)
Lemma range_those (pick : key → value → value) K kvs (l : list value) (kl : Z) :
  kl ≤ 0 → ∃ kl', range (λ ke v '((l, kl) : list value * Z),
      let '(l, kl) := if decide (ke ∈ (list_to_set K ∪ ∅ : gset key)) then (l ++ [pick ke v], kl - 1) else (l, kl) in
      Done (negb (0 <? kl), (l, kl))) kvs (l, kl) = Done (l ++ map (λ kv, pick kv.1 kv.2) (those K kvs), kl').
Proof.
  revert l kl. induction kvs as [|[k v] kvs IH]; intros l kl Hkl; [exists kl; cbn; by rewrite app_nil_r|]. cbn [range].
  unfold those. destruct (decide (k ∈ K)) as [Hin|Hin].
  - rewrite decide_True by set_solver. rewrite filter_cons_True by done. cbn [exec_bind]. rewrite (proj2 (Z.ltb_ge 0 (kl - 1))) by lia. cbn [negb].
    destruct (IH (l ++ [pick k v]) (kl - 1) ltac:(lia)) as (kl' & ->). exists kl'. cbn. by rewrite <- app_assoc.
  - rewrite decide_False by set_solver. rewrite filter_cons_False by done. cbn [exec_bind]. rewrite (proj2 (Z.ltb_ge 0 kl)) by lia. cbn [negb].
    by apply IH.
Qed.

Lemma range_everything (pick : key → value → value) kvs l :
  range (λ ke v l, Done (true, l ++ [pick ke v])) kvs l = Done (l ++ map (λ kv : key * value, pick kv.1 kv.2) kvs).
Proof.
  revert l. induction kvs as [|[k v] kvs IH]; intros l; [cbn; by rewrite app_nil_r|]. cbn [range exec_bind]. rewrite IH. cbn. by rewrite <- app_assoc.
Qed.

Lemma picked_asked pick K h p m :
  holds h p m → picked ranged pick h (Some p) (map of_key K) = Done (map (λ kv, pick kv.1 kv.2) (asked K (ranged m))).
Proof.
  intros (s & Hp & Hs). unfold picked, the_map, the_sync. rewrite Hp. cbn [exec_bind]. rewrite Hs, length_map. cbn [exec_bind].
  destruct K as [|k K]; [apply range_everything|]. rewrite (proj2 (Z.ltb_lt _ _)) by (cbn; lia).
  unfold marks. rewrite length_map, mark_keys_0 by lia. cbn [exec_bind].
  destruct (range_those pick (k :: K) (ranged m) [] 0 ltac:(lia)) as (kl' & E). rewrite E. done.
Qed.

Lemma Del_holds n p (told : bool) (K : list key) h m :
  (0 < n)%nat → map_Forall (λ _ v, plain v) m → holds h p m →
  ∃ h', Del ranged n (Some p) (map of_key K ++ if told then [VDone] else []) h =
      Done (h', match those K (ranged m) with
                | [] => None
                | kvs => if told then Some (map (λ kv, of_key kv.1) kvs, map snd kvs) else None
                end) ∧ holds h' p (filter (λ kv, kv.1 ∉ K) m).
Proof.
  intros Hn Hpl Hh. destruct Hh as (s & Hp & Hs). unfold Del, the_map.
  assert (∀ k v, (k, v) ∈ ranged m → m !! k = Some v ∧ plain v) as Hin.
  { intros k v E%ranged_in. split; [done|]. by eapply Hpl. }
  destruct (range_live_del ranged n told p s (ranged m) K m h [] [] (ranged_nodup m) Hin Hn Hp Hs) as (d & Hd & Hd1 & Hd2 & Hd3).
  rewrite left_of_ranged in Hd1.
  destruct (map of_key K ++ (if told then [VDone] else [])) as [|x l] eqn:Ek.
  { apply app_eq_nil in Ek as [EK ?]. destruct told; [done|]. destruct K; [|done]. exists h. rewrite those_nil. split; [done|].
    rewrite map_filter_id; [by exists s|]. by intros ? ? ? ?%elem_of_nil. }
  rewrite Hp. cbn [exec_bind]. rewrite <- Ek. unfold the_sync. rewrite Hs. cbn [exec_bind].
  assert ((match List.last (map of_key K ++ (if told then [VDone] else [])) VNil with VDone => true | _ => false end) = told) as ->.
  { clear -Ek. destruct told; [by rewrite List.last_last|]. rewrite app_nil_r in *. clear Ek.
    destruct K as [|k K _] using rev_ind; [done|]. rewrite map_app. cbn [map]. rewrite List.last_last. by destruct k. }
  assert ((if told then removelast (map of_key K ++ (if told then [VDone] else [])) else map of_key K ++ (if told then [VDone] else [])) = map of_key K) as ->.
  { destruct told; [by rewrite removelast_last|by rewrite app_nil_r]. }
  rewrite length_map. change (map fst (ranged m)) with (ranged m).*1. rewrite Hd. cbn [exec_bind]. exists (d_heap d). split; [|done].
  do 2 f_equal. rewrite Hd2, Hd3. destruct told; [|by destruct (those K (ranged m))]. destruct (those K (ranged m)) as [|kv kvs]; [done|].
  cbn [andb app map length]. by rewrite (proj2 (Z.ltb_lt _ _)) by lia.
Qed.

Lemma call_refines n p c h m :
  (0 < n)%nat → plain_call c → map_Forall (λ _ v, plain v) m → holds h p m →
  ∃ h', run_call ranged n p c h = Done (h', (spec_call ranged c m).2) ∧ holds h' p (spec_call ranged c m).1 ∧
    map_Forall (λ _ v, plain v) (spec_call ranged c m).1.
Proof.
  intros Hn Hc Hpl Hh. destruct c as [k v|told K|k|k| |K|K]; cbn [run_call spec_call fst snd].
  - destruct (Set_holds h p m k v Hh Hc) as (h' & -> & Hh' & _). exists h'. split; [done|]. split; [done|]. by apply map_Forall_insert_2.
  - destruct (Del_holds n p told K h m Hn Hpl Hh) as (h' & -> & Hh'). exists h'. split; [done|]. split; [done|].
    intros k v [? _]%map_lookup_filter_Some. by eapply Hpl.
  - rewrite (holds_Get h p m k Hh). by exists h.
  - rewrite (holds_Exist h p m k Hh). by exists h.
  - rewrite (holds_Count h p m Hh). by exists h.
  - unfold Keys. rewrite (picked_asked _ K h p m Hh). by exists h.
  - unfold Values. rewrite (picked_asked _ K h p m Hh). exists h. done.
Qed.

Lemma calls_refine n p cs h m :
  (0 < n)%nat → Forall plain_call cs → map_Forall (λ _ v, plain v) m → holds h p m →
  ∃ h', run_calls ranged n p cs h = Done (h', (spec_calls ranged cs m).2) ∧ holds h' p (spec_calls ranged cs m).1.
Proof.
  intros Hn Hcs. revert h m. induction Hcs as [|c cs Hc _ IH]; intros h m Hpl Hh; [by exists h|]. cbn [run_calls spec_calls].
  destruct (call_refines n p c h m Hn Hc Hpl Hh) as (h1 & -> & Hh1 & Hpl1). cbn [exec_bind]. destruct (spec_call ranged c m) as [m1 a].
  destruct (IH h1 m1 Hpl1 Hh1) as (h2 & -> & Hh2). cbn [exec_bind]. destruct (spec_calls ranged cs m1) as [m2 l]. by exists h2.
Qed.
End gmap.

(** C40: a Map made by [NewMap] refines a finite map: after any Sets of numbers and texts,
    Dels - told or not - and lookups, it answers every Get, Exist, Count, Keys and Values as
    the finite map does, Dels tell exactly the entries deleted, and the count kept beside the
    [sync.Map] is the number of entries. *)
Theorem Map_refines_gmap ranged n h cs :
  (∀ m, ranged m ≡ₚ map_to_list m) → (0 < n)%nat → Forall plain_call cs →
  let '(h1, p) := NewMap h in
  ∃ h2, run_calls ranged n p cs h1 = Done (h2, (spec_calls ranged cs ∅).2) ∧ holds h2 p (spec_calls ranged cs ∅).1.
Proof.
  intros Hr Hn Hcs. pose proof (NewMap_holds h) as Hh. destruct (NewMap h) as [h1 p].
  by apply calls_refine; [|done|done|apply map_Forall_empty|].
Qed.

(** ** ForEach *)

Section in_turn.
Context {S : Type} (f : value → value → bool → bool → S → exec (bool * S)).

(** The entries in turn, the first told as the first and the last as the last. *)
Fixpoint in_turn (first : bool) (l : list (key * value)) (s : S) : exec S :=
  match l with
  | [] => Done s
  | [(k, v)] => let* '(_, s') := f (of_key k) v first true s in Done s'
  | (k, v) :: l' =>
    let* '(stop, s') := f (of_key k) v first false s in if (stop : bool) then Done s' else in_turn false l' s'
  end.

Context (never : ∀ k v first last s b s', f k v first last s = Done (b, s') → b = false).

Lemma prfrm_in_turn p n l first s :
  (let* x := range (λ ke v x, prfrm f (of_key ke) v x) l (Some (of_key p.1, p.2), Some (of_key n.1, n.2), first, s) in wrpup f x) =
  in_turn first (p :: n :: l) s.
Proof.
  destruct p as [pk pv], n as [nk nv]. revert pk pv nk nv first s. induction l as [|[k v] l IH]; intros pk pv nk nv first s; cbn [fst snd] in *.
  - cbn [range exec_bind wrpup in_turn]. done.
  - cbn [range exec_bind prfrm]. change (in_turn first ((pk, pv) :: (nk, nv) :: (k, v) :: l) s) with
      (let* '(stop, s') := f (of_key pk) pv first false s in if (stop : bool) then Done s' else in_turn false ((nk, nv) :: (k, v) :: l) s').
    destruct (f (of_key pk) pv first false s) as [[b s']| |] eqn:E; [|done|done]. cbn [exec_bind].
    rewrite (never _ _ _ _ _ _ _ E). cbn [exec_bind]. apply IH.
Qed.
End in_turn.

(** [ForEach] tells a callback that never stops it every entry of the Map once, in
    the order of [Range], whatever the callback does with its own state: the first entry is
    told as the first, the last one as the last, and one that is alone as both. *)
Theorem ForEach_in_order {S} ranged (f : value → value → bool → bool → S → exec (bool * S)) h p m s :
  (∀ k v first last s b s', f k v first last s = Done (b, s') → b = false) → holds h p m →
  ForEach ranged h (Some p) f [] s = in_turn f true (ranged m) s.
Proof.
  intros Hf (sm & Hp & Hs). unfold ForEach, the_map, the_sync. rewrite Hp. cbn [exec_bind length]. rewrite Hs. cbn [exec_bind].
  destruct (ranged m) as [|[pk pv] [|[nk nv] l]]; [done|done|]. cbn [Z.of_nat Z.ltb Z.compare range prfrm exec_bind].
  apply (prfrm_in_turn f Hf (pk, pv) (nk, nv)).
Qed.

(** ** A Slice of plain values is a list *)

Fixpoint indexed (i : Z) (l : list value) : gmap key value :=
  match l with [] => ∅ | v :: l' => <[KInt i := v]> (indexed (i + 1) l') end.

Lemma indexed_lookup l i j : indexed i l !! KInt j = if i <=? j then l !! Z.to_nat (j - i) else None.
Proof.
  revert i. induction l as [|v l IH]; intros i; cbn [indexed]; [rewrite lookup_empty; by destruct (i <=? j)|]. destruct (decide (i = j)) as [->|Hne].
  - by rewrite lookup_insert_eq, Z.leb_refl, Z.sub_diag.
  - rewrite lookup_insert_ne, IH by congruence. destruct (Z.leb_spec (i + 1) j), (Z.leb_spec i j); try lia; [|done].
    by replace (Z.to_nat (j - i)) with (S (Z.to_nat (j - (i + 1)))) by lia.
Qed.

Lemma indexed_out l i k : (∀ j, k ≠ KInt j) → indexed i l !! k = None.
Proof. intros Hk. revert i. induction l as [|v l IH]; intros i; [done|]. cbn [indexed]. rewrite lookup_insert_ne; [apply IH|]. intros E. by eapply Hk. Qed.

Lemma indexed_snoc l i v : indexed i (l ++ [v]) = <[KInt (i + len l) := v]> (indexed i l).
Proof.
  revert i. induction l as [|x l IH]; intros i; [cbn; by rewrite Z.add_0_r|]. cbn [indexed app]. rewrite IH, insert_insert_ne.
  - by replace (i + 1 + len l) with (i + len (x :: l)) by (rewrite length_cons; lia).
  - intros [=]. lia.
Qed.

Lemma indexed_size l i : size (indexed i l) = length l.
Proof.
  revert i. induction l as [|x l IH]; intros i; [apply map_size_empty|]. cbn [indexed length]. rewrite map_size_insert_None, IH; [done|].
  rewrite indexed_lookup. by rewrite (proj2 (Z.leb_gt (i + 1) i)) by lia.
Qed.

(** The Slice [p] has the elements [l]. *)
Definition slice_holds (h : heap) (p : nat) (l : list value) : Prop :=
  ∃ q, h !! p = Some (SliceN (Some q)) ∧ holds h q (indexed 0 l).

Lemma NewSlice_holds h : let '(h', p) := NewSlice h in slice_holds h' p [].
Proof.
  unfold NewSlice. pose proof (NewMap_holds h) as Hm. destruct (NewMap h) as [h1 q]. destruct Hm as (s & Hq & Hs). exists q. split.
  - by rewrite lookup_app_r, Nat.sub_diag by done.
  - exists s. rewrite !lookup_app_l by by eapply lookup_lt_Some. done.
Qed.

Lemma append_with_holds a q h p l :
  h !! p = Some (SliceN (Some q)) → holds h q (indexed 0 l) → Forall plain a →
  ∃ h', append_with constructValue q (len l) a h = Done h' ∧ slice_holds h' p (l ++ a).
Proof.
  intros Hp Hq Ha. revert l h Hp Hq. induction Ha as [|v a Hv _ IH]; intros l h Hp Hq; cbn [append_with].
  - exists h. rewrite app_nil_r. split; [done|]. by exists q.
  - assert (constructValue v h = Done (v, h)) as -> by by destruct v. cbn [exec_bind].
    destruct (Set_holds h q (indexed 0 l) (KInt (len l)) v Hq Hv) as (h1 & E & Hq1 & _ & Hf). cbn [of_key] in E. unfold Set_ in E. rewrite E. cbn [exec_bind].
    replace (len l + 1) with (len (l ++ [v])) by (rewrite length_app, length_cons; cbn; lia).
    destruct (IH (l ++ [v]) h1) as (h' & -> & Hh').
    + destruct Hq as (s & Hq & Hs). rewrite Hf; [done|congruence|]. intros s' Hs'. congruence.
    + by rewrite indexed_snoc.
    + exists h'. split; [done|]. by rewrite <- app_assoc in Hh'.
Qed.

Lemma slice_holds_Get h p l i :
  slice_holds h p l → slice_Get h (Some p) i = Done (default VNil (if 0 <=? i then l !! Z.to_nat i else None)).
Proof.
  intros (q & Hp & Hq). unfold slice_Get, the_slice. destruct (Z.leb_spec 0 i); [|done]. rewrite Hp. cbn [exec_bind].
  pose proof (holds_Get h q _ (KInt i) Hq) as E. cbn [of_key] in E. rewrite E. cbn [exec_bind]. rewrite indexed_lookup, Z.sub_0_r.
  by rewrite (proj2 (Z.leb_le 0 i)).
Qed.

(** A Slice grows as a list does: after appending numbers and texts to a Slice of
    numbers and texts, any number at a time, it has the old elements and then the new ones;
    [Get] gives them by their index and nil outside it, and the count is their number. *)
Theorem slice_appends h p l a :
  slice_holds h p l → Forall plain a →
  ∃ h', Append (Some p) a h = Done h' ∧ slice_holds h' p (l ++ a) ∧
    (∀ i, slice_Get h' (Some p) i = Done (default VNil (if 0 <=? i then (l ++ a) !! Z.to_nat i else None))) ∧
    ∃ q, the_slice h' p = Done (Some q) ∧ Count h' (Some q) = Done (len (l ++ a)).
Proof.
  intros Hh Ha. assert (∃ h', Append (Some p) a h = Done h' ∧ slice_holds h' p (l ++ a)) as (h' & E & Hh').
  { unfold Append, slice_append. destruct a as [|v a]; [exists h; by rewrite app_nil_r|]. destruct Hh as (q & Hp & Hq).
    unfold the_slice. rewrite Hp. cbn [exec_bind]. rewrite (holds_Count h q _ Hq), indexed_size. cbn [exec_bind].
    by apply append_with_holds. }
  exists h'. split; [done|]. split; [done|]. split; [intros i; by apply slice_holds_Get|]. destruct Hh' as (q & Hp & Hq).
  exists q. unfold the_slice. rewrite Hp. split; [done|]. by rewrite (holds_Count h' q _ Hq), indexed_size.
Qed.

(** ** Witnesses and examples *)

(** A Map that holds itself. *)
Definition circle : heap :=
  match Set_ (Some 1%nat) (VStr [97]) (VMapP 1) (NewMap []).1 with Done h => h | _ => [] end.

Lemma circle_reachable : reachable map_to_list circle.
Proof.
  apply (reach_op map_to_list (NewMap []).1 2 (OpSet 1 (VStr [97]) (VMapP 1))).
  - apply (reach_op map_to_list [] 1 OpNewMap); [apply reach_start|done|cbn; lia|reflexivity].
  - split; [done|]. split; [by eexists|]. done.
  - cbn. lia.
  - vm_compute. reflexivity.
Qed.

Lemma heap_typed_witness :
  typed circle ∧ ∃ h', run_op map_to_list 2 (OpDispose 1) circle = Done h' ∧ typed h' ∧ extends circle h'.
Proof.
  apply (heap_typed map_to_list circle 2 (OpDispose 1)).
  - intros m. reflexivity.
  - exact circle_reachable.
  - reflexivity.
  - vm_compute. lia.
Defined.

Definition demo_calls : list call :=
  [CSet (KInt 1) (VStr [97]); CSet (KInt 2) (VStr [98]); CSet (KInt 1) (VInt 7); CDel true [KInt 2; KInt 5]; CCount; CGet (KInt 1); CGet (KInt 2)].

Lemma Map_refines_gmap_witness :
  (spec_calls map_to_list demo_calls ∅).2 =
    [ANothing; ANothing; ANothing; ATold (Some ([VInt 2], [VStr [98]])); ACount 1; AValue (VInt 7) true; AValue VNil false] ∧
  ∃ h2, run_calls map_to_list 1 1 demo_calls (NewMap []).1 = Done (h2, (spec_calls map_to_list demo_calls ∅).2) ∧
    holds h2 1 (spec_calls map_to_list demo_calls ∅).1.
Proof.
  split; [vm_compute; reflexivity|]. apply (Map_refines_gmap map_to_list 1 [] demo_calls).
  - intros m. reflexivity.
  - lia.
  - unfold demo_calls. repeat constructor.
Defined.

(** Counts the entries it is told, and the first and the last of them. *)
Definition tally (k v : value) (first last : bool) (s : Z * Z * Z) : exec (bool * (Z * Z * Z)) :=
  let '(n, a, b) := s in Done (false, (n + 1, if first then a + 1 else a, if last then b + 1 else b)).

Definition pair_heap : heap := [SyncN (<[KInt 1 := VInt 10]> (<[KInt 2 := VInt 20]> ∅)); MapN (Some 0%nat) 2].

Lemma pair_heap_holds : holds pair_heap 1 (<[KInt 1 := VInt 10]> (<[KInt 2 := VInt 20]> ∅)).
Proof. exists 0%nat. split; vm_compute; reflexivity. Qed.

Lemma ForEach_in_order_witness :
  ForEach map_to_list pair_heap (Some 1%nat) tally [] (0, 0, 0) = Done (2, 1, 1) ∧
  ForEach map_to_list pair_heap (Some 1%nat) tally [] (0, 0, 0) =
    in_turn tally true (map_to_list (<[KInt 1 := VInt 10]> (<[KInt 2 := VInt 20]> ∅))) (0, 0, 0).
Proof.
  split; [vm_compute; reflexivity|]. apply ForEach_in_order.
  - intros k v first last [[n a] b] s b' E. cbn in E. congruence.
  - exact pair_heap_holds.
Defined.

Lemma slice_appends_witness :
  let h := (NewSlice []).1 in
  ∃ h', Append (Some 2%nat) [VInt 5; VStr [97]] h = Done h' ∧ slice_holds h' 2 ([] ++ [VInt 5; VStr [97]]) ∧
    (∀ i, slice_Get h' (Some 2%nat) i = Done (default VNil (if 0 <=? i then ([] ++ [VInt 5; VStr [97]]) !! Z.to_nat i else None))) ∧
    ∃ q, the_slice h' 2 = Done (Some q) ∧ Count h' (Some q) = Done (len ([] ++ [VInt 5; VStr [97]])).
Proof.
  apply slice_appends.
  - exact (NewSlice_holds []).
  - repeat constructor.
Defined.

(** nil is counted and not stored: setting it twice counts two entries where there is none. *)
Example nil_counted :
  (let* h := Set_ (Some 1%nat) (VInt 1) VNil (NewMap []).1 in
   let* h := Set_ (Some 1%nat) (VInt 1) VNil h in
   let* c := Count h (Some 1%nat) in
   let* b := Exist h (Some 1%nat) (VInt 1) in Done (c, b)) = Done (2, false).
Proof. vm_compute. reflexivity. Qed.

(** A slice of Go becomes a Slice with its count and none of its elements. *)
Example elements_lost :
  (let* h := Set_ (Some 1%nat) (VInt 1) (VArr [VInt 10; VInt 20]) (NewMap []).1 in
   let* '(v, _) := Get h (Some 1%nat) (VInt 1) in
   match v with
   | VSliceP p => let* mp := the_slice h p in let* c := Count h mp in let* x := slice_Get h (Some p) 0 in Done (c, x)
   | _ => Panic
   end) = Done (2, VNil).
Proof. vm_compute. reflexivity. Qed.

(** Iterating over keys yields nothing, whatever the keys are. *)
Lemma Iterate_keys_silent {S} ranged h p m K yield (s : S) :
  holds h p m → NoDup K → K ≠ [] → Iterate ranged h (Some p) (map of_key K) yield s = Done s.
Proof.
  intros (sm & Hp & Hs) Hnd HK. unfold Iterate, the_map, iteratemap, the_sync. rewrite Hp. cbn [exec_bind]. rewrite Hs, length_map.
  destruct K as [|k K]; [done|]. rewrite (proj2 (Z.ltb_lt _ _)) by (cbn; lia).
  unfold marks. rewrite length_map. change 0 with (Z.of_nat (length (A := key) [])) at 1.
  rewrite (mark_keys_nodup cut_wrong [] (k :: K)) by (done || cbn; lia). cbn [exec_bind].
  assert (∀ kvs kl, ∃ kl', range (λ ke (_ : value) kl, let kl := if decide (ke ∈ (list_to_set ([] ++ k :: K) : gset key)) then kl - 1 else kl in
    Done (negb (0 <? kl), kl)) kvs kl = Done kl') as Hr.
  { induction kvs as [|[j x] kvs IH]; intros kl; [by exists kl|]. cbn [range exec_bind]. destruct (negb _); [apply IH|by eexists]. }
  destruct (Hr (ranged m) (len ([] ++ k :: K))) as (kl' & E). cbv zeta in E |- *. by rewrite E.
Qed.

(** A key asked for twice panics there, unless it comes last: what follows it is put in its
    place as a list, which no map can have as a key. *)
Example duplicate_keys_panic :
  Iterate map_to_list pair_heap (Some 1%nat) [VInt 1; VInt 1; VInt 2] (λ _ _ n, Done (true, n + 1)) 0 = Panic.
Proof. vm_compute. reflexivity. Qed.

(** The entry at which a callback stops is told to it twice. *)
Example stop_told_twice :
  ForEach map_to_list [SyncN (<[KInt 1 := VInt 10]> (<[KInt 2 := VInt 20]> (<[KInt 3 := VInt 30]> ∅))); MapN (Some 0%nat) 3]
    (Some 1%nat) (λ k v first last n, Done (true, n + 1)) [] 0 = Done 2.
Proof. vm_compute. reflexivity. Qed.

(** Deleting from a Slice leaves a hole, and the next append replaces the last element. *)
Example delete_then_append :
  (let* h := Append (Some 2%nat) [VInt 10; VInt 20; VInt 30] (NewSlice []).1 in
   let* h := slice_Del map_to_list 4 (Some 2%nat) [0] h in
   let* h := Append (Some 2%nat) [VInt 40] h in
   let* a := slice_Get h (Some 2%nat) 0 in
   let* b := slice_Get h (Some 2%nat) 1 in
   let* c := slice_Get h (Some 2%nat) 2 in Done [a; b; c]) = Done [VNil; VInt 20; VInt 40].
Proof. vm_compute. reflexivity. Qed.

(** Dispose takes one entry apart and leaves the others. *)
Example dispose_first_only :
  (let* h := Dispose map_to_list 4 (Some 1%nat) pair_heap in
   let* m := the_sync h 0 in Done (size m)) = Done 1%nat.
Proof. vm_compute. reflexivity. Qed.
