(* ===== verification/Paths.v ===== *)
(** Paths as src/fs uses them: Go's path functions it calls, and the loop that strips
    [/../] from a path.  Paths are bytes; the separator is the slash. *)

From S2P Require Import Prelude.
From stdpp Require Import strings.
#[local] Open Scope Z_scope.

(** The bytes of a text, to write paths with. *)
Definition text (s : string) : list Z := map (λ a, Z.of_nat (Ascii.nat_of_ascii a)) (String.list_ascii_of_string s).

(** [/../] *)
Definition up : list Z := [47; 46; 46; 47].

(** [strings.LastIndex(path, "/")] *)
Fixpoint last_slash (path : list Z) : Z :=
  match path with
  | [] => -1
  | x :: path' =>
    let i := last_slash path' in
    if 0 <=? i then i + 1 else if x =? 47 then 0 else -1
  end.

(** [filepath.Ext]: what begins with the last dot after the last slash. *)
Fixpoint ext_rev (r acc : list Z) : list Z :=
  match r with
  | [] => []
  | x :: r' => if x =? 47 then [] else if x =? 46 then x :: acc else ext_rev r' (x :: acc)
  end.
Definition Ext (path : list Z) : list Z := ext_rev (reverse path) [].

(** [strings.Contains] and [strings.Replace(s, old, "", 1)] of a string that is not empty. *)
Fixpoint Contains (s t : list Z) : bool :=
  match s with
  | [] => bool_decide (t = [])
  | _ :: s' => bool_decide (take (length t) s = t) || Contains s' t
  end.
Fixpoint remove_first (s t : list Z) : list Z :=
  match s with
  | [] => []
  | x :: s' => if decide (take (length t) s = t) then drop (length t) s else x :: remove_first s' t
  end.

(** [pn < pthl-4 && path[pn:pn+4] == "/../"] *)
Definition up_at (path : list Z) (pn pthl : Z) : exec bool :=
  if pn <? pthl - 4 then let* s := slice path pn (pn + 4) in Done (bool_decide (s = up)) else Done false.

(** [path[:pn+1] + path[pn+4:]] *)
Definition cut_up (path : list Z) (pn : Z) : exec (list Z) :=
  let* a := slice path 0 (pn + 1) in
  let* b := slice path (pn + 4) (len path) in Done (a ++ b).

(** The loop over a path: what is cut is three bytes long, and four are taken off the
    length. *)
Fixpoint strip_all (n : nat) (path : list Z) (pn pthl : Z) : exec (list Z) :=
  match n with
  | O => NoFuel
  | S n' =>
    if pn <? pthl then
      let* x := index path pn in
      let* isup := if x =? 47 then up_at path pn pthl else Done false in
      if (isup : bool) then let* path' := cut_up path pn in strip_all n' path' pn (pthl - 4)
      else strip_all n' path (pn + 1) pthl
    else Done path
  end.
Definition strip_ups (path : list Z) : exec (list Z) := strip_all (S (length path)) path 0 (len path).

(** * Theory *)

Definition up_free (p : list Z) : Prop := ∀ a b, p ≠ a ++ up ++ b.
Definition rooted (p : list Z) : Prop := ∃ q, p = 47 :: q.

Lemma last_slash_none p : 47 ∉ p → last_slash p = -1.
Proof. induction p as [|x p IH]; [done|]. intros [H1 H2]%not_elem_of_cons. cbn [last_slash]. rewrite IH by done. cbn. by destruct (Z.eqb_spec x 47). Qed.

Lemma ext_rev_slash r acc : ext_rev (r ++ [47]) acc = ext_rev r acc.
Proof. revert acc. induction r as [|x r IH]; intros acc; [done|]. cbn [app ext_rev]. by rewrite IH. Qed.

Lemma Ext_root p : Ext (47 :: p) = Ext p.
Proof. unfold Ext. rewrite reverse_cons. apply ext_rev_slash. Qed.

(** A name without a slash has no [/../] when a slash is put before it. *)
Lemma up_free_name p : 47 ∉ p → up_free (47 :: p).
Proof.
  intros Hp [|x a] b; cbn [app up].
  - intros [= ->]. apply Hp. rewrite !elem_of_cons. auto.
  - intros [= _ ->]. apply Hp. unfold up. rewrite elem_of_app. cbn [app]. rewrite elem_of_cons. auto.
Qed.

Lemma up_at_is path pn pthl : 0 ≤ pn → pthl ≤ len path → up_at path pn pthl = Done ((pn <? pthl - 4) && bool_decide (sub path pn (pn + 4) = up)).
Proof. intros H1 H2. unfold up_at. destruct (Z.ltb_spec pn (pthl - 4)); [|done]. by rewrite slice_ok by lia. Qed.

Lemma sub_here (pre rest : list Z) k : 0 ≤ k → sub (pre ++ rest) (len pre) (len pre + k) = take (Z.to_nat k) rest.
Proof. intros Hk. unfold sub. rewrite Nat2Z.id, drop_app_length. f_equal. lia. Qed.

Lemma cut_up_here pre rest : cut_up (pre ++ up ++ rest) (len pre) = Done (pre ++ 47 :: rest).
Proof.
  unfold cut_up. rewrite !slice_ok by (rewrite ?length_app; cbn [length up]; lia). cbn [exec_bind]. f_equal.
  rewrite sub_from_0, sub_to_end by lia. replace (Z.to_nat (len pre + 1)) with (length (pre ++ [47])) by (rewrite length_app; cbn; lia).
  replace (Z.to_nat (len pre + 4)) with (length (pre ++ up)) by (rewrite length_app; cbn; lia).
  replace (pre ++ up ++ rest) with ((pre ++ [47]) ++ [46; 46; 47] ++ rest) at 1 by by rewrite <- app_assoc.
  rewrite take_app_length, (app_assoc pre up rest), drop_app_length. by rewrite <- app_assoc.
Qed.

(** How often [/../] is in a path. *)
Fixpoint n_ups (l : list Z) : Z :=
  match l with [] => 0 | x :: l' => (if bool_decide (take 4 l = up) then 1 else 0) + n_ups l' end.

Lemma n_ups_pos l : 0 ≤ n_ups l.
Proof. induction l as [|x l IH]; cbn [n_ups]; [done|]. case_bool_decide; lia. Qed.

Lemma n_ups_up r : n_ups (up ++ r) = 1 + n_ups (47 :: r).
Proof. unfold up. cbn [app n_ups take]. rewrite bool_decide_eq_true_2 by done. rewrite !(bool_decide_eq_false_2 (46 :: _ = _)) by done. lia. Qed.

(** Every [/../] is followed by as many bytes at least as there are of them, [j] more. *)
Definition followed (j : Z) (l : list Z) : Prop := ∀ a b, l = a ++ up ++ b → j + n_ups l ≤ len b.

Definition no_up_before (pre rest : list Z) : Prop := ∀ a b, pre ++ rest = a ++ up ++ b → (length pre ≤ length a)%nat.

Lemma no_up_before_cons (pre : list Z) (x : Z) (rest : list Z) : no_up_before pre (x :: rest) → take 4 (x :: rest) ≠ up → no_up_before (pre ++ [x]) rest.
Proof.
  intros H Hx a b E. rewrite <- app_assoc in E. cbn [app] in E. pose proof (H a b E) as Hl. rewrite length_app. cbn [length].
  destruct (decide (length a = length pre)) as [El|]; [|lia]. exfalso. apply Hx.
  assert (pre = a ∧ x :: rest = up ++ b) as [_ ->] by (apply app_inj_1; [done|exact E]). done.
Qed.

Lemma no_up_before_cut pre rest : no_up_before pre (up ++ rest) → no_up_before pre (47 :: rest).
Proof.
  intros H a b E. apply app_eq_inv in E as [(d & -> & E)|(d & -> & _)]; [|rewrite length_app; lia].
  assert (∀ d', a ++ d ++ up ++ rest = a ++ up ++ d' → (length d ≤ 0)%nat) as H'.
  { intros d' E'. specialize (H a d'). rewrite <- app_assoc, length_app in H. specialize (H E'). lia. }
  rewrite length_app. enough (length d ≤ 0)%nat by lia. unfold up in *. destruct d as [|d0 [|d1 [|d2 [|d3 d']]]]; [cbn; lia| | | |]; injection E; intros; subst; try done.
  - by apply (H' ([46; 46; 47] ++ rest)).
  - by apply (H' (d' ++ [47; 46; 46; 47] ++ rest)).
Qed.

(** A path whose last part is [..]. *)
Definition ends_up (p : list Z) : Prop := ∃ a, p = a ++ [47; 46; 46].

Lemma ends_up_cut pre rest : ends_up (pre ++ 47 :: rest) → ends_up (pre ++ up ++ rest).
Proof.
  intros [a E]. apply app_eq_inv in E as [(d & -> & E)|(d & -> & E)].
  - destruct d as [|d0 [|d1 [|d2 d]]]; try discriminate; injection E; intros; subst; try discriminate.
    + exists (a ++ [47; 46; 46]). by rewrite <- !app_assoc.
    + by destruct d.
  - exists (pre ++ [47; 46; 46] ++ d). unfold up. rewrite <- !app_assoc. cbn [app]. by rewrite E.
Qed.

(** What ends in [..] after a slash is the name [..] itself. *)
Lemma ends_up_name r n : 47 ∉ n → ends_up ((r ++ [47]) ++ n) → n = [46; 46].
Proof.
  intros Hn [a E]. rewrite <- app_assoc in E. cbn [app] in E. apply app_eq_inv in E as [(d & -> & E)|(d & -> & E)].
  - destruct d as [|d0 [|d1 [|d2 d]]]; injection E; intros; subst; try done. by destruct d.
  - destruct d as [|d0 d]; injection E; [done|]. intros E' _. exfalso. apply Hn. rewrite E', elem_of_app, elem_of_cons. auto.
Qed.

Lemma ends_up_slash r : ¬ ends_up (r ++ [47]).
Proof. intros [a E]. change [47; 46; 46] with ([47; 46] ++ [46]) in E. rewrite app_assoc in E. by apply app_inj_tail in E as [_ ?]. Qed.

Lemma strip_all_ends n pre rest j :
  (length rest < n)%nat → 0 ≤ j → ∃ p, strip_all n (pre ++ rest) (len pre) (len pre + len rest - j) = Done p ∧
    (no_up_before pre rest → followed j rest → up_free p) ∧ (rooted (pre ++ rest) → rooted p) ∧ (ends_up p → ends_up (pre ++ rest)).
Proof.
  revert pre rest j. induction n as [|n IH]; intros pre rest j Hn Hj; [lia|]. cbn [strip_all].
  destruct (Z.ltb_spec (len pre) (len pre + len rest - j)) as [Hlt|Hge].
  - destruct rest as [|x rest]; [cbn in Hlt; lia|]. rewrite index_app_mid. cbn [exec_bind].
    rewrite up_at_is by (rewrite ?length_app; lia). rewrite sub_here by lia. change (Z.to_nat 4) with 4%nat.
    assert ((if x =? 47 then Done ((len pre <? len pre + len (x :: rest) - j - 4) && bool_decide (take 4 (x :: rest) = up)) else Done false) =
      Done ((len pre <? len pre + len (x :: rest) - j - 4) && bool_decide (take 4 (x :: rest) = up))) as ->.
    { destruct (Z.eqb_spec x 47) as [->|Hx]; [done|]. rewrite bool_decide_eq_false_2; [by rewrite andb_false_r|]. unfold up. cbn. congruence. }
    cbn [exec_bind]. destruct (Z.ltb_spec (len pre) (len pre + len (x :: rest) - j - 4)) as [Hl4|Hg4]; cbn [andb]; [case_bool_decide as Hup|].
    + assert (∃ r2, x :: rest = up ++ r2) as [r2 Er2] by (exists (drop 4 (x :: rest)); by rewrite <- Hup, take_drop).
      rewrite Er2 in *. rewrite cut_up_here. cbn [exec_bind].
      replace (len pre + len (up ++ r2) - j - 4) with (len pre + len (47 :: r2) - (j + 1)) by (rewrite length_app; cbn [length up]; lia).
      destruct (IH pre (47 :: r2) (j + 1)) as (p & -> & H1 & H2 & H3); [rewrite length_app in Hn; cbn [length up] in Hn |- *; lia|lia|]. exists p. split; [done|].
      split; [|split; [|intros Hp; by apply ends_up_cut, H3]; intros Hr; apply H2; destruct pre; [by eexists|]; destruct Hr as [q [=]]; subst; by eexists].
      intros Hb Hf. apply H1; [by apply no_up_before_cut|]. intros a b Eab.
      specialize (Hf ([47; 46; 46] ++ a) b). rewrite n_ups_up in Hf. rewrite <- !app_assoc, <- Eab in Hf. specialize (Hf eq_refl). lia.
    + destruct (IH (pre ++ [x]) rest j) as (p & E & H1 & H2); [cbn in Hn; lia|done|].
      rewrite <- app_assoc in E, H2. rewrite length_app in E. cbn [app length] in E, H2.
      replace (len pre + 1) with (Z.of_nat (length pre + 1)) by lia. replace (len pre + len (x :: rest) - j) with (Z.of_nat (length pre + 1) + len rest - j) by (rewrite length_cons; lia).
      exists p. split; [done|]. split; [|done]. intros Hb Hf. apply H1; [by apply no_up_before_cons|]. intros a b Eab.
      specialize (Hf (x :: a) b). cbn [n_ups] in Hf. rewrite bool_decide_eq_false_2 in Hf by done. rewrite Eab in Hf |- *. specialize (Hf eq_refl). lia.
    + destruct (IH (pre ++ [x]) rest j) as (p & E & H1 & H2); [cbn in Hn; lia|done|].
      rewrite <- app_assoc in E, H2. rewrite length_app in E. cbn [app length] in E, H2.
      replace (len pre + 1) with (Z.of_nat (length pre + 1)) by lia. replace (len pre + len (x :: rest) - j) with (Z.of_nat (length pre + 1) + len rest - j) by (rewrite length_cons; lia).
      exists p. split; [done|]. split; [|done]. intros Hb Hf.
      assert (take 4 (x :: rest) ≠ up) as Hup.
      { intros Hup. specialize (Hf [] (drop 4 (x :: rest))). rewrite app_nil_l, <- Hup, take_drop in Hf. specialize (Hf eq_refl).
        cbn [n_ups] in Hf. rewrite bool_decide_eq_true_2 in Hf by done. pose proof (n_ups_pos rest). rewrite length_drop in Hf. lia. }
      apply H1; [by apply no_up_before_cons|]. intros a b Eab.
      specialize (Hf (x :: a) b). cbn [n_ups] in Hf. rewrite bool_decide_eq_false_2 in Hf by done. rewrite Eab in Hf |- *. specialize (Hf eq_refl). lia.
  - exists (pre ++ rest). split; [done|]. split; [|done]. intros Hb Hf a b Eab. pose proof (Hb a b Eab) as Hla.
    assert (∃ a', rest = a' ++ up ++ b) as [a' Er].
    { exists (drop (length pre) a). assert (drop (length pre) (pre ++ rest) = drop (length pre) a ++ up ++ b) as E by by rewrite Eab, drop_app_le.
      by rewrite drop_app_length in E. }
    specialize (Hf a' b Er). rewrite Er in Hf, Hge. rewrite !length_app in Hge. pose proof (n_ups_pos (a' ++ up ++ b)). cbn [length up] in Hge. lia.
Qed.

(** Stripping ends for every path; a path in which each [/../] is followed by as many bytes
    at least as there are of them has none left. *)
Lemma strip_ups_spec path :
  ∃ p, strip_ups path = Done p ∧ (followed 0 path → up_free p) ∧ (rooted path → rooted p) ∧ (ends_up p → ends_up path).
Proof.
  destruct (strip_all_ends (S (length path)) [] path 0) as (p & E & H1 & H2); [lia|done|]. exists p. unfold strip_ups.
  cbn [length app] in E. replace (Z.of_nat 0 + len path - 0) with (len path) in E by lia. split; [exact E|]. split; [|done]. intros Hf. apply H1; [|done].
  intros a b _. cbn. lia.
Qed.

(** ** Deciding both *)

Lemma n_ups_free l : n_ups l = 0 → up_free l.
Proof.
  induction l as [|x l IH]; [by intros _ [|? ?] ? E|]. cbn [n_ups]. pose proof (n_ups_pos l). case_bool_decide as Hx; [lia|]. intros Hn a b E.
  destruct a as [|y a]; [by rewrite E in Hx|]. injection E as _ E. by apply (IH ltac:(lia) a b).
Qed.

Fixpoint followedb (k : Z) (l : list Z) : bool :=
  match l with [] => true | _ :: l' => (negb (bool_decide (take 4 l = up)) || (k <=? len l - 4)) && followedb k l' end.

Lemma followedb_spec j l : followedb (j + n_ups l) l = true → followed j l.
Proof.
  intros H a b E. revert H. generalize (j + n_ups l) as k. intros k. revert l E. induction a as [|y a IH]; intros l ->.
  - cbn [app up followedb]. intros [H _]%andb_true_iff. rewrite bool_decide_eq_true_2 in H by done. cbn [negb orb] in H. apply Z.leb_le in H. cbn [length] in H. lia.
  - cbn [app followedb]. intros [_ H]%andb_true_iff. by apply (IH (a ++ up ++ b)).
Qed.
