(* ===== verification/Streams.v ===== *)
(** Streams of bytes under the server: the reader over an open file
    (src/fs/multifilesys.go: [contextreader]), the copying loops of src/iorw/adhoc.go, and
    what they use of Go's io, bufio and os packages.

    A file system hands out an open file behind a [contextreader]; the server reads it
    through [io.LimitReader] and copies it to a connection.  Readers that can seek are the
    interface [SeekSource]: it is proved for an open file and for a [contextreader] over
    any of its instances, and the server's theorems use only its laws. *)

From S2P Require Import Prelude Runes Readers Buffer BuffReader.

(** [Seek(offset, whence)]; [Close()]; whether a value implements [io.Closer] and
    [io.Seeker] is known to the one that builds a reader over it. *)
Class Seeker (R : Type) := seek : R → Z → Z → exec (Z * option goerr * R).
Class Closer (R : Type) := close : R → R.

(** ** os.File, opened for reading *)

Record osfile := MkOsFile { f_data : list Z; f_pos : Z; f_closed : bool }.

Definition ErrClosed : goerr := OtherErr 200.
Definition EINVAL : goerr := OtherErr 22.

Definition os_Open (data : list Z) : osfile := MkOsFile data 0 false.

#[export] Instance osfile_Read : ByteReader osfile := λ f n,
  if f_closed f then Done ([], Some ErrClosed, f)
  else if n =? 0 then Done ([], None, f)
  else
    let rest := drop (Z.to_nat (f_pos f)) (f_data f) in
    if len rest =? 0 then Done ([], Some EOF, f)
    else Done (take (Z.to_nat n) rest, None, MkOsFile (f_data f) (f_pos f + Z.min n (len rest)) false).

#[export] Instance osfile_Seek : Seeker osfile := λ f offset whence,
  if f_closed f then Done (0, Some ErrClosed, f)
  else
    let to := (if whence =? 0 then 0 else if whence =? 1 then f_pos f else len (f_data f)) + offset in
    if (0 <=? to) && (0 <=? whence) && (whence <=? 2) then Done (to, None, MkOsFile (f_data f) to false)
    else Done (0, Some EINVAL, f).

#[export] Instance osfile_Close : Closer osfile := λ f, MkOsFile (f_data f) (f_pos f) true.

(** ** bufio.Reader.Read over any reader

    The bytes buffered, or one read of the source, which goes to [p] itself when [p] is as
    large as the buffer. *)
Definition bufreader_Read {S} `{!ByteReader S} (cap : Z) (b : bufio) (s : S) (n : Z)
  : exec (list Z * option goerr * bufio * S) :=
  if n =? 0 then Done ([], if 0 <? len (bb_buf b) then None else bb_err b, if 0 <? len (bb_buf b) then b else Bufio [] None, s)
  else if 0 <? len (bb_buf b) then
    Done (take (Z.to_nat n) (bb_buf b), None, Bufio (drop (Z.to_nat n) (bb_buf b)) (bb_err b), s)
  else
    match bb_err b with
    | Some e => Done ([], Some e, Bufio [] None, s)
    | None =>
      if cap <=? n then
        let* '(bs, err, s') := read_bytes s n in Done (bs, err, Bufio [] None, s')
      else
        let* '(bs, err, s') := read_bytes s cap in
        if len bs =? 0 then Done ([], err, Bufio [] None, s')
        else Done (take (Z.to_nat n) bs, None, Bufio (drop (Z.to_nat n) bs) err, s')
    end.

(** ** contextreader *)

Section contextreader.
Context {R : Type} `{!ByteReader R} `{!Seeker R} `{!Closer R}.

(** [funcrd]: reading stops when the context is done; [context.Canceled] is told as the
    end. *)
Record funcrd := MkFuncrd { fr_rdr : R; fr_ctx : context }.

#[global] Instance funcrd_Read : ByteReader funcrd := λ f n,
  match fr_ctx f with
  | Canceled => Done ([], Some EOF, f)
  | Expired code => Done ([], Some (OtherErr code), f)
  | _ => let* '(bs, err, r) := read_bytes (fr_rdr f) n in Done (bs, err, MkFuncrd r (fr_ctx f))
  end.

(** What the bufio.Reader of a [contextreader] reads from: the function it had when the
    first rune was read, or, once [Seek] has reset it, the [contextreader] itself. *)
Inductive target := Func | Self.

Record contextreader := MkContextReader {
  c_func : funcrd;
  c_open : bool;
  c_cls : bool;
  c_sk : bool;
  c_bfrdr : option (bufio * target) }.

Definition set_func (c : contextreader) (f : funcrd) : contextreader := MkContextReader f (c_open c) (c_cls c) (c_sk c) (c_bfrdr c).
Definition set_bfrdr (c : contextreader) (b : option (bufio * target)) : contextreader :=
  MkContextReader (c_func c) (c_open c) (c_cls c) (c_sk c) b.

(** [ContextReader(rdr, ctx)] of a reader that can be closed and can seek, or not. *)
Definition ContextReader (rdr : R) (cx : context) (cls sk : bool) : contextreader :=
  MkContextReader (MkFuncrd rdr cx) true cls sk None.

(** [Read]: a bufio.Reader that was reset to the [contextreader] asks it again, which asks
    the bufio.Reader, that is empty. *)
Fixpoint cx_Read (fuel : nat) (c : contextreader) (n : Z) : exec (list Z * option goerr * contextreader) :=
  match fuel with
  | O => NoFuel
  | Datatypes.S fuel' =>
    match c_bfrdr c with
    | Some (b, t) =>
      let* '(bs, err, b', c') :=
        match t with
        | Func => let* '(bs, err, b', f) := bufreader_Read 4096 b (c_func c) n in Done (bs, err, b', set_func c f)
        | Self => bufreader_Read (ByteReader0 := cx_Read fuel') 4096 b c n
        end in
      Done (bs, err, set_bfrdr c' (if bool_decide (err ≠ None) || (len bs =? 0) then None else Some (b', t)))
    | None =>
      if c_open c then
        let* '(bs, err, f) := read_bytes (c_func c) n in Done (bs, err, set_func c f)
      else Done ([], Some EOF, c)
    end
  end.

Definition cx_ReadRune (fuel : nat) (c : contextreader) : exec (Z * Z * option goerr * contextreader) :=
  match c_bfrdr c with
  | Some (b, Func) =>
    let* '(r, n, err, b', f) := bufio_ReadRune 4096 b (c_func c) in Done (r, n, err, set_bfrdr (set_func c f) (Some (b', Func)))
  | Some (b, Self) =>
    let* '(r, n, err, b', c') := bufio_ReadRune (ByteReader0 := cx_Read fuel) 4096 b c in Done (r, n, err, set_bfrdr c' (Some (b', Self)))
  | None =>
    if c_open c then
      let* '(r, n, err, b', f) := bufio_ReadRune 4096 bufio_new (c_func c) in Done (r, n, err, set_bfrdr (set_func c f) (Some (b', Func)))
    else Done (0, 0, None, c)
  end.

(** [Seek]: [bfrdr.Reset(ctxrdr)]. *)
Definition cx_Seek (c : contextreader) (offset whence : Z) : exec (Z * option goerr * contextreader) :=
  if c_sk c then
    let* '(n, err, r) := seek (fr_rdr (c_func c)) offset whence in
    let c' := set_func c (MkFuncrd r (fr_ctx (c_func c))) in
    Done (n, err, match err, c_bfrdr c with
                  | None, Some _ => set_bfrdr c' (Some (bufio_new, Self))
                  | _, _ => c'
                  end)
  else Done (0, None, c).

Definition cx_Close (c : contextreader) : contextreader :=
  MkContextReader (if c_cls c then MkFuncrd (close (fr_rdr (c_func c))) (fr_ctx (c_func c)) else c_func c) false false false (c_bfrdr c).
End contextreader.

Arguments funcrd R : clear implicits.
Arguments contextreader R : clear implicits.

(** One call is enough where no bufio.Reader reads from its own [contextreader]. *)
#[export] Instance contextreader_Read {R} `{!ByteReader R} : ByteReader (contextreader R) := cx_Read 1.
#[export] Instance contextreader_ReadRune {R} `{!ByteReader R} : RuneReader (contextreader R) := cx_ReadRune 1.
#[export] Instance contextreader_Seek {R} `{!Seeker R} : Seeker (contextreader R) := cx_Seek.
#[export] Instance contextreader_Close {R} `{!Closer R} : Closer (contextreader R) := cx_Close.

(** ** io.LimitReader *)

Record limited (R : Type) := MkLimited { l_R : R; l_N : Z }.
Arguments MkLimited {R} l_R l_N.
Arguments l_R {R} l.
Arguments l_N {R} l.

#[export] Instance limited_Read {R} `{!ByteReader R} : ByteReader (limited R) := λ l n,
  if l_N l <=? 0 then Done ([], Some EOF, l)
  else
    let* '(bs, err, r) := read_bytes (l_R l) (if l_N l <? n then l_N l else n) in
    Done (bs, err, MkLimited r (l_N l - len bs)).

(** ** io.Copy and ReadWriteToFunc *)

Definition errInvalidWrite : goerr := OtherErr 201.
Definition ErrShortWrite : goerr := OtherErr 202.

Section copy.
Context {R W : Type} `{!ByteReader R} `{!ByteWriter W}.

(** The loop of [io.Copy] with its buffer of 32 KB: the error of the writer before that
    of the reader, the end told as no error.  [None] is a panic of the reader or the
    writer, with what both were before that call. *)
Fixpoint Copy (fuel : nat) (w : W) (r : R) (written : Z) : exec (option (Z * option goerr) * W * R) :=
  match fuel with
  | O => NoFuel
  | Datatypes.S fuel' =>
    match read_bytes r 32768 with
    | NoFuel => NoFuel
    | Panic => Done (None, w, r)
    | Done (bs, er, r') =>
      let rest := match er with Some EOF => None | _ => er end in
      if 0 <? len bs then
        match write_to w bs with
        | NoFuel => NoFuel
        | Panic => Done (None, w, r')
        | Done (nw, ew, w') =>
          let bad := (nw <? 0) || (len bs <? nw) in
          let nw := if bad then 0 else nw in
          let ew := match ew with None => if bad then Some errInvalidWrite else None | _ => ew end in
          match ew with
          | Some e => Done (Some (written + nw, Some e), w', r')
          | None =>
            if nw =? len bs then
              match er with Some _ => Done (Some (written + nw, rest), w', r') | None => Copy fuel' w' r' (written + nw) end
            else Done (Some (written + nw, Some ErrShortWrite), w', r')
          end
        end
      else match er with Some _ => Done (Some (written, rest), w, r') | None => Copy fuel' w r' written end
    end
  end.

(** [ReadWriteToFunc(funcw, funcr)] without a buffer size, for the reading of [r] and the
    writing to [w]; [ReadToFunc] and [WriteToFunc] are this with one of them a method.  A
    panic is recovered into an error, and what was copied until then is not counted. *)
Definition ReadWriteToFunc (fuel : nat) (w : W) (r : R) : exec (Z * option goerr * W * R) :=
  let* '(res, w', r') := Copy fuel w r 0 in
  Done (match res with Some (n, err) => (n, err, w', r') | None => (0, Some (OtherErr 203), w', r') end).
End copy.

(** * Theory *)

(** Where a Seek goes: an offset from the start, from the position or from the end, beyond
    the end too; nowhere for what is before the start and for another [whence]. *)
Definition seek_to (c : list Z) (k offset whence : Z) : option Z :=
  let to := (if whence =? 0 then 0 else if whence =? 1 then k else len c) + offset in
  if (0 <=? to) && (0 <=? whence) && (whence <=? 2) then Some to else None.

(** A reader with a content and a position: reading goes on from the position, and seeking
    moves it, or fails and leaves it. *)
Class SeekSource (R : Type) `{!ByteReader R} `{!Seeker R} := {
  reads_at : R → list Z → Z → Prop;
  reads_at_pos r c k : reads_at r c k → 0 ≤ k;
  reads_at_piece r c k n : reads_at r c k → k < len c → 0 < n →
    ∃ m r', read_bytes r n = Done (take m (drop (Z.to_nat k) c), None, r') ∧ (0 < m)%nat ∧ Z.of_nat m ≤ n ∧
            k + Z.of_nat m ≤ len c ∧ reads_at r' c (k + Z.of_nat m);
  reads_at_end r c k n : reads_at r c k → len c ≤ k → 0 < n →
    ∃ r', read_bytes r n = Done ([], Some EOF, r') ∧ reads_at r' c k;
  seek_moves r c k o w : reads_at r c k → ∃ n e r', seek r o w = Done (n, e, r') ∧
    match seek_to c k o w with
    | Some to => n = to ∧ e = None ∧ reads_at r' c to
    | None => e ≠ None ∧ reads_at r' c k
    end }.

Lemma seek_start {R} `{SeekSource R} (r : R) c k o : reads_at r c k → 0 ≤ o → ∃ r', seek r o 0 = Done (o, None, r') ∧ reads_at r' c o.
Proof.
  intros Hr Ho. destruct (seek_moves r c k o 0 Hr) as (n & e & r' & -> & Hm). unfold seek_to in Hm. cbn [Z.eqb] in Hm.
  rewrite Z.add_0_l, (proj2 (Z.leb_le 0 o) Ho) in Hm. cbn in Hm. destruct Hm as (-> & -> & ?). eauto.
Qed.

(** What a reader with a position has left to deliver. *)
#[export] Instance SeekSource_source {R} `{SeekSource R} : ByteSource R.
Proof.
  refine {| bpending r bs := ∃ c k, reads_at r c k ∧ bs = drop (Z.to_nat k) c |}.
  - intros r bs n (c & k & Hr & ->) Hne Hn. pose proof (reads_at_pos _ _ _ Hr).
    destruct (Z.lt_ge_cases k (len c)) as [Hk|Hk]; [|by rewrite drop_ge in Hne by lia].
    destruct (reads_at_piece r c k n Hr Hk Hn) as (m & r' & -> & Hm & Hmn & Hl & Hr').
    exists m, r'. rewrite length_drop. split_and!; [done|done|done|lia|].
    exists c, (k + Z.of_nat m). split; [done|]. rewrite drop_drop. f_equal. lia.
  - intros r n (c & k & Hr & E) Hn. pose proof (reads_at_pos _ _ _ Hr).
    assert (len c ≤ k) as Hk. { assert (length (drop (Z.to_nat k) c) = 0%nat) as Hl by by rewrite <- E. rewrite length_drop in Hl. lia. }
    destruct (reads_at_end r c k n Hr Hk Hn) as (r' & -> & Hr'). eexists; split; [done|]. by exists c, k.
Defined.

Lemma take_min {A} n (l : list A) : take (Nat.min n (length l)) l = take n l.
Proof. destruct (Nat.min_spec n (length l)) as [[? ->]|[? ->]]; [done|]. by rewrite !take_ge by lia. Qed.

#[export] Instance osfile_source : SeekSource osfile.
Proof.
  refine {| reads_at f c k := f = MkOsFile c k false ∧ 0 ≤ k |}.
  - by intros ??? [].
  - intros f c k n [-> Hk] Hl Hn. unfold read_bytes, osfile_Read. cbn [f_closed f_pos f_data]. zsimp.
    set (d := drop (Z.to_nat k) c). assert (0 < len d) by (unfold d; rewrite length_drop; lia). zsimp.
    exists (Nat.min (Z.to_nat n) (length d)). rewrite take_min. eexists; split; [done|].
    assert (k + len d = len c) by (unfold d; rewrite length_drop; lia).
    split_and!; [lia|lia|lia|f_equal; lia|lia].
  - intros f c k n [-> Hk] Hl Hn. unfold read_bytes, osfile_Read. cbn [f_closed f_pos f_data]. zsimp.
    rewrite drop_ge by lia. cbn [length]. eauto.
  - intros f c k o w [-> Hk]. unfold seek, osfile_Seek, seek_to. cbn [f_closed f_pos f_data]. cbv zeta.
    match goal with |- context [if ?b then _ else _] => destruct b eqn:Eb end; eexists _, _, _; (split; [done|]); [|done].
    split_and!; [done..|lia].
Defined.

(** A [contextreader] whose context is not done, that is open and that was read by no
    rune yet, is its reader. *)
#[export] Instance contextreader_source {R} `{SeekSource R} : SeekSource (contextreader R).
Proof.
  refine {| reads_at x c k := reads_at (fr_rdr (c_func x)) c k ∧ (fr_ctx (c_func x) = NoContext ∨ fr_ctx (c_func x) = Live) ∧
      c_open x = true ∧ c_sk x = true ∧ c_bfrdr x = None |}.
  - intros x c k (Hr & _). by eapply reads_at_pos.
  - intros [[r cx] op cl sk bf] c k n (Hr & Hx & Ho & Hs & Hb) Hl Hn. cbn in *. subst.
    destruct (reads_at_piece r c k n Hr Hl Hn) as (m & r' & E & Hm & Hmn & Hc & Hr').
    eexists m, (MkContextReader (MkFuncrd r' cx) true cl true None). unfold read_bytes at 1, contextreader_Read. cbn. unfold funcrd_Read. cbn. split_and!; [|lia|lia|lia|done..].
    destruct Hx as [->| ->]; by rewrite E.
  - intros [[r cx] op cl sk bf] c k n (Hr & Hx & Ho & Hs & Hb) Hl Hn. cbn in *. subst.
    destruct (reads_at_end r c k n Hr Hl Hn) as (r' & E & Hr').
    eexists (MkContextReader (MkFuncrd r' cx) true cl true None). unfold read_bytes at 1, contextreader_Read. cbn. unfold funcrd_Read. cbn. split_and!; [|done..].
    destruct Hx as [->| ->]; by rewrite E.
  - intros [[r cx] op cl sk bf] c k o w (Hr & Hx & Hop & Hs & Hb). cbn in *. subst.
    destruct (seek_moves r c k o w Hr) as (n & e & r' & E & Hm). unfold seek at 1, contextreader_Seek, cx_Seek. cbn. rewrite E. cbn.
    eexists _, _, _. split; [done|]. destruct (seek_to c k o w); [destruct Hm as (? & -> & ?); split_and!; done|].
    destruct Hm as [He Hr']. destruct e; [split_and!; done|done].
Defined.

(** [io.LimitReader] delivers the first [N] bytes. *)
#[export] Instance limited_source {R} `{ByteSource R} : ByteSource (limited R).
Proof.
  refine {| bpending l bs := ∃ rest, bpending (l_R l) rest ∧ bs = take (Z.to_nat (l_N l)) rest |}.
  - intros [r N] bs n (rest & Hr & ->) Hne Hn. cbn [l_R l_N] in *. unfold read_bytes, limited_Read. cbn [l_R l_N].
    assert (0 < N). { destruct (Z.lt_ge_cases 0 N); [done|]. by replace (Z.to_nat N) with 0%nat in Hne by lia. } zsimp.
    assert (rest ≠ []) by (intros ->; by rewrite take_nil in Hne).
    destruct (bpending_cons r rest (if N <? n then N else n) Hr) as (k & r' & -> & Hk & Hkn & Hl & Hr'); [done|destruct (N <? n); lia|].
    cbn [exec_bind]. assert (Z.of_nat k ≤ N ∧ Z.of_nat k ≤ n) as [HkN Hkn'] by (destruct (Z.ltb_spec N n); lia).
    eexists k, _. split_and!; [|done|done|rewrite length_take; lia|].
    + rewrite take_take. by replace (Nat.min k (Z.to_nat N)) with k by lia.
    + exists (drop k rest). cbn [l_R l_N]. split; [done|]. rewrite skipn_firstn_comm. f_equal. rewrite length_take. lia.
  - intros [r N] n (rest & Hr & E) Hn. cbn [l_R l_N] in *. unfold read_bytes, limited_Read. cbn [l_R l_N].
    destruct (Z.leb_spec N 0) as [HN|HN].
    + eexists; split; [done|]. exists rest. cbn. by replace (Z.to_nat N) with 0%nat by lia.
    + assert (rest = []) as -> by (destruct rest; [done|]; destruct (Z.to_nat N) eqn:?; [lia|done]).
      destruct (bpending_nil r (if N <? n then N else n) Hr) as (r' & -> & Hr'); [destruct (N <? n); lia|]. cbn [exec_bind].
      eexists; split; [done|]. exists []. cbn [l_R l_N]. by rewrite take_nil.
Defined.

(** Copying a source to a writer that takes all of it. *)
Section copy_spec.
Context {R W : Type} `{ByteSource R} `{!ByteWriter W} `{!ByteSink W}.
Hypothesis counts : ∀ l, count (W := W) l = len l.

Lemma Copy_spec fuel w r bs n :
  bpending r bs → takes w bs → (length bs < fuel)%nat →
  ∃ w' r', Copy fuel w r n = Done (Some (n + len bs, None), w', r') ∧ written w bs w' ∧ takes w' [] ∧ bpending r' [].
Proof.
  revert w r bs n. induction fuel as [|fuel IH]; intros w r bs n Hr Hw Hf; [lia|]. cbn [Copy].
  destruct (decide (bs = [])) as [->|Hne].
  - destruct (bpending_nil r 32768 Hr) as (r' & -> & Hr'); [lia|]. cbn [length]. change (0 <? len []) with false. cbv iota.
    rewrite Z.add_0_r. eexists _, _. split_and!; [done|by eapply written_refl|done|done].
  - destruct (bpending_cons r bs 32768 Hr Hne) as (k & r' & -> & Hk & Hkn & Hl & Hr'); [lia|].
    set (p := take k bs). set (q := drop k bs) in *. assert (bs = p ++ q) as E by (unfold p, q; by rewrite take_drop).
    assert (length p = k) as Hp by (unfold p; rewrite length_take; lia). rewrite E in Hw. zsimp.
    destruct (write_to_sink w p q Hw) as (w1 & -> & Hw1 & Hww). rewrite counts. cbv zeta. zsimp.
    destruct (IH w1 r' q (n + len p) Hr' Hw1) as (w2 & r2 & -> & Hw2 & Ht & Hr2).
    { unfold q. rewrite length_drop. lia. }
    eexists _, _. split_and!; [|rewrite E; by eapply written_trans|done|done]. replace (n + len bs) with (n + len p + len q); [by rewrite Z.eqb_refl|]. rewrite E, length_app. lia.
Qed.

Lemma ReadWriteToFunc_spec fuel w r bs :
  bpending r bs → takes w bs → (length bs < fuel)%nat →
  ∃ w' r', ReadWriteToFunc fuel w r = Done (len bs, None, w', r') ∧ written w bs w' ∧ takes w' [] ∧ bpending r' [].
Proof.
  intros Hr Hw Hf. unfold ReadWriteToFunc. destruct (Copy_spec fuel w r bs 0 Hr Hw Hf) as (w' & r' & -> & ?). cbn [exec_bind]. eauto.
Qed.
End copy_spec.

(** Reading from a bufio.Reader that was reset to its own [contextreader] asks for itself
    again and again. *)
Lemma self_read {R} `{!ByteReader R} fuel (c : contextreader R) n :
  c_bfrdr c = Some (bufio_new, Self) → 0 < n → cx_Read fuel c n = NoFuel.
Proof.
  intros Hb. revert n. induction fuel as [|fuel IH]; intros n Hn; [done|]. cbn [cx_Read]. rewrite Hb.
  unfold bufreader_Read. zsimp. cbn [bb_buf bufio_new bb_err length]. change (0 <? len []) with false. cbv iota.
  unfold read_bytes. rewrite !IH by lia. by destruct (4096 <=? n).
Qed.

Lemma stuck_fill {S} `{!ByteReader S} tries cap b (s : S) :
  len (bb_buf b) < cap → (∀ n, 0 < n → read_bytes s n = NoFuel) → bufio_fill (Datatypes.S tries) cap b s = NoFuel.
Proof. intros Hl H. cbn [bufio_fill]. by rewrite H by lia. Qed.

Lemma stuck_fill_rune {S} `{!ByteReader S} fuel cap b (s : S) :
  needs_fill cap b = true → (∀ n, 0 < n → read_bytes s n = NoFuel) → bufio_fill_rune fuel cap b s = NoFuel.
Proof.
  intros Hb H. destruct fuel; [done|]. cbn [bufio_fill_rune]. rewrite Hb. unfold needs_fill in Hb.
  apply andb_true_iff in Hb as [_ Hl]. by rewrite (stuck_fill 99) by (done || lia).
Qed.

Lemma stuck_ReadRune {S} `{!ByteReader S} (s : S) : (∀ n, 0 < n → read_bytes s n = NoFuel) → bufio_ReadRune 4096 bufio_new s = NoFuel.
Proof. intros H. unfold bufio_ReadRune. by rewrite stuck_fill_rune. Qed.

(** C13: once a rune was read from the reader of an open file, a Seek that succeeds makes
    every later read, of bytes or of a rune, call itself without end: no depth of calls is
    enough, whatever the file. *)
Theorem Seek_after_ReadRune_hangs {R} `{!ByteReader R} `{!Seeker R} (c c' : contextreader R) rn size e c1 n offset whence fuel m :
  c_sk c = true → c_open c = true → c_bfrdr c = None → cx_ReadRune 1 c = Done (rn, size, e, c1) →
  cx_Seek c1 offset whence = Done (n, None, c') → 0 < m →
  cx_Read fuel c' m = NoFuel ∧ cx_ReadRune fuel c' = NoFuel.
Proof.
  intros Hs Ho Hb Hr Hk Hm.
  assert (c_sk c1 = true ∧ is_Some (c_bfrdr c1)) as [Hs1 [bf Hb1]].
  { unfold cx_ReadRune in Hr. rewrite Hb, Ho in Hr. destruct (bufio_ReadRune _ _ _) as [[[[[??]?]?]?]| |]; cbn in Hr; [|done..].
    simplify_eq/=. eauto. }
  assert (c_bfrdr c' = Some (bufio_new, Self)) as Hb'.
  { unfold cx_Seek in Hk. rewrite Hs1, Hb1 in Hk. destruct (seek _ _ _) as [[[? []] ?]| |]; cbn in Hk; [done| |done..]. by simplify_eq/=. }
  split; [by apply self_read|]. unfold cx_ReadRune. rewrite Hb'.
  rewrite (stuck_ReadRune (ByteReader0 := cx_Read fuel)); [done|]. intros k Hk'. by apply self_read.
Qed.

Lemma Seek_after_ReadRune_hangs_witness :
  let c := ContextReader (os_Open [104; 105]) Live true true in
  ∃ c1 c', cx_ReadRune 1 c = Done (104, 1, None, c1) ∧ cx_Seek c1 0 0 = Done (0, None, c') ∧
    cx_Read 1000 c' 1 = NoFuel ∧ cx_ReadRune 1000 c' = NoFuel.
Proof.
  eexists _, _. split; [vm_compute; reflexivity|]. split; [vm_compute; reflexivity|].
  eapply (Seek_after_ReadRune_hangs (ContextReader (os_Open [104; 105]) Live true true)) with (offset := 0) (whence := 0);
    [reflexivity..|vm_compute; reflexivity|vm_compute; reflexivity|lia].
Defined.
