(* ===== verification/Opened.v ===== *)
(** src/fs/filesys.go: [file], an opened file of a file system.

    A file is read through a bufio.Reader over the reader of its [FileInfo], or, when it is
    a cached one, from that reader itself; the reader is made with the first read.  At most
    [mxread] bytes are read, when that is not negative.  What the reader is made with is an
    argument of [Read]: whether it fails, and the reader, nil when there is none.  [Readdir],
    which lists a directory of the operating system, is left out. *)

From S2P Require Import Prelude Runes Readers Buffer BuffReader Streams.

Section file.
Context {R : Type} `{!ByteReader R} `{!Seeker R} `{!Closer R}.

(** [f_info]: a closed file has no [FileInfo].  [f_err] is what the context of the file says
    when it is done. *)
Record file := MkOpened {
  f_err : option goerr;
  f_info : bool;
  f_chd : bool;
  f_bfr : option bufio;
  f_r : option R;
  f_mxread : Z }.

(** As [OpenContext] makes it. *)
Definition NewFile (err : option goerr) (chd : bool) : file := MkOpened err true chd None None (-1).

Definition with_r (f : file) (b : option bufio) (r : option R) (mx : Z) : file := MkOpened (f_err f) (f_info f) (f_chd f) b r mx.

Definition Close (o : option file) : option file :=
  match o with
  | None => None
  | Some f => Some (MkOpened (f_err f) false (f_chd f) None None (f_mxread f))
  end.

Definition SetMaxRead (o : option file) (maxread : Z) : option file :=
  match o with
  | None => None
  | Some f => Some (with_r f (f_bfr f) (f_r f) maxread)
  end.

(** What is left of [mxread] after [n] bytes were read. *)
Definition less_read (mx n : Z) (err : option goerr) : Z := if (0 <? n) && bool_decide (err = None) && (0 <? mx) then mx - n else mx.

(** [f.r], made when there is none: an error of the context, or the reader.  A nil reader
    fails the assertion that it is an [io.ReadSeekCloser]. *)
Definition reader_of (open : exec (option R)) (f : file) : exec (goerr + R) :=
  match f_r f with
  | Some r => Done (inr r)
  | None =>
    match f_err f with
    | Some e => Done (inl e)
    | None =>
      if f_info f then let* r := open in match r with Some r => Done (inr r) | None => Panic end
      else Panic
    end
  end.

Definition Read (open : exec (option R)) (o : option file) (n : Z) : exec (list Z * option goerr * option file) :=
  match o with
  | None => Done ([], Some EOF, None)
  | Some f =>
    if f_mxread f =? 0 then Done ([], Some EOF, o)
    else
      let* r := reader_of open f in
      match r with
      | inl e => Done ([], Some e, o)
      | inr r =>
        let pl := if (-1 <? f_mxread f) && (f_mxread f <? n) then f_mxread f else n in
        if f_chd f then
          let* '(bs, err, r) := read_bytes r pl in
          Done (bs, err, Some (with_r f (f_bfr f) (Some r) (less_read (f_mxread f) (len bs) err)))
        else
          let* '(bs, err, b, r) := bufreader_Read 65787 (default bufio_new (f_bfr f)) r pl in
          Done (bs, if (len bs =? 0) && bool_decide (err = None) then Some EOF else err,
            Some (with_r f (Some b) (Some r) (less_read (f_mxread f) (len bs) err)))
      end
  end.

(** [Seek]: nothing before the first read; the bufio.Reader starts again, and the limit is
    gone. *)
Definition Seek (o : option file) (offset whence : Z) : exec (Z * option goerr * option file) :=
  match o with
  | None => Done (0, None, None)
  | Some f =>
    match f_r f with
    | None => Done (0, None, o)
    | Some r =>
      let* '(n, err, r) := seek r offset whence in
      Done (n, err, Some (match err with
                          | None => with_r f (match f_bfr f with Some _ => Some bufio_new | None => None end) (Some r) (-1)
                          | Some _ => with_r f (f_bfr f) (Some r) (f_mxread f)
                          end))
    end
  end.

(** What closing does to the reader. *)
Definition Close_reader (o : option file) : option R :=
  match o with
  | Some f => close <$> f_r f
  | None => None
  end.

(** *** A file, used: what each operation answers *)

Inductive fileop := ORead (n : Z) | OSeek (offset whence : Z) | OSetMax (maxread : Z).
Inductive answer := ABytes (bs : list Z) (err : option goerr) | AAt (n : Z) (err : option goerr) | ANone.

Definition run_op (open : exec (option R)) (op : fileop) (o : option file) : exec (answer * option file) :=
  match op with
  | ORead n => let* '(bs, err, o) := Read open o n in Done (ABytes bs err, o)
  | OSeek offset whence => let* '(n, err, o) := Seek o offset whence in Done (AAt n err, o)
  | OSetMax m => Done (ANone, SetMaxRead o m)
  end.

Fixpoint run_ops (open : exec (option R)) (ops : list fileop) (o : option file) : exec (list answer * option file) :=
  match ops with
  | [] => Done ([], o)
  | op :: ops' =>
    let* '(a, o) := run_op open op o in
    let* '(l, o) := run_ops open ops' o in Done (a :: l, o)
  end.
End file.
Arguments file R : clear implicits.

(** * Theory *)

(** ** What a file promises

    A view of a file: whether it was read, where it is and how much of it may be read, and
    what an operation may answer, for a file of the content [c].  The reader of a
    file that is not cached is read ahead of the position: it is what a Seek from the
    current position, the [whence] 1, counts from. *)


Record view := MkView { v_read : bool; v_pos : Z; v_max : Z }.

Definition reader_at (c : list Z) (chd : bool) (p k : Z) : Prop := p ≤ k ∧ (k ≤ len c ∨ k = p) ∧ (chd = true → k = p).

Inductive step (c : list Z) (chd : bool) : view → fileop → answer → view → Prop :=
| S_read s p m n k : m ≠ 0 → 0 < k ≤ n → p + k ≤ len c → (0 < m → k ≤ m) →
    step c chd (MkView s p m) (ORead n) (ABytes (sub c p (p + k)) None) (MkView true (p + k) (if 0 <? m then m - k else m))
| S_end s p m n : m ≠ 0 → len c ≤ p → step c chd (MkView s p m) (ORead n) (ABytes [] (Some EOF)) (MkView true p m)
| S_limit s p n : step c chd (MkView s p 0) (ORead n) (ABytes [] (Some EOF)) (MkView s p 0)
| S_seek p m o w k to : reader_at c chd p k → seek_to c k o w = Some to →
    step c chd (MkView true p m) (OSeek o w) (AAt to None) (MkView true to (-1))
| S_seek_fails p m o w k n e : reader_at c chd p k → seek_to c k o w = None →
    step c chd (MkView true p m) (OSeek o w) (AAt n (Some e)) (MkView true p m)
| S_unread p m o w : step c chd (MkView false p m) (OSeek o w) (AAt 0 None) (MkView false p m)
| S_max s p m m' : step c chd (MkView s p m) (OSetMax m') ANone (MkView s p m').

Inductive steps (c : list Z) (chd : bool) : view → list fileop → list answer → view → Prop :=
| steps_nil v : steps c chd v [] [] v
| steps_cons v op a v1 ops l v2 : step c chd v op a v1 → steps c chd v1 ops l v2 → steps c chd v (op :: ops) (a :: l) v2.

Lemma take_sub {A} (l : list A) i j n : 0 ≤ i → 0 ≤ n → i + n ≤ j → take (Z.to_nat n) (sub l i j) = sub l i (i + n).
Proof. intros. unfold sub. rewrite take_take. f_equal. lia. Qed.

Lemma drop_sub {A} (l : list A) i j n : 0 ≤ i → 0 ≤ n → i + n ≤ j → drop (Z.to_nat n) (sub l i j) = sub l (i + n) j.
Proof. intros. unfold sub. rewrite skipn_firstn_comm, drop_drop. f_equal; [lia|f_equal; lia]. Qed.

Section refines.
Context {R : Type} `{SeekSource R} `{!Closer R}.

(** A bufio.Reader over a reader with a position: it has what is before that position. *)
Definition ahead (b : bufio) (r : R) (c : list Z) (p : Z) : Prop :=
  ∃ k, reads_at r c k ∧ 0 ≤ p ≤ k ∧ (k ≤ len c ∨ k = p) ∧ bb_err b = None ∧ bb_buf b = sub c p k.

(** A read from a position: some bytes, or the end. *)
Definition reads_on (c : list Z) (p n : Z) (bs : list Z) (err : option goerr) : Prop :=
  if decide (p < len c) then err = None ∧ 0 < len bs ≤ n ∧ p + len bs ≤ len c ∧ bs = sub c p (p + len bs) else bs = [] ∧ err = Some EOF.

Lemma source_read r c k n : reads_at r c k → 0 < n →
  ∃ bs err r', read_bytes r n = Done (bs, err, r') ∧ reads_on c k n bs err ∧ reads_at r' c (k + len bs).
Proof.
  intros Hr Hn. pose proof (reads_at_pos _ _ _ Hr) as H0. unfold reads_on. destruct (decide (k < len c)).
  - destruct (reads_at_piece r c k n Hr) as (m & r' & -> & Hm & Hmn & Hl & Hr'); [done..|].
    assert (take m (drop (Z.to_nat k) c) = sub c k (k + Z.of_nat m)) as -> by (unfold sub; f_equal; lia).
    assert (len (sub c k (k + Z.of_nat m)) = Z.of_nat m) as El by (rewrite length_sub by lia; lia).
    eexists _, _, r'. rewrite El. split; [done|]. split; [|done]. split_and!; [done|lia|lia|lia|done].
  - destruct (reads_at_end r c k n Hr) as (r' & -> & Hr'); [lia..|]. eexists _, _, r'. split; [done|]. cbn [length]. by rewrite Z.add_0_r.
Qed.

Lemma bufreader_reads cap b r c p n : ahead b r c p → 0 < n → 0 < cap →
  ∃ bs err b' r', bufreader_Read cap b r n = Done (bs, err, b', r') ∧ reads_on c p n bs err ∧ ahead b' r' c (p + len bs).
Proof.
  intros (k & Hr & Hp & Hk & He & Hb) Hn Hcap. unfold bufreader_Read. zsimp.
  assert (len (sub c p k) = k - p) as Elen by (destruct Hk as [Hk| ->]; [rewrite length_sub; lia|rewrite sub_nil; cbn; lia]).
  rewrite He, Hb, Elen. destruct (Z.ltb_spec 0 (k - p)).
  - set (m := Z.min n (k - p)). assert (take (Z.to_nat n) (sub c p k) = sub c p (p + m)) as ->.
    { destruct (Z.le_ge_cases n (k - p)); [unfold m; rewrite Z.min_l by lia; apply take_sub; lia|].
      rewrite take_ge by lia. f_equal. lia. }
    assert (drop (Z.to_nat n) (sub c p k) = sub c (p + m) k) as ->.
    { destruct (Z.le_ge_cases n (k - p)); [unfold m; rewrite Z.min_l by lia; apply drop_sub; lia|].
      rewrite drop_ge by lia. replace (p + m) with k by lia. by rewrite sub_nil. }
    assert (len (sub c p (p + m)) = m) as El by (rewrite length_sub by lia; lia).
    eexists _, _, _, r. rewrite El. split; [done|]. split; [unfold reads_on; rewrite decide_True, El by lia; split_and!; (lia || done)|].
    exists k. split_and!; (lia || done).
  - assert (k = p) as -> by lia. destruct (Z.leb_spec cap n).
    + destruct (source_read r c p n Hr Hn) as (bs & err & r' & -> & Hon & Hr'). cbn [exec_bind]. eexists bs, err, _, r'. split; [done|]. split; [done|].
      exists (p + len bs). cbn [bb_err bb_buf]. rewrite sub_nil. split_and!; (lia || done).
    + destruct (source_read r c p cap Hr Hcap) as (bs & err & r' & -> & Hon & Hr'). cbn [exec_bind]. unfold reads_on in *. case_decide.
      * destruct Hon as (-> & Hl & Hlc & Ebs). zsimp. set (m := Z.min n (len bs)).
        assert (take (Z.to_nat n) bs = sub c p (p + m) ∧ drop (Z.to_nat n) bs = sub c (p + m) (p + len bs)) as [-> ->].
        { destruct (Z.le_ge_cases n (len bs)).
          - pose proof (take_sub c p (p + len bs) n) as Et. pose proof (drop_sub c p (p + len bs) n) as Ed. rewrite <-Ebs in Et, Ed.
            unfold m. rewrite Z.min_l by lia. by rewrite Et, Ed by lia.
          - rewrite take_ge, drop_ge by lia. unfold m. by rewrite Z.min_r, sub_nil by lia. }
        assert (len (sub c p (p + m)) = m) as El by (rewrite length_sub by lia; lia).
        eexists _, _, _, r'. rewrite El. split; [done|]. split; [split_and!; (lia || done)|]. exists (p + len bs). cbn [bb_err bb_buf]. split_and!; (lia || done).
      * destruct Hon as [-> ->]. cbn [length]. change (Z.of_nat 0 =? 0) with true. cbv iota. eexists _, _, _, r'. split; [done|]. split; [done|].
        cbn [length] in *. rewrite Z.add_0_r in *. exists p. cbn [bb_err bb_buf]. rewrite sub_nil. split_and!; (lia || done).
Qed.
(** A file that is open, with the reader [r0] it is read with from the first read on. *)
Definition represents (c : list Z) (chd : bool) (o : option (file R)) (v : view) : Prop :=
  ∃ f, o = Some f ∧ v_max v = f_mxread f ∧ f_chd f = chd ∧
    match f_r f with
    | None => v_read v = false ∧ v_pos v = 0 ∧ f_err f = None ∧ f_info f = true ∧ f_bfr f = None
    | Some r => v_read v = true ∧ ahead (default bufio_new (f_bfr f)) r c (v_pos v) ∧ (f_chd f = true → f_bfr f = None)
    end.

Lemma read_steps c chd s p m n bs err : reads_on c p (if (-1 <? m) && (m <? n) then m else n) bs err → m ≠ 0 → 0 < n →
  step c chd (MkView s p m) (ORead n) (ABytes bs (if (len bs =? 0) && bool_decide (err = None) then Some EOF else err)) (MkView true (p + len bs) (less_read m (len bs) err)).
Proof.
  unfold reads_on, less_read. case_decide as Hp; [intros (-> & Hl & Hc & Hbs)|intros [-> ->]]; intros Hm Hn.
  - rewrite bool_decide_eq_true_2 by done. zsimp. cbn [andb]. rewrite Hbs at 1. apply S_read; [done| |done|]; destruct (Z.ltb_spec (-1) m), (Z.ltb_spec m n); cbn [andb] in Hl; lia.
  - cbn [length]. change (Z.of_nat 0) with 0. change (0 <? 0) with false. rewrite bool_decide_eq_false_2 by done. cbn [andb]. rewrite Z.add_0_r, andb_false_r. apply S_end; [done|lia].
Qed.

Lemma read_refines open r0 c chd o v n : open = Done (Some r0) → reads_at r0 c 0 → represents c chd o v → 0 < n →
  ∃ a o' v', run_op open (ORead n) o = Done (a, o') ∧ step c chd v (ORead n) a v' ∧ represents c chd o' v'.
Proof.
  intros Hopen Hr0 (f & -> & Hmx & Hcc & Hf) Hn. destruct v as [s p m]. cbn [v_read v_pos v_max] in *. subst m. unfold run_op, Read. destruct (Z.eqb_spec (f_mxread f) 0) as [E0|E0].
  { eexists _, _, (MkView s p (f_mxread f)). split; [done|]. split; [rewrite E0; constructor|]. by exists f. }
  assert (∃ r, reader_of open f = Done (inr r) ∧ ahead (default bufio_new (f_bfr f)) r c p ∧ (f_chd f = true → f_bfr f = None)) as (r & -> & Hah & Hchd).
  { unfold reader_of. destruct (f_r f) as [r|]; [destruct Hf as (_ & ? & ?); by exists r|]. destruct Hf as (_ & -> & -> & -> & ->). rewrite Hopen. cbn [exec_bind].
    exists r0. split; [done|]. split; [|done]. exists 0. cbn. rewrite sub_nil. split_and!; (lia || done). }
  cbn [exec_bind]. set (n' := if (-1 <? f_mxread f) && (f_mxread f <? n) then f_mxread f else n).
  assert (0 < n') as Hn' by (unfold n'; destruct (Z.ltb_spec (-1) (f_mxread f)), (f_mxread f <? n); cbn [andb]; lia).
  destruct (f_chd f) eqn:Ec.
  - specialize (Hchd eq_refl). rewrite Hchd in *. destruct Hah as (k & Hr & Hp & Hk & _ & Hb). cbn [default from_option id bb_buf bufio_new] in Hb.
    assert (k = p) as -> by (destruct Hk as [Hk|]; [|done]; pose proof (length_sub c p k) as Hl; rewrite <-Hb in Hl; cbn in Hl; lia).
    destruct (source_read r c p n' Hr Hn') as (bs & err & r' & -> & Hon & Hr'). cbn [exec_bind]. pose proof (read_steps c chd s p (f_mxread f) n bs err Hon E0 Hn) as Hst.
    assert ((if (len bs =? 0) && bool_decide (err = None) then Some EOF else err) = err) as Eerr.
    { unfold reads_on in Hon. case_decide; [destruct Hon as (-> & ? & _); by zsimp|by destruct Hon as [-> ->]]. }
    rewrite Eerr in Hst. eexists _, _, _. split; [done|]. split; [exact Hst|]. eexists. split; [done|]. cbn [with_r f_mxread f_r f_chd f_bfr v_max v_read v_pos]. split; [done|]. split; [congruence|]. split; [done|]. split; [|congruence].
    exists (p + len bs). cbn. rewrite sub_nil. split_and!; (lia || done).
  - destruct (bufreader_reads 65787 _ r c p n' Hah Hn') as (bs & err & b' & r' & -> & Hon & Hah'); [lia|]. cbn [exec_bind].
    eexists _, _, _. split; [done|]. split; [by apply read_steps|]. eexists. split; [done|]. cbn [with_r f_mxread f_r f_chd f_bfr v_max v_read v_pos].
    split_and!; [done|congruence|done|done|congruence].
Qed.

Definition op_ok (op : fileop) : Prop := match op with ORead n => 0 < n | _ => True end.

Lemma op_refines open r0 c chd o v op : open = Done (Some r0) → reads_at r0 c 0 → represents c chd o v → op_ok op →
  ∃ a o' v', run_op open op o = Done (a, o') ∧ step c chd v op a v' ∧ represents c chd o' v'.
Proof.
  intros Hopen Hr0 Hv Hop. destruct op as [n|off w|m]; [by eapply read_refines| |].
  - destruct Hv as (f & -> & Hmx & Hcc & Hf). destruct v as [s p m]. cbn [v_read v_pos v_max] in *. unfold run_op, Seek. destruct (f_r f) as [r|] eqn:Er.
    + destruct Hf as (-> & (k & Hr & Hp & Hk & He & Hb) & Hchd). destruct (seek_moves r c k off w Hr) as (n & e & r' & -> & Hm). cbn [exec_bind].
      assert (reader_at c chd p k) as Hat.
      { split_and!; [lia|done|]. intros E. rewrite Hchd in Hb by congruence. destruct Hk as [Hk|]; [|done].
        pose proof (length_sub c p k) as Hl. rewrite <-Hb in Hl. cbn in Hl. lia. }
      pose proof (reads_at_pos _ _ _ Hr) as H0. destruct (seek_to c k off w) as [to|] eqn:Et.
      * destruct Hm as (-> & -> & Hr'). eexists _, _, _. split; [done|]. split; [by eapply S_seek|]. eexists. split; [done|]. cbn. split; [done|]. split; [done|].
        split; [done|]. pose proof (reads_at_pos _ _ _ Hr'). split.
        -- exists to. destruct (f_bfr f); cbn; rewrite sub_nil; split_and!; (lia || by right || done).
        -- intros E. by rewrite (Hchd E).
      * destruct Hm as [Hne Hr']. destruct e as [e|]; [|done]. eexists _, _, _. split; [done|]. split; [by eapply S_seek_fails|].
        eexists. split; [done|]. cbn. split_and!; [done|done|done| |done]. by exists k.
    + destruct Hf as (-> & -> & Hf). cbn [exec_bind]. eexists _, _, _. split; [done|]. split; [constructor|]. exists f. by rewrite Er.
  - destruct Hv as (f & -> & Hmx & Hcc & Hf). destruct v as [s p m']. eexists _, _, _. split; [done|]. split; [constructor|]. eexists. split; [done|]. by split.
Qed.

(** C12: an opened file is its content with a position and a limit.  Whatever is read into
    slices that are not empty, sought from the start, from the current position or from the
    end, and limited, in any order, no operation panics or runs on, and each answers what
    the content says: a read some of the bytes at the position, at least one and no more
    than the limit allows, or the end there; a seek where it goes, lifting the limit, or an
    error that leaves position and limit as they are.  Two things are not what a position
    would give: a file that was not read yet answers any seek with 0 and stays at its
    beginning, and a seek from the current position counts, in a file that is not cached,
    from where its reader is, which has read ahead. *)
Theorem opened_refines open r0 c chd ops : open = Done (Some r0) → reads_at r0 c 0 → Forall op_ok ops →
  ∃ l o' v', run_ops open ops (Some (NewFile None chd)) = Done (l, o') ∧ steps c chd (MkView false 0 (-1)) ops l v' ∧ represents c chd o' v'.
Proof.
  intros Hopen Hr0 Hops. assert (represents c chd (Some (NewFile None chd)) (MkView false 0 (-1))) as Hv by by eexists.
  generalize dependent (Some (NewFile (R := R) None chd)). generalize (MkView false 0 (-1)). induction Hops as [|op ops Hop Hops IH]; intros v o Hv.
  - eexists _, _, _. split; [done|]. split; [constructor|done].
  - cbn [run_ops]. destruct (op_refines open r0 c chd o v op Hopen Hr0 Hv Hop) as (a & o1 & v1 & -> & Hst & Hv1). cbn [exec_bind].
    destruct (IH v1 o1 Hv1) as (l & o2 & v2 & -> & Hss & Hv2). cbn [exec_bind]. eexists _, _, _. split; [done|]. split; [by econstructor|done].
Qed.
End refines.

(** ** Files *)

Definition demo_open : exec (option (contextreader osfile)) := Done (Some (ContextReader (os_Open [1; 2; 3; 4; 5]) NoContext true true)).
Definition demo_ops : list fileop :=
  [ORead 2; OSetMax 2; ORead 9; ORead 9; OSeek 1 0; ORead 9; OSeek (-2) 2; ORead 1; OSeek 9 0; ORead 9; OSeek (-1) 0; OSeek (-7) 1; ORead 9].

Lemma opened_refines_witness :
  run_ops demo_open demo_ops (Some (NewFile None false)) = Done ([ABytes [1; 2] None; ANone; ABytes [3; 4] None; ABytes [] (Some EOF);
      AAt 1 None; ABytes [2; 3; 4; 5] None; AAt 3 None; ABytes [4] None; AAt 9 None; ABytes [] (Some EOF); AAt 0 (Some EINVAL);
      AAt 2 None; ABytes [3; 4; 5] None],
    Some (MkOpened None true false (Some bufio_new) (Some (ContextReader (MkOsFile [1; 2; 3; 4; 5] 5 false) NoContext true true)) (-1))) ∧
  ∃ l o' v', run_ops demo_open demo_ops (Some (NewFile None false)) = Done (l, o') ∧
    steps [1; 2; 3; 4; 5] false (MkView false 0 (-1)) demo_ops l v' ∧ represents [1; 2; 3; 4; 5] false o' v'.
Proof.
  split; [vm_compute; reflexivity|].
  apply (opened_refines demo_open (ContextReader (os_Open [1; 2; 3; 4; 5]) NoContext true true) [1; 2; 3; 4; 5] false demo_ops eq_refl).
  - split_and!; [by split|by left|done..].
  - repeat (constructor; [cbn; first [done|lia]|]). constructor.
Defined.

(** A seek before the first read is answered as one, and does nothing. *)
Example seek_unread : (let* '(l, _) := run_ops demo_open [OSeek 3 0; ORead 2] (Some (NewFile None false)) in Done l) = Done [AAt 0 None; ABytes [1; 2] None].
Proof. vm_compute. reflexivity. Qed.

(** A seek from where the file is: the bytes read ahead count as read. *)
Example seek_current :
  (let* '(_, _, o) := Read demo_open (Some (NewFile None false)) 2 in let* '(n, _, _) := Seek o 0 1 in Done n) = Done 5.
Proof. vm_compute. reflexivity. Qed.

(** Reading a file that was closed panics. *)
Example read_closed : (let* '(_, _, o) := Read demo_open (Some (NewFile None false)) 2 in Read demo_open (Close o) 2) = Panic.
Proof. vm_compute. reflexivity. Qed.
