(* ===== verification/Serving.v ===== *)
(** Requests and responses: src/serve/serveio/writer.go and reader.go, and what they print
    with ([Fprint], [Fbprint] and [Fprintln] of src/iorw/adhoc.go).

    A [writer] buffers what is written to it and knows by type assertions what its target
    can do; the target is behind the interface [Outgoing], and [response] is the one of
    net/http.  The headers of a response are shared: [Header] of a [writer] gives the
    response's own map.  A [reader] takes the range a request asks for from its header.
    A nil [*writer] and [*reader] are left out: the constructors give none. *)

From S2P Require Import Prelude Runes GoStrings Readers Buffer Paths BuffReader Streams.
From stdpp Require Import gmap strings.
#[local] Open Scope Z_scope.

(** ** Numbers in texts: strconv.ParseInt(s, 10, 64) and fmt's %d *)

(** The digits read so far; a number beyond 64 bits ends the reading. *)
Inductive parsed_uint := Syntax | Range | Uint (n : Z).

Fixpoint ParseUint (s : list Z) (n : Z) : parsed_uint :=
  match s with
  | [] => Uint n
  | c :: s' =>
    if (48 <=? c) && (c <=? 57) then
      let n' := n * 10 + (c - 48) in if n' <? 2 ^ 64 then ParseUint s' n' else Range
    else Syntax
  end.

(** The number and whether there was no error. *)
Definition ParseInt (s : list Z) : Z * bool :=
  let unsigned neg d :=
    match d with
    | [] => (0, false)
    | _ =>
      match ParseUint d 0 with
      | Syntax => (0, false)
      | Range => (if (neg : bool) then - 2 ^ 63 else 2 ^ 63 - 1, false)
      | Uint n =>
        if neg then (if n <=? 2 ^ 63 then (- n, true) else (- 2 ^ 63, false))
        else (if n <? 2 ^ 63 then (n, true) else (2 ^ 63 - 1, false))
      end
    end in
  match s with
  | 45 :: d => unsigned true d
  | 43 :: d => unsigned false d
  | _ => unsigned false s
  end.

Fixpoint digits (k : nat) (n : Z) : list Z :=
  match k with
  | O => []
  | S k' => (if 9 <? n then digits k' (n / 10) else []) ++ [48 + n mod 10]
  end.
Definition FormatInt (n : Z) : list Z := if n <? 0 then 45 :: digits 20 (- n) else digits 20 n.

(** ** http.Header *)

Abbreviation header := (gmap (list Z) (list (list Z))).

(** [textproto.CanonicalMIMEHeaderKey] of a key of letters, digits and dashes. *)
Fixpoint canonical (upper : bool) (s : list Z) : list Z :=
  match s with
  | [] => []
  | c :: s' =>
    let c' := if upper && (97 <=? c) && (c <=? 122) then c - 32
              else if negb upper && (65 <=? c) && (c <=? 90) then c + 32 else c in
    c' :: canonical (c' =? 45) s'
  end.
Definition CanonicalMIMEHeaderKey (s : list Z) : list Z := canonical true s.

Definition Header_Set (h : header) (key value : list Z) : header := <[CanonicalMIMEHeaderKey key := [value]]> h.
Definition Header_Get (h : header) (key : list Z) : list Z :=
  match h !! CanonicalMIMEHeaderKey key with Some (v :: _) => v | _ => [] end.

(** ** What a writer writes to *)

(** Which of the interfaces [statusCodewriter], [headerwriter], [flusher] and
    [flushererror] the target implements, and their methods. *)
Class Outgoing (W : Type) := {
  out_Write :: ByteWriter W;
  is_statusCodewriter : bool;
  is_headerwriter : bool;
  is_flusher : bool;
  is_flushererror : bool;
  out_WriteHeader : Z → W → exec W;
  out_Header : W → header;
  out_set_Header : header → W → W;
  out_Flush : W → W;
  out_FlushErr : W → option goerr * W }.

(** http.ResponseWriter: the header to be, the status and the header that were sent, the
    length they declared, what was written, and how many bytes the connection still takes. *)
Record response := MkResponse {
  rs_header : header;
  rs_status : option Z;
  rs_sent : header;
  rs_length : option Z;
  rs_written : Z;
  rs_body : list Z;
  rs_room : option Z }.

Definition new_response (room : option Z) : response := MkResponse ∅ None ∅ None 0 [] room.

Definition ErrBodyNotAllowed : goerr := OtherErr 301.
Definition ErrContentLength : goerr := OtherErr 302.
Definition ErrConnection : goerr := OtherErr 303.

(** [WriteHeader]: only the first counts; a status that is none panics. *)
Definition response_WriteHeader (status : Z) (w : response) : exec response :=
  match rs_status w with
  | Some _ => Done w
  | None =>
    if (status <? 100) || (999 <? status) then Panic
    else
      let '(n, ok) := ParseInt (Header_Get (rs_header w) (text "Content-Length")) in
      Done (MkResponse (rs_header w) (Some status) (rs_header w) (if ok && (0 <=? n) then Some n else None)
              (rs_written w) (rs_body w) (rs_room w))
  end.

Definition body_allowed (status : Z) : bool := negb (status <? 200) && negb (status =? 204) && negb (status =? 304).

#[export] Instance response_Write : ByteWriter response := λ w p,
  let* w := match rs_status w with None => response_WriteHeader 200 w | Some _ => Done w end in
  if len p =? 0 then Done (0, None, w)
  else if negb (body_allowed (default 200 (rs_status w))) then Done (0, Some ErrBodyNotAllowed, w)
  else
    let total := rs_written w + len p in
    let put room p := MkResponse (rs_header w) (rs_status w) (rs_sent w) (rs_length w) total (rs_body w ++ p) room in
    if match rs_length w with Some n => n <? total | None => false end then Done (0, Some ErrContentLength, put (rs_room w) [])
    else
      match rs_room w with
      | None => Done (len p, None, put None p)
      | Some k => if len p <=? k then Done (len p, None, put (Some (k - len p)) p)
                  else Done (k, Some ErrConnection, put (Some 0) (take (Z.to_nat k) p))
      end.

#[export] Instance response_Outgoing : Outgoing response := {|
  out_Write := response_Write;
  is_statusCodewriter := true;
  is_headerwriter := true;
  is_flusher := true;
  is_flushererror := false;
  out_WriteHeader := response_WriteHeader;
  out_Header := rs_header;
  out_set_Header h w := MkResponse h (rs_status w) (rs_sent w) (rs_length w) (rs_written w) (rs_body w) (rs_room w);
  out_Flush w := match rs_status w with
                 | Some _ => w
                 | None => match response_WriteHeader 200 w with Done w' => w' | _ => w end
                 end;
  out_FlushErr w := (None, w) |}.

(** ** bufio.Writer *)

Record bufwriter := MkBufwriter { bw_buf : list Z; bw_size : Z; bw_err : option goerr }.

Definition NewWriterSize (size : Z) : bufwriter := MkBufwriter [] (if size <=? 0 then 4096 else size) None.

Section bufwriter.
Context {W : Type} `{!ByteWriter W}.

Definition bw_Flush (b : bufwriter) (w : W) : exec (option goerr * bufwriter * W) :=
  match bw_err b with
  | Some e => Done (Some e, b, w)
  | None =>
    if len (bw_buf b) =? 0 then Done (None, b, w)
    else
      let* '(n, err, w') := write_to w (bw_buf b) in
      match (if (n <? len (bw_buf b)) && bool_decide (err = None) then Some ErrShortWrite else err) with
      | Some e =>
        let rest := if (0 <? n) && (n <? len (bw_buf b)) then drop (Z.to_nat n) (bw_buf b) else take (Z.to_nat (len (bw_buf b) - n)) (bw_buf b) in
        Done (Some e, MkBufwriter rest (bw_size b) (Some e), w')
      | None => Done (None, MkBufwriter [] (bw_size b) None, w')
      end
  end.

(** [Write]: what is larger than the empty buffer goes past it. *)
Fixpoint bw_Write (fuel : nat) (b : bufwriter) (w : W) (p : list Z) (nn : Z) : exec (Z * option goerr * bufwriter * W) :=
  match fuel with
  | O => NoFuel
  | S fuel' =>
    match bw_err b with
    | Some e => Done (nn, Some e, b, w)
    | None =>
      let available := bw_size b - len (bw_buf b) in
      if available <? len p then
        if len (bw_buf b) =? 0 then
          let* '(n, err, w') := write_to w p in
          let* p' := slice p n (len p) in
          bw_Write fuel' (MkBufwriter [] (bw_size b) err) w' p' (nn + n)
        else
          let n := Z.min available (len p) in
          let* '(_, b', w') := bw_Flush (MkBufwriter (bw_buf b ++ take (Z.to_nat n) p) (bw_size b) None) w in
          bw_Write fuel' b' w' (drop (Z.to_nat n) p) (nn + n)
      else Done (nn + len p, None, MkBufwriter (bw_buf b ++ p) (bw_size b) None, w)
    end
  end.
End bufwriter.

(** ** writer *)

(** The header a [writer] hands out: none after [Close], the one of its target, or its own. *)
Inductive headers := NoHeader | TargetHeader | OwnHeader (h : header).

(** The fields; the target is kept beside it, [orgwrtr] says whether it is still held. *)
Record writer := MkWriter {
  stscdewtr : bool;
  flshr : bool;
  flshrerr : bool;
  orgwrtr : bool;
  hdrwtr : bool;
  wheader : headers;
  buff : option bufwriter;
  Status : Z;
  MaxSize : Z;
  FlushSize : Z }.

Definition set_buff (q : writer) (b : option bufwriter) : writer :=
  MkWriter (stscdewtr q) (flshr q) (flshrerr q) (orgwrtr q) (hdrwtr q) (wheader q) b (Status q) (MaxSize q) (FlushSize q).
Definition set_MaxSize (q : writer) (m : Z) : writer :=
  MkWriter (stscdewtr q) (flshr q) (flshrerr q) (orgwrtr q) (hdrwtr q) (wheader q) (buff q) (Status q) m (FlushSize q).
Definition set_FlushSize (q : writer) (f : Z) : writer :=
  MkWriter (stscdewtr q) (flshr q) (flshrerr q) (orgwrtr q) (hdrwtr q) (wheader q) (buff q) (Status q) (MaxSize q) f.

Section writer.
Context {W : Type} `{!Outgoing W}.

Definition NewWriter : writer :=
  MkWriter is_statusCodewriter is_flusher is_flushererror true is_headerwriter
    (if is_headerwriter then TargetHeader else OwnHeader ∅) None 200 (-1) (32768 * 2).

Definition MaxWriteSize (q : writer) (maxsize : Z) : bool * writer :=
  if MaxSize q =? -1 then (true, set_MaxSize q maxsize) else (false, q).

(** [Header]: what it gives, to be read and changed by [Header_Set]. *)
Definition Header (q : writer) (w : W) : option header :=
  match wheader q with NoHeader => None | TargetHeader => Some (out_Header w) | OwnHeader h => Some h end.

(** [Out.Header().Set(key, value)]: a nil map panics. *)
Definition Set_Header (q : writer) (w : W) (key value : list Z) : exec (writer * W) :=
  match wheader q with
  | NoHeader => Panic
  | TargetHeader => Done (q, out_set_Header (Header_Set (out_Header w) key value) w)
  | OwnHeader h =>
    Done (MkWriter (stscdewtr q) (flshr q) (flshrerr q) (orgwrtr q) (hdrwtr q) (OwnHeader (Header_Set h key value)) (buff q)
            (Status q) (MaxSize q) (FlushSize q), w)
  end.

Definition WriteHeader (q : writer) (w : W) (status : Z) : exec W :=
  if stscdewtr q then out_WriteHeader (if status =? 0 then Status q else status) w else Done w.

Definition Flush (q : writer) (w : W) : exec (option goerr * writer * W) :=
  match buff q with
  | None => Done (None, q, w)
  | Some b =>
    let* '(err, b', w') := bw_Flush b w in
    let q' := set_buff q (Some b') in
    match err with
    | Some e => Done (Some e, q', w')
    | None =>
      if flshr q then Done (None, q', out_Flush w')
      else if flshrerr q then let '(err', w'') := out_FlushErr w' in Done (err', q', w'')
      else Done (None, q', w')
    end
  end.

(** [buffer()]: whether there is one. *)
Definition buffer (q : writer) (w : W) : exec (bool * writer * W) :=
  let q1 := if FlushSize q <? 32768 * 2 then set_FlushSize q (32768 * 2) else q in
  match buff q with
  | None => if orgwrtr q then Done (true, set_buff q1 (Some (NewWriterSize (FlushSize q1))), w) else Done (false, q, w)
  | Some b =>
    if bw_size b =? FlushSize q1 then Done (true, q1, w)
    else
      let* '(_, _, w') := bw_Flush b w in
      if orgwrtr q then Done (true, set_buff q1 (Some (NewWriterSize (FlushSize q1))), w') else Done (false, set_buff q1 None, w')
  end.

Definition Close (q : writer) (w : W) : exec (writer * W) :=
  let* w' := match buff q with None => Done w | Some _ => let* '(_, _, w') := Flush q w in Done w' end in
  Done (MkWriter false false false false false NoHeader None (Status q) (MaxSize q) (FlushSize q), w').

(** Writing to the buffer that is there; [len p + 3] rounds are enough for a target that
    takes what it is given or tells an error. *)
Definition buffered_Write (q : writer) (w : W) (p : list Z) : exec (Z * option goerr * writer * W) :=
  let* '(ok, q, w) := buffer q w in
  match buff q with
  | Some b => let* '(n, err, b', w') := bw_Write (length p + 3) b w p 0 in Done (n, err, set_buff q (Some b'), w')
  | None => Panic
  end.

(** [Write]: at most [MaxSize] bytes altogether when a size was set, then the end. *)
Definition Write (q : writer) (w : W) (p : list Z) : exec (Z * option goerr * writer * W) :=
  if 0 <? len p then
    let* '(ok, q, w) := buffer q w in
    if (ok : bool) then
      if 0 <? MaxSize q then
        let pl := if MaxSize q <=? len p then MaxSize q else len p in
        let* '(n, err, q', w') := buffered_Write q w (take (Z.to_nat pl) p) in
        Done (n, err, if 0 <? n then set_MaxSize q' (MaxSize q' - n) else q', w')
      else if MaxSize q =? -1 then buffered_Write q w p
      else Done (0, Some EOF, q, w)
    else Done (0, Some EOF, q, w)
  else Done (0, Some EOF, q, w).

(** [ReadFrom] copies to the target itself, past the buffer and the largest size. *)
Definition ReadFrom {R} `{!ByteReader R} (fuel : nat) (q : writer) (w : W) (r : R) : exec (Z * option goerr * writer * W) :=
  if orgwrtr q then
    let* '(err, q1, w1) := match buff q with Some _ => Flush q w | None => Done (None, q, w) end in
    match err with
    | Some e => Done (0, Some e, q1, w1)
    | None => let* '(n, err, w2, _) := ReadWriteToFunc fuel w1 r in Done (n, err, q1, w2)
    end
  else Done (0, None, q, w).
End writer.

(** ** Printing to a writer: src/iorw/adhoc.go

    The arguments told apart: a string, a reader that is no rune reader, one that is both,
    maps with their JSON text and the text [fmt] gives them, slices, nil, and any other
    value with the text of [fmt].  The buffers of src/iorw are not among them. *)
Unset Elimination Schemes.
Inductive warg (R RR : Type) : Type :=
| WString (s : list Z)
| WReader (r : R)
| WRuneReader (r : RR)
| WMap (entries : Z) (json txt : list Z)
| WArr (a : list (warg R RR))
| WRunes (rs : list Z)
| WStrs (ss : list (list Z))
| WNil
| WOther (txt : list Z).
Set Elimination Schemes.
Arguments WString {R RR} s.
Arguments WReader {R RR} r.
Arguments WRuneReader {R RR} r.
Arguments WMap {R RR} entries json txt.
Arguments WArr {R RR} a.
Arguments WRunes {R RR} rs.
Arguments WStrs {R RR} ss.
Arguments WNil {R RR}.
Arguments WOther {R RR} txt.

Section print.
Context {W R RR : Type} `{!Outgoing W} `{!ByteReader R} `{!ByteReader RR} `{!RuneReader RR} (fuel : nat).

Definition Write_runes (q : writer) (w : W) (rs : list Z) : exec (option goerr * writer * W) :=
  let* bs := RunesToUTF8 rs in let* '(_, err, q', w') := Write q w bs in Done (err, q', w').

(** The loop over a rune reader: rune by rune, until the reader or the writer ends. *)
Fixpoint print_runes (n : nat) (q : writer) (w : W) (r : RR) : exec (option goerr * writer * W) :=
  match n with
  | O => NoFuel
  | S n' =>
    let* '(pr, prs, prserr, r') := read_rune r in
    let* '(prserr, q', w') :=
      if (0 <? prs) && (bool_decide (prserr = None) || bool_decide (prserr = Some EOF)) then Write_runes q w [pr]
      else Done (prserr, q, w) in
    match prserr with
    | None => print_runes n' q' w' r'
    | Some EOF => Done (None, q', w')
    | Some e => Done (Some e, q', w')
    end
  end.

(** The error an argument leaves and whether it ends the loop; the end is no error. *)
Definition go_on (res : exec (option goerr * writer * W)) : exec (option goerr * bool * writer * W) :=
  let* '(err, q, w) := res in
  Done (match err with
        | None => (None, false, q, w)
        | Some EOF => (None, false, q, w)
        | Some e => (Some e, true, q, w)
        end).
Definition or_break (res : exec (option goerr * writer * W)) : exec (option goerr * bool * writer * W) :=
  let* '(err, q, w) := res in Done (err, bool_decide (err ≠ None), q, w).

Definition print_from {X} `{!ByteReader X} (q : writer) (w : W) (r : X) : exec (option goerr * writer * W) :=
  let* '(_, err, q', w') := ReadFrom fuel q w r in Done (err, q', w').

(** The cases of [Fprint]; those of [Fbprint] differ for rune readers and maps. *)
Fixpoint Fprint_arg (q : writer) (w : W) (err : option goerr) (d : warg R RR) {struct d} : exec (option goerr * bool * writer * W) :=
  match d with
  | WString s => go_on (Write_runes q w (utf8.runes s))
  | WRuneReader r => or_break (print_runes fuel q w r)
  | WReader r => go_on (print_from q w r)
  | WMap entries json _ =>
    if 0 <? entries then let* '(_, _, q', w') := Write q w json in Done (err, false, q', w') else Done (err, false, q, w)
  | WArr a =>
    if 0 <? len a then
      or_break ((fix go (q : writer) (w : W) (err : option goerr) (a : list (warg R RR)) : exec (option goerr * writer * W) :=
         match a with
         | [] => Done (err, q, w)
         | x :: a' =>
           let* '(err', stop, q', w') := Fprint_arg q w err x in
           if (stop : bool) then Done (err', q', w') else go q' w' err' a'
         end) q w None a)
    else Done (err, false, q, w)
  | WRunes rs => if 0 <? len rs then or_break (let* '(err, _, q', w') := go_on (Write_runes q w (utf8.runes (encode_all rs))) in Done (err, q', w')) else Done (err, false, q, w)
  | WStrs ss => if 0 <? len ss then or_break (Write_runes q w (utf8.runes (concat ss))) else Done (err, false, q, w)
  | WNil => Done (err, false, q, w)
  | WOther txt => or_break (let* '(_, err, q', w') := Write q w txt in Done (err, q', w'))
  end.

Fixpoint Fprint (q : writer) (w : W) (err : option goerr) (a : list (warg R RR)) : exec (option goerr * writer * W) :=
  match a with
  | [] => Done (err, q, w)
  | d :: a' =>
    let* '(err', stop, q', w') := Fprint_arg q w err d in
    if (stop : bool) then Done (err', q', w') else Fprint q' w' err' a'
  end.

Definition Fbprint_arg (q : writer) (w : W) (err : option goerr) (d : warg R RR) : exec (option goerr * bool * writer * W) :=
  match d with
  | WRuneReader r => go_on (print_from q w r)
  | WMap _ _ txt => or_break (let* '(_, err, q', w') := Write q w txt in Done (err, q', w'))
  | _ => Fprint_arg q w err d
  end.

Fixpoint Fbprint (q : writer) (w : W) (err : option goerr) (a : list (warg R RR)) : exec (option goerr * writer * W) :=
  match a with
  | [] => Done (err, q, w)
  | d :: a' =>
    let* '(err', stop, q', w') := Fbprint_arg q w err d in
    if (stop : bool) then Done (err', q', w') else Fbprint q' w' err' a'
  end.

Definition Fprintln (q : writer) (w : W) (a : list (warg R RR)) : exec (option goerr * writer * W) :=
  let* '(err, q1, w1) := Fprint q w None a in
  match err with
  | None => Fprint q1 w1 None [WString [13; 10]]
  | Some e => Done (Some e, q1, w1)
  end.

(** ** writer.Print, BPrint and Println: the last flushes only what failed *)

Definition flush_if (yes : bool) (res : exec (option goerr * writer * W)) : exec (option goerr * writer * W) :=
  let* '(err, q, w) := res in
  if eqb (bool_decide (err = None)) yes then Flush q w else Done (err, q, w).

Definition Print (q : writer) (w : W) (a : list (warg R RR)) := flush_if true (Fprint q w None a).
Definition BPrint (q : writer) (w : W) (a : list (warg R RR)) := flush_if true (Fbprint q w None a).
Definition Println (q : writer) (w : W) (a : list (warg R RR)) := flush_if false (Fprintln q w a).
End print.

(** ** reader: src/serve/serveio/reader.go *)

(** What is used of an [*http.Request]; the parameters it carries are those of
    [Parameters]. *)
Record request := MkRequest {
  rq_Path : list Z;
  rq_RemoteAddr : list Z;
  rq_Method : list Z;
  rq_Proto : list Z;
  rq_TLS : bool;
  rq_Header : header;
  rq_LocalAddr : option (list Z) }.

Record reader := MkReader {
  mthd : list Z;
  prtcl : list Z;
  rmtaddr : list Z;
  lkladdr : list Z;
  httpr : option request;
  rheader : option header;
  isssl : bool;
  rpath : list Z;
  rangetype : list Z;
  rangeoffset : Z;
  ctxcnl : bool }.

(** [strings.Index] of one byte. *)
Fixpoint Index_byte (s : list Z) (c : Z) : Z :=
  match s with
  | [] => -1
  | x :: s' => if x =? c then 0 else let i := Index_byte s' c in if i =? -1 then -1 else i + 1
  end.

(** The type and the offset of the header [Range]; a number that cannot be read is told by
    [strconv] with a value, which is used. *)
Definition range_of (prtclrange : list Z) : list Z * Z :=
  if bool_decide (prtclrange ≠ []) && (0 <? Index_byte prtclrange 61) then
    let i := Z.to_nat (Index_byte prtclrange 61) in
    let rest := drop (S i) prtclrange in
    (take i prtclrange, if 0 <? Index_byte rest 45 then (ParseInt (take (Z.to_nat (Index_byte rest 45)) rest)).1 else -1)
  else ([], -1).

(** [NewContextPathReader(ctx, in, path)]: whether [ctx] is a context, with the local
    address it carries; without a context [in] must be a request. *)
Definition NewContextPathReader (ctx : option (option (list Z))) (inr : option request) (path : list Z) : exec reader :=
  let ctx' := match ctx, inr with Some c, _ => Some c | None, Some r => Some (rq_LocalAddr r) | None, None => None end in
  let addr c := match c, inr with Some a, _ => a | None, Some r => default [] (rq_LocalAddr r) | None, None => [] end in
  match ctx', inr with
  | None, None => Panic
  | _, None => Done (MkReader [] [] [] (match ctx' with Some c => addr c | None => [] end) None None false path [] (-1) (bool_decide (is_Some ctx')))
  | _, Some r =>
    let '(ty, off) := range_of (Header_Get (rq_Header r) (text "Range")) in
    Done (MkReader (rq_Method r) (rq_Proto r) (rq_RemoteAddr r) (match ctx' with Some c => addr c | None => [] end) inr
            (Some (rq_Header r)) (rq_TLS r) (if bool_decide (rq_Path r = []) then path else rq_Path r) ty off (bool_decide (is_Some ctx')))
  end.

Definition RangeOffset (r : reader) : Z := rangeoffset r.
Definition RangeType (r : reader) : list Z := rangetype r.

(** [Proto]: the protocol before the slash, in lower case, with an s over TLS. *)
Definition Proto `{UnicodeCase} (r : reader) : list Z :=
  let proto := prtcl r in
  let proto := if -1 <? Index_byte proto 47 then take (Z.to_nat (Index_byte proto 47)) proto else proto in
  encode_all (ToLower (utf8.runes proto)) ++ (if isssl r then [115] else []).

(** [Header] of the request, while it is held; [Close] lets go of it. *)
Definition reader_Header (r : reader) : option header := option_map rq_Header (httpr r).
Definition reader_Close (r : reader) : reader :=
  MkReader (mthd r) (prtcl r) (rmtaddr r) (lkladdr r) None (rheader r) (isssl r) (rpath r) (rangetype r) (rangeoffset r) (ctxcnl r).

(** *** The body of a request

    [bufr] over [orgrdr], which is still read after [Close]: what was buffered then is lost. *)
Section body.
Context {R : Type} `{!ByteReader R}.

Record body := MkBody { bufr : option bufio; orgrdr : option R }.

Definition body_buffer (b : body) : option (bufio * R) := match orgrdr b with Some r => Some (default bufio_new (bufr b), r) | None => None end.

#[global] Instance body_Read : ByteReader body := λ b n,
  let* '(bs, err, b') :=
    match body_buffer b with
    | Some (bf, r) => let* '(bs, err, bf', r') := bufreader_Read (32768 * 2) bf r n in Done (bs, err, MkBody (Some bf') (Some r'))
    | None => Done ([], None, b)
    end in
  Done (bs, if (len bs =? 0) && bool_decide (err = None) then Some EOF else err, b').

#[global] Instance body_ReadRune : RuneReader body := λ b,
  let* '(r, size, err, b') :=
    match body_buffer b with
    | Some (bf, s) => let* '(r, n, err, bf', s') := bufio_ReadRune (32768 * 2) bf s in Done (r, n, err, MkBody (Some bf') (Some s'))
    | None => Done (0, 0, None, b)
    end in
  Done (r, size, if (size =? 0) && bool_decide (err = None) then Some EOF else err, b').

Definition body_Close (b : body) : body := MkBody None (orgrdr b).
End body.
Arguments body R : clear implicits.

(** * Theory *)

(** ** The body of a request *)

(** Through its buffer the body delivers what its connection delivers. *)
#[export] Instance body_source {R} `{ByteSource R} : ByteSource (body R).
Proof.
  refine {| bpending b bs := match orgrdr b with
                             | Some r => bb_err (default bufio_new (bufr b)) = None ∧
                                 ∃ rest, bpending r rest ∧ bs = bb_buf (default bufio_new (bufr b)) ++ rest
                             | None => bs = []
                             end |}.
  - intros [bf [r|]] bs n Hb Hne Hn; cbn [orgrdr bufr] in *; [|done]. destruct Hb as (He & rest & Hr & ->).
    unfold read_bytes, body_Read, body_buffer. cbn [orgrdr bufr]. set (b := default bufio_new bf) in *. unfold bufreader_Read. zsimp.
    destruct (Z.ltb_spec 0 (len (bb_buf b))) as [Hl|Hl].
    + cbn [exec_bind]. assert (0 < length (take (Z.to_nat n) (bb_buf b)))%nat as Ht by (rewrite length_take; lia).
      exists (Nat.min (Z.to_nat n) (length (bb_buf b))), (MkBody (Some (Bufio (drop (Z.to_nat n) (bb_buf b)) (bb_err b))) (Some r)).
      rewrite length_take, (proj2 (Z.eqb_neq _ 0)) in * by lia. cbn [andb]. rewrite take_app_le, take_min by lia. split_and!; [done|lia|lia|rewrite length_app; lia|].
      cbn [orgrdr bufr default from_option id bb_err bb_buf]. split; [done|]. exists rest. split; [done|]. rewrite drop_app_le by lia. f_equal.
      destruct (Nat.min_spec (Z.to_nat n) (length (bb_buf b))) as [[? ->]|[? ->]]; [done|]. by rewrite !drop_ge by lia.
    + assert (bb_buf b = []) as Eb by (destruct (bb_buf b); [done|cbn in Hl; lia]). rewrite Eb in *. rewrite He. cbn [app] in *.
      destruct (Z.leb_spec (32768 * 2) n) as [Hc|Hc].
      * destruct (bpending_cons r rest n Hr Hne Hn) as (k & r' & -> & Hk & Hkn & Hkl & Hr'). cbn [exec_bind].
        exists k, (MkBody (Some (Bufio [] None)) (Some r')). rewrite length_take, (proj2 (Z.eqb_neq _ 0)) by lia. cbn [andb].
        split_and!; [done|done|done|done|]. cbn. split; [done|]. by exists (drop k rest).
      * destruct (bpending_cons r rest (32768 * 2) Hr Hne ltac:(lia)) as (k & r' & -> & Hk & Hkn & Hkl & Hr'). cbn [exec_bind].
        rewrite length_take, (proj2 (Z.eqb_neq _ 0)) by lia. cbn [exec_bind]. rewrite take_take.
        exists (Nat.min (Z.to_nat n) k), (MkBody (Some (Bufio (drop (Z.to_nat n) (take k rest)) None)) (Some r')).
        rewrite length_take, (proj2 (Z.eqb_neq _ 0)) by lia. cbn [andb].
        split_and!; [done|lia|lia|lia|]. cbn. split; [done|]. exists (drop k rest). split; [done|].
        destruct (Nat.min_spec (Z.to_nat n) k) as [[? ->]|[? ->]].
        -- rewrite <-(take_drop (k - Z.to_nat n) (drop (Z.to_nat n) rest)), drop_drop, skipn_firstn_comm. do 2 f_equal. lia.
        -- by rewrite (drop_ge (take k rest)) by (rewrite length_take; lia).
  - intros [bf [r|]] n Hb Hn; cbn [orgrdr bufr] in *; unfold read_bytes, body_Read, body_buffer; cbn [orgrdr bufr].
    + destruct Hb as (He & rest & Hr & E). symmetry in E. apply app_nil in E as [Eb ->]. set (b := default bufio_new bf) in *.
      unfold bufreader_Read. zsimp. rewrite Eb, He. cbn [length]. change (0 <? len []) with false. cbv iota.
      destruct (Z.leb_spec (32768 * 2) n).
      * destruct (bpending_nil r n Hr Hn) as (r' & -> & Hr'). cbn [exec_bind]. eexists. split; [done|]. cbn. split; [done|]. by exists [].
      * destruct (bpending_nil r (32768 * 2) Hr ltac:(lia)) as (r' & -> & Hr'). cbn [exec_bind]. eexists. split; [done|]. cbn. split; [done|]. by exists [].
    + eexists. split; [done|]. done.
Defined.

(** ** Ranges *)

Lemma Index_byte_app s c rest : c ∉ s → Index_byte (s ++ c :: rest) c = len s.
Proof.
  induction s as [|x s IH]; intros Hs; cbn [app Index_byte]; [by rewrite Z.eqb_refl|].
  apply not_elem_of_cons in Hs as [Hx Hs]. destruct (Z.eqb_spec x c); [by subst|]. cbv zeta. rewrite IH by done.
  destruct (Z.eqb_spec (len s) (-1)); [lia|]. cbn [length]. lia.
Qed.

(** ** Numbers *)

Lemma ParseUint_digits k n acc rest :
  0 ≤ n < 10 ^ Z.of_nat k → 0 ≤ acc → acc * 10 ^ len (digits k n) + n < 2 ^ 64 →
  ParseUint (digits k n ++ rest) acc = ParseUint rest (acc * 10 ^ len (digits k n) + n) ∧ (0 < k → 0 < length (digits k n))%nat.
Proof.
  revert n acc rest. induction k as [|k IH]; intros n acc rest Hn Ha Hb.
  - cbn in Hn |- *. split; [|lia]. f_equal. lia.
  - cbn [digits] in *. rewrite Nat2Z.inj_succ, Z.pow_succ_r in Hn by lia.
    pose proof (Z.mod_pos_bound n 10) as Hm. pose proof (Z.div_mod n 10) as Hd. revert Hb.
    destruct (Z.ltb_spec 9 n) as [H9|H9]; intros Hb.
    + rewrite length_app, Nat2Z.inj_add, Z.pow_add_r in Hb |- * by lia. cbn [length] in Hb |- *. change (10 ^ Z.of_nat 1) with 10 in *.
      rewrite <- app_assoc. set (m := len (digits k (n / 10))) in *.
      assert (0 ≤ acc * 10 ^ m) by (apply Z.mul_nonneg_nonneg; [done|]; pose proof (Z.pow_pos_nonneg 10 m); lia).
      destruct (IH (n / 10) acc ([48 + n mod 10] ++ rest)) as [-> _]; [split; [apply Z.div_pos; lia|apply Z.div_lt_upper_bound; lia]|done|fold m; lia|].
      split; [|lia]. fold m. cbn [app ParseUint]. zsimp.
      assert ((acc * 10 ^ m + n / 10) * 10 + (48 + n mod 10 - 48) = acc * (10 ^ m * 10) + n) as -> by lia. by zsimp.
    + cbn [app length]. split; [|lia]. cbn [app length] in Hb. change (10 ^ Z.of_nat 1) with 10 in *. cbn [ParseUint].
      assert (n mod 10 = n) as E by (apply Z.mod_small; lia). rewrite E. zsimp.
      assert (acc * 10 + (48 + n - 48) = acc * 10 + n) as -> by lia. by zsimp.
Qed.

Lemma digits_head k n c s : digits k n = c :: s → 0 ≤ n → 48 ≤ c ≤ 57.
Proof.
  revert n s. induction k as [|k IH]; intros n s; [done|]. cbn [digits]. intros E Hn. pose proof (Z.mod_pos_bound n 10).
  destruct (Z.ltb_spec 9 n); cbn [app] in E.
  - destruct (digits k (n / 10)) as [|c' s'] eqn:Ed; cbn [app] in E; injection E as <- _; [lia|]. eapply IH; [done|]. apply Z.div_pos; lia.
  - injection E as <- _. lia.
Qed.

(** What is formatted is parsed to the same number. *)
Lemma ParseInt_FormatInt n : 0 ≤ n < 2 ^ 63 → ParseInt (FormatInt n) = (n, true).
Proof.
  intros Hn. unfold FormatInt. zsimp.
  destruct (ParseUint_digits 20 n 0 []) as [Ep Hl]; [change (10 ^ Z.of_nat 20) with 100000000000000000000; lia|done|lia|].
  rewrite app_nil_r, Z.mul_0_l, Z.add_0_l in Ep. destruct (digits 20 n) as [|c s] eqn:Ed; [cbn in Hl; lia|].
  assert (48 ≤ c ≤ 57) as Hc by (eapply digits_head; [done|lia]).
  assert (c = 48 ∨ c = 49 ∨ c = 50 ∨ c = 51 ∨ c = 52 ∨ c = 53 ∨ c = 54 ∨ c = 55 ∨ c = 56 ∨ c = 57) as Hd by lia.
  assert (ParseInt (c :: s) = match ParseUint (c :: s) 0 with
    | Syntax => (0, false) | Range => (2 ^ 63 - 1, false) | Uint n => if n <? 2 ^ 63 then (n, true) else (2 ^ 63 - 1, false) end) as ->.
  { by destruct Hd as [->|[->|[->|[->|[->|[->|[->|[->|[->| ->]]]]]]]]]. }
  rewrite Ep. cbn [ParseUint]. by zsimp.
Qed.

Lemma digits_range k n c : c ∈ digits k n → 0 ≤ n → 48 ≤ c ≤ 57.
Proof.
  revert n. induction k as [|k IH]; intros n; cbn [digits]; [by intros ?%not_elem_of_nil|]. intros Hc Hn.
  apply elem_of_app in Hc as [Hc|Hc].
  - destruct (9 <? n); [|by apply not_elem_of_nil in Hc]. eapply IH; [done|]. apply Z.div_pos; lia.
  - apply list_elem_of_singleton in Hc as ->. pose proof (Z.mod_pos_bound n 10). lia.
Qed.

Lemma FormatInt_nonneg n : 0 ≤ n → FormatInt n = digits 20 n.
Proof. intros. unfold FormatInt. by zsimp. Qed.

(** A range from [n] on: its end is not read. *)
Lemma range_of_from n rest : 0 ≤ n < 2 ^ 63 → range_of (text "bytes=" ++ FormatInt n ++ text "-" ++ rest) = (text "bytes", n).
Proof.
  intros Hn. unfold range_of. change (text "bytes=" ++ FormatInt n ++ text "-" ++ rest) with (text "bytes" ++ 61 :: FormatInt n ++ text "-" ++ rest).
  rewrite Index_byte_app by (vm_compute; set_solver). rewrite bool_decide_eq_true_2 by done. change (len (text "bytes")) with 5.
  cbn [andb]. change (0 <? 5) with true. cbv iota zeta. change (Z.to_nat 5) with 5%nat.
  change (take 5 (text "bytes" ++ 61 :: FormatInt n ++ text "-" ++ rest)) with (text "bytes"). f_equal.
  change (drop 6 (text "bytes" ++ 61 :: FormatInt n ++ text "-" ++ rest)) with (FormatInt n ++ 45 :: rest).
  assert (45 ∉ FormatInt n) as Hd by (rewrite FormatInt_nonneg by lia; intros ?%digits_range; lia).
  rewrite Index_byte_app by done.
  assert (0 < len (FormatInt n)). { rewrite FormatInt_nonneg by lia. cbn [digits]. rewrite length_app. cbn. lia. } zsimp.
  rewrite Nat2Z.id, take_app_length. by rewrite ParseInt_FormatInt.
Qed.

(** ** Responses that take what is written *)

Class OutgoingSink (W : Type) `{!Outgoing W} := {
  og_sink :: ByteSink W;
  og_count (l : list Z) : count (W := W) l = len l;
  og_nil (w : W) p w' q : written w p w' → takes w' q → takes w' [];
  og_Flush (w : W) q : takes w q → written w [] (out_Flush w) ∧ takes (out_Flush w) q;
  og_noerr : is_flushererror (W := W) = false ∨ is_flusher (W := W) = true }.

(** A response whose header is sent, if need be with the status 200. *)
Definition sent (w : response) : response :=
  match rs_status w with
  | Some _ => w
  | None => match response_WriteHeader 200 w with Done w' => w' | _ => w end
  end.
Definition extend (w : response) (p : list Z) : response :=
  MkResponse (rs_header w) (rs_status w) (rs_sent w) (rs_length w) (rs_written w + len p) (rs_body w ++ p)
    (option_map (λ k, k - len p) (rs_room w)).

(** There is a body, as many bytes as declared, and room for them on the connection. *)
Record response_takes (w : response) (n : Z) : Prop := {
  rt_body : body_allowed (default 200 (rs_status w)) = true;
  rt_length : match rs_length w with Some l => rs_written w + n ≤ l | None => True end;
  rt_room : match rs_room w with Some k => n ≤ k | None => True end }.

Lemma sent_sent w : sent (sent w) = sent w.
Proof.
  unfold sent. destruct (rs_status w) eqn:E; [by rewrite E|]. unfold response_WriteHeader. rewrite E.
  change ((200 <? 100) || (999 <? 200)) with false. cbv iota. by destruct (ParseInt _).
Qed.

Lemma sent_WriteHeader w : (match rs_status w with None => response_WriteHeader 200 w | Some _ => Done w end) = Done (sent w).
Proof.
  unfold sent. destruct (rs_status w) eqn:E; [done|]. unfold response_WriteHeader. rewrite E.
  change ((200 <? 100) || (999 <? 200)) with false. cbv iota. by destruct (ParseInt _).
Qed.

Lemma sent_status w : is_Some (rs_status (sent w)).
Proof.
  unfold sent. destruct (rs_status w) eqn:E; [by rewrite E|]. unfold response_WriteHeader. rewrite E.
  change ((200 <? 100) || (999 <? 200)) with false. cbv iota. by destruct (ParseInt _).
Qed.

Lemma sent_extend w p : sent (extend (sent w) p) = extend (sent w) p.
Proof. unfold sent at 1. cbn [rs_status extend]. destruct (sent_status w) as [s Hs]. by rewrite Hs. Qed.

Lemma extend_nil w : extend w [] = w.
Proof. destruct w as [h s sn l wr b r]. unfold extend. cbn. rewrite app_nil_r, Z.add_0_r. f_equal. destruct r; cbn; [|done]. f_equal. lia. Qed.

Lemma extend_app w p q : extend (extend w p) q = extend w (p ++ q).
Proof.
  destruct w as [h s sn l wr b r]. unfold extend. cbn. rewrite length_app, <- app_assoc. f_equal; [lia|]. destruct r; cbn; [|done]. f_equal. lia.
Qed.

Lemma response_Write_takes w p n : response_takes (sent w) (len p + n) → 0 ≤ n → response_Write w p = Done (len p, None, extend (sent w) p).
Proof.
  intros [Hb Hl Hr] Hn. unfold response_Write. rewrite sent_WriteHeader. cbn [exec_bind].
  destruct (decide (p = [])) as [->|Hp]; [by rewrite extend_nil|]. assert (0 < len p) by (destruct p; [done|cbn; lia]).
  zsimp. rewrite Hb. cbn [negb].
  assert (match rs_length (sent w) with Some n0 => n0 <? rs_written (sent w) + len p | None => false end = false) as ->.
  { destruct (rs_length (sent w)); [|done]. apply Z.ltb_ge. lia. }
  unfold extend. destruct (rs_room (sent w)) as [k|]; cbn [option_map]; [|done]. by zsimp.
Qed.

#[export] Instance response_sink : ByteSink response.
Proof.
  refine {| takes w q := response_takes (sent w) (len q); written w p w' := sent w' = extend (sent w) p; count p := len p |}.
  - done.
  - intros. rewrite length_app. lia.
  - intros w q _. by rewrite extend_nil.
  - intros w1 p w2 q w3 E1 E2. by rewrite E2, E1, extend_app.
  - intros w p q [Hb Hl Hr]. rewrite length_app, Nat2Z.inj_add in *. eexists. split; [|split].
    + by eapply response_Write_takes with (n := len q); [done|lia].
    + rewrite sent_extend. split; [done| |].
      * cbn. destruct (rs_length (sent w)); [lia|done].
      * cbn. destruct (rs_room (sent w)); cbn; [lia|done].
    + apply sent_extend.
Defined.

#[export] Instance response_OutgoingSink : OutgoingSink response.
Proof.
  refine {| og_sink := response_sink |}.
  - done.
  - intros w p w' q _ [Hb Hl Hr]. split; [done| |]; cbn.
    + destruct (rs_length (sent w')); [lia|done].
    + destruct (rs_room (sent w')); [lia|done].
  - intros w q Ht. change (out_Flush w) with (sent w).
    cbn [takes written response_sink]. rewrite sent_sent, extend_nil. done.
  - by left.
Defined.

(** ** What a writer has passed on and what it still holds *)

(** A list of writes, with what each answers. *)
Fixpoint Writes {W} `{!Outgoing W} (q : writer) (w : W) (ps : list (list Z)) : exec (list (Z * option goerr) * writer * W) :=
  match ps with
  | [] => Done ([], q, w)
  | p :: ps' =>
    let* '(n, err, q1, w1) := Write q w p in
    let* '(res, q2, w2) := Writes q1 w1 ps' in Done ((n, err) :: res, q2, w2)
  end.

(** The bytes each write passes on when [m] are allowed altogether, -1 for any number. *)
Fixpoint rations (m : Z) (ps : list (list Z)) : list (list Z) :=
  match ps with
  | [] => []
  | p :: ps' =>
    let a := if m =? -1 then p else take (Z.to_nat m) p in
    a :: rations (if m =? -1 then -1 else m - len a) ps'
  end.
Definition ration_answer (a : list Z) : Z * option goerr := (len a, if decide (a = []) then Some EOF else None).

Lemma rations_concat m ps : -1 ≤ m → concat (rations m ps) = if m =? -1 then concat ps else take (Z.to_nat m) (concat ps).
Proof.
  revert m. induction ps as [|p ps IH]; intros m Hm; cbn [rations concat]; [by rewrite take_nil; destruct (m =? -1)|].
  destruct (Z.eqb_spec m (-1)) as [->|Hne].
  - rewrite IH by lia. done.
  - rewrite IH by (rewrite length_take; lia). rewrite length_take, take_app.
    destruct (Z.eqb_spec (m - Z.of_nat (Nat.min (Z.to_nat m) (length p))) (-1)); [lia|]. do 2 f_equal. lia.
Qed.

Section writer_theory.
Context {W : Type} `{OutgoingSink W}.

Lemma written_then w0 t w p w' : written (W := W) w0 t w → written w p w' → written w0 (t ++ p) w'.
Proof. apply written_trans. Qed.

(** [total] went into the buffered writer since its target was [w0], and the target will
    take what is buffered and [rest]. *)
Record carried (w0 : W) (b : bufwriter) (w : W) (total rest : list Z) : Prop := {
  cr_err : bw_err b = None;
  cr_size : len (bw_buf b) ≤ bw_size b ∧ 0 < bw_size b;
  cr_out : ∃ out, written w0 out w ∧ total = out ++ bw_buf b ∧ takes w (bw_buf b ++ rest) }.

Lemma bw_Flush_carried w0 b w t rest :
  carried w0 b w t rest →
  ∃ w', bw_Flush b w = Done (None, MkBufwriter [] (bw_size b) None, w') ∧ written w0 t w' ∧ takes w' rest ∧
        carried w0 (MkBufwriter [] (bw_size b) None) w' t rest.
Proof.
  intros [He [Hs Hz] (out & Hw & -> & Ht)]. unfold bw_Flush. rewrite He.
  destruct (decide (bw_buf b = [])) as [Eb|Hne].
  - rewrite Eb in *. rewrite app_nil_r. cbn [app] in Ht. exists w. split_and!; [|done|done|].
    + by destruct b as [? ? ?]; cbn in *; subst.
    + split; [done|cbn; lia|]. exists out. rewrite app_nil_r. done.
  - assert (0 < len (bw_buf b)) by (destruct (bw_buf b); [done|cbn; lia]). zsimp.
    destruct (write_to_sink w (bw_buf b) rest Ht) as (w' & -> & Ht' & Hw'). rewrite og_count. cbn [exec_bind]. zsimp.
    exists w'. split_and!; [done|by eapply written_then|done|]. split; [done|cbn; lia|]. exists (out ++ bw_buf b).
    split_and!; [by eapply written_then|by rewrite app_nil_r|done].
Qed.

Lemma direct_Write w0 b w t p rest :
  carried w0 b w t (p ++ rest) → bw_buf b = [] →
  ∃ w', write_to w p = Done (len p, None, w') ∧ carried w0 (MkBufwriter [] (bw_size b) None) w' (t ++ p) rest.
Proof.
  intros [He [Hs Hz] (out & Hw & -> & Ht)] Eb. rewrite Eb in *. cbn [app] in Ht.
  destruct (write_to_sink w p rest Ht) as (w' & -> & Ht' & Hw'). rewrite og_count. exists w'. split; [done|].
  split; [done|cbn; lia|]. exists (out ++ p). cbn [bw_buf]. rewrite !app_nil_r. split_and!; [by eapply written_then|done|done].
Qed.

Lemma bw_Write_fits fuel w0 b w t p rest nn :
  carried w0 b w t (p ++ rest) → len p ≤ bw_size b - len (bw_buf b) → (0 < fuel)%nat →
  ∃ b', bw_Write fuel b w p nn = Done (nn + len p, None, b', w) ∧ bw_size b' = bw_size b ∧ carried w0 b' w (t ++ p) rest.
Proof.
  intros [He [Hs Hz] (out & Hw & -> & Ht)] Hl Hf. destruct fuel as [|fuel]; [lia|]. cbn [bw_Write]. rewrite He. zsimp.
  eexists. split; [done|]. split; [done|]. split; [done|cbn; rewrite length_app; lia|]. exists out. cbn [bw_buf]. rewrite <- !app_assoc. done.
Qed.

Lemma bw_Write_empty fuel w0 b w t p rest nn :
  carried w0 b w t (p ++ rest) → bw_buf b = [] → (1 < fuel)%nat →
  ∃ b' w', bw_Write fuel b w p nn = Done (nn + len p, None, b', w') ∧ bw_size b' = bw_size b ∧ carried w0 b' w' (t ++ p) rest.
Proof.
  intros Hc Eb Hf. destruct (Z.le_gt_cases (len p) (bw_size b)) as [Hl|Hl].
  - destruct (bw_Write_fits fuel w0 b w t p rest nn Hc) as (b' & E & ?); [by rewrite Eb, Z.sub_0_r|lia|]. eauto.
  - destruct fuel as [|fuel]; [lia|]. cbn [bw_Write]. rewrite (cr_err _ _ _ _ _ Hc), Eb. cbn [length]. zsimp.
    change (len [] =? 0) with true. cbv iota. destruct (direct_Write w0 b w t p rest Hc Eb) as (w' & -> & Hc'). cbn [exec_bind].
    rewrite slice_ok by lia. cbn [exec_bind]. rewrite sub_nil.
    destruct (bw_Write_fits fuel w0 _ w' (t ++ p) [] rest (nn + len p) Hc') as (b' & -> & Hs' & Hc''); [cbn; pose proof (cr_size _ _ _ _ _ Hc); lia|lia|].
    eexists _, _. rewrite app_nil_r in Hc''. rewrite Z.add_0_r. done.
Qed.

Lemma bw_Write_carried fuel w0 b w t p rest nn :
  carried w0 b w t (p ++ rest) → (2 < fuel)%nat →
  ∃ b' w', bw_Write fuel b w p nn = Done (nn + len p, None, b', w') ∧ bw_size b' = bw_size b ∧ carried w0 b' w' (t ++ p) rest.
Proof.
  intros Hc Hf. destruct (Z.le_gt_cases (len p) (bw_size b - len (bw_buf b))) as [Hl|Hl].
  { destruct (bw_Write_fits fuel w0 b w t p rest nn Hc Hl) as (b' & E & ?); [lia|]. eauto. }
  destruct (decide (bw_buf b = [])) as [Eb|Hne]; [apply bw_Write_empty; (done || lia)|].
  assert (0 < len (bw_buf b)) by (destruct (bw_buf b); [done|cbn; lia]).
  destruct fuel as [|fuel]; [lia|]. cbn [bw_Write]. rewrite (cr_err _ _ _ _ _ Hc). zsimp.
  pose proof (cr_size _ _ _ _ _ Hc) as [Hs Hz]. set (n := Z.min (bw_size b - len (bw_buf b)) (len p)).
  set (p1 := take (Z.to_nat n) p). set (p2 := drop (Z.to_nat n) p). assert (p = p1 ++ p2) as Ep by (unfold p1, p2; by rewrite take_drop).
  assert (len p1 = n) as Hp1 by (unfold p1; rewrite length_take; lia).
  assert (carried w0 (MkBufwriter (bw_buf b ++ p1) (bw_size b) None) w (t ++ p1) (p2 ++ rest)) as Hc1.
  { destruct Hc as [He _ (out & Hw & -> & Ht)]. split; [done|cbn; rewrite length_app; lia|]. exists out. cbn [bw_buf].
    rewrite <- !app_assoc. split_and!; [done|done|]. rewrite Ep, <- app_assoc in Ht. done. }
  destruct (bw_Flush_carried _ _ _ _ _ Hc1) as (w' & -> & _ & _ & Hc2). cbn [exec_bind bw_size] in *.
  destruct (bw_Write_empty fuel w0 _ w' (t ++ p1) p2 rest (nn + n) Hc2) as (b' & w'' & -> & Hs' & Hc3); [done|lia|].
  exists b', w''. split_and!; [|done|].
  - assert (len p = len p1 + len p2) by (rewrite Ep at 1; rewrite length_app; lia).
    by replace (nn + len p) with (nn + n + len p2) by lia.
  - by rewrite Ep, (app_assoc t).
Qed.

(** [total] went into the writer [q], made for the target [w0]. *)
Record served (w0 : W) (q : writer) (w : W) (total rest : list Z) : Prop := {
  sv_open : orgwrtr q = true;
  sv_size : FlushSize q = 65536;
  sv_flush : flshrerr q = is_flushererror (W := W) ∧ flshr q = is_flusher (W := W);
  sv_max : -1 ≤ MaxSize q;
  sv_state : match buff q with
             | None => written w0 total w ∧ takes w rest
             | Some b => bw_size b = 65536 ∧ carried w0 b w total rest
             end }.

Lemma NewWriter_served w rest : takes w rest → served w (NewWriter (W := W)) w [] rest.
Proof. intros Ht. split; [done..|cbn; lia|]. cbn. split; [by eapply written_refl|done]. Qed.

Lemma buffer_served w0 q w t rest :
  served w0 q w t rest → ∃ b, buffer q w = Done (true, set_buff q (Some b), w) ∧ bw_size b = 65536 ∧ carried w0 b w t rest.
Proof.
  intros [Ho Hs Hf Hm Hst]. unfold buffer. rewrite Ho, Hs. change (65536 <? 32768 * 2) with false. cbv iota. rewrite ?Hs.
  destruct (buff q) as [b|] eqn:Eb.
  - destruct Hst as [Hb Hc]. rewrite Hb. change (65536 =? 65536) with true. cbv iota. exists b. split; [|done]. destruct q; cbn in *; by subst.
  - exists (MkBufwriter [] 65536 None). split_and!; [done|done|]. destruct Hst as [Hw Ht]. split; [done|cbn; lia|].
    exists t. cbn. by rewrite app_nil_r.
Qed.

Lemma served_buff w0 q b w t rest : served w0 q w t rest → bw_size b = 65536 → ∀ t' w' rest', carried w0 b w' t' rest' → served w0 (set_buff q (Some b)) w' t' rest'.
Proof. intros [Ho Hs Hf Hm Hst] Hb t' w' rest' Hc. split; [done..|]. cbn. done. Qed.

Lemma buffered_Write_served w0 q w t p rest :
  served w0 q w t (p ++ rest) →
  ∃ q' w', buffered_Write q w p = Done (len p, None, q', w') ∧ served w0 q' w' (t ++ p) rest ∧ MaxSize q' = MaxSize q.
Proof.
  intros Hq. unfold buffered_Write. destruct (buffer_served _ _ _ _ _ Hq) as (b & -> & Hb & Hc). cbn [exec_bind buff set_buff].
  destruct (bw_Write_carried (length p + 3) w0 b w t p rest 0 Hc) as (b' & w' & -> & Hb' & Hc'); [lia|]. cbn [exec_bind].
  rewrite Z.add_0_l. eexists _, _. split; [done|]. split; [|done].
  assert (set_buff (set_buff q (Some b)) (Some b') = set_buff q (Some b')) as -> by done. eapply served_buff; [done|lia|done].
Qed.

(** What [Write] takes of [p]. *)
Definition allowed (q : writer) (p : list Z) : list Z := if MaxSize q =? -1 then p else take (Z.to_nat (MaxSize q)) p.

Lemma Write_served w0 q w t p rest :
  served w0 q w t (allowed q p ++ rest) →
  ∃ q' w', Write q w p = Done (len (allowed q p), if decide (allowed q p = []) then Some EOF else None, q', w') ∧
    served w0 q' w' (t ++ allowed q p) rest ∧ MaxSize q' = if MaxSize q =? -1 then -1 else MaxSize q - len (allowed q p).
Proof.
  intros Hq. pose proof (sv_max _ _ _ _ _ Hq) as Hm. unfold Write. destruct (decide (p = [])) as [->|Hp].
  { assert (allowed q [] = []) as E by (unfold allowed; rewrite take_nil; by destruct (MaxSize q =? -1)). rewrite E in *.
    cbn [length]. change (0 <? len []) with false. cbv iota. rewrite decide_True by done. rewrite app_nil_r.
    eexists _, _. split; [done|]. split; [done|]. cbn. destruct (Z.eqb_spec (MaxSize q) (-1)); lia. }
  assert (0 < len p) by (destruct p; [done|cbn; lia]). zsimp.
  destruct (buffer_served _ _ _ _ _ Hq) as (b & -> & Hb & Hc). cbn [exec_bind]. cbn [MaxSize set_buff].
  pose proof (served_buff _ _ _ _ _ _ Hq Hb _ _ _ Hc) as Hq'. unfold allowed in *.
  destruct (Z.eqb_spec (MaxSize q) (-1)) as [E|E].
  - zsimp. rewrite decide_False by done. destruct (buffered_Write_served _ _ _ _ _ _ Hq') as (q' & w' & -> & Hq'' & Hm').
    eexists _, _. split; [done|]. split; [done|]. by rewrite Hm'.
  - destruct (Z.ltb_spec 0 (MaxSize q)) as [Hmx|Hmx].
    + set (pl := if MaxSize q <=? len p then MaxSize q else len p).
      assert (take (Z.to_nat pl) p = take (Z.to_nat (MaxSize q)) p) as ->.
      { unfold pl. destruct (Z.leb_spec (MaxSize q) (len p)); [done|]. by rewrite !take_ge by lia. }
      set (a := take (Z.to_nat (MaxSize q)) p) in *. assert (0 < len a) by (unfold a; rewrite length_take; lia).
      rewrite decide_False by (intros Ea; rewrite Ea in *; cbn in *; lia).
      destruct (buffered_Write_served _ _ _ _ _ _ Hq') as (q' & w' & -> & Hq'' & Hm'). cbn [exec_bind]. zsimp.
      eexists _, _. split; [done|]. cbn [MaxSize set_MaxSize set_buff] in *. split; [|lia].
      assert (len a ≤ MaxSize q) by (unfold a; rewrite length_take; lia).
      destruct Hq'' as [A B C D F]. split; [done..|cbn; lia|]. exact F.
    + assert (MaxSize q = 0) as Em by lia. rewrite Em in *. cbn [Z.to_nat take app] in *. rewrite decide_True by done.
      eexists _, _. split; [done|]. rewrite app_nil_r. split; [exact Hq'|]. exact Em.
Qed.

Lemma Flush_served w0 q w t rest :
  served w0 q w t rest →
  ∃ q' w', Flush q w = Done (None, q', w') ∧ served w0 q' w' t rest ∧ written w0 t w' ∧ takes w' rest ∧
    MaxSize q' = MaxSize q ∧ match buff q' with Some b => bw_buf b = [] | None => True end.
Proof.
  intros Hq. pose proof Hq as [Ho Hs [Hfe Hf] Hm Hst]. unfold Flush. destruct (buff q) as [b|] eqn:Eb.
  - destruct Hst as [Hb Hc]. destruct (bw_Flush_carried _ _ _ _ _ Hc) as (w' & -> & Hw & Ht & Hc'). cbn [exec_bind].
    destruct (og_Flush w' rest Ht) as [Hw2 Ht2].
    assert (flshr q = true → ∃ q' w'', Done (@None goerr, set_buff q (Some (MkBufwriter [] (bw_size b) None)), out_Flush w') = Done (None, q', w'') ∧
      served w0 q' w'' t rest ∧ written w0 t w'' ∧ takes w'' rest ∧ MaxSize q' = MaxSize q ∧ match buff q' with Some b => bw_buf b = [] | None => True end) as HF.
    { intros _. eexists _, _. split; [done|]. assert (written w0 t (out_Flush w')) by (rewrite <- (app_nil_r t); by eapply written_then).
      split_and!; [|done..]. eapply served_buff; [done|done|]. split; [done|cbn; lia|]. exists t. cbn. by rewrite app_nil_r. }
    destruct (flshr q) eqn:Efl; [by apply HF|].
    destruct (og_noerr (W := W)) as [E|E]; [|by rewrite E in Hf]. rewrite Hfe, E.
    eexists _, _. split; [done|]. split_and!; [|done..]. by eapply served_buff.
  - destruct Hst as [Hw Ht]. eexists _, _. split; [done|]. split_and!; [|done..|by rewrite Eb]. split; [done..|]. by rewrite Eb.
Qed.

Lemma ReadFrom_served {R} `{ByteSource R} fuel w0 q w t (r : R) bs rest :
  served w0 q w t (bs ++ rest) → (rest = []) → bpending r bs → (length bs < fuel)%nat →
  ∃ q' w', ReadFrom fuel q w r = Done (len bs, None, q', w') ∧ served w0 q' w' (t ++ bs) [] ∧ MaxSize q' = MaxSize q.
Proof.
  intros Hq -> Hr Hf. rewrite app_nil_r in Hq. unfold ReadFrom. rewrite (sv_open _ _ _ _ _ Hq).
  assert (∃ q1 w1, (match buff q with Some _ => Flush q w | None => Done (None, q, w) end) = Done (@None goerr, q1, w1) ∧ served w0 q1 w1 t bs ∧
    written w0 t w1 ∧ takes w1 bs ∧ MaxSize q1 = MaxSize q ∧ match buff q1 with Some b => bw_buf b = [] | None => True end) as (q1 & w1 & -> & Hq1 & Hw1 & Ht1 & Hm1 & Hb1).
  { destruct (buff q) eqn:Eb.
    - destruct (Flush_served _ _ _ _ _ Hq) as (q1 & w1 & E & ?). eauto 8.
    - pose proof (sv_state _ _ _ _ _ Hq) as Hst. rewrite Eb in Hst. destruct Hst. eexists _, _. split; [done|]. split_and!; try done. by rewrite Eb. }
  cbn [exec_bind]. destruct (ReadWriteToFunc_spec og_count fuel w1 r bs Hr Ht1 Hf) as (w2 & r2 & -> & Hw2 & Ht2 & _). cbn [exec_bind].
  eexists _, _. split; [done|]. split; [|done]. destruct Hq1 as [A B C D F]. split; [done..|].
  assert (written w0 (t ++ bs) w2) by by eapply written_then.
  destruct (buff q1) as [b|]; [|done]. destruct F as [Hz [He Hs (out & Ho & Eo & _)]]. rewrite Hb1, app_nil_r in *. subst out.
  split; [done|]. split; [done|by rewrite Hb1|]. exists (t ++ bs). rewrite Hb1, !app_nil_r. done.
Qed.

Lemma Writes_served w0 q w t ps rest :
  served w0 q w t (concat (rations (MaxSize q) ps) ++ rest) →
  ∃ q' w', Writes q w ps = Done (map ration_answer (rations (MaxSize q) ps), q', w') ∧
    served w0 q' w' (t ++ concat (rations (MaxSize q) ps)) rest.
Proof.
  revert q w t. induction ps as [|p ps IH]; intros q w t Hq.
  - eexists _, _. split; [done|]. by rewrite app_nil_r.
  - cbn [rations concat Writes map] in *. fold (allowed q p) in *. rewrite <- app_assoc in Hq.
    destruct (Write_served _ _ _ _ _ _ Hq) as (q1 & w1 & -> & Hq1 & Hm). cbn [exec_bind].
    rewrite <- Hm in Hq1 |- *. destruct (IH q1 w1 (t ++ allowed q p)) as (q2 & w2 & -> & Hq2); [done|]. cbn [exec_bind].
    eexists _, _. split; [done|]. by rewrite <- app_assoc in Hq2.
Qed.

(** Runes one by one, to a writer without a largest size. *)
Lemma print_runes_served {RR} `{RuneSource RR} n w0 q w t (r : RR) rs rest :
  served w0 q w t (encode_all rs ++ rest) → MaxSize q = -1 → pending r rs → valid_runes rs → (length rs < n)%nat →
  ∃ q' w', print_runes n q w r = Done (None, q', w') ∧ served w0 q' w' (t ++ encode_all rs) rest ∧ MaxSize q' = -1.
Proof.
  revert q w t r rs. induction n as [|n IH]; intros q w t r rs Hq Hm Hr Hv Hn; [lia|]. cbn [print_runes]. destruct rs as [|x rs].
  - destruct (pending_nil r Hr) as (y & r' & -> & _). cbn [exec_bind]. change (0 <? 0) with false. cbn [andb exec_bind].
    eexists _, _. split; [done|]. by rewrite app_nil_r.
  - destruct (pending_cons r x rs Hr) as (k & r' & -> & Hk & Hr'). cbn [exec_bind]. zsimp.
    change (bool_decide (None = None)) with true. cbn [andb orb]. inversion_clear Hv as [|?? Hx Hv']. unfold Write_runes. rewrite RunesToUTF8_valid by (by constructor). cbn [exec_bind].
    change (encode_all (x :: rs)) with (utf8.encode x ++ encode_all rs) in *. change (encode_all [x]) with (utf8.encode x ++ []) in *.
    rewrite app_nil_r, <- app_assoc in *.
    destruct (Write_served w0 q w t (utf8.encode x) (encode_all rs ++ rest)) as (q1 & w1 & -> & Hq1 & Hm1).
    { unfold allowed. by rewrite Hm. }
    unfold allowed in *. rewrite Hm in *. change (-1 =? -1) with true in *. cbv iota in *. cbn [exec_bind].
    rewrite decide_False. 2: { pose proof (encode_nonempty x). done. }
    destruct (IH q1 w1 (t ++ utf8.encode x) r' rs Hq1 Hm1 Hr' Hv') as (q2 & w2 & -> & Hq2 & Hm2); [cbn in Hn; lia|].
    rewrite app_assoc. eauto.
Qed.

Lemma Close_served w0 q w t rest : served w0 q w t rest → ∃ q' w', Close q w = Done (q', w') ∧ written w0 t w' ∧ takes w' rest.
Proof.
  intros Hq. unfold Close. destruct (buff q) as [b|] eqn:Eb.
  - destruct (Flush_served _ _ _ _ _ Hq) as (q1 & w1 & -> & _ & Hw & Ht & _). cbn [exec_bind]. eauto.
  - pose proof (sv_state _ _ _ _ _ Hq) as Hst. rewrite Eb in Hst. destruct Hst. cbn [exec_bind]. eauto.
Qed.

(** [BPrint] of one reader, whether it can read runes or not, copies it. *)
Lemma BPrint_served {R RR X} `{!ByteReader R} `{!ByteReader RR} `{!RuneReader RR} `{ByteSource X} fuel w0 q w t bs (d : warg R RR) (x : X) :
  served w0 q w t bs → bpending x bs → (length bs < fuel)%nat →
  (∀ q w err, Fbprint_arg fuel q w err d = go_on (print_from fuel q w x)) →
  ∃ q' w', BPrint fuel q w [d] = Done (None, q', w') ∧ served w0 q' w' (t ++ bs) [].
Proof.
  intros Hq Hx Hf Hd. unfold BPrint. cbn [Fbprint]. rewrite Hd. unfold print_from.
  destruct (ReadFrom_served fuel w0 q w t x bs []) as (q1 & w1 & -> & Hq1 & _); [by rewrite app_nil_r|done..|]. cbn [exec_bind go_on].
  unfold flush_if. cbn [exec_bind]. rewrite bool_decide_eq_true_2 by done. cbn [eqb].
  destruct (Flush_served _ _ _ _ _ Hq1) as (q2 & w2 & -> & Hq2 & _). eauto.
Qed.

(** [Fprint] and [Print] of one rune reader write its runes, to a writer without a largest size. *)
Lemma Fprint_served {R RR} `{!ByteReader R} `{!ByteReader RR} `{RuneSource RR} fuel w0 q w t (r : RR) rs rest :
  served w0 q w t (encode_all rs ++ rest) → MaxSize q = -1 → pending r rs → valid_runes rs → (length rs < fuel)%nat →
  ∃ q' w', Fprint (R := R) fuel q w None [WRuneReader r] = Done (None, q', w') ∧ served w0 q' w' (t ++ encode_all rs) rest ∧ MaxSize q' = -1.
Proof.
  intros Hq Hm Hr Hv Hf. cbn [Fprint Fprint_arg]. destruct (print_runes_served fuel w0 q w t r rs rest Hq Hm Hr Hv Hf) as (q' & w' & -> & ?).
  cbn [exec_bind or_break]. rewrite bool_decide_eq_false_2 by (by intros []). eauto.
Qed.

Lemma Print_served {R RR} `{!ByteReader R} `{!ByteReader RR} `{RuneSource RR} fuel w0 q w t (r : RR) rs rest :
  served w0 q w t (encode_all rs ++ rest) → MaxSize q = -1 → pending r rs → valid_runes rs → (length rs < fuel)%nat →
  ∃ q' w', Print (R := R) fuel q w [WRuneReader r] = Done (None, q', w') ∧ served w0 q' w' (t ++ encode_all rs) rest.
Proof.
  intros Hq Hm Hr Hv Hf. unfold Print.
  destruct (Fprint_served (R := R) fuel w0 q w t r rs rest Hq Hm Hr Hv Hf) as (q1 & w1 & -> & Hq1 & _). unfold flush_if. cbn [exec_bind].
  rewrite bool_decide_eq_true_2 by done. cbn [eqb]. destruct (Flush_served _ _ _ _ _ Hq1) as (q2 & w2 & -> & Hq2 & _). eauto.
Qed.
End writer_theory.

(** ** The property *)

(** C10: a new writer over a response, told a largest size or not, passes on exactly the
    first bytes of what is written to it, up to that size, whatever pieces they are written
    in; every write answers how many of its bytes count, with the end once none do; after
    Flush all of them are in the response and nothing is held back. *)
Theorem writer_delivers (w : response) m ps :
  -1 ≤ m → let total := if m =? -1 then concat ps else take (Z.to_nat m) (concat ps) in
  response_takes (sent w) (len total) →
  ∃ q1 w1 q2 w2,
    Writes (MaxWriteSize (NewWriter (W := response)) m).2 w ps = Done (map ration_answer (rations m ps), q1, w1) ∧
    Flush q1 w1 = Done (None, q2, w2) ∧
    rs_body w2 = rs_body w ++ total ∧ match buff q2 with Some b => bw_buf b = [] | None => True end.
Proof.
  intros Hm total Ht. set (q := (MaxWriteSize NewWriter m).2).
  assert (MaxSize q = m) as Eq by (unfold q, MaxWriteSize; cbn; done).
  assert (served w q w [] (concat (rations m ps) ++ [])) as Hq.
  { rewrite app_nil_r, rations_concat by done. fold total. pose proof (NewWriter_served w total Ht) as [A B C D F].
    split; [done..|by rewrite Eq|done]. }
  rewrite <- Eq in Hq. destruct (Writes_served _ _ _ _ _ _ Hq) as (q1 & w1 & E1 & Hq1). rewrite Eq in *.
  destruct (Flush_served _ _ _ _ _ Hq1) as (q2 & w2 & E2 & _ & Hw & _ & _ & Hb). exists q1, w1, q2, w2.
  split_and!; [done|done| |done]. rewrite rations_concat in Hw by done. fold total in Hw. cbn [app] in Hw.
  cbn [written og_sink response_OutgoingSink response_sink] in Hw.
  assert (rs_body (sent w2) = rs_body (sent w) ++ total) as Hbody by by rewrite Hw.
  assert (∀ v, rs_body (sent v) = rs_body v) as Hs.
  { intros v. unfold sent. destruct (rs_status v) eqn:Ev; [done|]. unfold response_WriteHeader. rewrite Ev.
    change ((200 <? 100) || (999 <? 200)) with false. cbv iota. by destruct (ParseInt _). }
  by rewrite !Hs in Hbody.
Qed.

Lemma writer_delivers_witness :
  ∃ q1 w1 q2 w2,
    Writes (MaxWriteSize (NewWriter (W := response)) 4).2 (new_response (Some 4)) [[97; 98; 99]; [100; 101]; [102]] =
      Done ([(3, None); (1, None); (0, Some EOF)], q1, w1) ∧
    Flush q1 w1 = Done (None, q2, w2) ∧ rs_body w2 = [97; 98; 99; 100] ∧ match buff q2 with Some b => bw_buf b = [] | None => True end.
Proof. apply (writer_delivers (new_response (Some 4)) 4 [[97; 98; 99]; [100; 101]; [102]]); [lia|]. split; vm_compute; (done || discriminate). Defined.

(** What [ReadFrom] copies, with [Print] of a reader, counts for no largest size. *)
Example ReadFrom_past_the_size :
  match BPrint (RR := option BuffReader.BuffReader) 5 (MaxWriteSize (NewWriter (W := response)) 1).2 (new_response None)
          [WReader (os_Open [97; 98; 99])] with
  | Done (err, q, w) => Done (err, MaxSize q, rs_body w)
  | _ => Panic
  end = Done (None, 1, [97; 98; 99]).
Proof. vm_compute. reflexivity. Qed.

(** A largest size can be told once: when it is used up, another is refused. *)
Example MaxWriteSize_once :
  let q := (MaxWriteSize (NewWriter (W := response)) 0).2 in MaxWriteSize q 10 = (false, q).
Proof. reflexivity. Qed.

(** [Println] flushes what failed and leaves what did not in the buffer. *)
Example Println_keeps :
  match Println (R := osfile) (RR := option BuffReader.BuffReader) 5 (NewWriter (W := response)) (new_response None) [WString [104; 105]] with
  | Done (err, q, w) => Done (err, option_map bw_buf (buff q), rs_body w)
  | _ => Panic
  end = Done (None, Some [104; 105; 13; 10], []).
Proof. vm_compute. reflexivity. Qed.

(** A range that is no number is read as the beginning, one without a beginning or for
    the last bytes as none. *)
Example range_of_beginning : range_of (text "bytes=100-199") = (text "bytes", 100).
Proof. reflexivity. Qed.
Example range_of_no_number : range_of (text "bytes=abc-") = (text "bytes", 0).
Proof. reflexivity. Qed.
Example range_of_last : range_of (text "bytes=-500") = (text "bytes", -1).
Proof. reflexivity. Qed.
Example range_of_large : range_of (text "bytes=99999999999999999999-") = (text "bytes", 9223372036854775807).
Proof. reflexivity. Qed.
