(* ===== verification/Mimetypes.v ===== *)
(** src/mimes/mimetypes.txt, the table of types that src/mimes/mimetypes.go embeds, line by
    line; no newline ends the last one.  Twelve of its lines end in a tab. *)

From S2P Require Import Prelude Runes GoStrings Paths.
From stdpp Require Import strings.
#[local] Open Scope string_scope.

Definition mimetypes_1 : list string := [
"MPeg 3 Audio	audio/mpeg	.mp3	MPeg 3 Audio format";
"Web Open Font Format	font/woff2	.woff2	Wikipedia: Web Open Font Format";
"Native FLAC format	audio/flac	.flac	FLAC Streaming format";
"Web Assembler Source File	application/wasm	.wasm	Web Assembler";
"3D Crossword Plugin	application/vnd.hzn-3d-crossword	.x3d	IANA: 3D Crossword Plugin";
"3GP	video/3gpp	.3gp	Wikipedia: 3GP";
"3GP2	video/3gpp2	.3g2	Wikipedia: 3G2";
"3GPP MSEQ File	application/vnd.mseq	.mseq	IANA: 3GPP MSEQ File";
"3M Post It Notes	application/vnd.3m.post-it-notes	.pwn	IANA: 3M Post It Notes";
"3rd Generation Partnership Project - Pic Large	application/vnd.3gpp.pic-bw-large	.plb	3GPP";
"3rd Generation Partnership Project - Pic Small	application/vnd.3gpp.pic-bw-small	.psb	3GPP";
"3rd Generation Partnership Project - Pic Var	application/vnd.3gpp.pic-bw-var	.pvb	3GPP";
"3rd Generation Partnership Project - Transaction Capabilities Application Part	application/vnd.3gpp2.tcap	.tcap	3GPP";
"7-Zip	application/x-7z-compressed	.7z	Wikipedia: 7-Zip";
"AbiWord	application/x-abiword	.abw	Wikipedia: AbiWord";
"Ace Archive	application/x-ace-compressed	.ace	Wikipedia: ACE";
"Active Content Compression	application/vnd.americandynamics.acc	.acc	IANA: Active Content Compression";
"ACU Cobol	application/vnd.acucobol	.acu	IANA: ACU Cobol";
"ACU Cobol	application/vnd.acucorp	.atc	IANA: ACU Cobol";
"Adaptive differential pulse-code modulation	audio/adpcm	.adp	Wikipedia: ADPCM";
"Adobe (Macropedia) Authorware - Binary File	application/x-authorware-bin	.aab	Wikipedia: Authorware";
"Adobe (Macropedia) Authorware - Map	application/x-authorware-map	.aam	Wikipedia: Authorware";
"Adobe (Macropedia) Authorware - Segment File	application/x-authorware-seg	.aas	Wikipedia: Authorware";
"Adobe AIR Application	application/vnd.adobe.air-application-installer-package+zip	.air	Building AIR Applications";
"Adobe Flash	application/x-shockwave-flash	.swf	Wikipedia: Adobe Flash";
"Adobe Flex Project	application/vnd.adobe.fxp	.fxp	IANA: Adobe Flex Project";
"Adobe Portable Document Format	application/pdf	.pdf	Adobe PDF";
"Adobe PostScript Printer Description File Format	application/vnd.cups-ppd	.ppd	IANA: Cups";
"Adobe Shockwave Player	application/x-director	.dir	Wikipedia: Adobe Shockwave Player";
"Adobe XML Data Package	application/vnd.adobe.xdp+xml	.xdp	Wikipedia: XML Data Package";
"Adobe XML Forms Data Format	application/vnd.adobe.xfdf	.xfdf	Wikipedia: XML Portable Document Format";
"Advanced Audio Coding (AAC)	audio/x-aac	.aac	Wikipedia: AAC";
"Ahead AIR Application	application/vnd.ahead.space	.ahead	IANA: Ahead AIR Application";
"AirZip FileSECURE	application/vnd.airzip.filesecure.azf	.azf	IANA: AirZip";
"AirZip FileSECURE	application/vnd.airzip.filesecure.azs	.azs	IANA: AirZip";
"Amazon Kindle eBook format	application/vnd.amazon.ebook	.azw	Kindle Direct Publishing";
"AmigaDE	application/vnd.amiga.ami	.ami	IANA: Amiga";
"Andrew Toolkit	application/andrew-inset	N/A	IANA - Andrew Inset";
"Android Package Archive	application/vnd.android.package-archive	.apk	Wikipedia: APK File Format";
"ANSER-WEB Terminal Client - Certificate Issue	application/vnd.anser-web-certificate-issue-initiation	.cii	IANA: ANSWER-WEB";
"ANSER-WEB Terminal Client - Web Funds Transfer	application/vnd.anser-web-funds-transfer-initiation	.fti	IANA: ANSWER-WEB";
"Antix Game Player	application/vnd.antix.game-component	.atx	IANA: Antix Game Component";
"Apple Disk Image	application/x-apple-diskimage	.dmg	Apple Disk Image";
"Apple Installer Package	application/vnd.apple.installer+xml	.mpkg	IANA: Apple Installer";
"Applixware	application/applixware	.aw	Vistasource";
"Archipelago Lesson Player	application/vnd.hhe.lesson-player	.les	IANA: Archipelago Lesson Player";
"Archive document - Multiple Fils Embedded	application/x-freearc	.arc	FreeArc";
"Arista Networks Software Image	application/vnd.aristanetworks.swi	.swi	IANA: Arista Networks Software Image";
"Assembler Source File	text/x-asm	.s	Wikipedia: Assembly";
"Atom Publishing Protocol	application/atomcat+xml	.atomcat	RFC 5023";
"Atom Publishing Protocol Service Document	application/atomsvc+xml	.atomsvc	RFC 5023";
"Atom Syndication Format	application/atom+xml	.atom, .xml	RFC 4287";
"Attribute Certificate	application/pkix-attr-cert	.ac	RFC 5877";
"Audio Interchange File Format	audio/x-aiff	.aif	Wikipedia: Audio Interchange File Format";
"Audio Video Interleave (AVI)	video/x-msvideo	.avi	Wikipedia: AVI";
"Audiograph	application/vnd.audiograph	.aep	IANA: Audiograph";
"AutoCAD DXF	image/vnd.dxf	.dxf	Wikipedia: AutoCAD DXF";
"Autodesk Design Web Format (DWF)	model/vnd.dwf	.dwf	Wikipedia: Design Web Format";
"AV1 Image File	image/avif	.avif	AV1 Image File Format";
"BAS Partitur Format	text/plain-bas	.par	Phonetik BAS";
"Binary CPIO Archive	application/x-bcpio	.bcpio	Wikipedia: cpio";
"Binary Data	application/octet-stream	.bin	";
"Bitmap Image File	image/bmp	.bmp	Wikipedia: BMP File Format";
"BitTorrent	application/x-bittorrent	.torrent	Wikipedia: BitTorrent";
"Blackberry COD File	application/vnd.rim.cod	.cod	";
"Blueice Research Multipass	application/vnd.blueice.multipass	.mpm	IANA: Multipass";
"BMI Drawing Data Interchange	application/vnd.bmi	.bmi	IANA: BMI";
"Bourne Shell Script	application/x-sh	.sh	Wikipedia: Bourne Shell";
"BTIF	image/prs.btif	.btif	IANA: BTIF";
"BusinessObjects	application/vnd.businessobjects	.rep	IANA: BusinessObjects";
"Bzip Archive	application/x-bzip	.bz	Wikipedia: Bzip";
"Bzip2 Archive	application/x-bzip2	.bz2	Wikipedia: Bzip";
"C Shell Script	application/x-csh	.csh	Wikipedia: C Shell";
"C Source File	text/x-c	.c	Wikipedia: C Programming Language";
"CambridgeSoft Chem Draw	application/vnd.chemdraw+xml	.cdxml	IANA: Chem Draw";
"Cascading Style Sheets (CSS)	text/css	.css	Wikipedia: CSS";
"CD Audio	application/x-cdf	.cda	Wikipedia: CDA File";
"ChemDraw eXchange file	chemical/x-cdx	.cdx	ChemDraw eXchange file";
"Chemical Markup Language	chemical/x-cml	.cml	Wikipedia: Chemical Markup Language";
"Chemical Style Markup Language	chemical/x-csml	.csml	Wikipedia: Chemical Style Markup Language";
"CIM Database	application/vnd.contact.cmsg	.cdbcmsg	IANA: CIM Database";
"Claymore Data Files	application/vnd.claymore	.cla	IANA: Claymore";
"Clonk Game	application/vnd.clonk.c4group	.c4g	IANA: Clonk";
"Close Captioning - Subtitle	image/vnd.dvb.subtitle	.sub	Wikipedia: Closed Captioning";
"Cloud Data Management Interface (CDMI) - Capability	application/cdmi-capability	.cdmia	RFC 6208";
"Cloud Data Management Interface (CDMI) - Contaimer	application/cdmi-container	.cdmic	RFC 6209";
"Cloud Data Management Interface (CDMI) - Domain	application/cdmi-domain	.cdmid	RFC 6210";
"Cloud Data Management Interface (CDMI) - Object	application/cdmi-object	.cdmio	RFC 6211";
"Cloud Data Management Interface (CDMI) - Queue	application/cdmi-queue	.cdmiq	RFC 6212";
"ClueTrust CartoMobile - Config	application/vnd.cluetrust.cartomobile-config	.c11amc	IANA: CartoMobile";
"ClueTrust CartoMobile - Config Package	application/vnd.cluetrust.cartomobile-config-pkg	.c11amz	IANA: CartoMobile";
"CMU Image	image/x-cmu-raster	.ras	";
"COLLADA	model/vnd.collada+xml	.dae	IANA: COLLADA";
"Comma-Seperated Values	text/csv	.csv	Wikipedia: CSV";
"Compact Pro	application/mac-compactpro	.cpt	Compact Pro";
"Compiled Wireless Markup Language (WMLC)	application/vnd.wap.wmlc	.wmlc	IANA: WMLC";
"Computer Graphics Metafile	image/cgm	.cgm	Wikipedia: Computer Graphics Metafile";
"CoolTalk	x-conference/x-cooltalk	.ice	Wikipedia: CoolTalk";
"Corel Metafile Exchange (CMX)	image/x-cmx	.cmx	Wikipedia: CorelDRAW";
"CorelXARA	application/vnd.xara	.xar	IANA: CorelXARA"].

Definition mimetypes_2 : list string := [
"CosmoCaller	application/vnd.cosmocaller	.cmc	IANA: CosmoCaller";
"CPIO Archive	application/x-cpio	.cpio	Wikipedia: cpio";
"CrickSoftware - Clicker	application/vnd.crick.clicker	.clkx	IANA: Clicker";
"CrickSoftware - Clicker - Keyboard	application/vnd.crick.clicker.keyboard	.clkk	IANA: Clicker";
"CrickSoftware - Clicker - Palette	application/vnd.crick.clicker.palette	.clkp	IANA: Clicker";
"CrickSoftware - Clicker - Template	application/vnd.crick.clicker.template	.clkt	IANA: Clicker";
"CrickSoftware - Clicker - Wordbank	application/vnd.crick.clicker.wordbank	.clkw	IANA: Clicker";
"Critical Tools - PERT Chart EXPERT	application/vnd.criticaltools.wbs+xml	.wbs	IANA: Critical Tools";
"CryptoNote	application/vnd.rig.cryptonote	.cryptonote	IANA: CryptoNote";
"Crystallographic Interchange Format	chemical/x-cif	.cif	Crystallographic Interchange Format";
"CrystalMaker Data Format	chemical/x-cmdf	.cmdf	CrystalMaker Data Format";
"CU-SeeMe	application/cu-seeme	.cu	White Pine";
"CU-Writer	application/prs.cww	.cww	";
"Curl - Applet	text/vnd.curl	.curl	Curl Applet";
"Curl - Detached Applet	text/vnd.curl.dcurl	.dcurl	Curl Detached Applet";
"Curl - Manifest File	text/vnd.curl.mcurl	.mcurl	Curl Manifest File";
"Curl - Source Code	text/vnd.curl.scurl	.scurl	Curl Source Code";
"CURL Applet	application/vnd.curl.car	.car	IANA: CURL Applet";
"CURL Applet	application/vnd.curl.pcurl	.pcurl	IANA: CURL Applet";
"CustomMenu	application/vnd.yellowriver-custom-menu	.cmp	IANA: CustomMenu";
"Data Structure for the Security Suitability of Cryptographic Algorithms	application/dssc+der	.dssc	RFC 5698";
"Data Structure for the Security Suitability of Cryptographic Algorithms	application/dssc+xml	.xdssc	RFC 5698";
"Debian Package	application/x-debian-package	.deb	Wikipedia: Debian Package";
"DECE Audio	audio/vnd.dece.audio	.uva	IANA: Dece Audio";
"DECE Graphic	image/vnd.dece.graphic	.uvi	IANA: DECE Graphic";
"DECE High Definition Video	video/vnd.dece.hd	.uvh	IANA: DECE HD Video";
"DECE Mobile Video	video/vnd.dece.mobile	.uvm	IANA: DECE Mobile Video";
"DECE MP4	video/vnd.uvvu.mp4	.uvu	IANA: DECE MP4";
"DECE PD Video	video/vnd.dece.pd	.uvp	IANA: DECE PD Video";
"DECE SD Video	video/vnd.dece.sd	.uvs	IANA: DECE SD Video";
"DECE Video	video/vnd.dece.video	.uvv	IANA: DECE Video";
"Device Independent File Format (DVI)	application/x-dvi	.dvi	Wikipedia: DVI";
"Digital Siesmograph Networks - SEED Datafiles	application/vnd.fdsn.seed	.seed	IANA: SEED";
"Digital Talking Book	application/x-dtbook+xml	.dtb	Wikipedia: EPUB";
"Digital Talking Book - Resource File	application/x-dtbresource+xml	.res	Digital Talking Book";
"Digital Video Broadcasting	application/vnd.dvb.ait	.ait	IANA: Digital Video Broadcasting";
"Digital Video Broadcasting	application/vnd.dvb.service	.svc	IANA: Digital Video Broadcasting";
"Digital Winds Music	audio/vnd.digital-winds	.eol	IANA: Digital Winds";
"DjVu	image/vnd.djvu	.djvu	Wikipedia: DjVu";
"Document Type Definition	application/xml-dtd	.dtd	W3C DTD";
"Dolby Meridian Lossless Packing	application/vnd.dolby.mlp	.mlp	IANA: Dolby Meridian Lossless Packing";
"Doom Video Game	application/x-doom	.wad	Wikipedia: Doom WAD";
"DPGraph	application/vnd.dpgraph	.dpg	IANA: DPGraph";
"DRA Audio	audio/vnd.dra	.dra	IANA: DRA";
"DreamFactory	application/vnd.dreamfactory	.dfac	IANA: DreamFactory";
"DTS Audio	audio/vnd.dts	.dts	IANA: DTS";
"DTS High Definition Audio	audio/vnd.dts.hd	.dtshd	IANA: DTS HD";
"DWG Drawing	image/vnd.dwg	.dwg	Wikipedia: DWG";
"DynaGeo	application/vnd.dynageo	.geo	IANA: DynaGeo";
"ECMAScript	application/ecmascript	.es	ECMA-357";
"EcoWin Chart	application/vnd.ecowin.chart	.mag	IANA: EcoWin Chart";
"EDMICS 2000	image/vnd.fujixerox.edmics-mmr	.mmr	IANA: EDMICS 2000";
"EDMICS 2000	image/vnd.fujixerox.edmics-rlc	.rlc	IANA: EDMICS 2000";
"Efficient XML Interchange	application/exi	.exi	Efficient XML Interchange (EXI) Best Practices";
"EFI Proteus	application/vnd.proteus.magazine	.mgz	IANA: EFI Proteus";
"Electronic Publication	application/epub+zip	.epub	Wikipedia: EPUB";
"Email Message	message/rfc822	.eml	RFC 2822";
"Enliven Viewer	application/vnd.enliven	.nml	IANA: Enliven Viewer";
"Express by Infoseek	application/vnd.is-xpr	.xpr	IANA: Express by Infoseek";
"eXtended Image File Format (XIFF)	image/vnd.xiff	.xif	IANA: XIFF";
"Extensible Forms Description Language	application/vnd.xfdl	.xfdl	IANA: Extensible Forms Description Language";
"Extensible MultiModal Annotation	application/emma+xml	.emma	EMMA: Extensible MultiModal Annotation markup language";
"EZPix Secure Photo Album	application/vnd.ezpix-album	.ez2	IANA: EZPix Secure Photo Album";
"EZPix Secure Photo Album	application/vnd.ezpix-package	.ez3	IANA: EZPix Secure Photo Album";
"FAST Search & Transfer ASA	image/vnd.fst	.fst	IANA: FAST Search & Transfer ASA";
"FAST Search & Transfer ASA	video/vnd.fvt	.fvt	IANA: FVT";
"FastBid Sheet	image/vnd.fastbidsheet	.fbs	IANA: FastBid Sheet";
"FCS Express Layout Link	application/vnd.denovo.fcselayout-link	.fe_launch	IANA: FCS Express Layout Link";
"Flash Video	video/x-f4v	.f4v	Wikipedia: Flash Video";
"Flash Video	video/x-flv	.flv	Wikipedia: Flash Video";
"FlashPix	image/vnd.fpx	.fpx	IANA: FPX";
"FlashPix	image/vnd.net-fpx	.npx	IANA: FPX";
"FLEXSTOR	text/vnd.fmi.flexstor	.flx	IANA: FLEXSTOR";
"FLI/FLC Animation Format	video/x-fli	.fli	FLI/FLC Animation Format";
"FluxTime Clip	application/vnd.fluxtime.clip	.ftc	IANA: FluxTime Clip";
"Forms Data Format	application/vnd.fdf	.fdf	IANA: Forms Data Format";
"Fortran Source File	text/x-fortran	.f	Wikipedia: Fortran";
"FrameMaker Interchange Format	application/vnd.mif	.mif	IANA: FrameMaker Interchange Format";
"FrameMaker Normal Format	application/vnd.framemaker	.fm	IANA: FrameMaker";
"FreeHand MX	image/x-freehand	.fh	Wikipedia: Macromedia Freehand";
"Friendly Software Corporation	application/vnd.fsc.weblaunch	.fsc	IANA: Friendly Software Corporation";
"Frogans Player	application/vnd.frogans.fnc	.fnc	IANA: Frogans Player";
"Frogans Player	application/vnd.frogans.ltf	.ltf	IANA: Frogans Player";
"Fujitsu - Xerox 2D CAD Data	application/vnd.fujixerox.ddd	.ddd	IANA: Fujitsu DDD";
"Fujitsu - Xerox DocuWorks	application/vnd.fujixerox.docuworks	.xdw	IANA: Docuworks";
"Fujitsu - Xerox DocuWorks Binder	application/vnd.fujixerox.docuworks.binder	.xbd	IANA: Docuworks Binder";
"Fujitsu Oasys	application/vnd.fujitsu.oasys	.oas	IANA: Fujitsu Oasys";
"Fujitsu Oasys	application/vnd.fujitsu.oasys2	.oa2	IANA: Fujitsu Oasys";
"Fujitsu Oasys	application/vnd.fujitsu.oasys3	.oa3	IANA: Fujitsu Oasys";
"Fujitsu Oasys	application/vnd.fujitsu.oasysgp	.fg5	IANA: Fujitsu Oasys";
"Fujitsu Oasys	application/vnd.fujitsu.oasysprs	.bh2	IANA: Fujitsu Oasys";
"FutureSplash Animator	application/x-futuresplash	.spl	Wikipedia: FutureSplash Animator";
"FuzzySheet	application/vnd.fuzzysheet	.fzs	IANA: FuzySheet";
"G3 Fax Image	image/g3fax	.g3	Wikipedia: G3 Fax Image";
"GameMaker ActiveX	application/vnd.gmx	.gmx	IANA: GameMaker ActiveX";
"Gen-Trix Studio	model/vnd.gtw	.gtw	IANA: GTW";
"Genomatix Tuxedo Framework	application/vnd.genomatix.tuxedo	.txd	IANA: Genomatix Tuxedo Framework";
"GeoGebra	application/vnd.geogebra.file	.ggb	IANA: GeoGebra";
"GeoGebra	application/vnd.geogebra.tool	.ggt	IANA: GeoGebra";
"Geometric Description Language (GDL)	model/vnd.gdl	.gdl	IANA: GDL"].

Definition mimetypes_3 : list string := [
"GeoMetry Explorer	application/vnd.geometry-explorer	.gex	IANA: GeoMetry Explorer";
"GEONExT and JSXGraph	application/vnd.geonext	.gxt	IANA: GEONExT and JSXGraph";
"GeoplanW	application/vnd.geoplan	.g2w	IANA: GeoplanW";
"GeospacW	application/vnd.geospace	.g3w	IANA: GeospacW";
"Ghostscript Font	application/x-font-ghostscript	.gsf	Wikipedia: Ghostscript";
"Glyph Bitmap Distribution Format	application/x-font-bdf	.bdf	Wikipedia: Glyph Bitmap Distribution Format";
"GNU Tar Files	application/x-gtar	.gtar	GNU Tar";
"GNU Texinfo Document	application/x-texinfo	.texinfo	Wikipedia: Texinfo";
"Gnumeric	application/x-gnumeric	.gnumeric	Wikipedia: Gnumeric";
"Google Earth - KML	application/vnd.google-earth.kml+xml	.kml	IANA: Google Earth";
"Google Earth - Zipped KML	application/vnd.google-earth.kmz	.kmz	IANA: Google Earth";
"GPS eXchange Format	application/gpx+xml	.gpx	GPS eXchange Format";
"GrafEq	application/vnd.grafeq	.gqf	IANA: GrafEq";
"Graphics Interchange Format	image/gif	.gif	Wikipedia: Graphics Interchange Format";
"Graphviz	text/vnd.graphviz	.gv	IANA: Graphviz";
"Groove - Account	application/vnd.groove-account	.gac	IANA: Groove";
"Groove - Help	application/vnd.groove-help	.ghf	IANA: Groove";
"Groove - Identity Message	application/vnd.groove-identity-message	.gim	IANA: Groove";
"Groove - Injector	application/vnd.groove-injector	.grv	IANA: Groove";
"Groove - Tool Message	application/vnd.groove-tool-message	.gtm	IANA: Groove";
"Groove - Tool Template	application/vnd.groove-tool-template	.tpl	IANA: Groove";
"Groove - Vcard	application/vnd.groove-vcard	.vcg	IANA: Groove";
"GZip	application/gzip	.gz	Wikipedia: GZip";
"H.261	video/h261	.h261	Wikipedia: H.261";
"H.263	video/h263	.h263	Wikipedia: H.263";
"H.264	video/h264	.h264	Wikipedia: H.264";
"Hewlett Packard Instant Delivery	application/vnd.hp-hpid	.hpid	IANA: Hewlett Packard Instant Delivery";
"Hewlett-Packard's WebPrintSmart	application/vnd.hp-hps	.hps	IANA: Hewlett-Packard's WebPrintSmart";
"Hierarchical Data Format	application/x-hdf	.hdf	Wikipedia: Hierarchical Data Format";
"Hit'n'Mix	audio/vnd.rip	.rip	IANA: Hit'n'Mix";
"Homebanking Computer Interface (HBCI)	application/vnd.hbci	.hbci	IANA: HBCI";
"HP Indigo Digital Press - Job Layout Languate	application/vnd.hp-jlyt	.jlt	IANA: HP Job Layout Language";
"HP Printer Command Language	application/vnd.hp-pcl	.pcl	IANA: HP Printer Command Language";
"HP-GL/2 and HP RTL	application/vnd.hp-hpgl	.hpgl	IANA: HP-GL/2 and HP RTL";
"HV Script	application/vnd.yamaha.hv-script	.hvs	IANA: HV Script";
"HV Voice Dictionary	application/vnd.yamaha.hv-dic	.hvd	IANA: HV Voice Dictionary";
"HV Voice Parameter	application/vnd.yamaha.hv-voice	.hvp	IANA: HV Voice Parameter";
"Hydrostatix Master Suite	application/vnd.hydrostatix.sof-data	.sfd-hdstx	IANA: Hydrostatix Master Suite";
"Hyperstudio	application/hyperstudio	.stk	IANA - Hyperstudio";
"Hypertext Application Language	application/vnd.hal+xml	.hal	IANA: HAL";
"HyperText Markup Language (HTML)	text/html	.html	Wikipedia: HTML";
"IBM DB2 Rights Manager	application/vnd.ibm.rights-management	.irm	IANA: IBM DB2 Rights Manager";
"IBM Electronic Media Management System - Secure Container	application/vnd.ibm.secure-container	.sc	IANA: EMMS";
"iCalendar	text/calendar	.ics	Wikipedia: iCalendar";
"ICC profile	application/vnd.iccprofile	.icc	IANA: ICC profile";
"Icon Image	image/x-icon	.ico	Wikipedia: ICO File Format";
"igLoader	application/vnd.igloader	.igl	IANA: igLoader";
"Image Exchange Format	image/ief	.ief	RFC 1314";
"ImmerVision PURE Players	application/vnd.immervision-ivp	.ivp	IANA: ImmerVision PURE Players";
"ImmerVision PURE Players	application/vnd.immervision-ivu	.ivu	IANA: ImmerVision PURE Players";
"IMS Networks	application/reginfo+xml	.rif	";
"In3D - 3DML	text/vnd.in3d.3dml	.3dml	IANA: In3D";
"In3D - 3DML	text/vnd.in3d.spot	.spot	IANA: In3D";
"Initial Graphics Exchange Specification (IGES)	model/iges	.igs	Wikipedia: IGES";
"Interactive Geometry Software	application/vnd.intergeo	.i2g	IANA: Interactive Geometry Software";
"Interactive Geometry Software Cinderella	application/vnd.cinderella	.cdy	IANA: Cinderella";
"Intercon FormNet	application/vnd.intercon.formnet	.xpw	IANA: Intercon FormNet";
"International Society for Advancement of Cytometry	application/vnd.isac.fcs	.fcs	IANA: International Society for Advancement of Cytometry";
"Internet Protocol Flow Information Export	application/ipfix	.ipfix	RFC 3917";
"Internet Public Key Infrastructure - Certificate	application/pkix-cert	.cer	RFC 2585";
"Internet Public Key Infrastructure - Certificate Management Protocole	application/pkixcmp	.pki	RFC 2585";
"Internet Public Key Infrastructure - Certificate Revocation Lists	application/pkix-crl	.crl	RFC 2585";
"Internet Public Key Infrastructure - Certification Path	application/pkix-pkipath	.pkipath	RFC 2585";
"IOCOM Visimeet	application/vnd.insors.igm	.igm	IANA: IOCOM Visimeet";
"IP Unplugged Roaming Client	application/vnd.ipunplugged.rcprofile	.rcprofile	IANA: IP Unplugged Roaming Client";
"iRepository / Lucidoc Editor	application/vnd.irepository.package+xml	.irp	IANA: iRepository / Lucidoc Editor";
"J2ME App Descriptor	text/vnd.sun.j2me.app-descriptor	.jad	IANA: J2ME App Descriptor";
"Java Archive	application/java-archive	.jar	Wikipedia: JAR file format";
"Java Bytecode File	application/java-vm	.class	Wikipedia: Java Bytecode";
"Java Network Launching Protocol	application/x-java-jnlp-file	.jnlp	Wikipedia: Java Web Start";
"Java Serialized Object	application/java-serialized-object	.ser	Java Serialization API";
"Java Source File	text/x-java-source,java	.java	Wikipedia: Java";
"JavaScript	application/javascript	.js	JavaScript";
"JavaScript Module	text/javascript	.mjs	Wikipedia: Javascript";
"JavaScript Module	text/javascript	.mjs	ECMAScript modules";
"JavaScript Object Notation (JSON)	application/json	.json	Wikipedia: JSON";
"Joda Archive	application/vnd.joost.joda-archive	.joda	IANA: Joda Archive";
"JPEG 2000 Compound Image File Format	video/jpm	.jpm	IANA: JPM";
"JPEG Image	image/jpeg	.jpeg, .jpg	RFC 1314";
"JPEG Image (Citrix client)	image/x-citrix-jpeg	.jpeg, .jpg	RFC 1314";
"JPEG Image (Progressive)	image/pjpeg	.pjpeg	JPEG image compression FAQ";
"JPGVideo	video/jpeg	.jpgv	RFC 3555";
"JSON - Linked Data	application/ld+json	.jsonld	Wikipedia: JSON-LD";
"Kahootz	application/vnd.kahootz	.ktz	IANA: Kahootz";
"Karaoke on Chipnuts Chipsets	application/vnd.chipnuts.karaoke-mmd	.mmd	IANA: Chipnuts Karaoke";
"KDE KOffice Office Suite - Karbon	application/vnd.kde.karbon	.karbon	IANA: KDE KOffice Office Suite";
"KDE KOffice Office Suite - KChart	application/vnd.kde.kchart	.chrt	IANA: KDE KOffice Office Suite";
"KDE KOffice Office Suite - Kformula	application/vnd.kde.kformula	.kfo	IANA: KDE KOffice Office Suite";
"KDE KOffice Office Suite - Kivio	application/vnd.kde.kivio	.flw	IANA: KDE KOffice Office Suite";
"KDE KOffice Office Suite - Kontour	application/vnd.kde.kontour	.kon	IANA: KDE KOffice Office Suite";
"KDE KOffice Office Suite - Kpresenter	application/vnd.kde.kpresenter	.kpr	IANA: KDE KOffice Office Suite";
"KDE KOffice Office Suite - Kspread	application/vnd.kde.kspread	.ksp	IANA: KDE KOffice Office Suite";
"KDE KOffice Office Suite - Kword	application/vnd.kde.kword	.kwd	IANA: KDE KOffice Office Suite";
"Kenamea App	application/vnd.kenameaapp	.htke	IANA: Kenamea App";
"Kidspiration	application/vnd.kidspiration	.kia	IANA: Kidspiration";
"Kinar Applications	application/vnd.kinar	.kne	IANA: Kina Applications";
"Kodak Storyshare	application/vnd.kodak-descriptor	.sse	IANA: Kodak Storyshare";
"Laser App Enterprise	application/vnd.las.las+xml	.lasxml	IANA: Laser App Enterprise";
"LaTeX	application/x-latex	.latex	Wikipedia: LaTeX";
"Life Balance - Desktop Edition	application/vnd.llamagraphics.life-balance.desktop	.lbd	IANA: Life Balance"].

Definition mimetypes_4 : list string := [
"Life Balance - Exchange Format	application/vnd.llamagraphics.life-balance.exchange+xml	.lbe	IANA: Life Balance";
"Lightspeed Audio Lab	application/vnd.jam	.jam	IANA: Lightspeed Audio Lab";
"Lotus 1-2-3	application/vnd.lotus-1-2-3	.123	IANA: Lotus 1-2-3";
"Lotus Approach	application/vnd.lotus-approach	.apr	IANA: Lotus Approach";
"Lotus Freelance	application/vnd.lotus-freelance	.pre	IANA: Lotus Freelance";
"Lotus Notes	application/vnd.lotus-notes	.nsf	IANA: Lotus Notes";
"Lotus Organizer	application/vnd.lotus-organizer	.org	IANA: Lotus Organizer";
"Lotus Screencam	application/vnd.lotus-screencam	.scm	IANA: Lotus Screencam";
"Lotus Wordpro	application/vnd.lotus-wordpro	.lwp	IANA: Lotus Wordpro";
"Lucent Voice	audio/vnd.lucent.voice	.lvp	IANA: Lucent Voice";
"M3U (Multimedia Playlist)	audio/x-mpegurl	.m3u	Wikipedia: M3U";
"M4v	video/x-m4v	.m4v	Wikipedia: M4v";
"Macintosh BinHex 4.0	application/mac-binhex40	.hqx	MacMIME";
"MacPorts Port System	application/vnd.macports.portpkg	.portpkg	IANA: MacPorts Port System";
"MapGuide DBXML	application/vnd.osgeo.mapguide.package	.mgp	IANA: MapGuide DBXML";
"MARC Formats	application/marc	.mrc	RFC 2220";
"MARC21 XML Schema	application/marcxml+xml	.mrcx	RFC 6207";
"Material Exchange Format	application/mxf	.mxf	RFC 4539";
"Mathematica Notebook Player	application/vnd.wolfram.player	.nbp	IANA: Mathematica Notebook Player";
"Mathematica Notebooks	application/mathematica	.ma	IANA - Mathematica";
"Mathematical Markup Language	application/mathml+xml	.mathml	W3C Math Home";
"Mbox database files	application/mbox	.mbox	RFC 4155";
"MedCalc	application/vnd.medcalcdata	.mc1	IANA: MedCalc";
"Media Server Control Markup Language	application/mediaservercontrol+xml	.mscml	RFC 5022";
"MediaRemote	application/vnd.mediastation.cdkey	.cdkey	IANA: MediaRemote";
"Medical Waveform Encoding Format	application/vnd.mfer	.mwf	IANA: Medical Waveform Encoding Format";
"Melody Format for Mobile Platform	application/vnd.mfmp	.mfm	IANA: Melody Format for Mobile Platform";
"Mesh Data Type	model/mesh	.msh	RFC 2077";
"Metadata Authority Description Schema	application/mads+xml	.mads	RFC 6207";
"Metadata Encoding and Transmission Standard	application/mets+xml	.mets	RFC 6207";
"Metadata Object Description Schema	application/mods+xml	.mods	RFC 6207";
"Metalink	application/metalink4+xml	.meta4	Wikipedia: Metalink";
"Micro CADAM Helix D&D	application/vnd.mcd	.mcd	IANA: Micro CADAM Helix D&D";
"Micrografx	application/vnd.micrografx.flo	.flo	IANA: Micrografx";
"Micrografx iGrafx Professional	application/vnd.micrografx.igx	.igx	IANA: Micrografx";
"MICROSEC e-Szign�	application/vnd.eszigno3+xml	.es3	IANA: MICROSEC e-Szign�";
"Microsoft Access	application/x-msaccess	.mdb	Wikipedia: Microsoft Access";
"Microsoft Advanced Systems Format (ASF)	video/x-ms-asf	.asf	Wikipedia: Advanced Systems Format (ASF)";
"Microsoft Application	application/x-msdownload	.exe	Wikipedia: EXE";
"Microsoft Artgalry	application/vnd.ms-artgalry	.cil	IANA: MS Artgalry";
"Microsoft Cabinet File	application/vnd.ms-cab-compressed	.cab	IANA: MS Cabinet File";
"Microsoft Class Server	application/vnd.ms-ims	.ims	IANA: MS Class Server";
"Microsoft ClickOnce	application/x-ms-application	.application	Wikipedia: ClickOnce";
"Microsoft Clipboard Clip	application/x-msclip	.clp	Wikipedia: Clipboard";
"Microsoft Document Imaging Format	image/vnd.ms-modi	.mdi	Wikipedia: Microsoft Document Image Format";
"Microsoft Embedded OpenType	application/vnd.ms-fontobject	.eot	IANA: MS Embedded OpenType";
"Microsoft Excel	application/vnd.ms-excel	.xls	IANA: MS Excel";
"Microsoft Excel - Add-In File	application/vnd.ms-excel.addin.macroenabled.12	.xlam	IANA: MS Excel";
"Microsoft Excel - Binary Workbook	application/vnd.ms-excel.sheet.binary.macroenabled.12	.xlsb	IANA: MS Excel";
"Microsoft Excel - Macro-Enabled Template File	application/vnd.ms-excel.template.macroenabled.12	.xltm	IANA: MS Excel";
"Microsoft Excel - Macro-Enabled Workbook	application/vnd.ms-excel.sheet.macroenabled.12	.xlsm	IANA: MS Excel";
"Microsoft Html Help File	application/vnd.ms-htmlhelp	.chm	IANA:MS Html Help File";
"Microsoft Information Card	application/x-mscardfile	.crd	Wikipedia: Information Card";
"Microsoft Learning Resource Module	application/vnd.ms-lrm	.lrm	IANA: MS Learning Resource Module";
"Microsoft MediaView	application/x-msmediaview	.mvb	Windows Help";
"Microsoft Money	application/x-msmoney	.mny	Wikipedia: Microsoft Money";
"Microsoft Office - OOXML - Presentation	application/vnd.openxmlformats-officedocument.presentationml.presentation	.pptx	IANA: OOXML - Presentation";
"Microsoft Office - OOXML - Presentation (Slide)	application/vnd.openxmlformats-officedocument.presentationml.slide	.sldx	IANA: OOXML - Presentation";
"Microsoft Office - OOXML - Presentation (Slideshow)	application/vnd.openxmlformats-officedocument.presentationml.slideshow	.ppsx	IANA: OOXML - Presentation";
"Microsoft Office - OOXML - Presentation Template	application/vnd.openxmlformats-officedocument.presentationml.template	.potx	IANA: OOXML - Presentation Template";
"Microsoft Office - OOXML - Spreadsheet	application/vnd.openxmlformats-officedocument.spreadsheetml.sheet	.xlsx	IANA: OOXML - Spreadsheet";
"Microsoft Office - OOXML - Spreadsheet Template	application/vnd.openxmlformats-officedocument.spreadsheetml.template	.xltx	IANA: OOXML - Spreadsheet Template";
"Microsoft Office - OOXML - Word Document	application/vnd.openxmlformats-officedocument.wordprocessingml.document	.docx	IANA: OOXML - Word Document";
"Microsoft Office - OOXML - Word Document Template	application/vnd.openxmlformats-officedocument.wordprocessingml.template	.dotx	IANA: OOXML - Word Document Template";
"Microsoft Office Binder	application/x-msbinder	.obd	Wikipedia: Microsoft Shared Tools";
"Microsoft Office System Release Theme	application/vnd.ms-officetheme	.thmx	IANA: MS Office System Release Theme";
"Microsoft OneNote	application/onenote	.onetoc	MS OneNote 2010";
"Microsoft PlayReady Ecosystem	audio/vnd.ms-playready.media.pya	.pya	IANA: Microsoft PlayReady Ecosystem";
"Microsoft PlayReady Ecosystem Video	video/vnd.ms-playready.media.pyv	.pyv	IANA: Microsoft PlayReady Ecosystem";
"Microsoft PowerPoint	application/vnd.ms-powerpoint	.ppt	IANA: MS PowerPoint";
"Microsoft PowerPoint - Add-in file	application/vnd.ms-powerpoint.addin.macroenabled.12	.ppam	IANA: MS PowerPoint";
"Microsoft PowerPoint - Macro-Enabled Open XML Slide	application/vnd.ms-powerpoint.slide.macroenabled.12	.sldm	IANA: MS PowerPoint";
"Microsoft PowerPoint - Macro-Enabled Presentation File	application/vnd.ms-powerpoint.presentation.macroenabled.12	.pptm	IANA: MS PowerPoint";
"Microsoft PowerPoint - Macro-Enabled Slide Show File	application/vnd.ms-powerpoint.slideshow.macroenabled.12	.ppsm	IANA: MS PowerPoint";
"Microsoft PowerPoint - Macro-Enabled Template File	application/vnd.ms-powerpoint.template.macroenabled.12	.potm	IANA: MS PowerPoint";
"Microsoft Project	application/vnd.ms-project	.mpp	IANA: MS PowerPoint";
"Microsoft Publisher	application/x-mspublisher	.pub	Wikipedia: Microsoft Publisher";
"Microsoft Schedule+	application/x-msschedule	.scd	Wikipedia: Microsoft Schedule Plus";
"Microsoft Silverlight	application/x-silverlight-app	.xap	Wikipedia: Silverlight";
"Microsoft Trust UI Provider - Certificate Trust Link	application/vnd.ms-pki.stl	.stl	IANA: MS Trust UI Provider";
"Microsoft Trust UI Provider - Security Catalog	application/vnd.ms-pki.seccat	.cat	IANA: MS Trust UI Provider";
"Microsoft Visio	application/vnd.visio	.vsd	IANA: Visio";
"Microsoft Visio 2013	application/vnd.visio2013	.vsdx	IANA: Visio";
"Microsoft Windows Media	video/x-ms-wm	.wm	Wikipedia: Advanced Systems Format (ASF)";
"Microsoft Windows Media Audio	audio/x-ms-wma	.wma	Wikipedia: Windows Media Audio";
"Microsoft Windows Media Audio Redirector	audio/x-ms-wax	.wax	Windows Media Metafiles";
"Microsoft Windows Media Audio/Video Playlist	video/x-ms-wmx	.wmx	Wikipedia: Advanced Systems Format (ASF)";
"Microsoft Windows Media Player Download Package	application/x-ms-wmd	.wmd	Wikipedia: Windows Media Player";
"Microsoft Windows Media Player Playlist	application/vnd.ms-wpl	.wpl	IANA: MS Windows Media Player Playlist";
"Microsoft Windows Media Player Skin Package	application/x-ms-wmz	.wmz	Wikipedia: Windows Media Player";
"Microsoft Windows Media Video	video/x-ms-wmv	.wmv	Wikipedia: Advanced Systems Format (ASF)";
"Microsoft Windows Media Video Playlist	video/x-ms-wvx	.wvx	Wikipedia: Advanced Systems Format (ASF)";
"Microsoft Windows Metafile	application/x-msmetafile	.wmf	Wikipedia: Windows Metafile";
"Microsoft Windows Terminal Services	application/x-msterminal	.trm	Wikipedia: Terminal Server";
"Microsoft Word	application/msword	.doc	Wikipedia: Microsoft Word";
"Microsoft Word - Macro-Enabled Document	application/vnd.ms-word.document.macroenabled.12	.docm	IANA: MS Word";
"Microsoft Word - Macro-Enabled Template	application/vnd.ms-word.template.macroenabled.12	.dotm	IANA: MS Word";
"Microsoft Wordpad	application/x-mswrite	.wri	Wikipedia: Wordpad";
"Microsoft Works	application/vnd.ms-works	.wps	IANA: MS Works";
"Microsoft XAML Browser Application	application/x-ms-xbap	.xbap	Wikipedia: XAML Browser"].

Definition mimetypes_5 : list string := [
"Microsoft XML Paper Specification	application/vnd.ms-xpsdocument	.xps	IANA: MS XML Paper Specification";
"MIDI	audio/midi	.midi	Wikipedia: MIDI";
"MIDI - Musical Instrument Digital Interface	audio/midi	.mid	Wikipedia: MIDI";
"MiniPay	application/vnd.ibm.minipay	.mpy	IANA: MiniPay";
"MO:DCA-P	application/vnd.ibm.modcap	.afp	IANA: MO:DCA-P";
"Mobile Information Device Profile	application/vnd.jcp.javame.midlet-rms	.rms	IANA: Mobile Information Device Profile";
"MobileTV	application/vnd.tmobile-livetv	.tmo	IANA: MobileTV";
"Mobipocket	application/x-mobipocket-ebook	.prc	Wikipedia: Mobipocket";
"Mobius Management Systems - Basket file	application/vnd.mobius.mbk	.mbk	IANA: Mobius Management Systems";
"Mobius Management Systems - Distribution Database	application/vnd.mobius.dis	.dis	IANA: Mobius Management Systems";
"Mobius Management Systems - Policy Definition Language File	application/vnd.mobius.plc	.plc	IANA: Mobius Management Systems";
"Mobius Management Systems - Query File	application/vnd.mobius.mqy	.mqy	IANA: Mobius Management Systems";
"Mobius Management Systems - Script Language	application/vnd.mobius.msl	.msl	IANA: Mobius Management Systems";
"Mobius Management Systems - Topic Index File	application/vnd.mobius.txf	.txf	IANA: Mobius Management Systems";
"Mobius Management Systems - UniversalArchive	application/vnd.mobius.daf	.daf	IANA: Mobius Management Systems";
"mod_fly / fly.cgi	text/vnd.fly	.fly	IANA: Fly";
"Mophun Certificate	application/vnd.mophun.certificate	.mpc	IANA: Mophun Certificate";
"Mophun VM	application/vnd.mophun.application	.mpn	IANA: Mophun VM";
"Motion JPEG 2000	video/mj2	.mj2	IANA: MJ2";
"MPEG Audio	audio/mpeg	.mpga	Wikipedia: MPGA";
"MPEG Transport Stream	video/mp2t	.ts	Wikipedia: MPEG Transport Stream";
"MPEG Url	video/vnd.mpegurl	.mxu	IANA: MPEG Url";
"MPEG Video	video/mpeg	.mpeg	Wikipedia: MPEG";
"MPEG-21	application/mp21	.m21	Wikipedia: MPEG-21";
"MPEG-4 Audio	audio/mp4	.mp4a	Wikipedia: MP4A";
"MPEG-4 Video	video/mp4	.mp4	Wikipedia: MP4";
"MPEG4	application/mp4	.mp4	RFC 4337";
"Multimedia Playlist Unicode	application/vnd.apple.mpegurl	.m3u8	Wikipedia: M3U";
"MUsical Score Interpreted Code Invented for the ASCII designation of Notation	application/vnd.musician	.mus	IANA: MUSICIAN";
"Muvee Automatic Video Editing	application/vnd.muvee.style	.msty	IANA: Muvee";
"MXML	application/xv+xml	.mxml	Wikipedia: MXML";
"N-Gage Game Data	application/vnd.nokia.n-gage.data	.ngdat	IANA: N-Gage Game Data";
"N-Gage Game Installer	application/vnd.nokia.n-gage.symbian.install	.n-gage	IANA: N-Gage Game Installer";
"Navigation Control file for XML (for ePub)	application/x-dtbncx+xml	.ncx	Wikipedia: EPUB";
"Network Common Data Form (NetCDF)	application/x-netcdf	.nc	Wikipedia: NetCDF";
"neuroLanguage	application/vnd.neurolanguage.nlu	.nlu	IANA: neuroLanguage";
"New Moon Liftoff/DNA	application/vnd.dna	.dna	IANA: New Moon Liftoff/DNA";
"NobleNet Directory	application/vnd.noblenet-directory	.nnd	IANA: NobleNet Directory";
"NobleNet Sealer	application/vnd.noblenet-sealer	.nns	IANA: NobleNet Sealer";
"NobleNet Web	application/vnd.noblenet-web	.nnw	IANA: NobleNet Web";
"Nokia Radio Application - Preset	application/vnd.nokia.radio-preset	.rpst	IANA: Nokia Radio Application";
"Nokia Radio Application - Preset	application/vnd.nokia.radio-presets	.rpss	IANA: Nokia Radio Application";
"Notation3	text/n3	.n3	Wikipedia: Notation3";
"Novadigm's RADIA and EDM products	application/vnd.novadigm.edm	.edm	IANA: Novadigm's RADIA and EDM products";
"Novadigm's RADIA and EDM products	application/vnd.novadigm.edx	.edx	IANA: Novadigm's RADIA and EDM products";
"Novadigm's RADIA and EDM products	application/vnd.novadigm.ext	.ext	IANA: Novadigm's RADIA and EDM products";
"NpGraphIt	application/vnd.flographit	.gph	IANA: FloGraphIt";
"Nuera ECELP 4800	audio/vnd.nuera.ecelp4800	.ecelp4800	IANA: ECELP 4800";
"Nuera ECELP 7470	audio/vnd.nuera.ecelp7470	.ecelp7470	IANA: ECELP 7470";
"Nuera ECELP 9600	audio/vnd.nuera.ecelp9600	.ecelp9600	IANA: ECELP 9600";
"Office Document Architecture	application/oda	.oda	RFC 2161";
"Ogg	application/ogg	.ogx	Wikipedia: Ogg";
"Ogg Audio	audio/ogg	.oga	Wikipedia: Ogg";
"Ogg Video	video/ogg	.ogv	Wikipedia: Ogg";
"OMA Download Agents	application/vnd.oma.dd2+xml	.dd2	IANA: OMA Download Agents";
"Open Document Text Web	application/vnd.oasis.opendocument.text-web	.oth	IANA: OpenDocument Text Web";
"Open eBook Publication Structure	application/oebps-package+xml	.opf	Wikipedia: Open eBook";
"Open Financial Exchange	application/vnd.intu.qbo	.qbo	IANA: Open Financial Exchange";
"Open Office Extension	application/vnd.openofficeorg.extension	.oxt	IANA: Open Office Extension";
"Open Score Format	application/vnd.yamaha.openscoreformat	.osf	IANA: Open Score Format";
"Open Web Media Project - Audio	audio/webm	.weba	WebM Project";
"Open Web Media Project - Video	video/webm	.webm	WebM Project";
"OpenDocument Chart	application/vnd.oasis.opendocument.chart	.odc	IANA: OpenDocument Chart";
"OpenDocument Chart Template	application/vnd.oasis.opendocument.chart-template	.otc	IANA: OpenDocument Chart Template";
"OpenDocument Database	application/vnd.oasis.opendocument.database	.odb	IANA: OpenDocument Database";
"OpenDocument Formula	application/vnd.oasis.opendocument.formula	.odf	IANA: OpenDocument Formula";
"OpenDocument Formula Template	application/vnd.oasis.opendocument.formula-template	.odft	IANA: OpenDocument Formula Template";
"OpenDocument Graphics	application/vnd.oasis.opendocument.graphics	.odg	IANA: OpenDocument Graphics";
"OpenDocument Graphics Template	application/vnd.oasis.opendocument.graphics-template	.otg	IANA: OpenDocument Graphics Template";
"OpenDocument Image	application/vnd.oasis.opendocument.image	.odi	IANA: OpenDocument Image";
"OpenDocument Image Template	application/vnd.oasis.opendocument.image-template	.oti	IANA: OpenDocument Image Template";
"OpenDocument Presentation	application/vnd.oasis.opendocument.presentation	.odp	IANA: OpenDocument Presentation";
"OpenDocument Presentation Template	application/vnd.oasis.opendocument.presentation-template	.otp	IANA: OpenDocument Presentation Template";
"OpenDocument Spreadsheet	application/vnd.oasis.opendocument.spreadsheet	.ods	IANA: OpenDocument Spreadsheet";
"OpenDocument Spreadsheet Template	application/vnd.oasis.opendocument.spreadsheet-template	.ots	IANA: OpenDocument Spreadsheet Template";
"OpenDocument Text	application/vnd.oasis.opendocument.text	.odt	IANA: OpenDocument Text";
"OpenDocument Text Master	application/vnd.oasis.opendocument.text-master	.odm	IANA: OpenDocument Text Master";
"OpenDocument Text Template	application/vnd.oasis.opendocument.text-template	.ott	IANA: OpenDocument Text Template";
"OpenGL Textures (KTX)	image/ktx	.ktx	KTX File Format";
"OpenOffice - Calc (Spreadsheet)	application/vnd.sun.xml.calc	.sxc	Wikipedia: OpenOffice";
"OpenOffice - Calc Template (Spreadsheet)	application/vnd.sun.xml.calc.template	.stc	Wikipedia: OpenOffice";
"OpenOffice - Draw (Graphics)	application/vnd.sun.xml.draw	.sxd	Wikipedia: OpenOffice";
"OpenOffice - Draw Template (Graphics)	application/vnd.sun.xml.draw.template	.std	Wikipedia: OpenOffice";
"OpenOffice - Impress (Presentation)	application/vnd.sun.xml.impress	.sxi	Wikipedia: OpenOffice";
"OpenOffice - Impress Template (Presentation)	application/vnd.sun.xml.impress.template	.sti	Wikipedia: OpenOffice";
"OpenOffice - Math (Formula)	application/vnd.sun.xml.math	.sxm	Wikipedia: OpenOffice";
"OpenOffice - Writer (Text - HTML)	application/vnd.sun.xml.writer	.sxw	Wikipedia: OpenOffice";
"OpenOffice - Writer (Text - HTML)	application/vnd.sun.xml.writer.global	.sxg	Wikipedia: OpenOffice";
"OpenOffice - Writer Template (Text - HTML)	application/vnd.sun.xml.writer.template	.stw	Wikipedia: OpenOffice";
"OpenType Font File	application/x-font-otf	.otf	OpenType Font File";
"Opus Audio	audio/opus	.opus	Wikipedia: Opus Audio";
"OSFPVG	application/vnd.yamaha.openscoreformat.osfpvg+xml	.osfpvg	IANA: OSFPVG";
"OSGi Deployment Package	application/vnd.osgi.dp	.dp	IANA: OSGi Deployment Package";
"PalmOS Data	application/vnd.palm	.pdb	IANA: PalmOS Data";
"Pascal Source File	text/x-pascal	.p	Wikipedia: Pascal";
"PawaaFILE	application/vnd.pawaafile	.paw	IANA: PawaaFILE";
"PCL 6 Enhanced (Formely PCL XL)	application/vnd.hp-pclxl	.pclxl	IANA: HP PCL XL";
"Pcsel eFIF File	application/vnd.picsel	.efif	IANA: Picsel eFIF File";
"PCX Image	image/x-pcx	.pcx	Wikipedia: PCX";
"Photoshop Document	image/vnd.adobe.photoshop	.psd	Wikipedia: Photoshop Document"].

Definition mimetypes_6 : list string := [
"PICSRules	application/pics-rules	.prf	W3C PICSRules";
"PICT Image	image/x-pict	.pic	Wikipedia: PICT";
"pIRCh	application/x-chat	.chat	Wikipedia: pIRCh";
"PKCS #10 - Certification Request Standard	application/pkcs10	.p10	RFC 2986";
"PKCS #12 - Personal Information Exchange Syntax Standard	application/x-pkcs12	.p12	RFC 2986";
"PKCS #7 - Cryptographic Message Syntax Standard	application/pkcs7-mime	.p7m	RFC 2315";
"PKCS #7 - Cryptographic Message Syntax Standard	application/pkcs7-signature	.p7s	RFC 2315";
"PKCS #7 - Cryptographic Message Syntax Standard (Certificate Request Response)	application/x-pkcs7-certreqresp	.p7r	RFC 2986";
"PKCS #7 - Cryptographic Message Syntax Standard (Certificates)	application/x-pkcs7-certificates	.p7b	RFC 2986";
"PKCS #8 - Private-Key Information Syntax Standard	application/pkcs8	.p8	RFC 5208";
"PocketLearn Viewers	application/vnd.pocketlearn	.plf	IANA: PocketLearn Viewers";
"Portable Anymap Image	image/x-portable-anymap	.pnm	Wikipedia: Netpbm Format";
"Portable Bitmap Format	image/x-portable-bitmap	.pbm	Wikipedia: Netpbm Format";
"Portable Compiled Format	application/x-font-pcf	.pcf	Wikipedia: Portable Compiled Format";
"Portable Font Resource	application/font-tdpfr	.pfr	RFC 3073";
"Portable Game Notation (Chess Games)	application/x-chess-pgn	.pgn	Wikipedia: Portable Game Notationb";
"Portable Graymap Format	image/x-portable-graymap	.pgm	Wikipedia: Netpbm Format";
"Portable Network Graphics (PNG)	image/png	.png	RFC 2083";
"Portable Network Graphics (PNG) (Citrix client)	image/x-citrix-png	.png	RFC 2083";
"Portable Network Graphics (PNG) (x-token)	image/x-png	.png	RFC 2083";
"Portable Pixmap Format	image/x-portable-pixmap	.ppm	Wikipedia: Netpbm Format";
"Portable Symmetric Key Container	application/pskc+xml	.pskcxml	RFC 6030";
"PosML	application/vnd.ctc-posml	.pml	IANA: PosML";
"PostScript	application/postscript	.ai	Wikipedia: PostScript";
"PostScript Fonts	application/x-font-type1	.pfa	Wikipedia: PostScript Fonts";
"PowerBuilder	application/vnd.powerbuilder6	.pbd	IANA: PowerBuilder";
"Pretty Good Privacy	application/pgp-encrypted	.pgp	RFC 2015";
"Pretty Good Privacy - Signature	application/pgp-signature	.pgp	RFC 2015";
"Preview Systems ZipLock/VBox	application/vnd.previewsystems.box	.box	IANA: Preview Systems ZipLock/Vbox";
"Princeton Video Image	application/vnd.pvi.ptid1	.ptid	IANA: Princeton Video Image";
"Pronunciation Lexicon Specification	application/pls+xml	.pls	RFC 4267";
"Proprietary P&G Standard Reporting System	application/vnd.pg.format	.str	IANA: Proprietary P&G Standard Reporting System";
"Proprietary P&G Standard Reporting System	application/vnd.pg.osasli	.ei6	IANA: Proprietary P&G Standard Reporting System";
"PRS Lines Tag	text/prs.lines.tag	.dsc	IANA: PRS Lines Tag";
"PSF Fonts	application/x-font-linux-psf	.psf	PSF Fonts";
"PubliShare Objects	application/vnd.publishare-delta-tree	.qps	IANA: PubliShare Objects";
"Qualcomm's Plaza Mobile Internet	application/vnd.pmi.widget	.wg	IANA: Qualcomm's Plaza Mobile Internet";
"QuarkXpress	application/vnd.quark.quarkxpress	.qxd	IANA: QuarkXPress";
"QUASS Stream Player	application/vnd.epson.esf	.esf	IANA: QUASS Stream Player";
"QUASS Stream Player	application/vnd.epson.msf	.msf	IANA: QUASS Stream Player";
"QUASS Stream Player	application/vnd.epson.ssf	.ssf	IANA: QUASS Stream Player";
"QuickAnime Player	application/vnd.epson.quickanime	.qam	IANA: QuickAnime Player";
"Quicken	application/vnd.intu.qfx	.qfx	IANA: Quicken";
"Quicktime Video	video/quicktime	.qt	Wikipedia: Quicktime";
"RAR Archive	application/x-rar-compressed	.rar	Wikipedia: RAR";
"Real Audio Sound	audio/x-pn-realaudio	.ram	Wikipedia: RealPlayer";
"Real Audio Sound	audio/x-pn-realaudio-plugin	.rmp	Wikipedia: RealPlayer";
"Really Simple Discovery	application/rsd+xml	.rsd	Wikipedia: Really Simple Discovery";
"RealMedia	application/vnd.rn-realmedia	.rm	";
"RealVNC	application/vnd.realvnc.bed	.bed	IANA: RealVNC";
"Recordare Applications	application/vnd.recordare.musicxml	.mxl	IANA: Recordare Apps";
"Recordare Applications	application/vnd.recordare.musicxml+xml	.musicxml	IANA: Recordare Apps";
"Relax NG Compact Syntax	application/relax-ng-compact-syntax	.rnc	Relax NG";
"RemoteDocs R-Viewer	application/vnd.data-vision.rdz	.rdz	IANA: Data-Vision";
"Resource Description Framework	application/rdf+xml	.rdf	RFC 3870";
"RetroPlatform Player	application/vnd.cloanto.rp9	.rp9	IANA: RetroPlatform Player";
"RhymBox	application/vnd.jisp	.jisp	IANA: RhymBox";
"Rich Text Format	application/rtf	.rtf	Wikipedia: Rich Text Format";
"Rich Text Format (RTF)	text/richtext	.rtx	Wikipedia: Rich Text Format";
"ROUTE 66 Location Based Services	application/vnd.route66.link66+xml	.link66	IANA: ROUTE 66";
"RSS - Really Simple Syndication	application/rss+xml	.rss, .xml	Wikipedia: RSS";
"S Hexdump Format	application/shf+xml	.shf	RFC 4194";
"SailingTracker	application/vnd.sailingtracker.track	.st	IANA: SailingTracker";
"Scalable Vector Graphics (SVG)	image/svg+xml	.svg	Wikipedia: SVG";
"ScheduleUs	application/vnd.sus-calendar	.sus	IANA: ScheduleUs";
"Search/Retrieve via URL Response Format	application/sru+xml	.sru	RFC 6207";
"Secure Electronic Transaction - Payment	application/set-payment-initiation	.setpay	IANA: SET Payment";
"Secure Electronic Transaction - Registration	application/set-registration-initiation	.setreg	IANA: SET Registration";
"Secured eMail	application/vnd.sema	.sema	IANA: Secured eMail";
"Secured eMail	application/vnd.semd	.semd	IANA: Secured eMail";
"Secured eMail	application/vnd.semf	.semf	IANA: Secured eMail";
"SeeMail	application/vnd.seemail	.see	IANA: SeeMail";
"Server Normal Format	application/x-font-snf	.snf	Wikipedia: Server Normal Format";
"Server-Based Certificate Validation Protocol - Validation Policies - Request	application/scvp-vp-request	.spq	RFC 5055";
"Server-Based Certificate Validation Protocol - Validation Policies - Response	application/scvp-vp-response	.spp	RFC 5055";
"Server-Based Certificate Validation Protocol - Validation Request	application/scvp-cv-request	.scq	RFC 5055";
"Server-Based Certificate Validation Protocol - Validation Response	application/scvp-cv-response	.scs	RFC 5055";
"Session Description Protocol	application/sdp	.sdp	RFC 2327";
"Setext	text/x-setext	.etx	Wikipedia: Setext";
"SGI Movie	video/x-sgi-movie	.movie	SGI Facts";
"Shana Informed Filler	application/vnd.shana.informed.formdata	.ifm	IANA: Shana Informed Filler";
"Shana Informed Filler	application/vnd.shana.informed.formtemplate	.itp	IANA: Shana Informed Filler";
"Shana Informed Filler	application/vnd.shana.informed.interchange	.iif	IANA: Shana Informed Filler";
"Shana Informed Filler	application/vnd.shana.informed.package	.ipk	IANA: Shana Informed Filler";
"Sharing Transaction Fraud Data	application/thraud+xml	.tfi	RFC 5941";
"Shell Archive	application/x-shar	.shar	Wikipedia: Shell Archie";
"Silicon Graphics RGB Bitmap	image/x-rgb	.rgb	RGB Image Format";
"SimpleAnimeLite Player	application/vnd.epson.salt	.slt	IANA: SimpleAnimeLite Player";
"Simply Accounting	application/vnd.accpac.simply.aso	.aso	IANA: Simply Accounting";
"Simply Accounting - Data Import	application/vnd.accpac.simply.imp	.imp	IANA: Simply Accounting";
"SimTech MindMapper	application/vnd.simtech-mindmapper	.twd	IANA: SimTech MindMapper";
"Sixth Floor Media - CommonSpace	application/vnd.commonspace	.csp	IANA: CommonSpace";
"SMAF Audio	application/vnd.yamaha.smaf-audio	.saf	IANA: SMAF Audio";
"SMAF File	application/vnd.smaf	.mmf	IANA: SMAF File";
"SMAF Phrase	application/vnd.yamaha.smaf-phrase	.spf	IANA: SMAF Phrase";
"SMART Technologies Apps	application/vnd.smart.teacher	.teacher	IANA: SMART Technologies Apps";
"SourceView Document	application/vnd.svd	.svd	IANA: SourceView Document";
"SPARQL - Query	application/sparql-query	.rq	W3C SPARQL";
"SPARQL - Results	application/sparql-results+xml	.srx	W3C SPARQL";
"Speech Recognition Grammar Specification	application/srgs	.gram	W3C Speech Grammar"].

Definition mimetypes_7 : list string := [
"Speech Recognition Grammar Specification - XML	application/srgs+xml	.grxml	W3C Speech Grammar";
"Speech Synthesis Markup Language	application/ssml+xml	.ssml	W3C Speech Synthesis";
"SSEYO Koan Play File	application/vnd.koan	.skp	IANA: SSEYO Koan Play File";
"Standard Generalized Markup Language (SGML)	text/sgml	.sgml	Wikipedia: SGML";
"StarOffice - Calc	application/vnd.stardivision.calc	.sdc	";
"StarOffice - Draw	application/vnd.stardivision.draw	.sda	";
"StarOffice - Impress	application/vnd.stardivision.impress	.sdd	";
"StarOffice - Math	application/vnd.stardivision.math	.smf	";
"StarOffice - Writer	application/vnd.stardivision.writer	.sdw	";
"StarOffice - Writer (Global)	application/vnd.stardivision.writer-global	.sgl	";
"StepMania	application/vnd.stepmania.stepchart	.sm	IANA: StepMania";
"Stuffit Archive	application/x-stuffit	.sit	Wikipedia: Stuffit";
"Stuffit Archive	application/x-stuffitx	.sitx	Wikipedia: Stuffit";
"SudokuMagic	application/vnd.solent.sdkm+xml	.sdkm	IANA: SudokuMagic";
"Sugar Linux Application Bundle	application/vnd.olpc-sugar	.xo	IANA: Sugar Linux App Bundle";
"Sun Audio - Au file format	audio/basic	.au	Wikipedia: Sun audio";
"SundaHus WQ	application/vnd.wqd	.wqd	IANA: SundaHus WQ";
"Symbian Install Package	application/vnd.symbian.install	.sis	IANA: Symbian Install";
"Synchronized Multimedia Integration Language	application/smil+xml	.smi	RFC 4536";
"SyncML	application/vnd.syncml+xml	.xsm	IANA: SyncML";
"SyncML - Device Management	application/vnd.syncml.dm+wbxml	.bdm	IANA: SyncML";
"SyncML - Device Management	application/vnd.syncml.dm+xml	.xdm	IANA: SyncML";
"System V Release 4 CPIO Archive	application/x-sv4cpio	.sv4cpio	Wikipedia: pax";
"System V Release 4 CPIO Checksum Data	application/x-sv4crc	.sv4crc	Wikipedia: pax";
"Systems Biology Markup Language	application/sbml+xml	.sbml	RFC 3823";
"Tab Seperated Values	text/tab-separated-values	.tsv	Wikipedia: TSV";
"Tagged Image File Format	image/tiff	.tiff	Wikipedia: TIFF";
"Tao Intent	application/vnd.tao.intent-module-archive	.tao	IANA: Tao Intent";
"Tar File (Tape Archive)	application/x-tar	.tar	Wikipedia: Tar";
"Tcl Script	application/x-tcl	.tcl	Wikipedia: Tcl";
"TeX	application/x-tex	.tex	Wikipedia: TeX";
"TeX Font Metric	application/x-tex-tfm	.tfm	Wikipedia: TeX Font Metric";
"Text Encoding and Interchange	application/tei+xml	.tei	RFC 6129";
"Text File	text/plain	.txt	Wikipedia: Text File";
"TIBCO Spotfire	application/vnd.spotfire.dxp	.dxp	IANA: TIBCO Spotfire";
"TIBCO Spotfire	application/vnd.spotfire.sfs	.sfs	IANA: TIBCO Spotfire";
"Time Stamped Data Envelope	application/timestamped-data	.tsd	RFC 5955";
"TRI Systems Config	application/vnd.trid.tpt	.tpt	IANA: TRI Systems";
"Triscape Map Explorer	application/vnd.triscape.mxs	.mxs	IANA: Triscape Map Explorer";
"troff	text/troff	.t	Wikipedia: troff";
"True BASIC	application/vnd.trueapp	.tra	IANA: True BASIC";
"TrueType Font	application/x-font-ttf	.ttf	Wikipedia: TrueType";
"Turtle (Terse RDF Triple Language)	text/turtle	.ttl	Wikipedia: Turtle";
"UMAJIN	application/vnd.umajin	.umj	IANA: UMAJIN";
"Unique Object Markup Language	application/vnd.uoml+xml	.uoml	IANA: UOML";
"Unity 3d	application/vnd.unity	.unityweb	IANA: Unity 3d";
"Universal Forms Description Language	application/vnd.ufdl	.ufd	IANA: Universal Forms Description Language";
"URI Resolution Services	text/uri-list	.uri	RFC 2483";
"User Interface Quartz - Theme (Symbian)	application/vnd.uiq.theme	.utz	IANA: User Interface Quartz";
"Ustar (Uniform Standard Tape Archive)	application/x-ustar	.ustar	Wikipedia: Ustar";
"UUEncode	text/x-uuencode	.uu	Wikipedia: UUEncode";
"vCalendar	text/x-vcalendar	.vcs	Wikipedia: vCalendar";
"vCard	text/x-vcard	.vcf	Wikipedia: vCard";
"Video CD	application/x-cdlink	.vcd	Wikipedia: Video CD";
"Viewport+	application/vnd.vsf	.vsf	IANA: Viewport+";
"Virtual Reality Modeling Language	model/vrml	.wrl	Wikipedia: VRML";
"VirtualCatalog	application/vnd.vcx	.vcx	IANA: VirtualCatalog";
"Virtue MTS	model/vnd.mts	.mts	IANA: MTS";
"Virtue VTU	model/vnd.vtu	.vtu	IANA: VTU";
"Visionary	application/vnd.visionary	.vis	IANA: Visionary";
"Vivo	video/vnd.vivo	.viv	IANA: Vivo";
"Voice Browser Call Control	application/ccxml+xml,	.ccxml	Voice Browser Call Control: CCXML Version 1.0";
"VoiceXML	application/voicexml+xml	.vxml	RFC 4267";
"WAIS Source	application/x-wais-source	.src	YoLinux";
"WAP Binary XML (WBXML)	application/vnd.wap.wbxml	.wbxml	IANA: WBXML";
"WAP Bitamp (WBMP)	image/vnd.wap.wbmp	.wbmp	IANA: WBMP";
"Waveform Audio File Format (WAV)	audio/x-wav	.wav	Wikipedia: WAV";
"Web Distributed Authoring and Versioning	application/davmount+xml	.davmount	RFC 4918";
"Web Open Font Format	application/x-font-woff	.woff	Wikipedia: Web Open Font Format";
"Web Services Policy	application/wspolicy+xml	.wspolicy	W3C Web Services Policy";
"WebP Image	image/webp	.webp	Wikipedia: WebP";
"WebTurbo	application/vnd.webturbo	.wtb	IANA: WebTurbo";
"Widget Packaging and XML Configuration	application/widget	.wgt	W3C Widget Packaging and XML Configuration";
"WinHelp	application/winhlp	.hlp	Wikipedia: WinHelp";
"Wireless Markup Language (WML)	text/vnd.wap.wml	.wml	Wikipedia: WML";
"Wireless Markup Language Script (WMLScript)	text/vnd.wap.wmlscript	.wmls	Wikipedia: WMLScript";
"WMLScript	application/vnd.wap.wmlscriptc	.wmlsc	IANA: WMLScript";
"Wordperfect	application/vnd.wordperfect	.wpd	IANA: Wordperfect";
"Worldtalk	application/vnd.wt.stf	.stf	IANA: Worldtalk";
"WSDL - Web Services Description Language	application/wsdl+xml	.wsdl	W3C Web Service Description Language";
"X BitMap	image/x-xbitmap	.xbm	Wikipedia: X BitMap";
"X PixMap	image/x-xpixmap	.xpm	Wikipedia: X PixMap";
"X Window Dump	image/x-xwindowdump	.xwd	Wikipedia: X Window Dump";
"X.509 Certificate	application/x-x509-ca-cert	.der	Wikipedia: X.509";
"Xfig	application/x-xfig	.fig	Wikipedia: Xfig";
"XHTML - The Extensible HyperText Markup Language	application/xhtml+xml	.xhtml	W3C XHTML";
"XML - Extensible Markup Language	application/xml	.xml	W3C XML";
"XML Configuration Access Protocol - XCAP Diff	application/xcap-diff+xml	.xdf	Wikipedia: XCAP";
"XML Encryption Syntax and Processing	application/xenc+xml	.xenc	W3C XML Encryption Syntax and Processing";
"XML Patch Framework	application/patch-ops-error+xml	.xer	RFC 5261";
"XML Resource Lists	application/resource-lists+xml	.rl	RFC 4826";
"XML Resource Lists	application/rls-services+xml	.rs	RFC 4826";
"XML Resource Lists Diff	application/resource-lists-diff+xml	.rld	RFC 4826";
"XML Transformations	application/xslt+xml	.xslt	W3C XSLT";
"XML-Binary Optimized Packaging	application/xop+xml	.xop	W3C XOP";
"XPInstall - Mozilla	application/x-xpinstall	.xpi	Wikipedia: XPI";
"XSPF - XML Shareable Playlist Format	application/xspf+xml	.xspf	XML Shareable Playlist Format";
"XUL - XML User Interface Language	application/vnd.mozilla.xul+xml	.xul	IANA: XUL";
"XYZ File Format	chemical/x-xyz	.xyz	Wikipedia: XYZ File Format";
"YAML Ain't Markup Language / Yet Another Markup Language	text/yaml	.yaml	YAML: YAML Ain't Markup Language"].

Definition mimetypes_8 : list string := [
"YANG Data Modeling Language	application/yang	.yang	Wikipedia: YANG";
"YIN (YANG - XML)	application/yin+xml	.yin	Wikipedia: YANG";
"Z.U.L. Geometry	application/vnd.zul	.zir	IANA: Z.U.L.";
"Zip Archive	application/zip	.zip	Wikipedia: Zip";
"ZVUE Media Manager	application/vnd.handheld-entertainment+xml	.zmm	IANA: ZVUE Media Manager";
"Zzazz Deck	application/vnd.zzazz.deck+xml	.zaz	IANA: Zzazz"].

Definition mimetypes_lines : list string :=
  mimetypes_1 ++ mimetypes_2 ++ mimetypes_3 ++ mimetypes_4 ++ mimetypes_5 ++ mimetypes_6 ++ mimetypes_7 ++ mimetypes_8.

(** [mimetypescsv], by its runes. *)
Definition mimetypescsv : list Z := utf8.runes (GoStrings.Join (map text mimetypes_lines) [10%Z]).
