(* ===== verification/Mimes.v ===== *)
(** src/mimes/mimetypes.go: the type of a file by the extension of its name.

    The table is a text with a line for every type, its fields parted by tabs; it is
    printed into a buffer once and read line by line until a line with the extension comes.
    What was found is kept.  The text is an argument, [csv], given by its runes; the one that
    is embedded is [Mimetypes.mimetypescsv]. *)

From S2P Require Import Prelude Runes GoStrings Readers RuneReaders Buffer BufferCursor BuffReader Texts Paths Mimetypes.
From stdpp Require Import gmap strings.
#[local] Open Scope Z_scope.

(** [mimebuf] and [mtypesfound]; [mtextexts] is not changed after [init]. *)
Record mimes := MkMimes { mimebuf : Buffer; mtypesfound : gmap (list Z) (list Z) }.

Definition new_mimes : mimes := MkMimes (empty_buffer chunk_size) ∅.

Definition mtextexts (ext : list Z) : bool :=
  bool_decide (ext ∈ [text ".js"; text ".json"; text ".html"; text ".xhtml"; text ".htm"]).

Section mimes.
Context (fuel : nat) (csv : list Z).

(** The buffer is filled when it is empty; the reader closes itself at the end. *)
Definition MimeTypesCSV (st : mimes) : exec (option BuffReader * mimes) :=
  let* buf :=
    if Buffer.Size (Some (mimebuf st)) =? 0 then let* '(_, b) := Buffer.Print fuel (mimebuf st) [PString (encode_all csv)] in Done b
    else Done (mimebuf st) in
  let* r := Reader (Some buf) NoContext false [] in
  Done (DisposeEOFReader r, MkMimes buf (mtypesfound st)).

(** The type a line gives the extension [ext]: four fields, the third is the extension. *)
Definition line_type (ext lineb : list Z) : option (list Z) :=
  match Split lineb 9 with
  | [_; tpe; e; _] => if bool_decide (encode_all e = ext) then Some (encode_all tpe) else None
  | _ => None
  end.

Fixpoint scan (n : nat) (ext : list Z) (bufr : option BuffReader) : exec (option (list Z)) :=
  match n with
  | O => NoFuel
  | S n' =>
    let* '(lineb, lineberr, bufr') := Readln fuel bufr in
    match (if 0 <? len lineb then line_type ext lineb else None) with
    | Some tpe => Done (Some tpe)
    | None => match lineberr with Some _ => Done None | None => scan n' ext bufr' end
    end
  end.

(** [strings.Contains(mimetype, "video/")] or ["audio/"]. *)
Definition is_media (mimetype : list Z) : bool := Paths.Contains mimetype (text "video/") || Paths.Contains mimetype (text "audio/").

(** [FindMimeType(ext, defaulttpe...)]: the type, whether it is text, whether it is media. *)
Definition FindMimeType (st : mimes) (name : list Z) (defaulttpe : option (list Z)) : exec (list Z * bool * bool * mimes) :=
  let defaulttype := match defaulttpe with Some ((_ :: _) as d) => d | _ => text "text/plain" end in
  let ext := Ext name in
  if decide (ext = []) then Done (defaulttype, false, is_media defaulttype, st)
  else
    match mtypesfound st !! ext with
    | Some mimetype => Done (mimetype, mtextexts ext, is_media mimetype, st)
    | None =>
      let* '(bufr, st1) := MimeTypesCSV st in
      let* found := scan fuel ext bufr in
      let '(mimetype, texttype, st2) :=
        match found with
        | Some tpe => (tpe, mtextexts ext, MkMimes (mimebuf st1) (<[ext := tpe]> (mtypesfound st1)))
        | None => ([], false, st1)
        end in
      let mimetype := if decide (mimetype = []) then defaulttype else mimetype in
      Done (mimetype, texttype, is_media mimetype, st2)
    end.

(** [ExtMimeType(ext, defaultext, defaulttype...)] *)
Definition ExtMimeType (st : mimes) (ext defaultext : list Z) (defaulttype : list (list Z)) : exec (list Z * mimes) :=
  let e := Ext ext in
  let* '(mimetype, _, _, st') := FindMimeType st (if decide (e = []) then Ext defaultext else e) (Some (default [] (head defaulttype))) in
  Done (mimetype, st').
End mimes.

(** * Theory *)

(** ** The rows of a table

    A line is read without the white space around it (of one of more than 1024 runes, around
    what is left of it after the last full thousand); what is behind the last newline is read
    as it is. *)
Definition csv_rows (csv : list Z) : list (list Z) :=
  let parts := Split csv 10 in map line_text (removelast parts) ++ [List.last parts []].

(** The type the rows give an extension: that of the first with it. *)
Fixpoint rows_type (rows : list (list Z)) (ext : list Z) : option (list Z) :=
  match rows with
  | [] => None
  | l :: rows' => match line_type ext l with Some t => Some t | None => rows_type rows' ext end
  end.

(** A table that can be read: it is not empty, and no row gives an empty type. *)
Definition typed_row (row : list Z) : bool := match Split row 9 with [_; tpe; _; _] => 0 <? len tpe | _ => true end.
Definition table_ok (csv : list Z) : Prop := valid_runes csv ∧ csv ≠ [] ∧ forallb typed_row (csv_rows csv) = true.

Lemma contains_elem l k : k ∉ l → contains_rune l k = false.
Proof.
  intros Hk. apply not_true_iff_false. intros H. apply existsb_exists in H as (x & Hx & E). apply Hk.
  apply Z.eqb_eq in E as <-. by apply list_elem_of_In.
Qed.

Lemma Split_nonempty l k : Split l k ≠ [].
Proof. destruct l as [|x l]; [done|]. cbn [Split]. destruct (x =? k); [done|]. by destruct (Split l k). Qed.

Lemma csv_rows_line l rest : 10 ∉ l → csv_rows (l ++ 10 :: rest) = line_text l :: csv_rows rest.
Proof.
  intros Hl. unfold csv_rows. rewrite Split_first by by apply contains_elem.
  pose proof (Split_nonempty rest 10). destruct (Split rest 10) as [|x parts]; [done|]. done.
Qed.

Lemma csv_rows_last l : 10 ∉ l → csv_rows l = [l].
Proof. intros Hl. unfold csv_rows. by rewrite Split_plain by by apply contains_elem. Qed.

Lemma rows_type_nonempty rows ext t : forallb typed_row rows = true → rows_type rows ext = Some t → t ≠ [].
Proof.
  induction rows as [|l rows IH]; [done|]. cbn [forallb rows_type]. intros [Hl Hr]%andb_true_iff.
  destruct (line_type ext l) as [t'|] eqn:E; [|by apply IH]. intros [= <-]. unfold line_type in E. unfold typed_row in Hl.
  destruct (Split l 9) as [|k [|tpe [|e [|h [|]]]]]; try done. case_bool_decide; [|done]. injection E as <-.
  destruct tpe as [|r tpe]; [done|]. intros E'. cbn in E'. apply app_nil in E' as [E' _]. by apply encode_nonempty in E'.
Qed.

Section table.
Context {Src : RuneSource (option BuffReader)}.

Lemma scan_table fuel n ext csv o :
  pending o csv → (length csv < n)%nat → (length csv < fuel)%nat → scan fuel n ext o = Done (rows_type (csv_rows csv) ext).
Proof.
  revert o csv. induction n as [|n IH]; intros o csv Hp Hn Hf; [lia|]. cbn [scan]. unfold Readln.
  assert (∀ l, (if 0 <? len l then line_type ext l else None) = line_type ext l) as Hlt by by intros [|].
  destruct (split_line csv) as [(l & rest & -> & Hl)|Hl].
  - rewrite length_app in Hn, Hf. cbn [length] in Hn, Hf.
    destruct (ReadLine_source_nl fuel o l rest Hl Hp) as (o' & -> & Hp'); [lia|]. cbn [exec_bind].
    rewrite Hlt, csv_rows_line by done. cbn [rows_type]. destruct (line_type ext (line_text l)); [done|]. apply IH; (done || lia).
  - destruct (ReadLine_source_eof fuel o csv Hl Hp) as (o' & -> & Hp'); [lia|]. cbn [exec_bind].
    rewrite Hlt, csv_rows_last by done. cbn [rows_type]. destruct (line_type ext csv) as [t|]; [done|].
    destruct (Z.eqb_spec (len (last_part 1024 csv)) 0) as [Hz|Hz]; [done|].
    rewrite (IH o' [] Hp'); [done| |cbn; lia]. destruct csv; [done|cbn in Hn |- *; lia].
Qed.
End table.

(** The table is in the buffer or the buffer is empty, and what is kept is what the table says. *)
Record mimes_ok (csv : list Z) (st : mimes) : Prop := {
  mo_buf : buf_is (Some (mimebuf st)) [] ∨ buf_is (Some (mimebuf st)) csv;
  mo_found ext t : mtypesfound st !! ext = Some t → rows_type (csv_rows csv) ext = Some t }.

Lemma new_mimes_ok csv : mimes_ok csv new_mimes.
Proof. split; [left; apply new_is|]. intros ext t. cbn. by rewrite lookup_empty. Qed.

Lemma dispose_closing r rs : rs ≠ [] → closing_pending (Some r) rs → closing_pending (DisposeEOFReader (Some r)) rs.
Proof.
  intros Hne [(rd & c & rest & Er & Hc & (fl & r1 & bs & Er1 & Hr & Hl) & Hv & He & Hb)|(? & _)]; [|done].
  injection Er as <-. injection Er1 as <-. left. eexists _, c, rest. split; [done|]. split; [done|]. split; [|done].
  eexists (fl.1, true), _, bs. split; [done|]. split; [|done]. destruct Hr as [A B C D [E F]]. by split.
Qed.

Lemma MimeTypesCSV_reads fuel csv st :
  mimes_ok csv st → valid_runes csv → csv ≠ [] →
  ∃ o st', MimeTypesCSV fuel csv st = Done (o, st') ∧ closing_pending o csv ∧ mimes_ok csv st' ∧ mtypesfound st' = mtypesfound st.
Proof.
  intros [Hb Hf] Hv Hne.
  assert (∃ buf, (if Buffer.Size (Some (mimebuf st)) =? 0 then let* '(_, b) := Buffer.Print fuel (mimebuf st) [PString (encode_all csv)] in Done b
      else Done (mimebuf st)) = Done buf ∧ buf_is (Some buf) csv) as (buf & E & Hbuf).
  { destruct Hb as [Hb|Hb].
    - pose proof Hb as (Hw & Hlen & Hc). rewrite Size_contents, Hc by done. change (len (encode_all []) =? 0) with true. cbv iota.
      destruct (Print_appends fuel (mimebuf st) [PString (encode_all csv)] (encode_all csv ++ [])) as (b & -> & Ha); [done| |].
      + constructor; [|constructor]. rewrite <- (runes_encode_all csv) at 2 by done. constructor. apply encode_all_is_bytes.
      + exists b. split; [done|]. rewrite app_nil_r in Ha. by apply (buf_is_appended _ [] _ _ Hb).
    - pose proof Hb as (Hw & Hlen & Hc). exists (mimebuf st). split; [|done]. rewrite Size_contents, Hc by done.
      destruct (Z.eqb_spec (len (encode_all csv)) 0) as [E0|]; [|done].
      exfalso. apply Hne. rewrite <- (runes_encode_all csv) by done. by destruct (encode_all csv). }
  unfold MimeTypesCSV. rewrite E. cbn [exec_bind]. pose proof Hbuf as (Hw & Hlen & Hc).
  destruct (Reader_closing buf false csv) as (r & -> & Hp); [split; [done|by rewrite Hlen]|done..|]. cbn [exec_bind].
  eexists _, _. split; [done|]. split_and!; [by apply dispose_closing|split; [by right|done]|done].
Qed.

(** What [FindMimeType] is for. *)
Definition default_of (defaulttpe : option (list Z)) : list Z := match defaulttpe with Some ((_ :: _) as d) => d | _ => text "text/plain" end.
Definition mime_of (csv : list Z) (name : list Z) (defaulttpe : option (list Z)) : list Z * bool * bool :=
  let '(tpe, txt) :=
    match (if decide (Ext name = []) then None else rows_type (csv_rows csv) (Ext name)) with
    | Some t => (t, mtextexts (Ext name))
    | None => (default_of defaulttpe, false)
    end in
  (tpe, txt, is_media tpe).

Lemma FindMimeType_finds fuel csv st name defaulttpe :
  mimes_ok csv st → table_ok csv → (length csv < fuel)%nat →
  ∃ st', FindMimeType fuel csv st name defaulttpe = Done (mime_of csv name defaulttpe, st') ∧ mimes_ok csv st'.
Proof.
  intros Hok (Hv & Hne & Hty) Hf. unfold FindMimeType, mime_of. fold (default_of defaulttpe). destruct (decide (Ext name = [])) as [Ee|Ee]; [eauto|].
  destruct (mtypesfound st !! Ext name) as [t|] eqn:Ef.
  { rewrite (mo_found _ _ Hok _ _ Ef). eauto. }
  destruct (MimeTypesCSV_reads fuel csv st Hok Hv Hne) as (o & st1 & -> & Hp & Hok1 & Hf1). cbn [exec_bind].
  rewrite (scan_table (Src := BuffReader_closing_source) fuel fuel (Ext name) csv o) by (done || lia). cbn [exec_bind].
  destruct (rows_type (csv_rows csv) (Ext name)) as [t|] eqn:Et.
  - rewrite decide_False by by eapply rows_type_nonempty. eexists. split; [done|]. destruct Hok1 as [Hb1 Hfd1]. split; [done|]. cbn [mtypesfound].
    intros e t'. destruct (decide (e = Ext name)) as [->|]; [|by rewrite lookup_insert_ne; auto]. rewrite lookup_insert_eq. by intros [= <-].
  - rewrite decide_True by done. eauto.
Qed.

(** *** What a table says

    A row that gives a type has the kind of the type, the type, an extension and how it is
    read, parted by tabs. *)
Definition gives (ext tpe row : list Z) : Prop :=
  ∃ kind t e how, row = GoStrings.Join [kind; t; e; how] [9] ∧ Forall (λ f, contains_rune f 9 = false) [kind; t; e; how] ∧
    encode_all e = ext ∧ encode_all t = tpe.

Inductive says (csv ext : list Z) : option (list Z) → Prop :=
| says_type before row after tpe : csv_rows csv = before ++ row :: after → Forall (λ r, ∀ t, ¬ gives ext t r) before → gives ext tpe row →
    says csv ext (Some tpe)
| says_nothing : Forall (λ r, ∀ t, ¬ gives ext t r) (csv_rows csv) → says csv ext None.

Lemma Split_parts l k : Forall (λ f, contains_rune f k = false) (Split l k) ∧ GoStrings.Join (Split l k) [k] = l.
Proof.
  induction l as [|x l [IH1 IH2]]; [by repeat constructor|]. pose proof (Split_nonempty l k) as Hne. cbn [Split].
  destruct (Z.eqb_spec x k) as [->|Hx].
  - split; [by constructor|]. destruct (Split l k) as [|y parts]; [done|]. by rewrite Join_cons, IH2.
  - destruct (Split l k) as [|y parts]; [done|]. inversion_clear IH1 as [|? ? Hy Hp]. split.
    + constructor; [|done]. rewrite contains_cons, Hy. by destruct (Z.eqb_spec k x).
    + destruct parts as [|z parts]; [by rewrite <- IH2|]. rewrite Join_cons in IH2 |- *. by rewrite <- IH2.
Qed.

Lemma line_type_gives ext t row : line_type ext row = Some t ↔ gives ext t row.
Proof.
  unfold line_type. split.
  - destruct (Split_parts row 9) as [Hp Hj]. destruct (Split row 9) as [|k [|tpe [|e [|h [|]]]]]; try done.
    case_bool_decide; [|done]. intros [= <-]. by exists k, tpe, e, h.
  - intros (k & tpe & e & h & -> & Hf & He & <-). rewrite Split_Join by done. by rewrite bool_decide_eq_true_2.
Qed.

Lemma rows_type_says csv ext : says csv ext (rows_type (csv_rows csv) ext).
Proof.
  assert (∀ rows pre, csv_rows csv = pre ++ rows → Forall (λ r, ∀ t, ¬ gives ext t r) pre → says csv ext (rows_type rows ext)) as H; [|by apply (H _ [])].
  induction rows as [|l rows IH]; intros pre E Hpre; cbn [rows_type]; [rewrite app_nil_r in E; apply says_nothing; by rewrite E|].
  destruct (line_type ext l) as [t|] eqn:El.
  - eapply says_type; [exact E|exact Hpre|]. by apply line_type_gives.
  - apply (IH (pre ++ [l])); [by rewrite <- app_assoc|]. apply Forall_app. split; [done|]. constructor; [|done].
    intros t Ht. apply line_type_gives in Ht. congruence.
Qed.

(** A table says one thing only. *)
Lemma says_rows csv ext o : says csv ext o → rows_type (csv_rows csv) ext = o.
Proof.
  assert (∀ pre rows, Forall (λ r, ∀ t, ¬ gives ext t r) pre → rows_type (pre ++ rows) ext = rows_type rows ext) as Hpre.
  { intros pre rows. induction 1 as [|l pre Hl _ IH]; [done|]. cbn [app rows_type]. destruct (line_type ext l) as [t|] eqn:E; [|done].
    by apply line_type_gives, Hl in E. }
  destruct 1 as [before row after tpe -> Hb Hg|Hn].
  - rewrite Hpre by done. cbn [rows_type]. apply line_type_gives in Hg. by rewrite Hg.
  - rewrite <- (app_nil_r (csv_rows csv)). by rewrite Hpre.
Qed.

(** C11: FindMimeType answers what the table says: the type of the first row of four
    fields, as it is read, whose third is the extension of the name, as text for the
    extensions of scripts and pages, and the default otherwise; whatever was looked up
    before, so that what is kept never changes an answer.  The table may be any text that
    is not empty and none of whose rows has an empty type, such as the one that is embedded. *)
Theorem FindMimeType_table fuel csv st name defaulttpe :
  table_ok csv → mimes_ok csv st → (length csv < fuel)%nat →
  ∃ tpe txt st', FindMimeType fuel csv st name defaulttpe = Done (tpe, txt, is_media tpe, st') ∧ mimes_ok csv st' ∧
    (Ext name = [] ∨ says csv (Ext name) None → tpe = default_of defaulttpe ∧ txt = false) ∧
    ∀ t, Ext name ≠ [] → says csv (Ext name) (Some t) → tpe = t ∧ txt = mtextexts (Ext name).
Proof.
  intros Ht Hok Hf. destruct (FindMimeType_finds fuel csv st name defaulttpe Hok Ht Hf) as (st' & -> & Hok').
  pose proof (says_rows csv (Ext name)) as Hdet.
  unfold mime_of. destruct (decide (Ext name = [])) as [Ee|Ee].
  - eexists _, _, st'. split; [done|]. split; [done|]. split; [done|]. by intros ? ?.
  - destruct (rows_type (csv_rows csv) (Ext name)) as [t|]; eexists _, _, st'; (split; [done|]); (split; [done|]); split.
    + intros [?|Hn]; [done|]. by specialize (Hdet _ Hn).
    + intros t' _ Hs. specialize (Hdet _ Hs). by injection Hdet as ->.
    + done.
    + intros t' _ Hs. by specialize (Hdet _ Hs).
Qed.

(** ** The embedded table *)

Lemma valid_runesb csv : forallb utf8.ValidRune csv = true → valid_runes csv.
Proof. intros H. apply Forall_forall. intros r Hr. apply (proj1 (forallb_forall _ _) H). by apply list_elem_of_In. Qed.

Lemma mimetypes_ok : table_ok mimetypescsv.
Proof.
  split; [apply valid_runesb; vm_compute; reflexivity|]. split; [|vm_compute; reflexivity].
  intros E. assert (len mimetypescsv = 53537) as H by (vm_compute; reflexivity). by rewrite E in H.
Qed.

(** The rounds that are enough to read it, and more. *)
Definition mimetypes_fuel : nat := S (length mimetypescsv).
Lemma mimetypes_enough : (length mimetypescsv < mimetypes_fuel)%nat.
Proof. unfold mimetypes_fuel. lia. Qed.
Lemma mimetypes_fuel_100 : (100 < mimetypes_fuel)%nat.
Proof. assert (100 <? Z.of_nat mimetypes_fuel = true) by (vm_compute; reflexivity). lia. Qed.

Lemma FindMimeType_table_witness :
  ∃ st', FindMimeType mimetypes_fuel mimetypescsv new_mimes (text "/a/film.mp4") None = Done (text "video/mp4", false, true, st') ∧
    mimes_ok mimetypescsv st'.
Proof.
  destruct (FindMimeType_table mimetypes_fuel mimetypescsv new_mimes (text "/a/film.mp4") None mimetypes_ok (new_mimes_ok _) mimetypes_enough)
    as (tpe & txt & st' & E & Hok & _ & Hsays).
  exists st'. split; [|exact Hok]. rewrite E. destruct (Hsays (text "video/mp4")) as [-> ->]; [vm_compute; discriminate| |vm_compute; reflexivity].
  assert (rows_type (csv_rows mimetypescsv) (Ext (text "/a/film.mp4")) = Some (text "video/mp4")) as <- by (vm_compute; reflexivity).
  apply rows_type_says.
Defined.

(** The line of [.bin] ends in a tab, and has three fields when it is read: a file of that
    extension is plain text. *)
Example bin_is_plain :
  bool_decide (text "Binary Data	application/octet-stream	.bin	" ∈ Split mimetypescsv 10) = true ∧
  mime_of mimetypescsv (text "data.bin") None = (text "text/plain", false, false).
Proof. split; vm_compute; reflexivity. Qed.

(** The extensions whose lines end in a tab. *)
Example plain_by_tab :
  Forall (λ e, rows_type (csv_rows mimetypescsv) (text e) = None)
    [".bin"; ".cod"; ".ras"; ".cww"; ".rif"; ".rm"; ".sdc"; ".sda"; ".sdd"; ".smf"; ".sdw"; ".sgl"]%string.
Proof. apply (bool_decide_unpack _). vm_compute. exact I. Qed.

(** A small table, the first line of which ends in a tab and the last of which in nothing. *)
Definition demo_csv : list Z :=
  text "B	application/octet-stream	.bin	" ++ [10] ++ text "P	text/html	.html	w" ++ [10] ++ text "V	video/mp4	.mp4	w".

Lemma demo_csv_ok : table_ok demo_csv.
Proof. split; [apply valid_runesb; vm_compute; reflexivity|]. by split; [|vm_compute; reflexivity]. Qed.

(** A type that is empty in the table is replaced by the default only the first time. *)
Example empty_type_twice :
  let csv := text "P		.x	w" ++ [10] in
  match FindMimeType 50 csv new_mimes (text "a.x") None with
  | Done (r1, st1) => match FindMimeType 50 csv st1 (text "a.x") None with Done (r2, _) => Done (r1.1.1, r2.1.1) | _ => Panic end
  | _ => Panic
  end = Done (text "text/plain", []).
Proof. vm_compute. reflexivity. Qed.
