(* ===== verification/Sessions.v ===== *)
(** src/serve/serveio/session/session.go and sessions.go: the sessions of requests and the
    registries that hold them.

    Sessions and registries hold each other by pointers: [heap] has the sessions, [regs] the
    registries, a pointer is a position counted from 1, 0 is nil.  A registry is the map of
    [IterMap] with an owner.  What closing a session does to others - its reader, its
    writer, its database handler - is given as [effect]s in their order; what it leaves to
    goroutines as [task]s, that run later and in any order.  The clock is an argument of
    the operations that ask it. *)

From S2P Require Import Prelude Runes GoStrings Readers Buffer Paths BuffReader Streams Serving IterMap.
From stdpp Require Import gmap strings.
#[local] Open Scope Z_scope.

(** Who made the writer of a session: it was given, or made for an [io.Writer]. *)
Inductive out := Given (o : Z) | MadeFor (w : Z).

(** The parameters that were given, or those of the reader. *)
Inductive params := OwnParams (p : Z) | ReaderParams.

(** [api] is kept as whether its makers of a database handler and of a machine are set. *)
Record SessionAPI := MkAPI { InvodeDB : option Z; InvokeVM : option Z }.

Record session := MkSession {
  s_owner : Z;
  s_key : list Z;
  s_path : list Z;
  s_cache : bool;
  s_in : option reader;
  s_params : option params;
  s_dspsewtr : bool;
  s_out : option out;
  s_db : option Z;
  s_dspserdr : bool;
  s_fsys : option Z;
  s_sessions : Z;
  s_api : option SessionAPI;
  s_vm : option Z }.

Record sessions := MkSessions { owener : Z; IterateMap : option (itermap (K := list Z) (V := Z)) }.

Record world := MkWorld { heap : list session; regs : list sessions }.

#[global] Instance session_Entries : Entries (list Z) Z := {|
  empty_name k := bool_decide (k = []);
  value_Equal v1 v2 := Done (v1 =? v2);
  zero_value := 0 |}.

Definition get_session (w : world) (p : Z) : exec session :=
  if 0 <? p then match heap w !! Z.to_nat (p - 1) with Some s => Done s | None => Panic end else Panic.
Definition set_session (w : world) (p : Z) (s : session) : world := MkWorld (<[Z.to_nat (p - 1) := s]> (heap w)) (regs w).
Definition get_reg (w : world) (p : Z) : exec sessions :=
  if 0 <? p then match regs w !! Z.to_nat (p - 1) with Some s => Done s | None => Panic end else Panic.
Definition set_reg (w : world) (p : Z) (r : sessions) : world := MkWorld (heap w) (<[Z.to_nat (p - 1) := r]> (regs w)).

Definition set_key (s : session) (k : list Z) : session :=
  MkSession (s_owner s) k (s_path s) (s_cache s) (s_in s) (s_params s) (s_dspsewtr s) (s_out s) (s_db s) (s_dspserdr s) (s_fsys s) (s_sessions s) (s_api s) (s_vm s).
Definition set_sessions (s : session) (r : Z) : session :=
  MkSession (s_owner s) (s_key s) (s_path s) (s_cache s) (s_in s) (s_params s) (s_dspsewtr s) (s_out s) (s_db s) (s_dspserdr s) (s_fsys s) r (s_api s) (s_vm s).
Definition set_db (s : session) (d : option Z) : session :=
  MkSession (s_owner s) (s_key s) (s_path s) (s_cache s) (s_in s) (s_params s) (s_dspsewtr s) (s_out s) d (s_dspserdr s) (s_fsys s) (s_sessions s) (s_api s) (s_vm s).
Definition set_api (s : session) (a : option SessionAPI) : session :=
  MkSession (s_owner s) (s_key s) (s_path s) (s_cache s) (s_in s) (s_params s) (s_dspsewtr s) (s_out s) (s_db s) (s_dspserdr s) (s_fsys s) (s_sessions s) a (s_vm s).
Definition set_cache (s : session) (c : bool) : session :=
  MkSession (s_owner s) (s_key s) (s_path s) c (s_in s) (s_params s) (s_dspsewtr s) (s_out s) (s_db s) (s_dspserdr s) (s_fsys s) (s_sessions s) (s_api s) (s_vm s).
Definition set_params (s : session) (p : option params) : session :=
  MkSession (s_owner s) (s_key s) (s_path s) (s_cache s) (s_in s) p (s_dspsewtr s) (s_out s) (s_db s) (s_dspserdr s) (s_fsys s) (s_sessions s) (s_api s) (s_vm s).

(** ** Sessions *)

(** The arguments [NewSession] tells apart. *)
Inductive arg :=
| ArgString (s : list Z)
| ArgDb (d : Z)
| ArgReader (r : reader)
| ArgWriter (o : Z)
| ArgFsys (f : Z)
| ArgParams (p : Z)
| ArgRequest (r : request)
| ArgIoWriter (w : Z)
| ArgOther.

Definition or_else {A} (o : option A) (a : A) : option A := match o with Some _ => o | None => Some a end.

(** [Db()]: the handler that is there, or what the API makes. *)
Definition Db (w : world) (p : Z) : exec (option Z * world) :=
  if p =? 0 then Done (None, w)
  else
    let* s := get_session w p in
    match s_db s with
    | Some d => Done (Some d, w)
    | None =>
      match s_api s with
      | Some a => match InvodeDB a with Some d => Done (Some d, set_session w p (set_db s (Some d))) | None => Done (None, w) end
      | None => Done (None, w)
      end
    end.

Record given := MkGiven {
  g_path : list Z; g_db : option Z; g_in : option reader; g_out : option out; g_fsys : option Z;
  g_params : option params; g_rq : bool; g_w : bool }.

(** One argument: only the first of a kind counts. *)
Definition take_arg (g : given) (a : arg) : exec given :=
  match a with
  | ArgString s =>
    Done (MkGiven (if decide (g_path g = []) then s else g_path g) (g_db g) (g_in g) (g_out g) (g_fsys g) (g_params g) (g_rq g) (g_w g))
  | ArgDb d => Done (MkGiven (g_path g) (or_else (g_db g) d) (g_in g) (g_out g) (g_fsys g) (g_params g) (g_rq g) (g_w g))
  | ArgReader r => Done (MkGiven (g_path g) (g_db g) (or_else (g_in g) r) (g_out g) (g_fsys g) (g_params g) (g_rq g) (g_w g))
  | ArgWriter o => Done (MkGiven (g_path g) (g_db g) (g_in g) (or_else (g_out g) (Given o)) (g_fsys g) (g_params g) (g_rq g) (g_w g))
  | ArgFsys f => Done (MkGiven (g_path g) (g_db g) (g_in g) (g_out g) (or_else (g_fsys g) f) (g_params g) (g_rq g) (g_w g))
  | ArgParams p => Done (MkGiven (g_path g) (g_db g) (g_in g) (g_out g) (g_fsys g) (or_else (g_params g) (OwnParams p)) (g_rq g) (g_w g))
  | ArgRequest rq =>
    if g_rq g then Done g
    else
      match g_in g with
      | Some _ => Done (MkGiven (g_path g) (g_db g) (g_in g) (g_out g) (g_fsys g) (g_params g) true (g_w g))
      | None =>
        let path := if decide (g_path g = []) then rq_Path rq else g_path g in
        let* r := NewContextPathReader (Some (rq_LocalAddr rq)) (Some rq) path in
        Done (MkGiven path (g_db g) (Some r) (g_out g) (g_fsys g) (g_params g) true (g_w g))
      end
  | ArgIoWriter wt =>
    if g_w g then Done g
    else Done (MkGiven (g_path g) (g_db g) (g_in g) (or_else (g_out g) (MadeFor wt)) (g_fsys g) (g_params g) (g_rq g) true)
  | ArgOther => Done g
  end.

Fixpoint take_args (g : given) (a : list arg) : exec given :=
  match a with [] => Done g | x :: a' => let* g' := take_arg g x in take_args g' a' end.

(** [NewSession(ownerssn, a...)]: the session is allocated and its pointer returned.  The
    reader and the writer are closed with it when a request or an io.Writer was among the
    arguments, also when another reader or writer is used. *)
Definition NewSession (ownerssn : Z) (a : list arg) (w : world) : exec (Z * world) :=
  let* '(db, w1) := Db w ownerssn in
  let* own := if ownerssn =? 0 then Done None else let* s := get_session w1 ownerssn in Done (Some s) in
  let* g := take_args (MkGiven [] db (own ≫= s_in) (own ≫= s_out) None None false false) a in
  let params := match g_params g, g_in g with None, Some _ => Some ReaderParams | p, _ => p end in
  let fsys := match g_fsys g with Some f => Some f | None => own ≫= s_fsys end in
  let path := match g_path g, g_in g with [], Some r => rpath r | p, _ => p end in
  let s := MkSession ownerssn [] path false (g_in g) params (g_w g) (g_out g) (g_db g) (g_rq g) fsys 0 None None in
  Done (len (heap w1) + 1, MkWorld (heap w1 ++ [s]) (regs w1)).

(** [NewSessions(owner)] and [Sessions()]: the registry of a session, made when it is first
    asked for. *)
Definition NewSessions (owner : Z) (w : world) : Z * world :=
  (len (regs w) + 1, MkWorld (heap w) (regs w ++ [MkSessions owner (Some MapIterator)])).

Definition Sessions (p : Z) (w : world) : exec (Z * world) :=
  if p =? 0 then Done (0, w)
  else
    let* s := get_session w p in
    if s_sessions s =? 0 then
      let '(r, w1) := NewSessions p w in Done (r, set_session w1 p (set_sessions s r))
    else Done (s_sessions s, w).

Definition Params (p : Z) (w : world) : exec (option params * world) :=
  if p =? 0 then Done (None, w)
  else
    let* s := get_session w p in
    match s_params s, s_in s with
    | Some x, _ => Done (Some x, w)
    | None, Some _ => Done (Some ReaderParams, set_session w p (set_params s (Some ReaderParams)))
    | None, None => Done (None, w)
    end.

Definition Cache (p : Z) (w : world) : exec world :=
  if p =? 0 then Done w else let* s := get_session w p in Done (set_session w p (set_cache s true)).

(** [API(confapi...)]: only the first call configures. *)
Definition API (p : Z) (confapi : option SessionAPI) (w : world) : exec (option SessionAPI * world) :=
  if p =? 0 then Done (None, w)
  else
    let* s := get_session w p in
    match s_api s with
    | Some a => Done (Some a, w)
    | None => let a := default (MkAPI None None) confapi in Done (Some a, set_session w p (set_api s (Some a)))
    end.

Definition set_vm (s : session) (v : option Z) : session :=
  MkSession (s_owner s) (s_key s) (s_path s) (s_cache s) (s_in s) (s_params s) (s_dspsewtr s) (s_out s) (s_db s) (s_dspserdr s) (s_fsys s) (s_sessions s) (s_api s) v.

(** [VM()]: the machine that is there, or what the API makes, which is told whether the
    client is a mobile or a tablet.  The patterns that find out are arguments. *)
Definition VM (IsMobile IsTablet : reader → bool) (p : Z) (w : world) : exec (option Z * list (list Z * bool) * world) :=
  if p =? 0 then Done (None, [], w)
  else
    let* s := get_session w p in
    match s_vm s, s_api s ≫= InvokeVM with
    | Some v, _ => Done (Some v, [], w)
    | None, None => Done (None, [], w)
    | None, Some v =>
      let told f := match s_in s with Some r => f r | None => false end in
      Done (Some v, [(text "isMobile", told IsMobile); (text "isTablet", told IsTablet)], set_session w p (set_vm s (Some v)))
    end.

(** ** Registries *)

(** The serial of a moment: the swap compares with what was just read, so that it succeeds
    whatever the last serial was. *)
Definition nextserial (now : Z) : Z := now.

Definition UniqueKey (now : Z) (prepost : list (list Z)) : list Z :=
  match prepost with
  | [p] => p ++ FormatInt (nextserial now)
  | p :: _ :: _ => p ++ FormatInt (nextserial now) ++ p
  | [] => FormatInt (nextserial now)
  end.

Definition reg_Get (r : Z) (name : list Z) (w : world) : exec (Z * bool) :=
  if r =? 0 then Done (0, false) else let* x := get_reg w r in Done (match IterateMap x with Some _ => IterMap.Get (IterateMap x) name | None => (0, false) end).

Definition reg_Contains (r : Z) (name : list Z) (w : world) : exec bool :=
  if (r =? 0) || bool_decide (name = []) then Done false
  else let* x := get_reg w r in Done (match IterateMap x with Some _ => IterMap.Contains (IterateMap x) name | None => false end).

Definition reg_Delete (r : Z) (names : list (list Z)) (w : world) : exec world :=
  if (r =? 0) || bool_decide (names = []) then Done w
  else
    let* x := get_reg w r in
    match IterateMap x with
    | Some _ => Done (set_reg w r (MkSessions (owener x) (IterMap.Delete (IterateMap x) names).1))
    | None => Done w
    end.

Definition reg_Clear (r : Z) (w : world) : exec world :=
  if r =? 0 then Done w
  else
    let* x := get_reg w r in
    match IterateMap x with Some _ => Done (set_reg w r (MkSessions (owener x) (IterMap.Clear (IterateMap x)).1)) | None => Done w end.

(** [Set]: the session also learns its key. *)
Definition reg_Set (r : Z) (name : list Z) (value : Z) (w : world) : exec world :=
  if (r =? 0) || bool_decide (name = []) || (value =? 0) then Done w
  else
    let* x := get_reg w r in
    match IterateMap x with
    | Some _ =>
      let* '(m, _) := IterMap.Set_ (IterateMap x) name value in
      let w1 := set_reg w r (MkSessions (owener x) m) in
      let* s := get_session w1 value in Done (set_session w1 value (set_key s name))
    | None => Done w
    end.

(** [New(name, a...)]: the session of that name, or a new one; without a name one with a key
    of its own. *)
Definition New (r : Z) (name : list Z) (a : list arg) (now : Z) (w : world) : exec (Z * world) :=
  if r =? 0 then Done (0, w)
  else
    let* x := get_reg w r in
    let make key :=
      let* '(ssn, w1) := NewSession (owener x) a w in
      let* s := get_session w1 ssn in
      let* w2 := reg_Set r key ssn (set_session w1 ssn (set_key s key)) in Done (ssn, w2) in
    if decide (name = []) then make (UniqueKey now [])
    else let* '(ssn, _) := reg_Get r name w in if ssn =? 0 then make name else Done (ssn, w).

(** ** Closing *)

(** What [Close] does to others, in its order. *)
Inductive effect := CloseReader (r : reader) | CloseWriter (o : out) | CloseCache.

(** What it leaves to a goroutine. *)
Inductive task := TaskCloseDb (d : Z) | TaskCloseMap (m : itermap (K := list Z) (V := Z)) | TaskDelete (r : Z) (key : list Z).

(** A nil reader or writer that was to be closed panics. *)
Definition must_close {A} (yes : bool) (o : option A) (e : A → effect) : exec (list effect) :=
  if yes then match o with Some a => Done [e a] | None => Panic end else Done [].

(** [Close] of a registry: its owner forgets it, its map is closed by a goroutine. *)
Definition reg_Close (r : Z) (w : world) : exec (list task * world) :=
  if r =? 0 then Done ([], w)
  else
    let* x := get_reg w r in
    let w1 := set_reg w r (MkSessions 0 None) in
    let ts := match IterateMap x with Some m => [TaskCloseMap m] | None => [] end in
    if owener x =? 0 then Done (ts, w1)
    else let* s := get_session w1 (owener x) in Done (ts, set_session w1 (owener x) (set_sessions s 0)).

Definition Close (p : Z) (w : world) : exec (list effect * list task * world) :=
  if p =? 0 then Done ([], [], w)
  else
    let* s := get_session w p in
    let* e1 := must_close (s_dspserdr s) (s_in s) CloseReader in
    let* e2 := must_close (s_dspsewtr s) (s_out s) CloseWriter in
    let w1 := set_session w p (MkSession 0 (s_key s) (s_path s) false None None false None None false None 0 None (s_vm s)) in
    let t1 := match s_db s with Some d => [TaskCloseDb d] | None => [] end in
    let* '(t2, w2) := reg_Close (s_sessions s) w1 in
    let* t3 :=
      if s_owner s =? 0 then Done []
      else let* o := get_session w2 (s_owner s) in Done (if s_sessions o =? 0 then [] else [TaskDelete (s_sessions o) (s_key s)]) in
    Done (e1 ++ e2 ++ (if s_cache s then [CloseCache] else []), t1 ++ t2 ++ t3, w2).

(** [ServeHTTP]: a new session for the response [wt] and the request is told to the handler,
    and closed after it. *)
Definition ServeHTTP (r : Z) (srvhttp : option (Z → world → exec world)) (wt : Z) (rq : request) (now : Z) (w : world) : exec (list effect * list task * world) :=
  if r =? 0 then Done ([], [], w)
  else match srvhttp with
       | None => Done ([], [], w)
       | Some srv =>
         let* '(ssn, w1) := New r [] [ArgIoWriter wt; ArgRequest rq] now w in
         let* w2 := srv ssn w1 in Close ssn w2
       end.

(** What a goroutine does to sessions and registries. *)
Definition run_task (t : task) (w : world) : exec world :=
  match t with
  | TaskCloseDb _ | TaskCloseMap _ => Done w
  | TaskDelete r key => reg_Delete r [key] w
  end.

(** ** A registry at work *)

(** What a session is asked for while it is open. *)
Inductive use := UseSessions | UseCache | UseDb | UseParams | UseAPI (confapi : option SessionAPI) | UseVM.

Definition run_use (u : use) (p : Z) (w : world) : exec world :=
  match u with
  | UseSessions => let* '(_, w1) := Sessions p w in Done w1
  | UseCache => Cache p w
  | UseDb => let* '(_, w1) := Db w p in Done w1
  | UseParams => let* '(_, w1) := Params p w in Done w1
  | UseAPI c => let* '(_, w1) := API p c w in Done w1
  | UseVM => let* '(_, _, w1) := VM (λ _, false) (λ _, false) p w in Done w1
  end.

(** What happens to a registry: a session is opened under a name or a key of its own, an open
    one is used or closed by who opened it, a goroutine comes to run. *)
Inductive happening := Open (name : list Z) (a : list arg) (now : Z) | UseOf (k : list Z) (u : use) | CloseOf (k : list Z) | Goroutine (i : nat).

Record running := MkRunning { r_world : world; r_tasks : list task; r_clients : gmap (list Z) Z }.

Definition open_key (name : list Z) (now : Z) : list Z := if decide (name = []) then UniqueKey now [] else name.

Definition happen (r : Z) (h : happening) (st : running) : exec running :=
  match h with
  | Open name a now =>
    let* '(ssn, w) := New r name a now (r_world st) in
    Done (MkRunning w (r_tasks st) (<[open_key name now := ssn]> (r_clients st)))
  | UseOf k u =>
    match r_clients st !! k with
    | Some ssn => let* w := run_use u ssn (r_world st) in Done (MkRunning w (r_tasks st) (r_clients st))
    | None => Done st
    end
  | CloseOf k =>
    match r_clients st !! k with
    | Some ssn => let* '(_, ts, w) := Close ssn (r_world st) in Done (MkRunning w (r_tasks st ++ ts) (delete k (r_clients st)))
    | None => Done st
    end
  | Goroutine i =>
    match r_tasks st !! i with
    | Some t => let* w := run_task t (r_world st) in Done (MkRunning w (list_delete i (r_tasks st)) (r_clients st))
    | None => Done st
    end
  end.

Fixpoint happen_all (r : Z) (hs : list happening) (st : running) : exec running :=
  match hs with [] => Done st | h :: hs' => let* st' := happen r h st in happen_all r hs' st' end.

Fixpoint open_keys (hs : list happening) : list (list Z) :=
  match hs with [] => [] | Open name _ now :: hs' => open_key name now :: open_keys hs' | _ :: hs' => open_keys hs' end.

(** * Theory *)

(** ** Pointers *)

Lemma session_at w p s : get_session w p = Done s → 0 < p ≤ len (heap w) ∧ heap w !! Z.to_nat (p - 1) = Some s.
Proof.
  unfold get_session. destruct (Z.ltb_spec 0 p); [|done]. destruct (heap w !! _) as [s'|] eqn:E; [|done]. intros [= ->].
  pose proof (lookup_lt_Some _ _ _ E). split; [lia|done].
Qed.

Lemma session_set w p s0 s q : get_session w p = Done s0 →
  get_session (set_session w p s) q = if decide (q = p) then Done s else get_session w q.
Proof.
  intros Hp. apply session_at in Hp as [Hp Hl]. unfold get_session, set_session. cbn.
  destruct (decide (q = p)) as [->|Hq].
  - destruct (Z.ltb_spec 0 p); [|lia]. rewrite list_lookup_insert_eq; [done|]. by eapply lookup_lt_Some.
  - destruct (Z.ltb_spec 0 q); [|done]. rewrite list_lookup_insert_ne; [done|lia].
Qed.

Lemma reg_at w p s : get_reg w p = Done s → 0 < p ≤ len (regs w) ∧ regs w !! Z.to_nat (p - 1) = Some s.
Proof.
  unfold get_reg. destruct (Z.ltb_spec 0 p); [|done]. destruct (regs w !! _) as [s'|] eqn:E; [|done]. intros [= ->].
  pose proof (lookup_lt_Some _ _ _ E). split; [lia|done].
Qed.

Lemma reg_set w p s0 s q : get_reg w p = Done s0 →
  get_reg (set_reg w p s) q = if decide (q = p) then Done s else get_reg w q.
Proof.
  intros Hp. apply reg_at in Hp as [Hp Hl]. unfold get_reg, set_reg. cbn.
  destruct (decide (q = p)) as [->|Hq].
  - destruct (Z.ltb_spec 0 p); [|lia]. rewrite list_lookup_insert_eq; [done|]. by eapply lookup_lt_Some.
  - destruct (Z.ltb_spec 0 q); [|done]. rewrite list_lookup_insert_ne; [done|lia].
Qed.

Lemma session_new w s q s' : get_session w q = Done s' → get_session (MkWorld (heap w ++ [s]) (regs w)) q = Done s' ∧ q ≠ len (heap w) + 1.
Proof.
  intros Hq. pose proof (session_at _ _ _ Hq) as [Hr Hl]. split; [|lia]. unfold get_session in *. cbn.
  destruct (Z.ltb_spec 0 q); [|done]. by rewrite (lookup_app_l_Some _ _ _ _ Hl).
Qed.

Lemma session_newest w s : get_session (MkWorld (heap w ++ [s]) (regs w)) (len (heap w) + 1) = Done s.
Proof.
  unfold get_session. cbn. destruct (Z.ltb_spec 0 (len (heap w) + 1)); [|lia].
  replace (Z.to_nat (len (heap w) + 1 - 1)) with (length (heap w)) by (lia).
  by rewrite lookup_app_r, Nat.sub_diag.
Qed.

Lemma reg_new w r q x : get_reg w q = Done x → get_reg (MkWorld (heap w) (regs w ++ [r])) q = Done x ∧ q ≠ len (regs w) + 1.
Proof.
  intros Hq. pose proof (reg_at _ _ _ Hq) as [Hr Hl]. split; [|lia]. unfold get_reg in *. cbn.
  destruct (Z.ltb_spec 0 q); [|done]. by rewrite (lookup_app_l_Some _ _ _ _ Hl).
Qed.

Lemma reg_newest w r : get_reg (MkWorld (heap w) (regs w ++ [r])) (len (regs w) + 1) = Done r.
Proof.
  unfold get_reg. cbn. destruct (Z.ltb_spec 0 (len (regs w) + 1)); [|lia].
  replace (Z.to_nat (len (regs w) + 1 - 1)) with (length (regs w)) by (lia).
  by rewrite lookup_app_r, Nat.sub_diag.
Qed.

(** ** What an operation leaves as it is *)

(** A session that can be closed. *)
Definition ready (s : session) : bool :=
  implb (s_dspserdr s) (bool_decide (is_Some (s_in s))) && implb (s_dspsewtr s) (bool_decide (is_Some (s_out s))).

Definition view (s : session) := (s_owner s, s_key s, s_sessions s, (s_in s, s_dspserdr s, s_out s, s_dspsewtr s)).

Lemma view_ready s s' : (s_in s, s_dspserdr s, s_out s, s_dspsewtr s) = (s_in s', s_dspserdr s', s_out s', s_dspsewtr s') → ready s = ready s'.
Proof. unfold ready. by intros [= -> -> -> ->]. Qed.

(** The sessions but [c], and the registries but [c], are as they were. *)
Definition kept (c : Z) (w w' : world) : Prop :=
  ∀ q s, q ≠ c → get_session w q = Done s → ∃ s', get_session w' q = Done s' ∧ view s' = view s.
Definition regs_kept (c : Z) (w w' : world) : Prop := ∀ q x, q ≠ c → get_reg w q = Done x → get_reg w' q = Done x.

Lemma kept_same c w : kept c w w.
Proof. intros q s _ Hq. eauto. Qed.

Lemma kept_then c c' w1 w2 w3 : c' = c ∨ c' = 0 → kept c w1 w2 → kept c' w2 w3 → kept c w1 w3.
Proof.
  intros Hc H12 H23 q s Hqc Hq. destruct (H12 q s Hqc Hq) as (s2 & Hq2 & Hv2).
  assert (q ≠ c') as Hq' by (destruct Hc as [->| ->]; [done|apply session_at in Hq; lia]).
  destruct (H23 q s2 Hq' Hq2) as (s3 & Hq3 & Hv3). exists s3. split; [done|]. by rewrite Hv3.
Qed.

Lemma kept_set c w p s0 s : get_session w p = Done s0 → p = c ∨ view s = view s0 → kept c w (set_session w p s).
Proof.
  intros Hp Hv q sq Hqc Hq. rewrite (session_set _ _ s0 _ _ Hp). case_decide as Heq; [|eauto]. subst q.
  destruct Hv as [->|Hv]; [done|]. rewrite Hp in Hq. injection Hq as <-. eauto.
Qed.

Lemma regs_kept_refl c w w' : regs w' = regs w → regs_kept c w w'.
Proof. intros Hr q x _ Hq. unfold get_reg in *. by rewrite Hr. Qed.

Lemma regs_kept_set c w s0 s : get_reg w c = Done s0 → regs_kept c w (set_reg w c s).
Proof. intros Hp q x Hqc Hq. rewrite (reg_set _ _ s0 _ _ Hp). by case_decide. Qed.

Lemma regs_kept_trans c w1 w2 w3 : regs_kept c w1 w2 → regs_kept c w2 w3 → regs_kept c w1 w3.
Proof. intros H1 H2 q x Hc Hq. eauto. Qed.

Lemma get_session_regs w rs q : get_session (MkWorld (heap w) rs) q = get_session w q.
Proof. done. Qed.

(** ** Opening, using, closing *)

Lemma Db_kept w p s : get_session w p = Done s → ∃ d w', Db w p = Done (d, w') ∧ kept 0 w w' ∧ regs w' = regs w ∧ length (heap w') = length (heap w).
Proof.
  intros Hp. unfold Db. destruct (Z.eqb_spec p 0) as [->|_]; [by apply session_at in Hp; lia|].
  rewrite Hp. cbn. destruct (s_db s), (s_api s) as [[[d|] ?]|].
  all: try (eexists _, _; split_and!; [done|apply kept_same|done|done]).
  eexists _, _. split_and!; [done| |done|apply length_insert]. eapply kept_set; [done|by right].
Qed.

Definition given_ready (g : given) : bool :=
  implb (g_rq g) (bool_decide (is_Some (g_in g))) && implb (g_w g) (bool_decide (is_Some (g_out g))).

Lemma take_arg_ready g a : given_ready g = true → ∃ g', take_arg g a = Done g' ∧ given_ready g' = true.
Proof.
  unfold given_ready. intros Hg. destruct g as [gp gd gi go gf gps grq gw]. cbn in Hg.
  destruct a as [s|d|r|o|f|p|rq|wt|]; cbn -[NewContextPathReader].
  1-6,9: by destruct gi, go, grq, gw; eauto.
  - destruct grq; [eauto|]. destruct gi; [by destruct go, gw; eauto|].
    unfold NewContextPathReader. destruct (range_of _). cbn. by destruct go, gw; eauto.
  - by destruct gw; [eauto|]; destruct gi, go, grq; eauto.
Qed.

Lemma take_args_ready a : ∀ g, given_ready g = true → ∃ g', take_args g a = Done g' ∧ given_ready g' = true.
Proof.
  induction a as [|x a IH]; intros g Hg; cbn [take_args]; [eauto|].
  destruct (take_arg_ready g x Hg) as (g1 & -> & H1). cbn. by apply IH.
Qed.

(** A new session is ready to be closed, and the others are as they were. *)
Lemma NewSession_opens owner so a w : get_session w owner = Done so →
  ∃ w' s, NewSession owner a w = Done (len (heap w) + 1, w') ∧ regs w' = regs w ∧ kept 0 w w' ∧
    get_session w' (len (heap w) + 1) = Done s ∧ s_owner s = owner ∧ s_sessions s = 0 ∧ ready s = true.
Proof.
  intros Ho. unfold NewSession. destruct (Db_kept w owner so Ho) as (d & w1 & -> & Hk & Hr & Hl). cbn [exec_bind].
  assert (owner ≠ 0) as Hne by (apply session_at in Ho; lia). destruct (Z.eqb_spec owner 0); [done|].
  destruct (Hk owner so Hne Ho) as (so' & -> & _). cbn [exec_bind].
  destruct (take_args_ready a (MkGiven [] d (Some so' ≫= s_in) (Some so' ≫= s_out) None None false false) eq_refl) as (g & Hg & Hready).
  rewrite Hg. cbn [exec_bind]. rewrite Hl. eexists _, _. split_and!; [done|done| |rewrite <-Hl; apply session_newest|done..|exact Hready].
  intros q s _ Hq. destruct (Hk q s ltac:(apply session_at in Hq; lia) Hq) as (s' & Hq' & Hv). exists s'. split; [|done].
  by apply session_new.
Qed.

(** An open session of the registry [r] of [p]: ready to be closed; the registry it may have
    itself is another one. *)
Definition client (w : world) (p r : Z) (k : list Z) (s : Z) : Prop :=
  s ≠ p ∧ ∃ x, get_session w s = Done x ∧ s_owner x = p ∧ s_key x = k ∧ ready x = true ∧
    (s_sessions x = 0 ∨ s_sessions x ≠ r ∧ ∃ m, get_reg w (s_sessions x) = Done (MkSessions s m)).

Lemma client_kept c rc w w' p r k s : s ≠ c → kept c w w' → regs_kept rc w w' → (rc = r ∨ ∀ o m, get_reg w rc = Done (MkSessions o m) → o ≠ s) →
  client w p r k s → client w' p r k s.
Proof.
  intros Hc Hk Hr Hrc (Hp & x & Hx & <- & <- & Hready & Hsub). destruct (Hk s x Hc Hx) as (x' & Hx' & Hv). unfold view in Hv. injection Hv as Ho Hkey Hs Hi Hdi Hout Hdo.
  split; [done|]. exists x'. rewrite Ho, Hkey, Hs, (view_ready x' x) by congruence. split_and!; [done..|].
  destruct Hsub as [->|(Hne & m & Hm)]; [by left|right]. split; [done|]. exists m. apply Hr; [|done].
  destruct Hrc as [->|Hrc]; [done|]. intros Heq. rewrite Heq in Hm. by eapply Hrc in Hm.
Qed.

Lemma client_key w p r k k' s : client w p r k s → client w p r k' s → k = k'.
Proof. intros (_ & x & Hx & _ & <- & _) (_ & x' & Hx' & _ & <- & _). rewrite Hx in Hx'. by injection Hx' as <-. Qed.

Lemma client_use u w p r k s y : get_reg w r = Done y → client w p r k s →
  ∃ w', run_use u s w = Done w' ∧ kept s w w' ∧ regs_kept 0 w w' ∧ client w' p r k s.
Proof.
  intros Hry Hs. pose proof Hs as (Hp & x & Hx & Ho & Hkey & Hready & Hsub).
  assert (s ≠ 0) as Hs0 by (apply session_at in Hx; lia). apply Z.eqb_neq in Hs0 as Hs0'.
  assert (∀ x', view x' = view x → kept 0 w (set_session w s x')) as Hset by (intros x' Hv; eapply kept_set; [done|by right]).
  assert (∀ w', kept 0 w w' → regs w' = regs w → kept s w w' ∧ regs_kept 0 w w' ∧ client w' p r k s) as Hall.
  { intros w' Hk Hr. split_and!; [|by apply regs_kept_refl|].
    - intros q sq _ Hq. apply Hk; [|done]. apply session_at in Hq; lia.
    - apply (client_kept 0 r w); [done|done|by apply regs_kept_refl|by left|done]. }
  destruct u as [| | | |c|]; cbn [run_use].
  - unfold Sessions. rewrite Hs0', Hx. cbn [exec_bind]. destruct (Z.eqb_spec (s_sessions x) 0) as [E|E].
    + cbn [NewSessions exec_bind]. eexists. split; [done|]. set (w1 := MkWorld (heap w) _).
      assert (get_session w1 s = Done x) as Hx1 by done. split_and!.
      * intros q sq Hq Hsq. exists sq. rewrite (session_set _ _ x _ _ Hx1). by case_decide.
      * intros q xq _ Hq. by apply reg_new.
      * split; [done|]. eexists. rewrite (session_set _ _ x _ _ Hx1). case_decide; [|done].
        split_and!; [done..|]. right. cbn. split; [|eexists; apply reg_newest]. apply (reg_new w (MkSessions 0 None)) in Hry. intros ?; by destruct Hry.
    + eexists. split; [done|]. apply Hall; [apply kept_same|done].
  - unfold Cache. rewrite Hs0', Hx. cbn [exec_bind]. eexists. split; [done|]. by apply Hall; [apply Hset|].
  - destruct (Db_kept w s x Hx) as (d & w' & -> & Hk & Hr & _). eexists. split; [done|]. by apply Hall.
  - unfold Params. rewrite Hs0', Hx. cbn [exec_bind]. destruct (s_params x), (s_in x); cbn [exec_bind].
    all: eexists; split; [done|]; by apply Hall; [first [apply kept_same|apply Hset]|].
  - unfold API. rewrite Hs0', Hx. cbn [exec_bind]. destruct (s_api x); cbn [exec_bind].
    all: eexists; split; [done|]; by apply Hall; [first [apply kept_same|apply Hset]|].
  - unfold VM. rewrite Hs0', Hx. cbn [exec_bind]. destruct (s_vm x), (s_api x ≫= InvokeVM); cbn [exec_bind].
    all: eexists; split; [done|]; by apply Hall; [first [apply kept_same|apply Hset]|].
Qed.

Definition is_delete (t : task) : bool := match t with TaskDelete _ _ => true | _ => false end.

Definition closings {A} (yes : bool) (o : option A) (e : A → effect) : list effect :=
  match o with Some a => if yes then [e a] else [] | None => [] end.

Lemma must_close_ready {A} b (o : option A) e : implb b (bool_decide (is_Some o)) = true → must_close b o e = Done (closings b o e).
Proof. by destruct b, o. Qed.

(** Closing an open session touches it and its own registry, and leaves one deletion. *)
Lemma client_close w p r k s sp : r ≠ 0 → get_session w p = Done sp → s_sessions sp = r → client w p r k s →
  ∃ x cs ts c w', get_session w s = Done x ∧
    Close s w = Done (closings (s_dspserdr x) (s_in x) CloseReader ++ closings (s_dspsewtr x) (s_out x) CloseWriter ++ cs, ts ++ [TaskDelete r k], w') ∧
    (∀ o, CloseWriter o ∉ cs) ∧ Forall (λ t, is_delete t = false) ts ∧
    kept s w w' ∧ regs_kept c w w' ∧ c ≠ r ∧ (∀ o m, get_reg w c = Done (MkSessions o m) → o = s).
Proof.
  intros Hr0 Hsp Hspr (Hp & x & Hx & <- & <- & Hready & Hsub). unfold Close.
  assert (s ≠ 0) as Hs0 by (apply session_at in Hx; lia). apply Z.eqb_neq in Hs0 as Hs0'. rewrite Hs0', Hx. cbn [exec_bind].
  apply andb_prop in Hready as [Hb1 Hb2].
  rewrite (must_close_ready _ _ CloseReader Hb1), (must_close_ready _ _ CloseWriter Hb2).
  cbn [exec_bind]. set (gone := MkSession 0 _ _ _ _ _ _ _ _ _ _ _ _ _). set (w1 := set_session w s gone).
  assert (get_session w1 s = Done gone) as Hg by (unfold w1; rewrite (session_set _ _ x _ _ Hx); by case_decide).
  assert (kept s w w1) as Hk1 by (eapply kept_set; [done|by left]).
  assert (∃ ts w2, reg_Close (s_sessions x) w1 = Done (ts, w2) ∧ Forall (λ t, is_delete t = false) ts ∧ kept s w w2 ∧
    regs_kept (s_sessions x) w w2) as (ts & w2 & -> & Hts & Hk2 & Hr2).
  { unfold reg_Close. destruct Hsub as [->|(Hne & m & Hm)]; [by eexists _, _; split_and!; [|constructor| |apply regs_kept_refl]|].
    assert (s_sessions x ≠ 0) as H0 by (apply reg_at in Hm; lia). apply Z.eqb_neq in H0. rewrite H0.
    change (get_reg w1 (s_sessions x)) with (get_reg w (s_sessions x)). rewrite Hm. cbn [exec_bind owener IterateMap]. rewrite Hs0'.
    change (get_session (set_reg w1 _ _) s) with (get_session w1 s). rewrite Hg. cbn [exec_bind].
    eexists _, _. split_and!; [done|by destruct m; [apply Forall_singleton|apply Forall_nil]| |].
    2: { apply (regs_kept_trans _ _ w1); [by apply regs_kept_refl|]. eapply regs_kept_trans; [by eapply regs_kept_set|by apply regs_kept_refl]. }
    eapply kept_then; [by left|exact Hk1|]. intros q sq Hq Hsq. exists sq. rewrite (session_set (set_reg w1 _ _) _ gone _ _ Hg). by case_decide. }
  destruct (Hk2 (s_owner x) sp ltac:(done) Hsp) as (sp' & Hsp' & [= _ _ Hs' _ _ _ _]).
  cbn [exec_bind]. destruct (Z.eqb_spec (s_owner x) 0) as [E|_]; [rewrite E in Hsp; by apply session_at in Hsp; lia|].
  rewrite Hsp'. cbn [exec_bind]. rewrite Hs', Hspr. apply Z.eqb_neq in Hr0 as Hr0'. rewrite Hr0'.
  eexists x, _, (_ ++ ts), (s_sessions x), w2. split_and!; [done|by rewrite <-app_assoc|destruct (s_cache x); set_solver| |done|done| |].
  - apply Forall_app. split; [|done]. by destruct (s_db x); [apply Forall_singleton|apply Forall_nil].
  - destruct Hsub as [->|[? _]]; [by intros <-|done].
  - intros o m Hm. destruct Hsub as [E|(_ & m' & Hm')]; [rewrite E in Hm; by apply reg_at in Hm; lia|congruence].
Qed.

(** ** What a registry holds *)

Lemma open_key_ok name now : open_key name now ≠ [].
Proof.
  unfold open_key. case_decide as E; [|done]. unfold UniqueKey, nextserial, FormatInt. destruct (_ <? 0); [done|].
  cbn [digits]. by destruct (if 9 <? now then _ else _).
Qed.

(** What is in the registry: the sessions that are open, under their keys, and of the others
    only those whose deletion is left to a goroutine. *)
Record works (p r : Z) (used : list (list Z)) (st : running) : Prop := {
  w_owner : ∃ sp, get_session (r_world st) p = Done sp ∧ s_sessions sp = r;
  w_clients : ∀ k s, r_clients st !! k = Some s → client (r_world st) p r k s;
  w_tasks : ∀ q k, TaskDelete q k ∈ r_tasks st → q = r ∧ r_clients st !! k = None ∧ k ∈ used;
  w_names : [] ∉ used;
  w_reg : ∃ m, get_reg (r_world st) r = Done (MkSessions p (Some (MkIterMap (Some m) None))) ∧
    (∀ k s, r_clients st !! k = Some s → m !! k = Some s) ∧
    (∀ k, is_Some (m !! k) → k ∈ used ∧ (is_Some (r_clients st !! k) ∨ TaskDelete r k ∈ r_tasks st)) }.

Lemma reg_Set_fresh w p r m key ssn s : get_reg w r = Done (MkSessions p (Some (MkIterMap (Some m) None))) → key ≠ [] → m !! key = None →
  get_session w ssn = Done s →
  reg_Set r key ssn w = Done (set_session (set_reg w r (MkSessions p (Some (MkIterMap (Some (<[key := ssn]> m)) None)))) ssn (set_key s key)).
Proof.
  intros Hr Hk Hm Hs. unfold reg_Set.
  destruct (Z.eqb_spec r 0) as [->|_]; [by apply reg_at in Hr; lia|]. destruct (Z.eqb_spec ssn 0) as [->|_]; [by apply session_at in Hs; lia|].
  rewrite bool_decide_eq_false_2 by done. cbn [orb]. rewrite Hr. cbn [exec_bind IterateMap].
  unfold IterMap.Set_. cbn [empty_name session_Entries]. rewrite bool_decide_eq_false_2 by done. cbn [orgsncmp]. rewrite Hm. cbn [exec_bind].
  change (get_session (set_reg w r _) ssn) with (get_session w ssn). by rewrite Hs.
Qed.

(** A new session [ssn] of [w1], put into the registry. *)
Lemma registered w w1 p r m s ssn key : get_reg w r = Done (MkSessions p (Some (MkIterMap (Some m) None))) → m !! key = None → key ≠ [] →
  kept 0 w w1 → regs w1 = regs w → get_session w1 ssn = Done s → s_owner s = p → s_sessions s = 0 → ready s = true →
  (∀ q sq, get_session w q = Done sq → q ≠ ssn) → ssn ≠ p →
  ∃ w', reg_Set r key ssn w1 = Done w' ∧ kept 0 w w' ∧ regs_kept r w w' ∧ client w' p r key ssn ∧
    get_reg w' r = Done (MkSessions p (Some (MkIterMap (Some (<[key := ssn]> m)) None))) ∧ get_session w' ssn = Done (set_key s key).
Proof.
  intros Hr Hm Hk Hkept Hregs Hs Ho Hsub Hready Hold Hne.
  assert (∀ q, get_reg w1 q = get_reg w q) as Hrw by (intros q; unfold get_reg; by rewrite Hregs).
  assert (get_reg w1 r = Done (MkSessions p (Some (MkIterMap (Some m) None)))) as Hr1 by by rewrite Hrw.
  rewrite (reg_Set_fresh w1 p r m key ssn s Hr1 Hk Hm Hs). eexists. split; [done|].
  set (w2 := set_reg w1 r _). assert (get_session w2 ssn = Done s) as Hs2 by done.
  assert (∀ q, get_session (set_session w2 ssn (set_key s key)) q = if decide (q = ssn) then Done (set_key s key) else get_session w1 q) as H3
    by (intros q; exact (session_set w2 ssn s _ q Hs2)).
  assert (∀ q, get_reg w2 q = if decide (q = r) then Done (MkSessions p (Some (MkIterMap (Some (<[key := ssn]> m)) None))) else get_reg w q) as R3
    by (intros q; rewrite <-Hrw; exact (reg_set w1 r _ _ q Hr1)).
  split_and!.
  - intros q sq Hq0 Hq. rewrite H3, decide_False by eauto. by apply Hkept.
  - intros q x Hq Hqx. change (get_reg w2 q = Done x). rewrite R3. by case_decide.
  - split; [done|]. exists (set_key s key). rewrite H3, decide_True by done. split_and!; [done..|by left].
  - change (get_reg w2 r = Done (MkSessions p (Some (MkIterMap (Some (<[key := ssn]> m)) None)))). rewrite R3. by case_decide.
  - rewrite H3. by case_decide.
Qed.

Lemma session_old w q sq : get_session w q = Done sq → q ≠ len (heap w) + 1.
Proof. intros Hq. apply session_at in Hq. lia. Qed.

Lemma New_opens w p r m sp name a now :
  let key := open_key name now in
  get_session w p = Done sp → get_reg w r = Done (MkSessions p (Some (MkIterMap (Some m) None))) → m !! key = None →
  s_sessions sp = r →
  ∃ ssn w', New r name a now w = Done (ssn, w') ∧ kept 0 w w' ∧ regs_kept r w w' ∧ client w' p r key ssn ∧
    get_reg w' r = Done (MkSessions p (Some (MkIterMap (Some (<[key := ssn]> m)) None))).
Proof.
  intros key Hp Hr Hm Hsr. pose proof (open_key_ok name now : key ≠ []) as Hk.
  destruct (NewSession_opens p sp a w Hp) as (w1 & s & HN & Hregs & Hkept & Hs & Ho & Hsub & Hready).
  set (ssn := len (heap w) + 1) in *. set (w2 := set_session w1 ssn (set_key s key)).
  assert (get_session w2 ssn = Done (set_key s key)) as Hs2 by (unfold w2; rewrite (session_set _ _ s _ _ Hs); by case_decide).
  assert (kept 0 w w2) as Hkept2.
  { intros q sq Hq0 Hq. destruct (Hkept q sq Hq0 Hq) as (s' & Hs' & Hv). exists s'. unfold w2. rewrite (session_set _ _ s _ _ Hs), decide_False by (by eapply session_old).
    done. }
  destruct (registered w w2 p r m (set_key s key) ssn key Hr Hm Hk Hkept2 Hregs Hs2 Ho Hsub Hready (session_old w)) as (w' & HS & ? & ? & ? & ? & _);
    [by apply not_eq_sym; eapply session_old|].
  exists ssn, w'. split; [|done]. unfold New. destruct (Z.eqb_spec r 0) as [->|Hr0]; [by apply reg_at in Hr; lia|]. apply Z.eqb_neq in Hr0.
  assert ((let* '(c, w1) := NewSession p a w in let* s := get_session w1 c in
    let* w2 := reg_Set r key c (set_session w1 c (set_key s key)) in Done (c, w2)) = Done (ssn, w')) as Hmake
    by (rewrite HN; cbn [exec_bind]; rewrite Hs; cbn [exec_bind]; fold w2; by rewrite HS).
  rewrite Hr. cbn [exec_bind owener]. unfold key, open_key in *. case_decide as E; [exact Hmake|].
  unfold reg_Get. rewrite Hr0, Hr. cbn [exec_bind IterateMap]. unfold IterMap.Get. cbn [empty_name session_Entries orgsncmp].
  rewrite bool_decide_eq_false_2, Hm by done. exact Hmake.
Qed.

Lemma works_more p r used k st : k ≠ [] → works p r used st → works p r (k :: used) st.
Proof.
  intros Hk [Ho Hc Ht Hn (m & Hm & Hin & Hout)]. split; [done|done| | |].
  - intros q k' Hq. destruct (Ht q k' Hq) as (? & ? & ?). split_and!; [done..|set_solver].
  - set_solver.
  - exists m. split_and!; [done..|]. intros k' Hk'. destruct (Hout k' Hk'). split; [set_solver|done].
Qed.

Lemma works_open p r used st name a now : works p r used st → open_key name now ∉ used →
  ∃ st', happen r (Open name a now) st = Done st' ∧ works p r (open_key name now :: used) st'.
Proof.
  intros [(sp & Hp & Hr) Hc Ht Hn (m & Hm & Hin & Hout)] Hk. set (key := open_key name now) in *.
  assert (m !! key = None) as Hmk by (destruct (m !! key) eqn:E; [by edestruct Hout; [rewrite E|]|done]).
  destruct (New_opens (r_world st) p r m sp name a now Hp Hm Hmk Hr) as (ssn & w' & HN & Hk1 & Hk2 & Hcl & Hm').
  cbn [happen]. rewrite HN. cbn [exec_bind]. eexists. split; [done|]. fold key in Hm', Hcl |- *. split; cbn [r_world r_tasks r_clients].
  - destruct (Hk1 p sp ltac:(apply session_at in Hp; lia) Hp) as (sp' & Hp' & [= _ _ Hs' _ _ _ _]). exists sp'. by rewrite Hs'.
  - intros k s [[<- <-]|[Hne Hs]]%lookup_insert_Some; [done|].
    apply (client_kept 0 r (r_world st)); [|done..|by left|by apply Hc]. destruct (Hc k s Hs) as (_ & x & Hx & _). apply session_at in Hx; lia.
  - intros q k Hq. destruct (Ht q k Hq) as (-> & Hnone & Hu). split_and!; [done| |set_solver].
    rewrite lookup_insert_ne; [done|]. intros <-. done.
  - intros [E|]%elem_of_cons; [|done]. by eapply open_key_ok.
  - eexists. split; [exact Hm'|]. split.
    + intros k s [[<- <-]|[Hne Hs]]%lookup_insert_Some; [by rewrite lookup_insert_eq|]. rewrite lookup_insert_ne; auto.
    + intros k. destruct (decide (key = k)) as [<-|Hne]; [rewrite !lookup_insert_eq; set_solver|].
      rewrite !lookup_insert_ne by done. intros Hsk. destruct (Hout k Hsk). split; [set_solver|done].
Qed.

Lemma works_use p r used st k u : works p r used st → ∃ st', happen r (UseOf k u) st = Done st' ∧ works p r used st'.
Proof.
  intros W. pose proof W as [(sp & Hp & Hr) Hc Ht Hn (m & Hm & Hin & Hout)]. cbn [happen].
  destruct (r_clients st !! k) as [s|] eqn:Hs; [|by exists st].
  destruct (client_use u (r_world st) p r k s _ Hm (Hc k s Hs)) as (w' & -> & Hk1 & Hk2 & Hcl).
  cbn [exec_bind]. eexists. split; [done|]. assert (r ≠ 0) as Hr0 by (apply reg_at in Hm; lia). split; cbn [r_world r_tasks r_clients]; [..|done|done|].
  - destruct (Hc k s Hs) as (Hsp & _).
    destruct (Hk1 p sp (not_eq_sym Hsp) Hp) as (sp' & Hp' & [= _ _ Hs' _ _ _ _]). exists sp'. by rewrite Hs'.
  - intros k' s' Hs'. destruct (decide (s' = s)) as [->|Hne].
    + by rewrite <-(client_key _ _ _ _ _ _ (Hc k s Hs) (Hc k' s Hs')).
    + apply (client_kept s 0 (r_world st)); [done..| |by apply Hc]. right. intros o mm Ho. by apply reg_at in Ho; lia.
  - exists m. split_and!; [by apply Hk2|done|done].
Qed.

Lemma works_close p r used st k : works p r used st → ∃ st', happen r (CloseOf k) st = Done st' ∧ works p r used st'.
Proof.
  intros W. pose proof W as [(sp & Hp & Hr) Hc Ht Hn (m & Hm & Hin & Hout)]. cbn [happen].
  destruct (r_clients st !! k) as [s|] eqn:Hs; [|by exists st].
  assert (r ≠ 0) as Hr0 by (apply reg_at in Hm; lia).
  destruct (client_close (r_world st) p r k s sp Hr0 Hp Hr (Hc k s Hs)) as (x & cs & ts & c & w' & _ & -> & _ & Hts & Hk1 & Hk2 & Hcr & Hco).
  cbn [exec_bind]. eexists. split; [done|].
  assert (∀ q k', TaskDelete q k' ∈ r_tasks st ++ ts ++ [TaskDelete r k] ↔ TaskDelete q k' ∈ r_tasks st ∨ (q = r ∧ k' = k)) as Htask.
  { intros q k'. rewrite Forall_forall in Hts. rewrite !elem_of_app, list_elem_of_singleton. split; [|by intros [?|[-> ->]]; eauto].
    intros [?|[Hq|[= -> ->]]]; [by left|by apply Hts in Hq|by right]. }
  split; cbn [r_world r_tasks r_clients]; [..|done|].
  - destruct (Hc k s Hs) as (Hsp & _).
    destruct (Hk1 p sp (not_eq_sym Hsp) Hp) as (sp' & Hp' & [= _ _ Hs' _ _ _ _]). exists sp'. by rewrite Hs'.
  - intros k' s' [Hne Hs']%lookup_delete_Some. assert (s' ≠ s) as Hss.
    { intros ->. apply Hne. exact (client_key _ _ _ _ _ _ (Hc k s Hs) (Hc k' s Hs')). }
    apply (client_kept s c (r_world st)); [done..| |by apply Hc]. right. intros o mm Ho. rewrite (Hco _ _ Ho). by apply not_eq_sym.
  - intros q k' [Hq|[-> ->]]%Htask.
    + destruct (Ht q k' Hq) as (? & ? & ?). split_and!; [done| |done]. apply lookup_delete_None. by right.
    + split_and!; [done|apply lookup_delete_eq|]. destruct (Hout k) as [? _]; [by rewrite (Hin k s Hs)|done].
  - exists m. split; [by apply Hk2; [apply not_eq_sym|]|]. split; [intros k' s' [_ Hs']%lookup_delete_Some; auto|].
    intros k' Hk'. destruct (Hout k' Hk') as [? Hor]. split; [done|]. rewrite Htask.
    destruct (decide (k' = k)) as [->|Hne]; [by right; right|]. rewrite lookup_delete_ne by done. destruct Hor; auto.
Qed.

Lemma works_goroutine p r used st i : works p r used st → ∃ st', happen r (Goroutine i) st = Done st' ∧ works p r used st'.
Proof.
  intros W. pose proof W as [(sp & Hp & Hr) Hc Ht Hn (m & Hm & Hin & Hout)]. cbn [happen].
  destruct (r_tasks st !! i) as [t|] eqn:Hi; [|by exists st].
  assert (∀ t', t' ∈ list_delete i (r_tasks st) → t' ∈ r_tasks st) as Hsub by (intros t'; rewrite (delete_Permutation _ _ _ Hi) at 2; by right).
  assert (∀ t', t' ∈ r_tasks st → t' = t ∨ t' ∈ list_delete i (r_tasks st)) as Hsplit.
  { intros t' Ht'. rewrite (delete_Permutation _ _ _ Hi) in Ht'. by apply elem_of_cons in Ht'. }
  destruct t as [d|mm|q k]; cbn [run_task exec_bind].
  1-2: eexists; split; [done|]; split; cbn [r_world r_tasks r_clients]; [eauto|done|eauto|done|]; exists m; split_and!; [done..|];
    intros k' Hk'; destruct (Hout k' Hk') as [? [?|[|]%Hsplit]]; auto; done.
  destruct (Ht q k) as (-> & Hnone & Hu); [by apply list_elem_of_lookup_2 in Hi|].
  assert (k ≠ []) as Hk0 by (by intros ->). unfold reg_Delete. destruct (Z.eqb_spec r 0) as [->|_]; [by apply reg_at in Hm; lia|].
  cbn [orb]. rewrite bool_decide_eq_false_2 by done. rewrite Hm. cbn [exec_bind IterateMap owener].
  unfold IterMap.Delete. cbn [List.filter empty_name session_Entries]. rewrite bool_decide_eq_false_2 by done. cbn [negb orgsncmp exec_bind fst].
  set (m' := base.filter (λ kv : list Z * Z, kv.1 ∉ [k]) m).
  assert (∀ k' s, m' !! k' = Some s ↔ m !! k' = Some s ∧ k' ≠ k) as Hm' by (intros k' s; unfold m'; rewrite map_lookup_filter_Some; set_solver).
  eexists. split; [done|]. split; cbn [r_world r_tasks r_clients].
  - by exists sp.
  - intros k' s Hs. destruct (Hc k' s Hs) as (_ & x & Hx & _). apply session_at in Hx.
    apply (client_kept 0 r (r_world st)); [lia|exact (kept_same 0 (r_world st))|by eapply regs_kept_set|by left|by apply Hc].
  - eauto.
  - done.
  - exists m'. split; [rewrite (reg_set _ _ _ _ _ Hm); by case_decide|]. split.
    + intros k' s Hs. apply Hm'. split; [by apply Hin|]. intros ->. congruence.
    + intros k' [s [Hs Hne]%Hm']. destruct (Hout k') as [? [?|[[= ->]|]%Hsplit]]; [by eexists|auto|done|auto].
Qed.

Lemma happen_all_works hs p r : ∀ used st, works p r used st → NoDup (open_keys hs) → (∀ k, k ∈ open_keys hs → k ∉ used) →
  ∃ used' st', happen_all r hs st = Done st' ∧ works p r used' st'.
Proof.
  induction hs as [|h hs IH]; intros used st W Hnd Hfresh; cbn [happen_all]; [by exists used, st|].
  destruct h as [name a now|k u|k|i]; cbn [open_keys] in *.
  - apply NoDup_cons in Hnd as [Hnk Hnd].
    destruct (works_open p r used st name a now W) as (st' & -> & W'); [apply Hfresh; by left|]. cbn [exec_bind].
    apply (IH _ _ W'); [done|]. intros k Hk [->|Hu]%elem_of_cons; [done|]. apply (Hfresh k); [by right|done].
  - destruct (works_use p r used st k u W) as (st' & -> & W'). cbn [exec_bind]. eauto.
  - destruct (works_close p r used st k W) as (st' & -> & W'). cbn [exec_bind]. eauto.
  - destruct (works_goroutine p r used st i W) as (st' & -> & W'). cbn [exec_bind]. eauto.
Qed.

(** The registry of a session that has none yet. *)
Lemma Sessions_works p w sp : get_session w p = Done sp → s_sessions sp = 0 →
  ∃ r w', Sessions p w = Done (r, w') ∧ works p r [] (MkRunning w' [] ∅).
Proof.
  intros Hp Hs. unfold Sessions. destruct (Z.eqb_spec p 0) as [->|_]; [by apply session_at in Hp; lia|].
  rewrite Hp. cbn [exec_bind]. rewrite Hs, Z.eqb_refl. cbn [NewSessions]. eexists _, _. split; [done|].
  set (w1 := MkWorld (heap w) _). assert (get_session w1 p = Done sp) as Hp1 by done. split; cbn [r_world r_tasks r_clients].
  - eexists. rewrite (session_set _ _ sp _ _ Hp1). by case_decide.
  - intros k s Hk. by rewrite lookup_empty in Hk.
  - intros q k Hq. by apply not_elem_of_nil in Hq.
  - apply not_elem_of_nil.
  - exists ∅. split; [exact (reg_newest w (MkSessions p (Some MapIterator)))|]. split; intros k; rewrite lookup_empty; [done|by intros [? ?]].
Qed.

Lemma works_Get p r used st k : works p r used st →
  match r_clients st !! k with
  | Some ssn => reg_Get r k (r_world st) = Done (ssn, true) ∧ ∃ x, get_session (r_world st) ssn = Done x ∧ s_key x = k ∧ s_owner x = p
  | None => TaskDelete r k ∉ r_tasks st → reg_Get r k (r_world st) = Done (0, false)
  end.
Proof.
  intros [_ Hc _ Hn (m & Hm & Hin & Hout)]. unfold reg_Get.
  destruct (Z.eqb_spec r 0) as [->|_]; [by apply reg_at in Hm; lia|]. rewrite Hm. cbn [exec_bind IterateMap].
  unfold IterMap.Get. cbn [empty_name session_Entries orgsncmp zero_value].
  assert (is_Some (m !! k) → k ≠ []) as Hk by (intros Hs ->; by destruct (Hout [] Hs)).
  destruct (r_clients st !! k) as [ssn|] eqn:E.
  - rewrite (Hin k ssn E) in *. rewrite bool_decide_eq_false_2 by (apply Hk; eauto). split; [done|].
    destruct (Hc k ssn E) as (_ & x & ? & ? & ? & _). eauto.
  - intros Ht. destruct (m !! k) as [s|] eqn:Em; [|by case_bool_decide].
    destruct (Hout k) as [_ [Hs|]]; [by rewrite Em|by rewrite E in Hs; destruct Hs|done].
Qed.

(** C8: A registry of sessions holds what is open.  Sessions of a session that had none
    makes one, and whatever happens to it then - sessions opened under different keys with
    any arguments, used, closed, and the goroutines that closing leaves run at any time in
    any order - nothing panics, every session that is open is found under its key, and under
    a key whose session was closed nothing is found as soon as no deletion of it is left to
    a goroutine. *)
Theorem registry_holds_open hs p w sp : get_session w p = Done sp → s_sessions sp = 0 → NoDup (open_keys hs) →
  ∃ r w' st, Sessions p w = Done (r, w') ∧ happen_all r hs (MkRunning w' [] ∅) = Done st ∧
    ∀ k, match r_clients st !! k with
         | Some ssn => reg_Get r k (r_world st) = Done (ssn, true) ∧ ∃ x, get_session (r_world st) ssn = Done x ∧ s_key x = k ∧ s_owner x = p
         | None => TaskDelete r k ∉ r_tasks st → reg_Get r k (r_world st) = Done (0, false)
         end.
Proof.
  intros Hp Hs Hnd. destruct (Sessions_works p w sp Hp Hs) as (r & w' & HS & W).
  destruct (happen_all_works hs p r [] _ W Hnd) as (used & st & Hall & W'); [intros k _; apply not_elem_of_nil|].
  exists r, w', st. split_and!; [done..|]. intros k. by eapply works_Get.
Qed.

(** Two sessions with keys of their own; the first is closed, and its deletion runs. *)
Definition main_world : world := MkWorld [MkSession 0 [] [] false None None false None None false None 0 None None] [].
Definition two_opened : list happening := [Open [] [ArgString [47]] 17; Open [] [ArgIoWriter 1] 18; CloseOf [49; 55]; Goroutine 0].

Lemma registry_holds_open_witness :
  NoDup (open_keys two_opened) ∧
  ∃ r w' st, Sessions 1 main_world = Done (r, w') ∧ happen_all r two_opened (MkRunning w' [] ∅) = Done st ∧
    ∀ k, match r_clients st !! k with
         | Some ssn => reg_Get r k (r_world st) = Done (ssn, true) ∧ ∃ x, get_session (r_world st) ssn = Done x ∧ s_key x = k ∧ s_owner x = 1
         | None => TaskDelete r k ∉ r_tasks st → reg_Get r k (r_world st) = Done (0, false)
         end.
Proof.
  assert (NoDup (open_keys two_opened)) as Hnd by (vm_compute; repeat constructor; set_solver).
  split; [exact Hnd|]. by eapply (registry_holds_open two_opened 1 main_world); [reflexivity|reflexivity|].
Defined.

(** What is found in a registry, by position: pointers, or nothing. *)
Definition found (hs : list happening) (ks : list (list Z)) : exec (list (exec (Z * bool))) :=
  let* '(r, w) := Sessions 1 main_world in
  let* st := happen_all r hs (MkRunning w [] ∅) in Done (map (λ k, reg_Get r k (r_world st)) ks).

(** Two sessions in one reading of the clock get one key: the second takes the place of the
    first, which is in no registry from then on. *)
Example equal_clock : found [Open [] [] 17; Open [] [] 17] [FormatInt 17] = Done [Done (3, true)].
Proof. vm_compute. reflexivity. Qed.

(** A session opened under the name of one just closed, before the goroutine that deletes it
    ran, is the closed one, and is deleted then. *)
Example reopened : found [Open [97] [] 17; CloseOf [97]; Open [97] [] 18] [[97]] = Done [Done (2, true)].
Proof. vm_compute. reflexivity. Qed.
Example reopened_deleted : found [Open [97] [] 17; CloseOf [97]; Open [97] [] 18; Goroutine 0] [[97]] = Done [Done (0, false)].
Proof. vm_compute. reflexivity. Qed.

(** A key between texts has the first of them on both sides. *)
Example UniqueKey_twice : UniqueKey 17 [[97]; [98]] = [97; 49; 55; 97].
Proof. reflexivity. Qed.
