(* ===== verification/MultiFs.v ===== *)
(** src/fs/multifilesys.go: file systems under the paths they are mapped to, and the walk
    over a path that finds the one to ask.

    The mapped file systems are an [itermap] (filesystems.go only passes calls on to it).
    A file system is a pointer, asked through the interface [FileSystem], whose methods may
    change the world; [FileSys] implements it.  A context is whether it is done;
    an absent one is [None].  The watcher of the operating system is an argument of [Map].
    [Unload], which waits for the events of the map, and the reading of a configuration from
    JSON in [Load] are left out. *)

From S2P Require Import Prelude Runes GoStrings IterMap Paths.
From stdpp Require Import gmap.
#[local] Open Scope Z_scope.

Definition context := option bool.
Definition ctx_Err (ctx : context) : bool := match ctx with Some e => e | None => false end.

Inductive Notify := NOTE_UKNOWN | NOTE_CREATE | NOTE_AMMEND | NOTE_REMOVE.

#[export] Instance notify_eq_dec : EqDecision Notify.
Proof. solve_decision. Defined.

(** A file system, by its pointer: what it answers and what becomes of the world. *)
Class FileSystem (W FI File Arg : Type) := {
  fs_Path : nat → W → list Z;
  fs_StatContext : context → nat → list Z → W → exec (option FI * W);
  fs_Exist : nat → list Z → W → exec (bool * W);
  fs_OpenContext : context → nat → list Z → W → exec (option File * W);
  fs_Set : nat → list Z → list Arg → W → exec (bool * W);
  fi_Path : FI → W → list Z }.

(** What is asked of it besides: its files, and what [Map] does with a new one. *)
Class FileLister (W FI Cb : Type) := {
  fs_List : nat → list Z → W → exec (list FI * W);
  fs_Syncable : nat → W → bool;
  fs_AutoSync : nat → list Z → option Cb → W → exec W;
  fs_new : list Z → bool → W → exec (nat * W);
  fs_attach : nat → list Z → gset (list Z) → gset (list Z) → gset (list Z) → W → W }.

#[export] Instance systems_entries : Entries (list Z) (option nat) := {|
  empty_name s := bool_decide (s = []);
  value_Equal a b := Done (bool_decide (a = b));
  zero_value := None |}.

(** ** The walk over a path *)

Section walk.
Context {R S : Type} (try : list Z → list Z → S → exec (option R * S)).

(** [strip]: [/../] at [pn] is cut out until there is none. *)
Fixpoint strip (n : nat) (path : list Z) (pn pthl : Z) : exec (list Z * Z) :=
  match n with
  | O => NoFuel
  | Datatypes.S n' =>
    let* isup := up_at path pn pthl in
    if (isup : bool) then let* path' := cut_up path pn in strip n' path' pn (pthl - 4) else Done (path, pthl)
  end.

(** [retry]: the slash at [pn]. *)
Fixpoint here (n : nat) (path : list Z) (pn pthl : Z) (s : S) : exec (option R * (list Z * Z) * S) :=
  match n with
  | O => NoFuel
  | Datatypes.S n' =>
    let* prefix := slice path 0 (if pn =? 0 then 1 else pn) in
    let* rest := slice path pn (len path) in
    let* '(r, s1) := try prefix rest s in
    match r with
    | Some _ => Done (r, (path, pthl), s1)
    | None =>
      let* isup := up_at path pn pthl in
      if (isup : bool) then let* '(path', pthl') := strip (length path) path pn pthl in here n' path' pn pthl' s1
      else Done (None, (path, pthl), s1)
    end
  end.

(** From [tpn] back over what ends in [/../] there. *)
Fixpoint skip_up (n : nat) (path : list Z) (tpn : Z) : exec Z :=
  match n with
  | O => NoFuel
  | Datatypes.S n' =>
    if 3 <? tpn then
      let* t := slice path (tpn - 3) (tpn + 1) in
      if bool_decide (t = up) then skip_up n' path (tpn - 3) else Done tpn
    else Done tpn
  end.

(** The slash before [tpn], after [pn]; without one the walk ends. *)
Fixpoint slash_before (n : nat) (path : list Z) (pn tpn : Z) : exec (option Z * bool) :=
  match n with
  | O => NoFuel
  | Datatypes.S n' =>
    if pn <? tpn then
      if tpn - 1 =? pn then Done (None, true)
      else let* x := index path (tpn - 1) in
           if x =? 47 then Done (Some (tpn - 1), false) else slash_before n' path pn (tpn - 1)
    else Done (None, false)
  end.

(** [retrytpn]: the slash at [tpn] and those before it; whether the walk ends. *)
Fixpoint back (n : nat) (path : list Z) (pn tpn : Z) (s : S) : exec (option R * bool * S) :=
  match n with
  | O => NoFuel
  | Datatypes.S n' =>
    let* tpn := skip_up (Datatypes.S (length path)) path tpn in
    let* prefix := slice path 0 tpn in
    let* rest := slice path tpn (len path) in
    let* '(r, s1) := try prefix rest s in
    match r with
    | Some _ => Done (r, true, s1)
    | None =>
      let* '(o, ends) := slash_before (Datatypes.S (length path)) path pn tpn in
      match o with Some tpn' => back n' path pn tpn' s1 | None => Done (None, ends, s1) end
    end
  end.

Fixpoint walk_from (n : nat) (path : list Z) (pn pthl : Z) (s : S) : exec (option R * S) :=
  match n with
  | O => NoFuel
  | Datatypes.S n' =>
    if pn <? pthl then
      let* x := index path pn in
      let* '(r, (path, pthl), s) := if x =? 47 then here (Datatypes.S (length path)) path pn pthl s else Done (None, (path, pthl), s) in
      match r with
      | Some _ => Done (r, s)
      | None =>
        let tpn := pthl - (pn + 1) in
        let* y := if pn <? tpn then index path tpn else Done 0 in
        if (pn <? tpn) && (y =? 47) then
          let* '(r, ends, s) := back (Datatypes.S (length path)) path pn tpn s in
          match r with
          | Some _ => Done (r, s)
          | None => walk_from n' path ((if (ends : bool) then pthl - 1 else pn) + 1) pthl s
          end
        else walk_from n' path (pn + 1) pthl s
      end
    else Done (None, s)
  end.

Definition walk (path : list Z) (s : S) : exec (option R * S) := walk_from (Datatypes.S (length path)) path 0 (len path) s.
End walk.

(** [strings.TrimFunc(path, ioext.IsSpace)] on bytes. *)
Fixpoint pieces (n : nat) (p : list Z) : list (Z * list Z) :=
  match n, p with
  | Datatypes.S n', _ :: _ =>
    let '(r, size) := utf8.DecodeRune p in
    (r, take (Z.to_nat size) p) :: pieces n' (drop (Z.to_nat size) p)
  | _, _ => []
  end.
Fixpoint drop_spaces (l : list (Z * list Z)) : list (Z * list Z) :=
  match l with
  | [] => []
  | (r, p) :: l' => if IsSpace r then drop_spaces l' else l
  end.
Definition trim (p : list Z) : list Z := concat (map snd (reverse (drop_spaces (reverse (drop_spaces (pieces (length p) p)))))).

(** Paths trimmed, without empty ones and without those that came before. *)
Fixpoint distinct (seen : gset (list Z)) (paths : list (list Z)) : list (list Z) :=
  match paths with
  | [] => []
  | p :: paths' =>
    let p := trim p in
    if bool_decide (p = []) || bool_decide (p ∈ seen) then distinct seen paths' else p :: distinct ({[p]} ∪ seen) paths'
  end.

(** ** The multi file system *)

Section multi.
Context {W FI File Arg FiNtfy Ntfy : Type}.
(** What is called for a notification: with the file and what happened, or with the file
    system too. *)
Context `{!FileSystem W FI File Arg} `{!FileLister W FI (FiNtfy + Ntfy)}.

Record multifilesys := MkMulti {
  ntyfiers : option (gmap nat Ntfy);
  fsystms : option (itermap (K := list Z) (V := option nat));
  wtchdfsys : option (itermap (K := list Z) (V := option nat));
  chdexts : option (gset (list Z));
  actvexts : option (gset (list Z));
  dfltexts : option (gset (list Z)) }.

Definition NewMultiFileSystem : multifilesys :=
  MkMulti (Some ∅) (Some MapIterator) (Some MapIterator) (Some ∅) (Some ∅) (Some ∅).

(** [fsystms.Get]: no file system is nil. *)
Definition mapped (m : multifilesys) (path : list Z) : option nat := (Get (fsystms m) path).1.

Definition stat_try (ctx : context) (m : multifilesys) (prefix rest : list Z) (w : W) : exec (option FI * W) :=
  match mapped m prefix with
  | Some fsfnd => fs_StatContext ctx fsfnd rest w
  | None => Done (None, w)
  end.

(** The path asked for begins with a slash, and ends in one when it has no extension. *)
Definition stat_path (path : list Z) : exec (list Z) :=
  let path := match path with x :: _ => if x =? 47 then path else 47 :: path | [] => path end in
  let* l := index path (len path - 1) in
  Done (if bool_decide (Ext path = []) && negb (l =? 47) then path ++ [47] else path).

Definition StatContext (ctx : context) (o : option multifilesys) (path : list Z) (w : W) : exec (option FI * W) :=
  match o, path with
  | None, _ | _, [] => Done (None, w)
  | Some m, _ =>
    if ctx_Err ctx then Done (None, w)
    else
      let* path := stat_path path in
      walk (stat_try ctx m) path w
  end.
Definition Stat := StatContext (Some false).

Definition exist_try (m : multifilesys) (prefix rest : list Z) (w : W) : exec (option () * W) :=
  match mapped m prefix with
  | Some fsfnd => let* '(b, w') := fs_Exist fsfnd rest w in Done (if (b : bool) then Some () else None, w')
  | None => Done (None, w)
  end.

Definition Exist (o : option multifilesys) (path : list Z) (w : W) : exec (bool * W) :=
  match o with
  | None => Done (false, w)
  | Some m => let* '(r, w') := walk (exist_try m) path w in Done (bool_decide (is_Some r), w')
  end.

(** *** List *)

(** A file system is asked once for all paths. *)
Definition list_try (m : multifilesys) (prefix rest : list Z) (x : gset (list Z) * list (option FI) * W)
  : exec (option () * (gset (list Z) * list (option FI) * W)) :=
  let '(alrdyfdn, fios, w) := x in
  match mapped m prefix with
  | Some fsfnd =>
    let p := fs_Path fsfnd w in
    if decide (p ∈ alrdyfdn) then Done (None, x)
    else
      let* '(fis, w') := fs_List fsfnd rest w in
      match fis with
      | [] => Done (None, ({[p]} ∪ alrdyfdn, fios, w'))
      | _ => Done (Some (), ({[p]} ∪ alrdyfdn, fios ++ map Some fis, w'))
      end
  | None => Done (None, x)
  end.

(** Files listed twice are replaced by nil, and what follows them by what is before them. *)
Fixpoint drop_listed (n : nat) (w : W) (fios : list (option FI)) (fioi fiosl : Z) (chk : gset (list Z)) : exec (list (option FI)) :=
  match n with
  | O => NoFuel
  | S n' =>
    if fioi <? fiosl then
      let* fi := index fios fioi in
      match fi with
      | None => Panic
      | Some fi =>
        if decide (fi_Path fi w ∈ chk) then
          let fios := <[Z.to_nat fioi := None]> fios in
          drop_listed n' w (take (Z.to_nat fioi) fios ++ take (Z.to_nat (fioi + 1)) fios) fioi (fiosl - 1) chk
        else drop_listed n' w fios (fioi + 1) fiosl ({[fi_Path fi w]} ∪ chk)
      end
    else Done fios
  end.

Fixpoint list_paths (m : multifilesys) (paths : list (list Z)) (x : gset (list Z) * list (option FI) * W)
  : exec (gset (list Z) * list (option FI) * W) :=
  match paths with
  | [] => Done x
  | path :: paths' => let* '(_, x') := walk (list_try m) path x in list_paths m paths' x'
  end.

Definition List_ (o : option multifilesys) (paths : list (list Z)) (w : W) : exec (list (option FI) * W) :=
  match o with
  | None => Done ([], w)
  | Some m =>
    let* '(_, fios, w') := list_paths m (distinct ∅ paths) (∅, [], w) in
    let* fios := drop_listed (S (length fios)) w' fios 0 (len fios) ∅ in Done (fios, w')
  end.

(** *** Iterate: the file systems that are named, or all *)

Definition Iterate_ {T} (o : option multifilesys) (syspaths : list (list Z)) (yield : list Z → option nat → T → bool * T) (t : T) : T :=
  match o with
  | None => t
  | Some m =>
    match distinct ∅ syspaths with
    | [] => Iterate (fsystms m) yield t
    | named => Iterate (fsystms m) (λ k v t, if decide (k ∈ named) then yield k v t else (true, t)) t
    end
  end.

(** *** Extensions and notifications *)

(** A receiver that is nil is let through when there are extensions. *)
Definition add_exts (exts : list (list Z)) (o : option (gset (list Z))) : option (gset (list Z)) :=
  (λ s, foldl (λ s e, let e := Ext e in if decide (e = []) then s else {[e]} ∪ s) s exts) <$> o.

Definition CacheExtensions (o : option multifilesys) (exts : list (list Z)) : exec (option multifilesys) :=
  match o, exts with
  | None, [] => Done None
  | None, _ => Panic
  | Some m, _ => Done (Some (MkMulti (ntyfiers m) (fsystms m) (wtchdfsys m) (add_exts exts (chdexts m)) (actvexts m) (dfltexts m)))
  end.
Definition ActiveExtensions (o : option multifilesys) (exts : list (list Z)) : exec (option multifilesys) :=
  match o, exts with
  | None, [] => Done None
  | None, _ => Panic
  | Some m, _ => Done (Some (MkMulti (ntyfiers m) (fsystms m) (wtchdfsys m) (chdexts m) (add_exts exts (actvexts m)) (dfltexts m)))
  end.
Definition DefaultExtensions (o : option multifilesys) (exts : list (list Z)) : exec (option multifilesys) :=
  match o, exts with
  | None, [] => Done None
  | None, _ => Panic
  | Some m, _ => Done (Some (MkMulti (ntyfiers m) (fsystms m) (wtchdfsys m) (chdexts m) (actvexts m) (add_exts exts (dfltexts m))))
  end.

Definition note (n : Notify) : nat :=
  match n with NOTE_UKNOWN => 0 | NOTE_CREATE => 1 | NOTE_AMMEND => 2 | NOTE_REMOVE => 3 end.

Definition Notifier (o : option multifilesys) (ntfyfunc : option Ntfy) (ntfy : list Notify) : option multifilesys :=
  match o with
  | None => None
  | Some m =>
    match ntyfiers m, ntfyfunc with
    | Some ns, Some f => Some (MkMulti (Some (foldl (λ ns n, <[note n := f]> ns) ns ntfy)) (fsystms m) (wtchdfsys m) (chdexts m) (actvexts m) (dfltexts m))
    | _, _ => o
    end
  end.

(** What is called by [Notify]. *)
Definition notified (o : option multifilesys) (n : Notify) : option Ntfy :=
  match o with
  | None => None
  | Some m => match ntyfiers m with Some ns => ns !! note n | None => None end
  end.

(** *** Set *)

(** The roots before the slashes of [root], the longest first. *)
Fixpoint shorter_roots (m : multifilesys) (root : list Z) (k : nat) : option (list Z * nat) :=
  match k with
  | O => None
  | S k' =>
    match root !! k' with
    | Some 47 => match mapped m (take k' root) with Some fsys => Some (take k' root, fsys) | None => shorter_roots m root k' end
    | _ => shorter_roots m root k'
    end
  end.

Definition set_root (path : list Z) : exec (list Z) :=
  let* root := slice path 0 (last_slash path + 1) in
  if bool_decide (root = [47]) then Done root
  else
    let* a := index root 0 in
    let* b := index root (len root - 1) in
    Done (if (a =? 47) && (b =? 47) then removelast root else root).

Definition Set__ (o : option multifilesys) (path : list Z) (a : list Arg) (w : W) : exec (bool * W) :=
  match o, path with
  | None, _ | _, [] => Done (false, w)
  | Some m, x :: _ =>
    let path := if x =? 47 then path else 47 :: path in
    let* root := set_root path in
    match mapped m root with
    | Some fsys => let* rest := slice path (len root) (len path) in fs_Set fsys rest a w
    | None =>
      match shorter_roots m root (length root) with
      | Some (root, fsys) => let* rest := slice path (len root) (len path) in fs_Set fsys rest a w
      | None => Done (false, w)
      end
    end
  end.

(** *** Open: from both ends of the path at once *)

Fixpoint open_from (n : nat) (ctx : context) (m : multifilesys) (prfx path : list Z) (pri : Z) (w : W) : exec (option File * W) :=
  match n with
  | O => Done (None, w)
  | S n' =>
    let* x := index path pri in
    let* '(r, ends, w) :=
      if x =? 47 then
        let* prefix := slice path 0 (pri + 1) in
        match mapped m (prfx ++ prefix) with
        | Some fsys =>
          if ctx_Err ctx then Done (None, true, w)
          else let* rest := slice path pri (len path) in let* '(fl, w') := fs_OpenContext ctx fsys rest w in Done (fl, false, w')
        | None => Done (None, false, w)
        end
      else Done (None, false, w) in
    match r, ends with
    | Some _, _ | _, true => Done (r, w)
    | None, false =>
      let tpn := len path - (pri + 1) in
      let* y := index path tpn in
      let* '(r, w) :=
        if y =? 47 then
          let* prefix := slice path 0 tpn in
          match mapped m (prfx ++ prefix) with
          | Some fsys => let* rest := slice path tpn (len path) in fs_OpenContext ctx fsys rest w
          | None => Done (None, w)
          end
        else Done (None, w) in
      match r with Some _ => Done (r, w) | None => open_from n' ctx m prfx path (pri + 1) w end
    end
  end.

Definition OpenContext (ctx : context) (o : option multifilesys) (path : list Z) (w : W) : exec (option File * W) :=
  match o with
  | None => Done (None, w)
  | Some m =>
    let* x := index path 0 in
    open_from (length path) ctx m (if x =? 47 then [] else [47]) path 0 w
  end.
Definition Open := OpenContext (Some false).

(** *** Map *)

Inductive marg :=
| MStr (s : list Z)
| MFiNtfy (f : option FiNtfy)
| MNtfy (f : option Ntfy)
| MBool (b : bool)
| MOther.

(** The texts, the first of each kind of callback. *)
Fixpoint map_args (l : list marg) : list (list Z) * option FiNtfy * option Ntfy :=
  match l with
  | [] => ([], None, None)
  | a :: l' =>
    let '(path, f, g) := map_args l' in
    match a with
    | MStr [] => (path, f, g)
    | MStr s => (s :: path, f, g)
    | MFiNtfy (Some f') => (path, Some f', g)
    | MNtfy (Some g') => (path, f, Some g')
    | _ => (path, f, g)
    end
  end.

Definition with_systems (m : multifilesys) (x : option (itermap (K := list Z) (V := option nat))) : multifilesys :=
  MkMulti (ntyfiers m) x (wtchdfsys m) (chdexts m) (actvexts m) (dfltexts m).
Definition with_watched (m : multifilesys) (x : option (itermap (K := list Z) (V := option nat))) : multifilesys :=
  MkMulti (ntyfiers m) (fsystms m) x (chdexts m) (actvexts m) (dfltexts m).

Context (wtchr_Add : list Z → W → exec (bool * W)).

Definition AutoSync (m : multifilesys) (path : list Z) (fsys : nat) (w : W) : exec (multifilesys * W) :=
  if fs_Syncable fsys w then
    let* '(added, w) := wtchr_Add path w in
    if (added : bool) then let* '(wd, _) := IterMap.Set_ (wtchdfsys m) path (Some fsys) in Done (with_watched m wd, w)
    else Done (m, w)
  else Done (m, w).

(** [/raw:] *)
Definition raw_mark : list Z := [47; 114; 97; 119; 58].
(** [/sync:] *)
Definition sync_mark : list Z := [47; 115; 121; 110; 99; 58].

Definition Map (o : option multifilesys) (path : list marg) (w : W) : exec (option multifilesys * option nat * W) :=
  match o with
  | None => Done (o, None, w)
  | Some m =>
    let '(path, ntfyfunc, ntfyfsysfunc) := map_args path in
    match path with
    | [] => Done (o, None, w)
    | p0 :: more =>
      let raw := Contains p0 raw_mark in
      let p0 := if raw then remove_first p0 raw_mark else p0 in
      let async := Contains p0 sync_mark in
      let p0 := if async then remove_first p0 sync_mark else p0 in
      match mapped m p0 with
      | Some fsys => Done (o, Some fsys, w)
      | None =>
        let* '(fsys, w) := fs_new (default [] (head more)) raw w in
        let cb := match ntfyfunc, ntfyfsysfunc with
                  | Some f, _ => Some (inl f) | None, Some g => Some (inr g) | None, None => None end in
        let* '(fss, _) := IterMap.Set_ (fsystms m) p0 (Some fsys) in
        let m := with_systems m fss in
        let mltypath := match p0 with [] => p0 | _ => if List.last p0 0 =? 47 then p0 else p0 ++ [47] end in
        let w := fs_attach fsys mltypath (default ∅ (actvexts m)) (default ∅ (chdexts m)) (default ∅ (dfltexts m)) w in
        match more with
        | [root] =>
          if fs_Syncable fsys w && async then
            let* '(m, w) := AutoSync m root fsys w in
            let* w := fs_AutoSync fsys [47] cb w in Done (Some m, Some fsys, w)
          else Done (Some m, Some fsys, w)
        | _ => Done (Some m, Some fsys, w)
        end
      end
    end
  end.
End multi.

(** * Theory *)

(** ** The walk ends *)

Lemma up_at_Done path pn pthl : 0 ≤ pn → pthl ≤ len path → ∃ b, up_at path pn pthl = Done b ∧ (b = true → pn < pthl - 4).
Proof. intros H1 H2. rewrite up_at_is by done. eexists. split; [done|]. intros [H _]%andb_true_iff. lia. Qed.

Lemma cut_up_Done path pn : 0 ≤ pn → pn + 4 ≤ len path → ∃ p, cut_up path pn = Done p ∧ len p = len path - 3.
Proof.
  intros H1 H2. unfold cut_up. rewrite !slice_ok by lia. cbn [exec_bind]. eexists. split; [done|].
  rewrite length_app. pose proof (length_sub path 0 (pn + 1)). pose proof (length_sub path (pn + 4) (len path)). lia.
Qed.

Lemma strip_Done n path pn pthl :
  (1 ≤ n)%nat → (length path ≤ 3 * n)%nat → 0 ≤ pn < pthl → pthl ≤ len path →
  ∃ path' pthl', strip n path pn pthl = Done (path', pthl') ∧ pn < pthl' ≤ pthl ∧ pthl' ≤ len path' ∧ (length path' ≤ length path)%nat ∧
    (up_at path pn pthl = Done true → (length path' < length path)%nat).
Proof.
  revert path pthl. induction n as [|n IH]; intros path pthl Hn Hl Hpn Hp; [lia|]. cbn [strip].
  destruct (up_at_Done path pn pthl ltac:(lia) Hp) as ([] & -> & Hup); cbn [exec_bind].
  - specialize (Hup eq_refl). destruct (cut_up_Done path pn ltac:(lia) ltac:(lia)) as (p & -> & Hlp). cbn [exec_bind].
    destruct (IH p (pthl - 4)) as (p' & pthl' & -> & H1 & H2 & H3 & _); [lia..|]. exists p', pthl'.
    split; [done|]. split; [lia|]. split; [done|]. split; [lia|]. intros _. lia.
  - exists path, pthl. split; [done|]. split; [lia|]. split; [done|]. split; [done|]. by intros [=].
Qed.

Lemma slice_Done_ok {A} (l : list A) i j : 0 ≤ i → i ≤ j → j ≤ len l → ∃ r, slice l i j = Done r.
Proof. intros. rewrite slice_ok by done. by eexists. Qed.

Lemma index_Done_ok {A} (l : list A) i : 0 ≤ i < len l → ∃ x, index l i = Done x.
Proof.
  intros Hi. destruct (lookup_lt_is_Some_2 l (Z.to_nat i)) as [x E]; [lia|]. exists x. apply index_lookup; [lia|done].
Qed.

Section walk_ends.
Context {R S : Type} (try : list Z → list Z → S → exec (option R * S)).
Context (answers : ∀ a b s, ∃ r s', try a b s = Done (r, s')).

Lemma here_Done n path pn pthl s :
  (length path < n)%nat → 0 ≤ pn < pthl → pthl ≤ len path →
  ∃ r path' pthl' s', here try n path pn pthl s = Done (r, (path', pthl'), s') ∧ pn < pthl' ≤ pthl ∧ pthl' ≤ len path' ∧ (length path' ≤ length path)%nat.
Proof.
  revert path pthl s. induction n as [|n IH]; intros path pthl s Hn Hpn Hp; [lia|]. cbn [here].
  destruct (slice_Done_ok path 0 (if pn =? 0 then 1 else pn)) as [a ->]; [lia|destruct (pn =? 0); lia|destruct (Z.eqb_spec pn 0); lia|]. cbn [exec_bind].
  destruct (slice_Done_ok path pn (len path)) as [b ->]; [lia..|]. cbn [exec_bind].
  destruct (answers a b s) as (r & s1 & ->). cbn [exec_bind]. destruct r as [r|].
  { eexists _, _, _, _. split; [done|]. lia. }
  destruct (up_at_Done path pn pthl ltac:(lia) Hp) as (isup & E & _). rewrite E. cbn [exec_bind]. destruct isup.
  - destruct (strip_Done (length path) path pn pthl) as (path1 & pthl1 & -> & H1 & H2 & H3 & H4); [lia..|]. cbn [exec_bind]. specialize (H4 E).
    destruct (IH path1 pthl1 s1) as (r' & path' & pthl' & s' & -> & ? & ? & ?); [lia..|]. eexists _, _, _, _. split; [done|]. lia.
  - eexists _, _, _, _. split; [done|]. lia.
Qed.

Lemma skip_up_Done n path tpn : (Z.to_nat tpn < n)%nat → 0 ≤ tpn < len path → ∃ t, skip_up n path tpn = Done t ∧ 0 ≤ t ≤ tpn.
Proof.
  revert tpn. induction n as [|n IH]; intros tpn Hn Ht; [lia|]. cbn [skip_up]. destruct (Z.ltb_spec 3 tpn); [|exists tpn; split; [done|lia]].
  destruct (slice_Done_ok path (tpn - 3) (tpn + 1)) as [t ->]; [lia..|]. cbn [exec_bind]. case_bool_decide.
  - destruct (IH (tpn - 3)) as (t' & -> & ?); [lia..|]. exists t'. split; [done|lia].
  - exists tpn. split; [done|lia].
Qed.

Lemma slash_before_Done n path pn tpn : (Z.to_nat tpn < n)%nat → 0 ≤ pn → 0 ≤ tpn < len path →
  ∃ o e, slash_before n path pn tpn = Done (o, e) ∧ match o with Some t => pn < t < tpn | None => True end.
Proof.
  revert tpn. induction n as [|n IH]; intros tpn Hn Hp Ht; [lia|]. cbn [slash_before]. destruct (Z.ltb_spec pn tpn); [|by eexists _, _].
  destruct (Z.eqb_spec (tpn - 1) pn); [by eexists _, _|]. destruct (index_Done_ok path (tpn - 1)) as [x ->]; [lia|]. cbn [exec_bind].
  destruct (x =? 47); [eexists _, _; split; [done|cbn; lia]|]. destruct (IH (tpn - 1)) as (o & e & -> & Ho); [lia..|]. eexists _, _. split; [done|].
  destruct o; [lia|done].
Qed.

Lemma back_Done n path pn tpn s : (Z.to_nat tpn < n)%nat → 0 ≤ pn → 0 ≤ tpn < len path → ∃ r e s', back try n path pn tpn s = Done (r, e, s').
Proof.
  revert tpn s. induction n as [|n IH]; intros tpn s Hn Hp Ht; [lia|]. cbn [back].
  destruct (skip_up_Done (Datatypes.S (length path)) path tpn) as (t & -> & Ht'); [lia..|]. cbn [exec_bind].
  destruct (slice_Done_ok path 0 t) as [a ->]; [lia..|]. cbn [exec_bind]. destruct (slice_Done_ok path t (len path)) as [b ->]; [lia..|]. cbn [exec_bind].
  destruct (answers a b s) as (r & s1 & ->). cbn [exec_bind]. destruct r as [r|]; [by eexists _, _, _|].
  destruct (slash_before_Done (Datatypes.S (length path)) path pn t) as (o & e & -> & Ho); [lia..|]. cbn [exec_bind].
  destruct o as [t'|]; [apply IH; lia|by eexists _, _, _].
Qed.

Lemma walk_from_Done n path pn pthl s : (0 < n)%nat → pthl - pn < Z.of_nat n → 0 ≤ pn → pthl ≤ len path → ∃ r s', walk_from try n path pn pthl s = Done (r, s').
Proof.
  revert path pn pthl s. induction n as [|n IH]; intros path pn pthl s Hn0 Hn Hpn Hp; [lia|]; cbn [walk_from].
  destruct (Z.ltb_spec pn pthl); [|by eexists _, _]. destruct (index_Done_ok path pn) as [x ->]; [lia|]. cbn [exec_bind].
  assert (∃ r path' pthl' s', (if x =? 47 then here try (Datatypes.S (length path)) path pn pthl s else Done (None, (path, pthl), s)) = Done (r, (path', pthl'), s') ∧
    pn < pthl' ≤ pthl ∧ pthl' ≤ len path') as (r & path' & pthl' & s' & -> & H1 & H2).
  { destruct (x =? 47); [|eexists _, _, _, _; split; [done|lia]].
    destruct (here_Done (Datatypes.S (length path)) path pn pthl s) as (r & path' & pthl' & s' & E & ? & ? & _); [lia..|]. exists r, path', pthl', s'. done. }
  cbn [exec_bind]. destruct r as [r|]; [by eexists _, _|]. cbv zeta.
  assert (∃ y, (if pn <? pthl' - (pn + 1) then index path' (pthl' - (pn + 1)) else Done 0) = Done y) as [y ->].
  { destruct (Z.ltb_spec pn (pthl' - (pn + 1))); [apply index_Done_ok; lia|by eexists]. }
  cbn [exec_bind]. destruct (Z.ltb_spec pn (pthl' - (pn + 1))); cbn [andb]; [|apply IH; lia]. destruct (y =? 47); [|apply IH; lia].
  destruct (back_Done (Datatypes.S (length path')) path' pn (pthl' - (pn + 1)) s') as (r2 & e & s2 & ->); [lia..|]. cbn [exec_bind].
  destruct r2 as [r2|]; [by eexists _, _|]. destruct e; apply IH; lia.
Qed.

Lemma walk_Done path s : ∃ r s', walk try path s = Done (r, s').
Proof. apply walk_from_Done; lia. Qed.
End walk_ends.

(** ** What the walk finds in a path without [/../] *)

Lemma up_free_at path pn pthl : up_free path → 0 ≤ pn → pthl ≤ len path → up_at path pn pthl = Done false.
Proof.
  intros Hu Hpn Hp. rewrite up_at_is by done. case_bool_decide as E; [|by rewrite andb_false_r]. exfalso.
  apply (Hu (take (Z.to_nat pn) path) (drop (Z.to_nat (pn + 4)) path)). rewrite <- E. unfold sub.
  rewrite <- (take_drop (Z.to_nat pn) path) at 1. f_equal. rewrite <- (take_drop (Z.to_nat (pn + 4 - pn)) (drop (Z.to_nat pn) path)) at 1.
  f_equal. rewrite drop_drop. f_equal. lia.
Qed.

Lemma up_free_skip n path tpn : up_free path → (0 < n)%nat → tpn < len path → skip_up n path tpn = Done tpn.
Proof.
  intros Hu Hn Ht. destruct n as [|n]; [lia|]. cbn [skip_up]. destruct (Z.ltb_spec 3 tpn); [|done].
  rewrite slice_ok by lia. cbn [exec_bind]. rewrite bool_decide_eq_false_2; [done|]. intros E.
  pose proof (up_free_at path (tpn - 3) (len path) Hu ltac:(lia) ltac:(lia)) as Ha. rewrite up_at_is in Ha by lia.
  replace (tpn - 3 + 4) with (tpn + 1) in Ha by lia. rewrite E, bool_decide_eq_true_2, andb_true_r in Ha by done. injection Ha as Ha.
  apply Z.ltb_ge in Ha. assert (tpn = len path - 1) as Ht' by lia.
  apply (Hu (take (Z.to_nat (tpn - 3)) path) []). rewrite app_nil_r, <- E. unfold sub.
  rewrite <- (take_drop (Z.to_nat (tpn - 3)) path) at 1. f_equal. symmetry. apply take_ge. rewrite length_drop. lia.
Qed.

Section finds.
Context {R S : Type} (try : list Z → list Z → S → exec (option R * S)) (s : S) (t : list Z → list Z → option R).
Context (pure : ∀ a b, try a b s = Done (t a b, s)).
Context (path : list Z) (free : up_free path).

(** What is asked at a slash. *)
Definition asked (pn : nat) : option R := t (take (Nat.max 1 pn) path) (drop pn path).
Definition slash (pn : nat) : Prop := path !! pn = Some 47.

Lemma slash_index (pn : Z) x : 0 ≤ pn → index path pn = Done x → (x =? 47) = bool_decide (slash (Z.to_nat pn)).
Proof.
  intros Hpn H. assert (path !! Z.to_nat pn = Some x) as E.
  { unfold index in H. rewrite (proj2 (Z.leb_le _ _)) in H by done. destruct (path !! Z.to_nat pn) as [y|] in H |- *; congruence. }
  destruct (Z.eqb_spec x 47) as [->|Hx]; [by rewrite bool_decide_eq_true_2|]. rewrite bool_decide_eq_false_2; [done|]. unfold slash. congruence.
Qed.

Lemma here_plain n pn :
  0 ≤ pn < len path → (0 < n)%nat → here try n path pn (len path) s = Done (asked (Z.to_nat pn), (path, len path), s).
Proof.
  intros Hpn Hn. destruct n as [|n]; [lia|]. cbn [here]. rewrite !slice_ok by (destruct (Z.eqb_spec pn 0); lia). cbn [exec_bind].
  rewrite pure. cbn [exec_bind]. rewrite up_free_at by (done || lia). cbn [exec_bind].
  assert (t (sub path 0 (if pn =? 0 then 1 else pn)) (sub path pn (len path)) = asked (Z.to_nat pn)) as ->.
  { unfold asked. rewrite sub_from_0, sub_to_end by lia. do 2 f_equal. destruct (Z.eqb_spec pn 0); lia. }
  by destruct (asked _).
Qed.

Lemma slash_before_plain n pn tpn : (Z.to_nat tpn < n)%nat → 0 ≤ pn < tpn → tpn < len path →
  ∃ o, slash_before n path pn tpn = Done (o, bool_decide (o = None)) ∧
    match o with
    | Some t => pn < t < tpn ∧ slash (Z.to_nat t) ∧ ∀ j, t < Z.of_nat j < tpn → ¬ slash j
    | None => ∀ j, pn < Z.of_nat j < tpn → ¬ slash j
    end.
Proof.
  revert tpn. induction n as [|n IH]; intros tpn Hn Hp Ht; [lia|]. cbn [slash_before]. rewrite (proj2 (Z.ltb_lt _ _)) by lia.
  destruct (Z.eqb_spec (tpn - 1) pn); [exists None; split; [done|]; intros; lia|].
  destruct (index_Done_ok path (tpn - 1)) as [x E]; [lia|]. rewrite E. cbn [exec_bind]. rewrite (slash_index (tpn - 1) x) by (done || lia).
  case_bool_decide as Hs; [exists (Some (tpn - 1)); split; [done|]; split; [lia|]; split; [done|]; intros; lia|].
  destruct (IH (tpn - 1)) as (o & -> & Ho); [lia..|]. exists o. split; [done|].
  assert (∀ j, Z.of_nat j = tpn - 1 → ¬ slash j) as Hlast by (intros j Hj; by replace j with (Z.to_nat (tpn - 1)) by lia).
  destruct o as [t'|].
  - destruct Ho as (H1 & H2 & H3). split; [lia|]. split; [done|]. intros j Hj. destruct (decide (Z.of_nat j = tpn - 1)); [by apply Hlast|]. apply H3. lia.
  - intros j Hj. destruct (decide (Z.of_nat j = tpn - 1)); [by apply Hlast|]. apply Ho. lia.
Qed.

(** Found at a slash, or none of those from [a] to [b] has it. *)
Definition found (r : option R) (a b : Z) : Prop :=
  match r with
  | Some x => ∃ j, slash j ∧ asked j = Some x
  | None => ∀ j, a ≤ Z.of_nat j < b → slash j → asked j = None
  end.

Lemma back_plain n pn tpn : (Z.to_nat tpn < n)%nat → 0 ≤ pn < tpn → tpn < len path → slash (Z.to_nat tpn) →
  ∃ r, back try n path pn tpn s = Done (r, true, s) ∧ found r (pn + 1) (tpn + 1).
Proof.
  revert tpn. induction n as [|n IH]; intros tpn Hn Hp Ht Hs; [lia|]. cbn [back]. rewrite up_free_skip by (done || lia). cbn [exec_bind].
  rewrite !slice_ok by lia. cbn [exec_bind]. rewrite pure. cbn [exec_bind].
  assert (t (sub path 0 tpn) (sub path tpn (len path)) = asked (Z.to_nat tpn)) as ->.
  { unfold asked. rewrite sub_from_0, sub_to_end by lia. do 2 f_equal. lia. }
  destruct (asked (Z.to_nat tpn)) as [r|] eqn:Ea; [eexists; split; [done|]; by exists (Z.to_nat tpn)|].
  destruct (slash_before_plain (Datatypes.S (length path)) pn tpn) as (o & -> & Ho); [lia..|]. cbn [exec_bind].
  assert (∀ j, Z.of_nat j = tpn → asked j = None) as Hlast by (intros j Hj; by replace j with (Z.to_nat tpn) by lia).
  destruct o as [t'|].
  - destruct Ho as (H1 & H2 & H3). destruct (IH t') as (r & -> & Hr); [lia..|done|]. exists r. split; [done|]. destruct r as [r|]; [done|].
    intros j Hj Hsj. destruct (decide (Z.of_nat j = tpn)); [by apply Hlast|]. destruct (decide (Z.of_nat j ≤ t')); [apply Hr; [lia|done]|].
    exfalso. apply (H3 j); [lia|done].
  - exists None. split; [done|]. intros j Hj Hsj. destruct (decide (Z.of_nat j = tpn)); [by apply Hlast|]. exfalso. apply (Ho j); [lia|done].
Qed.

Lemma walk_from_plain n pn : (0 < n)%nat → len path - pn < Z.of_nat n → 0 ≤ pn →
  (∀ j, (Z.of_nat j < pn) → slash j → asked j = None) →
  (∀ j, Z.of_nat j < pn → 2 * Z.of_nat j + 1 < len path → ¬ slash (length path - 1 - j)) →
  ∃ r, walk_from try n path pn (len path) s = Done (r, s) ∧ found r 0 (len path).
Proof.
  revert pn. induction n as [|n IH]; intros pn Hn0 Hn Hpn Hbefore Hafter; [lia|]. cbn [walk_from].
  destruct (Z.ltb_spec pn (len path)); [|exists None; split; [done|]; intros j Hj; apply Hbefore; lia].
  destruct (index_Done_ok path pn) as [x E]; [lia|]. rewrite E. cbn [exec_bind]. rewrite (slash_index pn x) by done.
  assert ((if bool_decide (slash (Z.to_nat pn)) then here try (Datatypes.S (length path)) path pn (len path) s else Done (None, (path, len path), s)) =
    Done (if bool_decide (slash (Z.to_nat pn)) then asked (Z.to_nat pn) else None, (path, len path), s)) as ->.
  { case_bool_decide; [|done]. by rewrite here_plain by lia. }
  cbn [exec_bind]. destruct (if bool_decide (slash (Z.to_nat pn)) then asked (Z.to_nat pn) else None) as [r|] eqn:Er.
  { exists (Some r). split; [done|]. case_bool_decide; [|done]. by exists (Z.to_nat pn). }
  assert (∀ j, Z.of_nat j < pn + 1 → slash j → asked j = None) as Hbefore'.
  { intros j Hj Hs. destruct (decide (Z.of_nat j = pn)) as [Ej|]; [|apply Hbefore; [lia|done]]. replace (Z.to_nat pn) with j in Er by lia.
    rewrite bool_decide_eq_true_2 in Er; [exact Er|exact Hs]. }
  clear Er. cbv zeta. destruct (Z.ltb_spec pn (len path - (pn + 1))) as [Hlt|Hge]; cbn [andb].
  - destruct (index_Done_ok path (len path - (pn + 1))) as [y E2]; [lia|]. rewrite E2. cbn [exec_bind].
    rewrite (slash_index (len path - (pn + 1)) y) by (done || lia). case_bool_decide as Hs.
    + destruct (back_plain (Datatypes.S (length path)) pn (len path - (pn + 1))) as (r & -> & Hr); [lia..|exact Hs|]. cbn [exec_bind].
      destruct r as [r|]; [by exists (Some r)|]. destruct n as [|n]; [lia|]. cbn [walk_from].
      rewrite (proj2 (Z.ltb_ge _ _)) by lia. exists None. split; [done|]. intros j Hj Hsj.
      destruct (decide (Z.of_nat j < pn + 1)); [by apply Hbefore'|]. destruct (decide (Z.of_nat j < len path - pn)) as [|Hout]; [apply Hr; [lia|done]|].
      exfalso. apply (Hafter (length path - 1 - j)%nat); [lia|lia|]. by replace (length path - 1 - (length path - 1 - j))%nat with j by lia.
    + apply IH; [lia|lia|lia|done|]. intros j Hj Hj2. destruct (decide (Z.of_nat j = pn)) as [Ej|]; [|apply Hafter; lia].
      by replace (length path - 1 - j)%nat with (Z.to_nat (len path - (pn + 1))) by lia.
  - cbn [exec_bind]. apply IH; [lia|lia|lia|done|]. intros j Hj Hj2. apply Hafter; lia.
Qed.

Lemma walk_plain : ∃ r, walk try path s = Done (r, s) ∧ found r 0 (len path).
Proof. apply walk_from_plain; lia. Qed.
End finds.

(** ** Stat, Exist and Open *)

Section searches.
Context {W FI File Arg FiNtfy Ntfy : Type} `{!FileSystem W FI File Arg} `{!FileLister W FI (FiNtfy + Ntfy)}.
Implicit Types (m : multifilesys (Ntfy := Ntfy)).

(** File systems that answer whatever they are asked. *)
Definition fs_answers : Prop :=
  (∀ ctx f rest w, ∃ r w', fs_StatContext ctx f rest w = Done (r, w')) ∧
  (∀ f rest w, ∃ r w', fs_Exist f rest w = Done (r, w')) ∧
  (∀ f rest w, ∃ r w', fs_List f rest w = Done (r, w')).

Lemma stat_path_Done x path : ∃ p, stat_path (x :: path) = Done p.
Proof.
  unfold stat_path. destruct (index_Done_ok (if x =? 47 then x :: path else 47 :: x :: path) (len (if x =? 47 then x :: path else 47 :: x :: path) - 1)) as [l E];
    [destruct (x =? 47); cbn [length]; lia|]. rewrite E. cbn [exec_bind]. by eexists.
Qed.

Lemma list_paths_Done m paths x : fs_answers → ∃ x', list_paths m paths x = Done x'.
Proof.
  intros (_ & _ & Ha). revert x. induction paths as [|p paths IH]; intros x; [by exists x|]. cbn [list_paths].
  destruct (walk_Done (list_try m) (λ a b y, ltac:(destruct y as [[al fi] w]; unfold list_try; destruct (mapped m a) as [f|]; [|by eexists _, _];
    destruct (decide _); [by eexists _, _|]; destruct (Ha f b w) as ([|fi1 fis] & w' & ->); by eexists _, _)) p x) as (r & x' & ->).
  apply IH.
Qed.

(** C38: looking for a file ends, without a panic, for every path - also for one with
    [/../] in it, whose length the walk then counts wrongly -, whatever is mapped and
    whatever the file systems answer; so does going over the paths of a list. *)
Theorem searches_end ctx (o : option (multifilesys (Ntfy := Ntfy))) m path paths x w :
  fs_answers →
  (∃ r w', StatContext ctx o path w = Done (r, w')) ∧ (∃ b w', Exist o path w = Done (b, w')) ∧ ∃ x', list_paths m paths x = Done x'.
Proof.
  intros Ha. pose proof Ha as (Hst & Hex & _). split; [|split; [|by apply list_paths_Done]].
  - unfold StatContext. destruct o as [m'|]; [|by eexists _, _]. destruct path as [|y path]; [by eexists _, _|].
    destruct (ctx_Err ctx); [by eexists _, _|]. destruct (stat_path_Done y path) as [p ->]. cbn [exec_bind]. apply walk_Done.
    intros a b s. unfold stat_try. destruct (mapped m' a); [apply Hst|by eexists _, _].
  - unfold Exist. destruct o as [m'|]; [|by eexists _, _].
    destruct (walk_Done (exist_try m') (λ a b s, ltac:(unfold exist_try; destruct (mapped m' a) as [f|]; [|by eexists _, _];
      destruct (Hex f b s) as (r & w' & ->); by eexists _, _)) path w) as (r & w' & ->). by eexists _, _.
Qed.

(** A file system is asked at a slash: it is mapped to what is before it, or to the root,
    and asked for the rest with the slash. *)
Definition at_slash (m : multifilesys (Ntfy := Ntfy)) (p : list Z) (j f : nat) : Prop :=
  p !! j = Some 47 ∧ mapped m (take (Nat.max 1 j) p) = Some f.

(** C36: [Stat] of a path without [/../] finds a file exactly when one of the file systems
    mapped to a part of the path that ends at a slash has it: it answers the file of such a
    file system, and nil only when none of them has one. *)
Theorem Stat_finds ctx m path p w (st : nat → list Z → option FI) :
  path ≠ [] → ctx_Err ctx = false → stat_path path = Done p → up_free p →
  (∀ f rest, fs_StatContext ctx f rest w = Done (st f rest, w)) →
  ∃ r, StatContext ctx (Some m) path w = Done (r, w) ∧
    match r with
    | Some fi => ∃ j f, at_slash m p j f ∧ st f (drop j p) = Some fi
    | None => ∀ j f, at_slash m p j f → st f (drop j p) = None
    end.
Proof.
  intros Hp Hc Ep Hu Hst. unfold StatContext. destruct path as [|x path]; [done|]. rewrite Hc, Ep. cbn [exec_bind].
  destruct (walk_plain (stat_try ctx m) w (λ a b, match mapped m a with Some f => st f b | None => None end)) with (path := p) as (r & -> & Hr);
    [intros a b; unfold stat_try; by destruct (mapped m a)|done|].
  exists r. split; [done|]. unfold found, asked, slash in Hr. destruct r as [fi|].
  - destruct Hr as (j & Hj & E). destruct (mapped m _) as [f|] eqn:Em; [|done]. by exists j, f.
  - intros j f (Hj & Em). specialize (Hr j ltac:(apply lookup_lt_Some in Hj; lia) Hj). by rewrite Em in Hr.
Qed.

(** A file system that is mapped to the root is asked first, for the whole path. *)
Lemma Stat_root ctx m f p w fi w' :
  ctx_Err ctx = false → mapped m [47] = Some f → rooted p → Ext p ≠ [] → fs_StatContext ctx f p w = Done (Some fi, w') →
  StatContext ctx (Some m) p w = Done (Some fi, w').
Proof.
  intros Hc Hm [q ->] He HS. unfold StatContext. rewrite Hc. unfold stat_path. change (47 =? 47) with true. cbv iota zeta.
  destruct (index_Done_ok (47 :: q) (len (47 :: q) - 1)) as [l ->]; [cbn [length]; lia|]. cbn [exec_bind]. rewrite bool_decide_eq_false_2 by done. cbn [andb exec_bind].
  unfold walk. cbn [walk_from]. rewrite (proj2 (Z.ltb_lt _ _)) by (cbn [length]; lia). change (index (47 :: q) 0) with (Done 47). cbn [exec_bind]. change (47 =? 47) with true. cbv iota.
  cbn [here]. change (0 =? 0) with true. cbv iota. rewrite !slice_ok by (cbn [length]; lia). cbn [exec_bind]. rewrite sub_full. unfold stat_try at 1.
  change (sub (47 :: q) 0 1) with [47]. by rewrite Hm, HS.
Qed.

(** What is set under the root goes to the file system that is mapped to it. *)
Lemma Set_root m f name a w r :
  mapped m [47] = Some f → 47 ∉ name → fs_Set f name a w = r → Set__ (Some m) (47 :: name) a w = r.
Proof.
  intros Hm Hn HS. unfold Set__. change (47 =? 47) with true. cbv iota zeta.
  assert (last_slash (47 :: name) = 0) as E by (cbn [last_slash]; by rewrite last_slash_none).
  unfold set_root. rewrite E. rewrite slice_ok by (cbn [length]; lia). cbn [exec_bind]. change (sub (47 :: name) 0 (0 + 1)) with [47].
  rewrite bool_decide_eq_true_2 by done. cbn [exec_bind]. rewrite Hm. change (len [47]) with 1. rewrite slice_ok by (cbn [length]; lia). cbn [exec_bind].
  rewrite sub_to_end by (cbn [length]; lia). exact HS.
Qed.

(** What [Open] asks: from the front with the slash, from the back without. *)
Definition open_at (m : multifilesys (Ntfy := Ntfy)) (path : list Z) (j f : nat) : Prop :=
  path !! j = Some 47 ∧
  let prfx := if decide (head path = Some 47) then [] else [47] in
  (mapped m (prfx ++ take (S j) path) = Some f ∨ mapped m (prfx ++ take j path) = Some f).

Lemma open_from_finds ctx m prfx path pri n w (op : nat → list Z → option File) :
  ctx_Err ctx = false → (∀ f rest, fs_OpenContext ctx f rest w = Done (op f rest, w)) → (pri + n = length path)%nat →
  ∃ r, open_from n ctx m prfx path (Z.of_nat pri) w = Done (r, w) ∧
    match r with
    | Some fl => ∃ j f, path !! j = Some 47 ∧ (mapped m (prfx ++ take (S j) path) = Some f ∨ mapped m (prfx ++ take j path) = Some f) ∧ op f (drop j path) = Some fl
    | None => (∀ j f, (pri ≤ j)%nat → path !! j = Some 47 → mapped m (prfx ++ take (S j) path) = Some f → op f (drop j path) = None) ∧
              (∀ j f, (j < n)%nat → path !! j = Some 47 → mapped m (prfx ++ take j path) = Some f → op f (drop j path) = None)
    end.
Proof.
  intros Hc Hop. revert pri. induction n as [|n IH]; intros pri Hn; cbn [open_from].
  { exists None. split; [done|]. split; [|intros; lia]. intros j f Hj Hs. apply lookup_lt_Some in Hs. lia. }
  destruct (lookup_lt_is_Some_2 path pri ltac:(lia)) as [x Ex]. rewrite (index_lookup path (Z.of_nat pri) x) by (rewrite ?Nat2Z.id; done || lia). cbn [exec_bind].
  destruct (lookup_lt_is_Some_2 path n ltac:(lia)) as [y Ey].
  set (front := if x =? 47 then match mapped m (prfx ++ take (S pri) path) with Some f => op f (drop pri path) | None => None end else None).
  match goal with |- context [exec_bind ?e _] => assert (e = Done (front, false, w)) as -> end.
  { unfold front. destruct (x =? 47); [|done]. rewrite slice_ok by lia. cbn [exec_bind]. rewrite sub_from_0.
    replace (Z.to_nat (Z.of_nat pri + 1)) with (S pri) by lia. destruct (mapped m (prfx ++ take (S pri) path)) as [f|]; [|done].
    rewrite Hc, slice_ok, sub_to_end by lia. cbn [exec_bind]. rewrite Hop, Nat2Z.id. done. }
  cbn [exec_bind]. destruct front as [fl|] eqn:Ef.
  { exists (Some fl). split; [done|]. unfold front in Ef. destruct (Z.eqb_spec x 47) as [->|]; [|done]. destruct (mapped m (prfx ++ take (S pri) path)) as [f|] eqn:Em; [|done].
    exists pri, f. split; [done|]. split; [by left|done]. }
  assert (len path - (Z.of_nat pri + 1) = Z.of_nat n) as -> by lia. rewrite (index_lookup path (Z.of_nat n) y) by (rewrite ?Nat2Z.id; done || lia). cbn [exec_bind].
  set (rear := if y =? 47 then match mapped m (prfx ++ take n path) with Some f => op f (drop n path) | None => None end else None).
  match goal with |- context [exec_bind ?e _] => assert (e = Done (rear, w)) as -> end.
  { unfold rear. destruct (y =? 47); [|done]. rewrite slice_ok by lia. cbn [exec_bind]. rewrite sub_from_0, Nat2Z.id.
    destruct (mapped m (prfx ++ take n path)) as [f|]; [|done]. rewrite slice_ok, sub_to_end, Nat2Z.id by lia. cbn [exec_bind]. apply Hop. }
  cbn [exec_bind]. destruct rear as [fl|] eqn:Er.
  { exists (Some fl). split; [done|]. unfold rear in Er. destruct (Z.eqb_spec y 47) as [->|]; [|done]. destruct (mapped m (prfx ++ take n path)) as [f|] eqn:Em; [|done].
    exists n, f. split; [done|]. split; [by right|done]. }
  replace (Z.of_nat pri + 1) with (Z.of_nat (S pri)) by lia. destruct (IH (S pri) ltac:(lia)) as (r & -> & Hr). exists r. split; [done|].
  destruct r as [fl|]; [done|]. destruct Hr as [H1 H2]. split.
  - intros j f Hj Hs Em. destruct (decide (j = pri)) as [->|]; [|apply (H1 j f); [lia|done|done]].
    rewrite Hs in Ex. injection Ex as <-. unfold front in Ef. cbn in Ef. by rewrite Em in Ef.
  - intros j f Hj Hs Em. destruct (decide (j = n)) as [->|]; [|apply (H2 j f); [lia|done|done]].
    rewrite Hs in Ey. injection Ey as <-. unfold rear in Er. cbn in Er. by rewrite Em in Er.
Qed.

(** C37: [Open] of a path tries every slash of it from both ends, and finds a file exactly
    when a file system mapped to a part of the path that ends before or with a slash opens
    the rest: it answers such a file, and nil only when none of them opens one. *)
Theorem Open_finds ctx m path w (op : nat → list Z → option File) :
  path ≠ [] → ctx_Err ctx = false → (∀ f rest, fs_OpenContext ctx f rest w = Done (op f rest, w)) →
  ∃ r, OpenContext ctx (Some m) path w = Done (r, w) ∧
    match r with
    | Some fl => ∃ j f, open_at m path j f ∧ op f (drop j path) = Some fl
    | None => ∀ j f, open_at m path j f → op f (drop j path) = None
    end.
Proof.
  intros Hp Hc Hop. unfold OpenContext, open_at. destruct path as [|x path]; [done|]. change (index (x :: path) 0) with (Done x). cbn [exec_bind head].
  assert ((if decide (Some x = Some 47) then [] else [47]) = if x =? 47 then [] else [47]) as ->.
  { destruct (Z.eqb_spec x 47) as [->|]; [by rewrite decide_True|]. rewrite decide_False; [done|congruence]. }
  destruct (open_from_finds ctx m (if x =? 47 then [] else [47]) (x :: path) 0 (length (x :: path)) w op Hc Hop eq_refl) as (r & E & Hr).
  exists r. split; [exact E|]. destruct r as [fl|].
  - destruct Hr as (j & f & Hj & Hm & E'). by exists j, f.
  - intros j f (Hj & [Hm|Hm]); [by apply (proj1 Hr j f); [lia|..]|]. apply (proj2 Hr j f); [by apply lookup_lt_Some in Hj|done|done].
Qed.
End searches.
