(* ===== verification/FileSys.v ===== *)
(** src/fs/filesys.go: a file system over a directory or an archive, with files that were
    set and files that are cached.

    What [FileInfo] values, buffers and file systems are shared is kept in a [world];
    pointers are positions in it.  The operating system is [os_Stat] and [os_Buffer], the
    buffer made of a file it opens; [media] is the table of src/mimes; the time is in the
    world.  A goroutine that an operation starts is a [job] of the world, which [run_job]
    runs.  Extensions of a set and files of a map are gone over in one order; a nil map is an
    empty one.  [Sys] of a file is handed on and never used: it is left out, as are
    [AutoSync] and the reading of the archives' contents; [List] is in [Listing]. *)

From S2P Require Import Prelude Runes RuneReaders Buffer IterMap Paths MultiFs.
From stdpp Require Import gmap strings.
#[local] Open Scope Z_scope.

(** Where a reader of a file gets its bytes: an opened file, a buffer, an archive. *)
Inductive source := FromOs (path : list Z) | FromBuffer (b : nat) | FromArchive (path : list Z).

Record fileinfo := MkInfo {
  i_name : list Z; i_path : list Z; i_root : list Z; i_base : list Z; i_ext : list Z;
  i_size : Z; i_mode : Z; i_modfy : Z; i_dir : bool; i_active : bool; i_raw : bool; i_media : bool; i_rdr : source }.

(** [base] before a path, with one slash between them. *)
Definition join (b p : list Z) : list Z :=
  match p with
  | x :: p' => if x =? 47 then if List.last b 0 =? 47 then b ++ p' else b ++ p
               else if List.last b 0 =? 47 then b ++ p else b ++ 47 :: p
  | [] => b
  end.

Definition NewFileInfo (name : list Z) (size mode modfy : Z) (dir active raw media : bool) (path base : list Z) (rdrfunc : source) : fileinfo :=
  let root := if -1 <? last_slash path then take (Z.to_nat (last_slash path + 1)) path else [47] in
  let '(path, root) := match base with [] => (path, root) | _ => (join base path, join base root) end in
  let path := if dir && bool_decide (path ≠ []) && negb (List.last path 0 =? 47) then path ++ [47] else path in
  MkInfo name path root base (if dir then [] else Ext name) size mode modfy dir active raw media rdrfunc.

(** A file that was written again. *)
Definition with_size (fi : fileinfo) (n t : Z) : fileinfo :=
  MkInfo (i_name fi) (i_path fi) (i_root fi) (i_base fi) (i_ext fi) n (i_mode fi) t (i_dir fi) (i_active fi) (i_raw fi) (i_media fi) (i_rdr fi).

(** What the operating system says of a file. *)
Record osinfo := MkOs { os_Name : list Z; os_Size : Z; os_Mode : Z; os_ModTime : Z; os_IsDir : bool }.

(** A file of an archive; its [FileInfo] is made when it is first asked for. *)
Record ArchiveFile := MkArchive {
  a_name : list Z; a_path : list Z; a_size : Z; a_mode : Z; a_modfy : Z; a_dir : bool; a_finfo : option nat }.

(** Files that were set, and cached files: their buffer and their [FileInfo]. *)
Abbreviation embedfile := (nat * nat)%type.

Record filesys := MkFs {
  fraw : bool;
  mltypath : list Z;
  froot : list Z;
  archfls : gmap (list Z) ArchiveFile;
  embed : gmap (list Z) embedfile;
  cachexts : gset (list Z);
  cachedfiles : gmap (list Z) embedfile;
  defaultexts : gset (list Z);
  activexts : gset (list Z);
  mltyfsys : bool }.

(** A goroutine: a file found is cached; a file is opened, read and cached, with what the
    operation that started the goroutine learned of it. *)
Inductive job :=
| JCache (f : nat) (key : list Z) (e : embedfile)
| JOpen (f : nat) (key : list Z) (fi : option osinfo) (raw media : bool).

Record world := MkWorld {
  systems : list filesys;
  buffers : list Buffer;
  infos : list fileinfo;
  now : Z;
  jobs : list job;
  told : list (nat * nat * Notify) }.

Definition the_fs (w : world) (f : nat) : exec filesys := match systems w !! f with Some s => Done s | None => Panic end.
Definition the_info (w : world) (i : nat) : exec fileinfo := match infos w !! i with Some x => Done x | None => Panic end.
Definition the_buffer (w : world) (b : nat) : exec Buffer := match buffers w !! b with Some x => Done x | None => Panic end.

Definition with_fs (w : world) (f : nat) (s : filesys) : world := MkWorld (<[f := s]> (systems w)) (buffers w) (infos w) (now w) (jobs w) (told w).
Definition with_buffer (w : world) (b : nat) (x : Buffer) : world := MkWorld (systems w) (<[b := x]> (buffers w)) (infos w) (now w) (jobs w) (told w).
Definition with_info (w : world) (i : nat) (x : fileinfo) : world := MkWorld (systems w) (buffers w) (<[i := x]> (infos w)) (now w) (jobs w) (told w).
Definition new_buffer (w : world) (x : Buffer) : world * nat := (MkWorld (systems w) (buffers w ++ [x]) (infos w) (now w) (jobs w) (told w), length (buffers w)).
Definition new_info (w : world) (x : fileinfo) : world * nat := (MkWorld (systems w) (buffers w) (infos w ++ [x]) (now w) (jobs w) (told w), length (infos w)).
Definition start (w : world) (j : job) : world := MkWorld (systems w) (buffers w) (infos w) (now w) (jobs w ++ [j]) (told w).
Definition tell (w : world) (f i : nat) (n : Notify) : world := MkWorld (systems w) (buffers w) (infos w) (now w) (jobs w) (told w ++ [(f, i, n)]).

Definition with_embed (s : filesys) (e : gmap (list Z) embedfile) : filesys :=
  MkFs (fraw s) (mltypath s) (froot s) (archfls s) e (cachexts s) (cachedfiles s) (defaultexts s) (activexts s) (mltyfsys s).
Definition with_cached (s : filesys) (c : gmap (list Z) embedfile) : filesys :=
  MkFs (fraw s) (mltypath s) (froot s) (archfls s) (embed s) (cachexts s) c (defaultexts s) (activexts s) (mltyfsys s).
Definition with_archive (s : filesys) (a : gmap (list Z) ArchiveFile) : filesys :=
  MkFs (fraw s) (mltypath s) (froot s) a (embed s) (cachexts s) (cachedfiles s) (defaultexts s) (activexts s) (mltyfsys s).
Definition with_exts (s : filesys) (c d a : gset (list Z)) : filesys :=
  MkFs (fraw s) (mltypath s) (froot s) (archfls s) (embed s) c (cachedfiles s) d a (mltyfsys s).

(** [index] *)
Definition index_name : list Z := [105; 110; 100; 101; 120].

Section filesys.
Context (fuel : nat) (media : list Z → bool).
Context (os_Stat : list Z → option osinfo) (os_Buffer : list Z → option Buffer).

Definition Path (f : nat) (w : world) : list Z := match systems w !! f with Some s => mltypath s | None => [] end.
Definition Syncable (s : filesys) : bool := bool_decide (archfls s = ∅).

(** *** Set *)

Definition cache_set (s : filesys) (ext path : list Z) (e : embedfile) : filesys :=
  if decide (ext ∈ activexts s) then with_cached s (<[path := e]> (cachedfiles s)) else s.

Definition Set_ (f : nat) (path : list Z) (a : list parg) (w : world) : exec (bool * world) :=
  let* s := the_fs w f in
  let ext := Ext path in
  if bool_decide (path = []) || bool_decide (ext = []) then Done (false, w)
  else
    let path := match path with x :: _ => if x =? 47 then path else 47 :: path | [] => path end in
    match embed s !! path with
    | Some (b, i) =>
      let* buf := the_buffer w b in
      let* '(_, buf) := Buffer.Print fuel (default buf (Buffer.Clear (Some buf))) a in
      let w := with_buffer w b buf in
      let* fi := the_info w i in
      let w := with_info w i (with_size fi (Buffer.Size (Some buf)) (now w)) in
      let w := with_fs w f (cache_set s ext path (b, i)) in
      Done (true, if mltyfsys s then tell w f i NOTE_AMMEND else w)
    | None =>
      let name := if -1 <? last_slash path then drop (Z.to_nat (last_slash path + 1)) path else path in
      let* buf := Buffer.NewBuffer fuel a in
      let '(w, b) := new_buffer w buf in
      let '(w, i) := new_info w (NewFileInfo name (Buffer.Size (Some buf)) 0 (now w) false (bool_decide (ext ∈ activexts s)) (negb (bool_decide (ext ∈ cachexts s))) (media ext) path (mltypath s) (FromBuffer b)) in
      let w := with_fs w f (cache_set (with_embed s (<[path := (b, i)]> (embed s))) ext path (b, i)) in
      Done (true, if mltyfsys s then tell w f i NOTE_CREATE else w)
    end.

(** *** Remove *)

(** [Close] of a buffer by its pointer. *)
Definition close_buffer (w : world) (b : nat) : exec world :=
  let* buf := the_buffer w b in Done (with_buffer w b (default buf (Buffer.Close (Some buf)))).

(** The files below a directory, one after the other; what is told of each. *)
Fixpoint remove_below (f : nat) (files : list (list Z * embedfile)) (path : list Z) (w : world) (gone : list (option nat)) : exec (world * list (option nat)) :=
  match files with
  | [] => Done (w, gone)
  | (epth, (b, i)) :: files' =>
    if (len path <? len epth) && bool_decide (take (length path) epth = path) then
      let* s := the_fs w f in
      let* w1 :=
        match cachedfiles s !! epth with
        | Some (cb, _) => close_buffer (with_fs w f (with_cached s (delete epth (cachedfiles s)))) cb
        | None => Done w
        end in
      let* s := the_fs w1 f in
      let* w2 := close_buffer (with_fs w1 f (with_embed s (delete epth (embed s)))) b in
      remove_below f files' path w2 (gone ++ [Some i])
    else remove_below f files' path w gone
  end.

(** Whether something was removed, and the [FileInfo]s given to [rmvfunc].  A file that
    is set and cached is given twice, the second time as nil: its cached entry was closed
    before.  The second loop goes over the files set once more, and finds none. *)
Definition Remove (f : nat) (path : list Z) (w : world) : exec (bool * list (option nat) * world) :=
  let* s := the_fs w f in
  let ext := Ext path in
  match path with
  | [] => Done (false, [], w)
  | x :: _ =>
    if bool_decide (ext ≠ []) && bool_decide (ext ∈ cachexts s) then
      let ebd := embed s !! path in
      let chdsts := cachedfiles s !! path in
      let* '(gone1, w1) :=
        match ebd with
        | Some (b, i) =>
          let w := with_fs w f (with_embed s (delete path (embed s))) in
          let* w :=
            match chdsts with
            | Some (cb, _) => let* s := the_fs w f in close_buffer (with_fs w f (with_cached s (delete path (cachedfiles s)))) cb
            | None => Done w
            end in
          let* w := close_buffer w b in Done ([Some i], w)
        | None => Done ([], w)
        end in
      let* '(gone2, w2) :=
        match chdsts with
        | Some (cb, ci) =>
          let* s := the_fs w1 f in
          let w := with_fs w1 f (with_cached s (delete path (cachedfiles s))) in
          match ebd with
          | Some _ => Done ([None], w)
          | None => let* w := close_buffer w cb in Done ([Some ci], w)
          end
        | None => Done ([], w1)
        end in
      Done (negb (bool_decide (gone1 ++ gone2 = [])), gone1 ++ gone2, w2)
    else if bool_decide (ext = []) && (x =? 47) then
      let path := if List.last path 0 =? 47 then path else path ++ [47] in
      let* '(w', gone) := remove_below f (map_to_list (embed s)) path w [] in
      Done (negb (bool_decide (gone = [])), gone, w')
    else Done (false, [], w)
  end.

(** *** Cached, Exist *)

Definition Cached (f : nat) (path : list Z) (w : world) : exec bool :=
  let* s := the_fs w f in Done (bool_decide (is_Some (cachedfiles s !! path))).

Definition Exist (f : nat) (path : list Z) (w : world) : exec (bool * world) :=
  let* chd := Cached f path w in
  if (chd : bool) then Done (true, w)
  else
    let* s := the_fs w f in
    if bool_decide (is_Some (embed s !! path)) then Done (true, w)
    else if negb (bool_decide (archfls s = ∅)) then Done (bool_decide (is_Some (archfls s !! path)), w)
    else Done (bool_decide (is_Some (os_Stat (froot s ++ path))), w).

Definition CacheExtensions (s : filesys) (extns : list (list Z)) : filesys :=
  with_exts s (list_to_set extns ∪ cachexts s) (defaultexts s) (activexts s).
Definition ActiveExtensions (s : filesys) (extns : list (list Z)) : filesys :=
  with_exts s (cachexts s) (defaultexts s) (list_to_set extns ∪ activexts s).
Definition DefaultExtensions (s : filesys) (extns : list (list Z)) : filesys :=
  with_exts s (cachexts s) (list_to_set extns ∪ defaultexts s) (activexts s).

(** *** Stat

    What is found is a [FileInfo] that is shared, or one of its own of a file of the
    operating system, with the context. *)
Inductive finfo := FShared (i : nat) | FOwn (fi : fileinfo) (ctx : context).

(** The extension, the directory and the name of a path; all of a path without an extension
    is a directory. *)
Definition split (path : list Z) : list Z * list Z * list Z :=
  let pthext := Ext path in
  let '(rt, p) :=
    if bool_decide (pthext = []) then ((if bool_decide (path ≠ []) && (List.last path 0 =? 47) then path else path ++ [47]), [])
    else if -1 <? last_slash path then (take (Z.to_nat (last_slash path + 1)) path, drop (Z.to_nat (last_slash path + 1)) path)
    else ([47], path) in
  (pthext, match rt with x :: _ => if x =? 47 then rt else 47 :: rt | [] => rt end, p).

(** A file that was set: as it was cached, when its extension is; else a goroutine is
    started that caches it. *)
Definition found_set (f : nat) (s : filesys) (key : list Z) (e : embedfile) (w : world) : exec (option finfo * world) :=
  let '(b, i) := e in
  let* fi := the_info w i in
  if decide (i_ext fi ∈ cachexts s) then
    match cachedfiles s !! key with
    | Some (_, ci) => Done (Some (FShared ci), w)
    | None => Done (Some (FShared i), start w (JCache f key e))
    end
  else Done (Some (FShared i), w).

Definition archiveFileInfo (f : nat) (s : filesys) (key : list Z) (arch : ArchiveFile) (actv : gset (list Z)) (w : world) : option finfo * world :=
  match a_finfo arch with
  | Some i => (Some (FShared i), w)
  | None =>
    let ext := if a_dir arch then [] else Ext (a_name arch) in
    let md := if bool_decide (ext = []) then false else media ext in
    let atv := negb (bool_decide (ext = [])) && bool_decide (ext ∈ actv) in
    let archpath := match a_path arch with x :: p => if x =? 47 then p else a_path arch | [] => [] end in
    let '(w, i) := new_info w (NewFileInfo (a_name arch) (a_size arch) (a_mode arch) (a_modfy arch) (a_dir arch) atv (negb atv) md archpath (mltypath s) (FromArchive key)) in
    let arch' := MkArchive (a_name arch) (a_path arch) (a_size arch) (a_mode arch) (a_modfy arch) (a_dir arch) (Some i) in
    (Some (FShared i), with_fs w f (with_archive s (<[key := arch']> (archfls s))))
  end.

(** The first of the default extensions for which there is something. *)
Fixpoint first_of {A} (get : list Z → option A) (exts : list (list Z)) : option (list Z * A) :=
  match exts with
  | [] => None
  | e :: exts' => match get e with Some a => Some (e, a) | None => first_of get exts' end
  end.

(** What is known of a file of the operating system. *)
Definition os_info (s : filesys) (fi : osinfo) (pthroot p : list Z) (raw : bool) (src : source) : fileinfo :=
  NewFileInfo (os_Name fi) (os_Size fi) (os_Mode fi) (os_ModTime fi) false
    (negb (fraw s) && bool_decide (Ext (os_Name fi) ∈ activexts s)) raw (media (os_Name fi))
    ((match pthroot with x :: r => if x =? 47 then r else pthroot | [] => [] end) ++ p) (mltypath s) src.

Definition actives (s : filesys) : gset (list Z) := if fraw s then ∅ else activexts s.

Definition StatContext (ctx : context) (f : nat) (path : list Z) (w : world) : exec (option finfo * world) :=
  let* s := the_fs w f in
  let* path := strip_ups path in
  let '(pthext, pthroot, p) := split path in
  let isdir := bool_decide (p = []) && (List.last pthroot 0 =? 47) in
  let exts := elements (defaultexts s) in
  match (if isdir then first_of (λ e, embed s !! (pthroot ++ index_name ++ e)) exts else None) with
  | Some (_, e) => found_set f s (pthroot ++ p) e w
  | None =>
    match embed s !! (pthroot ++ p) with
    | Some e => found_set f s (pthroot ++ p) e w
    | None =>
      let archived := negb (bool_decide (archfls s = ∅)) in
      let indexarch :=
        if isdir && archived then
          match archfls s !! (pthroot ++ p) with
          | Some archf => if a_dir archf then first_of (λ e, archfls s !! (pthroot ++ p ++ index_name ++ e)) exts else None
          | None => if bool_decide (pthroot ++ p = [47]) then first_of (λ e, archfls s !! (pthroot ++ p ++ index_name ++ e)) exts else None
          end
        else None in
      match indexarch with
      | Some (e, archf) => Done (archiveFileInfo f s (pthroot ++ p ++ index_name ++ e) archf (actives s) w)
      | None =>
        let indexos :=
          if isdir && negb archived then
            match os_Stat (froot s ++ pthroot ++ p) with
            | Some fi =>
              if os_IsDir fi && negb (bool_decide (exts = [])) then Some (first_of (λ e, os_Stat (froot s ++ pthroot ++ index_name ++ e)) exts) else None
            | None => None
            end
          else None in
        match indexos with
        | Some None => Done (None, w)
        | _ =>
          let '(pthext, p) := match indexos with Some (Some (_, fi)) => (Ext (os_Name fi), os_Name fi) | _ => (pthext, p) end in
          let raw := negb (negb (fraw s) && bool_decide (pthext ∈ activexts s)) in
          match (if bool_decide (pthext ≠ []) && bool_decide (pthext ∈ cachexts s) then cachedfiles s !! (pthroot ++ p) else None) with
          | Some (_, ci) => Done (Some (FShared ci), w)
          | None =>
            if archived then
              match archfls s !! (pthroot ++ p) with
              | Some archf => Done (archiveFileInfo f s (pthroot ++ p) archf (actives s) w)
              | None => Done (None, w)
              end
            else
              match os_Stat (froot s ++ pthroot ++ p) with
              | Some fi =>
                if os_IsDir fi then Done (None, w)
                else Done (Some (FOwn (os_info s fi pthroot p raw (FromOs (froot s ++ pthroot ++ p))) ctx), w)
              | None => Done (None, w)
              end
          end
        end
      end
    end
  end.
Definition Stat := StatContext (Some false).

(** *** Open

    [/../] is not stripped here, and files that were set are not looked for. *)

Record file := MkFile { f_ctx : context; f_chd : bool; f_fullpath : list Z; f_info : finfo; f_mxread : Z }.

Definition OpenContext (ctx : context) (f : nat) (path : list Z) (w : world) : exec (option file * world) :=
  let ctx := match ctx with None => Some false | c => c end in
  let* s := the_fs w f in
  let '(pthext, pthroot, p) := split path in
  let isdir := bool_decide (p = []) && (List.last pthroot 0 =? 47) in
  let exts := elements (defaultexts s) in
  let indexos :=
    if isdir then
      match os_Stat (froot s ++ pthroot ++ p) with
      | Some fi =>
        if os_IsDir fi && negb (bool_decide (exts = [])) then Some (first_of (λ e, os_Stat (froot s ++ pthroot ++ index_name ++ e)) exts) else None
      | None => None
      end
    else None in
  match indexos with
  | Some None => Done (None, w)
  | _ =>
    let '(pthext, p) := match indexos with Some (Some (_, fi)) => (Ext (os_Name fi), os_Name fi) | _ => (pthext, p) end in
    let raw := negb (negb (fraw s) && bool_decide (pthext ∈ activexts s)) in
    let chble := bool_decide (pthext ≠ []) && bool_decide (pthext ∈ cachexts s) in
    let full := froot s ++ pthroot ++ p in
    match (if chble then cachedfiles s !! (pthroot ++ p) else None) with
    | Some (_, ci) => Done (Some (MkFile ctx true full (FShared ci) (-1)), w)
    | None =>
      let fi := os_Stat full in
      let md := match fi with Some x => if os_IsDir x then false else media (os_Name x) | None => false end in
      let w := if chble then start w (JOpen f (pthroot ++ p) fi raw md) else w in
      match fi with
      | Some x =>
        if os_IsDir x then Done (None, w)
        else Done (Some (MkFile ctx false full (FOwn (os_info s x pthroot p raw (FromOs full)) ctx) (-1)), w)
      | None => Done (None, w)
      end
    end
  end.
Definition Open := OpenContext (Some false).

(** *** The goroutines

    The file that is opened is read into the buffer its [FileInfo] reads from; the buffer
    of the cached entry is read from the same file after that, and is empty. *)
Definition run_job (j : job) (w : world) : exec world :=
  match j with
  | JCache f key e => let* s := the_fs w f in Done (with_fs w f (with_cached s (<[key := e]> (cachedfiles s))))
  | JOpen f key fi raw md =>
    let* s := the_fs w f in
    match os_Buffer (froot s ++ key) with
    | None => Done w
    | Some buf =>
      match fi with
      | None => Panic
      | Some x =>
        let '(w, bf) := new_buffer w buf in
        let '(w, rest) := new_buffer w (empty_buffer chunk_size) in
        let '(w, i) := new_info w (NewFileInfo (os_Name x) (os_Size x) (os_Mode x) (os_ModTime x) (os_IsDir x)
          (negb (fraw s) && negb (os_IsDir x) && bool_decide (Ext (os_Name x) ∈ activexts s)) raw md
          (match key with y :: r => if y =? 47 then r else key | [] => [] end) (mltypath s) (FromBuffer bf)) in
        Done (with_fs w f (with_cached s (<[key := (rest, i)]> (cachedfiles s))))
      end
    end
  end.

(** *** Close: the buffers of the cached files are closed; the sets are cleared.  What it
    takes itself off the multi file system by is its path with the slash at the end. *)
Definition Close (f : nat) (w : world) : exec (option (list Z) * world) :=
  let* s := the_fs w f in
  let off := if mltyfsys s && negb (bool_decide (froot s = [])) then Some (mltypath s) else None in
  let* w' := foldl (λ r e, let* w := r in close_buffer w e.2.1) (Done w) (map_to_list (cachedfiles s)) in
  Done (off, with_fs w' f (MkFs (fraw s) (mltypath s) (froot s) ∅ (embed s) ∅ ∅ ∅ ∅ false)).

Definition info_of (x : finfo) (w : world) : option fileinfo := match x with FShared i => infos w !! i | FOwn fi _ => Some fi end.
End filesys.

(** * Theory *)

(** ** Paths *)

Lemma strip_free n p pn pthl : up_free p → (0 < n)%nat → pthl - pn < Z.of_nat n → 0 ≤ pn → pthl ≤ len p → strip_all n p pn pthl = Done p.
Proof.
  intros Hu. revert pn. induction n as [|n IH]; intros pn Hn0 Hn Hpn Hp; [lia|]. cbn [strip_all]. destruct (Z.ltb_spec pn pthl); [|done].
  destruct (index_Done_ok p pn) as [x ->]; [lia|]. cbn [exec_bind]. rewrite up_free_at by done.
  destruct (x =? 47); cbn [exec_bind]; apply IH; lia.
Qed.

Lemma strip_ups_free p : up_free p → strip_ups p = Done p.
Proof. intros Hu. apply strip_free; [done|lia..]. Qed.

Lemma last_slash_bounds p : -1 ≤ last_slash p < len p.
Proof. induction p as [|x p IH]; [cbn; lia|]. cbn [last_slash]. rewrite length_cons. destruct (Z.leb_spec 0 (last_slash p)); [lia|]. destruct (x =? 47); lia. Qed.

Lemma last_slash_rooted p : rooted p → 0 ≤ last_slash p.
Proof. intros [q ->]. cbn [last_slash]. destruct (Z.leb_spec 0 (last_slash q)); [lia|done]. Qed.

Lemma last_slash_at p : 0 ≤ last_slash p → take (Z.to_nat (last_slash p + 1)) p = take (Z.to_nat (last_slash p)) p ++ [47].
Proof.
  induction p as [|x p IH]; [cbn; lia|]. cbn [last_slash]. destruct (Z.leb_spec 0 (last_slash p)) as [Hl|Hl].
  - intros _. replace (Z.to_nat (last_slash p + 1 + 1)) with (S (Z.to_nat (last_slash p + 1))) by lia.
    replace (Z.to_nat (last_slash p + 1)) with (S (Z.to_nat (last_slash p))) at 2 by lia. cbn [take app]. by rewrite IH.
  - destruct (Z.eqb_spec x 47) as [->|]; [done|lia].
Qed.

Lemma Ext_slash p : Ext (p ++ [47]) = [].
Proof. unfold Ext. by rewrite reverse_app. Qed.

Lemma Ext_last p : p ≠ [] → List.last p 0 = 47 → Ext p = [].
Proof. destruct p as [|x p _] using rev_ind; [done|]. intros _. rewrite List.last_last. intros ->. apply Ext_slash. Qed.

Lemma last_of_slash (p : list Z) : List.last (p ++ [47]) 0 = 47.
Proof. apply List.last_last. Qed.

(** A path that has an extension is its directory and its name. *)
Lemma split_file p : rooted p → Ext p ≠ [] → ∃ r n, split p = (Ext p, r ++ [47], n) ∧ p = (r ++ [47]) ++ n ∧ n ≠ [] ∧ rooted (r ++ [47]).
Proof.
  intros Hr He. unfold split. rewrite bool_decide_eq_false_2 by done. pose proof (last_slash_rooted p Hr) as Hl.
  rewrite (proj2 (Z.ltb_lt _ _)) by lia. pose proof (last_slash_at p Hl) as Ht. rewrite Ht.
  assert (p = (take (Z.to_nat (last_slash p)) p ++ [47]) ++ drop (Z.to_nat (last_slash p + 1)) p) as Ep by by rewrite <- Ht, take_drop.
  assert (rooted (take (Z.to_nat (last_slash p)) p ++ [47])) as Hr2.
  { rewrite <- Ht. replace (Z.to_nat (last_slash p + 1)) with (S (Z.to_nat (last_slash p))) by lia. destruct Hr as [q ->]. by eexists. }
  exists (take (Z.to_nat (last_slash p)) p), (drop (Z.to_nat (last_slash p + 1)) p). split; [|split; [done|split; [|done]]].
  - destruct Hr2 as [q ->]. done.
  - intros E. apply He. rewrite Ep, E, app_nil_r. apply Ext_slash.
Qed.

(** A path without one is a directory. *)
Lemma split_dir p : rooted p → Ext p = [] → ∃ r, split p = ([], r ++ [47], []) ∧ (p = r ++ [47] ∨ p = r) ∧ rooted (r ++ [47]).
Proof.
  intros Hr He. unfold split. rewrite He, bool_decide_eq_true_2 by done. destruct Hr as [q ->].
  rewrite (bool_decide_eq_true_2 (47 :: q ≠ [])) by done. cbn [andb]. destruct (Z.eqb_spec (List.last (47 :: q) 0) 47) as [El|El].
  - destruct (exists_last (l := 47 :: q)) as (r & y & E); [done|]. rewrite E in El |- *. rewrite List.last_last in El. subst y. exists r.
    split; [|split; [by left|exists q; done]]. destruct r as [|y r]; [done|]. injection E as <- _. done.
  - exists (47 :: q). split; [done|]. split; [by right|by eexists].
Qed.

Lemma up_free_app_name a q : up_free a → 47 ∉ q → up_free (a ++ q).
Proof.
  intros Ha Hq x y E. destruct (decide (length x + 4 ≤ length a)%nat) as [Hl|Hl].
  - apply (Ha x (drop (length x + 4) a)). apply (f_equal (take (length a))) in E. rewrite take_app_length in E. rewrite E at 1.
    rewrite app_assoc, take_app_ge by (rewrite length_app; cbn [length up]; lia). rewrite <- app_assoc. do 2 f_equal.
    rewrite E at 2. rewrite app_assoc, take_app_ge by (rewrite length_app; cbn [length up]; lia).
    replace (length x + 4)%nat with (length (x ++ up)) by (rewrite length_app; cbn; lia). by rewrite drop_app_length.
  - apply Hq. assert ((a ++ q) !! (length x + 3)%nat = Some 47) as Hl3.
    { rewrite E, lookup_app_r by lia. by replace (length x + 3 - length x)%nat with 3%nat by lia. }
    rewrite lookup_app_r in Hl3 by lia. by eapply list_elem_of_lookup_2.
Qed.

Lemma up_free_slash p : up_free p → Ext p = [] → up_free (p ++ [47]).
Proof.
  intros Hp He a b E. destruct b as [|y b _] using rev_ind.
  - rewrite app_nil_r in E. change up with ([47; 46; 46] ++ [47]) in E. rewrite app_assoc in E. apply app_inj_tail in E as [-> _].
    unfold Ext in He. by rewrite reverse_app in He.
  - rewrite !app_assoc in E. apply app_inj_tail in E as [-> _]. apply (Hp a b). by rewrite <- app_assoc.
Qed.

(** ** Stat stays below its root *)

Lemma first_of_ext {A} (g g' : list Z → option A) exts : (∀ e, e ∈ exts → g e = g' e) → first_of g exts = first_of g' exts.
Proof.
  induction exts as [|e exts IH]; intros H; [done|]. cbn [first_of]. rewrite (H e) by left. destruct (g' e); [done|]. apply IH. intros e' He. apply H. by right.
Qed.

Lemma first_of_Some {A} (g : list Z → option A) exts e a : first_of g exts = Some (e, a) → e ∈ exts ∧ g e = Some a.
Proof.
  induction exts as [|e' exts IH]; [done|]. cbn [first_of]. destruct (g e') eqn:E; [|intros H; destruct (IH H); split; [by right|done]].
  intros [= -> ->]. split; [left|done].
Qed.

Section inside.
Context (media : list Z → bool) (os1 os2 : list Z → option osinfo) (s : filesys).

(** A path that stays below what it is put behind: no part of it is [..]. *)
Definition inside (p : list Z) : Prop := rooted p ∧ up_free p ∧ ¬ ends_up p.

(** Two operating systems that say the same of all paths below the root.  What they call
    a file is the last part of its path. *)
Definition agree_below : Prop :=
  (∀ p, inside p → os1 (froot s ++ p) = os2 (froot s ++ p)) ∧
  ∀ r n fi, n ≠ [] → 47 ∉ n → os1 (r ++ 47 :: n) = Some fi → os_Name fi = n.

Lemma StatContext_agree ctx f path w p ext rt nm :
  systems w !! f = Some s → strip_ups path = Done p → split p = (ext, rt, nm) →
  os1 (froot s ++ rt ++ nm) = os2 (froot s ++ rt ++ nm) →
  (∀ e, e ∈ elements (defaultexts s) → os1 (froot s ++ rt ++ index_name ++ e) = os2 (froot s ++ rt ++ index_name ++ e)) →
  (∀ e fi, e ∈ elements (defaultexts s) → os1 (froot s ++ rt ++ index_name ++ e) = Some fi → os1 (froot s ++ rt ++ os_Name fi) = os2 (froot s ++ rt ++ os_Name fi)) →
  StatContext media os1 ctx f path w = StatContext media os2 ctx f path w.
Proof.
  intros Es Ep Esp H1 H2 H3. unfold StatContext, the_fs. rewrite Es. cbn [exec_bind]. rewrite Ep. cbn [exec_bind]. rewrite Esp.
  set (isdir := bool_decide (nm = []) && (List.last rt 0 =? 47)).
  destruct (if isdir then first_of (λ e, embed s !! (rt ++ index_name ++ e)) (elements (defaultexts s)) else None) as [[? ?]|]; [done|].
  destruct (embed s !! (rt ++ nm)); [done|]. set (archived := negb (bool_decide (archfls s = ∅))).
  destruct (if isdir && archived then _ else None) as [[? ?]|]; [done|]. rewrite <- H1.
  rewrite <- (first_of_ext (λ e, os1 (froot s ++ rt ++ index_name ++ e)) (λ e, os2 (froot s ++ rt ++ index_name ++ e))) by done.
  destruct (if isdir && negb archived then _ else None) as [[[e fi]|]|] eqn:Ei; [|done|].
  - assert (e ∈ elements (defaultexts s) ∧ os1 (froot s ++ rt ++ index_name ++ e) = Some fi) as [He Ee].
    { destruct (isdir && negb archived); [|done]. destruct (os1 (froot s ++ rt ++ nm)) as [d|]; [|done]. destruct (os_IsDir d && _); [|done].
      injection Ei as Ei. by apply first_of_Some in Ei. }
    by rewrite <- (H3 e fi He Ee).
  - by rewrite <- H1.
Qed.

(** C33: [Stat] of a file system asks the operating system for nothing outside its
    directory: for a path that begins with a slash, does not end in [/..] and whose [/../] are each followed by at
    least as many bytes as there are of them, the answer and all that changes are the same for
    two operating systems that say the same of the paths below the root none of whose parts
    is [..].  The default extensions have no slash in them. *)
Theorem Stat_inside ctx f path w :
  systems w !! f = Some s → agree_below → (∀ e, e ∈ defaultexts s → 47 ∉ e) → rooted path → followed 0 path → ¬ ends_up path →
  StatContext media os1 ctx f path w = StatContext media os2 ctx f path w.
Proof.
  intros Es [Hag Hnm] Hext Hr Hf He. destruct (strip_ups_spec path) as (p & Ep & Hu & Hrp & Hep). specialize (Hu Hf). specialize (Hrp Hr).
  assert (¬ ends_up p) as Hnp by tauto.
  assert (∃ ext r nm, split p = (ext, r ++ [47], nm) ∧ inside (r ++ [47]) ∧ inside ((r ++ [47]) ++ nm)) as (ext & r & nm & Esp & (Hrr & Hur & _) & Hin).
  { destruct (decide (Ext p = [])) as [Hx|Hx].
    - destruct (split_dir p Hrp Hx) as (r & E & Epr & Hrr). exists [], r, []. rewrite app_nil_r. split; [done|].
      enough (inside (r ++ [47])) by done. split; [done|]. split; [|apply ends_up_slash]. destruct Epr as [<- | ->]; [done|by apply up_free_slash].
    - destruct (split_file p Hrp Hx) as (r & n & E & Epr & _ & Hrr). exists (Ext p), r, n. split; [done|]. rewrite <- Epr. split; [|done].
      split; [done|]. split; [|apply ends_up_slash]. intros a b Eab. apply (Hu a (b ++ n)). by rewrite Epr, Eab, <- !app_assoc. }
  assert (∀ e, e ∈ elements (defaultexts s) → inside ((r ++ [47]) ++ index_name ++ e) ∧ 47 ∉ index_name ++ e) as Hidx.
  { intros e H%elem_of_elements. specialize (Hext e H). assert (47 ∉ index_name ++ e) as Hn by (unfold index_name; set_solver by lia).
    split; [|done]. split; [destruct Hrr as [q ->]; by eexists|]. split; [by apply up_free_app_name|]. by intros ?%ends_up_name. }
  eapply StatContext_agree; [done|done|done|by apply Hag| |].
  - intros e H. apply Hag. by apply Hidx.
  - intros e fi H Ee. destruct (Hidx e H) as [Hi Hn].
    rewrite (Hnm (froot s ++ r) (index_name ++ e) fi); [by apply Hag|done|done|]. by rewrite <- Ee, <- !app_assoc.
Qed.
End inside.

(** ** What is set is found *)

(** The buffer and the [FileInfo] of a file that was set before. *)
Definition set_ok (w : world) (s : filesys) (path : list Z) : Prop :=
  match embed s !! path with
  | Some (b, i) => ∃ buf fi, buffers w !! b = Some buf ∧ wf buf ∧ infos w !! i = Some fi ∧ i_rdr fi = FromBuffer b
  | None => True
  end.

(** A file that was set: its [FileInfo], the buffer that is read and its [FileInfo]'s
    place; when it is cached, it is cached as it was set. *)
Definition holds_file (w : world) (f : nat) (path : list Z) (i : nat) (fi : fileinfo) (buf : Buffer) : Prop :=
  ∃ s b, systems w !! f = Some s ∧ embed s !! path = Some (b, i) ∧ (cachedfiles s !! path = None ∨ cachedfiles s !! path = Some (b, i)) ∧
    infos w !! i = Some fi ∧ i_rdr fi = FromBuffer b ∧ buffers w !! b = Some buf.

Lemma Stat_holds media os ctx f path w i fi buf :
  rooted path → up_free path → Ext path ≠ [] → holds_file w f path i fi buf →
  ∃ w', StatContext media os ctx f path w = Done (Some (FShared i), w') ∧ systems w' = systems w ∧ infos w' = infos w ∧ buffers w' = buffers w ∧
    holds_file w' f path i fi buf.
Proof.
  intros Hr Hu He (s & b & Es & Eb & Hc & Ei & Hrd & Hb). unfold StatContext, the_fs. rewrite Es. cbn [exec_bind]. rewrite strip_ups_free by done. cbn [exec_bind].
  destruct (split_file path Hr He) as (r & n & -> & Ep & Hn & _). rewrite (bool_decide_eq_false_2 (n = [])) by done. cbn [andb].
  rewrite <- Ep, Eb. unfold found_set, the_info. rewrite Ei. cbn [exec_bind].
  assert (holds_file w f path i fi buf ∧ ∀ j, holds_file (start w j) f path i fi buf) as [H1 H2] by (split; intros; by exists s, b).
  destruct (decide _); [|by exists w]. destruct Hc as [-> | ->]; [|by exists w]. by eexists.
Qed.

Lemma cache_set_embed s ext path e : embed (cache_set s ext path e) = embed s.
Proof. unfold cache_set. by destruct (decide _). Qed.

Lemma cache_set_cached s ext path e :
  ext ∈ activexts s ∨ cachedfiles s !! path = None →
  cachedfiles (cache_set s ext path e) !! path = None ∨ cachedfiles (cache_set s ext path e) !! path = Some e.
Proof. unfold cache_set. destruct (decide _) as [|Hn]; [intros _; right; apply lookup_insert_eq|]. intros [?|?]; [done|by left]. Qed.

Lemma NewBuffer_appends fuel a t : prints_list fuel a t → ∃ b, Buffer.NewBuffer fuel a = Done b ∧ wf b ∧ len (bytes b) = chunk_size ∧ contents b = t.
Proof.
  intros Hp. unfold NewBuffer. assert (wf (empty_buffer chunk_size)) as Hw by by apply wf_empty. destruct (Z.ltb_spec 0 (len a)).
  - destruct (Print_appends fuel _ a t Hw Hp) as (b & -> & Hb & Hl & Hc). exists b. by rewrite Hl.
  - destruct a; [|cbn in *; lia]. inversion Hp. by exists (empty_buffer chunk_size).
Qed.

(** The file of a path that was not set before. *)
Definition set_name (path : list Z) : list Z := if -1 <? last_slash path then drop (Z.to_nat (last_slash path + 1)) path else path.
Definition set_info (media : list Z → bool) (w : world) (s : filesys) (path : list Z) (size : Z) : fileinfo :=
  NewFileInfo (set_name path) size 0 (now w) false (bool_decide (Ext path ∈ activexts s)) (negb (bool_decide (Ext path ∈ cachexts s)))
    (media (Ext path)) path (mltypath s) (FromBuffer (length (buffers w))).

Lemma set_rooted path : rooted path → match path with x :: _ => if x =? 47 then path else 47 :: path | [] => path end = path.
Proof. by intros [q ->]. Qed.

Lemma Set_new fuel media f path a t w s :
  systems w !! f = Some s → rooted path → Ext path ≠ [] → embed s !! path = None → prints_list fuel a t →
  Ext path ∈ activexts s ∨ cachedfiles s !! path = None →
  ∃ w1 buf, Set_ fuel media f path a w = Done (true, w1) ∧ holds_file w1 f path (length (infos w)) (set_info media w s path (len t)) buf ∧
    wf buf ∧ len (bytes buf) = chunk_size ∧ contents buf = t.
Proof.
  intros Es Hr He Eb Hp Hc. unfold Set_, the_fs. rewrite Es. cbn [exec_bind]. pose proof (lookup_lt_Some _ _ _ Es) as Hf.
  rewrite (bool_decide_eq_false_2 (Ext path = [])), (bool_decide_eq_false_2 (path = [])) by (done || by destruct Hr as [q ->]). cbn [orb]. rewrite set_rooted by done.
  rewrite Eb. destruct (NewBuffer_appends fuel a t Hp) as (buf & -> & Hwf & Hlb & Hcb). cbn [exec_bind new_buffer new_info systems buffers infos now jobs told].
  rewrite Size_contents, Hcb by done. fold (set_name path). fold (set_info media w s path (len t)).
  eexists _, buf. split; [done|]. split; [|done]. set (e := (length (buffers w), length (infos w))).
  exists (cache_set (with_embed s (<[path := e]> (embed s))) (Ext path) path e), (length (buffers w)).
  rewrite cache_set_embed. destruct (mltyfsys s); cbn; (split_and!;
    [by apply list_lookup_insert_eq|apply lookup_insert_eq|by apply cache_set_cached|by apply list_lookup_middle|unfold set_info, NewFileInfo; by destruct (mltypath s)|by apply list_lookup_middle]).
Qed.

Lemma Set_again fuel media f path a t w s b i buf fi :
  systems w !! f = Some s → rooted path → Ext path ≠ [] → embed s !! path = Some (b, i) → buffers w !! b = Some buf → wf buf → infos w !! i = Some fi →
  i_rdr fi = FromBuffer b → prints_list fuel a t → Ext path ∈ activexts s ∨ cachedfiles s !! path = None →
  ∃ w1 buf', Set_ fuel media f path a w = Done (true, w1) ∧ holds_file w1 f path i (with_size fi (len t) (now w)) buf' ∧
    wf buf' ∧ len (bytes buf') = len (bytes buf) ∧ contents buf' = t.
Proof.
  intros Es Hr He Eb Ebuf Hwf Efi Hrdr Hp Hc. unfold Set_, the_fs. rewrite Es. cbn [exec_bind]. pose proof (lookup_lt_Some _ _ _ Es) as Hf.
  rewrite (bool_decide_eq_false_2 (Ext path = [])), (bool_decide_eq_false_2 (path = [])) by (done || by destruct Hr as [q ->]). cbn [orb]. rewrite set_rooted by done.
  rewrite Eb. unfold the_buffer. rewrite Ebuf. cbn [exec_bind]. destruct (Clear_spec buf Hwf) as (b0 & Ecl & Hwf0 & Hc0 & Hl0). rewrite Ecl. cbn [from_option id].
  destruct (Print_appends fuel b0 a t Hwf0 Hp) as (b1 & -> & Hwf1 & Hl1 & Hc1). cbn [exec_bind]. unfold the_info. cbn [infos with_buffer]. rewrite Efi. cbn [exec_bind].
  rewrite Hc0 in Hc1. rewrite Size_contents, Hc1 by done. eexists _, b1. split; [done|]. split; [|split_and!; [done|congruence|done]].
  exists (cache_set s (Ext path) path (b, i)), b. rewrite cache_set_embed.
  destruct (mltyfsys s); cbn; (split_and!; [by apply list_lookup_insert_eq|done|by apply cache_set_cached|apply list_lookup_insert_eq; by eapply lookup_lt_Some|done|
    apply list_lookup_insert_eq; by eapply lookup_lt_Some]).
Qed.

(** C34: a file that is set is found: after [Set] of a path that begins with a slash, has
    an extension and no [/../], whose extension is an active one or for which nothing is cached, [Stat] of the
    path answers a [FileInfo] whose reader reads a buffer with exactly what was set, and
    whose size is its length, whether the file was set before or not.  ([set_not_seen] has
    a file that was cached when it was opened and is then set.) *)
Theorem Set_Stat fuel media os ctx f path a t w s :
  systems w !! f = Some s → rooted path → up_free path → Ext path ≠ [] → set_ok w s path → prints_list fuel a t →
  Ext path ∈ activexts s ∨ cachedfiles s !! path = None →
  ∃ w1 i w2 fi b buf,
    Set_ fuel media f path a w = Done (true, w1) ∧ StatContext media os ctx f path w1 = Done (Some (FShared i), w2) ∧
    infos w2 !! i = Some fi ∧ i_rdr fi = FromBuffer b ∧ buffers w2 !! b = Some buf ∧ contents buf = t ∧ i_size fi = len t.
Proof.
  intros Es Hr Hu He Hok Hp Hc.
  assert (∃ w1 i fi buf, Set_ fuel media f path a w = Done (true, w1) ∧ holds_file w1 f path i fi buf ∧ contents buf = t ∧ i_size fi = len t)
    as (w1 & i & fi & buf & HS & Hh & Hcb & Hsz).
  { unfold set_ok in Hok. destruct (embed s !! path) as [[b i]|] eqn:Eb.
    - destruct Hok as (buf & fi & Ebuf & Hwf & Efi & Hrdr).
      destruct (Set_again fuel media f path a t w s b i buf fi) as (w1 & buf' & HS & Hh & _ & _ & Hcb); [done..|]. by eexists w1, i, _, buf'.
    - destruct (Set_new fuel media f path a t w s) as (w1 & buf & HS & Hh & _ & _ & Hcb); [done..|]. eexists w1, _, _, buf.
      split_and!; [done|exact Hh|done|]. unfold set_info, NewFileInfo. by destruct (mltypath s). }
  destruct (Stat_holds media os ctx f path w1 i fi buf Hr Hu He Hh) as (w2 & HSt & _ & _ & _ & (s2 & b2 & _ & _ & _ & Hi & Hrd & Hb)).
  exists w1, i, w2, fi, b2, buf. by split_and!.
Qed.

(** ** The file systems a multi file system asks *)

Definition filesys_system (fuel : nat) (media : list Z → bool) (os : list Z → option osinfo) : FileSystem world finfo file parg := {|
  fs_Path := Path;
  fs_StatContext := StatContext media os;
  fs_Exist := Exist os;
  fs_OpenContext := OpenContext media os;
  fs_Set := Set_ fuel media;
  fi_Path x w := match info_of x w with Some fi => i_path fi | None => [] end |}.

(** * Witnesses and examples *)

(** A server of /www under [/], with one file outside. *)
Definition plain_fs : filesys := MkFs false (text "/") (text "/www") ∅ ∅ ∅ ∅ {[text ".html"]} ∅ true.
Definition one_world : world := MkWorld [plain_fs] [] [] 7 [] [].
Definition no_media (_ : list Z) : bool := false.
Definition os_of (files : list (string * string)) (p : list Z) : option osinfo :=
  match find (λ x, bool_decide (text x.1 = p)) files with
  | Some (_, n) => Some (MkOs (text n) 3 0 0 (bool_decide (n = "d"%string)))
  | None => None
  end.
Definition www : list Z → option osinfo :=
  os_of [("/www/a.txt", "a.txt"); ("/www/../secret.txt", "secret.txt"); ("/www/../", "d"); ("/www/../index.html", "index.html")]%string.
Definition www_multi : multifilesys (Ntfy := ()) := with_systems NewMultiFileSystem (Some (MkIterMap (Some {[text "/" := Some 0%nat]}) None)).

Lemma last_part (r n r' n' : list Z) : 47 ∉ n → 47 ∉ n' → r ++ 47 :: n = r' ++ 47 :: n' → n = n'.
Proof.
  intros Hn Hn' E. apply app_eq_inv in E as [(d & -> & E)|(d & -> & E)]; destruct d; injection E; intros; subst; try done.
  all: exfalso; first [apply Hn; rewrite elem_of_app, elem_of_cons; by auto|apply Hn'; rewrite elem_of_app, elem_of_cons; by auto].
Qed.

Lemma text_rooted s : rooted (47 :: s).
Proof. by exists s. Qed.

Lemma Set_Stat_witness :
  systems one_world !! 0%nat = Some plain_fs ∧
  ∃ w1 i w2 fi b buf,
    Set_ 10 no_media 0 (text "/x.txt") [PRunes (text "hi")] one_world = Done (true, w1) ∧
    StatContext no_media www None 0 (text "/x.txt") w1 = Done (Some (FShared i), w2) ∧
    infos w2 !! i = Some fi ∧ i_rdr fi = FromBuffer b ∧ buffers w2 !! b = Some buf ∧ contents buf = encode_all (text "hi") ++ [] ∧
    i_size fi = len (encode_all (text "hi") ++ []).
Proof.
  split; [reflexivity|]. apply (Set_Stat 10 no_media www None 0 (text "/x.txt") [PRunes (text "hi")] _ one_world plain_fs).
  - reflexivity.
  - apply text_rooted.
  - apply n_ups_free. reflexivity.
  - vm_compute. discriminate.
  - exact I.
  - apply prints_cons; [apply prints_runes; by repeat constructor|apply prints_none].
  - right. reflexivity.
Defined.

(** The same with another file outside. *)
Definition www2 : list Z → option osinfo := os_of [("/www/a.txt", "a.txt")]%string.

Lemma Stat_inside_witness :
  StatContext no_media www2 None 0 (text "/../a.txt") one_world = StatContext no_media (λ p, if decide (p = text "/etc/p") then www (text "/www/a.txt") else www2 p) None 0 (text "/../a.txt") one_world.
Proof.
  apply (Stat_inside no_media www2 _ plain_fs).
  - reflexivity.
  - split.
    + intros p _. rewrite decide_False; [reflexivity|]. cbn. discriminate.
    + intros r n fi _ Hn. unfold www2, os_of. cbn [find]. case_bool_decide as E; [|discriminate]. intros [= <-].
      apply (last_part (text "/www") (text "a.txt") r n); [by apply (bool_decide_unpack _)|done|exact E].
  - intros e He. assert (e = text ".html") as -> by set_solver. by apply (bool_decide_unpack _).
  - apply text_rooted.
  - apply followedb_spec. reflexivity.
  - intros H. apply (ends_up_name (text "/..") (text "a.txt")) in H; [discriminate H|by apply (bool_decide_unpack _)].
Defined.

Section examples.
#[local] Instance www_system : FileSystem world finfo file parg := filesys_system 10 no_media www.

Definition multi_Stat (p : string) : exec (option finfo * world) := MultiFs.Stat (Some www_multi) (text p) one_world.
Definition multi_Open (p : string) : exec (option file * world) := MultiFs.Open (Some www_multi) (text p) one_world.

Definition found_at (x : exec (option finfo * world)) : exec (option source) :=
  let* '(r, w) := x in Done (match r with Some fi => i_rdr <$> info_of fi w | None => None end).
Definition opened_at (x : exec (option file * world)) : exec (option source) :=
  let* '(r, w) := x in Done (match r with Some fl => i_rdr <$> info_of (f_info fl) w | None => None end).

Example stat_plain : found_at (multi_Stat "/a.txt") = Done (Some (FromOs (text "/www/a.txt"))).
Proof. vm_compute. reflexivity. Qed.

(** One [/../] is stripped; of eleven before a name of ten bytes one is left, since each
    takes four off the length of the path and is only three long. *)
Example stat_one_up : found_at (multi_Stat "/../secret.txt") = Done None.
Proof. vm_compute. reflexivity. Qed.
Example stat_escapes : found_at (multi_Stat "/../../../../../../../../../../../secret.txt") = Done (Some (FromOs (text "/www/../secret.txt"))).
Proof. vm_compute. reflexivity. Qed.

(** A path that ends in [/../] is not stripped at all: the default file of the directory
    above is found. *)
Example stat_index_above : found_at (multi_Stat "/../") = Done (Some (FromOs (text "/www/../index.html"))).
Proof. vm_compute. reflexivity. Qed.

(** So is one that ends in [/..]: the operating system is asked for the directory above the
    root; were that a file, it would be found. *)
Example stat_above_asked :
  let os p := if decide (p = text "/www/..") then Some (MkOs (text "..") 3 0 0 false) else None in
  found_at (StatContext no_media os None 0 (text "/..") one_world) = Done (Some (FromOs (text "/www/.."))).
Proof. vm_compute. reflexivity. Qed.

(** [Open] strips nothing. *)
Example open_escapes : opened_at (multi_Open "/../secret.txt") = Done (Some (FromOs (text "/www/../secret.txt"))).
Proof. vm_compute. reflexivity. Qed.

(** [Open] of the empty path panics. *)
Example open_empty_panics : multi_Open "" = Panic.
Proof. vm_compute. reflexivity. Qed.

(** [Exist] asks for the path as it is. *)
Example exist_escapes : (let* '(b, _) := MultiFs.Exist (Some www_multi) (text "/../secret.txt") one_world in Done b) = Done true.
Proof. vm_compute. reflexivity. Qed.

(** A file that was set is found and cannot be opened. *)
Example set_not_opened :
  (let* '(_, w) := Set_ 10 no_media 0 (text "/x.txt") [PRunes (text "hi")] one_world in
   let* '(a, _) := Stat no_media www 0 (text "/x.txt") w in
   let* '(b, _) := Open no_media www 0 (text "/x.txt") w in Done (bool_decide (is_Some a), bool_decide (is_Some b))) = Done (true, false).
Proof. vm_compute. reflexivity. Qed.

(** With a file system mapped to [/] only, a file below a directory cannot be set: the
    shorter roots that are tried do not include it. *)
Example set_below_root :
  (let* '(b, _) := Set__ (Some www_multi) (text "/x.txt") [PRunes (text "hi")] one_world in
   let* '(c, _) := Set__ (Some www_multi) (text "/d/x.txt") [PRunes (text "hi")] one_world in Done (b, c)) = Done (true, false).
Proof. vm_compute. reflexivity. Qed.

(** A file that is set and cached is told as removed twice, the second time as nil. *)
Definition cached_fs : filesys := MkFs false (text "/") (text "/www") ∅ {[text "/x.txt" := (0, 0)%nat]} {[text ".txt"]} {[text "/x.txt" := (0, 0)%nat]} ∅ ∅ true.
Definition cached_world : world :=
  MkWorld [cached_fs] [empty_buffer chunk_size] [NewFileInfo (text "x.txt") 0 0 0 false false true false (text "/x.txt") (text "/") (FromBuffer 0)] 7 [] [].
Example removed_twice :
  (let* '(b, gone, _) := Remove 0 (text "/x.txt") cached_world in Done (b, gone)) = Done (true, [Some 0%nat; None]).
Proof. vm_compute. reflexivity. Qed.

Definition caching_fs : filesys := with_exts plain_fs {[text ".txt"]} ∅ ∅.

(** A file that was cached when it was opened and is then set: [Stat] goes on answering the
    file as it was opened, of three bytes, and its reader reads them. *)
Example set_not_seen :
  (let* '(_, w) := Open no_media www 0 (text "/a.txt") (MkWorld [caching_fs] [] [] 7 [] []) in
   match jobs w with
   | [j] =>
     let* buf := NewBuffer 10 [PRunes (text "abc")] in
     let* w := run_job (λ _, Some buf) j w in
     let* '(set, w) := Set_ 10 no_media 0 (text "/a.txt") [PRunes (text "hi")] w in
     let* '(found, w) := Stat no_media www 0 (text "/a.txt") w in
     match found with
     | Some (FShared i) =>
       let* fi := the_info w i in
       match i_rdr fi with
       | FromBuffer b => let* x := the_buffer w b in Done (set, i_size fi, contents x)
       | _ => Panic
       end
     | _ => Panic
     end
   | _ => Panic
   end) = Done (true, 3, text "abc").
Proof. vm_compute. reflexivity. Qed.

(** A file that is cached when it is opened is cached with an empty buffer of its own. *)
Example cached_buffer_empty :
  (let w := MkWorld [caching_fs] [] [] 7 [] [] in
   let* '(_, w) := Open no_media www 0 (text "/a.txt") w in
   match jobs w with
   | [j] =>
     let* buf := NewBuffer 10 [PRunes (text "abc")] in
     let* w := run_job (λ _, Some buf) j w in
     let* s := the_fs w 0 in
     match cachedfiles s !! text "/a.txt" with
     | Some (b, i) => let* x := the_buffer w b in let* fi := the_info w i in Done (Buffer.Size (Some x), i_size fi)
     | None => Panic
     end
   | _ => Panic
   end) = Done (0, 3).
Proof. vm_compute. reflexivity. Qed.

(** A file system mapped to [/d] takes itself off the multi file system, when it is closed,
    under [/d/], where it is not. *)
Example close_keeps_mapped :
  (let m := with_systems NewMultiFileSystem (Some (MkIterMap (Some {[text "/d" := Some 0%nat]}) None)) : multifilesys (Ntfy := ()) in
   let w := MkWorld [MkFs false (text "/d/") (text "/www") ∅ ∅ ∅ ∅ ∅ ∅ true] [] [] 7 [] [] in
   let* '(off, _) := Close 0 w in
   match off with
   | Some p => Done (mapped (with_systems m (IterMap.Delete (fsystms m) [p]).1) (text "/d"))
   | None => Panic
   end) = Done (Some 0%nat).
Proof. vm_compute. reflexivity. Qed.

(** Of two files with the same path the second is replaced by a copy of what is before it,
    and nil is added. *)
Example listed_twice :
  (let fi := FOwn (NewFileInfo (text "a.txt") 3 0 0 false false true false (text "a.txt") (text "/") (FromOs (text "/www/a.txt"))) None in
   let* l := drop_listed 3 one_world [Some fi; Some fi] 0 2 ∅ in Done (map (λ o, bool_decide (is_Some o)) l)) = Done [true; true; false].
Proof. vm_compute. reflexivity. Qed.
End examples.

(** ** Witnesses of the searches *)

(** File systems that list nothing. *)
Definition no_lister : FileLister world finfo (() + ()) := {|
  fs_List _ _ w := Done ([], w);
  fs_Syncable _ _ := false;
  fs_AutoSync _ _ _ w := Done w;
  fs_new _ _ w := Done (0%nat, w);
  fs_attach _ _ _ _ _ w := w |}.

(** File systems that have the files [os] has, and change nothing. *)
Definition still_system (os : list Z → option osinfo) : FileSystem world finfo file parg := {|
  fs_Path := Path;
  fs_StatContext ctx f p w := Done (match os p with Some fi => Some (FOwn (NewFileInfo (os_Name fi) 0 0 0 false false true false p [] (FromOs p)) ctx) | None => None end, w);
  fs_Exist f p w := Done (bool_decide (is_Some (os p)), w);
  fs_OpenContext ctx f p w := Done (match os p with Some fi => Some (MkFile ctx false p (FOwn (NewFileInfo (os_Name fi) 0 0 0 false false true false p [] (FromOs p)) ctx) (-1)) | None => None end, w);
  fs_Set _ _ _ w := Done (false, w);
  fi_Path _ _ := [] |}.
Definition flat_os : list Z → option osinfo := os_of [("/a.txt", "a.txt")]%string.

Lemma still_answers : @fs_answers world finfo file parg () () (still_system flat_os) no_lister.
Proof. split; [|split]; intros; cbn; by eexists _, _. Qed.

Lemma searches_end_witness :
  let _ := still_system flat_os in let _ := no_lister in
  (∃ r w', MultiFs.StatContext (File := file) (Arg := parg) None (Some www_multi) (text "/../a.txt") one_world = Done (r, w')) ∧
  (∃ b w', MultiFs.Exist (FI := finfo) (File := file) (Arg := parg) (Some www_multi) (text "/../a.txt") one_world = Done (b, w')) ∧
  ∃ x', list_paths (File := file) (Arg := parg) www_multi [text "/../a.txt"] (∅, [], one_world) = Done x'.
Proof. apply (@searches_end world finfo file parg () () (still_system flat_os) no_lister). apply still_answers. Defined.

Lemma Stat_finds_witness :
  let sys := still_system flat_os in
  ∃ r, MultiFs.StatContext (FileSystem0 := sys) None (Some www_multi) (text "a.txt") one_world = Done (r, one_world) ∧
    match r with
    | Some fi => ∃ j f, at_slash www_multi (text "/a.txt") j f ∧
        (match flat_os (drop j (text "/a.txt")) with Some fi => Some (FOwn (NewFileInfo (os_Name fi) 0 0 0 false false true false (drop j (text "/a.txt")) [] (FromOs (drop j (text "/a.txt")))) None) | None => None end) = Some fi
    | None => ∀ j f, at_slash www_multi (text "/a.txt") j f →
        (match flat_os (drop j (text "/a.txt")) with Some fi => Some (FOwn (NewFileInfo (os_Name fi) 0 0 0 false false true false (drop j (text "/a.txt")) [] (FromOs (drop j (text "/a.txt")))) None) | None => None end) = None
    end.
Proof.
  apply (@Stat_finds world finfo file parg () (still_system flat_os) None www_multi (text "a.txt") (text "/a.txt") one_world
    (λ _ p, match flat_os p with Some fi => Some (FOwn (NewFileInfo (os_Name fi) 0 0 0 false false true false p [] (FromOs p)) None) | None => None end)).
  - discriminate.
  - reflexivity.
  - vm_compute. reflexivity.
  - apply n_ups_free. reflexivity.
  - intros f rest. reflexivity.
Defined.

Lemma Open_finds_witness :
  let sys := still_system flat_os in
  let op (f : nat) p := match flat_os p with Some fi => Some (MkFile None false p (FOwn (NewFileInfo (os_Name fi) 0 0 0 false false true false p [] (FromOs p)) None) (-1)) | None => None end in
  ∃ r, MultiFs.OpenContext (FileSystem0 := sys) None (Some www_multi) (text "/a.txt") one_world = Done (r, one_world) ∧
    match r with
    | Some fl => ∃ j f, open_at www_multi (text "/a.txt") j f ∧ op f (drop j (text "/a.txt")) = Some fl
    | None => ∀ j f, open_at www_multi (text "/a.txt") j f → op f (drop j (text "/a.txt")) = None
    end.
Proof.
  apply (@Open_finds world finfo file parg () (still_system flat_os) None www_multi (text "/a.txt") one_world).
  - discriminate.
  - reflexivity.
  - intros f rest. reflexivity.
Defined.
