(* ===== verification/Listing.v ===== *)
(** src/fs/filesys.go: [List], the files of a directory of a file system.

    What is after the last slash of the path are masks, with commas between them, which
    filepath.Match compares with the path of a file; no mask asks for every file.  What is
    in a directory of the operating system is an argument.  The maps of files are gone over
    in one order.  [filepath.Match] is modelled as whether it matches: a pattern that is
    badly formed matches nothing, whatever its error. *)

From S2P Require Import Prelude Runes GoStrings RuneReaders Buffer IterMap Paths MultiFs FileSys.
From stdpp Require Import gmap strings.
#[local] Open Scope Z_scope.

(** ** filepath.Match *)

(** [scanChunk]: what is before the next star that is not in brackets. *)
Fixpoint scan (p : list Z) (inrange : bool) : list Z * list Z :=
  match p with
  | [] => ([], [])
  | c :: p' =>
    if c =? 92 then
      match p' with
      | [] => ([c], [])
      | d :: p'' => let '(a, b) := scan p'' inrange in (c :: d :: a, b)
      end
    else if (c =? 42) && negb inrange then ([], p)
    else
      let inrange := if c =? 91 then true else if c =? 93 then false else inrange in
      let '(a, b) := scan p' inrange in (c :: a, b)
  end.

Fixpoint skip_stars (p : list Z) : bool * list Z :=
  match p with
  | c :: p' => if c =? 42 then (true, (skip_stars p').2) else (false, p)
  | [] => (false, [])
  end.

Definition scanChunk (pattern : list Z) : bool * list Z * list Z :=
  let '(star, p) := skip_stars pattern in
  let '(chunk, rest) := scan p false in (star, chunk, rest).

(** [getEsc]: a rune of a class, and what is after it. *)
Definition getEsc (chunk : list Z) : option (Z * list Z) :=
  match chunk with
  | [] => None
  | c :: chunk' =>
    if (c =? 45) || (c =? 93) then None
    else
      let chunk := if c =? 92 then chunk' else chunk in
      match chunk with
      | [] => None
      | _ =>
        let '(r, n) := utf8.DecodeRune chunk in
        let rest := drop (Z.to_nat n) chunk in
        if ((r =? utf8.RuneError) && (n =? 1)) || bool_decide (rest = []) then None else Some (r, rest)
      end
  end.

(** The ranges of a class, up to its bracket: whether [r] is in one, and what is after it. *)
Fixpoint ranges (n : nat) (chunk : list Z) (r : Z) (first : bool) (found : bool) : option (bool * list Z) :=
  match n with
  | O => None
  | S n' =>
    if bool_decide (head chunk = Some 93) && negb first then Some (found, tail chunk)
    else
      match getEsc chunk with
      | None => None
      | Some (lo, chunk) =>
        if bool_decide (head chunk = Some 45) then
          match getEsc (tail chunk) with
          | Some (hi, chunk) => ranges n' chunk r false (found || ((lo <=? r) && (r <=? hi)))
          | None => None
          end
        else ranges n' chunk r false (found || ((lo <=? r) && (r <=? lo)))
      end
  end.

(** [matchChunk]: what is left of the name after the chunk. *)
Fixpoint matchChunk (n : nat) (chunk s : list Z) : option (list Z) :=
  match n with
  | O => None
  | S n' =>
    match chunk with
    | [] => Some s
    | c :: chunk' =>
      match s with
      | [] => None
      | x :: s' =>
        let '(r, size) := utf8.DecodeRune s in
        if c =? 91 then
          let negated := bool_decide (head chunk' = Some 94) in
          let chunk' := if negated then tail chunk' else chunk' in
          match ranges (S (length chunk')) chunk' r true false with
          | Some (found, rest) => if Bool.eqb found negated then None else matchChunk n' rest (drop (Z.to_nat size) s)
          | None => None
          end
        else if c =? 63 then
          if x =? 47 then None else matchChunk n' chunk' (drop (Z.to_nat size) s)
        else
          match (if c =? 92 then chunk' else chunk) with
          | d :: rest => if d =? x then matchChunk n' rest s' else None
          | [] => None
          end
      end
    end
  end.
Definition match_chunk (chunk s : list Z) : option (list Z) := matchChunk (S (length chunk)) chunk s.

(** After a star: the chunk is looked for further on, up to a slash. *)
Fixpoint match_later (chunk rest s : list Z) : option (list Z) :=
  match s with
  | [] => None
  | x :: s' =>
    if x =? 47 then None
    else
      match match_chunk chunk s' with
      | Some t => if bool_decide (rest = []) && negb (bool_decide (t = [])) then match_later chunk rest s' else Some t
      | None => match_later chunk rest s'
      end
  end.

Fixpoint match_from (n : nat) (pattern name : list Z) : bool :=
  match n with
  | O => false
  | S n' =>
    match pattern with
    | [] => bool_decide (name = [])
    | _ =>
      let '(star, chunk, rest) := scanChunk pattern in
      if star && bool_decide (chunk = []) then negb (bool_decide (47 ∈ name))
      else
        match match_chunk chunk name with
        | Some t =>
          if bool_decide (t = []) || negb (bool_decide (rest = [])) then match_from n' rest t
          else if star then match match_later chunk rest name with Some t => match_from n' rest t | None => false end else false
        | None => if star then match match_later chunk rest name with Some t => match_from n' rest t | None => false end else false
        end
    end
  end.
Definition Match (pattern name : list Z) : bool := match_from (S (length pattern)) pattern name.

Definition checkPathMask (path mask : list Z) : bool := Match mask path.

(** ** List *)

(** [strings.ContainsAny] of bytes. *)
Definition ContainsAny (s chars : list Z) : bool := existsb (λ x, bool_decide (x ∈ chars)) s.

(** The masks of a name, trimmed and each once. *)
Fixpoint drop_known (seen : gset (list Z)) (names : list (list Z)) : list (list Z) :=
  match names with
  | [] => []
  | n :: names' => let n := trim n in if decide (n ∈ seen) then drop_known seen names' else n :: drop_known ({[n]} ∪ seen) names'
  end.
Definition masks (name : list Z) : list (list Z) := drop_known ∅ (match name with [] => [[]] | _ => Split name 44 end).

(** The directory, between slashes, and the name after it. *)
Definition list_path (path : list Z) : list Z * list Z :=
  let i := last_slash path in
  let '(path, name) := if i =? -1 then ([47], path) else (take (Z.to_nat (i + 1)) path, drop (Z.to_nat (i + 1)) path) in
  let path := match path with x :: _ => if x =? 47 then path else 47 :: path | [] => path end in
  (if bool_decide (path ≠ []) && negb (List.last path 0 =? 47) then path ++ [47] else path, name).

(** [isvalid]: whether a file is listed, and which have been.  It is called with the name
    and the path of the file for its [fipath] and [finame]. *)
Definition isvalid (chkpth chkmask firoot fipath finame : list Z) (fld : gset (list Z)) : exec (bool * gset (list Z)) :=
  if decide (fipath ∈ fld) then Done (false, fld)
  else if len chkpth <=? len firoot then
    let* x := index firoot (len chkpth - 1) in
    if (x =? 47) && bool_decide (firoot = chkpth) then
      let valid :=
        bool_decide (chkmask = []) ||
        (ContainsAny chkmask [42; 46; 63] &&
         ((ContainsAny chkmask [42; 63] && (checkPathMask finame chkmask || checkPathMask finame chkmask)) ||
          (bool_decide (46 ∈ chkmask) && checkPathMask finame chkmask))) in
      Done (valid, if valid then {[fipath]} ∪ fld else fld)
    else Done (false, fld)
  else Done (false, fld).

(** The directory of a file of an archive: its path is this and its name. *)
Definition a_root (a : ArchiveFile) : list Z := take (length (a_path a) - length (a_name a)) (a_path a).

Section list.
Context (media : list Z → bool) (os_ReadDir : list Z → list osinfo).

Abbreviation listed := (list finfo * gset (list Z) * world)%type.

(** Files that were set, and cached ones: those whose directory it is. *)
Fixpoint list_infos (chkpth mask : list Z) (l : list (list Z * embedfile)) (x : listed) : exec listed :=
  match l with
  | [] => Done x
  | (_, (_, i)) :: l' =>
    let '(fis, fld, w) := x in
    let* fi := the_info w i in
    if bool_decide (i_root fi = chkpth) then
      let* '(vld, fld) := isvalid chkpth mask (i_root fi) (i_name fi) (i_path fi) fld in
      list_infos chkpth mask l' (if (vld : bool) then fis ++ [FShared i] else fis, fld, w)
    else list_infos chkpth mask l' x
  end.

Fixpoint list_archive (f : nat) (chkpth mask : list Z) (l : list (list Z * ArchiveFile)) (x : listed) : exec listed :=
  match l with
  | [] => Done x
  | (key, a) :: l' =>
    let '(fis, fld, w) := x in
    let* s := the_fs w f in
    let root := mltypath s ++ a_root a in
    if bool_decide (root = chkpth) then
      let* '(vld, fld) := isvalid chkpth mask root (a_name a) (a_path a) fld in
      if (vld : bool) then
        let '(o, w) := archiveFileInfo media f s key a (actives s) w in
        list_archive f chkpth mask l' (match o with Some fi => fis ++ [fi] | None => fis end, fld, w)
      else list_archive f chkpth mask l' (fis, fld, w)
    else list_archive f chkpth mask l' x
  end.

(** [findosfinfos]: the directory without its last slash is read; the file of a path under
    [mltypath] is opened at that path under the root. *)
Fixpoint list_os (s : filesys) (dir mask : list Z) (l : list osinfo) (x : listed) : exec listed :=
  match l with
  | [] => Done x
  | fi :: l' =>
    let '(fis, fld, w) := x in
    let fipath := mltypath s ++ dir ++ os_Name fi in
    let fiproot := take (Z.to_nat (last_slash fipath + 1)) fipath in
    let* fiproot := if bool_decide (fiproot = [47]) then Done fiproot
                    else let* c := index fiproot 0 in Done (if c =? 47 then fiproot else 47 :: fiproot) in
    let* '(vld, fld) := isvalid (mltypath s ++ dir) mask fiproot (os_Name fi) fipath fld in
    let info := NewFileInfo (os_Name fi) (os_Size fi) (os_Mode fi) (os_ModTime fi) (os_IsDir fi)
      (negb (fraw s) && bool_decide (Ext (os_Name fi) ∈ activexts s)) true (media (os_Name fi)) (drop (length (mltypath s)) fipath) (mltypath s)
      (FromOs (froot s ++ fipath)) in
    list_os s dir mask l' (if (vld : bool) then fis ++ [FOwn info None] else fis, fld, w)
  end.

(** The path of a directory within the file system: no slash before it, one after it. *)
Definition os_dir (path : list Z) : list Z :=
  match path with
  | [] => []
  | x :: p =>
    if x =? 47 then
      if bool_decide (p = []) then p else if List.last path 0 =? 47 then p else p ++ [47]
    else if List.last path 0 =? 47 then path else path ++ [47]
  end.

Definition list_mask (f : nat) (path mask : list Z) (x : listed) : exec listed :=
  let '(_, _, w) := x in
  let* s := the_fs w f in
  let chkpth := mltypath s ++ drop 1 path in
  let* x := list_infos chkpth mask (map_to_list (embed s)) x in
  let* x := list_infos chkpth mask (map_to_list (cachedfiles s)) x in
  if bool_decide (archfls s = ∅) then
    let path := if bool_decide (path ≠ []) && (List.last path 0 =? 47) then removelast path else path in
    list_os s (os_dir path) mask (os_ReadDir (froot s ++ path)) x
  else list_archive f chkpth mask (map_to_list (archfls s)) x.

Fixpoint list_masks (f : nat) (path : list Z) (names : list (list Z)) (x : listed) : exec listed :=
  match names with
  | [] => Done x
  | mask :: names' => let* x := list_mask f path mask x in list_masks f path names' x
  end.

Definition List_ (f : nat) (path : list Z) (w : world) : exec (list finfo * world) :=
  let* _ := the_fs w f in
  let* path := strip_ups path in
  let '(path, name) := list_path path in
  let* '(fis, _, w) := list_masks f path (masks name) ([], ∅, w) in Done (fis, w).
End list.

(** * Theory *)

(** ** A pattern without a slash and without brackets matches no slash *)

Lemma cut_slash s : head s ≠ Some 47 → 47 ∉ take (Z.to_nat (utf8.DecodeRune s).2) s.
Proof.
  destruct s as [|p0 q]; [set_solver|]. intros Hp. cbn [head] in Hp. assert (47 ≠ p0) as H0 by congruence. unfold utf8.DecodeRune.
  destruct (Z.ltb_spec p0 128); [cbn; set_solver|]. destruct (utf8.first p0) as [[[sz lo] hi]|] eqn:Hf; [|cbn; set_solver].
  assert (128 ≤ lo) as Hlo by (revert Hf; clear; unfold utf8.first; repeat zcase; simpl; intros [= <- <- <-]; lia || done).
  destruct q as [|b1 q1]; [cbn; set_solver|]. destruct (_ <? sz)%nat; [cbn; set_solver|].
  destruct (Z.ltb_spec b1 lo); [cbn; set_solver|]. destruct (Z.ltb_spec hi b1); [cbn; set_solver|]. cbn [orb].
  assert (47 ≠ b1) by lia. destruct (sz <=? 2)%nat; [cbn; set_solver|].
  destruct q1 as [|b2 q2]; [cbn; set_solver|]. destruct (utf8.cont b2) eqn:E2; cbn [negb]; [|cbn; set_solver]. assert (47 ≠ b2) by (intros <-; done).
  destruct (sz <=? 3)%nat; [cbn; set_solver|].
  destruct q2 as [|b3 q3]; [cbn; set_solver|]. destruct (utf8.cont b3) eqn:E3; cbn [negb]; [|cbn; set_solver]. assert (47 ≠ b3) by (intros <-; done). cbn. set_solver.
Qed.

Definition plain (p : list Z) : Prop := 47 ∉ p ∧ 91 ∉ p.

Lemma plain_cons c p : plain (c :: p) → c ≠ 47 ∧ c ≠ 91 ∧ plain p.
Proof. unfold plain. rewrite !not_elem_of_cons. naive_solver. Qed.

(** The chunk takes a piece of the name without a slash. *)
Lemma matchChunk_plain n chunk s t : plain chunk → matchChunk n chunk s = Some t → ∃ u, s = u ++ t ∧ 47 ∉ u.
Proof.
  revert chunk s. induction n as [|n IH]; intros chunk s Hp; cbn [matchChunk]; [done|]. destruct chunk as [|c chunk]; [intros [= <-]; exists []; set_solver|].
  destruct s as [|x s]; [done|]. apply plain_cons in Hp as (Hc & Hb & Hp). pose proof (cut_slash (x :: s)) as Hcut. destruct (utf8.DecodeRune (x :: s)) as [r size]. cbn [snd head] in Hcut.
  rewrite (proj2 (Z.eqb_neq c 91)) by done. destruct (c =? 63).
  - destruct (Z.eqb_spec x 47) as [|Hx]; [done|]. intros (u & E & Hu)%IH; [|done]. exists (take (Z.to_nat size) (x :: s) ++ u). split.
    + rewrite <-app_assoc, <-E. by rewrite take_drop.
    + rewrite not_elem_of_app. split; [apply Hcut; congruence|done].
  - assert (∀ d rest, plain (d :: rest) → (if d =? x then matchChunk n rest s else None) = Some t → ∃ u, x :: s = u ++ t ∧ 47 ∉ u) as Hlit.
    { intros d rest (Hd & _ & Hr)%plain_cons. destruct (Z.eqb_spec d x) as [<-|]; [|done]. intros (u & -> & Hu)%IH; [|done]. exists (d :: u). split; [done|]. rewrite not_elem_of_cons. by split. }
    destruct (c =? 92); [destruct chunk as [|d rest]; [done|by apply Hlit]|]. apply Hlit. unfold plain. rewrite !not_elem_of_cons. destruct Hp. done.
Qed.

Lemma match_later_plain chunk rest s t : plain chunk → match_later chunk rest s = Some t → ∃ u, s = u ++ t ∧ 47 ∉ u.
Proof.
  intros Hp. induction s as [|x s IH]; cbn [match_later]; [done|]. destruct (Z.eqb_spec x 47) as [|Hx]; [done|].
  assert (∀ o, (o = Some t → ∃ u, s = u ++ t ∧ 47 ∉ u) → o = Some t → ∃ u, x :: s = u ++ t ∧ 47 ∉ u) as Hcons.
  { intros o Ho E. destruct (Ho E) as (u & -> & Hu). exists (x :: u). split; [done|]. rewrite not_elem_of_cons. split; [congruence|done]. }
  destruct (match_chunk chunk s) as [t'|] eqn:E; [|by apply Hcons]. destruct (_ && _); [by apply Hcons|]. apply Hcons. intros [= ->]. by eapply matchChunk_plain.
Qed.

Lemma scan_app p b : (scan p b).1 ++ (scan p b).2 = p.
Proof.
  remember (length p) as n eqn:En. assert (length p ≤ n)%nat as Hn by lia. clear En. revert p b Hn. induction n as [|n IH]; intros [|c p] b Hn; cbn [length] in Hn; [done|lia|done|].
  cbn [scan]. destruct (c =? 92).
  - destruct p as [|d p]; [done|]. specialize (IH p b ltac:(cbn in Hn; lia)). destruct (scan p b). cbn in *. by rewrite IH.
  - destruct (_ && _); [done|]. specialize (IH p (if c =? 91 then true else if c =? 93 then false else b) ltac:(lia)). destruct (scan p _). cbn in *. by rewrite IH.
Qed.

Lemma skip_stars_suffix p : ∃ u, p = u ++ (skip_stars p).2.
Proof.
  induction p as [|c p [u IH]]; [by exists []|]. cbn [skip_stars]. destruct (c =? 42); [|by exists []]. exists (c :: u). cbn. by rewrite <-IH.
Qed.

Lemma scanChunk_plain p : plain p → plain (scanChunk p).1.2 ∧ plain (scanChunk p).2.
Proof.
  intros Hp. destruct (skip_stars_suffix p) as [u Hu]. unfold scanChunk. destruct (skip_stars p) as [star q]. cbn [snd] in Hu. pose proof (scan_app q false) as Hs.
  destruct (scan q false) as [chunk rest]. cbn [fst snd] in *. subst. unfold plain in *. rewrite !not_elem_of_app in Hp. naive_solver.
Qed.

Lemma Match_plain mask name : plain mask → Match mask name = true → 47 ∉ name.
Proof.
  unfold Match. generalize (S (length mask)). intros n. revert mask name. induction n as [|n IH]; intros mask name Hp; cbn [match_from]; [done|].
  destruct mask as [|c mask]; [intros H%bool_decide_eq_true; subst; set_solver|]. destruct (scanChunk_plain _ Hp) as [Hpc Hpr].
  destruct (scanChunk (c :: mask)) as [[star chunk] rest]. cbn [fst snd] in *. destruct (star && _); [by intros H%negb_true_iff%bool_decide_eq_false|].
  assert (∀ t, (∃ u, name = u ++ t ∧ 47 ∉ u) → match_from n rest t = true → 47 ∉ name) as Hon.
  { intros t (u & -> & Hu) H. rewrite not_elem_of_app. split; [done|]. by eapply IH. }
  assert ((if star then match match_later chunk rest name with Some t => match_from n rest t | None => false end else false) = true → 47 ∉ name) as Hlater.
  { destruct star; [|done]. destruct (match_later chunk rest name) as [t|] eqn:E; [|done]. apply (Hon t). by apply (match_later_plain chunk rest). }
  destruct (match_chunk chunk name) as [t|] eqn:E; [|done]. destruct (_ || _); [|done]. apply (Hon t). by eapply (matchChunk_plain _ chunk).
Qed.

(** ** The fuel of a match is enough *)

Lemma getEsc_shorter chunk r rest : getEsc chunk = Some (r, rest) → (length rest < length chunk)%nat.
Proof.
  unfold getEsc. destruct chunk as [|c chunk]; [done|]. destruct (_ || _); [done|]. set (q := if c =? 92 then chunk else c :: chunk).
  assert (length q ≤ length (c :: chunk))%nat as Hq by (unfold q; destruct (c =? 92); cbn; lia). clearbody q. destruct q as [|y t]; [done|].
  pose proof (DecodeRune_size (y :: t) ltac:(done)) as Hs. destruct (utf8.DecodeRune (y :: t)) as [x n]. destruct (_ || _); [done|]. intros [= _ <-].
  rewrite length_drop. cbn [snd] in Hs. lia.
Qed.

Lemma length_tail {A} (l : list A) : (length (tail l) ≤ length l)%nat.
Proof. destruct l; cbn; lia. Qed.

Lemma ranges_fuel n m chunk r first found : (length chunk < n)%nat → (length chunk < m)%nat → ranges n chunk r first found = ranges m chunk r first found.
Proof.
  revert m chunk first found. induction n as [|n IH]; intros [|m] chunk first found Hn Hm; [lia..|]. cbn [ranges]. destruct (_ && _); [done|].
  destruct (getEsc chunk) as [[lo c1]|] eqn:E1; [|done]. apply getEsc_shorter in E1. case_bool_decide; [|apply IH; lia].
  destruct (getEsc (tail c1)) as [[hi c2]|] eqn:E2; [|done]. apply getEsc_shorter in E2. pose proof (length_tail c1). apply IH; lia.
Qed.

Lemma ranges_shorter n chunk r first found b rest : ranges n chunk r first found = Some (b, rest) → (length rest ≤ length chunk)%nat.
Proof.
  revert chunk first found. induction n as [|n IH]; intros chunk first found; [done|]. cbn [ranges]. destruct (_ && _); [intros [= _ <-]; apply length_tail|].
  destruct (getEsc chunk) as [[lo c1]|] eqn:E1; [|done]. apply getEsc_shorter in E1. case_bool_decide; [|intros ?%IH; lia].
  destruct (getEsc (tail c1)) as [[hi c2]|] eqn:E2; [|done]. apply getEsc_shorter in E2. pose proof (length_tail c1). intros ?%IH. lia.
Qed.

Lemma matchChunk_fuel n m chunk s : (length chunk < n)%nat → (length chunk < m)%nat → matchChunk n chunk s = matchChunk m chunk s.
Proof.
  revert m chunk s. induction n as [|n IH]; intros [|m] chunk s Hn Hm; [lia..|]. cbn [matchChunk]. destruct chunk as [|c chunk]; [done|]. destruct s as [|x s]; [done|].
  cbn [length] in Hn, Hm. destruct (utf8.DecodeRune (x :: s)) as [r size]. destruct (c =? 91).
  - set (q := if bool_decide (head chunk = Some 94) then tail chunk else chunk). assert (length q ≤ length chunk)%nat by (unfold q; pose proof (length_tail chunk); case_bool_decide; lia).
    destruct (ranges (S (length q)) q r true false) as [[found rest]|] eqn:E; [|done]. apply ranges_shorter in E. destruct (Bool.eqb _ _); [done|]. apply IH; lia.
  - destruct (c =? 63); [destruct (x =? 47); [done|]; apply IH; lia|].
    assert (length (if (c =? 92)%Z then chunk else c :: chunk) ≤ S (length chunk))%nat as Hq by (destruct (c =? 92); cbn; lia).
    destruct (if c =? 92 then chunk else c :: chunk) as [|d rest]; [done|]. destruct (d =? x); [|done]. cbn in Hq. apply IH; lia.
Qed.

Lemma scanChunk_shorter p : p ≠ [] → (length (scanChunk p).2 < length p)%nat.
Proof.
  intros Hp. destruct p as [|c p]; [done|]. unfold scanChunk. assert (∀ q b, length (scan q b).2 ≤ length q)%nat as Hs.
  { intros q b. pose proof (f_equal length (scan_app q b)) as E. rewrite length_app in E. lia. }
  cbn [skip_stars]. destruct (c =? 42) eqn:Ec.
  - destruct (skip_stars_suffix p) as [u Hu]. specialize (Hs (skip_stars p).2 false). destruct (scan _ false). cbn [snd length] in *. rewrite Hu, length_app. lia.
  - cbn [scan]. rewrite Ec. cbn [andb]. destruct (c =? 92).
    + destruct p as [|d p]; [cbn; lia|]. specialize (Hs p false). destruct (scan p false). cbn in *. lia.
    + specialize (Hs p (if c =? 91 then true else if c =? 93 then false else false)). destruct (scan p _). cbn in *. lia.
Qed.

(** More fuel matches the same. *)
Lemma Match_fuel n m p name : (length p < n)%nat → (length p < m)%nat → match_from n p name = match_from m p name.
Proof.
  revert m p name. induction n as [|n IH]; intros [|m] p name Hn Hm; [lia..|]. cbn [match_from]. destruct p as [|c p]; [done|].
  pose proof (scanChunk_shorter (c :: p) ltac:(done)) as Hs. destruct (scanChunk (c :: p)) as [[star chunk] rest]. cbn [snd] in Hs. destruct (star && _); [done|].
  assert (∀ t, match_from n rest t = match_from m rest t) as Hr by (intros t; apply IH; lia).
  assert ((if star then match match_later chunk rest name with Some t => match_from n rest t | None => false end else false) =
    (if star then match match_later chunk rest name with Some t => match_from m rest t | None => false end else false)) as ->.
  { destruct star; [|done]. by destruct (match_later chunk rest name). }
  destruct (match_chunk chunk name) as [t|]; [|done]. by destruct (_ || _).
Qed.

(** ** The files of a directory *)

(** Of several files of the same name the first. *)
Fixpoint once (seen : gset (list Z)) (l : list (list Z * finfo)) : list finfo :=
  match l with
  | [] => []
  | (n, x) :: l' => if decide (n ∈ seen) then once seen l' else x :: once ({[n]} ∪ seen) l'
  end.
Definition names_of (l : list (list Z * finfo)) : gset (list Z) := list_to_set (map fst l).

Lemma once_app seen l1 l2 : once seen (l1 ++ l2) = once seen l1 ++ once (names_of l1 ∪ seen) l2.
Proof.
  revert seen. induction l1 as [|[n x] l1 IH]; intros seen; cbn [app once]; [unfold names_of; cbn; by rewrite (left_id_L ∅ (∪))|]. unfold names_of in *. cbn [map fst list_to_set].
  destruct (decide (n ∈ seen)) as [Hn|Hn]; rewrite IH; cbn [app].
  - assert ({[n]} ∪ list_to_set (map fst l1) ∪ seen = list_to_set (map fst l1) ∪ seen) as -> by (apply set_eq; set_solver). done.
  - assert ({[n]} ∪ list_to_set (map fst l1) ∪ seen = list_to_set (map fst l1) ∪ ({[n]} ∪ seen)) as -> by (apply set_eq; set_solver). done.
Qed.

(** The files that were set, or are cached, in a directory; those of the operating system. *)
Definition set_in (w : world) (dir : list Z) (l : list (list Z * embedfile)) : list (list Z * finfo) :=
  omap (λ x, match infos w !! x.2.2 with Some fi => if decide (i_root fi = dir) then Some (i_name fi, FShared x.2.2) else None | None => None end) l.

Section lists.
Context (media : list Z → bool) (os_ReadDir : list Z → list osinfo).

Definition os_entry (s : filesys) (dir : list Z) (fi : osinfo) : list Z * finfo :=
  (os_Name fi, FOwn (NewFileInfo (os_Name fi) (os_Size fi) (os_Mode fi) (os_ModTime fi) (os_IsDir fi)
    (negb (fraw s) && bool_decide (Ext (os_Name fi) ∈ activexts s)) true (media (os_Name fi)) (dir ++ os_Name fi) (mltypath s)
    (FromOs (froot s ++ mltypath s ++ dir ++ os_Name fi))) None).

(** A file system in its world: what is set and cached has a [FileInfo], with a path that has
    a slash; what is in its directories has a name without one. *)
Record lists_ok (w : world) (s : filesys) : Prop := {
  lo_infos : ∀ k e, embed s !! k = Some e ∨ cachedfiles s !! k = Some e → ∃ fi, infos w !! e.2 = Some fi ∧ 47 ∈ i_path fi;
  lo_root : ∃ r, mltypath s = r ++ [47] ∧ (r = [] ∨ head r = Some 47);
  lo_names : ∀ p fi, fi ∈ os_ReadDir p → 47 ∉ os_Name fi;
  lo_plain : archfls s = ∅ }.

Definition infos_in (w : world) (l : list (list Z * embedfile)) : Prop := Forall (λ x, ∃ fi, infos w !! x.2.2 = Some fi ∧ 47 ∈ i_path fi) l.

Lemma map_infos_in w s : lists_ok w s → infos_in w (map_to_list (embed s)) ∧ infos_in w (map_to_list (cachedfiles s)).
Proof. intros [H _ _ _]. split; apply Forall_forall; intros [k e] Hk%elem_of_map_to_list; apply (H k e); auto. Qed.

Lemma isvalid_all d name path fld :
  isvalid (d ++ [47]) [] (d ++ [47]) name path fld = Done (if decide (name ∈ fld) then (false, fld) else (true, {[name]} ∪ fld)).
Proof.
  unfold isvalid. destruct (decide (name ∈ fld)); [done|]. zsimp. rewrite (index_lookup _ _ 47); [|rewrite length_app; cbn; lia|].
  - cbn [exec_bind]. rewrite !bool_decide_eq_true_2 by done. done.
  - rewrite length_app. cbn [length]. replace (Z.to_nat _) with (length d) by lia. by apply list_lookup_middle.
Qed.

Lemma isvalid_mask d mask root name path fld : mask ≠ [] → plain mask → 47 ∈ path → isvalid (d ++ [47]) mask root name path fld = Done (false, fld).
Proof.
  intros Hne Hp Hpath. assert (checkPathMask path mask = false) as Hno.
  { unfold checkPathMask. destruct (Match mask path) eqn:E; [|done]. by apply Match_plain in E. }
  unfold isvalid. destruct (decide (name ∈ fld)); [done|]. destruct (Z.leb_spec (len (d ++ [47])) (len root)); [|done].
  destruct (index_Done_ok root (len (d ++ [47]) - 1)) as [x ->]; [rewrite length_app in *; cbn [length] in *; lia|]. cbn [exec_bind].
  destruct (_ && _); [|done]. rewrite Hno, bool_decide_eq_false_2 by done. by rewrite !andb_false_r.
Qed.

Lemma list_infos_all w d l fis fld : infos_in w l →
  list_infos (d ++ [47]) [] l (fis, fld, w) = Done (fis ++ once fld (set_in w (d ++ [47]) l), names_of (set_in w (d ++ [47]) l) ∪ fld, w).
Proof.
  intros Hl. revert fis fld. induction Hl as [|[k [b i]] l (fi & Ei & _) Hl IH]; intros fis fld; cbn [list_infos set_in omap list_omap].
  { unfold names_of. cbn. by rewrite app_nil_r, (left_id_L ∅ (∪)). }
  cbn [snd] in *. unfold the_info. rewrite Ei. cbn [exec_bind]. change (omap _ l) with (set_in w (d ++ [47]) l). case_bool_decide as Hr.
  - rewrite Hr, decide_True, isvalid_all by done. cbn [exec_bind once].
    change (names_of ((i_name fi, FShared i) :: set_in w (d ++ [47]) l)) with ({[i_name fi]} ∪ names_of (set_in w (d ++ [47]) l)). destruct (decide (i_name fi ∈ fld)); rewrite IH.
    + assert ({[i_name fi]} ∪ names_of (set_in w (d ++ [47]) l) ∪ fld = names_of (set_in w (d ++ [47]) l) ∪ fld) as -> by (apply set_eq; set_solver). done.
    + rewrite <-app_assoc. assert ({[i_name fi]} ∪ names_of (set_in w (d ++ [47]) l) ∪ fld = names_of (set_in w (d ++ [47]) l) ∪ ({[i_name fi]} ∪ fld)) as -> by (apply set_eq; set_solver). done.
  - rewrite decide_False by done. apply IH.
Qed.

Lemma list_infos_mask w d mask l x : infos_in w l → mask ≠ [] → plain mask → x.2 = w → list_infos (d ++ [47]) mask l x = Done x.
Proof.
  intros Hl Hne Hp <-. destruct x as [[fis fld] w]. cbn [snd] in *. induction Hl as [|[k [b i]] l (fi & Ei & Hpath) Hl IH]; [done|]. cbn [list_infos snd] in *. unfold the_info.
  rewrite Ei. cbn [exec_bind]. case_bool_decide as Hr; [|done]. by rewrite isvalid_mask.
Qed.
End lists.

Lemma last_slash_app p name : 47 ∉ name → last_slash (p ++ 47 :: name) = len p.
Proof.
  intros Hn. induction p as [|x p IH]; cbn [app last_slash]; [by rewrite last_slash_none|]. rewrite IH. zsimp. cbn [length]. lia.
Qed.

(** A directory, by its path in the file system. *)
Definition directory (P d : list Z) : Prop := P = 47 :: d ∧ (d = [] ∨ ∃ e, d = e ++ [47] ∧ e ≠ [] ∧ List.last e 0 ≠ 47).

Lemma directory_ends P d : directory P d → ∃ q, P = q ++ [47].
Proof. intros [-> [->|(e & -> & _)]]; [by exists []|by exists (47 :: e)]. Qed.

Lemma list_path_dir P d mask : directory P d → 47 ∉ mask → list_path (P ++ mask) = (P, mask).
Proof.
  intros Hd Hm. destruct (directory_ends _ _ Hd) as [q Eq]. assert (last_slash (P ++ mask) = len P - 1) as El.
  { rewrite Eq, <-app_assoc. cbn [app]. rewrite last_slash_app, length_app by done. cbn [length]. lia. }
  assert (0 < len P) by (rewrite Eq, length_app; cbn [length]; lia). unfold list_path. rewrite El. zsimp.
  replace (Z.to_nat (len P - 1 + 1)) with (length P) by lia. rewrite take_app_length, drop_app_length.
  assert (List.last P 0 = 47) as HlP by (rewrite Eq; apply last_last). destruct Hd as [Ep _]. rewrite Ep in HlP |- *. cbv iota. change (47 =? 47) with true. cbv iota.
  rewrite HlP. change (47 =? 47) with true. cbn [negb]. by rewrite andb_false_r.
Qed.

Lemma os_dir_directory P d : directory P d → os_dir (removelast P) = d ∧ (P ≠ [] ∧ List.last P 0 = 47).
Proof.
  intros [-> [->|(e & -> & Hne & Hl)]]; [done|]. rewrite app_comm_cons, removelast_last, last_last. split; [|done]. unfold os_dir. change (47 =? 47) with true. cbv iota.
  rewrite bool_decide_eq_false_2 by done. assert (List.last (47 :: e) 0 = List.last e 0) as -> by by destruct e. by rewrite (proj2 (Z.eqb_neq _ _)).
Qed.

Section listing.
Context (media : list Z → bool) (os_ReadDir : list Z → list osinfo).

(** The path of a directory under [mltypath] ends with a slash and begins with one. *)
Lemma dir_under w s P d : lists_ok os_ReadDir w s → directory P d → ∃ D, mltypath s ++ d = D ++ [47] ∧ head (D ++ [47]) = Some 47.
Proof.
  intros [_ (r & -> & Hr) _ _] [_ [->|(e & -> & _)]].
  - rewrite app_nil_r. exists r. split; [done|]. by destruct Hr as [->|Hr]; [|destruct r].
  - exists (r ++ [47] ++ e). rewrite <-!app_assoc. split; [done|]. by destruct Hr as [->|Hr]; [|destruct r].
Qed.

(** One entry of a directory of the operating system. *)
Lemma list_os_cons s d D mask fi l fis fld w : mltypath s ++ d = D ++ [47] → head (D ++ [47]) = Some 47 → 47 ∉ os_Name fi →
  list_os media s d mask (fi :: l) (fis, fld, w) =
  let* '(vld, fld) := isvalid (D ++ [47]) mask (D ++ [47]) (os_Name fi) (D ++ [47] ++ os_Name fi) fld in
  list_os media s d mask l (if (vld : bool) then fis ++ [(os_entry media s d fi).2] else fis, fld, w).
Proof.
  intros ED Hhd Hn. cbn [list_os]. assert (mltypath s ++ d ++ os_Name fi = D ++ [47] ++ os_Name fi) as Ep by (by rewrite !app_assoc, ED). rewrite Ep.
  assert (take (Z.to_nat (last_slash (D ++ [47] ++ os_Name fi) + 1)) (D ++ [47] ++ os_Name fi) = D ++ [47]) as ->.
  { cbn [app]. rewrite last_slash_app by done. replace (Z.to_nat (len D + 1)) with (length (D ++ [47])) by (rewrite length_app; cbn; lia).
    change (47 :: os_Name fi) with ([47] ++ os_Name fi). rewrite app_assoc. apply take_app_length. }
  assert ((if bool_decide (D ++ [47] = [47]) then Done (D ++ [47]) else let* c := index (D ++ [47]) 0 in Done (if c =? 47 then D ++ [47] else 47 :: D ++ [47])) = Done (D ++ [47])) as ->.
  { case_bool_decide; [done|]. destruct (D ++ [47]) as [|c q]; [done|]. injection Hhd as ->. done. }
  cbn [exec_bind]. rewrite ED. unfold os_entry. cbn [snd].
  assert (drop (length (mltypath s)) (D ++ [47] ++ os_Name fi) = d ++ os_Name fi) as -> by (rewrite <-Ep; apply drop_app_length).
  by rewrite Ep.
Qed.

Lemma list_os_all s d D l fis fld w : mltypath s ++ d = D ++ [47] → head (D ++ [47]) = Some 47 → Forall (λ fi, 47 ∉ os_Name fi) l →
  ∃ fld', list_os media s d [] l (fis, fld, w) = Done (fis ++ once fld (map (os_entry media s d) l), fld', w).
Proof.
  intros ED Hhd Hl. revert fis fld. induction Hl as [|fi l Hn Hl IH]; intros fis fld; [cbn; rewrite app_nil_r; by eexists|].
  rewrite (list_os_cons s d D) by done. rewrite isvalid_all. cbn [exec_bind map once fst snd os_entry]. destruct (decide (os_Name fi ∈ fld)); cbn [exec_bind]; [apply IH|].
  destruct (IH (fis ++ [(os_entry media s d fi).2]) ({[os_Name fi]} ∪ fld)) as (fld' & E). rewrite <-app_assoc in E. eexists. exact E.
Qed.

Lemma list_os_mask s d D mask l x : mltypath s ++ d = D ++ [47] → head (D ++ [47]) = Some 47 → Forall (λ fi, 47 ∉ os_Name fi) l →
  mask ≠ [] → plain mask → list_os media s d mask l x = Done x.
Proof.
  intros ED Hhd Hl Hne Hp. destruct x as [[fis fld] w]. induction Hl as [|fi l Hn Hl IH]; [done|]. rewrite (list_os_cons s d D) by done.
  rewrite isvalid_mask; [done..|set_solver].
Qed.

(** What is in a directory: the files that were set in it, the cached ones, those of the
    operating system; of those with the same name the first. *)
Definition directory_files (w : world) (s : filesys) (P d : list Z) : list finfo :=
  once ∅ (set_in w (mltypath s ++ d) (map_to_list (embed s)) ++ set_in w (mltypath s ++ d) (map_to_list (cachedfiles s)) ++
    map (os_entry media s d) (os_ReadDir (froot s ++ removelast P))).

(** C35: listing a directory answers the files that were set in it, those that are cached
    and those of the operating system, of the same name the first, and changes nothing; and
    listing it by masks, without brackets, answers nothing at all, whatever is in it: a mask
    is compared with the whole path of a file, and no mask has the slash that every path
    has. *)
Theorem List_directory f w s P d : systems w !! f = Some s → lists_ok os_ReadDir w s → directory P d → up_free P →
  List_ media os_ReadDir f P w = Done (directory_files w s P d, w) ∧
  ∀ mask, 47 ∉ mask → Forall (λ m, m ≠ [] ∧ plain m) (masks mask) → List_ media os_ReadDir f (P ++ mask) w = Done ([], w).
Proof.
  intros Es Hok Hd Hu. destruct (dir_under w s P d Hok Hd) as (D & ED & Hhd). destruct (map_infos_in _ w s Hok) as [He Hc].
  destruct (os_dir_directory P d Hd) as (Eod & Hne & Hlast). pose proof (lo_plain _ _ _ Hok) as Hna.
  assert (Forall (λ fi, 47 ∉ os_Name fi) (os_ReadDir (froot s ++ removelast P))) as Hnames by (apply Forall_forall; intros fi; apply (lo_names _ _ _ Hok)).
  assert (drop 1 P = d) as Edr by by destruct Hd as [-> _].
  assert (∀ mask x, x.2 = w → list_mask media os_ReadDir f P mask x =
    (let* x := list_infos (D ++ [47]) mask (map_to_list (embed s)) x in let* x := list_infos (D ++ [47]) mask (map_to_list (cachedfiles s)) x in
     list_os media s d mask (os_ReadDir (froot s ++ removelast P)) x)) as Hmask.
  { intros mask [[fis fld] w'] <-. cbn [snd] in *. unfold list_mask, the_fs. rewrite Es. cbn [exec_bind]. rewrite Edr, ED, (bool_decide_eq_true_2 (archfls s = ∅)) by done.
    rewrite (bool_decide_eq_true_2 (P ≠ [])), Hlast by done. change (47 =? 47) with true. cbn [andb]. by rewrite Eod. }
  split.
  - unfold List_, the_fs. rewrite Es. cbn [exec_bind]. rewrite strip_ups_free by done. cbn [exec_bind].
    pose proof (list_path_dir P d [] Hd ltac:(set_solver)) as El. rewrite app_nil_r in El. rewrite El. change (masks []) with [[] : list Z]. cbn [list_masks]. rewrite Hmask by done.
    rewrite list_infos_all by done. cbn [exec_bind app]. rewrite list_infos_all by done. cbn [exec_bind].
    destruct (list_os_all s d D (os_ReadDir (froot s ++ removelast P)) (once ∅ (set_in w (D ++ [47]) (map_to_list (embed s))) ++ once (names_of (set_in w (D ++ [47]) (map_to_list (embed s))) ∪ ∅) (set_in w (D ++ [47]) (map_to_list (cachedfiles s))))
      (names_of (set_in w (D ++ [47]) (map_to_list (cachedfiles s))) ∪ (names_of (set_in w (D ++ [47]) (map_to_list (embed s))) ∪ ∅)) w ED Hhd Hnames) as (fld' & ->).
    cbn [exec_bind]. unfold directory_files. rewrite ED, !once_app. by rewrite app_assoc.
  - intros mask Hm Hall. unfold List_, the_fs. rewrite Es. cbn [exec_bind]. rewrite strip_ups_free by by apply up_free_app_name. cbn [exec_bind].
    rewrite (list_path_dir P d mask) by done. enough (∀ x, x.2 = w → list_masks media os_ReadDir f P (masks mask) x = Done x) as -> by done.
    intros x Hx. induction Hall as [|m ms [Hmne Hmp] _ IH]; [done|]. cbn [list_masks]. rewrite Hmask by done.
    rewrite (list_infos_mask w) by done. cbn [exec_bind]. rewrite (list_infos_mask w) by done. cbn [exec_bind]. by rewrite (list_os_mask s d D).
Qed.
End listing.

(** ** Examples *)

Definition matches (p n : string) : bool := Match (text p) (text n).

Example match_examples :
  map (λ x, matches x.1 x.2) [("*.txt", "a.txt"); ("*.txt", "/a.txt"); ("a?c*", "abcde"); ("[a-c]x", "bx"); ("[^a-c]x", "bx"); ("a\*", "a*"); ("a[", "a"); ("*a*b", "xaxxb"); ("*a", "xab")]%string =
  [true; false; true; true; false; true; false; true; false].
Proof. vm_compute. reflexivity. Qed.

(** A file that was set, and the files of a directory. *)
Definition listing_fs : filesys := with_embed plain_fs {[text "/a.txt" := (0, 0)%nat]}.
Definition listing_world : world :=
  MkWorld [listing_fs] [empty_buffer chunk_size] [NewFileInfo (text "a.txt") 0 0 0 false false true false (text "a.txt") (text "/") (FromBuffer 0)] 7 [] [].
Definition listing_os (p : list Z) : list osinfo :=
  if decide (p = text "/www") then [MkOs (text "a.txt") 3 0 0 false; MkOs (text "b.txt") 3 0 0 false] else [].

Lemma listing_ok : lists_ok listing_os listing_world listing_fs.
Proof.
  split; [|by exists []; split; [|left]| |done].
  - intros k e [H|H]; [|change ((∅ : gmap (list Z) embedfile) !! k = Some e) in H; by rewrite lookup_empty in H]. change (({[text "/a.txt" := (0, 0)%nat]} : gmap (list Z) embedfile) !! k = Some e) in H. apply lookup_singleton_Some in H as [<- <-]. eexists. split; [done|]. by left.
  - intros p fi. unfold listing_os. destruct (decide _); [|set_solver]. rewrite !elem_of_cons. intros [->|[->|H]]; [apply (bool_decide_unpack _); by vm_compute..|set_solver].
Qed.

Definition listed_names (x : exec (list finfo * world)) : exec (list (list Z)) :=
  let* '(fis, w) := x in Done (map (λ fi, match info_of fi w with Some i => i_name i | None => [] end) fis).

Lemma List_directory_witness :
  (List_ no_media listing_os 0 (text "/") listing_world = Done (directory_files no_media listing_os listing_world listing_fs (text "/") [], listing_world) ∧
   listed_names (Done (directory_files no_media listing_os listing_world listing_fs (text "/") [], listing_world)) = Done [text "a.txt"; text "b.txt"]) ∧
  List_ no_media listing_os 0 (text "/" ++ text "*.txt, b.txt") listing_world = Done ([], listing_world).
Proof.
  destruct (List_directory no_media listing_os 0 listing_world listing_fs (text "/") [] eq_refl listing_ok) as [H1 H2]; [by split; [|left]|by apply up_free_name; set_solver|].
  split; [split; [exact H1|vm_compute; reflexivity]|]. apply H2; [apply (bool_decide_unpack _); by vm_compute|].
  assert (masks (text "*.txt, b.txt") = [text "*.txt"; text "b.txt"]) as -> by (vm_compute; reflexivity).
  constructor; [|constructor; [|constructor]]; (split; [discriminate|split; apply (bool_decide_unpack _); by vm_compute]).
Defined.

(** A class in brackets matches a slash. *)
Example listed_by_class : listed_names (List_ no_media listing_os 0 (text "/[^a]b.txt") listing_world) = Done [text "b.txt"].
Proof. vm_compute. reflexivity. Qed.

(** The files of an archive are listed only under a doubled slash. *)
Definition archive_world : world :=
  MkWorld [with_archive plain_fs {[text "/z.txt" := MkArchive (text "z.txt") (text "/z.txt") 1 0 0 false None]}] [] [] 7 [] [].
Example archive_listed :
  listed_names (List_ no_media listing_os 0 (text "/") archive_world) = Done [] ∧
  listed_names (List_ no_media listing_os 0 (text "//") archive_world) = Done [text "z.txt"].
Proof. split; vm_compute; reflexivity. Qed.
