(* ===== verification/MapReader.v ===== *)
(** src/ioext/mapreader.go: readers that replace parts of the text they read.
    [mapreader] replaces the keys of a map by their values, [mapprepostreader]
    replaces what stands between a [pre] and a [post] text, like [{@] and [@}].

    Strings are their runes.  The text is read from a rune reader of any type; the
    values of the map are strings, rune slices, buffers, rune readers (an [io.Reader]
    being read through a bufio.Reader) or something else.  The callbacks of the caller
    are parameters; what they share with the caller ([cptrst]) goes with the reader and is
    changed by the one that captures values. *)

From S2P Require Import Prelude Runes Readers RuneReaders Buffer BufferCursor BuffReader.
From stdpp Require Import gmap.
#[local] Open Scope Z_scope.

Inductive mval :=
| MStr (s : list Z)
| MRunes (rs : list Z)
| MBuf (b : Buffer)
| MRdr (r : anyrdr)
| MOther.

(** The state the two readers share. *)
Record mapreader (R T : Type) := MkMap {
  orgreadrne : option R;
  orgrnes : list Z;
  bfrnes : list Z;
  bfrdr : option anyrdr;
  cptrst : T }.
Arguments MkMap {R T} orgreadrne orgrnes bfrnes bfrdr cptrst.
Arguments orgreadrne {R T} m.
Arguments orgrnes {R T} m.
Arguments bfrnes {R T} m.
Arguments bfrdr {R T} m.
Arguments cptrst {R T} m.

(** What captures a value: the value to take, and whether to take one. *)
Definition capturing (T : Type) := T → list Z → mval → exec (mval * bool * T).

(** A reader after a read: open, or closed by the end of what it reads or an error, with
    what it shared with the caller. *)
Inductive rdstate (X T : Type) := Open (x : X) | Closed (t : T).
Arguments Open {X T} x.
Arguments Closed {X T} t.

(** Without a callback values are taken as they are. *)
Definition as_it_is {T} : capturing T := λ t _ v, Done (v, true, t).

Section readers.
Context {R T : Type} `{!RuneReader R}.
Context (mp : gmap (list Z) mval) (cptrkeyval : capturing T).
Notation mapreader := (mapreader R T).

Definition set_org (m : mapreader) (o : option R) (rns : list Z) : mapreader :=
  MkMap o rns (bfrnes m) (bfrdr m) (cptrst m).
Definition set_bfr (m : mapreader) (bf : list Z) (rd : option anyrdr) : mapreader :=
  MkMap (orgreadrne m) (orgrnes m) bf rd (cptrst m).
Definition set_cptrst (m : mapreader) (t : T) : mapreader :=
  MkMap (orgreadrne m) (orgrnes m) (bfrnes m) (bfrdr m) t.
Definition to_bfrnes (m : mapreader) (rs : list Z) : mapreader := set_bfr m (bfrnes m ++ rs) (bfrdr m).
Definition to_orgrnes (m : mapreader) (rs : list Z) : mapreader :=
  set_org m (orgreadrne m) (orgrnes m ++ rs).

Definition OrgRune (m : mapreader) : exec (Z * Z * option goerr * mapreader) :=
  match orgrnes m with
  | r :: rest => Done (r, utf8.RuneLen r, None, set_org m (orgreadrne m) rest)
  | [] =>
    match orgreadrne m with
    | Some rd =>
      let* '(r, size, err, rd') := read_rune rd in
      if 0 <? size then Done (r, size, err, set_org m (Some rd') [])
      else Done (r, size, err, set_org m (match err with Some _ => None | None => Some rd' end) [])
    | None => Done (0, 0, Some EOF, m)
    end
  end.

Definition tobuf (m : mapreader) (v : mval) : exec (bool * mapreader) :=
  match v with
  | MStr s => Done (if bool_decide (s = []) then (false, m) else (true, to_bfrnes m s))
  | MRunes rs => Done (if bool_decide (rs = []) then (false, m) else (true, to_bfrnes m rs))
  | MBuf b =>
    if Buffer.Empty (Some b) then Done (false, m)
    else let* rd := Reader (Some b) NoContext false [] in
         Done (true, set_bfr m (bfrnes m) (Some (AnyRdr (option BuffReader) _ rd)))
  | MRdr r => Done (true, set_bfr m (bfrnes m) (Some r))
  | MOther => Done (false, m)
  end.

Definition captured (m : mapreader) (key : list Z) (v : mval) : exec (bool * mapreader) :=
  let* '(v', ok, t) := cptrkeyval (cptrst m) key v in
  if (ok : bool) then tobuf (set_cptrst m t) v' else Done (false, set_cptrst m t).

Definition capture (m : mapreader) (key : list Z) : exec (bool * mapreader) :=
  match mp !! key with
  | Some (MStr s) =>
    if bool_decide (s = []) then Done (false, m) else captured m key (MStr s)
  | Some (MRunes rs) =>
    if bool_decide (rs = []) then Done (false, m) else captured m key (MStr rs)
  | Some (MBuf b) =>
    if Buffer.Empty (Some b) then Done (false, m) else captured m key (MBuf b)
  | Some (MRdr r) => tobuf m (MRdr r)
  | Some MOther => tobuf m MOther
  | None => Done (false, m)
  end.

(** The start of both ReadRune methods, at the label [rdbf]: what a replacement left
    to be delivered; an error of a replacement's reader closes the reader. *)
Inductive buffered :=
| Deliver (r size : Z) (err : option goerr) (m : mapreader)
| Failed (r size : Z) (err : goerr) (m : mapreader)
| NoMore (m : mapreader).

Definition read_buffered (m : mapreader) : exec buffered :=
  let* '(res, m1) :=
    match bfrdr m with
    | Some rd =>
      let* '(r, size, err, rd') := read_rune rd in
      let m' := set_bfr m (bfrnes m) (Some rd') in
      if 0 <? size then Done (Some (Deliver r size err m'), m')
      else
        match err with
        | Some EOF => Done (None, set_bfr m (bfrnes m) None)
        | Some e => Done (Some (Failed r size e m'), m')
        | None => Done (None, m')
        end
    | None => Done (None, m)
    end in
  Done match res with
       | Some d => d
       | None =>
         match bfrnes m1 with
         | r :: rest => Deliver r (utf8.RuneLen r) None (set_bfr m1 rest (bfrdr m1))
         | [] => NoMore m1
         end
       end.

(** ** mapreader: keys replaced wherever they stand *)

(** [chnxtr]: the keys that do not start with the runes read are dropped; a key that
    is them ends the round. *)
Fixpoint narrow (keys : list (list Z)) (tst : list Z) : list (list Z) * option (list Z) :=
  match keys with
  | [] => ([], None)
  | k :: ks =>
    if bool_decide (take (length tst) k = tst) then
      if (length k =? length tst)%nat then (ks, Some k)
      else let '(ks', f) := narrow ks tst in (k :: ks', f)
    else narrow ks tst
  end.

Inductive mlabel :=
| m_rdbf
| m_rdorg
| m_chnxtr (mtch : list (list Z)) (tst lst : list Z)
| m_rdnextr (mtch : list (list Z)) (tst lst : list Z).

(** An error closes the reader. *)
Fixpoint map_ReadRune_from (fuel : nat) (keys : list (list Z)) (l : mlabel) (m : mapreader)
  : exec (Z * Z * option goerr * rdstate mapreader T) :=
  match fuel with
  | O => NoFuel
  | S fuel' =>
    match l with
    | m_rdbf =>
      let* b := read_buffered m in
      match b with
      | Deliver r size err m' => Done (r, size, err, Open m')
      | Failed r size e m' => Done (r, size, Some e, Closed (cptrst m'))
      | NoMore m' => map_ReadRune_from fuel' keys m_rdorg m'
      end
    | m_rdorg =>
      let* '(r, size, err, m') := OrgRune m in
      if 0 <? size then
        if existsb (λ k, len k =? 0) keys then Panic
        else
        let mtch := List.filter (λ k, match k with k0 :: _ => k0 =? r | [] => false end) keys in
        if len mtch =? 0 then Done (r, size, err, Open m')
        else map_ReadRune_from fuel' keys (m_chnxtr mtch [r] []) m'
      else Done (r, size, Some (default EOF err), Open m')
    | m_chnxtr mtch tst lst =>
      let '(mtch', f) := narrow mtch tst in
      map_ReadRune_from fuel' keys (m_rdnextr mtch' tst (default lst f)) m
    | m_rdnextr mtch tst lst =>
      if len mtch =? 0 then
        if len lst =? 0 then
          match tst with
          | t :: rest => map_ReadRune_from fuel' keys m_rdbf (to_orgrnes (to_bfrnes m [t]) rest)
          | [] => Panic
          end
        else
          let m1 := if len lst <? len tst then to_orgrnes m (drop (length lst) tst) else m in
          let* '(ok, m2) := capture m1 lst in
          if (ok : bool) then map_ReadRune_from fuel' keys m_rdbf m2
          else map_ReadRune_from fuel' keys (m_rdnextr [] [] []) m2
      else
        let* '(r, size, err, m') := OrgRune m in
        if 0 <? size then map_ReadRune_from fuel' keys (m_chnxtr mtch (tst ++ [r]) lst) m'
        else
          match err with
          | Some (OtherErr e) => Done (r, size, Some (OtherErr e), Open m')
          | _ =>
            if 0 <? len lst then
              let m1 := if len lst <? len tst then to_orgrnes m' (drop (length lst) tst) else m' in
              let* '(ok, m2) := capture m1 lst in
              if (ok : bool) then map_ReadRune_from fuel' keys m_rdbf m2
              else if 0 <? len (orgrnes m2) then map_ReadRune_from fuel' keys m_rdorg m2
              else Done (0, 0, Some EOF, Open m2)
            else Done (0, 0, Some EOF, Open m')
          end
    end
  end.

Definition map_ReadRune (fuel : nat) (keys : list (list Z)) (m : mapreader) :=
  map_ReadRune_from fuel keys m_rdbf m.

(** [Runes]: until a read of nothing. *)
Fixpoint map_Runes (n fuel : nat) (keys : list (list Z)) (m : mapreader) (rns : list Z) : exec (list Z) :=
  match n with
  | O => NoFuel
  | S n' =>
    let* '(r, s, _, m') := map_ReadRune fuel keys m in
    if 0 <? s then
      match m' with
      | Open m'' => map_Runes n' fuel keys m'' (rns ++ [r])
      | Closed _ => Done (rns ++ [r])
      end
    else Done rns
  end.

(** ** mapprepostreader: the text between [pre] and [post] is a key *)

Context (vldchr : Z → Z → bool) (flshunmtchd : T → list Z → bool).

Record mapprepostreader := MkPP {
  base : mapreader;
  pre : list Z;
  prei : Z;
  pvr : Z;
  post : list Z;
  posti : Z;
  tstkeyrns : list Z }.

Definition set_base (p : mapprepostreader) (m : mapreader) : mapprepostreader :=
  MkPP m (pre p) (prei p) (pvr p) (post p) (posti p) (tstkeyrns p).
Definition set_match (p : mapprepostreader) (i v j : Z) (key : list Z) : mapprepostreader :=
  MkPP (base p) (pre p) i v (post p) j key.

(** [pre] (or the part of it read) is given up: it goes out as it is, and the rune
    that broke it is read again. *)
Definition give_up_pre (p : mapprepostreader) (r : Z) : exec mapprepostreader :=
  let* done_ := slice (pre p) 0 (prei p) in
  Done (set_base (set_match p 0 0 (posti p) (tstkeyrns p)) (to_orgrnes (to_bfrnes (base p) done_) [r])).

Inductive next :=
| Go_rdbf (p : mapprepostreader)
| Go_rdnxt (p : mapprepostreader)
| Give (r size : Z) (p : mapprepostreader).

(** A rune outside a key. *)
Definition outside (p : mapprepostreader) (r size : Z) : exec next :=
  let* broken :=
    if 0 <? prei p then
      let* a := index (pre p) (prei p - 1) in
      if a =? pvr p then let* b := index (pre p) (prei p) in Done (negb (b =? r)) else Done false
    else Done false in
  if (broken : bool) then let* p' := give_up_pre p r in Done (Go_rdbf p')
  else
    let* b := index (pre p) (prei p) in
    if b =? r then
      if prei p + 1 =? len (pre p) then
        Done (Go_rdnxt (set_match p (prei p + 1) (pvr p) (posti p) (tstkeyrns p)))
      else Done (Go_rdnxt (set_match p (prei p + 1) r (posti p) (tstkeyrns p)))
    else if 0 <? prei p then let* p' := give_up_pre p r in Done (Go_rdbf p')
    else Done (Give r size (set_match p (prei p) r (posti p) (tstkeyrns p))).

(** A rune of a key or of the [post] after it. *)
Definition inside (p : mapprepostreader) (r : Z) : exec next :=
  let* b := index (post p) (posti p) in
  if b =? r then
    if posti p + 1 =? len (post p) then
      let p1 := set_match p 0 0 0 (tstkeyrns p) in
      if 0 <? len (tstkeyrns p) then
        let* '(ok, m) := capture (base p1) (tstkeyrns p) in
        if (ok : bool) then Done (Go_rdbf (set_match (set_base p1 m) 0 0 0 []))
        else if flshunmtchd (cptrst m) (tstkeyrns p) then
          Done (Go_rdbf (set_match (set_base p1 (to_bfrnes m (pre p ++ tstkeyrns p ++ post p))) 0 0 0 []))
        else Done (Go_rdnxt (set_match (set_base p1 m) 0 0 0 []))
      else Done (Go_rdnxt p1)
    else Done (Go_rdnxt (set_match p (prei p) (pvr p) (posti p + 1) (tstkeyrns p)))
  else if negb (vldchr 0 r) || (0 <? posti p) then
    let* q := slice (post p) 0 (posti p) in
    Done (Go_rdbf (set_base (set_match p 0 (pvr p) 0 [])
      (to_orgrnes (to_bfrnes (base p) (pre p ++ tstkeyrns p ++ q)) [r])))
  else Done (Go_rdnxt (set_match p (prei p) (pvr p) (posti p) (tstkeyrns p ++ [r]))).

Definition step_rune (p : mapprepostreader) (r size : Z) : exec next :=
  if (posti p =? 0) && (prei p <? len (pre p)) then outside p r size
  else if (prei p =? len (pre p)) && (posti p <? len (pre p)) then inside p r
  else Done (Go_rdnxt p).

(** The end of the text: what was held back for a key goes out. *)
Definition flush_end (p : mapprepostreader) : exec mapprepostreader :=
  let* a := if 0 <? prei p then slice (pre p) 0 (prei p) else Done [] in
  let* c := if 0 <? posti p then slice (post p) 0 (posti p) else Done [] in
  Done (set_base (set_match p (if 0 <? prei p then 0 else prei p) (pvr p)
          (if 0 <? posti p then 0 else posti p) [])
          (to_bfrnes (base p) (a ++ tstkeyrns p ++ c))).

(** [ReadRune]: the reader closes itself at the end. *)
Fixpoint ReadRune_from (fuel : nat) (rdbf : bool) (p : mapprepostreader)
  : exec (Z * Z * option goerr * rdstate mapprepostreader T) :=
  match fuel with
  | O => NoFuel
  | S fuel' =>
    if rdbf then
      let* b := read_buffered (base p) in
      match b with
      | Deliver r size err m => Done (r, size, err, Open (set_base p m))
      | Failed r size e m => Done (r, size, Some e, Closed (cptrst m))
      | NoMore m => ReadRune_from fuel' false (set_base p m)
      end
    else
      let* '(r, size, err, m) := OrgRune (base p) in
      let p1 := set_base p m in
      if 0 <? size then
        let* nx := step_rune p1 r size in
        match nx with
        | Go_rdbf p2 => ReadRune_from fuel' true p2
        | Go_rdnxt p2 => ReadRune_from fuel' false p2
        | Give r size p2 => Done (r, size, None, Open p2)
        end
      else
        match err with
        | Some (OtherErr e) => Done (r, size, Some (OtherErr e), Open p1)
        | _ =>
          let* p2 := flush_end p1 in
          if 0 <? len (bfrnes (base p2)) then ReadRune_from fuel' true p2
          else Done (0, 0, err, Closed (cptrst (base p2)))
        end
  end.

(** A closed reader has no state left: reading it again goes through a nil pointer. *)
Definition ReadRune (fuel : nat) (o : rdstate mapprepostreader T) :=
  match o with
  | Open p => ReadRune_from fuel true p
  | Closed _ => Panic
  end.

Fixpoint Runes (n fuel : nat) (o : rdstate mapprepostreader T) (rns : list Z) : exec (list Z) :=
  match n with
  | O => NoFuel
  | S n' =>
    let* '(r, s, _, o') := ReadRune fuel o in
    if 0 <? s then Runes n' fuel o' (rns ++ [r]) else Done rns
  end.
End readers.

(** ** MapReplaceReader *)

(** The reader made for a map, whose keys come in some order, and the strings given:
    none for keys on their own, two for [pre] and [post]; with one there is no second
    to look at. *)
Inductive MapReader (R T : Type) :=
| Plain (keys : list (list Z)) (m : mapreader R T)
| PrePost (p : mapprepostreader (R := R) (T := T)).
Arguments Plain {R T} keys m.
Arguments PrePost {R T} p.

Definition MapReplaceReader {R T : Type} (readrune : option R) (mp : gmap (list Z) mval)
    (keys : list (list Z)) (strs : list (list Z)) (t : T) : exec (MapReader R T) :=
  let m := MkMap readrune [] [] None t in
  let prepost := take 2 (List.filter (λ s, 0 <? len s) strs) in
  match prepost with
  | [] => Done (Plain keys m)
  | [_] => Panic
  | a :: b :: _ => Done (PrePost (MkPP m a 0 0 b 0 []))
  end.

(** * Theory *)

Section org.
Context {R T : Type} `{RuneSource R} (st : T).

Lemma OrgRune_pending rd bf r rs :
  pending rd (r :: rs) →
  ∃ n rd', OrgRune (MkMap (Some rd) [] bf None st) = Done (r, n, None, MkMap (Some rd') [] bf None st) ∧
    0 < n ∧ pending rd' rs.
Proof.
  intros Hp. destruct (pending_cons rd r rs Hp) as (n & rd' & Hr & Hn & Hp').
  unfold OrgRune. simpl. rewrite Hr. cbn [exec_bind]. zsimp. eauto.
Qed.

Lemma OrgRune_end rd bf :
  pending rd [] → ∃ r, OrgRune (MkMap (Some rd) [] bf None st) = Done (r, 0, Some EOF, MkMap None [] bf None st).
Proof.
  intros Hp. destruct (pending_nil rd Hp) as (r & rd' & Hr & _). unfold OrgRune. simpl. rewrite Hr.
  cbn [exec_bind]. change (0 <? 0) with false. cbv iota. eauto.
Qed.

End org.

(** Callbacks that, where their state is [st], capture like [cpt] without changing it and
    want the keys [unm] of those without a value. *)
Definition captures {T} (st : T) (cptrkeyval : capturing T) (cpt : list Z → mval → mval * bool) : Prop :=
  ∀ k v, cptrkeyval st k v = Done (cpt k v, st).

Lemma as_it_is_captures {T} (st : T) : captures st as_it_is (λ _ v, (v, true)).
Proof. done. Qed.

Section prepost.
Context {R T : Type} `{RuneSource R} (st : T).
Context (mp : gmap (list Z) mval) (cptrkeyval : capturing T) (cpt : list Z → mval → mval * bool)
  (vldchr : Z → Z → bool) (flshunmtchd : T → list Z → bool) (unm : list Z → bool) (pr po : list Z).
Hypothesis callback : captures st cptrkeyval cpt.
Hypothesis unmatched : ∀ k, flshunmtchd st k = unm k.
Hypothesis pr_nonempty : pr ≠ [].
Hypothesis po_nonempty : po ≠ [].
Hypothesis po_short : len po ≤ len pr.
Hypothesis pr_valid : valid_runes pr.
Hypothesis po_valid : valid_runes po.

Notation from := (ReadRune_from (R := R) (T := T) mp cptrkeyval vldchr flshunmtchd).

(** What a key stands for, when its value is a string or a rune slice. *)
Definition text_of (v : mval) : option (list Z) :=
  match v with MStr s | MRunes s => if bool_decide (s = []) then None else Some s | _ => None end.

Definition key_text (k : list Z) : option (list Z) :=
  match mp !! k with
  | Some (MStr s | MRunes s) =>
    if bool_decide (s = []) then None
    else let vk := cpt k (MStr s) in if vk.2 then text_of vk.1 else None
  | _ => None
  end.

(** The keys meant here: text for text. *)
Definition text_key (k : list Z) : Prop :=
  (∀ b, mp !! k ≠ Some (MBuf b)) ∧ (∀ r, mp !! k ≠ Some (MRdr r)) ∧
  (∀ s b, (cpt k (MStr s)).1 ≠ MBuf b) ∧ (∀ s r, (cpt k (MStr s)).1 ≠ MRdr r) ∧
  ∀ t, key_text k = Some t → valid_runes t.

Lemma capture_text (m : mapreader R T) k :
  cptrst m = st → text_key k →
  capture mp cptrkeyval m k =
  Done (match key_text k with Some t => (true, to_bfrnes m t) | None => (false, m) end).
Proof.
  clear unmatched. intros <- (Hb & Hr & Hcb & Hcr & _). unfold capture, key_text, captured. destruct m as [o og bf bd st']. cbn [cptrst] in *.
  destruct (mp !! k) as [[s|s|b|r|]|] eqn:E; try done; try (by destruct (Hb b)); try (by destruct (Hr r));
    (destruct (bool_decide (s = [])); [done|]); pose proof (Hcb s) as Hcb'; pose proof (Hcr s) as Hcr'; rewrite (callback _ _); cbn [exec_bind];
    destruct (cpt k (MStr s)) as [v [|]]; simpl in *; try done;
    destruct v as [t|t|b|r|]; simpl; try done;
    first [by destruct (bool_decide (t = []))|by destruct (Hcb' b)|by destruct (Hcr' r)].
Qed.

(** A template: literal text and keys. *)
Inductive seg := Lit (s : list Z) | Key (k : list Z).

Definition seg_source (g : seg) : list Z := match g with Lit s => s | Key k => pr ++ k ++ po end.
Definition seg_text (g : seg) : list Z :=
  match g with
  | Lit s => s
  | Key k =>
    if bool_decide (k = []) then []
    else match key_text k with
         | Some t => t
         | None => if unm k then pr ++ k ++ po else []
         end
  end.

(** Literal text does not contain the first rune of [pre]; a key not the first rune of
    [post], and only valid name runes. *)
Definition seg_ok (g : seg) : Prop :=
  match g with
  | Lit s => ∀ r, r ∈ s → head pr ≠ Some r
  | Key k => (∀ r, r ∈ k → head po ≠ Some r ∧ vldchr 0 r = true) ∧ text_key k ∧ valid_runes k
  end.

Definition source (gs : list seg) : list Z := concat (map seg_source gs).
Definition expansion (gs : list seg) : list Z := concat (map seg_text gs).

(** Between two segments. *)
Definition at_seg (p : mapprepostreader (R := R) (T := T)) (bf : list Z) (gs : list seg) : Prop :=
  ∃ rd v, p = MkPP (MkMap (Some rd) [] bf None st) pr 0 v po 0 [] ∧
    pending rd (source gs) ∧ Forall seg_ok gs ∧ valid_runes bf.

(** The parts of a key are read one after the other. *)
Lemma read_pre fuel a b rd v rest :
  pr = a ++ b → (a ≠ [] → b ≠ [] → last a = Some v) → pending rd (b ++ rest) → b ≠ [] →
  ∃ rd' v', pending rd' rest ∧
    from (length b + fuel) false (MkPP (MkMap (Some rd) [] [] None st) pr (len a) v po 0 []) =
    from fuel false (MkPP (MkMap (Some rd') [] [] None st) pr (len pr) v' po 0 []).
Proof.
  revert a rd v. induction b as [|x b IH]; intros a rd v Hpr Hv Hp Hb; [done|].
  cbn [length Nat.add ReadRune_from base].
  destruct (OrgRune_pending st rd [] x (b ++ rest) Hp) as (n & rd' & -> & Hn & Hp'). cbn [exec_bind]. zsimp.
  unfold step_rune. cbn [posti prei pre post set_base]. 
  assert (len a < len pr) as Hlt by (rewrite Hpr, length_app; simpl; lia).
  rewrite Z.eqb_refl. zsimp. unfold outside. cbn [posti prei pre post set_base pvr tstkeyrns].
  assert (index pr (len a) = Done x) as Hx by (rewrite Hpr; apply index_app_mid).
  assert ((if 0 <? len a then
      let* a0 := index pr (len a - 1) in
      if a0 =? v then let* b0 := index pr (len a) in Done (negb (b0 =? x)) else Done false
    else Done false) = Done false) as ->.
  { destruct (Z.ltb_spec 0 (len a)); [|done].
    destruct (lookup_lt_is_Some_2 pr (Z.to_nat (len a - 1))) as [y Hy]; [lia|].
    rewrite (index_lookup pr (len a - 1) y) by (done || lia). cbn [exec_bind]. rewrite Hx. cbn [exec_bind].
    rewrite Z.eqb_refl. by destruct (y =? v). }
  cbn [exec_bind]. rewrite Hx. cbn [exec_bind]. rewrite Z.eqb_refl.
  destruct (Z.eqb_spec (len a + 1) (len pr)) as [Hl|Hl]; cbn [exec_bind].
  - assert (b = []) as -> by (rewrite Hpr, length_app in Hl; simpl in Hl; destruct b; [done|simpl in Hl; lia]).
    exists rd', v. split; [done|]. simpl. unfold set_match, set_base. simpl. by rewrite Hl.
  - assert (b ≠ []) as Hb' by (intros ->; rewrite Hpr, length_app in Hl; simpl in Hl; lia).
    destruct (IH (a ++ [x]) rd' x) as (rd'' & v' & Hp'' & Heq);
      [by rewrite <- app_assoc|intros; apply last_snoc|done|done|].
    exists rd'', v'. split; [done|]. rewrite <- Heq. unfold set_match, set_base. simpl.
    by replace (len (a ++ [x])) with (len a + 1) by (rewrite length_app; simpl; lia).
Qed.

Lemma head_index (l : list Z) r : l ≠ [] → head l ≠ Some r → ∃ x, index l 0 = Done x ∧ (x =? r) = false.
Proof.
  destruct l as [|x l]; [done|]. intros _ Hh. exists x. split; [done|]. apply Z.eqb_neq. intros ->. by apply Hh.
Qed.

Lemma read_key_runes fuel k key rd v rest :
  (∀ r, r ∈ k → head po ≠ Some r ∧ vldchr 0 r = true) → pending rd (k ++ rest) →
  ∃ rd', pending rd' rest ∧
    from (length k + fuel) false (MkPP (MkMap (Some rd) [] [] None st) pr (len pr) v po 0 key) =
    from fuel false (MkPP (MkMap (Some rd') [] [] None st) pr (len pr) v po 0 (key ++ k)).
Proof.
  revert key rd. induction k as [|x k IH]; intros key rd Hk Hp.
  { exists rd. rewrite app_nil_r. done. }
  cbn [length Nat.add ReadRune_from base].
  destruct (OrgRune_pending st rd [] x (k ++ rest) Hp) as (n & rd' & -> & Hn & Hp'). cbn [exec_bind]. zsimp.
  unfold step_rune. cbn [posti prei pre post set_base]. rewrite Z.ltb_irrefl, !Z.eqb_refl.
  assert (0 < len pr) by (destruct pr; [done|simpl; lia]). zsimp. unfold inside. cbn [posti post set_base].
  destruct (Hk x) as [Hh Hvx]; [left|].
  destruct (head_index po x po_nonempty Hh) as (y & -> & Hy). cbn [exec_bind]. rewrite Hy, Hvx.
  simpl. destruct (IH (key ++ [x]) rd') as (rd'' & Hp'' & Heq); [intros r Hr; apply Hk; by right|done|].
  exists rd''. split; [done|]. unfold set_match, set_base. simpl. by rewrite Heq, <- app_assoc.
Qed.

Lemma read_post fuel a b key rd v rest :
  po = a ++ b → pending rd (b ++ rest) → b ≠ [] → text_key key →
  ∃ rd', pending rd' rest ∧
    from (length b + fuel) false (MkPP (MkMap (Some rd) [] [] None st) pr (len pr) v po (len a) key) =
    match seg_text (Key key) with
    | [] => from fuel false (MkPP (MkMap (Some rd') [] [] None st) pr 0 0 po 0 [])
    | t => from fuel true (MkPP (MkMap (Some rd') [] t None st) pr 0 0 po 0 [])
    end.
Proof.
  revert a rd. induction b as [|x b IH]; intros a rd Hpo Hp Hb Hk; [done|].
  cbn [length Nat.add ReadRune_from base].
  destruct (OrgRune_pending st rd [] x (b ++ rest) Hp) as (n & rd' & -> & Hn & Hp'). cbn [exec_bind]. zsimp.
  unfold step_rune. cbn [posti prei pre post set_base]. rewrite Z.ltb_irrefl, andb_false_r, Z.eqb_refl.
  assert (len a < len po) as Hlt by (rewrite Hpo, length_app; simpl; lia). zsimp.
  unfold inside. cbn [posti post set_base prei pvr tstkeyrns pre].
  assert (index po (len a) = Done x) as -> by (rewrite Hpo; apply index_app_mid). cbn [exec_bind].
  rewrite Z.eqb_refl. destruct (Z.eqb_spec (len a + 1) (len po)) as [Hl|Hl].
  - assert (b = []) as -> by (rewrite Hpo, length_app in Hl; simpl in Hl; destruct b; [done|simpl in Hl; lia]).
    exists rd'. split; [done|]. simpl length. cbn [Nat.add].
    unfold seg_text. destruct (Z.ltb_spec 0 (len key)) as [Hkl|Hkl].
    + rewrite bool_decide_eq_false_2 by (by intros ->). rewrite capture_text by done. cbn [exec_bind].
      destruct Hk as (_ & _ & _ & _ & _).
      destruct (key_text key) as [t|] eqn:Et.
      * assert (t ≠ []) as Hne.
        { revert Et. unfold key_text, text_of. repeat case_match; try done; intros [= <-]; intros ->; done. }
        cbn [exec_bind]. unfold set_match, set_base, to_bfrnes, set_bfr. simpl. by destruct t.
      * cbn [cptrst base set_base set_match]. rewrite unmatched. destruct (unm key); cbn [exec_bind]; unfold set_match, set_base, to_bfrnes, set_bfr; simpl; [|done].
        destruct pr; done.
    + assert (key = []) as -> by (destruct key; [done|simpl in Hkl; lia]). done.
  - assert (b ≠ []) as Hb' by (intros ->; rewrite Hpo, length_app in Hl; simpl in Hl; lia). cbn [exec_bind].
    destruct (IH (a ++ [x]) rd') as (rd'' & Hp'' & Heq); [by rewrite <- app_assoc|done|done|done|].
    exists rd''. split; [done|]. rewrite <- Heq. unfold set_match, set_base. simpl.
    by replace (len (a ++ [x])) with (len a + 1) by (rewrite length_app; simpl; lia).
Qed.
(** A bound on the steps of one read. *)
Definition steps (gs : list seg) : nat := (length (source gs) + length gs)%nat.

Definition text_after (gs : list seg) (p : mapprepostreader (R := R) (T := T)) (out : list Z) : Prop :=
  ∃ bf gs', at_seg p bf gs' ∧ out = bf ++ expansion gs' ∧ (steps gs' ≤ steps gs)%nat.

(** What one read does at a place where [out] is still to be delivered. *)
Definition delivers (gs : list seg) (res : exec (Z * Z * option goerr * rdstate (mapprepostreader (R := R) (T := T)) T))
    (out : list Z) : Prop :=
  match out with
  | [] => res = Done (0, 0, Some EOF, Closed st)
  | r :: out' => ∃ n p', res = Done (r, n, None, Open p') ∧ 0 < n ∧ text_after gs p' out'
  end.

Lemma delivers_mono gs gs' res out :
  (steps gs' ≤ steps gs)%nat → delivers gs' res out → delivers gs res out.
Proof.
  intros Hs. destruct out as [|r out]; simpl; [done|].
  intros (n & p' & -> & Hn & bf & gs'' & Hat & Ho & Hle). exists n, p'. split_and!; [done|done|].
  exists bf, gs''. split_and!; [done|done|lia].
Qed.

(** Text of a replacement goes out first. *)
Lemma deliver_bf fuel p bf gs :
  at_seg p bf gs → bf ≠ [] → delivers gs (from (S fuel) true p) (bf ++ expansion gs).
Proof.
  intros (rd & v & -> & Hp & Hok & Hv) Hne. destruct bf as [|r bf]; [done|].
  inversion Hv as [|? ? Hr Hv']; subst. cbn [ReadRune_from base]. unfold read_buffered. simpl.
  pose proof (RuneLen_pos r Hr). eexists _, _. split; [done|]. split; [lia|].
  exists bf, gs. split; [by exists rd, v|]. split; [done|lia].
Qed.

Lemma seg_text_valid k : seg_ok (Key k) → valid_runes (seg_text (Key k)).
Proof.
  intros (_ & Hk & Hv). unfold seg_text.
  destruct (bool_decide (k = [])); [constructor|]. destruct (key_text k) as [t|] eqn:E.
  - destruct Hk as (_ & _ & _ & _ & Hk). by apply Hk.
  - destruct (unm k); [|constructor]. by repeat (apply Forall_app; split).
Qed.

(** A whole key. *)
Lemma read_key fuel k rd v rest :
  seg_ok (Key k) → pending rd (seg_source (Key k) ++ rest) →
  ∃ rd', pending rd' rest ∧
    from (length (seg_source (Key k)) + fuel) false (MkPP (MkMap (Some rd) [] [] None st) pr 0 v po 0 []) =
    match seg_text (Key k) with
    | [] => from fuel false (MkPP (MkMap (Some rd') [] [] None st) pr 0 0 po 0 [])
    | t => from fuel true (MkPP (MkMap (Some rd') [] t None st) pr 0 0 po 0 [])
    end.
Proof.
  intros (Hk & Htk & _) Hp. unfold seg_source in *. rewrite <- !app_assoc in Hp.
  rewrite !length_app, <- !Nat.add_assoc.
  destruct (read_pre (length k + (length po + fuel)) [] pr rd v (k ++ po ++ rest))
    as (rd1 & v1 & Hp1 & Heq1); [done|done|done|done|].
  change (len []) with 0 in Heq1. rewrite Heq1.
  destruct (read_key_runes (length po + fuel) k [] rd1 v1 (po ++ rest) Hk Hp1) as (rd2 & Hp2 & ->).
  destruct (read_post fuel [] po k rd2 v1 rest) as (rd3 & Hp3 & Heq); [done|done|done|done|].
  exists rd3. split; [done|]. exact Heq.
Qed.

Lemma deliver_org gs v rd fuel :
  pending rd (source gs) → Forall seg_ok gs → (steps gs + 2 ≤ fuel)%nat →
  delivers gs (from fuel false (MkPP (MkMap (Some rd) [] [] None st) pr 0 v po 0 [])) (expansion gs).
Proof.
  revert v rd fuel. induction gs as [|g gs IH]; intros v rd fuel Hp Hok Hf.
  - destruct fuel as [|fuel]; [lia|]. simpl. destruct (OrgRune_end st rd [] Hp) as (r & ->).
    cbn [exec_bind]. change (0 <? 0) with false. cbv iota. unfold flush_end. simpl. done.
  - inversion Hok as [|? ? Hg Hgs]; subst. unfold source, expansion in *. cbn [map concat] in *.
    change (concat (map seg_source gs)) with (source gs) in *.
    change (concat (map seg_text gs)) with (expansion gs) in *.
    assert (steps (g :: gs) = (length (seg_source g) + S (steps gs))%nat) as Hst
      by (unfold steps, source; simpl; rewrite length_app; lia).
    rewrite Hst in Hf. destruct g as [s|k].
    + simpl seg_source in *. simpl seg_text. destruct s as [|r s].
      * eapply delivers_mono; [|apply IH; [done|done|lia]]. rewrite Hst. lia.
      * destruct fuel as [|fuel]; [lia|]. cbn [app ReadRune_from base].
        destruct (OrgRune_pending st rd [] r (s ++ source gs) Hp) as (n & rd' & -> & Hn & Hp').
        cbn [exec_bind]. zsimp. unfold step_rune. cbn [posti prei pre post set_base].
        assert (0 < len pr) by (destruct pr; [done|simpl; lia]). rewrite Z.eqb_refl. zsimp.
        unfold outside. cbn [posti prei pre post set_base].
        destruct (head_index pr r pr_nonempty) as (x & Hx & Hxr); [apply Hg; left|].
        rewrite Z.ltb_irrefl. cbn [exec_bind]. rewrite Hx. cbn [exec_bind]. rewrite Hxr.
        eexists _, _. split; [done|]. split; [done|]. exists [], (Lit s :: gs). split.
        { exists rd', r. split; [done|]. split; [done|]. split; [|constructor]. constructor; [|done].
          intros y Hy. apply Hg. by right. }
        split; [done|]. unfold steps, source. simpl. lia.
    + set (k0 := length (seg_source (Key k))) in *.
      replace fuel with (k0 + (fuel - k0))%nat by lia.
      destruct (read_key (fuel - k0) k rd v (source gs) Hg Hp) as (rd' & Hp' & Heq).
      fold k0 in Heq. rewrite Heq.
      pose proof (seg_text_valid k Hg) as Hv.
      destruct (seg_text (Key k)) as [|t ts] eqn:Et; simpl app.
      * eapply delivers_mono; [|apply IH; [done|done|lia]]. rewrite Hst. lia.
      * replace (fuel - k0)%nat with (S (fuel - k0 - 1)) by lia.
        eapply delivers_mono; [|eapply (deliver_bf _ _ (t :: ts) gs); [|done]]; [rewrite Hst; lia|].
        by exists rd', 0.
Qed.

Lemma deliver fuel p bf gs :
  at_seg p bf gs → (steps gs + 3 ≤ fuel)%nat → delivers gs (from fuel true p) (bf ++ expansion gs).
Proof.
  intros Hat Hf. destruct fuel as [|fuel]; [lia|]. destruct (decide (bf = [])) as [->|Hne].
  - destruct Hat as (rd & v & -> & Hp & Hok & _). cbn [ReadRune_from base]. unfold read_buffered. simpl.
    apply deliver_org; [done|done|lia].
  - by apply deliver_bf.
Qed.

Lemma Runes_at n fuel p bf gs rns :
  at_seg p bf gs → (steps gs + 3 ≤ fuel)%nat → (length (bf ++ expansion gs) < n)%nat →
  Runes mp cptrkeyval vldchr flshunmtchd n fuel (Open p) rns = Done (rns ++ bf ++ expansion gs).
Proof.
  revert p bf gs rns. induction n as [|n IH]; intros p bf gs rns Hat Hf Hn; [lia|].
  cbn [Runes ReadRune]. pose proof (deliver fuel p bf gs Hat Hf) as Hd.
  destruct (bf ++ expansion gs) as [|r out]; simpl in Hd.
  - rewrite Hd. cbn [exec_bind]. change (0 <? 0) with false. cbv iota. by rewrite app_nil_r.
  - destruct Hd as (m & p' & -> & Hm & bf' & gs' & Hat' & -> & Hle). cbn [exec_bind]. zsimp.
    rewrite (IH p' bf' gs' (rns ++ [r]) Hat'); [by rewrite <- app_assoc|lia|simpl in Hn; lia].
Qed.
End prepost.

(** C16: a reader made by MapReplaceReader for a [pre] and a [post] text delivers the
    template with every key replaced: literal text as it is, the value of a key that has
    a text, and otherwise the key between its marks when the caller wants the keys
    without a value, or nothing.  Neither [pre] nor [post] is empty, and [post] is not longer
    than [pre] ([long_post_lost] has one that is); the first rune of [pre] is not in the
    literal text and that of [post] not in the keys, of which every rune is one the caller
    takes for a name, and the values are texts, no buffers and no readers. *)
Theorem MapReplaceReader_expands {R T} `{RuneSource R} (st : T) mp cptrkeyval cpt vldchr flshunmtchd unm pr po rd gs n fuel :
  captures st cptrkeyval cpt → (∀ k, flshunmtchd st k = unm k) →
  pr ≠ [] → po ≠ [] → len po ≤ len pr → valid_runes pr → valid_runes po →
  Forall (seg_ok mp cpt vldchr pr po) gs → pending rd (source pr po gs) →
  (length (source pr po gs) + length gs + 3 ≤ fuel)%nat →
  (length (expansion mp cpt unm pr po gs) < n)%nat →
  ∃ p, MapReplaceReader (Some rd) mp [] [pr; po] st = Done (PrePost p) ∧
    Runes mp cptrkeyval vldchr flshunmtchd n fuel (Open p) [] =
    Done (expansion mp cpt unm pr po gs).
Proof.
  intros Hcpt Hunm Hpr Hpo Hle Hvr Hvo Hok Hp Hf Hn. unfold MapReplaceReader.
  assert (List.filter (λ s, 0 <? len s) [pr; po] = [pr; po]) as ->
    by (destruct pr, po; done).
  eexists; split; [done|].
  apply (Runes_at st mp cptrkeyval cpt vldchr flshunmtchd unm pr po Hcpt Hunm Hpr Hpo Hle Hvr Hvo n fuel _ [] gs []);
    [|exact Hf|exact Hn].
  by exists rd, 0.
Qed.

#[local] Existing Instances strings.Reader_ReadRune strings.Reader_RuneSource.

Definition demo_map : gmap (list Z) mval := {[ [107] := MStr [120; 121]; [101] := MStr [] ]}.

(** a{@k@}b{@z@}{@e@}c *)
Definition demo_segs : list seg := [Lit [97]; Key [107]; Lit [98]; Key [122]; Key [101]; Lit [99]].

(** Keys with a string, or without a value, when values are taken as they are. *)
Lemma text_key_plain mp k :
  (∃ s, mp !! k = Some (MStr s) ∧ valid_runes s) ∨ mp !! k = None → text_key mp (λ _ v, (v, true)) k.
Proof.
  intros [(s & Hs & Hv)|Hn]; unfold text_key, key_text, text_of; rewrite ?Hs, ?Hn; split_and!; try done.
  intros t. simpl. destruct (bool_decide (s = [])); [done|]. by intros [= <-].
Qed.

Lemma seg_ok_plain mp pr po k :
  forallb (λ r, negb (bool_decide (head po = Some r))) k = true → forallb utf8.ValidRune k = true →
  (∃ s, mp !! k = Some (MStr s) ∧ valid_runes s) ∨ mp !! k = None →
  seg_ok mp (λ _ v, (v, true)) (λ _ _, true) pr po (Key k).
Proof.
  intros Hh Hv Ht. split_and!; [|by apply text_key_plain|].
  - intros r Hr. split; [|done]. rewrite forallb_forall in Hh.
    specialize (Hh r (proj1 (list_elem_of_In _ _) Hr)). apply negb_true_iff, bool_decide_eq_false in Hh. done.
  - rewrite forallb_forall in Hv. apply List.Forall_forall. done.
Qed.

Lemma MapReplaceReader_expands_witness :
  ∃ p, MapReplaceReader (Some (strings.MkReader (source [123; 64] [64; 125] demo_segs))) demo_map []
      [[123; 64]; [64; 125]] tt = Done (PrePost p) ∧
    Runes demo_map as_it_is (λ _ _, true) (λ _ k, bool_decide (k = [122])) 20 40 (Open p) [] =
    Done [97; 120; 121; 98; 123; 64; 122; 64; 125; 99].
Proof.
  assert (expansion demo_map (λ _ v, (v, true)) (λ k, bool_decide (k = [122])) [123; 64] [64; 125] demo_segs =
    [97; 120; 121; 98; 123; 64; 122; 64; 125; 99]) as <- by (vm_compute; reflexivity).
  apply (MapReplaceReader_expands tt demo_map as_it_is (λ _ v, (v, true)) (λ _ _, true) (λ _ k, bool_decide (k = [122])) (λ k, bool_decide (k = [122]))
    [123; 64] [64; 125] (strings.MkReader (source [123; 64] [64; 125] demo_segs)) demo_segs 20 40).
  1-5: done.
  1-2: repeat constructor.
  2: reflexivity.
  2-3: vm_compute; lia.
  assert (∀ x, x ≠ 123 → seg_ok demo_map (λ _ v, (v, true)) (λ _ _, true) [123; 64] [64; 125] (Lit [x])) as Hlit.
  { intros x Hx r Hr. apply list_elem_of_singleton in Hr as ->. simpl. congruence. }
  apply List.Forall_cons; [by apply Hlit|].
  apply List.Forall_cons; [apply seg_ok_plain; [done|done|left; exists [120; 121]; split; [done|repeat constructor]]|].
  apply List.Forall_cons; [by apply Hlit|].
  apply List.Forall_cons; [apply seg_ok_plain; [done|done|right; done]|].
  apply List.Forall_cons; [apply seg_ok_plain; [done|done|left; exists []; split; [done|constructor]]|].
  apply List.Forall_cons; [by apply Hlit|]. apply List.Forall_nil.
Defined.

(** ** Keys of one rune *)

Section single.
Context {R T : Type} `{RuneSource R} (st : T).
Context (mp : gmap (list Z) mval) (cptrkeyval : capturing T) (cpt : list Z → mval → mval * bool) (keys : list (list Z)).
Hypothesis callback : captures st cptrkeyval cpt.
Hypothesis keys_single : ∀ k, k ∈ keys → ∃ r, k = [r].
Hypothesis keys_nodup : NoDup keys.
Hypothesis keys_text : ∀ k, k ∈ keys → text_key mp cpt k ∧ key_text mp cpt k ≠ None.

(** What a rune becomes. *)
Definition rune_text (r : Z) : list Z :=
  if decide ([r] ∈ keys) then default [] (key_text mp cpt [r]) else [r].

Definition replaced (rs : list Z) : list Z := concat (map rune_text rs).

Lemma no_empty_key : existsb (λ k, len k =? 0) keys = false.
Proof.
  apply not_true_iff_false. intros He. apply existsb_exists in He as (k & Hk & Hz).
  apply list_elem_of_In in Hk. destruct (keys_single k Hk) as [r ->]. done.
Qed.

Lemma keys_for r :
  List.filter (λ k, match k with k0 :: _ => k0 =? r | [] => false end) keys =
  if decide ([r] ∈ keys) then [[r]] else [].
Proof.
  revert keys_single keys_nodup. clear keys_text. induction keys as [|k ks IH]; intros Hs Hnd; [done|].
  destruct (Hs k) as [x ->]; [left|]. apply NoDup_cons in Hnd as [Hnin Hnd]. simpl.
  rewrite IH by (done || (intros k Hk; apply Hs; by right)).
  destruct (Z.eqb_spec x r) as [->|Hne].
  - rewrite (decide_False (P := [r] ∈ ks)) by done. by rewrite decide_True by left.
  - destruct (decide ([r] ∈ ks)) as [Hin|Hin].
    + by rewrite decide_True by (by right).
    + rewrite decide_False; [done|]. intros Hc. apply elem_of_cons in Hc as [Hc|Hc]; [congruence|done].
Qed.

Lemma key_text_nonempty k t : key_text mp cpt k = Some t → t ≠ [].
Proof. unfold key_text, text_of. repeat case_match; try done; intros [= <-]; by intros ->. Qed.

Lemma map_read fuel rd bf rs :
  pending rd rs → valid_runes bf →
  match bf ++ replaced rs with
  | [] => ∃ r m, map_ReadRune (R := R) (T := T) mp cptrkeyval (8 + fuel) keys (MkMap (Some rd) [] bf None st) =
            Done (r, 0, Some EOF, m)
  | r :: out => ∃ n rd' bf' rs',
      map_ReadRune (R := R) (T := T) mp cptrkeyval (8 + fuel) keys (MkMap (Some rd) [] bf None st) =
        Done (r, n, None, Open (MkMap (Some rd') [] bf' None st)) ∧
      0 < n ∧ pending rd' rs' ∧ valid_runes bf' ∧ out = bf' ++ replaced rs'
  end.
Proof.
  intros Hp Hv. unfold map_ReadRune. cbn [Nat.add]. destruct bf as [|b bf]; simpl app.
  2:{ cbn [map_ReadRune_from]. unfold read_buffered. simpl. inversion Hv as [|? ? Hb Hv']; subst.
      pose proof (RuneLen_pos b Hb). exists (utf8.RuneLen b), rd, bf, rs. split_and!; done || lia. }
  cbn [map_ReadRune_from]. unfold read_buffered. cbn [bfrdr exec_bind bfrnes set_bfr].
  destruct rs as [|r rs]; simpl.
  - destruct (OrgRune_end st rd [] Hp) as (r & ->). simpl. eauto.
  - destruct (OrgRune_pending st rd [] r rs Hp) as (n & rd' & -> & Hn & Hp'). cbn [exec_bind]. zsimp.
    rewrite no_empty_key, keys_for. unfold replaced. simpl. unfold rune_text at 1.
    destruct (decide ([r] ∈ keys)) as [Hin|Hin].
    + destruct (keys_text _ Hin) as [Htk Hkt]. destruct (key_text mp cpt [r]) as [t|] eqn:Et; [|done].
      pose proof (key_text_nonempty _ _ Et) as Hne. simpl. rewrite bool_decide_eq_true_2 by done. simpl.
      rewrite (capture_text st mp cptrkeyval cpt callback) by done. rewrite Et. cbn [exec_bind].
      unfold to_bfrnes, set_bfr. simpl. destruct t as [|x t]; [done|].
      assert (valid_runes (x :: t)) as Hvt by (by apply Htk). inversion Hvt as [|? ? Hx Hvt']; subst.
      unfold read_buffered. simpl. pose proof (RuneLen_pos x Hx).
      exists (utf8.RuneLen x), rd', t, rs. split_and!; done || lia.
    + simpl. exists n, rd', [], rs. split_and!; done || constructor.
Qed.

Lemma map_Runes_loop n fuel rd bf rs rns :
  pending rd rs → valid_runes bf → (length (bf ++ replaced rs) < n)%nat →
  map_Runes (R := R) (T := T) mp cptrkeyval n (8 + fuel) keys (MkMap (Some rd) [] bf None st) rns =
  Done (rns ++ bf ++ replaced rs).
Proof.
  revert rd bf rs rns. induction n as [|n IH]; intros rd bf rs rns Hp Hv Hn; [lia|].
  cbn [map_Runes]. pose proof (map_read fuel rd bf rs Hp Hv) as Hr.
  destruct (bf ++ replaced rs) as [|r out].
  - destruct Hr as (r & m & ->). cbn [exec_bind]. change (0 <? 0) with false. cbv iota. by rewrite app_nil_r.
  - destruct Hr as (k & rd' & bf' & rs' & -> & Hk & Hp' & Hv' & ->). cbn [exec_bind]. zsimp.
    rewrite (IH rd' bf' rs' (rns ++ [r])) by (done || (simpl in Hn; lia)). by rewrite <- app_assoc.
Qed.
End single.

(** A reader made by MapReplaceReader without marks, for keys of one rune that
    all have a text, delivers the text with every such rune replaced and the other runes
    as they are (an escaping table). *)
Theorem MapReplaceReader_single {R T} `{RuneSource R} (st : T) mp cptrkeyval cpt keys rd rs n fuel :
  captures st cptrkeyval cpt →
  (∀ k, k ∈ keys → ∃ r, k = [r]) → NoDup keys →
  (∀ k, k ∈ keys → text_key mp cpt k ∧ key_text mp cpt k ≠ None) →
  pending rd rs → (length (replaced mp cpt keys rs) < n)%nat → (8 ≤ fuel)%nat →
  ∃ m, MapReplaceReader (Some rd) mp keys [] st = Done (Plain keys m) ∧
    map_Runes mp cptrkeyval n fuel keys m [] = Done (replaced mp cpt keys rs).
Proof.
  intros Hcpt Hs Hnd Ht Hp Hn Hf. eexists; split; [done|].
  replace fuel with (8 + (fuel - 8))%nat by lia.
  by apply (map_Runes_loop st mp cptrkeyval cpt keys Hcpt Hs Hnd Ht n (fuel - 8) rd [] rs []).
Qed.

(** The back quote of a script text, escaped. *)
Definition escape_map : gmap (list Z) mval := {[ [96] := MStr [92; 96] ]}.

Lemma MapReplaceReader_single_witness :
  ∃ m, MapReplaceReader (Some (strings.MkReader [97; 96; 98])) escape_map [[96]] [] tt = Done (Plain [[96]] m) ∧
    map_Runes escape_map as_it_is 9 8 [[96]] m [] = Done [97; 92; 96; 98].
Proof.
  apply (MapReplaceReader_single tt escape_map as_it_is (λ _ v, (v, true)) [[96]] (strings.MkReader [97; 96; 98]) [97; 96; 98] 9 8).
  - apply as_it_is_captures.
  - intros k Hk. apply list_elem_of_singleton in Hk as ->. by exists 96.
  - apply NoDup_singleton.
  - intros k Hk. apply list_elem_of_singleton in Hk as ->. split; [|by vm_compute].
    apply text_key_plain. left. exists [92; 96]. split; [done|repeat constructor].
  - reflexivity.
  - vm_compute. lia.
  - lia.
Defined.

(** ** Where the readers fail *)

(** A key whose value is the empty string. *)
Example empty_value_panics :
  map_Runes {[ [98] := MStr [] ]} as_it_is 9 20 [[98]]
    (MkMap (Some (strings.MkReader [97; 98])) [] [] None tt) [] = Panic.
Proof. vm_compute. reflexivity. Qed.

(** The start of a key at the end of the text is lost. *)
Example partial_key_lost :
  map_Runes {[ [98; 99] := MStr [120] ]} as_it_is 9 20 [[98; 99]]
    (MkMap (Some (strings.MkReader [97; 98])) [] [] None tt) [] = Done [97].
Proof. vm_compute. reflexivity. Qed.

(** A [post] longer than [pre] ends the text: {k@}b with the marks { and @} *)
Example long_post_lost :
  Runes demo_map as_it_is (λ _ _, true) (λ _ _, false) 20 40
    (Open (MkPP (MkMap (Some (strings.MkReader [123; 107; 64; 125; 98])) [] [] None tt) [123] 0 0 [64; 125] 0 [])) [] =
  Done [123; 107; 64].
Proof. vm_compute. reflexivity. Qed.

(** A reader that has reached the end must not be read again. *)
Example read_after_end :
  ReadRune demo_map as_it_is (λ _ _, true) (λ _ _, false) 20
    (Closed tt : rdstate (mapprepostreader (R := strings.Reader)) unit) = Panic.
Proof. reflexivity. Qed.
