(* ===== verification/Parsing.v ===== *)
(** The label parser of src/template/parser.go with the text detection of
    textparsing.go: runes are read one at a time, a [pre] label and the [post] label
    that follows it are found, and callbacks get the runes outside the labels, the
    runes between them, and the matches.

    The callbacks work on a state of the client's and may change the parser, as the
    attribute parser's do; the two [EventCan...Parse] answer from both. *)

From S2P Require Import Prelude Runes Readers RuneReaders Buffer.

(** ** textparsing: inside a quoted text or not *)

Record textparsing := MkText { alttxtr : Z; txtr : Z; txt_prvr : Z; lstr : Z }.

Definition new_text : textparsing := MkText 0 0 0 0.

Definition isText (o : option textparsing) : bool :=
  match o with None => false | Some t => 0 <? txtr t end.

Definition txt_Parse (o : option textparsing) (r : Z) : bool * option textparsing :=
  match o with
  | None => (false, None)
  | Some t =>
    if txtr t =? 0 then
      let t' := if IsTxtPar r then MkText (alttxtr t) r (txt_prvr t) r else t in
      (isText (Some t'), Some t')
    else if (txtr t =? r) && negb (txt_prvr t =? 92) then
      (true, Some (if 0 <? alttxtr t then MkText 0 0 0 (alttxtr t) else MkText (alttxtr t) 0 0 r))
    else
      let t' := MkText (alttxtr t) (txtr t) r r in (isText (Some t'), Some t')
  end.

(** ** Parsing *)

Record Parsing := MkParsing {
  bufdrns : list Z;
  prelbl : list Z;
  preL : Z;
  prei : Z;
  prvr : Z;
  postlbl : list Z;
  postL : Z;
  posti : Z;
  pretxtprs : option textparsing;
  posttxtprs : option textparsing }.

Definition set_pos (p : Parsing) (i v j : Z) : Parsing :=
  MkParsing (bufdrns p) (prelbl p) (preL p) i v (postlbl p) (postL p) j (pretxtprs p) (posttxtprs p).
Definition set_txts (p : Parsing) (a b : option textparsing) : Parsing :=
  MkParsing (bufdrns p) (prelbl p) (preL p) (prei p) (prvr p) (postlbl p) (postL p) (posti p) a b.
Definition set_prelbl (p : Parsing) (l : list Z) : Parsing :=
  MkParsing (bufdrns p) l (preL p) (prei p) (prvr p) (postlbl p) (postL p) (posti p)
    (pretxtprs p) (posttxtprs p).
Definition set_bufdrns (p : Parsing) (l : list Z) : Parsing :=
  MkParsing l (prelbl p) (preL p) (prei p) (prvr p) (postlbl p) (postL p) (posti p)
    (pretxtprs p) (posttxtprs p).

Definition nextparsing (pre post : list Z) (pretxt posttxt : option textparsing) : Parsing :=
  MkParsing [] pre (len pre) 0 0 post (len post) 0 pretxt posttxt.

Definition Close (o : option Parsing) : option Parsing :=
  match o with
  | None => None
  | Some p => Some (MkParsing [] [] (preL p) (prei p) (prvr p) [] (postL p) (posti p) None None)
  end.

Definition PreLabel (o : option Parsing) : list Z := match o with None => [] | Some p => prelbl p end.
Definition PostLabel (o : option Parsing) : list Z := match o with None => [] | Some p => postlbl p end.

Definition Busy (o : option Parsing) : bool :=
  match o with
  | None => false
  | Some p => (0 <? preL p) && (0 <? postL p) && (prei p =? preL p) && (posti p <? postL p)
  end.

Definition Reset (o : option Parsing) : option Parsing :=
  match o with None => None | Some p => Some (set_pos p 0 0 0) end.

Section parse.
Context {U : Type}.

Record events := MkEvents {
  EventCanPreParse : option (U → Parsing → bool);
  EventPreRunes : option (list Z → U → Parsing → exec (U * Parsing));
  EventMatchedPre : option (U → Parsing → exec (U * Parsing));
  EventCanPostParse : option (U → Parsing → bool);
  EventPostRunes : option (bool → list Z → U → Parsing → exec (bool * U * Parsing));
  EventMatchedPost : option (U → Parsing → exec (bool * U * Parsing)) }.

Context (ev : events).

(** Both branches of the text test are the same. *)
Definition CanPreParse (u : U) (p : Parsing) : bool :=
  let can := match EventCanPreParse ev with None => true | Some f => f u p end in
  if negb (isText (pretxtprs p)) then can else can.

Definition CanPostParse (u : U) (p : Parsing) : bool :=
  let can := match EventCanPostParse ev with None => true | Some f => f u p end in
  if negb (isText (posttxtprs p)) then can else can.

Definition evtpre (rns : list Z) (u : U) (p : Parsing) : exec (U * Parsing) :=
  match EventPreRunes ev with Some f => f rns u p | None => Done (u, p) end.

Definition evtmtchpre (u : U) (p : Parsing) : exec (U * Parsing) :=
  match EventMatchedPre ev with Some f => f u p | None => Done (u, p) end.

(** A rune of a text: it is given to the callback, and a label begun is forgotten. *)
Definition pre_text (r : Z) (u : U) (p : Parsing) : exec (bool * U * Parsing) :=
  let '(hit, t) := txt_Parse (pretxtprs p) r in
  let p1 := set_txts p t (posttxtprs p) in
  if (hit : bool) then
    match EventPreRunes ev, t with
    | Some f, Some t' =>
      let* '(u', p') := f [lstr t'] u p1 in Done (true, u', set_pos p' 0 0 (posti p'))
    | _, _ => Done (true, u, p1)
    end
  else Done (false, u, p1).

Definition pre_broken (r : Z) (p : Parsing) : exec bool :=
  if 0 <? prei p then
    let* a := index (prelbl p) (prei p - 1) in
    if a =? prvr p then let* b := index (prelbl p) (prei p) in Done (negb (b =? r)) else Done false
  else Done false.

(** The rune against the label: a label begun that does not go on is given to the
    callback, and the rune may begin it again. *)
Definition pre_label (r : Z) (u : U) (p : Parsing) : exec (bool * U * Parsing) :=
  let* broken := pre_broken r p in
  let* '(u1, p1) :=
    if (broken : bool) then
      let* held := slice (prelbl p) 0 (prei p) in
      let* '(u', p') := evtpre held u p in Done (u', set_pos p' 0 0 (posti p'))
    else Done (u, p) in
  let* b := index (prelbl p1) (prei p1) in
  if b =? r then
    if prei p1 + 1 =? preL p1 then
      let* '(u', p') := evtmtchpre u1 (set_pos p1 (prei p1 + 1) (prvr p1) (posti p1)) in
      Done (true, u', p')
    else Done (true, u1, set_pos p1 (prei p1 + 1) r (posti p1))
  else Done (false, u1, p1).

(** The rune goes to the callback, after the part of the label that was held; the
    [append] writes it over the label's next rune. *)
Definition pre_rune (r : Z) (u : U) (p : Parsing) : exec (U * Parsing) :=
  if 0 <? prei p then
    match EventPreRunes ev with
    | Some f =>
      let* held := slice (prelbl p) 0 (prei p) in
      let* '(u', p') := f (held ++ [r]) u (set_prelbl p (blit (prelbl p) (prei p) [r])) in
      Done (u', set_pos p' 0 0 (posti p'))
    | None => Done (u, set_pos p 0 0 (posti p))
    end
  else evtpre [r] u (set_pos p (prei p) r (posti p)).

Definition parse_pre (r : Z) (u : U) (p : Parsing) : exec (U * Parsing) :=
  let* '(txt, u1, p1) := pre_text r u p in
  if (txt : bool) then Done (u1, p1)
  else
    let* '(lbl, u2, p2) :=
      if CanPreParse u1 p1 then pre_label r u1 p1 else Done (false, u1, p1) in
    if (lbl : bool) then Done (u2, p2) else pre_rune r u2 p2.

(** [evtpost(canreset, rns...)] and the reset it may ask for. *)
Definition evtpost (f : bool → list Z → U → Parsing → exec (bool * U * Parsing))
    (canreset : bool) (rns : list Z) (u : U) (p : Parsing) : exec (bool * U * Parsing) :=
  let* '(reset, u', p') := f canreset rns u p in
  Done (reset, u', if (reset : bool) then set_pos p' 0 0 0 else p').

Definition post_text (r : Z) (u : U) (p : Parsing) : exec (bool * U * Parsing) :=
  let '(hit, t) := txt_Parse (posttxtprs p) r in
  let p1 := set_txts p (pretxtprs p) t in
  if (hit : bool) then
    match EventPostRunes ev, t with
    | Some f, Some t' =>
      let* '(_, u', p') := evtpost f false [lstr t'] u p1 in Done (true, u', p')
    | _, _ => Done (true, u, p1)
    end
  else Done (false, u, p1).

(** The rune against the [post] label. *)
Definition post_label (r : Z) (u : U) (p : Parsing) : exec (bool * U * Parsing) :=
  if CanPostParse u p then
    let* b := index (postlbl p) (posti p) in
    if b =? r then
      let p1 := set_pos p (prei p) (prvr p) (posti p + 1) in
      if posti p1 =? postL p1 then
        match EventMatchedPost ev with
        | Some f => let* '(_, u', p') := f u p1 in Done (true, u', set_pos p' 0 0 0)
        | None => Done (true, u, set_pos p1 0 0 0)
        end
      else Done (true, u, p1)
    else Done (false, u, p)
  else Done (false, u, p).

(** The rune goes to the callback; the part of the label held before it goes first,
    and when the callback resets on it the rune is parsed again. *)
Definition post_rune (again : Z → U → Parsing → exec (U * Parsing))
    (r : Z) (u : U) (p : Parsing) : exec (U * Parsing) :=
  match EventPostRunes ev with
  | Some f =>
    if 0 <? posti p then
      let* held := slice (postlbl p) 0 (posti p) in
      let* '(reset, u1, p1) := evtpost f true held u p in
      if (reset : bool) then again r u1 p1
      else
        let* '(_, u2, p2) := evtpost f false [r] u1 (set_pos p1 (prei p1) (prvr p1) 0) in
        Done (u2, p2)
    else let* '(_, u1, p1) := evtpost f false [r] u p in Done (u1, p1)
  | None => Done (u, if 0 <? posti p then set_pos p 0 0 0 else p)
  end.

Fixpoint parse (fuel : nat) (r : Z) (u : U) (p : Parsing) : exec (U * Parsing) :=
  match fuel with
  | O => NoFuel
  | S fuel' =>
    if (posti p =? 0) && (prei p <? preL p) then parse_pre r u p
    else if (prei p =? preL p) && (posti p <? postL p) then
      let* '(txt, u1, p1) := post_text r u p in
      if (txt : bool) then Done (u1, p1)
      else
        let* '(lbl, u2, p2) := post_label r u1 p1 in
        if (lbl : bool) then Done (u2, p2) else post_rune (parse fuel') r u2 p2
    else Done (u, p)
  end.

(** A rune is parsed again at most once (see [parse_again]). *)
Definition parse_one (r : Z) (u : U) (p : Parsing) : exec (U * Parsing) := parse 2 r u p.

Fixpoint parse_runes (rns : list Z) (u : U) (p : Parsing) : exec (U * Parsing) :=
  match rns with
  | [] => Done (u, p)
  | r :: rns' => let* '(u', p') := parse_one r u p in parse_runes rns' u' p'
  end.

Definition Parse (rns : list Z) (u : U) (p : Parsing) : exec (U * Parsing) :=
  if 0 <? len (bufdrns p) then parse_runes (bufdrns p ++ rns) u (set_bufdrns p [])
  else parse_runes rns u p.

(** [parseReadRune]: the error is the end of the reader. *)
Fixpoint parseReadRune {R} `{!RuneReader R} (fuel : nat) (rd : R) (u : U) (p : Parsing)
  : exec (goerr * U * Parsing) :=
  match fuel with
  | O => NoFuel
  | S fuel' =>
    let* '(r, s, rerr, rd') := read_rune rd in
    if 0 <? s then let* '(u', p') := Parse [r] u p in parseReadRune fuel' rd' u' p'
    else
      match rerr with
      | None => if s =? 0 then Done (EOF, u, p) else parseReadRune fuel' rd' u p
      | Some e => Done (e, u, p)
      end
  end.

(** [Process] ignores the error; without a reader it does nothing. *)
Definition Process {R} `{!RuneReader R} (fuel : nat) (rd : option R) (u : U) (p : Parsing)
  : exec (U * Parsing) :=
  match rd with
  | None => Done (u, p)
  | Some rd => let* '(_, u', p') := parseReadRune fuel rd u p in Done (u', p')
  end.
End parse.
Arguments events U : clear implicits.

(** What [New] is given to read: a reader (an [io.Reader] through a reader of runes), a
    string, runes, arguments that are printed to a buffer whose reader it takes, or
    something it cannot read.  The events are [New]'s other arguments, kept as given. *)
Inductive input :=
| InReader (r : anyrdr)
| InString (s : list Z)
| InRunes (rs : list Z)
| InArgs (r : anyrdr)
| InOther.

Definition New_reader (i : input) : option anyrdr :=
  match i with
  | InReader r => Some r
  | InString s => Some (runeReaderSlice.string_reader s)
  | InRunes rs => Some (runeReaderSlice.string_reader (encode_all rs))
  | InArgs r => Some r
  | InOther => None
  end.

Definition New (i : input) (pre post : list Z) (chkpretext chkposttext : bool) : option anyrdr * Parsing :=
  (New_reader i,
   nextparsing pre post (if chkpretext then Some new_text else None) (if chkposttext then Some new_text else None)).

(** * Theory *)

(** ** What a parser without text detection recognises

    The abstract machine: outside with [k] runes of [pre] held, or inside with [k]
    runes of [post] held and maybe in a quoted text (its quote and the rune before).
    [reset]: whether the client resets when a [post] label does not go on, and what it
    makes of the runes of the label then.  [quoted]: whether quoted texts are detected
    inside. *)

Inductive tok := TLit (r : Z) | TOpen | TKey (r : Z) | TClose.

Inductive mode := Outside (k : nat) | Inside (k : nat) (q : option (Z * Z)).

Definition unquoted (quotes : bool) (r : Z) : Prop := quotes = true → IsTxtPar r = false.

Section machine.
Context (pre post : list Z) (reset : option (list Z → list Z)) (quoted : bool).

(** A rune of a quoted text, and whether it is in one after it. *)
Definition quote_step (q : option (Z * Z)) (r : Z) : option (option (Z * Z)) :=
  match q with
  | None => if quoted && IsTxtPar r then Some (Some (r, 0)) else None
  | Some (c, pv) => Some (if (c =? r) && negb (pv =? 92) then None else Some (c, r))
  end.

Definition outside (k : nat) (r : Z) : mode * list tok :=
  if bool_decide (pre !! k = Some r) then
    if (S k =? length pre)%nat then (Inside 0 None, [TOpen]) else (Outside (S k), [])
  else if (k =? 0)%nat then (Outside 0, [TLit r])
  else if bool_decide (pre !! 0%nat = Some r) then (Outside 1, map TLit (take k pre))
  else (Outside 0, map TLit (take k pre ++ [r])).

Definition machine (m : mode) (r : Z) : mode * list tok :=
  match m with
  | Outside k => outside k r
  | Inside k q =>
    match quote_step q r with
    | Some q' => (Inside k q', [TKey r])
    | None =>
      if bool_decide (post !! k = Some r) then
        if (S k =? length post)%nat then (Outside 0, [TClose]) else (Inside (S k) None, [])
      else if (k =? 0)%nat then (Inside 0 None, [TKey r])
      else
        match reset with
        | Some g => let '(m', ts) := outside 0 r in (m', map TKey (g (take k post)) ++ ts)
        | None => (Inside 0 None, map TKey (take k post ++ [r]))
        end
    end
  end.

Fixpoint machine_run (m : mode) (rs : list Z) : mode * list tok :=
  match rs with
  | [] => (m, [])
  | r :: rs' =>
    let '(m1, t1) := machine m r in let '(m2, t2) := machine_run m1 rs' in (m2, t1 ++ t2)
  end.

(** The text a token stands for, and the part of a label a mode holds. *)
Definition tok_text (t : tok) : list Z :=
  match t with TLit r => [r] | TOpen => pre | TKey r => [r] | TClose => post end.

Definition text (ts : list tok) : list Z := concat (map tok_text ts).

Definition held (m : mode) : list Z :=
  match m with Outside k => take k pre | Inside k _ => take k post end.

Definition mode_ok (m : mode) : Prop :=
  match m with Outside k => (k < length pre)%nat | Inside k _ => (k < length post)%nat end.

(** Not in a quoted text. *)
Definition plain (m : mode) : Prop := match m with Inside _ (Some _) => False | _ => True end.

Lemma text_app a b : text (a ++ b) = text a ++ text b.
Proof. unfold text. by rewrite map_app, concat_app. Qed.

Lemma text_lits l : text (map TLit l) = l.
Proof. unfold text. induction l as [|x l IH]; [done|]. cbn. by rewrite IH. Qed.

Lemma text_keys l : text (map TKey l) = l.
Proof. unfold text. induction l as [|x l IH]; [done|]. cbn. by rewrite IH. Qed.

Lemma machine_run_app m a b :
  machine_run m (a ++ b) =
  (let '(m1, t1) := machine_run m a in let '(m2, t2) := machine_run m1 b in (m2, t1 ++ t2)).
Proof.
  revert m. induction a as [|r a IH]; intros m; cbn.
  - by destruct (machine_run m b).
  - destruct (machine m r) as [m1 t1]. rewrite IH. destruct (machine_run m1 a) as [m2 t2].
    destruct (machine_run m2 b). by rewrite app_assoc.
Qed.

Lemma text_close : text [TClose] = post.
Proof. unfold text. cbn. apply app_nil_r. Qed.

Lemma text_open : text [TOpen] = pre.
Proof. unfold text. cbn. apply app_nil_r. Qed.

Lemma take_step {A} (l : list A) k r : l !! k = Some r → take (S k) l = take k l ++ [r].
Proof. intros. by rewrite (take_S_r l k r). Qed.

Lemma take_last_step {A} (l : list A) k r : l !! k = Some r → S k = length l → take k l ++ [r] = l.
Proof. intros Hk Hl. rewrite <- (take_step l k r Hk). apply take_ge. lia. Qed.

Lemma take_nonempty {A} (l : list A) k : (0 < k < length l)%nat → take k l ≠ [].
Proof. intros Hk E%(f_equal length). rewrite length_take in E. cbn in E. lia. Qed.

Lemma outside_spec k r :
  (k < length pre)%nat → (0 < length post)%nat →
  mode_ok (outside k r).1 ∧ plain (outside k r).1 ∧
  text (outside k r).2 ++ held (outside k r).1 = take k pre ++ [r].
Proof.
  intros Hk Hp. unfold outside.
  case_bool_decide as E1.
  - destruct (Nat.eqb_spec (S k) (length pre)); cbn [fst snd].
    + split_and!; [done|done|]. rewrite text_open. cbn. rewrite app_nil_r. symmetry. by apply take_last_step.
    + split_and!; [cbn; lia|done|]. cbn [held]. by rewrite <- take_step.
  - destruct (Nat.eqb_spec k 0) as [->|]; [|case_bool_decide as E2]; cbn [fst snd held].
    + done.
    + split_and!; [cbn; lia|done|]. rewrite text_lits. f_equal. by rewrite (take_step _ _ _ E2).
    + split_and!; [cbn; lia|done|]. rewrite text_lits. by rewrite app_nil_r.
Qed.

Lemma machine_ok m r :
  (0 < length pre)%nat → (0 < length post)%nat → mode_ok m → mode_ok (machine m r).1.
Proof.
  intros Hpr Hpo Hm. destruct m as [k|k q]; cbn in Hm; [by apply outside_spec|].
  unfold machine. destruct (quote_step q r); [done|]. case_bool_decide.
  - destruct (Nat.eqb_spec (S k) (length post)); cbn; lia.
  - destruct (Nat.eqb_spec k 0); [cbn; lia|]. destruct reset; [|cbn; lia].
    pose proof (outside_spec 0 r Hpr Hpo) as [Hok _]. by destruct (outside 0 r).
Qed.

Lemma quote_step_none r : unquoted quoted r → quote_step None r = None.
Proof. intros Hr. cbn. destruct quoted; [|done]. by rewrite Hr. Qed.

Definition reset_keeps : Prop := ∀ g l, reset = Some g → g l = l.

Lemma machine_spec m r :
  reset_keeps → (0 < length pre)%nat → (0 < length post)%nat → unquoted quoted r → mode_ok m → plain m →
  mode_ok (machine m r).1 ∧ plain (machine m r).1 ∧
  text (machine m r).2 ++ held (machine m r).1 = held m ++ [r].
Proof.
  intros Hg Hpr Hpo Hr Hm Hp. destruct m as [k|k [q|]]; cbn in Hm; [by apply outside_spec|done|].
  unfold machine. rewrite quote_step_none by done. case_bool_decide as E1.
  - destruct (Nat.eqb_spec (S k) (length post)); cbn [fst snd].
    + split_and!; [done|done|]. rewrite text_close. cbn. rewrite app_nil_r. symmetry. by apply take_last_step.
    + split_and!; [cbn; lia|done|]. cbn [held]. by rewrite <- take_step.
  - destruct (Nat.eqb_spec k 0) as [->|]; [done|]. destruct reset as [g|] eqn:Eg.
    + pose proof (outside_spec 0 r Hpr Hpo) as (Hok & Hpl & Ht). destruct (outside 0 r) as [m' ts].
      cbn [fst snd] in *. split_and!; [done|done|]. by rewrite text_app, text_keys, <- app_assoc, Ht, (Hg g).
    + cbn [fst snd held]. split_and!; [cbn; lia|done|]. by rewrite text_keys, app_nil_r.
Qed.

Lemma machine_run_spec m rs :
  reset_keeps → (0 < length pre)%nat → (0 < length post)%nat → Forall (unquoted quoted) rs →
  mode_ok m → plain m →
  mode_ok (machine_run m rs).1 ∧
  text (machine_run m rs).2 ++ held (machine_run m rs).1 = held m ++ rs.
Proof.
  intros Hg Hpr Hpo Hrs. revert m. induction Hrs as [|r rs Hr _ IH]; intros m Hm Hp; cbn.
  - by rewrite app_nil_r.
  - pose proof (machine_spec m r Hg Hpr Hpo Hr Hm Hp) as (H1 & Hp1 & H2). destruct (machine m r) as [m1 t1].
    cbn [fst snd] in *. destruct (IH m1 H1 Hp1) as [H3 H4]. destruct (machine_run m1 rs) as [m2 t2].
    cbn [fst snd] in *. split; [done|]. rewrite text_app, <- app_assoc, H4, app_assoc, H2.
    by rewrite <- app_assoc.
Qed.

Lemma machine_run_ok m rs :
  (0 < length pre)%nat → (0 < length post)%nat → mode_ok m → mode_ok (machine_run m rs).1.
Proof.
  intros Hpr Hpo. revert m. induction rs as [|r rs IH]; intros m Hm; cbn; [done|].
  pose proof (machine_ok m r Hpr Hpo Hm) as Hm1. destruct (machine m r) as [m1 t1].
  specialize (IH m1 Hm1). by destruct (machine_run m1 rs).
Qed.

(** *** Templates: text, a key between the labels, text, a key, ..., a last text

    The first rune of a label does not come again in it, [pre] does not occur in the
    texts and the first rune of [post] not in the keys, but for their quoted texts,
    which are closed. *)

Definition occurs_in (pat l : list Z) : Prop := ∃ l1 l2, l = l1 ++ pat ++ l2.

Definition distinct_head (lbl : list Z) : Prop := ∃ x l, lbl = x :: l ∧ x ∉ l.

Definition seg_source (g : list Z * list Z) : list Z := g.1 ++ pre ++ g.2 ++ post.
Definition seg_toks (g : list Z * list Z) : list tok :=
  map TLit g.1 ++ [TOpen] ++ map TKey g.2 ++ [TClose].

Definition source (gs : list (list Z * list Z)) : list Z := concat (map seg_source gs).
Definition toks (gs : list (list Z * list Z)) : list tok := concat (map seg_toks gs).

Fixpoint key_ok (q : option (Z * Z)) (l : list Z) : bool :=
  match l with
  | [] => bool_decide (q = None)
  | r :: l' =>
    match quote_step q r with
    | Some q' => key_ok q' l'
    | None => negb (bool_decide (post !! 0%nat = Some r)) && key_ok None l'
    end
  end.

Definition seg_ok (g : list Z * list Z) : Prop :=
  ¬ occurs_in pre g.1 ∧ key_ok None g.2 = true.

Lemma occurs_in_app pat l1 l2 : occurs_in pat l2 → occurs_in pat (l1 ++ l2).
Proof. intros (a & b & ->). exists (l1 ++ a), b. by rewrite <- app_assoc. Qed.

Lemma occurs_in_prefix pat l1 l2 : occurs_in pat l1 → occurs_in pat (l1 ++ l2).
Proof. intros (a & b & ->). exists a, (b ++ l2). by rewrite <- !app_assoc. Qed.

(** Text in which [pre] does not occur is passed on, but for the held part. *)
Lemma run_text k l :
  (k < length pre)%nat → ¬ occurs_in pre (take k pre ++ l) →
  ∃ k' w, machine_run (Outside k) l = (Outside k', map TLit w) ∧ (k' < length pre)%nat ∧
    w ++ take k' pre = take k pre ++ l.
Proof.
  revert k. induction l as [|r l IH]; intros k Hk Hno; cbn [machine_run].
  - exists k, []. by rewrite app_nil_r.
  - assert (∃ k1 w1, machine (Outside k) r = (Outside k1, map TLit w1) ∧ (k1 < length pre)%nat ∧
      w1 ++ take k1 pre = take k pre ++ [r]) as (k1 & w1 & Hm & Hk1 & Hw1).
    { cbn [machine]. unfold outside. case_bool_decide as E1.
      - destruct (Nat.eqb_spec (S k) (length pre)) as [E|].
        + exfalso. apply Hno. change (r :: l) with ([r] ++ l). rewrite app_assoc.
          apply occurs_in_prefix. rewrite (take_last_step _ _ _ E1 E).
          exists [], []. by rewrite app_nil_r.
        + exists (S k), []. split_and!; [done|lia|]. by rewrite <- take_step.
      - destruct (Nat.eqb_spec k 0) as [->|]; [by exists 0%nat, [r]|].
        case_bool_decide as E2.
        + exists 1%nat, (take k pre). split_and!; [done|lia|]. f_equal. by rewrite (take_step _ _ _ E2).
        + exists 0%nat, (take k pre ++ [r]). split_and!; [done|lia|]. by rewrite app_nil_r. }
    rewrite Hm. destruct (IH k1 Hk1) as (k2 & w2 & Hr2 & Hk2 & Hw2).
    { intros Ho. apply Hno. change (r :: l) with ([r] ++ l). rewrite app_assoc, <- Hw1, <- app_assoc.
      by apply occurs_in_app. }
    rewrite Hr2. exists k2, (w1 ++ w2). rewrite map_app. split_and!; [done|done|].
    by rewrite <- app_assoc, Hw2, app_assoc, Hw1, <- app_assoc.
Qed.

(** A last rune that begins [pre] is held. *)
Lemma run_held l x k' ts :
  (1 < length pre)%nat → pre !! 0%nat = Some x → ¬ occurs_in pre l →
  machine_run (Outside 0) (l ++ [x]) = (Outside k', ts) → (0 < k')%nat.
Proof.
  intros Hl Hx Hno. rewrite machine_run_app.
  destruct (run_text 0 l ltac:(lia) Hno) as (j & w & -> & _). cbn [machine_run machine].
  unfold outside. case_bool_decide as E1.
  - destruct (Nat.eqb_spec (S j) (length pre)); [done|]. intros [= <- _]. lia.
  - destruct (Nat.eqb_spec j 0) as [->|]; [done|]. rewrite bool_decide_eq_true_2 by done.
    intros [= <- _]. lia.
Qed.

Lemma distinct_head_lookup lbl i x :
  distinct_head lbl → (0 < i)%nat → lbl !! 0%nat = Some x → lbl !! i ≠ Some x.
Proof.
  intros (y & l & -> & Hn) Hi [= ->] Hx. destruct i as [|i]; [lia|].
  apply Hn. eapply list_elem_of_lookup_2. exact Hx.
Qed.

Lemma run_label_rest k :
  (0 < k < length pre)%nat → machine_run (Outside k) (drop k pre) = (Inside 0 None, [TOpen]).
Proof.
  remember (length pre - k)%nat as n eqn:Hn. revert k Hn. induction n as [|n IH]; intros k Hn Hk; [lia|].
  destruct (lookup_lt_is_Some_2 pre k) as [r Hr]; [lia|].
  rewrite (drop_S _ _ _ Hr). cbn [machine_run machine]. unfold outside.
  rewrite bool_decide_eq_true_2 by done. destruct (Nat.eqb_spec (S k) (length pre)) as [E|].
  - rewrite E, drop_all. done.
  - rewrite IH by lia. done.
Qed.

(** After a text, [pre] is found, whatever part of it was held. *)
Lemma run_label k :
  distinct_head pre → (k < length pre)%nat →
  machine_run (Outside k) pre = (Inside 0 None, map TLit (take k pre) ++ [TOpen]).
Proof.
  intros Hd Hk. destruct Hd as (x & l & E & Hn).
  assert (pre !! 0%nat = Some x) as H0 by by rewrite E.
  assert (∃ m ts, machine_run (Outside k) pre = (m, ts) ∧
    machine (Outside k) x = (if (length pre =? 1)%nat then (Inside 0 None, [TOpen])
                             else (Outside 1, map TLit (take k pre)))) as (m & ts & Hr & Hm).
  { destruct (machine_run (Outside k) pre) as [m ts] eqn:Hr. exists m, ts. split; [done|].
    cbn [machine]. unfold outside. destruct (Nat.eqb_spec k 0) as [->|].
    - rewrite bool_decide_eq_true_2 by done.
      destruct (Nat.eqb_spec 1 (length pre)), (Nat.eqb_spec (length pre) 1); try lia; done.
    - rewrite bool_decide_eq_false_2.
      + rewrite bool_decide_eq_true_2 by done. destruct (Nat.eqb_spec (length pre) 1); [lia|done].
      + apply (distinct_head_lookup pre); [exists x, l; eauto|lia|done]. }
  clear Hr. rewrite E at 1. cbn [machine_run]. rewrite Hm. destruct (Nat.eqb_spec (length pre) 1) as [E1|].
  - rewrite E in E1. cbn in E1. destruct l; [|done]. assert (k = 0)%nat as -> by (rewrite E in Hk; cbn in Hk; lia).
    done.
  - assert (l = drop 1 pre) as -> by by rewrite E.
    rewrite run_label_rest by lia. done.
Qed.

Lemma run_key q l :
  key_ok q l = true → machine_run (Inside 0 q) l = (Inside 0 None, map TKey l).
Proof.
  revert q. induction l as [|r l IH]; intros q; cbn [key_ok machine_run machine].
  - by intros ->%bool_decide_eq_true.
  - destruct (quote_step q r) as [q'|].
    + intros Hl. by rewrite IH.
    + case_bool_decide; [done|]. cbn. intros Hl. by rewrite IH.
Qed.

Lemma run_post k :
  Forall (unquoted quoted) post → (k < length post)%nat →
  machine_run (Inside k None) (drop k post) = (Outside 0, [TClose]).
Proof.
  intros Hq. remember (length post - k)%nat as n eqn:Hn. revert k Hn. induction n as [|n IH]; intros k Hn Hk; [lia|].
  destruct (lookup_lt_is_Some_2 post k) as [r Hr]; [lia|].
  rewrite (drop_S _ _ _ Hr). cbn [machine_run machine]. rewrite quote_step_none.
  2:{ rewrite Forall_lookup in Hq. by eapply Hq. }
  rewrite bool_decide_eq_true_2 by done. destruct (Nat.eqb_spec (S k) (length post)) as [E|].
  - rewrite E, drop_all. done.
  - rewrite IH by lia. done.
Qed.

Lemma run_seg g :
  distinct_head pre → Forall (unquoted quoted) post → (0 < length post)%nat → seg_ok g →
  machine_run (Outside 0) (seg_source g) = (Outside 0, seg_toks g).
Proof.
  intros Hd Hq Hpo [Hl Hk]. destruct g as [l ky]. unfold seg_source, seg_toks. cbn [fst snd] in *.
  assert (0 < length pre)%nat as Hpr by (destruct Hd as (? & ? & -> & _); cbn; lia).
  destruct (run_text 0 l Hpr Hl) as (k & w & Hr & Hk' & Hw).
  rewrite machine_run_app, Hr, machine_run_app, run_label by done.
  rewrite machine_run_app, run_key by done.
  change post with (drop 0 post) at 1. rewrite run_post by (done || lia). f_equal.
  rewrite !app_assoc, <- map_app, Hw. cbn [take]. done.
Qed.

Lemma run_segs gs :
  distinct_head pre → Forall (unquoted quoted) post → (0 < length post)%nat → Forall seg_ok gs →
  machine_run (Outside 0) (source gs) = (Outside 0, toks gs).
Proof.
  intros Hd Hq Hpo. unfold source, toks. induction 1 as [|g gs Hg _ IH]; [done|]. cbn [map concat].
  rewrite machine_run_app, run_seg, IH by done. done.
Qed.

(** A last text: what of it could begin [pre] is still held. *)
Lemma run_template gs l :
  distinct_head pre → Forall (unquoted quoted) post → (0 < length post)%nat → Forall seg_ok gs → ¬ occurs_in pre l →
  ∃ k w, machine_run (Outside 0) (source gs ++ l) = (Outside k, toks gs ++ map TLit w) ∧
    (k < length pre)%nat ∧ w ++ take k pre = l.
Proof.
  intros Hd Hq Hpo Hgs Hl. rewrite machine_run_app, run_segs by done.
  assert (0 < length pre)%nat as Hpr by (destruct Hd as (? & ? & -> & _); cbn; lia).
  destruct (run_text 0 l Hpr Hl) as (k & w & Hr & Hk & Hw). rewrite Hr. by exists k, w.
Qed.
End machine.

(** ** The parser is that machine

    A client [handles] the events of the runes that are [ok] when it has all the
    callbacks, they leave the parser alone and keep [R] between its state and the
    tokens so far, as long as those are [good]. *)

(** Text detection is off, or ([quotes] says whether that may be) on and not inside a
    text; it does nothing then for a rune that is not a quote. *)
Definition txt_idle (quotes : bool) (o : option textparsing) : Prop :=
  match o with None => True | Some t => quotes = true ∧ txtr t = 0 end.

(** The text detection inside: off, or at the quoted text [q]. *)
Definition txt_at (quoted : bool) (q : option (Z * Z)) (o : option textparsing) : Prop :=
  match o with
  | None => quoted = false ∧ q = None
  | Some t => quoted = true ∧ alttxtr t = 0 ∧
      match q with
      | None => txtr t = 0 ∧ txt_prvr t = 0
      | Some (c, pv) => 0 < c ∧ txtr t = c ∧ txt_prvr t = pv
      end
  end.

Record handles {U} (ok : Z → Prop) (good : list tok → Prop) (ev : events U) (R : U → list tok → Prop)
    (reset : option (list Z → list Z)) : Prop := {
  h_good a b : good (a ++ b) → good a;
  h_can_pre : EventCanPreParse ev = None;
  h_can_post : EventCanPostParse ev = None;
  h_pre : ∃ f, EventPreRunes ev = Some f ∧ ∀ rns u p ts,
    Forall ok rns → rns ≠ [] → R u ts → good (ts ++ map TLit rns) →
    ∃ u', f rns u p = Done (u', p) ∧ R u' (ts ++ map TLit rns);
  h_open : ∀ u p ts, R u ts → good (ts ++ [TOpen]) →
    ∃ u', evtmtchpre ev u p = Done (u', p) ∧ R u' (ts ++ [TOpen]);
  h_post : ∃ f, EventPostRunes ev = Some f ∧ ∀ (c : bool) rns u p ts,
    let out : list Z := match reset with Some g => if c then g rns else rns | None => rns end in
    Forall ok rns → rns ≠ [] → R u ts → good (ts ++ map TKey out) →
    ∃ u', f c rns u p = Done (c && bool_decide (is_Some reset), u', p) ∧ R u' (ts ++ map TKey out);
  h_close : ∃ f, EventMatchedPost ev = Some f ∧ ∀ u p ts, R u ts → good (ts ++ [TClose]) →
    ∃ b u', f u p = Done (b, u', p) ∧ R u' (ts ++ [TClose]) }.

Record parser_for (quotes : bool) (pre post : list Z) (p : Parsing) : Prop := {
  pf_pre : prelbl p = pre;
  pf_preL : preL p = len pre;
  pf_post : postlbl p = post;
  pf_postL : postL p = len post;
  pf_buf : bufdrns p = [];
  pf_pretxt : txt_idle quotes (pretxtprs p) }.

Definition at_mode (quoted : bool) (pre : list Z) (p : Parsing) (m : mode) : Prop :=
  match m with
  | Outside k => prei p = Z.of_nat k ∧ posti p = 0 ∧ txt_at quoted None (posttxtprs p) ∧
      ((0 < k)%nat → pre !! (k - 1)%nat = Some (prvr p))
  | Inside k q => prei p = len pre ∧ posti p = Z.of_nat k ∧ txt_at quoted q (posttxtprs p)
  end.

Lemma set_pos_parser q pre post p i v j : parser_for q pre post p → parser_for q pre post (set_pos p i v j).
Proof. intros []. split; cbn; auto. Qed.

Lemma set_post_parser q pre post p t : parser_for q pre post p → parser_for q pre post (set_txts p (pretxtprs p) t).
Proof. intros []. split; cbn; auto. Qed.

Section refine.
Context {U : Type} (ev : events U) (R : U → list tok → Prop) (reset : option (list Z → list Z)).
Context (pre post : list Z) (quotes quoted : bool).
#[local] Abbreviation mach := (machine pre post reset quoted).
#[local] Abbreviation mach_run := (machine_run pre post reset quoted).
#[local] Abbreviation at_m := (at_mode quoted pre).

Definition steps_to (m : mode) (res : exec (U * Parsing)) (ts : list tok) : Prop :=
  ∃ u' p', res = Done (u', p') ∧ parser_for quotes pre post p' ∧ at_m p' m ∧ R u' ts.

Lemma txt_Parse_idle o r : txt_idle quotes o → unquoted quotes r → txt_Parse o r = (false, o).
Proof.
  destruct o as [[a t v l]|]; [|done]. intros [Hq Ht] Hr. cbn in Ht. subst t. cbn. by rewrite Hr.
Qed.

Lemma IsTxtPar_pos r : IsTxtPar r = true → 0 < r.
Proof. unfold IsTxtPar. intros (q & Hq & ->%Z.eqb_eq)%existsb_exists. repeat destruct Hq as [<-|Hq]; done. Qed.

(** What the text detection inside does is what the machine does. *)
Lemma txt_Parse_at o q r :
  txt_at quoted q o →
  match quote_step quoted q r with
  | Some q' => ∃ t, txt_Parse o r = (true, Some t) ∧ lstr t = r ∧ txt_at quoted q' (Some t)
  | None => txt_Parse o r = (false, o) ∧ q = None
  end.
Proof.
  destruct o as [[a t v l]|]; cbn -[IsTxtPar].
  - intros (-> & -> & Hq). destruct q as [[c pv]|]; cbn -[IsTxtPar].
    + destruct Hq as (Hc & -> & ->). destruct (Z.eqb_spec c 0); [lia|].
      destruct ((c =? r) && negb (pv =? 92)); cbn; [by eexists|]. rewrite (proj2 (Z.ltb_lt 0 c)) by done.
      by eexists.
    + destruct Hq as (-> & ->). pose proof (IsTxtPar_pos r) as Hpos. destruct (IsTxtPar r); [|done].
      cbn. rewrite (proj2 (Z.ltb_lt 0 r)) by auto. eexists. split_and!; auto.
  - intros (-> & ->). done.
Qed.

Lemma pre_text_off r u p :
  txt_idle quotes (pretxtprs p) → unquoted quotes r → pre_text ev r u p = Done (false, u, p).
Proof. intros. unfold pre_text. rewrite txt_Parse_idle by done. by destruct p. Qed.

Lemma can_pre u p : EventCanPreParse ev = None → CanPreParse ev u p = true.
Proof. intros E. unfold CanPreParse. rewrite E. by destruct (negb _). Qed.

Lemma can_post u p : EventCanPostParse ev = None → CanPostParse ev u p = true.
Proof. intros E. unfold CanPostParse. rewrite E. by destruct (negb _). Qed.

Lemma index_label (l : list Z) (k : nat) r : l !! k = Some r → index l (Z.of_nat k) = Done r.
Proof. intros. apply index_lookup; [lia|]. by rewrite Nat2Z.id. Qed.

(** A rune that does not begin the label, with nothing held. *)
Lemma parse_plain fuel r u p :
  EventCanPreParse ev = None → prelbl p = pre → preL p = len pre → txt_idle quotes (pretxtprs p) → unquoted quotes r →
  prei p = 0 → posti p = 0 → (0 < length pre)%nat → pre !! 0%nat ≠ Some r →
  parse ev (S fuel) r u p = evtpre ev [r] u (set_pos p 0 r 0).
Proof.
  intros Hc Hpre HpreL Htxt Hq Hi Hj Hl Hr. cbn [parse]. rewrite Hj, Hi, HpreL.
  zsimp. unfold parse_pre. rewrite pre_text_off by done. cbn [exec_bind].
  rewrite can_pre by done. unfold pre_label, pre_broken. rewrite Hi. zsimp. cbn [exec_bind]. rewrite Hpre, Hi.
  destruct (lookup_lt_is_Some_2 pre 0 Hl) as [x Hx].
  rewrite (index_lookup pre 0 x ltac:(lia) Hx). cbn [exec_bind].
  destruct (Z.eqb_spec x r) as [->|]; [done|]. cbn [exec_bind]. unfold pre_rune. rewrite Hi. zsimp.
  by rewrite Hj.
Qed.

Context (ok : Z → Prop) (good : list tok → Prop) (Hev : handles ok good ev R reset).
Context (Hquotes : ∀ r, ok r → unquoted quotes r) (Hokpre : Forall ok pre) (Hokpost : Forall ok post).

Lemma good_app a b : good (a ++ b) → good a.
Proof. apply (h_good _ _ _ _ _ Hev). Qed.

Lemma good_app3 ts a b : good (ts ++ a ++ b) → good (ts ++ a).
Proof. rewrite app_assoc. apply good_app. Qed.

Lemma pre_broken_at k r p :
  parser_for quotes pre post p → at_m p (Outside k) → (k < length pre)%nat →
  pre_broken r p = Done (bool_decide ((0 < k)%nat ∧ pre !! k ≠ Some r)).
Proof.
  intros [Epre _ _ _ _ _] (Hi & _ & _ & Hv) Hk. unfold pre_broken. rewrite Epre, Hi.
  destruct (decide (k = 0%nat)) as [->|Hne].
  - change (Z.of_nat 0) with 0. zsimp. rewrite bool_decide_eq_false_2; [done|lia].
  - zsimp. replace (Z.of_nat k - 1) with (Z.of_nat (k - 1)) by lia.
    rewrite (index_label pre (k - 1) (prvr p)) by auto with lia. cbn [exec_bind]. rewrite Z.eqb_refl.
    destruct (lookup_lt_is_Some_2 pre k Hk) as [x Hx]. rewrite (index_label pre k x Hx). cbn [exec_bind].
    rewrite Hx. destruct (Z.eqb_spec x r) as [->|]; cbn.
    + rewrite bool_decide_eq_false_2; [done|]. tauto.
    + rewrite bool_decide_eq_true_2; [done|]. split; [lia|congruence].
Qed.

Lemma evtpre_to rns u p ts :
  R u ts → Forall ok rns → rns ≠ [] → good (ts ++ map TLit rns) →
  ∃ u', evtpre ev rns u p = Done (u', p) ∧ R u' (ts ++ map TLit rns).
Proof.
  intros Hu Hr. destruct (h_pre _ _ _ _ _ Hev) as (f & Ef & Hf). unfold evtpre. rewrite Ef. auto.
Qed.

(** The rune that completes or goes on with the label. *)
Lemma pre_label_hit k r u p ts :
  R u ts → parser_for quotes pre post p → at_m p (Outside k) → (0 < length post)%nat → pre !! k = Some r →
  good (ts ++ (outside pre k r).2) →
  ∃ u' p', pre_label ev r u p = Done (true, u', p') ∧ parser_for quotes pre post p' ∧
    at_m p' (outside pre k r).1 ∧ R u' (ts ++ (outside pre k r).2).
Proof.
  intros Hu Hp Hm Hpo Hr. pose proof Hm as (Hi & Hj & Hq & Hv). pose proof Hp as [Epre EpreL _ _ _ _].
  pose proof (lookup_lt_Some _ _ _ Hr) as Hk.
  unfold pre_label. rewrite (pre_broken_at k) by auto. rewrite bool_decide_eq_false_2 by tauto.
  cbn [exec_bind]. rewrite Epre, Hi.
  rewrite (index_label pre k r Hr). cbn [exec_bind]. rewrite Z.eqb_refl, EpreL, Hj.
  unfold outside. rewrite bool_decide_eq_true_2 by done.
  destruct (Nat.eqb_spec (S k) (length pre)) as [E|E]; zsimp; intros Hg.
  - destruct (h_open _ _ _ _ _ Hev u (set_pos p (Z.of_nat k + 1) (prvr p) 0) ts Hu Hg) as (u' & -> & Hu').
    cbn [exec_bind]. eexists u', _. split; [done|]. split; [by apply set_pos_parser|].
    split; [|done]. cbn. split_and!; [lia|done|done].
  - eexists _, _. split; [done|]. split; [by apply set_pos_parser|]. rewrite app_nil_r. cbn.
    split; [|done]. split; [lia|]. split; [done|]. split; [done|]. intros _. by rewrite Nat.sub_0_r.
Qed.

(** The rune that does not: what was held goes out, and it may begin the label. *)
Lemma pre_label_miss k r u p ts :
  R u ts → parser_for quotes pre post p → at_m p (Outside k) → (0 < k < length pre)%nat → pre !! k ≠ Some r →
  good (ts ++ map TLit (take k pre)) →
  ∃ b u' p', pre_label ev r u p = Done (b, u', p') ∧ parser_for quotes pre post p' ∧
    b = bool_decide (pre !! 0%nat = Some r) ∧ at_m p' (Outside (if b then 1 else 0)) ∧
    R u' (ts ++ map TLit (take k pre)).
Proof.
  intros Hu Hp Hm Hk Hr Hg. pose proof (take_nonempty pre k Hk) as Hne. pose proof Hm as (Hi & Hj & Hq & Hv). pose proof Hp as [Epre EpreL _ _ _ _].
  unfold pre_label. rewrite (pre_broken_at k) by auto with lia.
  rewrite bool_decide_eq_true_2 by (split; [lia|done]). cbn [exec_bind].
  rewrite Epre, Hi, slice_ok by lia. cbn [exec_bind]. rewrite sub_from_0, Nat2Z.id.
  destruct (evtpre_to (take k pre) u p ts Hu ltac:(by apply Forall_take) Hne Hg) as (u1 & -> & Hu1). cbn [exec_bind].
  cbn [prelbl prei preL prvr posti set_pos].
  destruct (lookup_lt_is_Some_2 pre 0) as [x Hx]; [lia|].
  rewrite Epre, EpreL, (index_lookup pre 0 x ltac:(lia) Hx). cbn [exec_bind]. rewrite Hx, Hj.
  destruct (Z.eqb_spec x r) as [->|Hxr].
  - zsimp. rewrite bool_decide_eq_true_2 by done. eexists _, _, _. split; [done|].
    split; [by repeat apply set_pos_parser|]. split; [done|]. split; [|done]. cbn. auto.
  - rewrite bool_decide_eq_false_2 by congruence. eexists _, _, _. split; [done|].
    split; [by repeat apply set_pos_parser|]. split; [done|]. split; [|done]. cbn. split_and!; [lia|done|done|lia].
Qed.

Lemma parse_outside fuel k r u p ts :
  R u ts → parser_for quotes pre post p → at_m p (Outside k) → (k < length pre)%nat → (0 < length post)%nat →
  ok r → good (ts ++ (outside pre k r).2) →
  steps_to (outside pre k r).1 (parse ev (S fuel) r u p) (ts ++ (outside pre k r).2).
Proof.
  intros Hu Hp Hm Hk Hpo Hq Hg. pose proof Hm as (Hi & Hj & Ht & Hv).
  pose proof Hp as [Epre EpreL _ _ _ Etxt]. pose proof (h_can_pre _ _ _ _ _ Hev) as Hcan.
  destruct (decide (pre !! k = Some r)) as [Hr|Hr].
  { cbn [parse]. rewrite Hj, Hi, EpreL. zsimp. unfold parse_pre.
    rewrite pre_text_off by auto. cbn [exec_bind]. rewrite can_pre by done.
    destruct (pre_label_hit k r u p ts) as (u' & p' & -> & Hp' & Hm' & Hu'); [done..|].
    cbn [exec_bind]. by exists u', p'. }
  destruct (decide (k = 0%nat)) as [->|Hne].
  { rewrite parse_plain by auto. revert Hg. unfold outside. rewrite bool_decide_eq_false_2 by done.
    cbn [Nat.eqb fst snd]. intros Hg.
    destruct (evtpre_to [r] u (set_pos p 0 r 0) ts Hu ltac:(by repeat constructor) ltac:(done) Hg) as (u' & -> & Hu').
    eexists u', _. split; [done|]. split; [by apply set_pos_parser|]. split; [|done]. cbn. split_and!; [done|done|done|lia]. }
  cbn [parse]. rewrite Hj, Hi, EpreL. zsimp. unfold parse_pre.
  rewrite pre_text_off by auto. cbn [exec_bind]. rewrite can_pre by done.
  revert Hg. unfold outside. rewrite (bool_decide_eq_false_2 (pre !! k = Some r)) by done.
  destruct (Nat.eqb_spec k 0); [lia|]. intros Hg.
  destruct (pre_label_miss k r u p ts) as (b & u1 & p1 & -> & Hp1 & Hb & Hm1 & Hu1); [done..|lia|done| |].
  { case_bool_decide; [done|]. cbn [snd] in Hg. rewrite map_app in Hg. by apply good_app3 in Hg. }
  cbn [exec_bind]. rewrite <- Hb in *. destruct b.
  { by exists u1, p1. }
  destruct Hm1 as (Hi1 & Hj1 & Ht1 & _). change (prei p1 = 0) in Hi1. cbn [fst snd] in *.
  unfold pre_rune. rewrite Hi1, Hj1. zsimp. rewrite map_app in Hg |- *. rewrite app_assoc in Hg |- *.
  destruct (evtpre_to [r] u1 (set_pos p1 0 r 0) (ts ++ map TLit (take k pre)) Hu1 ltac:(by repeat constructor) ltac:(done) Hg) as (u' & -> & Hu').
  eexists u', _. split; [done|]. split; [by apply set_pos_parser|]. split; [|done].
  cbn. split_and!; [done|done|done|lia].
Qed.

Lemma evtpost_to f (c : bool) rns u p ts :
  let out : list Z := match reset with Some g => if c then g rns else rns | None => rns end in
  EventPostRunes ev = Some f → R u ts → Forall ok rns → rns ≠ [] → good (ts ++ map TKey out) →
  ∃ u', evtpost f c rns u p =
      Done (c && bool_decide (is_Some reset), u', if c && bool_decide (is_Some reset) then set_pos p 0 0 0 else p) ∧
    R u' (ts ++ map TKey out).
Proof.
  intros out Ef Hu Hrns Hne Hg. destruct (h_post _ _ _ _ _ Hev) as (f' & Ef' & Hf). rewrite Ef in Ef'. injection Ef' as <-.
  destruct (Hf c rns u p ts Hrns Hne Hu Hg) as (u' & E & Hu'). exists u'.
  unfold evtpost. rewrite E. done.
Qed.

(** One rune, which the client does not reset on. *)
Lemma evtpost_one f r u p ts :
  EventPostRunes ev = Some f → R u ts → ok r → good (ts ++ [TKey r]) →
  ∃ u', evtpost f false [r] u p = Done (false, u', p) ∧ R u' (ts ++ [TKey r]).
Proof.
  intros Ef Hu Hr Hg. pose proof (evtpost_to f false [r] u p ts) as H. cbv zeta in H.
  assert (match reset with Some g => if false then g [r] else [r] | None => [r] end = [r]) as Hout by by destruct reset.
  cbv iota in H. rewrite Hout in H. cbn [andb] in H. apply H; [done|done|by repeat constructor|done|done].
Qed.

Lemma post_label_at k q r u p :
  parser_for quotes pre post p → at_m p (Inside k q) → (k < length post)%nat →
  post_label ev r u p =
  (if bool_decide (post !! k = Some r) then
     if (S k =? length post)%nat then
       match EventMatchedPost ev with
       | Some f => let* '(_, u', p') := f u (set_pos p (prei p) (prvr p) (Z.of_nat k + 1)) in
                   Done (true, u', set_pos p' 0 0 0)
       | None => Done (true, u, set_pos p 0 0 0)
       end
     else Done (true, u, set_pos p (prei p) (prvr p) (Z.of_nat k + 1))
   else Done (false, u, p)).
Proof.
  intros [_ _ Epost EpostL _ _] (Hi & Hj & _) Hk. unfold post_label.
  rewrite can_post by apply Hev. rewrite Epost, Hj.
  destruct (lookup_lt_is_Some_2 post k Hk) as [x Hx]. rewrite (index_label post k x Hx). cbn [exec_bind].
  rewrite Hx. destruct (Z.eqb_spec x r) as [->|Hne].
  - rewrite bool_decide_eq_true_2 by done. cbn [set_pos posti postL]. rewrite EpostL.
    destruct (Nat.eqb_spec (S k) (length post)); zsimp; done.
  - rewrite bool_decide_eq_false_2 by congruence. done.
Qed.

(** The part of the label held goes out before a rune that does not go on with it. *)
Lemma post_rune_held fuel k r u p ts :
  R u ts → parser_for quotes pre post p → at_m p (Inside k None) → (0 < length pre)%nat →
  (0 < k < length post)%nat → ok r → post !! k ≠ Some r → quote_step quoted None r = None →
  good (ts ++ (mach (Inside k None) r).2) →
  steps_to (mach (Inside k None) r).1 (post_rune ev (parse ev (S fuel)) r u p)
    (ts ++ (mach (Inside k None) r).2).
Proof.
  intros Hu Hp (Hi & Hj & Ht) Hpr Hk Hok Hr Hqs. pose proof Hp as [_ _ Epost _ _ _].
  unfold machine. rewrite Hqs, bool_decide_eq_false_2 by done. destruct (Nat.eqb_spec k 0); [lia|].
  unfold post_rune. destruct (h_post _ _ _ _ _ Hev) as (f & Ef & _). rewrite Ef, Hj. zsimp.
  rewrite Epost, slice_ok by lia. cbn [exec_bind]. rewrite sub_from_0, Nat2Z.id.
  pose proof (evtpost_to f true (take k post) u p ts) as Hto. cbv zeta in Hto.
  pose proof (take_nonempty post k Hk) as Hne.
  pose proof (parse_outside fuel 0 r) as Hout. pose proof (evtpost_one f r) as Hone. pose proof good_app3 as Happ.
  destruct reset as [g|]; intros Hg; cbn [andb] in Hto.
  - rewrite bool_decide_eq_true_2 in Hto by eauto. cbv iota in Hto.
    assert (good (ts ++ map TKey (g (take k post)) ++ (outside pre 0 r).2)) as Hg'
      by (destruct (outside pre 0 r); exact Hg).
    destruct Hto as (u1 & -> & Hu1); [done|done|by apply Forall_take|done|by apply Happ in Hg'|].
    cbn [exec_bind]. cbv iota. rewrite app_assoc in Hg'.
    destruct (Hout u1 (set_pos p 0 0 0) _ Hu1) as (u2 & p2 & E2 & Hp2 & Hm2 & Hu2);
      [by apply set_pos_parser|cbn; split_and!; [done|done|done|lia]|done|lia|done|done|].
    rewrite E2. destruct (outside pre 0 r) as [m' ts']. exists u2, p2.
    split; [done|]. split; [done|]. split; [done|]. cbn [snd]. by rewrite app_assoc.
  - rewrite bool_decide_eq_false_2 in Hto by by intros [? ?]. cbv iota in Hto. cbn [snd] in Hg. rewrite map_app in Hg.
    destruct Hto as (u1 & -> & Hu1); [done|done|by apply Forall_take|done|by apply Happ in Hg|].
    cbn [exec_bind]. cbv iota. rewrite app_assoc in Hg.
    destruct (Hone u1 (set_pos p (prei p) (prvr p) 0) _ Ef Hu1 Hok Hg) as (u2 & -> & Hu2).
    cbn [exec_bind fst snd]. eexists u2, _. split; [done|]. split; [by apply set_pos_parser|].
    split; [done|]. by rewrite map_app, app_assoc.
Qed.

Lemma parse_inside fuel k q r u p ts :
  R u ts → parser_for quotes pre post p → at_m p (Inside k q) → (0 < length pre)%nat → (k < length post)%nat →
  ok r → good (ts ++ (mach (Inside k q) r).2) →
  steps_to (mach (Inside k q) r).1 (parse ev (S (S fuel)) r u p) (ts ++ (mach (Inside k q) r).2).
Proof.
  intros Hu Hp Hm Hpr Hk Hok. pose proof Hm as (Hi & Hj & Ht).
  pose proof Hp as [Epre EpreL Epost EpostL _ _]. destruct (h_post _ _ _ _ _ Hev) as (f & Ef & _).
  remember (S fuel) as fuel1 eqn:Ef1. cbn [parse]. rewrite Hj, Hi, EpreL, EpostL.
  rewrite (proj2 (Z.ltb_ge (len pre) (len pre))) by lia. rewrite andb_false_r, Z.eqb_refl.
  zsimp. pose proof (txt_Parse_at (posttxtprs p) q r Ht) as Htp. unfold post_text.
  destruct (quote_step quoted q r) as [q'|] eqn:Eq.
  { destruct Htp as (t & -> & Hl & Ht'). rewrite Ef, Hl. cbn [machine]. rewrite Eq. cbn [fst snd]. intros Hg.
    destruct (evtpost_one f r u (set_txts p (pretxtprs p) (Some t)) ts Ef Hu Hok Hg) as (u' & -> & Hu').
    cbn [exec_bind]. eexists u', _. split; [done|]. split; [by apply set_post_parser|]. split; [|done].
    cbn. done. }
  destruct Htp as (-> & ->).
  replace (set_txts p (pretxtprs p) (posttxtprs p)) with p by by destruct p.
  cbn [exec_bind]. rewrite (post_label_at k None) by done.
  destruct (decide (post !! k = Some r)) as [Hr|Hr].
  - cbn [machine]. rewrite Eq, !bool_decide_eq_true_2 by done.
    destruct (Nat.eqb_spec (S k) (length post)) as [E|E]; intros Hg.
    + destruct (h_close _ _ _ _ _ Hev) as (fc & -> & Hf).
      destruct (Hf u (set_pos p (prei p) (prvr p) (Z.of_nat k + 1)) ts Hu Hg) as (b & u' & -> & Hu').
      cbn [exec_bind]. eexists _, _. split; [done|]. split; [by repeat apply set_pos_parser|]. split; [|done].
      cbn. split_and!; [done|done|done|lia].
    + cbn [exec_bind]. eexists _, _. split; [done|]. rewrite app_nil_r.
      split; [by apply set_pos_parser|]. split; [|done]. cbn. split_and!; [done|lia|done].
  - rewrite bool_decide_eq_false_2 by done. cbn [exec_bind].
    destruct (decide (k = 0%nat)) as [->|Hne]; [|subst fuel1; apply post_rune_held; done || lia].
    cbn [machine]. rewrite Eq, bool_decide_eq_false_2 by done. cbn [Nat.eqb fst snd]. intros Hg.
    unfold post_rune. rewrite Ef, Hj. change (0 <? Z.of_nat 0) with false. cbv iota.
    destruct (evtpost_one f r u p ts Ef Hu Hok Hg) as (u' & -> & Hu'). cbn [exec_bind].
    by exists u', p.
Qed.

Lemma parse_machine m r u p ts :
  R u ts → parser_for quotes pre post p → at_m p m → mode_ok pre post m →
  (0 < length pre)%nat → (0 < length post)%nat → ok r → good (ts ++ (mach m r).2) →
  steps_to (mach m r).1 (parse_one ev r u p) (ts ++ (mach m r).2).
Proof.
  intros Hu Hp Hm Hok Hpr Hpo Hq Hg. destruct m as [k|k q]; [by apply parse_outside|by apply parse_inside].
Qed.

Lemma parse_runes_machine rs m u p ts :
  R u ts → parser_for quotes pre post p → at_m p m → mode_ok pre post m →
  (0 < length pre)%nat → (0 < length post)%nat → Forall ok rs → good (ts ++ (mach_run m rs).2) →
  steps_to (mach_run m rs).1 (parse_runes ev rs u p) (ts ++ (mach_run m rs).2).
Proof.
  revert m u p ts. induction rs as [|r rs IH]; intros m u p ts Hu Hp Hm Hok Hpr Hpo Hqs Hg; cbn [parse_runes machine_run].
  - exists u, p. by rewrite app_nil_r.
  - inversion Hqs as [|? ? Hq Hqs']; subst. cbn [machine_run] in Hg.
    pose proof (parse_machine m r u p ts) as Hstep.
    pose proof (machine_ok pre post reset quoted m r Hpr Hpo Hok) as Hok1.
    destruct (mach m r) as [m1 t1]. cbn [fst snd] in *.
    specialize (IH m1). destruct (mach_run m1 rs) as [m2 t2]. cbn [fst snd] in *.
    destruct Hstep as (u1 & p1 & -> & Hp1 & Hm1 & Hu1); [done..|by apply good_app3 in Hg|].
    cbn [exec_bind]. rewrite app_assoc in Hg |- *. by apply IH.
Qed.

Lemma Parse_machine rs m u p ts :
  R u ts → parser_for quotes pre post p → at_m p m → mode_ok pre post m →
  (0 < length pre)%nat → (0 < length post)%nat → Forall ok rs → good (ts ++ (mach_run m rs).2) →
  steps_to (mach_run m rs).1 (Parse ev rs u p) (ts ++ (mach_run m rs).2).
Proof.
  intros Hu Hp. unfold Parse. rewrite (pf_buf _ _ _ _ Hp). change (0 <? len (@nil Z)) with false. cbv iota.
  intros. by apply parse_runes_machine.
Qed.

(** [Process] reads its reader to the end. *)
Lemma Process_machine {T} `{RuneSource T} fuel (rd : T) rs m u p ts :
  pending rd rs → (length rs < fuel)%nat →
  R u ts → parser_for quotes pre post p → at_m p m → mode_ok pre post m →
  (0 < length pre)%nat → (0 < length post)%nat → Forall ok rs → good (ts ++ (mach_run m rs).2) →
  steps_to (mach_run m rs).1 (Process ev fuel (Some rd) u p) (ts ++ (mach_run m rs).2).
Proof.
  intros Hpe Hf Hu Hp Hm Hok Hpr Hpo Hqs Hg. unfold Process.
  enough (∃ u' p', parseReadRune ev fuel rd u p = Done (EOF, u', p') ∧ parser_for quotes pre post p' ∧
    at_m p' (mach_run m rs).1 ∧
    R u' (ts ++ (mach_run m rs).2)) as (u' & p' & -> & ?) by by exists u', p'.
  revert rd rs m u p ts Hpe Hf Hu Hp Hm Hok Hqs Hg.
  induction fuel as [|fuel IH]; intros rd rs m u p ts Hpe Hf Hu Hp Hm Hok Hqs Hg; [lia|].
  cbn [parseReadRune]. destruct rs as [|r rs].
  - destruct (pending_nil rd Hpe) as (r & rd' & -> & _). cbn [exec_bind machine_run].
    change (0 <? 0) with false. cbv iota. exists u, p. by rewrite app_nil_r.
  - inversion Hqs as [|? ? Hq Hqs']; subst.
    destruct (pending_cons rd r rs Hpe) as (n & rd' & -> & Hn & Hpe'). cbn [exec_bind]. zsimp.
    pose proof (Parse_machine [r] m u p ts) as Hstep. cbn [machine_run] in Hg, Hstep |- *.
    pose proof (machine_ok pre post reset quoted m r Hpr Hpo Hok) as Hok1.
    destruct (mach m r) as [m1 t1]. cbn [fst snd] in *. rewrite app_nil_r in Hstep.
    specialize (IH rd' rs m1). destruct (mach_run m1 rs) as [m2 t2]. cbn [fst snd] in *.
    destruct Hstep as (u1 & p1 & -> & Hp1 & Hm1 & Hu1); [done..|by repeat constructor|by apply good_app3 in Hg|].
    cbn [exec_bind]. rewrite app_assoc in Hg |- *. apply IH; first [done|cbn in Hf; lia].
Qed.
End refine.

Lemma nextparsing_for quotes pre post a b :
  txt_idle quotes a → parser_for quotes pre post (nextparsing pre post a b).
Proof. done. Qed.

Lemma nextparsing_at quoted pre post a b :
  txt_at quoted None b → at_mode quoted pre (nextparsing pre post a b) (Outside 0).
Proof. intros Hb. cbn. split; [done|]. split; [done|]. split; [done|]. lia. Qed.

(** The part of a label a parser holds. *)
Definition held_runes (p : Parsing) : list Z :=
  if prei p <? preL p then take (Z.to_nat (prei p)) (prelbl p)
  else take (Z.to_nat (posti p)) (postlbl p).

Lemma held_runes_at quotes quoted pre post p m :
  parser_for quotes pre post p → at_mode quoted pre p m → mode_ok pre post m → held_runes p = held pre post m.
Proof.
  intros [Epre EpreL Epost _ _ _] Hm Hok. unfold held_runes. rewrite Epre, EpreL, Epost.
  destruct m as [k|k q]; cbn in *.
  - destruct Hm as (-> & _). zsimp. by rewrite Nat2Z.id.
  - destruct Hm as (-> & -> & _). rewrite (proj2 (Z.ltb_ge _ _)) by lia. by rewrite Nat2Z.id.
Qed.

(** C1: no rune is lost or made up: for any client whose callbacks keep a record of
    the tokens (and that does not change the runes of a label given up), the texts of
    the tokens of any input, followed by the part of a label the parser still holds,
    are the input; and the parser does not panic.  ([ok]: the runes the client can take,
    without quotes when text detection is on; [good]: the tokens it can take.) *)
Theorem Parse_lossless {U} (ev : events U) (R : U → list tok → Prop) reset quotes quoted ok good a b pre post rs u ts :
  handles ok good ev R reset → reset_keeps reset → pre ≠ [] → post ≠ [] → R u ts →
  txt_idle quotes a → txt_at quoted None b → (∀ r, ok r → unquoted quotes r ∧ unquoted quoted r) →
  Forall ok pre → Forall ok post → Forall ok rs →
  good (ts ++ (machine_run pre post reset quoted (Outside 0) rs).2) →
  ∃ u' p' ts', Parse ev rs u (nextparsing pre post a b) = Done (u', p') ∧ R u' (ts ++ ts') ∧
    text pre post ts' ++ held_runes p' = rs.
Proof.
  intros Hev Hg Hpre Hpost Hu Ha Hb Hq Hopre Hopost Hqs Hgood.
  assert (0 < length pre ∧ 0 < length post)%nat as [? ?] by (destruct pre, post; cbn; auto with lia; done).
  assert (∀ r, ok r → unquoted quotes r) as Hq1 by (intros; by apply Hq).
  destruct (Parse_machine ev R reset pre post quotes quoted ok good Hev Hq1 Hopre Hopost rs (Outside 0) u (nextparsing pre post a b) ts)
    as (u' & p' & E & Hp' & Hm' & Hu'); auto using nextparsing_for, nextparsing_at.
  destruct (machine_run_spec pre post reset quoted (Outside 0) rs) as [Hok Ht]; try done.
  { eapply Forall_impl; [|exact Hqs]. intros. by apply Hq. }
  exists u', p', (machine_run pre post reset quoted (Outside 0) rs).2. split; [done|]. split; [done|].
  by rewrite (held_runes_at quotes quoted pre post p' _ Hp' Hm').
Qed.

(** A client that records the tokens. *)
Definition recorder (again : bool) : events (list tok) :=
  MkEvents None
    (Some (λ rns u p, Done (u ++ map TLit rns, p)))
    (Some (λ u p, Done (u ++ [TOpen], p)))
    None
    (Some (λ c rns u p, Done (c && again, u ++ map TKey rns, p)))
    (Some (λ u p, Done (true, u ++ [TClose], p))).

Lemma recorder_handles ok again :
  handles ok (λ _, True) (recorder again) eq (if again then Some (λ l, l) else None).
Proof.
  split; [done|done|done|eexists; split; [done|]; intros rns u p ts _ _ -> _| |eexists; split; [done|]; intros c rns u p ts out _ _ -> _|
    eexists; split; [done|]; intros u p ts -> _].
  - eexists _. split; done.
  - intros u p ts -> _. eexists _. split; done.
  - eexists _. subst out. destruct again; [rewrite (bool_decide_eq_true_2 (is_Some _)) by eauto; by destruct c|].
    rewrite (bool_decide_eq_false_2 (is_Some _)) by by intros [? ?]. done.
  - eexists _, _. split; done.
Qed.

Lemma Parse_lossless_witness :
  ∃ u' p' ts', Parse (recorder true) [60; 37; 120; 37; 121; 60] []
      (nextparsing [60; 37] [37; 62] None None) = Done (u', p') ∧ u' = [] ++ ts' ∧
    text [60; 37] [37; 62] ts' ++ held_runes p' = [60; 37; 120; 37; 121; 60].
Proof.
  destruct (Parse_lossless (recorder true) eq (Some (λ l, l)) false false (λ _, True) (λ _, True) None None [60; 37] [37; 62] [60; 37; 120; 37; 121; 60] [] [])
    as (u' & p' & ts' & H1 & H2 & H3).
  - apply (recorder_handles _ true).
  - by intros g l [= <-].
  - done.
  - done.
  - done.
  - done.
  - done.
  - done.
  - by repeat constructor.
  - by repeat constructor.
  - by repeat constructor.
  - done.
  - exists u', p', ts'. split; [exact H1|]. split; [by symmetry|exact H3].
Defined.

(** ** Any client

    Whatever the callbacks do to their own state, the text states and the buffered
    runes, and whatever they answer, the parser does not panic, never parses a rune a
    third time and its positions stay inside its labels. *)

Record parser_ok (p : Parsing) : Prop := {
  po_preL : preL p = len (prelbl p);
  po_postL : postL p = len (postlbl p);
  po_prei : 0 ≤ prei p ≤ preL p;
  po_posti : 0 ≤ posti p;
  po_posti_lt : posti p = 0 ∨ posti p < postL p }.

Definition quiet_step (p p' : Parsing) : Prop := ∃ a b l, p' = set_bufdrns (set_txts p a b) l.

Record quiet {U} (ev : events U) : Prop := {
  q_pre f rns u p : EventPreRunes ev = Some f → ∃ u' p', f rns u p = Done (u', p') ∧ quiet_step p p';
  q_open f u p : EventMatchedPre ev = Some f → ∃ u' p', f u p = Done (u', p') ∧ quiet_step p p';
  q_post f c rns u p : EventPostRunes ev = Some f →
    ∃ b u' p', f c rns u p = Done (b, u', p') ∧ quiet_step p p';
  q_close f u p : EventMatchedPost ev = Some f →
    ∃ b u' p', f u p = Done (b, u', p') ∧ quiet_step p p' }.

Lemma quiet_refl p : quiet_step p p.
Proof. exists (pretxtprs p), (posttxtprs p), (bufdrns p). by destruct p. Qed.

Lemma quiet_ok p p' : quiet_step p p' → parser_ok p → parser_ok p'.
Proof. intros (a & b & l & ->) []. split; cbn; auto. Qed.

Lemma txts_ok p a b : parser_ok p → parser_ok (set_txts p a b).
Proof. intros []. split; cbn; auto. Qed.

(** The two moves of the positions. *)
Lemma pos_ok_pre p i v : parser_ok p → 0 ≤ i ≤ preL p → parser_ok (set_pos p i v (posti p)).
Proof. intros [] ?. split; cbn; auto. Qed.

Lemma pos_ok_reset p v : parser_ok p → parser_ok (set_pos p 0 v 0).
Proof. intros []. split; cbn; auto; lia. Qed.

Lemma pos_ok_post p v j : parser_ok p → 0 ≤ j < postL p → parser_ok (set_pos p (prei p) v j).
Proof. intros [] ?. split; cbn; auto; lia. Qed.

Lemma index_ok {A} (l : list A) i : 0 ≤ i < len l → ∃ x, index l i = Done x.
Proof.
  intros. destruct (lookup_lt_is_Some_2 l (Z.to_nat i)) as [x Hx]; [lia|].
  exists x. apply index_lookup; [lia|done].
Qed.

Section any_client.
Context {U : Type} (ev : events U) (Hq : quiet ev).

Lemma evtpre_ok rns u p : parser_ok p →
  ∃ u' p', evtpre ev rns u p = Done (u', p') ∧ parser_ok p' ∧ quiet_step p p'.
Proof.
  intros Hp. unfold evtpre. destruct (EventPreRunes ev) as [f|] eqn:E.
  - destruct (q_pre _ Hq f rns u p E) as (u' & p' & -> & Hs). eauto 6 using quiet_ok.
  - eauto 6 using quiet_refl.
Qed.

Lemma pre_text_ok r u p : parser_ok p →
  ∃ b u' p', pre_text ev r u p = Done (b, u', p') ∧ parser_ok p' ∧
    (b = false → prei p' = prei p ∧ posti p' = posti p ∧ preL p' = preL p).
Proof.
  intros Hp. unfold pre_text. destruct (txt_Parse (pretxtprs p) r) as [hit t].
  pose proof (txts_ok p t (posttxtprs p) Hp) as Hp1. destruct hit; [|by eexists _, _, _].
  destruct (EventPreRunes ev) as [f|] eqn:E; [|by eexists _, _, _]. destruct t as [t|]; [|by eexists _, _, _].
  destruct (q_pre _ Hq f [lstr t] u (set_txts p (Some t) (posttxtprs p)) E) as (u' & p' & -> & Hs). cbn [exec_bind].
  pose proof (quiet_ok _ _ Hs Hp1) as Hp'. eexists _, _, _. split; [done|]. split; [|done].
  apply pos_ok_pre; [done|]. destruct Hp'. lia.
Qed.

Lemma pre_broken_ok r p : parser_ok p → prei p < preL p → ∃ b, pre_broken r p = Done b.
Proof.
  intros [HL _ Hi _ _] Hlt. unfold pre_broken. destruct (Z.ltb_spec 0 (prei p)); [|eauto].
  destruct (index_ok (prelbl p) (prei p - 1)) as [a ->]; [lia|]. cbn [exec_bind].
  destruct (a =? prvr p); [|eauto]. destruct (index_ok (prelbl p) (prei p)) as [b ->]; [lia|]. cbn. eauto.
Qed.

Lemma pre_label_ok r u p : parser_ok p → prei p < preL p →
  ∃ b u' p', pre_label ev r u p = Done (b, u', p') ∧ parser_ok p' ∧ (b = false → prei p' < preL p').
Proof.
  intros Hp Hlt. unfold pre_label. destruct (pre_broken_ok r p Hp Hlt) as [b ->]. cbn [exec_bind].
  assert (∃ u1 p1, (if b then let* held := slice (prelbl p) 0 (prei p) in
      let* '(u', p') := evtpre ev held u p in Done (u', set_pos p' 0 0 (posti p')) else Done (u, p)) = Done (u1, p1) ∧
      parser_ok p1 ∧ prei p1 < preL p1) as (u1 & p1 & -> & Hp1 & Hlt1).
  { destruct b; [|eauto]. pose proof Hp as [HL _ Hi _ _]. rewrite slice_ok by lia. cbn [exec_bind].
    destruct (evtpre_ok (sub (prelbl p) 0 (prei p)) u p Hp) as (u' & p' & -> & Hp' & Hs). cbn [exec_bind].
    eexists _, _. split; [done|]. destruct Hs as (? & ? & ? & ->). split; [|cbn; lia].
    apply pos_ok_pre; [done|]. cbn. lia. }
  cbn [exec_bind]. pose proof Hp1 as [HL1 _ Hi1 _ _].
  destruct (index_ok (prelbl p1) (prei p1)) as [x ->]; [lia|]. cbn [exec_bind].
  destruct (x =? r); [|by eexists _, _, _]. destruct (Z.eqb_spec (prei p1 + 1) (preL p1)) as [E1|E1].
  - unfold evtmtchpre.
    assert (parser_ok (set_pos p1 (prei p1 + 1) (prvr p1) (posti p1))) as Hp2 by (apply pos_ok_pre; [done|lia]).
    destruct (EventMatchedPre ev) as [f|] eqn:E; cbn [exec_bind].
    + destruct (q_open _ Hq f u1 (set_pos p1 (prei p1 + 1) (prvr p1) (posti p1)) E) as (u' & p' & -> & Hs). cbn [exec_bind].
      eexists _, _, _. split; [done|]. split; [eapply quiet_ok, Hp2; exact Hs|done].
    + by eexists _, _, _.
  - eexists _, _, _. split; [done|]. split; [|done]. apply pos_ok_pre; [done|lia].
Qed.

Lemma pre_rune_ok r u p : parser_ok p → prei p < preL p →
  ∃ u' p', pre_rune ev r u p = Done (u', p') ∧ parser_ok p'.
Proof.
  intros Hp Hlt. pose proof Hp as [HL HP Hi Hj Hj']. unfold pre_rune. destruct (Z.ltb_spec 0 (prei p)).
  - destruct (EventPreRunes ev) as [f|] eqn:E.
    + rewrite slice_ok by lia. cbn [exec_bind].
      assert (parser_ok (set_prelbl p (blit (prelbl p) (prei p) [r]))) as Hp1.
      { split; cbn; auto. rewrite length_blit; [done|lia|cbn; lia]. }
      destruct (q_pre _ Hq f (sub (prelbl p) 0 (prei p) ++ [r]) u (set_prelbl p (blit (prelbl p) (prei p) [r])) E) as (u' & p' & -> & Hs). cbn [exec_bind].
      pose proof (quiet_ok _ _ Hs Hp1) as Hp'. eexists _, _. split; [done|].
      apply pos_ok_pre; [done|]. destruct Hp'. lia.
    + eexists _, _. split; [done|]. apply pos_ok_pre; [done|lia].
  - destruct (evtpre_ok [r] u (set_pos p (prei p) r (posti p))) as (u' & p' & -> & Hp' & _).
    + apply pos_ok_pre; [done|lia].
    + eauto.
Qed.

Lemma parse_pre_ok r u p : parser_ok p → prei p < preL p →
  ∃ u' p', parse_pre ev r u p = Done (u', p') ∧ parser_ok p'.
Proof.
  intros Hp Hlt. unfold parse_pre.
  destruct (pre_text_ok r u p Hp) as (b & u1 & p1 & -> & Hp1 & Hb). cbn [exec_bind].
  destruct b; [eauto|]. destruct (Hb eq_refl) as (E1 & E2 & E3).
  assert (∃ l u2 p2, (if CanPreParse ev u1 p1 then pre_label ev r u1 p1 else Done (false, u1, p1)) =
    Done (l, u2, p2) ∧ parser_ok p2 ∧ (l = false → prei p2 < preL p2)) as (l & u2 & p2 & -> & Hp2 & Hl).
  { destruct (CanPreParse ev u1 p1); [apply pre_label_ok; [done|lia]|].
    eexists _, _, _. split; [done|]. split; [done|lia]. }
  cbn [exec_bind]. destruct l; [eauto|]. apply pre_rune_ok; auto.
Qed.

Lemma evtpost_ok f c rns u p : EventPostRunes ev = Some f → parser_ok p →
  ∃ b u' p', evtpost f c rns u p = Done (b, u', p') ∧ parser_ok p' ∧
    (if b then prei p' = 0 ∧ posti p' = 0 else quiet_step p p').
Proof.
  intros E Hp. unfold evtpost. destruct (q_post _ Hq f c rns u p E) as (b & u' & p' & -> & Hs). cbn [exec_bind].
  eexists _, _, _. split; [done|]. pose proof (quiet_ok _ _ Hs Hp). destruct b; [|done].
  split; [by apply pos_ok_reset|done].
Qed.

Definition same_place (p p' : Parsing) : Prop :=
  prei p' = prei p ∧ posti p' = posti p ∧ preL p' = preL p ∧ postL p' = postL p.

Lemma post_text_ok r u p : parser_ok p →
  ∃ b u' p', post_text ev r u p = Done (b, u', p') ∧ parser_ok p' ∧ (b = false → same_place p p').
Proof.
  intros Hp. unfold post_text. destruct (txt_Parse (posttxtprs p) r) as [hit t].
  pose proof (txts_ok p (pretxtprs p) t Hp) as Hp1. destruct hit; [|by eexists _, _, _].
  destruct (EventPostRunes ev) as [f|] eqn:E; [|by eexists _, _, _]. destruct t as [t|]; [|by eexists _, _, _].
  destruct (evtpost_ok f false [lstr t] u _ E Hp1) as (b & u' & p' & -> & Hp' & _). cbn [exec_bind].
  by eexists _, _, _.
Qed.

Lemma post_label_ok r u p : parser_ok p → posti p < postL p →
  ∃ b u' p', post_label ev r u p = Done (b, u', p') ∧ parser_ok p' ∧ (b = false → same_place p p').
Proof.
  intros Hp Hlt. pose proof Hp as [HL HP Hi Hj _]. unfold post_label.
  destruct (CanPostParse ev u p); [|by eexists _, _, _].
  destruct (index_ok (postlbl p) (posti p)) as [x ->]; [lia|]. cbn [exec_bind].
  destruct (x =? r); [|by eexists _, _, _]. cbn [set_pos posti postL].
  destruct (Z.eqb_spec (posti p + 1) (postL p)).
  - destruct (EventMatchedPost ev) as [f|] eqn:E.
    + destruct (q_close _ Hq f u (set_pos p (prei p) (prvr p) (posti p + 1)) E) as (b & u' & p' & -> & Hs).
      cbn [exec_bind]. eexists _, _, _. split; [done|]. split; [|done].
      destruct Hs as (? & ? & ? & ->). destruct Hp. split; cbn; auto; lia.
    + eexists _, _, _. split; [done|]. split; [|done]. split; cbn; auto; lia.
  - eexists _, _, _. split; [done|]. split; [|done]. apply pos_ok_post; [done|lia].
Qed.

Lemma post_rune_ok again r u p :
  parser_ok p →
  (0 < posti p → ∀ u p, parser_ok p → prei p = 0 → posti p = 0 → ∃ u' p', again r u p = Done (u', p') ∧ parser_ok p') →
  ∃ u' p', post_rune ev again r u p = Done (u', p') ∧ parser_ok p'.
Proof.
  intros Hp Hag. pose proof Hp as [HL HP Hi Hj Hj']. unfold post_rune.
  destruct (EventPostRunes ev) as [f|] eqn:E; cycle 1.
  { eexists _, _. split; [done|]. destruct (0 <? posti p); [by apply pos_ok_reset|done]. }
  destruct (Z.ltb_spec 0 (posti p)); cycle 1.
  { destruct (evtpost_ok f false [r] u p E Hp) as (b & u' & p' & -> & Hp' & _). cbn. eauto. }
  rewrite slice_ok by lia. cbn [exec_bind].
  destruct (evtpost_ok f true (sub (postlbl p) 0 (posti p)) u p E Hp) as (b & u1 & p1 & -> & Hp1 & Hb).
  cbn [exec_bind]. destruct b; [destruct Hb; auto|].
  assert (parser_ok (set_pos p1 (prei p1) (prvr p1) 0)) as Hp2.
  { destruct Hp1. split; cbn; auto; lia. }
  destruct (evtpost_ok f false [r] u1 _ E Hp2) as (b & u' & p' & -> & Hp' & _). cbn. eauto.
Qed.

Lemma parse_ok fuel r u p :
  parser_ok p → (0 < posti p → (1 < fuel)%nat) → (0 < fuel)%nat →
  ∃ u' p', parse ev fuel r u p = Done (u', p') ∧ parser_ok p'.
Proof.
  revert u p. induction fuel as [|fuel IH]; intros u p Hp Hf Hf0; [lia|]. cbn [parse].
  pose proof Hp as [HL HP Hi Hj Hj'].
  destruct (Z.eqb_spec (posti p) 0) as [E0|E0], (Z.ltb_spec (prei p) (preL p)) as [El|El]; cbn [andb];
    [by apply parse_pre_ok| | |].
  all: destruct (Z.eqb_spec (prei p) (preL p)), (Z.ltb_spec (posti p) (postL p)) as [Ep|Ep]; cbn [andb]; try by eauto.
  all: destruct (post_text_ok r u p Hp) as (b & u1 & p1 & -> & Hp1 & Hb); cbn [exec_bind];
    destruct b; [by eauto|]; destruct (Hb eq_refl) as (E1 & E2 & E3 & E4);
    destruct (post_label_ok r u1 p1 Hp1) as (l & u2 & p2 & -> & Hp2 & Hl); [lia|]; cbn [exec_bind];
    destruct l; [by eauto|]; destruct (Hl eq_refl) as (F1 & F2 & F3 & F4);
    apply post_rune_ok; [done|]; intros Hpos u3 p3 Hp3 Hi3 Hj3; apply IH; [done|lia|lia].
Qed.

Lemma parse_runes_ok rns u p :
  parser_ok p → ∃ u' p', parse_runes ev rns u p = Done (u', p') ∧ parser_ok p'.
Proof.
  revert u p. induction rns as [|r rns IH]; intros u p Hp; cbn [parse_runes]; [eauto|].
  destruct (parse_ok 2 r u p Hp) as (u1 & p1 & E & Hp1); [lia|lia|].
  unfold parse_one. rewrite E. cbn [exec_bind]. auto.
Qed.
End any_client.

(** C18: whatever a client's callbacks do to their own state, to the text states
    and to the buffered runes, Parse does not panic, parses no rune a third time, and
    leaves a well-formed parser. *)
Theorem Parse_safe {U} (ev : events U) rns u p :
  quiet ev → parser_ok p → ∃ u' p', Parse ev rns u p = Done (u', p') ∧ parser_ok p'.
Proof.
  intros Hq Hp. unfold Parse. destruct (0 <? len (bufdrns p)); [|by apply parse_runes_ok].
  apply parse_runes_ok; [done|]. destruct Hp. split; cbn; auto.
Qed.

Lemma nextparsing_ok pre post a b : parser_ok (nextparsing pre post a b).
Proof. split; cbn; auto; lia. Qed.

Lemma recorder_quiet again : quiet (recorder again).
Proof.
  split; [intros f rns u p|intros f u p|intros f c rns u p|intros f u p]; intros [= <-];
    repeat eexists _; (split; [done|apply quiet_refl]).
Qed.

Lemma Parse_safe_witness :
  ∃ u' p', Parse (recorder true) [34; 60; 37; 34; 60; 37; 120] [] (nextparsing [60; 37] [37; 62] (Some new_text) None)
    = Done (u', p') ∧ parser_ok p'.
Proof. apply Parse_safe; [apply recorder_quiet|apply nextparsing_ok]. Defined.

(** A label begun before a quote is lost with text detection on: of [<] and a quoted
    text only the text comes out. *)
Example text_drops_label :
  (let* '(u, _) := Parse (recorder false) [60; 34; 97; 34] [] (nextparsing [60; 37] [37; 62] (Some new_text) None) in
   Done u) = Done (map TLit [34; 97; 34]).
Proof. reflexivity. Qed.

(** The end of the input does not flush what is held. *)
Example end_drops_label :
  (let* '(u, _) := Parse (recorder false) [97; 60] [] (nextparsing [60; 37] [37; 62] None None) in
   Done u) = Done (map TLit [97]).
Proof. reflexivity. Qed.

(** A [post] label whose first rune comes twice is not found. *)
Example post_label_missed :
  (let* '(u, _) := Parse (recorder false) [60; 37; 37; 37; 62] [] (nextparsing [60; 37] [37; 62] None None) in
   Done u) = Done [TOpen; TKey 37; TKey 37; TKey 62].
Proof. reflexivity. Qed.

(** A quoted text inside overtakes the part of a label held before it: of [%"5"] the
    [%] comes out after the text. *)
Example quote_overtakes_label :
  (let* '(u, _) := Parse (recorder false) [60; 37; 120; 37; 34; 53; 34; 59; 37; 62] []
     (nextparsing [60; 37] [37; 62] None (Some new_text)) in
   Done u) = Done [TOpen; TKey 120; TKey 34; TKey 53; TKey 34; TKey 37; TKey 59; TClose].
Proof. reflexivity. Qed.
