(* ===== verification/Attributes.v ===== *)
(** src/template/attributeparser.go: the attributes of an element, [name="value"] in
    any quotes, or between the marks [[$] and [$]].  The parser of labels (Parsing) hands
    it the runes outside and inside the marks; [validElemChar] is of content.go.

    What is found is given to the element that reads the attributes ([eventFoundValue]);
    here the calls are kept, in their order. *)

From S2P Require Import Prelude Runes Readers Parsing.
#[local] Open Scope Z_scope.

Inductive proplevel := AttribUknown | AttribName | AttribAssign | AttribValue | AttribInline | AttribContinue.

#[export] Instance proplevel_eq_dec : EqDecision proplevel.
Proof. solve_decision. Defined.

(** A call of [eventFoundValue]. *)
Record foundvalue := MkFound { fv_name : list Z; fv_value : list Z; fv_empty : bool }.

(** The state of the callbacks; [raw] holds every rune given to [Parse]. *)
Record attributeparser := MkAttr {
  txttst : option textparsing;
  raw : list Z;
  rawl : Z;
  invdl : bool;
  tstlvl : proplevel;
  tstname : list Z;
  tstvalue : list Z;
  tstprvr : Z;
  atvrnes : list Z;
  values : list foundvalue }.

Definition validElmchar (cr : Z) : bool :=
  ((97 <=? cr) && (cr <=? 122)) || ((65 <=? cr) && (cr <=? 90)) || (cr =? 58) || (cr =? 46) || (cr =? 45) || (cr =? 95)
  || ((48 <=? cr) && (cr <=? 57)).

(** [validElemChar], and whether it called its function for a space. *)
Definition validElemChar (prvr r : Z) : bool * bool :=
  if IsSpace r then (false, true)
  else (if 0 <? prvr then validElmchar prvr && validElmchar r else validElmchar r, false).

Definition validNameChar (prvr r : Z) : bool :=
  if IsSpace r then false
  else if 0 <? prvr then validElmchar prvr && validElmchar r else validElmchar r.

Definition set_level (a : attributeparser) (t : option textparsing) (l : proplevel) (n v : list Z) : attributeparser :=
  MkAttr t (raw a) (rawl a) (invdl a) l n v (tstprvr a) (atvrnes a) (values a).
Definition set_invdl (a : attributeparser) : attributeparser :=
  MkAttr (txttst a) (raw a) (rawl a) true (tstlvl a) (tstname a) (tstvalue a) (tstprvr a) (atvrnes a) (values a).
Definition set_txttst (a : attributeparser) (t : option textparsing) : attributeparser :=
  MkAttr t (raw a) (rawl a) (invdl a) (tstlvl a) (tstname a) (tstvalue a) (tstprvr a) (atvrnes a) (values a).

Definition ParseValue (a : attributeparser) (name value : list Z) (empty : bool) : attributeparser :=
  MkAttr (txttst a) (raw a) (rawl a) (invdl a) (tstlvl a) (tstname a) (tstvalue a) (tstprvr a) (atvrnes a)
    (values a ++ [MkFound name value empty]).

(** The value is complete: the next attribute may follow; the text detection of the
    label parser is switched off. *)
Definition next_attribute (a : attributeparser) : attributeparser :=
  MkAttr (txttst a) (raw a) (rawl a) (invdl a) AttribContinue [] [] 0 (atvrnes a) (values a).

(** One rune outside the marks: [true] when the loop over the runes goes on. *)
Definition passive_rune (r : Z) (a : attributeparser) (p : Parsing) : bool * attributeparser * Parsing :=
  match tstlvl a with
  | AttribUknown | AttribContinue =>
    let '(valid, space) := validElemChar (tstprvr a) r in
    if valid then (true, set_level a (txttst a) AttribName (tstname a ++ [r]) (tstvalue a), p)
    else if space then (true, a, p)
    else (false, set_invdl a, p)
  | AttribName =>
    let '(valid, space) := validElemChar (tstprvr a) r in
    if valid then (true, set_level a (txttst a) AttribName (tstname a ++ [r]) (tstvalue a), p)
    else if r =? 61 then (true, set_level a (txttst a) AttribAssign (tstname a) (tstvalue a), p)
    else if space then (true, a, p)
    else (false, set_invdl a, p)
  | AttribAssign =>
    if negb (isText (txttst a)) then
      if IsSpace r then (true, a, p)
      else
        let '(hit, t) := txt_Parse (txttst a) r in
        if (hit : bool) then (true, set_txttst a t, p) else (false, set_invdl (set_txttst a t), p)
    else
      let '(hit, t) := txt_Parse (txttst a) r in
      if hit && negb (isText t) then
        let a1 := next_attribute (set_txttst a t) in
        (true, ParseValue a1 (tstname a) (tstvalue a) (len (tstvalue a) =? 0), set_txts p None None)
      else (true, set_level a t AttribAssign (tstname a) (tstvalue a ++ [r]), p)
  | AttribValue | AttribInline => (true, a, p)
  end.

Fixpoint passive_runes (rns : list Z) (a : attributeparser) (p : Parsing) : attributeparser * Parsing :=
  match rns with
  | [] => (a, p)
  | r :: rns' => let '(go, a', p') := passive_rune r a p in if (go : bool) then passive_runes rns' a' p' else (a', p')
  end.

Definition passiveRunes (rns : list Z) (a : attributeparser) (p : Parsing) : exec (attributeparser * Parsing) :=
  Done (passive_runes rns a p).
Definition passiveDone (a : attributeparser) (p : Parsing) : exec (attributeparser * Parsing) := Done (a, p).

Definition set_atvrnes (a : attributeparser) (l : list Z) : attributeparser :=
  MkAttr (txttst a) (raw a) (rawl a) (invdl a) (tstlvl a) (tstname a) (tstvalue a) (tstprvr a) l (values a).

Definition activeRunes (canreset : bool) (rns : list Z) (a : attributeparser) (p : Parsing)
  : exec (bool * attributeparser * Parsing) :=
  if canreset then Done (true, a, p) else Done (false, set_atvrnes a (atvrnes a ++ rns), p).

Definition activeDone (a : attributeparser) (p : Parsing) : exec (bool * attributeparser * Parsing) :=
  if bool_decide (tstlvl a = AttribAssign) then
    let a1 := set_atvrnes (next_attribute a) [] in
    Done (false, ParseValue a1 (tstname a) (atvrnes a) (len (atvrnes a) =? 0), set_txts p None None)
  else
    let a1 := if 0 <? len (atvrnes a) then ParseValue a [] (atvrnes a) false else a in
    Done (false, set_atvrnes a1 [], p).

Definition attr_events : events attributeparser :=
  MkEvents None (Some passiveRunes) (Some passiveDone) None (Some activeRunes) (Some activeDone).

Definition AttrPre : list Z := [91; 36].
Definition AttrPost : list Z := [36; 93].

Definition nextattrbprsr (prelbl postlbl : list Z) : attributeparser * Parsing :=
  (MkAttr (Some new_text) [] 0 false AttribUknown [] [] 0 [] [], nextparsing prelbl postlbl None (Some new_text)).

Definition attr_Parse (rns : list Z) (a : attributeparser) (p : Parsing) : exec (attributeparser * Parsing) :=
  match rns with
  | [] => Done (a, p)
  | _ => Parse attr_events rns
           (MkAttr (txttst a) (raw a ++ rns) (rawl a + len rns) (invdl a) (tstlvl a) (tstname a) (tstvalue a) (tstprvr a)
              (atvrnes a) (values a)) p
  end.

(** [Close], and whether it called [eventDispose] ([dispose]: it was set). *)
Definition attr_Close (o : option (attributeparser * Parsing)) (dispose : bool)
  : option (attributeparser * option Parsing) * bool :=
  match o with
  | None => (None, false)
  | Some (a, p) =>
    (Some (MkAttr None [] (rawl a) (invdl a) (tstlvl a) (tstname a) (tstvalue a) (tstprvr a) [] (values a), None), dispose)
  end.

(** * Theory *)

(** ** Attributes as they are written *)

Record attribute := MkAttribute { at_name : list Z; at_quote : Z; at_value : list Z }.

Definition written (t : attribute) : list Z :=
  32 :: at_name t ++ 61 :: at_quote t :: at_value t ++ [at_quote t].

(** A value without its quote, except after a backslash, that does not end in one. *)
Fixpoint value_ok (q pv : Z) (v : list Z) : bool :=
  match v with
  | [] => negb (pv =? 92)
  | r :: v' => negb ((q =? r) && negb (pv =? 92)) && value_ok q r v'
  end.

Definition attribute_ok (t : attribute) : Prop :=
  at_name t ≠ [] ∧ Forall (λ r, validElmchar r = true) (at_name t) ∧ IsTxtPar (at_quote t) = true ∧
  value_ok (at_quote t) 0 (at_value t) = true ∧ 91 ∉ at_value t.

Definition found_of (t : attribute) : foundvalue := MkFound (at_name t) (at_value t) (len (at_value t) =? 0).

(** ** The parser outside the marks *)

(** The label parser before any mark. *)
Record outside_marks (p : Parsing) : Prop := {
  om_pre : prelbl p = AttrPre;
  om_preL : preL p = 2;
  om_prei : prei p = 0;
  om_posti : posti p = 0;
  om_txt : pretxtprs p = None;
  om_buf : bufdrns p = [] }.

Lemma parse_outside_marks r a p :
  outside_marks p → r ≠ 91 →
  parse_one attr_events r a p = Done (passive_runes [r] a (set_pos p 0 r 0)).
Proof.
  intros [E1 E2 E3 E4 E5 E6] Hr. unfold parse_one. cbn [parse]. rewrite E2, E3, E4. change ((0 =? 0) && (0 <? 2)) with true. cbv iota.
  unfold parse_pre, pre_text. rewrite E5. cbn [txt_Parse exec_bind].
  unfold CanPreParse. cbn [EventCanPreParse attr_events negb]. 
  assert (pretxtprs (set_txts p None (posttxtprs p)) = None) as -> by done. cbn [isText negb].
  assert (set_txts p None (posttxtprs p) = p) as -> by (rewrite <- E5; by destruct p).
  unfold pre_label, pre_broken. rewrite E3. change (0 <? 0) with false. cbv iota. cbn [exec_bind].
  rewrite E1, E3. change (index AttrPre 0) with (Done 91). cbn [exec_bind].
  rewrite (proj2 (Z.eqb_neq 91 r)) by congruence. cbn [exec_bind]. unfold pre_rune. rewrite E3. change (0 <? 0) with false. cbv iota.
  unfold evtpre. cbn [EventPreRunes attr_events]. unfold passiveRunes. by rewrite E4.
Qed.

Lemma passive_rune_parser r a p :
  outside_marks p → outside_marks (passive_rune r a p).2.
Proof.
  intros Hp. assert (outside_marks (set_txts p None None)) by (by destruct Hp).
  unfold passive_rune. repeat case_match; cbn; done.
Qed.

(** The state after a rune; it does not depend on the label parser. *)
Definition pass (a : attributeparser) (r : Z) : attributeparser := (passive_rune r a (nextparsing [] [] None None)).1.2.

Lemma passive_one r a p : ∃ p', passive_runes [r] a p = (pass a r, p') ∧ p' = (passive_rune r a p).2.
Proof.
  assert (pass a r = (passive_rune r a p).1.2) as -> by (unfold pass, passive_rune; repeat case_match; done).
  cbn. destruct (passive_rune r a p) as [[go a'] p']. by destruct go; exists p'.
Qed.

Lemma parse_runes_outside rs a p :
  outside_marks p → 91 ∉ rs →
  ∃ p', parse_runes attr_events rs a p = Done (fold_left pass rs a, p') ∧ outside_marks p'.
Proof.
  revert a p. induction rs as [|r rs IH]; intros a p Hp Hr; [by exists p|].
  apply not_elem_of_cons in Hr as [Hr Hrs]. cbn [parse_runes fold_left]. rewrite parse_outside_marks by congruence || done.
  assert (outside_marks (set_pos p 0 r 0)) as Hp1 by (by destruct Hp).
  destruct (passive_one r a (set_pos p 0 r 0)) as (p' & -> & ->). cbn [exec_bind].
  apply IH; [by apply passive_rune_parser|done].
Qed.

(** ** One attribute *)

(** Ready for the next attribute. *)
Record awaits (a : attributeparser) : Prop := {
  aw_level : tstlvl a = AttribUknown ∨ tstlvl a = AttribContinue;
  aw_name : tstname a = [];
  aw_value : tstvalue a = [];
  aw_prvr : tstprvr a = 0;
  aw_text : ∃ l, txttst a = Some (MkText 0 0 0 l) }.

Lemma valid_name_char r : validElmchar r = true → validElemChar 0 r = (true, false).
Proof.
  intros Hr. unfold validElemChar. change (0 <? 0) with false. cbv iota. rewrite Hr.
  assert (IsSpace r = false) as ->; [|done]. unfold validElmchar in Hr. unfold IsSpace.
  assert (45 <= r < 128) as Hb by (revert Hr; repeat zcase; simpl; intros; try done; lia).
  rewrite (proj2 (Z.ltb_ge 128 r)) by lia. rewrite ?orb_false_r. unfold asciiSpace. cbn [existsb].
  repeat match goal with |- context [r =? ?k] => rewrite (proj2 (Z.eqb_neq r k)) by lia end. done.
Qed.

Definition in_name (a : attributeparser) (n : list Z) : attributeparser := set_level a (txttst a) AttribName n (tstvalue a).

Lemma pass_name n a m :
  tstprvr a = 0 → Forall (λ r, validElmchar r = true) n → fold_left pass n (in_name a m) = in_name a (m ++ n).
Proof.
  intros Hp Hn. revert m. induction Hn as [|r n Hr Hn IH]; intros m; [by rewrite app_nil_r|]. cbn [fold_left].
  assert (pass (in_name a m) r = in_name a (m ++ [r])) as ->.
  { unfold pass, passive_rune. cbn [in_name set_level tstlvl tstprvr]. by rewrite Hp, (valid_name_char r Hr). }
  rewrite IH. by rewrite <- app_assoc.
Qed.

Definition in_value (a : attributeparser) (n : list Z) (q pv l : Z) (v : list Z) : attributeparser :=
  set_level a (Some (MkText 0 q pv l)) AttribAssign n v.

Lemma pass_value q a n v pv l w :
  0 < q → value_ok q pv v = true →
  ∃ pv' l', fold_left pass v (in_value a n q pv l w) = in_value a n q pv' l' (w ++ v) ∧ pv' ≠ 92.
Proof.
  intros Hq. revert pv l w. induction v as [|r v IH]; intros pv l w Hv.
  - exists pv, l. rewrite app_nil_r. split; [done|]. cbn in Hv. apply negb_true_iff, Z.eqb_neq in Hv. done.
  - cbn [value_ok] in Hv. apply andb_true_iff in Hv as [Hr Hv]. apply negb_true_iff in Hr. cbn [fold_left].
    assert (pass (in_value a n q pv l w) r = in_value a n q r r (w ++ [r])) as ->.
    { unfold pass, passive_rune. cbn [in_value set_level tstlvl txttst isText txtr]. rewrite (proj2 (Z.ltb_lt 0 q)) by done. cbn [negb].
      unfold txt_Parse. cbn [txtr txt_prvr alttxtr]. rewrite (proj2 (Z.eqb_neq q 0)) by lia. rewrite Hr. cbn [isText txtr].
      rewrite (proj2 (Z.ltb_lt 0 q)) by done. done. }
    destruct (IH r r (w ++ [r]) Hv) as (pv' & l' & -> & Hne). exists pv', l'. split; [|done]. by rewrite <- app_assoc.
Qed.

Lemma pass_attribute t a :
  awaits a → attribute_ok t →
  awaits (fold_left pass (written t) a) ∧
  values (fold_left pass (written t) a) = values a ++ [found_of t] ∧ invdl (fold_left pass (written t) a) = invdl a
  ∧ raw (fold_left pass (written t) a) = raw a.
Proof.
  intros [Hl Hn Hv Hp (l & Ht)] (Hne & Hname & Hq & Hval & _). pose proof (IsTxtPar_pos _ Hq) as Hq0.
  unfold written. cbn [fold_left]. assert (pass a 32 = a) as ->.
  { unfold pass, passive_rune. rewrite Hp. by destruct Hl as [-> | ->]. }
  rewrite fold_left_app. destruct (at_name t) as [|c n] eqn:En; [done|]. inversion Hname as [|? ? Hc Hname']; subst.
  cbn [fold_left]. assert (pass a c = in_name a [c]) as ->.
  { unfold pass, passive_rune. rewrite Hp, (valid_name_char c Hc), Hn. by destruct Hl as [-> | ->]. }
  rewrite (pass_name n a [c] Hp Hname'). cbn [app].
  assert (pass (in_name a (c :: n)) 61 = set_level a (txttst a) AttribAssign (c :: n) (tstvalue a)) as ->.
  { unfold pass, passive_rune. cbn [in_name set_level tstlvl tstprvr]. rewrite Hp. done. }
  assert (pass (set_level a (txttst a) AttribAssign (c :: n) (tstvalue a)) (at_quote t) = in_value a (c :: n) (at_quote t) 0 (at_quote t) []) as ->.
  { unfold pass, passive_rune. cbn [set_level tstlvl txttst]. rewrite Ht. cbn [isText txtr]. change (0 <? 0) with false. cbn [negb].
    assert (IsSpace (at_quote t) = false) as ->.
    { unfold IsTxtPar in Hq. apply existsb_exists in Hq as (x & Hx & ->%Z.eqb_eq). by repeat destruct Hx as [<-|Hx]. }
    unfold txt_Parse. cbn [txtr]. rewrite Z.eqb_refl, Hq. cbn [isText txtr]. rewrite (proj2 (Z.ltb_lt 0 _)) by done.
    cbn [fst snd]. unfold in_value, set_txttst, set_level. cbn. by rewrite Hv. }
  rewrite fold_left_app. destruct (pass_value (at_quote t) a (c :: n) (at_value t) 0 (at_quote t) [] Hq0 Hval) as (pv & l' & -> & Hpv).
  cbn [app fold_left].
  assert (pass (in_value a (c :: n) (at_quote t) pv l' (at_value t)) (at_quote t) =
    ParseValue (next_attribute (set_txttst (in_value a (c :: n) (at_quote t) pv l' (at_value t)) (Some (MkText 0 0 0 (at_quote t)))))
      (c :: n) (at_value t) (len (at_value t) =? 0)) as ->.
  { unfold pass, passive_rune. cbn [in_value set_level tstlvl txttst isText txtr]. rewrite (proj2 (Z.ltb_lt 0 _)) by done. cbn [negb].
    unfold txt_Parse. cbn [txtr txt_prvr alttxtr]. rewrite (proj2 (Z.eqb_neq (at_quote t) 0)) by lia.
    rewrite Z.eqb_refl, (proj2 (Z.eqb_neq pv 92)) by done. done. }
  split; [|split; [|done]].
  - split; cbn; auto. by eexists.
  - cbn. unfold found_of. by rewrite En.
Qed.

Lemma pass_attributes ts a :
  awaits a → Forall attribute_ok ts →
  awaits (fold_left pass (concat (map written ts)) a) ∧
  values (fold_left pass (concat (map written ts)) a) = values a ++ map found_of ts ∧
  invdl (fold_left pass (concat (map written ts)) a) = invdl a ∧ raw (fold_left pass (concat (map written ts)) a) = raw a.
Proof.
  intros Ha Hts. revert a Ha. induction Hts as [|t ts Ht Hts IH]; intros a Ha; [cbn; by rewrite app_nil_r|].
  cbn [map concat]. rewrite fold_left_app. destruct (pass_attribute t a Ha Ht) as (Ha1 & Hv1 & Hi1 & Hr1).
  destruct (IH _ Ha1) as (Ha2 & Hv2 & Hi2 & Hr2). rewrite Hv2, Hv1, Hi2, Hi1, Hr2, Hr1. split; [done|]. by rewrite <- app_assoc.
Qed.

Lemma written_no_mark t : attribute_ok t → 91 ∉ written t.
Proof.
  intros (_ & Hn & Hq & _ & Hv). unfold written. rewrite not_elem_of_cons, not_elem_of_app, !not_elem_of_cons, not_elem_of_app, list_elem_of_singleton.
  assert (at_quote t ≠ 91) as Hq91 by (intros E; rewrite E in Hq; done).
  split; [done|]. split; [|split; [done|split; [congruence|split; [done|congruence]]]].
  intros Hin. rewrite Forall_forall in Hn. apply list_elem_of_In in Hin. by specialize (Hn 91 Hin).
Qed.

(** Attributes written as names with values in quotes are found one by one in
    their order, each with its name and the text of its value - escaped quotes kept as
    they are written -, whatever quotes are used; nothing else is found, the text is not
    invalid, and the raw text is kept. *)
Theorem attributes_found ts :
  Forall attribute_ok ts → ts ≠ [] →
  ∃ a p, attr_Parse (concat (map written ts)) (nextattrbprsr AttrPre AttrPost).1 (nextattrbprsr AttrPre AttrPost).2 = Done (a, p) ∧
    values a = map found_of ts ∧ invdl a = false ∧ raw a = concat (map written ts) ∧ tstname a = [].
Proof.
  intros Hts Hne. set (text := concat (map written ts)).
  assert (text ≠ []) as Htext by (destruct ts; [done|discriminate]).
  assert (91 ∉ text) as Hno.
  { clear Hne Htext. unfold text. induction Hts as [|t ts Ht Hts IH]; [apply not_elem_of_nil|].
    cbn [map concat]. apply not_elem_of_app. split; [by apply written_no_mark|exact IH]. }
  unfold attr_Parse. destruct text as [|r text'] eqn:Et; [done|]. rewrite <- Et in *. clear Et Htext.
  unfold Parse. change (len (bufdrns (nextattrbprsr AttrPre AttrPost).2)) with 0. change (0 <? 0) with false. cbv iota.
  set (a0 := MkAttr _ _ _ _ _ _ _ _ _ _).
  destruct (parse_runes_outside text a0 (nextattrbprsr AttrPre AttrPost).2) as (p & -> & _); [done|done|].
  assert (awaits a0) as Ha0 by (split; cbn; auto; by eexists).
  destruct (pass_attributes ts a0 Ha0 Hts) as (Ha & Hv & Hi & Hr). fold text in Ha, Hv, Hi, Hr.
  eexists _, p. split; [done|]. rewrite Hv, Hi, Hr. split; [done|]. split; [done|]. split; [done|]. by destruct Ha.
Qed.

(** * Instances *)

(** A name in each kind of quotes, an escaped and a foreign quote in the second. *)
Definition demo_attributes : list attribute :=
  [MkAttribute [97] 34 [120]; MkAttribute [98] 39 [121; 92; 39; 34]; MkAttribute [99] 96 []].

Lemma attributes_found_witness :
  ∃ a p, attr_Parse (concat (map written demo_attributes)) (nextattrbprsr AttrPre AttrPost).1 (nextattrbprsr AttrPre AttrPost).2 = Done (a, p) ∧
    values a = [MkFound [97] [120] false; MkFound [98] [121; 92; 39; 34] false; MkFound [99] [] true] ∧ invdl a = false ∧
    raw a = concat (map written demo_attributes) ∧ tstname a = [].
Proof.
  apply (attributes_found demo_attributes); [|done].
  repeat (constructor; [split; [done|split; [by repeat constructor|split; [done|split; [done|]]]]; cbn; by repeat (apply not_elem_of_cons; split); try apply not_elem_of_nil|]). constructor.
Defined.

(** Names without a value run together: a, then b with the value x, is the attribute ab. *)
Example names_run_together :
  (let* '(a, _) := attr_Parse [32; 97; 32; 98; 61; 34; 120; 34] (nextattrbprsr AttrPre AttrPost).1 (nextattrbprsr AttrPre AttrPost).2 in
   Done (values a)) = Done [MkFound [97; 98] [120] false].
Proof. reflexivity. Qed.

(** A [$] in a value between marks is lost, and ends it: [ a=[$x$y$]] finds nothing. *)
Example dollar_in_marks :
  (let* '(a, _) := attr_Parse [32; 97; 61; 91; 36; 120; 36; 121; 36; 93] (nextattrbprsr AttrPre AttrPost).1 (nextattrbprsr AttrPre AttrPost).2 in
   Done (values a, atvrnes a, invdl a)) = Done ([], [120], true).
Proof. reflexivity. Qed.

(** A value between marks is found, its quotes as they are when they are paired; a lone
    quote hides the end mark. *)
Example value_in_marks :
  (let* '(a, _) := attr_Parse [32; 97; 61; 91; 36; 39; 120; 39; 36; 93] (nextattrbprsr AttrPre AttrPost).1 (nextattrbprsr AttrPre AttrPost).2 in
   Done (values a)) = Done [MkFound [97] [39; 120; 39] false].
Proof. reflexivity. Qed.
