(* ===== verification/Parameters.v ===== *)
(** src/parameters/parameters.go: the parameters of a request, by name, as text values
    and as files.  Names are compared trimmed and in upper case ([norm]).

    Strings are their bytes.  A [sync.Map] is a finite map, [Range] goes over it in the
    order of [map_to_list]; of the maps of the net/url and mime/multipart packages the
    order in which [range] goes over them is an argument.  The files are shared: the
    slices hold pointers, here positions in [fheap]; what the file of a header delivers
    when it is opened is part of the header. *)

From S2P Require Import Prelude Runes GoStrings Readers.
From stdpp Require Import gmap.
#[local] Open Scope Z_scope.

(** ** file *)

(** A multipart.FileHeader: [Open] fails, or gives a file with these bytes that ends
    with this error. *)
Record FileHeader := MkHeader {
  Filename : list Z;
  hdr_Size : Z;
  hdr_open : goerr + list Z * goerr }.

(** An open file: what is left of it. *)
Record osfile := MkOsFile { f_rest : list Z; f_end : goerr }.

#[export] Instance osfile_reader : ByteReader osfile := λ f n,
  match f_rest f with
  | [] => Done ([], Some (f_end f), f)
  | _ => Done (take (Z.to_nat n) (f_rest f), None, MkOsFile (drop (Z.to_nat n) (f_rest f)) (f_end f))
  end.

Record file := MkFile {
  name : list Z;
  size : Z;
  orgrdr : option osfile;
  flhdr : option FileHeader;
  mimehdr : option (list (list Z * list Z));
  fclosed : bool }.

Definition nextfile (h : FileHeader) : file := MkFile (Filename h) (hdr_Size h) None (Some h) None false.

Definition file_Close (o : option file) : option file :=
  match o with
  | None => None
  | Some f => Some (MkFile (name f) (size f) None None None (match orgrdr f with Some _ => true | None => fclosed f end))
  end.
Definition file_Header (o : option file) := match o with None => None | Some f => mimehdr f end.
Definition file_Size (o : option file) : Z := match o with None => 0 | Some f => size f end.
Definition file_Name (o : option file) : list Z := match o with None => [] | Some f => name f end.

(** [Reader]: the open file, which is opened at the first call; a header that does not
    open gives a reader that only reports the error. *)
Definition file_Reader (o : option file) : osfile * option file :=
  match o with
  | None => (MkOsFile [] EOF, None)
  | Some f =>
    match orgrdr f with
    | Some r => (r, o)
    | None =>
      match flhdr f with
      | Some h =>
        match hdr_open h with
        | inl e => (MkOsFile [] e, o)
        | inr (bs, e) =>
          let r := MkOsFile bs e in
          (r, Some (MkFile (name f) (size f) (Some r) (flhdr f) (mimehdr f) (fclosed f)))
        end
      | None => (MkOsFile [] EOF, o)
      end
    end
  end.

(** What reading leaves in an open file. *)
Definition put_back (f : file) (r : osfile) : file :=
  match orgrdr f with
  | Some _ => MkFile (name f) (size f) (Some r) (flhdr f) (mimehdr f) (fclosed f)
  | None => f
  end.

(** ** parameters *)

(** The values of [filesdata]: slices of files, or the slice of another type that
    [SetFile] stores for a name without files. *)
Inductive fileval := FileSlice (fs : list nat) | AnySlice.

Record parameters := MkParams {
  urlkeys : option (gmap (list Z) bool);
  standard : option (gmap (list Z) (list (list Z)));
  standardcount : Z;
  filesdata : option (gmap (list Z) fileval);
  filesdatacount : Z;
  fheap : list file }.

Definition set_standard (p : parameters) (u : option (gmap (list Z) bool)) (s : option (gmap (list Z) (list (list Z)))) (c : Z) :=
  MkParams u s c (filesdata p) (filesdatacount p) (fheap p).
Definition set_files (p : parameters) (f : option (gmap (list Z) fileval)) (c : Z) (h : list file) :=
  MkParams (urlkeys p) (standard p) (standardcount p) f c h.

Definition NewParameters : parameters := MkParams None None 0 None 0 [].

Section params.
Context `{UnicodeCase}.

(** [strings.ToUpper(strings.TrimSpace(pname))] *)
Definition norm (pname : list Z) : list Z := encode_all (ToUpper (TrimSpace (utf8.runes pname))).

(** [Keys]: a slice of [standardcount] names, filled while there are names. *)
Definition fill_keys (count : Z) (ks : list (list Z)) : exec (list (list Z)) :=
  if count <? 0 then Panic
  else Done (take (Z.to_nat count) ks ++ replicate (Z.to_nat count - length ks) []).

Definition Keys (o : option parameters) : exec (list (list Z)) :=
  match o with
  | Some p =>
    match standard p with
    | Some m => if 0 <? standardcount p then fill_keys (standardcount p) (map fst (map_to_list m)) else Done []
    | None => Done []
    end
  | None => Done []
  end.

Definition FileKeys (o : option parameters) : exec (list (list Z)) :=
  match o with
  | Some p =>
    match filesdata p with
    | Some m => if 0 <? filesdatacount p then fill_keys (filesdatacount p) (map fst (map_to_list m)) else Done []
    | None => Done []
    end
  | None => Done []
  end.

Definition storeParameter (o : option parameters) (isurl : bool) (pname : list Z) (clear : bool)
    (pvalue : list (list Z)) : option parameters :=
  let pname := norm pname in
  if bool_decide (pname = []) then o
  else
    match o with
    | None => None
    | Some p =>
      let u := default ∅ (urlkeys p) in
      let m := default ∅ (standard p) in
      match m !! pname with
      | Some val =>
        let '(val1, u1) := if clear then ([], delete pname u) else (val, u) in
        let '(val2, u2) := if 0 <? len pvalue then (val1 ++ pvalue, <[pname := isurl]> u1) else (val1, u1) in
        Some (set_standard p (Some u2) (Some (<[pname := val2]> m)) (standardcount p))
      | None =>
        let u1 := if 0 <? len pvalue then <[pname := isurl]> u else u in
        Some (set_standard p (Some u1) (Some (<[pname := pvalue]> m)) (standardcount p + 1))
      end
    end.

Definition Set_ (o : option parameters) (pname : list Z) (clear : bool) (pvalue : list (list Z)) :=
  storeParameter o false pname clear pvalue.

(** The methods that do not look at the receiver first go through a nil pointer. *)
Definition Exist (o : option parameters) (pname : list Z) : exec bool :=
  let pname := norm pname in
  if bool_decide (pname = []) then Done false
  else match o with
       | None => Panic
       | Some p => Done match standard p with Some m => bool_decide (is_Some (m !! pname)) | None => false end
       end.

Inductive ptype := NoType | UrlType | StdType.

Definition Type_ (o : option parameters) (pname : list Z) : exec ptype :=
  let pname := norm pname in
  if bool_decide (pname = []) then Done NoType
  else match o with
       | None => Panic
       | Some p =>
         match urlkeys p, standard p with
         | None, None => Done NoType
         | None, Some _ => Panic
         | Some u, s =>
           match u !! pname with
           | Some true => Done UrlType
           | _ => match s with
                  | Some m => Done (if bool_decide (is_Some (m !! pname)) then StdType else NoType)
                  | None => Panic
                  end
           end
         end
       end.

Definition Remove (o : option parameters) (pname : list Z) : exec (list (list Z) * option parameters) :=
  let pname := norm pname in
  if bool_decide (pname = []) then Done ([], o)
  else match o with
       | None => Panic
       | Some p =>
         match standard p with
         | None => Done ([], o)
         | Some m =>
           match m !! pname with
           | Some v => Done (v, Some (set_standard p (delete pname <$> urlkeys p) (Some (delete pname m)) (standardcount p - 1)))
           | None => Done ([], o)
           end
         end
       end.

(** [Empty] and [FilesEmpty] end in [return true]. *)
Definition Empty (o : option parameters) : bool := true.
Definition FilesEmpty (o : option parameters) : bool :=
  match o with
  | Some p => match filesdata p with None => true | Some _ => true end
  | None => true
  end.

(** An argument of [SetFile]: a header, or something that is left out. *)
Inductive filearg := AHeader (h : FileHeader) | ANoHeader.

Definition add_headers (heap : list file) (pfile : list filearg) : list nat * list file :=
  fold_left (λ acc a, match a with
                      | AHeader h => (acc.1 ++ [length acc.2], acc.2 ++ [nextfile h])
                      | ANoHeader => acc
                      end) pfile ([], heap).

Definition SetFile (o : option parameters) (pname : list Z) (clear : bool) (pfile : list filearg) : option parameters :=
  match o with
  | None => None
  | Some p =>
    let pname := norm pname in
    if bool_decide (pname = []) then o
    else
      let m := default ∅ (filesdata p) in
      let '(ids, heap) := add_headers (fheap p) pfile in
      match m !! pname with
      | Some fval =>
        let val := if clear then [] else match fval with FileSlice l => l | AnySlice => [] end in
        Some (set_files p (Some (<[pname := FileSlice (val ++ ids)]> m)) (filesdatacount p) heap)
      | None =>
        Some (set_files p (Some (<[pname := if 0 <? len pfile then FileSlice ids else AnySlice]> m))
                (filesdatacount p + 1) heap)
      end
  end.

Definition FileExist (o : option parameters) (pname : list Z) : bool :=
  match o with
  | None => false
  | Some p =>
    let pname := norm pname in
    if bool_decide (pname = []) then false
    else match filesdata p with Some m => bool_decide (is_Some (m !! pname)) | None => false end
  end.

Definition RemoveFile (o : option parameters) (pname : list Z) : exec (list nat * option parameters) :=
  let pname := norm pname in
  if bool_decide (pname = []) then Done ([], o)
  else match o with
       | None => Panic
       | Some p =>
         match filesdata p with
         | None => Done ([], o)
         | Some m =>
           match m !! pname with
           | Some v => Done (match v with FileSlice l => l | AnySlice => [] end,
                             Some (set_files p (Some (delete pname m)) (filesdatacount p - 1) (fheap p)))
           | None => Done ([], o)
           end
         end
       end.

(** The values at the indices that are in range; none of them in range gives none. *)
Definition pick {A} (vals : list A) (idx : list Z) : list A :=
  match idx with
  | [] => vals
  | _ => omap (λ i, if (0 <=? i) && (i <? len vals) then vals !! Z.to_nat i else None) idx
  end.

Definition Get (o : option parameters) (pname : list Z) (idx : list Z) : list (list Z) :=
  match o with
  | None => []
  | Some p =>
    let pname := norm pname in
    if bool_decide (pname = []) then []
    else match standard p with
         | Some m => match m !! pname with Some v => pick v idx | None => [] end
         | None => []
         end
  end.

Definition GetFile (o : option parameters) (pname : list Z) (idx : list Z) : list nat :=
  match o with
  | None => []
  | Some p =>
    let pname := norm pname in
    if bool_decide (pname = []) then []
    else match filesdata p with
         | Some m => match m !! pname with Some (FileSlice v) => pick v idx | _ => [] end
         | None => []
         end
  end.

(** [rnrtos]: the runes of a file as a string, in pieces of 1024. *)
Fixpoint rnrtos (fuel : nat) (b : bufio) (r : osfile) (bs rns : list Z) : exec (list Z * option goerr * osfile) :=
  match fuel with
  | O => NoFuel
  | S fuel' =>
    let* '(rn, sz, rnerr, b', r') := bufio_ReadRune 4096 b r in
    let '(bs1, rns1) := if 0 <? sz then push_rune 1024 rn bs rns else (bs, rns) in
    match rnerr with
    | Some e => Done (bs1 ++ rns1, match e with EOF => None | _ => Some e end, r')
    | None => rnrtos fuel' b' r' bs1 rns1
    end
  end.

(** The files of a parameter read one after the other, with the separator between
    them; an error ends it. *)
Fixpoint read_files (fuel : nat) (heap : list file) (ids : list nat) (sep s : list Z) : exec (list Z * list file) :=
  match ids with
  | [] => Done (s, heap)
  | i :: ids' =>
    let* f := index heap (Z.of_nat i) in
    let '(r, of_) := file_Reader (Some f) in
    let f1 := default f of_ in
    let* '(bs, e, r') := rnrtos fuel bufio_new r [] [] in
    let heap1 := <[i := put_back f1 r']> heap in
    match e with
    | Some _ => Done (s, heap1)
    | None =>
      let s1 := s ++ encode_all bs in
      read_files fuel heap1 ids' sep (match ids' with [] => s1 | _ => s1 ++ sep end)
    end
  end.

Definition String_ (fuel : nat) (o : option parameters) (pname sep : list Z) (idx : list Z)
  : exec (list Z * option parameters) :=
  match o with
  | None => Done ([], None)
  | Some p =>
    let pval := Get o pname idx in
    if 0 <? len pval then Done (GoStrings.Join pval sep, o)
    else
      let ids := GetFile o pname idx in
      let* '(s, heap) := read_files fuel (fheap p) ids sep [] in
      Done (s, Some (set_files p (filesdata p) (filesdatacount p) heap))
  end.

(** [Clear] and [ClearFiles] drop the maps; the files in them are asked whether they
    are a File, which a slice is not, so that none is closed. *)
Definition Clear (o : option parameters) : option parameters :=
  match o with
  | None => None
  | Some p => match standard p with Some _ => Some (set_standard p None None 0) | None => o end
  end.
Definition ClearFiles (o : option parameters) : option parameters :=
  match o with
  | None => None
  | Some p => match filesdata p with Some _ => Some (set_files p None 0 (fheap p)) | None => o end
  end.
Definition ClearAll (o : option parameters) : option parameters := ClearFiles (Clear o).

(** ** Loading *)

Definition ishex (c : Z) : bool :=
  ((48 <=? c) && (c <=? 57)) || ((97 <=? c) && (c <=? 102)) || ((65 <=? c) && (c <=? 70)).
Definition unhex (c : Z) : Z :=
  if (48 <=? c) && (c <=? 57) then c - 48
  else if (97 <=? c) && (c <=? 102) then c - 97 + 10
  else c - 65 + 10.

(** [url.QueryUnescape]: [None] for a broken escape. *)
Fixpoint QueryUnescape (s : list Z) : option (list Z) :=
  match s with
  | [] => Some []
  | c :: s' =>
    if c =? 37 then
      match s' with
      | a :: b :: s'' => if ishex a && ishex b then cons (16 * unhex a + unhex b) <$> QueryUnescape s'' else None
      | _ => None
      end
    else cons (if c =? 43 then 32 else c) <$> QueryUnescape s'
  end.

(** [url.ParseQuery]: the values by name, and whether there was an error. *)
Definition parse_pair (acc : gmap (list Z) (list (list Z)) * bool) (part : list Z) : gmap (list Z) (list (list Z)) * bool :=
  if contains_rune part 59 then (acc.1, true)
  else if bool_decide (part = []) then acc
  else
    let '(k, v, _) := Cut part 61 in
    match QueryUnescape k, QueryUnescape v with
    | Some k', Some v' => (<[k' := default [] (acc.1 !! k') ++ [v']]> acc.1, acc.2)
    | _, _ => (acc.1, true)
    end.
Definition ParseQuery (q : list Z) : gmap (list Z) (list (list Z)) * bool := fold_left parse_pair (Split q 38) (∅, false).

(** The pairs of a map in the order in which [range] goes over it. *)
Context (range : gmap (list Z) (list (list Z)) → list (list Z * list (list Z))).

Definition load_values (isurl : bool) (o : option parameters) (kvs : list (list Z * list (list Z))) : option parameters :=
  fold_left (λ o kv, storeParameter o isurl kv.1 false kv.2) kvs o.

(** The parts of a query with a [=], joined again, each with the [&] after it but the
    last. *)
Definition with_value (rawURL : list Z) : list Z :=
  let raw := concat (map (λ p, if bool_decide (p = []) then [] else if contains_rune p 61 then p ++ [38] else [])
                         (Split (Replace rawURL 59 [37; 51; 98]) 38)) in
  if (1 <? len raw) && (List.last raw 0 =? 38) then removelast raw else raw.

Definition LoadParametersFromRawURL (o : option parameters) (rawURL : list Z) : option parameters :=
  match o with
  | None => None
  | Some _ =>
    if bool_decide (rawURL = []) then o
    else
      let '(vals, e) := ParseQuery (with_value rawURL) in
      if (e : bool) then o else load_values true o (range vals)
  end.

Definition LoadParametersFromUrlValues (o : option parameters) (urlvalues : option (gmap (list Z) (list (list Z))))
  : option parameters :=
  match o, urlvalues with
  | Some _, Some vals => load_values false o (range vals)
  | _, _ => o
  end.

(** A multipart.Form: its values and its files by name, in the order [range] goes over
    them. *)
Record Form := MkForm {
  form_Value : gmap (list Z) (list (list Z));
  form_File : list (list Z * list FileHeader) }.

Definition LoadParametersFromMultipartForm (o : option parameters) (mpartform : option Form) : option parameters :=
  match o, mpartform with
  | Some _, Some f =>
    fold_left (λ o kf, if 0 <? len kf.2 then SetFile o kf.1 false (map AHeader kf.2) else o)
      (form_File f) (load_values false o (range (form_Value f)))
  | _, _ => o
  end.

(** What the net/http package makes of the request: whether [ParseMultipartForm] and,
    if it failed, [ParseForm] succeed, and the forms they leave. *)
Record Request := MkRequest {
  RawQuery : option (list Z);
  multipart_ok : bool;
  MultipartForm : option Form;
  form_ok : bool;
  Form_ : option (gmap (list Z) (list (list Z))) }.

Definition LoadParametersFromHTTPRequest (o : option parameters) (r : Request) : option parameters :=
  match o with
  | None => None
  | Some _ =>
    let o1 := match RawQuery r with Some q => LoadParametersFromRawURL o q | None => o end in
    if multipart_ok r then
      match MultipartForm r with
      | Some f => LoadParametersFromMultipartForm o1 (Some f)
      | None => match Form_ r with Some vals => LoadParametersFromUrlValues o1 (Some vals) | None => o1 end
      end
    else if form_ok r then LoadParametersFromUrlValues o1 (Form_ r)
    else o1
  end.
End params.

(** * Theory *)

Section theory.
Context `{UnicodeCase}.

(** ** Names *)

Lemma ToUpper_valid s : valid_runes s → valid_runes (ToUpper s).
Proof.
  intros Hs. unfold ToUpper. apply Forall_fmap. apply Forall_forall. intros r Hr%(proj1 (Forall_forall _ _) Hs). cbn.
  unfold rune_ToUpper. destruct (Z.ltb_spec r 128); [|by apply unicode_upper_valid].
  destruct (Z.leb_spec 97 r), (Z.leb_spec r 122); cbn [andb]; try done.
  unfold utf8.ValidRune in *. revert Hr. repeat zcase; simpl; done || lia.
Qed.

Lemma norm_runes pname : is_bytes pname → utf8.runes (norm pname) = ToUpper (TrimSpace (utf8.runes pname)).
Proof.
  intros Hb. unfold norm. apply runes_encode_all. apply ToUpper_valid. apply TrimFunc_incl. by apply runes_valid.
Qed.

Lemma norm_idem pname : is_bytes pname → norm (norm pname) = norm pname.
Proof.
  intros Hb. unfold norm at 1. rewrite norm_runes by done. unfold norm. do 1 f_equal.
  rewrite TrimSpace_ToUpper, ToUpper_idem. f_equal. apply TrimFunc_idem.
Qed.

(** ** The invariant *)

Definition names (p : parameters) : gmap (list Z) (list (list Z)) := default ∅ (standard p).
Definition files (p : parameters) : gmap (list Z) fileval := default ∅ (filesdata p).

Definition ids_of (v : fileval) : list nat := match v with FileSlice l => l | AnySlice => [] end.

Record ok (p : parameters) : Prop := {
  ok_both : is_Some (urlkeys p) ↔ is_Some (standard p);
  ok_count : standardcount p = Z.of_nat (base.size (names p));
  ok_urlkeys k u : urlkeys p = Some u → is_Some (u !! k) → is_Some (names p !! k);
  ok_names k : is_Some (names p !! k) → k ≠ [];
  ok_filecount : filesdatacount p = Z.of_nat (base.size (files p));
  ok_filenames k : is_Some (files p !! k) → k ≠ [];
  ok_ids k v i : files p !! k = Some v → i ∈ ids_of v → (i < length (fheap p))%nat }.

Lemma ok_new : ok NewParameters.
Proof. split; cbn; try done; intros *; rewrite ?lookup_empty; by intros []. Qed.

Lemma insert_size_new {V} (m : gmap (list Z) V) k v : m !! k = None → Z.of_nat (base.size (<[k:=v]> m)) = Z.of_nat (base.size m) + 1.
Proof. intros Hk. rewrite map_size_insert_None by done. lia. Qed.

Lemma insert_size_old {V} (m : gmap (list Z) V) k v x : m !! k = Some x → Z.of_nat (base.size (<[k:=v]> m)) = Z.of_nat (base.size m).
Proof. intros Hk. by rewrite map_size_insert_Some by eauto. Qed.

Lemma delete_size {V} (m : gmap (list Z) V) k x : m !! k = Some x → Z.of_nat (base.size (delete k m)) = Z.of_nat (base.size m) - 1.
Proof.
  intros Hk. rewrite map_size_delete_Some by eauto. assert (base.size m ≠ 0%nat); [|lia].
  intros E. apply map_size_empty_inv in E. by rewrite E, lookup_empty in Hk.
Qed.

Lemma lookup_some_insert {V} (m : gmap (list Z) V) k k' v : is_Some (<[k:=v]> m !! k') ↔ k = k' ∨ is_Some (m !! k').
Proof. rewrite lookup_insert_is_Some'. tauto. Qed.

Lemma ok_set_standard p u m c :
  ok p → c = Z.of_nat (base.size m) → (∀ k, is_Some (u !! k) → is_Some (m !! k)) → (∀ k, is_Some (m !! k) → k ≠ []) →
  ok (set_standard p (Some u) (Some m) c).
Proof. intros [] Hc Hu Hm. split; cbn; try done. intros k u' [= <-]. apply Hu. Qed.

Lemma ok_set_files p m c h :
  ok p → c = Z.of_nat (base.size m) → (∀ k, is_Some (m !! k) → k ≠ []) →
  (∀ k v i, m !! k = Some v → i ∈ ids_of v → (i < length h)%nat) → ok (set_files p (Some m) c h).
Proof. intros [] Hc Hm Hi. split; cbn; done. Qed.

Lemma ok_urls p k : ok p → is_Some (default ∅ (urlkeys p) !! k) → is_Some (names p !! k).
Proof.
  intros [] Hk. destruct (urlkeys p) as [u|] eqn:Eu; cbn in Hk; [by eapply ok_urlkeys0|].
  rewrite lookup_empty in Hk. by destruct Hk.
Qed.

Lemma insert_nonempty {V} (m : gmap (list Z) V) k v :
  k ≠ [] → (∀ k, is_Some (m !! k) → k ≠ []) → ∀ k', is_Some (<[k:=v]> m !! k') → k' ≠ [].
Proof. intros Hk Hm k'. rewrite lookup_some_insert. intros [<-|]; auto. Qed.

Lemma storeParameter_ok p isurl n clear vs p' : ok p → storeParameter (Some p) isurl n clear vs = Some p' → ok p'.
Proof.
  intros Hp E. unfold storeParameter in E. case_bool_decide as Hn; [by injection E as <-|].
  fold (names p) in E. set (k := norm n) in *. pose proof (λ k', ok_urls p k' Hp) as Hu.
  destruct (names p !! k) as [val|] eqn:Ek.
  - assert (∃ u2 val2, Some p' = Some (set_standard p (Some u2) (Some (<[k:=val2]> (names p))) (standardcount p)) ∧
      ∀ k', is_Some (u2 !! k') → k = k' ∨ is_Some (default ∅ (urlkeys p) !! k')) as (u2 & val2 & [= ->] & Hu2).
    { destruct clear, (0 <? len vs); injection E as <-; eexists _, _; (split; [done|]); intros k';
        rewrite ?lookup_some_insert; rewrite ?lookup_delete_is_Some; tauto. }
    apply ok_set_standard; [done| | |by apply insert_nonempty; [|apply Hp]].
    + rewrite (insert_size_old _ _ _ _ Ek). apply Hp.
    + intros k' Hk'. apply lookup_some_insert. destruct (Hu2 k' Hk'); auto.
  - injection E as <-. apply ok_set_standard; [done| | |by apply insert_nonempty; [|apply Hp]].
    + rewrite (insert_size_new _ _ _ Ek). f_equal. apply Hp.
    + intros k' Hk'. apply lookup_some_insert. destruct (0 <? len vs); [|by auto].
      apply lookup_some_insert in Hk' as [|]; auto.
Qed.

Lemma add_headers_spec heap pfile :
  ∃ ids new, add_headers heap pfile = (ids, heap ++ new) ∧ Forall (λ i, i < length (heap ++ new))%nat ids.
Proof.
  unfold add_headers. assert (∀ (ids : list nat), Forall (λ i, i < length heap)%nat ids →
    ∃ ids' new, fold_left (λ acc a, match a with AHeader h => (acc.1 ++ [length acc.2], acc.2 ++ [nextfile h]) | ANoHeader => acc end)
      pfile (ids, heap) = (ids', heap ++ new) ∧ Forall (λ i, i < length (heap ++ new))%nat ids') as Hgo.
  2:{ by apply Hgo. }
  revert heap. induction pfile as [|[h|] pfile IH]; intros heap ids Hids; cbn.
  - exists ids, []. by rewrite app_nil_r.
  - destruct (IH (heap ++ [nextfile h]) (ids ++ [length heap])) as (ids' & new & -> & Hi).
    { apply Forall_app. rewrite length_app. cbn. split; [|repeat constructor; lia].
      eapply Forall_impl; [exact Hids|]. cbn. lia. }
    exists ids', (nextfile h :: new). rewrite <- app_assoc in *. done.
  - by apply IH.
Qed.

Lemma SetFile_ok p n clear pf p' : ok p → SetFile (Some p) n clear pf = Some p' → ok p'.
Proof.
  intros Hp E. unfold SetFile in E. case_bool_decide as Hn; [by injection E as <-|].
  fold (files p) in E. set (k := norm n) in *.
  destruct (add_headers_spec (fheap p) pf) as (ids & new & Ea & Hids). rewrite Ea in E.
  assert (∀ k' v i, files p !! k' = Some v → i ∈ ids_of v → (i < length (fheap p ++ new))%nat) as Hold.
  { intros k' v i Hv Hi. pose proof (ok_ids p Hp k' v i Hv Hi). rewrite length_app. lia. }
  rewrite Forall_forall in Hids.
  assert (∃ val c, Some p' = Some (set_files p (Some (<[k:=val]> (files p))) c (fheap p ++ new)) ∧
    c = Z.of_nat (base.size (<[k:=val]> (files p))) ∧ ∀ i, i ∈ ids_of val → (i < length (fheap p ++ new))%nat)
    as (val & c & [= ->] & Hc & Hval).
  { destruct (files p !! k) as [fval|] eqn:Ek; injection E as <-.
    - eexists _, _. split; [done|]. split; [rewrite (insert_size_old _ _ _ _ Ek); apply Hp|].
      intros i [Hi|Hi]%elem_of_app; [|by apply Hids]. destruct clear; [by apply elem_of_nil in Hi|].
      destruct fval as [l|]; [by eapply Hold|by apply elem_of_nil in Hi].
    - eexists _, _. split; [done|]. split; [rewrite (insert_size_new _ _ _ Ek); f_equal; apply Hp|].
      intros i Hi. destruct (0 <? len pf); [by apply Hids|by apply elem_of_nil in Hi]. }
  apply ok_set_files; [done|done|by apply insert_nonempty; [|apply Hp]|].
  intros k' v i. rewrite lookup_insert_Some. intros [[<- <-]|[_ Hv]] Hi; [by apply Hval|by eapply Hold].
Qed.

Lemma Remove_ok p n v p' : ok p → Remove (Some p) n = Done (v, Some p') → ok p'.
Proof.
  intros Hp E. unfold Remove in E. case_bool_decide as Hn; [by injection E as _ <-|].
  destruct (standard p) as [m|] eqn:Em; [|by injection E as _ <-].
  destruct (m !! norm n) as [x|] eqn:Ek; [|by injection E as _ <-]. injection E as _ <-.
  assert (names p = m) as Hm by by unfold names; rewrite Em.
  destruct (ok_both p Hp) as [_ [u Hu]]; [rewrite Em; eauto|]. rewrite Hu. cbn [fmap option_fmap option_map].
  apply ok_set_standard; [done| | |].
  - rewrite (delete_size _ _ _ Ek), <- Hm. f_equal. apply Hp.
  - intros k'. rewrite !lookup_delete_is_Some. intros [Hne Hk']. split; [done|].
    rewrite <- Hm. by eapply ok_urlkeys.
  - intros k'. rewrite lookup_delete_is_Some. intros [_ Hk']. eapply ok_names; [done|]. by rewrite Hm.
Qed.

Lemma RemoveFile_ok p n v p' : ok p → RemoveFile (Some p) n = Done (v, Some p') → ok p'.
Proof.
  intros Hp E. unfold RemoveFile in E. case_bool_decide as Hn; [by injection E as _ <-|].
  destruct (filesdata p) as [m|] eqn:Em; [|by injection E as _ <-].
  destruct (m !! norm n) as [x|] eqn:Ek; [|by injection E as _ <-]. injection E as _ <-.
  assert (files p = m) as Hm by by unfold files; rewrite Em. apply ok_set_files; [done| | |].
  - rewrite (delete_size _ _ _ Ek), <- Hm. f_equal. apply Hp.
  - intros k'. rewrite lookup_delete_is_Some. intros [_ Hk']. eapply ok_filenames; [done|]. by rewrite Hm.
  - intros k' v' i [_ Hv]%lookup_delete_Some Hi. eapply ok_ids; [done|by rewrite Hm|done].
Qed.

Lemma Clear_ok p p' : ok p → Clear (Some p) = Some p' → ok p'.
Proof.
  intros Hp E. unfold Clear in E. destruct (standard p) eqn:Es; injection E as <-; [|done].
  destruct Hp. split; cbn; try done; intros *; rewrite ?lookup_empty; by intros [].
Qed.

Lemma ClearFiles_ok p p' : ok p → ClearFiles (Some p) = Some p' → ok p'.
Proof.
  intros Hp E. unfold ClearFiles in E. destruct (filesdata p) eqn:Es; injection E as <-; [|done].
  destruct Hp. split; cbn; try done; intros *; rewrite ?lookup_empty; by intros [].
Qed.

Lemma read_files_length fuel heap ids sep s s' heap' :
  read_files fuel heap ids sep s = Done (s', heap') → length heap' = length heap.
Proof.
  revert heap s. induction ids as [|i ids IH]; intros heap s E; cbn [read_files] in E; [by injection E as _ <-|].
  destruct (index heap (Z.of_nat i)) as [f| |]; cbn [exec_bind] in E; try discriminate.
  destruct (file_Reader (Some f)) as [r of_]. destruct (rnrtos fuel bufio_new r [] []) as [[[bs e] r']| |];
    cbn [exec_bind] in E; try discriminate. destruct e; [injection E as _ <-|apply IH in E as ->]; by rewrite length_insert.
Qed.

Lemma String_ok fuel p n sep idx s p' : ok p → String_ fuel (Some p) n sep idx = Done (s, Some p') → ok p'.
Proof.
  intros Hp E. unfold String_ in E. destruct (0 <? _); [by injection E as _ <-|].
  destruct (read_files _ _ _ _ _) as [[s1 heap]| |] eqn:Er; cbn [exec_bind] in E; try discriminate. injection E as _ <-.
  apply read_files_length in Er. destruct Hp. split; cbn; try done. intros k v i Hk Hi. rewrite Er. by eapply ok_ids0.
Qed.

(** ** Any use of the parameters *)

Inductive pop :=
| OpStore (isurl : bool) (n : list Z) (clear : bool) (vs : list (list Z))
| OpSetFile (n : list Z) (clear : bool) (pf : list filearg)
| OpRemove (n : list Z)
| OpRemoveFile (n : list Z)
| OpClear
| OpClearFiles
| OpString (fuel : nat) (n sep : list Z) (idx : list Z).

(** One operation on parameters that are there, without its answer. *)
Definition run_pop (op : pop) (p : parameters) : exec parameters :=
  let keep o := Done (default p o) in
  match op with
  | OpStore isurl n clear vs => keep (storeParameter (Some p) isurl n clear vs)
  | OpSetFile n clear pf => keep (SetFile (Some p) n clear pf)
  | OpRemove n => let* '(_, o) := Remove (Some p) n in keep o
  | OpRemoveFile n => let* '(_, o) := RemoveFile (Some p) n in keep o
  | OpClear => keep (Clear (Some p))
  | OpClearFiles => keep (ClearFiles (Some p))
  | OpString fuel n sep idx => let* '(_, o) := String_ fuel (Some p) n sep idx in keep o
  end.

Fixpoint run_pops (ops : list pop) (p : parameters) : exec parameters :=
  match ops with
  | [] => Done p
  | op :: ops' => let* p' := run_pop op p in run_pops ops' p'
  end.

Lemma run_pop_ok op p p' : ok p → run_pop op p = Done p' → ok p'.
Proof.
  intros Hp. destruct op as [isurl n clear vs|n clear pf|n|n| | |fuel n sep idx]; cbn [run_pop].
  - destruct (storeParameter _ _ _ _ _) eqn:E; intros [= <-]; [by eapply storeParameter_ok|done].
  - destruct (SetFile _ _ _ _) eqn:E; intros [= <-]; [by eapply SetFile_ok|done].
  - destruct (Remove _ _) as [[v [q|]]| |] eqn:E; intros [= <-]; [by eapply Remove_ok|done].
  - destruct (RemoveFile _ _) as [[v [q|]]| |] eqn:E; intros [= <-]; [by eapply RemoveFile_ok|done].
  - destruct (Clear _) eqn:E; intros [= <-]; [by eapply Clear_ok|done].
  - destruct (ClearFiles _) eqn:E; intros [= <-]; [by eapply ClearFiles_ok|done].
  - destruct (String_ _ _ _ _ _) as [[v [q|]]| |] eqn:E; intros [= <-]; [by eapply String_ok|done].
Qed.

Lemma run_pops_ok ops p p' : ok p → run_pops ops p = Done p' → ok p'.
Proof.
  revert p. induction ops as [|op ops IH]; intros p Hp E; cbn in E; [by injection E as <-|].
  destruct (run_pop op p) as [q| |] eqn:Eq; try done. cbn in E. eapply IH; [|done]. by eapply run_pop_ok.
Qed.

Lemma keys_all (c : Z) (m : gmap (list Z) (list (list Z))) :
  c = Z.of_nat (base.size m) → fill_keys c (map fst (map_to_list m)) = Done (map fst (map_to_list m)).
Proof.
  intros ->. unfold fill_keys. rewrite (proj2 (Z.ltb_ge _ _)) by lia.
  assert (length (map fst (map_to_list m)) = base.size m) as Hl by (by rewrite length_map, length_map_to_list).
  rewrite Nat2Z.id, take_ge, Hl, Nat.sub_diag, app_nil_r by lia. done.
Qed.

(** C20: whatever sequence of operations the parameters went through, they are well
    formed: the counts are the numbers of names, no name is empty, the url names are
    names, every file of a name is there; so that Keys answers every name exactly once
    and nothing else. *)
Theorem Parameters_invariant ops p :
  run_pops ops NewParameters = Done p →
  ok p ∧ ∃ ks, Keys (Some p) = Done ks ∧ NoDup ks ∧ ∀ n, n ∈ ks ↔ is_Some (names p !! n).
Proof.
  intros E. pose proof (run_pops_ok ops _ p ok_new E) as Hp. split; [done|].
  exists (map fst (map_to_list (names p))). split; [|split].
  - unfold Keys. unfold names. pose proof (ok_count p Hp) as Hc. unfold names in Hc.
    destruct (standard p) as [m|]; [|done]. cbn [default from_option id] in *.
    destruct (Z.ltb_spec 0 (standardcount p)).
    + by apply keys_all.
    + assert (base.size m = 0%nat) as E0 by lia. apply map_size_empty_inv in E0 as ->. done.
  - apply NoDup_fst_map_to_list.
  - intros n. change (map fst (map_to_list (names p))) with ((map_to_list (names p)).*1).
    rewrite list_elem_of_fmap. split.
    + intros ([k v] & -> & Hk%elem_of_map_to_list). cbn. eauto.
    + intros [v Hv]. exists (n, v). split; [done|]. by apply elem_of_map_to_list.
Qed.

(** ** What the names stand for *)

Lemma names_store p isurl n clear vs p' :
  storeParameter (Some p) isurl n clear vs = Some p' →
  names p' = if bool_decide (norm n = []) then names p
             else <[norm n := (if clear then [] else default [] (names p !! norm n)) ++ vs]> (names p).
Proof.
  unfold storeParameter. case_bool_decide; [by intros [= <-]|]. fold (names p).
  destruct (names p !! norm n) as [val|] eqn:Ek.
  - destruct (Z.ltb_spec 0 (len vs)) as [Hl|Hl]; [by destruct clear; intros [= <-]|].
    assert (vs = []) as -> by (destruct vs; [done|cbn in Hl; lia]).
    destruct clear; intros [= <-]; cbn; by rewrite ?app_nil_r.
  - intros [= <-]. cbn. by destruct clear.
Qed.

Lemma store_some p isurl n clear vs : ∃ p', storeParameter (Some p) isurl n clear vs = Some p'.
Proof.
  unfold storeParameter. case_bool_decide; [eauto|]. repeat case_match; eauto.
Qed.

Lemma pick_nil {A} idx : pick (A := A) [] idx = [].
Proof.
  destruct idx as [|i idx]; [done|]. unfold pick. induction (i :: idx) as [|j l IH]; [done|]. cbn.
  destruct ((0 <=? j) && (j <? Z.of_nat 0)); exact IH.
Qed.

Lemma Get_names p n idx :
  Get (Some p) n idx = if bool_decide (norm n = []) then [] else pick (default [] (names p !! norm n)) idx.
Proof.
  unfold Get, names. case_bool_decide; [done|]. pose proof (pick_nil (A := list Z) idx) as Hn.
  destruct (standard p) as [m|]; cbn; [|by rewrite lookup_empty]. by destruct (m !! norm n).
Qed.

(** After Set the values of a parameter are the new ones, after its old ones
    unless they were to be cleared, under every way to write its name (spaces around it,
    the case of its letters); all other parameters are as they were, and a name of
    nothing but spaces changes nothing. *)
Theorem Set_Get p n clear vs n' idx :
  ∃ p', Set_ (Some p) n clear vs = Some p' ∧
    Get (Some p') n' idx =
      if bool_decide (norm n' = norm n) then
        if bool_decide (norm n = []) then [] else pick ((if clear then [] else Get (Some p) n []) ++ vs) idx
      else Get (Some p) n' idx.
Proof.
  unfold Set_. destruct (store_some p false n clear vs) as (p' & E). exists p'. split; [done|].
  rewrite !Get_names, (names_store _ _ _ _ _ _ E). destruct (decide (norm n' = norm n)) as [->|Hne].
  - rewrite (bool_decide_eq_true_2 (norm n = norm n)) by done. case_bool_decide; [done|].
    rewrite lookup_insert_eq. by destruct clear.
  - rewrite (bool_decide_eq_false_2 (norm n' = norm n)) by done. case_bool_decide; [done|].
    case_bool_decide; [done|]. by rewrite lookup_insert_ne by done.
Qed.

Lemma Exist_names p n :
  Exist (Some p) n = Done (negb (bool_decide (norm n = [])) && bool_decide (is_Some (names p !! norm n))).
Proof.
  unfold Exist, names. case_bool_decide; [done|]. destruct (standard p); [done|]. cbn.
  rewrite lookup_empty, bool_decide_eq_false_2; [done|]. by intros [].
Qed.

Lemma Type_unknown p n : ok p → names p !! norm n = None → Type_ (Some p) n = Done NoType.
Proof.
  intros Hp Hn. unfold Type_. case_bool_decide; [done|]. pose proof (ok_both p Hp) as [H1 H2].
  destruct (urlkeys p) as [u|] eqn:Eu, (standard p) as [m|] eqn:Em; try done.
  - pose proof (ok_urlkeys p Hp (norm n) u Eu) as Hu. destruct (u !! norm n) as [b|] eqn:Ek.
    + destruct Hu as [? ?]; [eauto|]. congruence.
    + unfold names in Hn. rewrite Em in Hn. cbn in Hn. by rewrite Hn.
  - destruct H1 as [? ?]; eauto. done.
  - destruct H2 as [? ?]; eauto. done.
Qed.

Lemma Remove_names p n :
  ok p → ∃ p', Remove (Some p) n = Done (Get (Some p) n [], Some p') ∧ ok p' ∧
    names p' = if bool_decide (norm n = []) then names p else delete (norm n) (names p).
Proof.
  intros Hp. rewrite Get_names. destruct (Remove (Some p) n) as [[v o]| |] eqn:E; unfold Remove in E;
    case_bool_decide as Hn; try done; unfold names.
  - injection E as <- <-. eauto.
  - destruct (standard p) as [m|] eqn:Em; cbn.
    + destruct (m !! norm n) as [x|] eqn:Ek; injection E as <- <-; cbn.
      * eexists. split; [done|]. split; [|done]. eapply (Remove_ok p n x); [done|]. unfold Remove.
        by rewrite (bool_decide_eq_false_2 _ Hn), Em, Ek.
      * exists p. rewrite Em. cbn. by rewrite delete_id.
    + injection E as <- <-. exists p. rewrite Em, lookup_empty. cbn. by rewrite delete_empty.
  - destruct (standard p) as [m|]; [|done]. by destruct (m !! norm n).
  - destruct (standard p) as [m|]; [|done]. by destruct (m !! norm n).
Qed.

(** Remove answers the values of a parameter and leaves it without any, and so
    unknown to Exist, Type and Get; the others are as they were. *)
Theorem Remove_Get p n n' idx :
  ok p → ∃ p', Remove (Some p) n = Done (Get (Some p) n [], Some p') ∧
    Get (Some p') n' idx = (if bool_decide (norm n' = norm n) then [] else Get (Some p) n' idx) ∧
    Exist (Some p') n = Done false ∧ Type_ (Some p') n = Done NoType.
Proof.
  intros Hp. destruct (Remove_names p n Hp) as (p' & E & Hp' & Hn'). exists p'. split; [done|].
  assert (names p' !! norm n = None) as Hnone.
  { rewrite Hn'. case_bool_decide as Hn; [|apply lookup_delete_eq]. destruct (names p !! norm n) eqn:Ek; [|done].
    destruct (ok_names p Hp (norm n)); [eauto|done]. }
  split; [|split; [|by apply Type_unknown]].
  - rewrite !Get_names. destruct (decide (norm n' = norm n)) as [Ed|Ed].
    + rewrite (bool_decide_eq_true_2 _ Ed), Ed, Hnone. rewrite ?Hn'. destruct (bool_decide (norm n = [])); [done|]. apply pick_nil.
    + rewrite (bool_decide_eq_false_2 _ Ed), Hn'. destruct (bool_decide (norm n' = [])); [done|].
      destruct (bool_decide (norm n = [])); [done|]. by rewrite lookup_delete_ne by done.
  - rewrite Exist_names, Hnone. by rewrite andb_comm.
Qed.

(** * Loading a query *)

(** ** The encoding of a query *)

(** The bytes that stand for themselves in a query ([url.shouldEscape]). *)
Definition unreserved (c : Z) : bool :=
  ((97 <=? c) && (c <=? 122)) || ((65 <=? c) && (c <=? 90)) || ((48 <=? c) && (c <=? 57))
  || (c =? 45) || (c =? 95) || (c =? 46) || (c =? 126).
Definition upperhex (n : Z) : Z := if n <? 10 then 48 + n else 55 + n.
Definition QueryEscape (s : list Z) : list Z :=
  concat (map (λ c, if c =? 32 then [43] else if unreserved c then [c] else [37; upperhex (c / 16); upperhex (c mod 16)]) s).
Definition query_part (kv : list Z * list Z) : list Z := QueryEscape kv.1 ++ 61 :: QueryEscape kv.2.
Definition query (kvs : list (list Z * list Z)) : list Z := GoStrings.Join (map query_part kvs) [38].

(** The values the pairs give to a name, in their order. *)
Definition values_of (kvs : list (list Z * list Z)) (k : list Z) : list (list Z) :=
  map snd (base.filter (λ kv, kv.1 = k) kvs).

(** The characters of an escaped string: none of [&], [;] and [=]. *)
Definition query_char (c : Z) : bool := unreserved c || (c =? 43) || (c =? 37).

Lemma byte_cases (P : Z → Prop) : (∀ n, (n < 256)%nat → P (Z.of_nat n)) → ∀ c, 0 ≤ c < 256 → P c.
Proof. intros HP c Hc. rewrite <- (Z2Nat.id c) by lia. apply HP. lia. Qed.

Definition escape_ok (c : Z) : bool :=
  let hi := upperhex (c / 16) in
  let lo := upperhex (c mod 16) in
  ishex hi && ishex lo && (16 * unhex hi + unhex lo =? c) && query_char hi && query_char lo
  && implb (unreserved c) (negb (c =? 37) && negb (c =? 43)).

Lemma escape_ok_all c : 0 ≤ c < 256 → escape_ok c = true.
Proof.
  revert c. apply byte_cases. intros n Hn.
  assert (forallb (λ n, escape_ok (Z.of_nat n)) (List.seq 0 256) = true) as Hall by by vm_compute.
  rewrite forallb_forall in Hall. apply Hall. apply in_seq. lia.
Qed.

Lemma QueryUnescape_escape s : is_bytes s → QueryUnescape (QueryEscape s) = Some s.
Proof.
  intros Hs. induction Hs as [|c s Hc Hs IH]; [done|]. unfold QueryEscape in *. cbn [map concat].
  pose proof (escape_ok_all c Hc) as Hok. unfold escape_ok in Hok. cbv zeta in Hok.
  rewrite !andb_true_iff in Hok. destruct Hok as (((((H1 & H2) & H3) & _) & _) & H4). apply Z.eqb_eq in H3.
  destruct (Z.eqb_spec c 32) as [->|H32]; [cbn; by rewrite IH|]. destruct (unreserved c); cbn [app QueryUnescape].
  - cbn [implb] in H4. apply andb_true_iff in H4 as [H37 H43]. apply negb_true_iff in H37, H43.
    by rewrite H37, H43, IH.
  - cbn [Z.eqb Pos.eqb]. by rewrite H1, H2, IH, H3.
Qed.

Lemma QueryEscape_chars s : is_bytes s → Forall (λ c, query_char c = true) (QueryEscape s).
Proof.
  intros Hs. induction Hs as [|c s Hc Hs IH]; [constructor|]. unfold QueryEscape in *. cbn [map concat].
  apply Forall_app. split; [|done]. pose proof (escape_ok_all c Hc) as Hok. unfold escape_ok in Hok. cbv zeta in Hok.
  rewrite !andb_true_iff in Hok. destruct Hok as (((((H1 & H2) & H3) & H5) & H6) & H4).
  destruct (c =? 32); [by repeat constructor|]. destruct (unreserved c) eqn:Eu; repeat constructor; try done.
  unfold query_char. by rewrite Eu.
Qed.

Lemma QueryEscape_no s k : is_bytes s → query_char k = false → contains_rune (QueryEscape s) k = false.
Proof.
  intros Hs Hk. pose proof (QueryEscape_chars s Hs) as Hc. induction Hc as [|c t Hc Ht IH]; [done|].
  rewrite contains_cons, IH, orb_false_r. apply Z.eqb_neq. congruence.
Qed.

(** ** Splitting it again *)

Lemma Replace_id s k new : contains_rune s k = false → Replace s k new = s.
Proof.
  unfold Replace. induction s as [|c s IH]; [done|]. rewrite contains_cons. intros [Hc Hs]%orb_false_iff.
  cbn. rewrite Z.eqb_sym, Hc. cbn. by rewrite IH.
Qed.

Lemma Join_ends parts k : parts ≠ [] → concat (map (λ p, p ++ [k]) parts) = GoStrings.Join parts [k] ++ [k].
Proof.
  induction parts as [|s parts IH]; [done|]. intros _. destruct parts as [|s' parts].
  - cbn. by rewrite app_nil_r.
  - rewrite Join_cons. cbn [map concat] in *. rewrite IH by done. by rewrite <- !app_assoc.
Qed.

Lemma contains_Join parts sep k :
  contains_rune sep k = false → Forall (λ s, contains_rune s k = false) parts → contains_rune (GoStrings.Join parts sep) k = false.
Proof.
  intros Hsep Hp. induction Hp as [|s parts Hs Hp IH]; [done|]. destruct parts as [|s' parts]; [done|].
  by rewrite Join_cons, !contains_app, Hs, Hsep, IH.
Qed.

Lemma query_part_no kv k :
  is_bytes kv.1 → is_bytes kv.2 → query_char k = false → k ≠ 61 → contains_rune (query_part kv) k = false.
Proof.
  intros H1 H2 Hk Hne. unfold query_part. rewrite contains_app, contains_cons, !QueryEscape_no by done.
  rewrite orb_false_r. by apply Z.eqb_neq.
Qed.

Definition pairs_bytes (kvs : list (list Z * list Z)) : Prop := Forall (λ kv, is_bytes kv.1 ∧ is_bytes kv.2) kvs.

Lemma parts_no kvs k :
  pairs_bytes kvs → query_char k = false → k ≠ 61 → Forall (λ s, contains_rune s k = false) (map query_part kvs).
Proof.
  intros Hb Hk Hne. apply Forall_fmap. apply Forall_forall. intros kv Hkv.
  destruct (proj1 (Forall_forall _ _) Hb kv Hkv). by apply query_part_no.
Qed.

Lemma query_nonempty kvs : kvs ≠ [] → query kvs ≠ [].
Proof.
  destruct kvs as [|kv [|kv' kvs]]; [done| |]; unfold query, query_part; cbn [map]; rewrite ?Join_cons; cbn [GoStrings.Join];
    by destruct (QueryEscape kv.1).
Qed.

Lemma with_value_query kvs : pairs_bytes kvs → kvs ≠ [] → with_value (query kvs) = query kvs.
Proof.
  intros Hb Hne. unfold with_value. set (raw := concat _). assert (raw = query kvs ++ [38]) as ->.
  { unfold raw, query. pose proof (parts_no kvs 59 Hb eq_refl ltac:(done)) as H59.
    rewrite Replace_id by by apply contains_Join. rewrite Split_Join; [|by destruct kvs|by apply parts_no].
    assert (∀ p, p ∈ map query_part kvs → (if bool_decide (p = []) then [] else if contains_rune p 61 then p ++ [38] else []) = p ++ [38]) as Hp.
    { intros p (kv & -> & _)%list_elem_of_fmap. unfold query_part. rewrite contains_app, contains_cons, Z.eqb_refl, orb_true_r.
      case_bool_decide as E; [|done]. by apply app_eq_nil in E as [_ [=]]. }
    rewrite (map_ext_in _ (λ p, p ++ [38])) by (intros p Hin; apply Hp; by apply list_elem_of_In).
    apply Join_ends. by destruct kvs. }
  cbv zeta. rewrite List.last_last, removelast_last, length_app.
  pose proof (query_nonempty kvs Hne) as Hq.
  rewrite (proj2 (Z.ltb_lt _ _)); [done|]. destruct (query kvs); [done|]. cbn. lia.
Qed.

Definition add_pair (m : gmap (list Z) (list (list Z))) (kv : list Z * list Z) : gmap (list Z) (list (list Z)) :=
  <[kv.1 := default [] (m !! kv.1) ++ [kv.2]]> m.

Lemma parse_pair_query m kv :
  is_bytes kv.1 → is_bytes kv.2 → parse_pair (m, false) (query_part kv) = (add_pair m kv, false).
Proof.
  intros H1 H2. unfold parse_pair. rewrite query_part_no by done. case_bool_decide as E.
  { unfold query_part in E. by apply app_eq_nil in E as [_ [=]]. }
  unfold query_part. rewrite Cut_first by by apply QueryEscape_no. by rewrite !QueryUnescape_escape.
Qed.

Lemma ParseQuery_query kvs :
  pairs_bytes kvs → kvs ≠ [] → ParseQuery (query kvs) = (fold_left add_pair kvs ∅, false).
Proof.
  intros Hb Hne. unfold ParseQuery, query. rewrite Split_Join; [|by destruct kvs|by apply parts_no].
  clear Hne. generalize (∅ : gmap (list Z) (list (list Z))). induction Hb as [|kv kvs [H1 H2] Hb IH]; intros m; [done|].
  cbn [map fold_left]. by rewrite parse_pair_query, IH.
Qed.

Lemma add_pairs_lookup kvs m k :
  fold_left add_pair kvs m !! k =
    match values_of kvs k with [] => m !! k | vs => Some (default [] (m !! k) ++ vs) end.
Proof.
  revert m. induction kvs as [|kv kvs IH]; intros m; [done|]. cbn [fold_left]. rewrite IH. unfold values_of.
  rewrite filter_cons. unfold add_pair. destruct (decide (kv.1 = k)) as [<-|Hne].
  - rewrite lookup_insert_eq. cbn. destruct (map snd _); [done|]. cbn. by rewrite <- app_assoc.
  - by rewrite lookup_insert_ne by done.
Qed.

(** ** Storing what was parsed *)

Definition urls (p : parameters) : gmap (list Z) bool := default ∅ (urlkeys p).

Lemma urls_store p n vs p' :
  storeParameter (Some p) true n false vs = Some p' →
  urls p' = if bool_decide (norm n = []) then urls p else if 0 <? len vs then <[norm n := true]> (urls p) else urls p.
Proof.
  unfold storeParameter. case_bool_decide; [by intros [= <-]|].
  destruct (default ∅ (standard p) !! norm n); destruct (0 <? len vs); by intros [= <-].
Qed.

(** The values that the pairs of the map give to a name. *)
Definition stored (kvs : list (list Z * list (list Z))) (n : list Z) : list (list Z) :=
  concat (map snd (base.filter (λ kv, norm kv.1 = n) kvs)).

Lemma load_values_spec kvs p :
  ∃ p', load_values true (Some p) kvs = Some p' ∧
    (∀ n, n ≠ [] → default [] (names p' !! n) = default [] (names p !! n) ++ stored kvs n) ∧
    (∀ n, n ≠ [] → stored kvs n ≠ [] ∨ urls p !! n = Some true → urls p' !! n = Some true).
Proof.
  unfold load_values. revert p. induction kvs as [|kv kvs IH]; intros p; cbn [fold_left].
  { exists p. split; [done|]. split; [by intros n _; rewrite app_nil_r|by intros n _ []]. }
  destruct (store_some p true kv.1 false kv.2) as (p1 & E). rewrite E. destruct (IH p1) as (p' & -> & Hn & Hu).
  exists p'. split; [done|]. apply names_store in E as En. apply urls_store in E as Eu.
  assert (∀ n, n ≠ [] → stored (kv :: kvs) n = (if decide (norm kv.1 = n) then kv.2 else []) ++ stored kvs n) as Hs.
  { intros n Hne. unfold stored. rewrite filter_cons. by destruct (decide (norm kv.1 = n)). }
  split; intros n Hne; rewrite Hs by done.
  - rewrite Hn, En by done. destruct (decide (norm kv.1 = n)) as [<-|Hd].
    + rewrite (bool_decide_eq_false_2 _ Hne), lookup_insert_eq. cbn. by rewrite <- app_assoc.
    + destruct (bool_decide (norm kv.1 = [])); [done|]. by rewrite lookup_insert_ne by done.
  - intros Hor. apply Hu; [done|]. rewrite Eu. destruct (decide (norm kv.1 = n)) as [<-|Hd].
    + rewrite (bool_decide_eq_false_2 _ Hne). destruct (Z.ltb_spec 0 (len kv.2)) as [Hl|Hl].
      * right. apply lookup_insert_eq.
      * destruct kv.2; [exact Hor|cbn in Hl; lia].
    + destruct (bool_decide (norm kv.1 = [])); [exact Hor|]. destruct (0 <? len kv.2); [|exact Hor].
      by rewrite lookup_insert_ne by done.
Qed.

Lemma filter_unique {A} (P : A → Prop) `{!∀ x, Decision (P x)} l y :
  NoDup l → y ∈ l → P y → (∀ x, x ∈ l → P x → x = y) → base.filter P l = [y].
Proof.
  intros Hd Hy HP Hu. induction Hd as [|x l Hx Hd IH]; [by apply elem_of_nil in Hy|]. rewrite filter_cons.
  destruct (decide (P x)) as [Hpx|Hpx].
  - assert (x = y) as -> by (apply Hu; [left|done]). f_equal. destruct (base.filter P l) as [|z t] eqn:E; [done|].
    assert (z ∈ base.filter P l) as [Hz Hin]%list_elem_of_filter by (rewrite E; left).
    destruct Hx. rewrite <- (Hu z); [done|by right|done].
  - apply IH.
    + apply elem_of_cons in Hy as [->|Hy]; [done|exact Hy].
    + intros z Hz. apply Hu. by right.
Qed.

Lemma stored_map (range : gmap (list Z) (list (list Z)) → list (list Z * list (list Z))) m k v :
  range m ≡ₚ map_to_list m → m !! k = Some v → (∀ k', is_Some (m !! k') → norm k' = norm k → k' = k) →
  stored (range m) (norm k) = v.
Proof.
  intros Hp Hk Hu. unfold stored.
  assert (base.filter (λ kv : list Z * list (list Z), norm kv.1 = norm k) (map_to_list m) = [(k, v)]) as Ef.
  { apply filter_unique.
    - apply NoDup_map_to_list.
    - by apply elem_of_map_to_list.
    - done.
    - intros [k' v'] Hin%elem_of_map_to_list E. cbn in E. assert (k' = k) as -> by (apply Hu; eauto). congruence. }
  assert (base.filter (λ kv : list Z * list (list Z), norm kv.1 = norm k) (range m) ≡ₚ [(k, v)]) as Hs.
  { rewrite <- Ef. by apply filter_Permutation. }
  apply Permutation_singleton_r in Hs as ->. cbn. by rewrite app_nil_r.
Qed.

Lemma values_of_some kvs k : k ∈ map fst kvs ↔ values_of kvs k ≠ [].
Proof.
  unfold values_of. induction kvs as [|[k' v] kvs IH].
  - split; [by intros ?%elem_of_nil|by intros []].
  - cbn [map fst]. rewrite elem_of_cons, filter_cons, IH. cbn [fst]. destruct (decide (k' = k)) as [->|Hne].
    + split; [done|by left].
    + split; [intros [?|?]; congruence|by right].
Qed.

(** C21: a query that is written as the pairs of names and values of a list, escaped
    as url.QueryEscape does, loads exactly these: each name then has the values it had
    before and after them those of the list, in their order, and is a url parameter;
    this for any order in which range goes over a map, if no two of the names are ways
    to write the same parameter. *)
Theorem RawURL_round_trip (range : gmap (list Z) (list (list Z)) → list (list Z * list (list Z))) p kvs :
  (∀ m, range m ≡ₚ map_to_list m) → pairs_bytes kvs →
  (∀ k k', k ∈ map fst kvs → k' ∈ map fst kvs → norm k = norm k' → k = k') →
  ∃ p', LoadParametersFromRawURL range (Some p) (query kvs) = Some p' ∧
    ∀ k, k ∈ map fst kvs → norm k ≠ [] →
      Get (Some p') k [] = Get (Some p) k [] ++ values_of kvs k ∧ Type_ (Some p') k = Done UrlType.
Proof.
  intros Hr Hb Hu. destruct (decide (kvs = [])) as [->|Hne]; [exists p; split; [done|by intros k ?%elem_of_nil]|].
  unfold LoadParametersFromRawURL. rewrite with_value_query, ParseQuery_query by done.
  pose proof (query_nonempty kvs Hne) as Hq.
  rewrite (bool_decide_eq_false_2 _ Hq). destruct (load_values_spec (range (fold_left add_pair kvs ∅)) p) as (p' & E & Hn & Hurl).
  exists p'. split; [exact E|]. intros k Hk Hnk.
  assert (stored (range (fold_left add_pair kvs ∅)) (norm k) = values_of kvs k) as Hs.
  { assert (∀ k', fold_left add_pair kvs ∅ !! k' = match values_of kvs k' with [] => None | vs => Some vs end) as Hm.
    { intros k'. rewrite add_pairs_lookup, lookup_empty. by destruct (values_of kvs k'). }
    apply stored_map; [done| |].
    - apply values_of_some in Hk. rewrite Hm. by destruct (values_of kvs k).
    - intros k' [v Hv]. apply Hu; [|done]. apply values_of_some. rewrite Hm in Hv. by destruct (values_of kvs k'). }
  rewrite !Get_names, (bool_decide_eq_false_2 _ Hnk). cbn [pick]. rewrite Hn, Hs by done. split; [done|].
  unfold Type_. rewrite (bool_decide_eq_false_2 _ Hnk).
  assert (urls p' !! norm k = Some true) as Ht by (apply Hurl; [done|left; rewrite Hs; by apply values_of_some]).
  unfold urls in Ht. destruct (urlkeys p') as [u|]; [cbn in Ht; by rewrite Ht|].
  cbn [default from_option] in Ht. by rewrite lookup_empty in Ht.
Qed.



(** * The text of file parameters *)

#[export] Program Instance osfile_source : ByteSource osfile :=
  {| bpending f bs := f_rest f = bs ∧ f_end f = EOF |}.
Next Obligation.
  intros [l e] bs n [Hl He] Hne Hn. cbn in Hl, He. subst. unfold read_bytes, osfile_reader. cbn [f_rest f_end].
  destruct bs as [|b bs]; [done|].
  exists (Nat.min (Z.to_nat n) (length (b :: bs))), (MkOsFile (drop (Z.to_nat n) (b :: bs)) EOF).
  split; [|split; [simpl; lia|split; [simpl; lia|split; [lia|split; [|done]]]]].
  - destruct (Nat.min_spec (Z.to_nat n) (length (b :: bs))) as [[_ ->]|[? ->]]; [done|].
    by rewrite !take_ge by lia.
  - cbn [f_rest]. destruct (Nat.min_spec (Z.to_nat n) (length (b :: bs))) as [[_ ->]|[? ->]]; [done|].
    by rewrite !drop_ge by lia.
Qed.
Next Obligation.
  intros [l e] n [Hl He] Hn. cbn in Hl, He. subst. by exists (MkOsFile [] EOF).
Qed.

Lemma rnrtos_spec fuel b r bs rns rs :
  pending (b, r) rs → len rs < Z.of_nat fuel →
  ∃ r', rnrtos fuel b r bs rns = Done (bs ++ rns ++ rs, None, r') ∧ f_rest r' = [] ∧ f_end r' = EOF.
Proof.
  revert b r bs rns rs. induction fuel as [|fuel IH]; intros b r bs rns rs Hp Hf; [lia|].
  cbn [rnrtos]. destruct rs as [|x rs].
  - destruct (pending_nil (b, r) Hp) as (y & [b' r'] & E & Hp'). unfold read_rune, bufio_RuneReader in E.
    destruct (bufio_ReadRune 4096 b r) as [[[[[? ?] ?] ?] ?]| |]; try done. injection E as -> -> -> -> ->.
    cbn [exec_bind]. exists r'. rewrite app_nil_r. split; [done|]. destruct Hp' as (bs' & (rest & Hr & -> & _) & Hbs).
    cbn [fst snd] in *. symmetry in Hbs. apply runes_nil, app_eq_nil in Hbs as [_ ->]. exact Hr.
  - destruct (pending_cons (b, r) x rs Hp) as (n & [b' r'] & E & Hn & Hp'). unfold read_rune, bufio_RuneReader in E.
    destruct (bufio_ReadRune 4096 b r) as [[[[[? ?] ?] ?] ?]| |]; try done. injection E as -> -> -> -> ->.
    cbn [exec_bind]. rewrite (proj2 (Z.ltb_lt 0 n)) by done. pose proof (push_rune_app 1024 x bs rns) as Hpr.
    destruct (push_rune 1024 x bs rns) as [s1 rns1]. cbn [fst snd] in Hpr.
    destruct (IH b' r' s1 rns1 rs Hp') as (r'' & E & Hr''); [cbn in Hf; lia|].
    exists r''. rewrite E, (app_assoc s1), Hpr. split; [|done]. by rewrite <- !app_assoc.
Qed.

Lemma rnrtos_file fuel r bs :
  f_rest r = bs → f_end r = EOF → len (utf8.runes bs) < Z.of_nat fuel →
  ∃ r', rnrtos fuel bufio_new r [] [] = Done (utf8.runes bs, None, r') ∧ f_rest r' = [] ∧ f_end r' = EOF.
Proof.
  intros Hr He Hf. destruct (rnrtos_spec fuel bufio_new r [] [] (utf8.runes bs)) as (r' & E & Hr'); [|done|by exists r'].
  exists bs. split; [|done]. exists bs. split; [done|]. cbn. auto.
Qed.

(** The file at a position delivers these bytes: opened now, or open already. *)
Definition delivers (heap : list file) (i : nat) (bs : list Z) : Prop :=
  ∃ f, heap !! i = Some f ∧
    match orgrdr f with
    | Some r => f_rest r = bs ∧ f_end r = EOF
    | None => ∃ h, flhdr f = Some h ∧ hdr_open h = inr (bs, EOF)
    end.

(** The text of bytes: what is not UTF-8 is replaced. *)
Definition text_of (bs : list Z) : list Z := encode_all (utf8.runes bs).

Lemma read_files_step fuel heap i ids sep s bs :
  delivers heap i bs → len (utf8.runes bs) < Z.of_nat fuel →
  ∃ f, delivers (<[i := f]> heap) i [] ∧
    read_files fuel heap (i :: ids) sep s =
      read_files fuel (<[i := f]> heap) ids sep (match ids with [] => s ++ text_of bs | _ => (s ++ text_of bs) ++ sep end).
Proof.
  intros (f & Hf & Hd) Hfu. assert (i < length heap)%nat as Hi by by eapply lookup_lt_Some.
  cbn [read_files]. unfold index at 1. rewrite (proj2 (Z.leb_le 0 _)), Nat2Z.id, Hf by lia.
  cbn [exec_bind]. unfold file_Reader. destruct (orgrdr f) as [r|] eqn:Er.
  - destruct Hd as [Hr He]. destruct (rnrtos_file fuel r bs Hr He Hfu) as (r' & -> & Hr' & He'). cbn [exec_bind default from_option id].
    eexists. split; [|done]. eexists. rewrite list_lookup_insert_eq by done. split; [done|]. unfold put_back. by rewrite Er.
  - destruct Hd as (h & Hh & Ho). rewrite Hh, Ho.
    destruct (rnrtos_file fuel (MkOsFile bs EOF) bs eq_refl eq_refl Hfu) as (r' & -> & Hr' & He').
    cbn [exec_bind default from_option id]. eexists. split; [|done]. eexists.
    rewrite list_lookup_insert_eq by done. split; [done|]. done.
Qed.

Lemma delivers_other heap i j f bs : i ≠ j → delivers heap j bs → delivers (<[i := f]> heap) j bs.
Proof. intros Hne (g & Hg & Hd). exists g. by rewrite list_lookup_insert_ne. Qed.

Lemma Forall2_impl_in {A B} (R Q : A → B → Prop) l k :
  Forall2 R l k → (∀ x y, x ∈ l → R x y → Q x y) → Forall2 Q l k.
Proof.
  induction 1 as [|x y l k Hr Hall IH]; intros Himp; constructor.
  - apply Himp; [left|done].
  - apply IH. intros a b Ha. apply Himp. by right.
Qed.

Lemma read_files_spec fuel heap ids bss sep s :
  NoDup ids → Forall2 (λ i bs, delivers heap i bs ∧ len (utf8.runes bs) < Z.of_nat fuel) ids bss →
  ∃ heap', read_files fuel heap ids sep s = Done (s ++ GoStrings.Join (map text_of bss) sep, heap') ∧
    (∀ i, i ∈ ids → delivers heap' i []) ∧ (∀ j bs, j ∉ ids → delivers heap j bs → delivers heap' j bs).
Proof.
  intros Hd. revert heap bss s. induction Hd as [|i ids Hi Hd IH]; intros heap bss s Hall.
  - apply Forall2_nil_inv_l in Hall as ->. exists heap. cbn. rewrite app_nil_r.
    split; [done|]. split; [by intros i ?%elem_of_nil|done].
  - apply Forall2_cons_inv_l in Hall as (bs & bss' & [H1 H2] & Hall & ->).
    destruct (read_files_step fuel heap i ids sep s bs H1 H2) as (f & Hf & ->).
    destruct (IH (<[i := f]> heap) bss' (match ids with [] => s ++ text_of bs | _ => (s ++ text_of bs) ++ sep end))
      as (heap' & -> & Hin & Hout).
    { eapply Forall2_impl_in; [exact Hall|]. intros j bs' Hj [Hj1 Hj2]. split; [|done]. apply delivers_other; [|done].
      by intros ->. }
    exists heap'. split; [|split].
    + f_equal. f_equal. destruct Hall; cbn [map]; [cbn; by rewrite app_nil_r|]. rewrite Join_cons. by rewrite <- !app_assoc.
    + intros j [->|Hj]%elem_of_cons; [by apply Hout|by apply Hin].
    + intros j bs' [Hj1 Hj2]%not_elem_of_cons Hdj. apply Hout; [done|]. by apply delivers_other.
Qed.

(** String of a file parameter gives the texts of its files joined with the
    separator, whether they were opened before or are opened now; after it they are at
    their end, so that the same call again gives empty texts. *)
Theorem String_files fuel p n sep idx bss :
  Get (Some p) n idx = [] → NoDup (GetFile (Some p) n idx) →
  Forall2 (λ i bs, delivers (fheap p) i bs ∧ len (utf8.runes bs) < Z.of_nat fuel) (GetFile (Some p) n idx) bss →
  ∃ p', String_ fuel (Some p) n sep idx = Done (GoStrings.Join (map text_of bss) sep, Some p') ∧
    ∀ fuel', (0 < fuel')%nat →
      ∃ p'', String_ fuel' (Some p') n sep idx = Done (GoStrings.Join (map (λ _, []) bss) sep, Some p'').
Proof.
  intros Hg Hd Hall. destruct (read_files_spec fuel (fheap p) _ bss sep [] Hd Hall) as (heap & E & Hin & _).
  unfold String_ at 1. rewrite Hg. cbn [length Z.of_nat Z.ltb Z.compare]. rewrite E. cbn [exec_bind app].
  eexists. split; [done|]. intros fuel' Hf'.
  set (p' := set_files p (filesdata p) (filesdatacount p) heap).
  change (Get (Some p) n idx) with (Get (Some p') n idx) in Hg. change (GetFile (Some p) n idx) with (GetFile (Some p') n idx) in *.
  destruct (read_files_spec fuel' heap (GetFile (Some p') n idx) (map (λ _, []) bss) sep [] Hd) as (heap' & E' & _).
  { apply Forall2_fmap_r. eapply Forall2_impl_in; [exact Hall|]. intros i bs Hi _. split; [by apply Hin|]. cbn. lia. }
  unfold String_. rewrite Hg. cbn [length Z.of_nat Z.ltb Z.compare]. change (fheap p') with heap. rewrite E'. cbn [exec_bind app].
  eexists. by rewrite map_map.
Qed.
End theory.

(** * Instances *)

(** The parameters a=1, a=2 and a file f with the text xy. *)
Definition demo : parameters :=
  default NewParameters
    (SetFile (Set_ (Set_ (Some NewParameters) [97] false [[49]]) [32; 65] false [[50]]) [102] false
       [AHeader (MkHeader [102] 2 (inr ([120; 121], EOF)))]).

Lemma demo_ok : ok demo.
Proof.
  assert (run_pops [OpStore false [97] false [[49]]; OpStore false [32; 65] false [[50]];
                    OpSetFile [102] false [AHeader (MkHeader [102] 2 (inr ([120; 121], EOF)))]] NewParameters = Done demo) as E
    by by vm_compute.
  exact (run_pops_ok _ _ _ ok_new E).
Qed.

Lemma Parameters_invariant_witness :
  ok demo ∧ ∃ ks, Keys (Some demo) = Done ks ∧ NoDup ks ∧ ∀ n, n ∈ ks ↔ is_Some (names demo !! n).
Proof.
  apply (Parameters_invariant
    [OpStore false [97] false [[49]]; OpStore false [32; 65] false [[50]];
     OpSetFile [102] false [AHeader (MkHeader [102] 2 (inr ([120; 121], EOF)))]]).
  vm_compute. reflexivity.
Defined.

Lemma Remove_Get_witness :
  ∃ p', Remove (Some demo) [97] = Done (Get (Some demo) [97] [], Some p') ∧
    Get (Some p') [65] [] = [] ∧ Exist (Some p') [97] = Done false ∧ Type_ (Some p') [97] = Done NoType.
Proof. exact (Remove_Get demo [97] [65] [] demo_ok). Defined.

Lemma RawURL_round_trip_witness :
  ∃ p', LoadParametersFromRawURL map_to_list (Some demo) (query [([97], [38]); ([98], []); ([97], [52])]) = Some p' ∧
    ∀ k, k ∈ [[97]; [98]; [97]] → norm k ≠ [] →
      Get (Some p') k [] = Get (Some demo) k [] ++ values_of [([97], [38]); ([98], []); ([97], [52])] k ∧
      Type_ (Some p') k = Done UrlType.
Proof.
  apply (RawURL_round_trip map_to_list demo [([97], [38]); ([98], []); ([97], [52])]).
  - done.
  - repeat (constructor; [split; repeat constructor; lia|]). constructor.
  - intros k k'. cbn [map fst]. rewrite !elem_of_cons, !elem_of_nil.
    intros [->|[->|[->|[]]]] [->|[->|[->|[]]]] E; done || (vm_compute in E; discriminate).
Defined.

Lemma String_files_witness :
  ∃ p', String_ 9 (Some demo) [102] [44] [] = Done ([120; 121], Some p') ∧
    ∀ fuel', (0 < fuel')%nat → ∃ p'', String_ fuel' (Some p') [102] [44] [] = Done ([], Some p'').
Proof.
  apply (String_files 9 demo [102] [44] [] [[120; 121]]).
  - by vm_compute.
  - apply NoDup_cons. split; [by apply not_elem_of_nil|apply NoDup_nil_2].
  - repeat constructor; cbn. eexists. split; [reflexivity|]. by eexists.
Defined.

(** A query with a broken escape loads nothing of the rest. *)
Example broken_escape_drops_all :
  LoadParametersFromRawURL map_to_list (Some demo) [98; 61; 49; 38; 99; 61; 37] = Some demo.
Proof. by vm_compute. Qed.

(** After clearing, the name a file had is unknown; the file itself stays open. *)
Example ClearFiles_keeps_open :
  let opened := match String_ 9 (Some demo) [102] [] [] with Done (_, o) => o | _ => None end in
  (λ p, map fclosed (fheap p)) <$> ClearFiles opened = Some [false].
Proof. by vm_compute. Qed.

(** Empty is true of parameters that have a name. *)
Example Empty_of_some : Empty (Some demo) = true ∧ Exist (Some demo) [97] = Done true.
Proof. by vm_compute. Qed.
