(* ===== verification/Scheduling.v ===== *)
(** src/scheduling: intervals of the day in which something is to be done again and
    again, calendars of such intervals by day, weekday and day of a month, and named
    calendars.

    A [time.Time] is an instant, in nanoseconds since 1970, and a location; locations
    are an interface that turns an instant into the civil time it is there, in
    nanoseconds since 1970 as if that were UTC, and back.  [UnixNano] is a 64-bit
    integer, which wraps for the year 0 that parsed times of the day have.  Locks are
    left out: one call at a time.  A map is the list of its entries in the order [range]
    goes over it; the entries that [Set] deletes from the maps it is given are not
    deleted in the caller's map here. *)

From S2P Require Import Prelude Runes GoStrings.
From Stdlib Require Strings.String.
Import Stdlib.Strings.String.StringSyntax.
From stdpp Require Import gmap sorting.
#[local] Open Scope Z_scope.

(** The bytes of a constant. *)
Definition txt (s : String.string) : list Z := map (λ a, Z.of_N (Ascii.N_of_ascii a)) (String.list_ascii_of_string s).
Declare Scope string_scope.
#[local] Delimit Scope string_scope with string.
#[local] Arguments txt s%_string.

(** ** time *)

Class TimeZones := {
  Location : Type;
  UTC : Location;
  Local : Location;
  civil_of : Location → Z → Z;
  unix_of : Location → Z → Z;
  LoadLocation : list Z → Location + goerr;
  ParseDuration : list Z → Z;
  utc_civil u : civil_of UTC u = u }.

Definition wrap64 (n : Z) : Z := (n + 2 ^ 63) mod 2 ^ 64 - 2 ^ 63.

Definition sec_ns : Z := 1000000000.
Definition day_ns : Z := 86400 * sec_ns.

Section time.
Context `{TimeZones}.

Record Time := MkTime { unix : Z; loc : Location }.

(** [time.Time{}]: the first of January of the year 1. *)
Definition zero_time : Time := MkTime (- 62135596800 * sec_ns) UTC.

Definition UnixNano (t : Time) : Z := wrap64 (unix t).
Definition civil (t : Time) : Z := civil_of (loc t) (unix t).
Definition time_Date (l : Location) (c : Z) : Time := MkTime (unix_of l c) l.
Definition day_of (t : Time) : Z := civil t / day_ns.
Definition clock (t : Time) : Z := civil t mod day_ns.
Definition Add (t : Time) (d : Z) : Time := MkTime (unix t + wrap64 d) (loc t).

(** The month, 1 to 12, and the day in it, of a day counted from 1970. *)
Definition month_day (days : Z) : Z * Z :=
  let z := days + 719468 in
  let doe := z mod 146097 in
  let yoe := (doe - doe / 1460 + doe / 36524 - doe / 146096) / 365 in
  let doy := doe - (365 * yoe + yoe / 4 - yoe / 100) in
  let mp := (5 * doy + 2) / 153 in
  (if mp <? 10 then mp + 3 else mp - 9, doy - (153 * mp + 2) / 5 + 1).
Definition Month (t : Time) : Z := (month_day (day_of t)).1.
Definition Day (t : Time) : Z := (month_day (day_of t)).2.
(** 0 is Sunday. *)
Definition Weekday (t : Time) : Z := (day_of t + 4) mod 7.

(** *** interval.go *)

Definition Bod (t : Time) : Time := time_Date (loc t) (day_of t * day_ns).
Definition Today (tday t : Time) : Time :=
  time_Date (loc tday) (day_of tday * day_ns + clock t / sec_ns * sec_ns).
Definition TodayNano (tday t : Time) : Time := time_Date (loc tday) (day_of tday * day_ns + clock t).
Definition ChangeLocation (t : Time) (l : Location) : Time := time_Date l (civil t).

Record Interval := MkInterval { from : Time; to : Time; intrval : Z }.

(** [Valid], with the results of its calls of [time.Now] and whether the previous time
    has another location. *)
Definition Valid (o : option Interval) (tloc : Location) (same_loc : bool) (now1 now2 now3 : Time) (prevtsttime : list Time)
  : exec (bool * bool * Time) :=
  match o with
  | None => Done (false, false, zero_time)
  | Some iv =>
    let from := ChangeLocation (Today now1 (from iv)) tloc in
    let to := ChangeLocation (Today now2 (to iv)) tloc in
    let tnow := ChangeLocation now3 tloc in
    if (UnixNano from <? UnixNano to) && (UnixNano from <=? UnixNano tnow) && (UnixNano tnow <? UnixNano to) then
      let tsttime :=
        match prevtsttime with
        | prvt :: _ =>
          let prvt := if same_loc then prvt else ChangeLocation prvt tloc in
          if UnixNano prvt <=? UnixNano from then Today from from else Today prvt prvt
        | [] => Today tnow tnow
        end in
      if (UnixNano from <=? UnixNano tsttime) && (UnixNano tsttime <? UnixNano to) then
        let maxnowduration := wrap64 (UnixNano tnow - UnixNano from) in
        let maxduration := wrap64 (UnixNano tsttime - UnixNano from) in
        let interval := intrval iv in
        if (0 <? maxduration) && (interval <? maxduration) then
          if interval =? 0 then Panic
          else
            let intrvcnt := Z.quot maxduration interval in
            let maxintrvcnt := Z.quot maxnowduration interval in
            let crntintrvtime := Add from (intrvcnt * interval) in
            let crntmaxintrvtime := Add from (maxintrvcnt * interval) in
            let cantrigger := UnixNano crntintrvtime <=? UnixNano crntmaxintrvtime in
            let next := if UnixNano (Add crntintrvtime interval) <? UnixNano to then Add crntintrvtime interval
                        else Bod (Add tnow day_ns) in
            Done (true, cantrigger, if cantrigger then next else zero_time)
        else Done (false, false, zero_time)
      else Done (false, false, zero_time)
    else Done (false, false, zero_time)
  end.

(** *** calendar.go *)

(** Intervals by day, by weekday, by month and day. *)
Record Calendar := MkCalendar {
  weekly : gmap Z (list Interval);
  daily : list Interval;
  monthly : gmap Z (gmap Z (list Interval));
  tloc : Location }.

Definition NewCalendar : Calendar := MkCalendar ∅ [] ∅ Local.

Definition set_daily (c : Calendar) (d : list Interval) : Calendar := MkCalendar (weekly c) d (monthly c) (tloc c).
Definition set_weekly (c : Calendar) (w : gmap Z (list Interval)) : Calendar := MkCalendar w (daily c) (monthly c) (tloc c).
Definition set_monthly (c : Calendar) (m : gmap Z (gmap Z (list Interval))) : Calendar := MkCalendar (weekly c) (daily c) m (tloc c).

(** What [Set] is given: strings, maps, slices, and other values. *)
Inductive jval :=
| JStr (s : list Z)
| JMap (m : list (list Z * jval))
| JArr (a : list jval)
| JOther.

Definition map_get (m : list (list Z * jval)) (k : list Z) : option jval :=
  snd <$> List.find (λ kv, bool_decide (kv.1 = k)) m.
Definition map_delete (m : list (list Z * jval)) (k : list Z) : list (list Z * jval) :=
  List.filter (λ kv, negb (bool_decide (kv.1 = k))) m.

(** [time.Parse(time.TimeOnly, s)]: hours, minutes and seconds with two digits (the
    hours also with one), maybe a fraction of a second. *)
Definition digit (c : Z) : option Z := if (48 <=? c) && (c <=? 57) then Some (c - 48) else None.
Fixpoint fraction (s : list Z) (unit : Z) : option Z :=
  match s with
  | [] => Some 0
  | c :: s' => match digit c, fraction s' (unit / 10) with Some d, Some f => Some (d * unit + f) | _, _ => None end
  end.
Definition two_digits (s : list Z) (one : bool) : option (Z * list Z) :=
  match s with
  | a :: s1 =>
    match digit a, s1 with
    | Some x, b :: s2 => match digit b with
                         | Some y => Some (10 * x + y, s2)
                         | None => if one then Some (x, s1) else None
                         end
    | Some x, [] => if one then Some (x, []) else None
    | None, _ => None
    end
  | [] => None
  end.
Definition ParseTimeOnly (s : list Z) : option Z :=
  match two_digits s true with
  | Some (h, 58 :: s1) =>
    match two_digits s1 false with
    | Some (m, 58 :: s2) =>
      match two_digits s2 false with
      | Some (sec, s3) =>
        if (h <? 24) && (m <? 60) && (sec <? 60) then
          let whole := ((h * 60 + m) * 60 + sec) * sec_ns in
          match s3 with
          | [] => Some whole
          | c :: s4 => if ((c =? 46) || (c =? 44)) && (0 <? len s4)
                       then match fraction s4 (sec_ns / 10) with Some f => Some (whole + f) | None => None end
                       else None
          end
        else None
      | None => None
      end
    | _ => None
    end
  | _ => None
  end.

(** A time of the day is in the year 0. *)
Definition year0 : Z := - 62167219200 * sec_ns.

(** [toTime]: a value that is no text, or an empty one, is the zero time without an
    error; [None] is the error. *)
Definition toTime (v : jval) (l : Location) : option Time :=
  match v with
  | JStr ((_ :: _) as s) =>
    match ParseTimeOnly s with
    | Some c => Some (ChangeLocation (MkTime (year0 + c) UTC) l)
    | None => None
    end
  | _ => Some zero_time
  end.

(** [sort.Slice] with the order of the beginnings: insertion, which is what it does for
    up to 12 intervals; for more, equal beginnings may come in another order.  The
    intervals a calendar holds are sorted, so that sorting them again where [Tick] reads
    them changes nothing. *)
Fixpoint insert_by (lt : Time → Time → bool) (iv : Interval) (ivs : list Interval) : list Interval :=
  match ivs with
  | [] => [iv]
  | x :: ivs' => if lt (from iv) (from x) then iv :: ivs else x :: insert_by lt iv ivs'
  end.
Definition earlier (a b : Time) : bool := UnixNano a <? UnixNano b.
Definition sortIntervals (intrvls : list Interval) : list Interval :=
  fold_left (λ acc iv, insert_by earlier iv acc) intrvls [].

(** One round over the intervals: an end after the next beginning is moved to it. *)
Fixpoint rectify_round (ivs : list Interval) : bool * list Interval :=
  match ivs with
  | a :: ((b :: _) as ivs') =>
    let '(c, r) := rectify_round ivs' in
    if UnixNano (from b) <? UnixNano (to a) then (true, MkInterval (from a) (Today (to a) (from b)) (intrval a) :: r)
    else (c, a :: r)
  | _ => (false, ivs)
  end.
Fixpoint rectify (fuel : nat) (ivs : list Interval) : exec (list Interval) :=
  match fuel with
  | O => NoFuel
  | S fuel' => let '(checked, ivs') := rectify_round ivs in if (checked : bool) then rectify fuel' ivs' else Done ivs'
  end.
Definition rectifyToIntarvals (fuel : nat) (intrvls : list Interval) : exec (list Interval) := rectify fuel intrvls.

Definition key_from : list Z := txt "from".
Definition key_to : list Z := txt "to".
Definition key_interval : list Z := txt "interval".

(** A text that is not only spaces, trimmed. *)
Definition text_or (v : option jval) (dflt : list Z) : list Z :=
  match v with
  | Some (JStr s) => let t := encode_all (TrimFunc IsSpace (utf8.runes s)) in if bool_decide (t = []) then dflt else t
  | _ => dflt
  end.

(** An interval, when both times can be read and it is longer than nothing. *)
Definition one_interval (l : Location) (f t : jval) (intrval : list Z) : list Interval :=
  match toTime f l, toTime t l with
  | Some f', Some t' => if 0 <? ParseDuration intrval then [MkInterval f' t' (ParseDuration intrval)] else []
  | _, _ => []
  end.

Definition map_intervals (dlftintrval : list Z) (l : Location) (av : jval) : list Interval :=
  match av with
  | JMap dlmp =>
    let frmd := map_get dlmp key_from in
    let tod := map_get dlmp key_to in
    let intrval := text_or (map_get dlmp key_interval) dlftintrval in
    let rest := map_delete (map_delete (map_delete dlmp key_from) key_to) key_interval in
    match frmd, tod with
    | Some f, Some t => one_interval l f t intrval
    | _, _ => []
    end ++ concat (map (λ kv, one_interval l (JStr kv.1) kv.2 intrval) rest)
  | _ => []
  end.

(** The intervals of one map, or of each map of a slice. *)
Definition entries (dlftintrval : list Z) (v : jval) (l : Location) : list Interval :=
  concat (map (map_intervals dlftintrval l) (match v with JMap [] => [] | JMap m => [JMap m] | JArr a => a | _ => [] end)).

Definition intervals (fuel : nat) (dlftintrval : list Z) (v : jval) (l : Location) : exec (list Interval) :=
  match entries dlftintrval v l with
  | [] => Done []
  | ivs => rectifyToIntarvals fuel (sortIntervals ivs)
  end.

(** *** Names of days and months *)

Definition strtoday (k : list Z) : option Z :=
  snd <$> List.find (λ nd, bool_decide (nd.1 = k))
    [(txt "mon", 1); (txt "monday", 1); (txt "tue", 2); (txt "tuesday", 2); (txt "wed", 3); (txt "wednesday", 3);
     (txt "thu", 4); (txt "thursday", 4); (txt "fri", 5); (txt "friday", 5); (txt "sat", 6); (txt "saturday", 6);
     (txt "sun", 0); (txt "sunday", 0)].
Definition strtomonth (k : list Z) : option Z :=
  snd <$> List.find (λ nm, bool_decide (nm.1 = k))
    [(txt "jan", 1); (txt "january", 1); (txt "feb", 2); (txt "february", 2); (txt "mar", 3); (txt "march", 3);
     (txt "apr", 4); (txt "april", 4); (txt "may", 5); (txt "jun", 6); (txt "june", 6); (txt "jul", 7); (txt "july", 7);
     (txt "aug", 8); (txt "august", 8); (txt "sep", 9); (txt "september", 9); (txt "oct", 10); (txt "october", 10);
     (txt "nov", 11); (txt "november", 11); (txt "dec", 12); (txt "december", 12)].

(** [strconv.ParseInt(s, 10, 64)], 0 for an error other than one out of range. *)
Fixpoint digits_of (s : list Z) (acc : Z) : option Z :=
  match s with
  | [] => Some acc
  | c :: s' => match digit c with Some d => digits_of s' (10 * acc + d) | None => None end
  end.
Definition ParseInt (s : list Z) : Z :=
  let limit neg n := if (neg : bool) then (if 2 ^ 63 <? n then - 2 ^ 63 else - n) else (if 2 ^ 63 <=? n then 2 ^ 63 - 1 else n) in
  match s with
  | 45 :: ((_ :: _) as d) => match digits_of d 0 with Some n => limit true n | None => 0 end
  | 43 :: ((_ :: _) as d) => match digits_of d 0 with Some n => limit false n | None => 0 end
  | _ :: _ => match digits_of s 0 with Some n => limit false n | None => 0 end
  | [] => 0
  end.

(** *** Set *)

Section calendar.
Context `{UnicodeCase}.

Definition lower (s : list Z) : list Z := encode_all (ToLower (utf8.runes s)).
Definition lower_trimmed (s : list Z) : list Z := encode_all (ToLower (TrimFunc IsSpace (utf8.runes s))).

(** The intervals of an entry, when there are any. *)
Definition with_intervals (fuel : nat) (intrval : list Z) (v : jval) (c : Calendar) (f : list Interval → Calendar) : exec Calendar :=
  let* ivs := intervals fuel intrval v (tloc c) in
  Done (match ivs with [] => c | _ => f ivs end).

Fixpoint set_month (fuel : nat) (intrval : list Z) (month : Z) (mnthkv : list (list Z * jval)) (c : Calendar) : exec Calendar :=
  match mnthkv with
  | [] => Done c
  | (md, mdv) :: mnthkv' =>
    let di := ParseInt md in
    let* c1 := if 0 <? di then
                 with_intervals fuel intrval mdv c (λ ivs,
                   set_monthly c (<[month := <[di := ivs]> (default ∅ (monthly c !! month))]> (monthly c)))
               else Done c in
    set_month fuel intrval month mnthkv' c1
  end.

Definition set_entry (fuel : nat) (intrval : list Z) (k : list Z) (v : jval) (c : Calendar) : exec Calendar :=
  let k := lower k in
  if bool_decide (k = txt "daily") then with_intervals fuel intrval v c (set_daily c)
  else match strtoday k with
       | Some day => with_intervals fuel intrval v c (λ ivs, set_weekly c (<[day := ivs]> (weekly c)))
       | None => match strtomonth k, v with
                 | Some month, JMap mnthkv => set_month fuel intrval month mnthkv c
                 | _, _ => Done c
                 end
       end.

Fixpoint set_entries (fuel : nat) (intrval : list Z) (kvs : list (list Z * jval)) (c : Calendar) : exec Calendar :=
  match kvs with
  | [] => Done c
  | (k, v) :: kvs' => let* c1 := set_entry fuel intrval k v c in set_entries fuel intrval kvs' c1
  end.

(** A default interval that is no text panics. *)
Definition set_map (fuel : nat) (mpkv : list (list Z * jval)) (c : Calendar) : exec Calendar :=
  let* intrval :=
    match map_get mpkv key_interval with
    | Some (JStr s) => Done (text_or (Some (JStr s)) (txt "10s"))
    | Some _ => Panic
    | None => Done (txt "10s")
    end in
  set_entries fuel intrval (map_delete mpkv key_interval) c.

Fixpoint calendar_Set (fuel : nat) (a : list jval) (o : option Calendar) : exec (option Calendar) :=
  match o with
  | None => Done None
  | Some c =>
    match a with
    | [] => Done o
    | d :: a' => let* c1 := match d with JMap mpkv => set_map fuel mpkv c | _ => Done c end in calendar_Set fuel a' (Some c1)
    end
  end.

(** *** Clear *)

Definition ClearMonth (o : option Calendar) (month : list Z) (days : list Z) : option Calendar :=
  match o with
  | None => None
  | Some c =>
    match strtomonth (lower_trimmed month) with
    | Some mnth =>
      match monthly c !! mnth with
      | Some themonth =>
        Some (set_monthly c (<[mnth := match days with [] => ∅ | _ => fold_left (λ m d, delete d m) days themonth end]> (monthly c)))
      | None => o
      end
    | None => o
    end
  end.

Definition ClearWeek (o : option Calendar) (days : list (list Z)) : option Calendar :=
  match o with
  | None => None
  | Some c =>
    let dys := omap (λ day, strtoday (lower_trimmed day)) days in
    Some (set_weekly c (match days with [] => ∅ | _ => fold_left (λ w d, delete d w) dys (weekly c) end))
  end.

(** The times that are named, each once, that can be read. *)
Fixpoint named_times (seen : list (list Z)) (frmtimes : list (list Z)) : list Time :=
  match frmtimes with
  | [] => []
  | tm :: frmtimes' =>
    if bool_decide (tm = []) || bool_decide (tm ∈ seen) then named_times seen frmtimes'
    else match ParseTimeOnly tm with
         | Some t => MkTime (year0 + t) UTC :: named_times (tm :: seen) frmtimes'
         | None => named_times (tm :: seen) frmtimes'
         end
  end.

Fixpoint insert_time (t : Time) (ts : list Time) : list Time :=
  match ts with
  | [] => [t]
  | x :: ts' => if UnixNano t <? UnixNano x then t :: ts else x :: insert_time t ts'
  end.

(** The search for the named times among the intervals.  A match at [dlyi] leaves the
    intervals before it and the one after it ([append(daily[:dlyi], daily[dlyi+1])]). *)
Record clearing := MkClearing { cl_daily : list Interval; cl_dlyl : Z; cl_frms : list Time; cl_tstl : Z; cl_again : bool }.

Fixpoint clear_inner (fuel : nat) (tnow : Time) (tsti dlyi : Z) (s : clearing) : exec (Z * clearing) :=
  match fuel with
  | O => NoFuel
  | S fuel' =>
    if (dlyi <? cl_dlyl s) && (tsti <? cl_tstl s) then
      let* frm := index (cl_frms s) tsti in
      let* iv := index (cl_daily s) dlyi in
      if UnixNano (TodayNano tnow frm) =? UnixNano (TodayNano tnow (from iv)) then
        let* nxt := index (cl_daily s) (dlyi + 1) in
        let* before := slice (cl_daily s) 0 dlyi in
        let* f0 := slice (cl_frms s) 0 tsti in
        let* f1 := slice (cl_frms s) 0 (tsti + 1) in
        clear_inner fuel' tnow tsti dlyi (MkClearing (before ++ [nxt]) (cl_dlyl s - 1) (f0 ++ f1) (cl_tstl s - 1) true)
      else clear_inner fuel' tnow tsti (dlyi + 1) s
    else Done (dlyi, s)
  end.

Fixpoint clear_middle (fuel : nat) (tnow : Time) (tsti dlyi : Z) (s : clearing) : exec clearing :=
  match fuel with
  | O => NoFuel
  | S fuel' =>
    if tsti <? cl_tstl s then
      let* '(dlyi', s') := clear_inner fuel tnow tsti dlyi s in clear_middle fuel' tnow (tsti + 1) dlyi' s'
    else Done s
  end.

Fixpoint clear_outer (fuel : nat) (tnow : Time) (s : clearing) : exec clearing :=
  match fuel with
  | O => NoFuel
  | S fuel' =>
    let* s' := clear_middle fuel tnow 0 0 (MkClearing (cl_daily s) (cl_dlyl s) (cl_frms s) (cl_tstl s) false) in
    if cl_again s' then clear_outer fuel' tnow s' else Done s'
  end.

Definition ClearDaily (fuel : nat) (tnow : Time) (o : option Calendar) (frmtimes : list (list Z)) : exec (option Calendar) :=
  match o with
  | None => Done None
  | Some c =>
    match frmtimes with
    | [] => Done (Some (set_daily c []))
    | _ =>
      let tstfrms := fold_left (λ acc t, insert_time t acc) (named_times [] frmtimes) [] in
      if 0 <? len tstfrms then
        let* s := clear_outer fuel tnow (MkClearing (daily c) (len (daily c)) tstfrms (len tstfrms) true) in
        Done (Some (set_daily c (cl_daily s)))
      else Done o
    end
  end.

(** *** Tick *)

(** The loop over the intervals, from the [un]th on: [lstin] goes down as it goes up,
    [lst] stays the last interval. *)
Fixpoint check_loop (tnow : Time) (intrvl : Z) (lst : Interval) (un lstin : Z) (ivs : list Interval) : exec (bool * Time) :=
  match ivs with
  | [] => Done (false, zero_time)
  | ivr :: ivs' =>
    let tnownano := UnixNano tnow in
    let from_ := Today tnow (from ivr) in
    let to_ := Today tnow (to ivr) in
    let lstfrom := Today tnow (from lst) in
    let lstto := Today tnow (to lst) in
    let chkfrmto := (UnixNano from_ <=? tnownano) && (tnownano <? UnixNano to_) in
    let chklstfrmto := (UnixNano lstfrom <? tnownano) && (tnownano <? UnixNano lstto) in
    if chkfrmto then
      if intrval ivr =? 0 then Panic
      else
        let tnowcnt := Z.quot (wrap64 (tnownano - UnixNano from_)) (intrval ivr) in
        let nexttime := Add from_ ((tnowcnt + 1) * intrval ivr) in
        Done (true, if (un <? intrvl - 1) && (UnixNano to_ <=? UnixNano nexttime) then TodayNano tnow (from lst) else nexttime)
    else if chklstfrmto then
      if intrval lst =? 0 then Panic
      else
        let tnowcnt := Z.quot (wrap64 (tnownano - UnixNano lstfrom)) (intrval lst) in
        Done (true, Today tnow (Add lstfrom ((tnowcnt + 1) * intrval lst)))
    else
      match ivs' with
      | nxt :: _ =>
        if (un <? intrvl - 1) && (UnixNano to_ <=? tnownano) && (tnownano <=? UnixNano (Today tnow (from nxt)))
        then Done (false, TodayNano tnow (from lst))
        else if lstin - 1 <=? un then Done (false, zero_time)
        else check_loop tnow intrvl lst (un + 1) (lstin - 1) ivs'
      | [] => Done (false, zero_time)
      end
  end.

Definition checkTick (t1 tnow : Time) (intrvls : list Interval) : exec (bool * Time) :=
  match intrvls, last intrvls with
  | iv0 :: _, Some lst =>
    if (UnixNano t1 <? UnixNano tnow)
       && (UnixNano (Today tnow (from iv0)) <=? UnixNano tnow) && (UnixNano tnow <? UnixNano (Today tnow (to lst)))
    then check_loop tnow (len intrvls) lst 0 (len intrvls - 1) intrvls
    else Done (false, zero_time)
  | _, _ => Done (false, zero_time)
  end.

Definition Tick (o : option Calendar) (now : Time) (prevt : list Time) : exec (bool * Time) :=
  match o with
  | None => Done (false, zero_time)
  | Some c =>
    let tnow := ChangeLocation now (tloc c) in
    let t1 := match prevt with
              | p :: _ => ChangeLocation (TodayNano p p) (tloc c)
              | [] => TodayNano tnow tnow
              end in
    let* '(valid, nexttime) :=
      checkTick t1 tnow (sortIntervals (default [] (default ∅ (monthly c !! Month t1) !! Day t1))) in
    if (valid : bool) then Done (valid, nexttime)
    else
      let* '(valid, nexttime) := checkTick (TodayNano t1 t1) tnow (sortIntervals (default [] (weekly c !! Weekday t1))) in
      if (valid : bool) then Done (valid, nexttime)
      else checkTick (TodayNano tnow t1) tnow (sortIntervals (daily c))
  end.

(** The location: one that is given, or named. *)
Inductive locarg := ALocation (l : Location) | AName (s : list Z) | ANoLocation.
Definition SetLocation (o : option Calendar) (a : locarg) : option goerr * option Calendar :=
  let set c l := MkCalendar (weekly c) (daily c) (monthly c) l in
  match o, a with
  | Some c, ALocation l => (None, Some (set c l))
  | Some c, AName s =>
    let s := encode_all (TrimFunc IsSpace (utf8.runes s)) in
    if bool_decide (s = []) then (None, o)
    else match LoadLocation s with
         | inl l => (None, Some (set c l))
         | inr e => (Some e, o)
         end
  | _, _ => (None, o)
  end.

(** *** scheduling.go: calendars by name *)

Record Scheduling := MkScheduling { clndrs : option (gmap (list Z) Calendar) }.

Definition trimmed (s : list Z) : list Z := encode_all (TrimFunc IsSpace (utf8.runes s)).

Definition scheduling_Calendar (o : option Scheduling) (clndrname : list Z) : option Calendar :=
  match o with
  | Some s => if bool_decide (trimmed clndrname = []) then None else default ∅ (clndrs s) !! trimmed clndrname
  | None => None
  end.

(** A name makes its calendar the one that the maps after it set; an empty name none. *)
Fixpoint scheduling_Set (fuel : nat) (a : list jval) (cur : option (list Z)) (s : Scheduling) : exec Scheduling :=
  match a with
  | [] => Done s
  | JStr ds :: a' =>
    if bool_decide (trimmed ds = []) then scheduling_Set fuel a' None s
    else
      let m := default ∅ (clndrs s) in
      let m1 := match m !! trimmed ds with Some _ => m | None => <[trimmed ds := NewCalendar]> m end in
      scheduling_Set fuel a' (Some (trimmed ds)) (MkScheduling (Some m1))
  | d :: a' =>
    match cur with
    | None => scheduling_Set fuel a' cur s
    | Some name =>
      let m := default ∅ (clndrs s) in
      let* c := calendar_Set fuel [d] (m !! name) in
      scheduling_Set fuel a' cur (MkScheduling (Some (match c with Some c' => <[name := c']> m | None => m end)))
    end
  end.
Definition NewScheduling (fuel : nat) (a : list jval) : exec Scheduling := scheduling_Set fuel a None (MkScheduling None).

Definition Calendars (o : option Scheduling) (clndrnames : list (list Z)) : list Calendar :=
  omap (scheduling_Calendar o) clndrnames.

(** The calendars of the names that are given, or all; the latest of their next times. *)
Fixpoint latest (cs : list Calendar) (now : Time) (prevt : list Time) (valid : bool) (prvu : Z) (nexttime : Time) : exec (bool * Time) :=
  match cs with
  | [] => Done (valid, nexttime)
  | c :: cs' =>
    let* '(vld, nxtt) := Tick (Some c) now prevt in
    if (vld : bool) then
      if prvu <? UnixNano nxtt then latest cs' now prevt true (UnixNano nxtt) nxtt
      else latest cs' now prevt true prvu nexttime
    else latest cs' now prevt valid prvu nexttime
  end.

Definition scheduling_Tick (o : option Scheduling) (now : Time) (names : list (list Z)) (prevt : list Time) : exec (bool * Time) :=
  match o with
  | Some (MkScheduling (Some m)) =>
    let clndrnmes := List.filter (λ n, negb (bool_decide (n = []))) (map trimmed names) in
    let cs := omap (λ kc : list Z * Calendar, if bool_decide (clndrnmes = []) || bool_decide (kc.1 ∈ clndrnmes) then Some kc.2 else None)
                (map_to_list m) in
    latest cs now (take 1 prevt) false 0 zero_time
  | _ => Done (false, zero_time)
  end.
End calendar.
End time.

(** * Theory *)

Section theory.
Context `{TimeZones} `{UnicodeCase}.

(** ** Calendars are well formed *)

(** [a] begins and ends before [b] begins. *)
Definition before (a b : Interval) : Prop :=
  UnixNano (from a) ≤ UnixNano (from b) ∧ UnixNano (to a) ≤ UnixNano (from b).

(** Intervals that follow each other without overlap, each with a positive duration. *)
Definition in_order (ivs : list Interval) : Prop :=
  StronglySorted before ivs ∧ Forall (λ iv, 0 < intrval iv) ivs.

Record calendar_ok (c : Calendar) : Prop := {
  ok_daily : in_order (daily c);
  ok_weekly d ivs : weekly c !! d = Some ivs → in_order ivs;
  ok_monthly m ds d ivs : monthly c !! m = Some ds → ds !! d = Some ivs → in_order ivs }.

Definition from_le (a b : Interval) : Prop := UnixNano (from a) ≤ UnixNano (from b).

Lemma insert_sorted iv ivs : StronglySorted from_le ivs → StronglySorted from_le (insert_by earlier iv ivs).
Proof.
  induction 1 as [|x ivs Hs IH Hx]; [by repeat constructor|]. cbn. unfold earlier at 1.
  destruct (Z.ltb_spec (UnixNano (from iv)) (UnixNano (from x))) as [Hlt|Hge].
  - constructor; [by constructor|]. constructor; [unfold from_le; lia|].
    rewrite Forall_forall in Hx |- *. intros y Hy. pose proof (Hx y Hy). unfold from_le in *. lia.
  - constructor; [exact IH|]. clear IH. induction ivs as [|y ivs IH]; cbn.
    + constructor; [unfold from_le; lia|constructor].
    + inversion Hx; inversion Hs; subst. destruct (earlier _ _); constructor; [unfold from_le; lia|by constructor|done|auto].
Qed.

Lemma insert_elem iv ivs (P : Interval → Prop) : P iv → Forall P ivs → Forall P (insert_by earlier iv ivs).
Proof. intros Hp. induction 1 as [|x ivs Hx Hivs IH]; cbn; [by repeat constructor|]. destruct (earlier _ _); by repeat constructor. Qed.

Lemma sortIntervals_sorted ivs (P : Interval → Prop) :
  Forall P ivs → StronglySorted from_le (sortIntervals ivs) ∧ Forall P (sortIntervals ivs).
Proof.
  intros Hp. unfold sortIntervals. assert (∀ acc, StronglySorted from_le acc → Forall P acc →
    StronglySorted from_le (fold_left (λ acc iv, insert_by earlier iv acc) ivs acc) ∧ Forall P (fold_left (λ acc iv, insert_by earlier iv acc) ivs acc)) as Hgo.
  { induction Hp as [|iv ivs Hiv Hp IH]; intros acc Hs Ha; [done|]. cbn. apply IH; [by apply insert_sorted|by apply insert_elem]. }
  apply Hgo; constructor.
Qed.

(** A round keeps the beginnings and the durations. *)
Definition same_start (a b : Interval) : Prop := from a = from b ∧ intrval a = intrval b.

#[local] Instance same_start_trans : Transitive same_start.
Proof. intros x y z [? ?] [? ?]. split; congruence. Qed.

Lemma rectify_round_cons a b ivs :
  rectify_round (a :: b :: ivs) =
    let '(c, r) := rectify_round (b :: ivs) in
    if UnixNano (from b) <? UnixNano (to a) then (true, MkInterval (from a) (Today (to a) (from b)) (intrval a) :: r) else (c, a :: r).
Proof. done. Qed.

Lemma rectify_round_start ivs : Forall2 same_start ivs (rectify_round ivs).2.
Proof.
  induction ivs as [|a ivs IH]; [constructor|]. destruct ivs as [|b ivs]; [constructor; [by split|constructor]|].
  rewrite rectify_round_cons. destruct (rectify_round (b :: ivs)) as [c r]. cbn [snd] in IH.
  destruct (_ <? _); (constructor; [by split|exact IH]).
Qed.

Lemma rectify_start fuel ivs ivs' : rectify fuel ivs = Done ivs' → Forall2 same_start ivs ivs'.
Proof.
  revert ivs. induction fuel as [|fuel IH]; intros ivs E; [done|]. cbn [rectify] in E.
  pose proof (rectify_round_start ivs) as Hs. destruct (rectify_round ivs) as [[] r]; [|by injection E as <-].
  etrans; [exact Hs|by apply IH].
Qed.

(** A round that changes nothing leaves no overlap. *)
Lemma rectify_round_done ivs r :
  rectify_round ivs = (false, r) → r = ivs ∧ ∀ i a b, ivs !! i = Some a → ivs !! S i = Some b → UnixNano (to a) ≤ UnixNano (from b).
Proof.
  revert r. induction ivs as [|a ivs IH]; intros r E; [injection E as <-; split; [done|by intros i x y Hx]|].
  destruct ivs as [|b ivs]; [injection E as <-; split; [done|by intros [|i] x y]|].
  rewrite rectify_round_cons in E. destruct (rectify_round (b :: ivs)) as [c r'].
  destruct (Z.ltb_spec (UnixNano (from b)) (UnixNano (to a))); [done|]. injection E as -> <-.
  destruct (IH r' eq_refl) as [-> Hadj]. split; [done|]. intros [|i] x y Hx Hy.
  - injection Hx as <-. injection Hy as <-. lia.
  - by apply (Hadj i).
Qed.

Lemma rectify_disjoint fuel ivs ivs' :
  rectify fuel ivs = Done ivs' → ∀ i a b, ivs' !! i = Some a → ivs' !! S i = Some b → UnixNano (to a) ≤ UnixNano (from b).
Proof.
  revert ivs. induction fuel as [|fuel IH]; intros ivs E; [done|]. cbn [rectify] in E.
  destruct (rectify_round ivs) as [[] r] eqn:Er; [by apply (IH r)|]. injection E as <-.
  by destruct (rectify_round_done ivs r Er) as [-> Hadj].
Qed.

Lemma from_sorted_start ivs ivs' : Forall2 same_start ivs ivs' → StronglySorted from_le ivs → StronglySorted from_le ivs'.
Proof.
  induction 1 as [|a b ivs ivs' [Hf _] Hall IH]; intros Hs; [constructor|]. inversion Hs as [|? ? Hs' Ha]; subst.
  constructor; [by apply IH|]. clear -Hf Hall Ha. induction Hall as [|x y ivs ivs' [Hxy _] Hall IH]; [constructor|].
  inversion Ha as [|? ? Hx Ha']; subst. constructor; [|by apply IH]. unfold from_le in *. by rewrite <- Hf, <- Hxy.
Qed.

Lemma in_order_of ivs :
  StronglySorted from_le ivs → (∀ i a b, ivs !! i = Some a → ivs !! S i = Some b → UnixNano (to a) ≤ UnixNano (from b)) →
  StronglySorted before ivs.
Proof.
  induction 1 as [|a ivs Hs IH Ha]; intros Hadj; [constructor|]. constructor.
  - apply IH. intros i. apply (Hadj (S i)).
  - destruct ivs as [|b ivs]; [constructor|]. pose proof (Hadj 0%nat a b eq_refl eq_refl) as Hab.
    inversion Ha as [|? ? Hab' Ha']; inversion Hs as [|? ? Hs' Hb]; subst. constructor; [by split|].
    rewrite Forall_forall in Ha', Hb |- *. intros x Hx. specialize (Ha' x Hx). specialize (Hb x Hx). unfold from_le in *. split; lia.
Qed.

Lemma one_interval_positive l f t i : Forall (λ iv, 0 < intrval iv) (one_interval l f t i).
Proof.
  unfold one_interval. repeat case_match; constructor; [|constructor]. cbn. by apply Z.ltb_lt.
Qed.

Lemma map_intervals_positive d l v : Forall (λ iv, 0 < intrval iv) (map_intervals d l v).
Proof.
  unfold map_intervals. destruct v as [|m| |]; try constructor. apply Forall_app. split.
  - repeat case_match; try constructor. apply one_interval_positive.
  - apply Forall_concat, Forall_fmap, Forall_forall. intros kv _. apply one_interval_positive.
Qed.

Lemma intervals_ok fuel d v l ivs : intervals fuel d v l = Done ivs → in_order ivs.
Proof.
  unfold intervals. assert (Forall (λ iv, 0 < intrval iv) (entries d v l)) as Hpos.
  { unfold entries. apply Forall_concat, Forall_fmap, Forall_forall. intros x _. apply map_intervals_positive. }
  destruct (entries d v l) as [|iv0 ivs0] eqn:E; [intros [= <-]; by repeat constructor|]. intros Er. unfold rectifyToIntarvals in Er.
  destruct (sortIntervals_sorted _ _ Hpos) as [Hs Hp]. pose proof (rectify_start _ _ _ Er) as Hst. split.
  - apply in_order_of; [by eapply from_sorted_start|by eapply rectify_disjoint].
  - clear -Hst Hp. revert Hp. induction Hst as [|a b x y [_ Hi] Hst IH]; intros Hp; [constructor|].
    inversion Hp; subst. constructor; [by rewrite <- Hi|by apply IH].
Qed.

Lemma with_intervals_ok fuel i v c f c' :
  calendar_ok c → (∀ ivs, in_order ivs → calendar_ok (f ivs)) → with_intervals fuel i v c f = Done c' → calendar_ok c'.
Proof.
  intros Hc Hf E. unfold with_intervals in E. destruct (intervals _ _ _ _) as [ivs| |] eqn:Ei; try done. cbn [exec_bind] in E.
  injection E as <-. destruct ivs; [done|]. apply Hf. by eapply intervals_ok.
Qed.

Lemma set_daily_ok c ivs : calendar_ok c → in_order ivs → calendar_ok (set_daily c ivs).
Proof. intros [] Hi. by split. Qed.

Lemma set_weekly_ok c d ivs : calendar_ok c → in_order ivs → calendar_ok (set_weekly c (<[d := ivs]> (weekly c))).
Proof.
  intros [Hd Hw Hm] Hi. split; [done| |done]. intros d' ivs'. cbn. rewrite lookup_insert_Some. intros [[_ <-]|[_ Hl]]; [done|by eapply Hw].
Qed.

Lemma set_monthly_ok c m d ivs :
  calendar_ok c → in_order ivs →
  calendar_ok (set_monthly c (<[m := <[d := ivs]> (default ∅ (monthly c !! m))]> (monthly c))).
Proof.
  intros [Hd Hw Hm] Hi. split; [done|done|]. intros m' ds d' ivs'. cbn. rewrite lookup_insert_Some.
  intros [[<- <-]|[_ Hl]]; [|by eapply Hm]. rewrite lookup_insert_Some. intros [[_ <-]|[_ Hl]]; [done|].
  destruct (monthly c !! m) as [ds|] eqn:E; [by eapply Hm|]. cbn in Hl. by rewrite lookup_empty in Hl.
Qed.

Lemma set_month_ok fuel i month kvs c c' : calendar_ok c → set_month fuel i month kvs c = Done c' → calendar_ok c'.
Proof.
  revert c. induction kvs as [|[md mdv] kvs IH]; intros c Hc E; cbn [set_month] in E; [by injection E as <-|].
  destruct (0 <? ParseInt md).
  - destruct (with_intervals _ _ _ _ _) as [c1| |] eqn:E1; try done. cbn [exec_bind] in E. apply (IH c1); [|done].
    eapply with_intervals_ok; [exact Hc| |exact E1]. intros ivs. by apply set_monthly_ok.
  - cbn [exec_bind] in E. by apply (IH c).
Qed.

Lemma set_entry_ok fuel i k v c c' : calendar_ok c → set_entry fuel i k v c = Done c' → calendar_ok c'.
Proof.
  intros Hc E. unfold set_entry in E. case_bool_decide.
  - eapply with_intervals_ok; [exact Hc| |exact E]. intros ivs. by apply set_daily_ok.
  - destruct (strtoday _) as [day|].
    + eapply with_intervals_ok; [exact Hc| |exact E]. intros ivs. by apply set_weekly_ok.
    + destruct (strtomonth _) as [month|]; [|by injection E as <-]. destruct v; try (by injection E as <-). by eapply set_month_ok.
Qed.

Lemma set_entries_ok fuel i kvs c c' : calendar_ok c → set_entries fuel i kvs c = Done c' → calendar_ok c'.
Proof.
  revert c. induction kvs as [|[k v] kvs IH]; intros c Hc E; cbn [set_entries] in E; [by injection E as <-|].
  destruct (set_entry _ _ _ _ _) as [c1| |] eqn:E1; try done. cbn [exec_bind] in E. apply (IH c1); [by eapply set_entry_ok|done].
Qed.

Lemma calendar_Set_ok fuel a c o' : calendar_ok c → calendar_Set fuel a (Some c) = Done o' → ∃ c', o' = Some c' ∧ calendar_ok c'.
Proof.
  revert c. induction a as [|d a IH]; intros c Hc E; cbn [calendar_Set] in E; [injection E as <-; eauto|].
  assert (∃ c1, calendar_ok c1 ∧ calendar_Set fuel a (Some c1) = Done o') as (c1 & Hc1 & E1); [|by apply (IH c1)].
  destruct d as [s|m|x|]; try by exists c. unfold set_map in E.
  destruct (match map_get m key_interval with Some (JStr s) => _ | Some _ => _ | None => _ end) as [i| |]; try done.
  cbn [exec_bind] in E. destruct (set_entries _ _ _ _) as [c1| |] eqn:E1; try done. exists c1. split; [by eapply set_entries_ok|done].
Qed.

(** ** Clearing *)

Lemma sublist_Forall {A} (P : A → Prop) l k : l `sublist_of` k → Forall P k → Forall P l.
Proof. induction 1 as [|x l k Hs IH|x l k Hs IH]; intros Hf; inversion Hf; subst; [constructor|constructor|]; auto. Qed.

Lemma in_order_sublist ivs ivs' : ivs' `sublist_of` ivs → in_order ivs → in_order ivs'.
Proof.
  intros Hsub [Hs Hp]. split; [|by eapply sublist_Forall]. induction Hsub as [|x l k Hsub IH|x l k Hsub IH].
  - constructor.
  - inversion Hs as [|? ? Hs' Hx]; inversion Hp; subst. constructor; [by apply IH|by eapply sublist_Forall].
  - inversion Hs; inversion Hp; subst. by apply IH.
Qed.

Lemma take_and_one {A} (l : list A) n i x : l !! i = Some x → (n ≤ i)%nat → take n l ++ [x] `sublist_of` l.
Proof.
  intros Hx Hi. rewrite <- (take_drop n l) at 2. apply sublist_app; [done|].
  assert (drop n l !! (i - n)%nat = Some x) as Hd by (rewrite lookup_drop; rewrite <- Hx; f_equal; lia).
  apply list_elem_of_lookup_2 in Hd. apply list_elem_of_split in Hd as (l1 & l2 & ->).
  apply sublist_inserts_l. apply sublist_skip, sublist_nil_l.
Qed.

Lemma clear_inner_sublist fuel tnow tsti dlyi s dlyi' s' :
  clear_inner fuel tnow tsti dlyi s = Done (dlyi', s') → cl_daily s' `sublist_of` cl_daily s.
Proof.
  revert dlyi s. induction fuel as [|fuel IH]; intros dlyi s E; [done|]. cbn [clear_inner] in E.
  destruct (_ && _); [|by injection E as _ <-].
  destruct (index (cl_frms s) tsti) as [frm| |]; try done. cbn [exec_bind] in E.
  destruct (index (cl_daily s) dlyi) as [iv| |]; try done. cbn [exec_bind] in E. destruct (_ =? _); [|by apply IH in E].
  destruct (index (cl_daily s) (dlyi + 1)) as [nxt| |] eqn:En; try done. cbn [exec_bind] in E.
  destruct (slice (cl_daily s) 0 dlyi) as [bf| |] eqn:Eb; try done. cbn [exec_bind] in E.
  destruct (slice (cl_frms s) 0 tsti) as [f0| |]; try done. cbn [exec_bind] in E.
  destruct (slice (cl_frms s) 0 (tsti + 1)) as [f1| |]; try done. cbn [exec_bind] in E. apply IH in E. etrans; [exact E|].
  cbn [cl_daily]. unfold slice in Eb. destruct ((0 <=? 0) && (0 <=? dlyi) && _) eqn:Ec; [|done]. injection Eb as <-.
  apply andb_true_iff in Ec as [Ec _]. apply andb_true_iff in Ec as [_ Ec]. apply Z.leb_le in Ec.
  unfold index in En. destruct (0 <=? dlyi + 1); [|done]. destruct (cl_daily s !! Z.to_nat (dlyi + 1)) as [y|] eqn:Ey; [|done].
  injection En as <-. unfold sub. rewrite Z.sub_0_r, drop_0. eapply take_and_one; [exact Ey|lia].
Qed.

Lemma clear_middle_sublist fuel tnow tsti dlyi s s' :
  clear_middle fuel tnow tsti dlyi s = Done s' → cl_daily s' `sublist_of` cl_daily s.
Proof.
  revert tsti dlyi s. induction fuel as [|fuel IH]; intros tsti dlyi s E; [done|]. cbn [clear_middle] in E.
  destruct (_ <? _); [|by injection E as <-]. destruct (clear_inner (S fuel) tnow tsti dlyi s) as [[d s1]| |] eqn:E1; try done. cbn [exec_bind] in E.
  etrans; [by eapply IH|by eapply clear_inner_sublist].
Qed.

Lemma clear_outer_sublist fuel tnow s s' :
  clear_outer fuel tnow s = Done s' → cl_daily s' `sublist_of` cl_daily s.
Proof.
  revert s. induction fuel as [|fuel IH]; intros s E; [done|]. cbn [clear_outer] in E.
  destruct (clear_middle _ _ _ _ _) as [s1| |] eqn:E1; try done. cbn [exec_bind] in E. apply clear_middle_sublist in E1. cbn [cl_daily] in E1.
  destruct (cl_again s1); [|by injection E as <-]. etrans; [by apply IH|done].
Qed.

Lemma ClearDaily_ok fuel tnow c frms o' :
  calendar_ok c → ClearDaily fuel tnow (Some c) frms = Done o' → ∃ c', o' = Some c' ∧ calendar_ok c'.
Proof.
  intros Hc E. unfold ClearDaily in E. destruct frms as [|f frms].
  { injection E as <-. eexists. split; [done|]. apply set_daily_ok; [done|]. by repeat constructor. }
  destruct (0 <? _); [|injection E as <-; by exists c].
  destruct (clear_outer _ _ _) as [s| |] eqn:Eo; try done. cbn [exec_bind] in E. injection E as <-. eexists. split; [done|].
  apply set_daily_ok; [done|]. eapply in_order_sublist; [by eapply clear_outer_sublist|apply Hc].
Qed.

Lemma fold_delete_lookup {V} (ks : list Z) (m : gmap Z V) k v : fold_left (λ m d, delete d m) ks m !! k = Some v → m !! k = Some v.
Proof.
  revert m. induction ks as [|x ks IH]; intros m; [done|]. cbn. intros Hk%IH. by apply lookup_delete_Some in Hk as [_ ?].
Qed.

Lemma ClearMonth_ok c month days c' : calendar_ok c → ClearMonth (Some c) month days = Some c' → calendar_ok c'.
Proof.
  intros Hc E. pose proof Hc as [Hd Hw Hm]. unfold ClearMonth in E. destruct (strtomonth _) as [mnth|]; [|by injection E as <-].
  destruct (monthly c !! mnth) as [themonth|] eqn:Em; injection E as <-; [|done]. split; [done|done|].
  intros m ds d ivs. cbn. rewrite lookup_insert_Some. intros [[<- <-]|[_ Hl]]; [|by eapply Hm].
  destruct days; [by rewrite lookup_empty|]. intros Hk%fold_delete_lookup. by eapply Hm.
Qed.

Lemma ClearWeek_ok c days c' : calendar_ok c → ClearWeek (Some c) days = Some c' → calendar_ok c'.
Proof.
  intros [Hd Hw Hm] E. unfold ClearWeek in E. injection E as <-. split; [done| |done]. intros d ivs. cbn.
  destruct days; [by rewrite lookup_empty|]. intros Hk%fold_delete_lookup. by eapply Hw.
Qed.

(** ** Any use of a calendar *)

Inductive cop :=
| OpSet (a : list jval)
| OpClearMonth (month : list Z) (days : list Z)
| OpClearWeek (days : list (list Z))
| OpClearDaily (now : Time) (frmtimes : list (list Z))
| OpSetLocation (a : locarg).

Definition run_cop (fuel : nat) (op : cop) (o : option Calendar) : exec (option Calendar) :=
  match op with
  | OpSet a => calendar_Set fuel a o
  | OpClearMonth month days => Done (ClearMonth o month days)
  | OpClearWeek days => Done (ClearWeek o days)
  | OpClearDaily now frmtimes => ClearDaily fuel now o frmtimes
  | OpSetLocation a => Done (SetLocation o a).2
  end.

Fixpoint run_cops (fuel : nat) (ops : list cop) (o : option Calendar) : exec (option Calendar) :=
  match ops with
  | [] => Done o
  | op :: ops' => let* o' := run_cop fuel op o in run_cops fuel ops' o'
  end.

Lemma run_cop_ok fuel op c o' : calendar_ok c → run_cop fuel op (Some c) = Done o' → ∃ c', o' = Some c' ∧ calendar_ok c'.
Proof.
  intros Hc. destruct op as [a|month days|days|now frms|a]; cbn [run_cop]; intros E.
  - by eapply calendar_Set_ok.
  - injection E as <-. assert (∃ c', ClearMonth (Some c) month days = Some c') as [c' E] by (unfold ClearMonth; repeat case_match; eauto).
    exists c'. split; [done|by eapply ClearMonth_ok].
  - injection E as <-. eexists. split; [done|]. by eapply ClearWeek_ok.
  - by eapply ClearDaily_ok.
  - injection E as <-. unfold SetLocation. pose proof Hc as []. destruct a as [l|s|]; [by eexists| |by eexists].
    case_bool_decide; [by eexists|]. destruct (LoadLocation _); by eexists.
Qed.

(** C25: whatever a new calendar was told to set and to clear, its intervals - of the
    day, of each weekday, of each day of a month - are sorted by their beginnings, none
    begins before an earlier one ends, and each has a positive duration; for any time
    zones. *)
Theorem calendar_invariant fuel ops o' :
  run_cops fuel ops (Some NewCalendar) = Done o' → ∃ c, o' = Some c ∧ calendar_ok c.
Proof.
  assert (calendar_ok NewCalendar) as Hc.
  { split; cbn; [by repeat constructor|intros d ivs; by rewrite lookup_empty|intros m ds d ivs; by rewrite lookup_empty]. }
  revert Hc. generalize NewCalendar. induction ops as [|op ops IH]; intros c Hc E; cbn in E; [injection E as <-; eauto|].
  destruct (run_cop fuel op (Some c)) as [o1| |] eqn:E1; cbn [exec_bind] in E; try discriminate.
  destruct (run_cop_ok fuel op c o1 Hc E1) as (c1 & -> & Hc1). by apply (IH c1).
Qed.

(** ** The next time *)

(** A time in reach of 64 bits. *)
Definition in_reach (n : Z) : Prop := - 2 ^ 63 ≤ n < 2 ^ 63.

Lemma wrap64_id n : in_reach n → wrap64 n = n.
Proof. intros Hn. unfold wrap64, in_reach in *. rewrite Z.mod_small by lia. lia. Qed.

(** C26: a tick of one interval succeeds exactly when the last tick lies before now and
    now in the interval of today; the next time is then a whole number of durations after
    the interval's beginning today, later than now and at most one duration later, so
    that going on from tick to tick never stands still. *)
Theorem checkTick_next t1 tnow iv :
  0 < intrval iv → in_reach (intrval iv) → in_reach (unix tnow) → in_reach (unix tnow + intrval iv) →
  in_reach (unix (Today tnow (from iv))) → in_reach (unix tnow - unix (Today tnow (from iv)) + intrval iv) →
  if (UnixNano t1 <? UnixNano tnow) && (UnixNano (Today tnow (from iv)) <=? UnixNano tnow) && (UnixNano tnow <? UnixNano (Today tnow (to iv)))
  then ∃ k nt, checkTick t1 tnow [iv] = Done (true, nt) ∧ unix nt = unix (Today tnow (from iv)) + k * intrval iv ∧
         UnixNano tnow < UnixNano nt ≤ UnixNano tnow + intrval iv
  else checkTick t1 tnow [iv] = Done (false, zero_time).
Proof.
  intros Hi Hri Hn Hni Hf Hd. unfold checkTick. cbn [last]. set (f := Today tnow (from iv)) in *.
  destruct ((UnixNano t1 <? UnixNano tnow) && (UnixNano f <=? UnixNano tnow) && _) eqn:E; [|done].
  apply andb_true_iff in E as [E E3]. apply andb_true_iff in E as [_ E2].
  cbn [check_loop]. fold f. rewrite E2, E3. cbn [andb]. rewrite (proj2 (Z.eqb_neq (intrval iv) 0)) by lia.
  change (0 <? len [iv] - 1) with false. cbn [andb].
  apply Z.leb_le in E2. unfold UnixNano in *. rewrite (wrap64_id (unix tnow)), (wrap64_id (unix f)) in * by done.
  rewrite (wrap64_id (unix tnow - unix f)) by (unfold in_reach in *; lia).
  rewrite Z.quot_div_nonneg by lia. set (n := (unix tnow - unix f) / intrval iv).
  pose proof (Z.div_mod (unix tnow - unix f) (intrval iv) ltac:(lia)) as Hdm.
  pose proof (Z.mod_pos_bound (unix tnow - unix f) (intrval iv) Hi) as Hmod. fold n in Hdm.
  exists (n + 1). eexists. split; [done|]. cbn [Add unix].
  assert (0 ≤ n) as Hn0 by (apply Z.div_pos; lia).
  assert (wrap64 ((n + 1) * intrval iv) = (n + 1) * intrval iv) as Hw.
  { apply wrap64_id. unfold in_reach in *. nia. }
  rewrite Hw. split; [done|]. rewrite wrap64_id; [nia|]. unfold in_reach in *. nia.
Qed.

(** ** Times of the day *)

(** A location whose clocks were the same time ahead all of the first of January of the
    year 0. *)
Definition fixed_offset (l : Location) (off : Z) : Prop :=
  - day_ns ≤ off ≤ day_ns ∧
  ∀ c, 0 ≤ c < day_ns → unix_of l (year0 + c) = year0 + c - off ∧ civil_of l (year0 + c - off) = year0 + c.

Definition clock_time (l : Location) (t : Time) : Prop := ∃ c, 0 ≤ c < day_ns ∧ t = time_Date l (year0 + c).

Lemma UnixNano_clock l off c :
  fixed_offset l off → 0 ≤ c < day_ns → UnixNano (time_Date l (year0 + c)) = year0 + c - off + 3 * 2 ^ 64.
Proof.
  intros [Hoff Hl] Hc. unfold UnixNano. cbn [unix time_Date]. rewrite (proj1 (Hl c Hc)). unfold wrap64.
  unfold day_ns, year0, sec_ns in *. cbn [Z.pow Z.pow_pos Pos.iter Z.mul Pos.mul].
  rewrite (Z.mod_eq _ 18446744073709551616) by lia.
  replace ((_ + 9223372036854775808) / 18446744073709551616) with (-3); [lia|].
  apply Z.div_unique with (r := -62167219200000000000 + c - off + 9223372036854775808 + 3 * 18446744073709551616); lia.
Qed.

Lemma clock_parts l off c :
  fixed_offset l off → 0 ≤ c < day_ns → day_of (time_Date l (year0 + c)) * day_ns = year0 ∧ clock (time_Date l (year0 + c)) = c.
Proof.
  intros [Hoff Hl] Hc. unfold day_of, clock, civil. cbn [loc unix time_Date]. destruct (Hl c Hc) as [-> ->].
  assert (year0 = - 719528 * day_ns) as Hy by reflexivity. rewrite Hy.
  assert (day_ns ≠ 0) as Hd by done. rewrite Z.div_add_l, (Z.div_small c) by done. split; [lia|].
  rewrite Z.add_comm, Z.mod_add, Z.mod_small by done. done.
Qed.

Lemma Today_clock l off c d :
  fixed_offset l off → 0 ≤ c < day_ns → 0 ≤ d < day_ns →
  Today (time_Date l (year0 + c)) (time_Date l (year0 + d)) = time_Date l (year0 + d / sec_ns * sec_ns).
Proof.
  intros Hl Hc Hd. unfold Today. cbn [loc time_Date]. destruct (clock_parts l off c Hl Hc) as [-> _].
  by destruct (clock_parts l off d Hl Hd) as [_ ->].
Qed.

Lemma whole_second d : 0 ≤ d < day_ns → 0 ≤ d / sec_ns * sec_ns ≤ d.
Proof.
  intros Hd. assert (0 < sec_ns) as Hs by done. pose proof (Z.div_mod d sec_ns ltac:(lia)). pose proof (Z.mod_pos_bound d sec_ns Hs).
  pose proof (Z.div_pos d sec_ns ltac:(lia) Hs). nia.
Qed.

Definition clock_interval (l : Location) (iv : Interval) : Prop := clock_time l (from iv) ∧ clock_time l (to iv).

Lemma rectify_round_clean l off ivs :
  fixed_offset l off → Forall (clock_interval l) ivs →
  ∀ i a b, (rectify_round ivs).2 !! i = Some a → (rectify_round ivs).2 !! S i = Some b → UnixNano (to a) ≤ UnixNano (from b).
Proof.
  intros Hl Hivs. induction Hivs as [|a ivs Ha Hivs IH]; [by intros i x y Hx|].
  destruct ivs as [|b ivs]; [by intros [|i] x y Hx Hy|]. rewrite rectify_round_cons.
  pose proof (rectify_round_start (b :: ivs)) as Hst. inversion Hivs as [|? ? Hb Hivs']; subst.
  destruct (rectify_round (b :: ivs)) as [c r]. cbn [snd] in *. inversion Hst as [|? b' ? r' [Hf _] Hst']; subst.
  destruct Ha as [_ (ca & Hca & Ea)], Hb as [(cb & Hcb & Eb) _].
  assert (UnixNano (Today (to a) (from b)) ≤ UnixNano (from b)) as Htoday.
  { rewrite Ea, Eb, (Today_clock l off) by done. pose proof (whole_second cb Hcb).
    rewrite !(UnixNano_clock l off) by (done || lia). lia. }
  destruct (Z.ltb_spec (UnixNano (from b)) (UnixNano (to a))) as [Hlt|Hge]; intros [|i] x y Hx Hy.
  - injection Hx as <-. injection Hy as <-. by rewrite <- Hf.
  - by apply (IH i).
  - injection Hx as <-. injection Hy as <-. by rewrite <- Hf.
  - by apply (IH i).
Qed.

Lemma rectify_round_stable ivs :
  (∀ i a b, ivs !! i = Some a → ivs !! S i = Some b → UnixNano (to a) ≤ UnixNano (from b)) → rectify_round ivs = (false, ivs).
Proof.
  induction ivs as [|a ivs IH]; intros Hadj; [done|]. destruct ivs as [|b ivs]; [done|]. rewrite rectify_round_cons.
  rewrite IH by (intros i; apply (Hadj (S i))). pose proof (Hadj 0%nat a b eq_refl eq_refl).
  by rewrite (proj2 (Z.ltb_ge _ _)) by done.
Qed.

Lemma rectify_two l off ivs n :
  fixed_offset l off → Forall (clock_interval l) ivs → rectify (S (S n)) ivs = Done (rectify_round ivs).2.
Proof.
  intros Hl Hivs. pose proof (rectify_round_clean l off ivs Hl Hivs) as Hadj. cbn [rectify].
  destruct (rectify_round ivs) as [[] r]; [|done]. cbn [snd] in Hadj. by rewrite rectify_round_stable.
Qed.

(** Every time in it is a text that is not empty; the keys too. *)
Definition is_text (v : jval) : Prop := match v with JStr (_ :: _) => True | _ => False end.
Definition texts_in (v : jval) : Prop :=
  match v with
  | JMap m => Forall (λ kv, kv.1 ≠ [] ∧ (kv.1 = key_interval ∨ is_text kv.2)) m
  | _ => True
  end.
Definition texts (v : jval) : Prop := match v with JMap _ => texts_in v | JArr a => Forall texts_in a | _ => True end.

Lemma two_digits_bound s one x s' : two_digits s one = Some (x, s') → 0 ≤ x.
Proof.
  assert (∀ c d, digit c = Some d → 0 ≤ d) as Hd.
  { intros c d. unfold digit. destruct (Z.leb_spec 48 c), (Z.leb_spec c 57); cbn; intros [= <-]; lia. }
  unfold two_digits. destruct s as [|a s1]; [done|]. destruct (digit a) as [u|] eqn:Ea; [|done]. pose proof (Hd _ _ Ea).
  destruct s1 as [|b s2]; [destruct one; intros [= <- <-]; lia|]. destruct (digit b) as [w|] eqn:Eb.
  - intros [= <- <-]. pose proof (Hd _ _ Eb). lia.
  - destruct one; intros [= <- <-]; lia.
Qed.

Lemma fraction_bound s unit f : 0 ≤ unit → fraction s unit = Some f → 0 ≤ f ≤ Z.max 0 (10 * unit - 1).
Proof.
  revert unit f. induction s as [|c s IH]; intros unit f Hu; cbn; [intros [= <-]; lia|].
  destruct (digit c) as [d|] eqn:Ed; [|done]. destruct (fraction s (unit / 10)) as [f'|] eqn:Ef; [|done]. intros [= <-].
  assert (0 ≤ d ≤ 9) as Hd.
  { revert Ed. unfold digit. destruct (Z.leb_spec 48 c), (Z.leb_spec c 57); cbn; intros [= <-]; lia. }
  pose proof (Z.div_pos unit 10 Hu ltac:(lia)). destruct (IH _ _ ltac:(done) Ef) as [Hlo Hhi].
  pose proof (Z.div_mod unit 10 ltac:(lia)). pose proof (Z.mod_pos_bound unit 10 ltac:(lia)). nia.
Qed.

Lemma ParseTimeOnly_bound s c : ParseTimeOnly s = Some c → 0 ≤ c < day_ns.
Proof.
  unfold ParseTimeOnly. destruct (two_digits s true) as [[h s1]|] eqn:Eh; [|done]. apply two_digits_bound in Eh.
  destruct s1 as [|x s1]; [done|]. destruct (decide (x = 58)) as [->|Hx]; [|by repeat (destruct x as [|x|x]; try done)].
  destruct (two_digits s1 false) as [[m s2]|] eqn:Em; [|done]. apply two_digits_bound in Em.
  destruct s2 as [|y s2]; [done|]. destruct (decide (y = 58)) as [->|Hy]; [|by repeat (destruct y as [|y|y]; try done)].
  destruct (two_digits s2 false) as [[sc s3]|] eqn:Es; [|done]. apply two_digits_bound in Es.
  destruct (Z.ltb_spec h 24), (Z.ltb_spec m 60), (Z.ltb_spec sc 60); cbn [andb]; try done.
  unfold day_ns, sec_ns. destruct s3 as [|z s4]; [intros [= <-]; lia|].
  destruct (_ && _); [|done]. destruct (fraction s4 _) as [f|] eqn:Ef; [|done]. intros [= <-].
  apply fraction_bound in Ef; [|done]. unfold sec_ns in Ef. change (1000000000 / 10) with 100000000 in Ef. lia.
Qed.

Lemma toTime_clock l off v t : fixed_offset l off → is_text v → toTime v l = Some t → clock_time l t.
Proof.
  intros Hl Hv. destruct v as [s| | |]; try done. destruct s as [|x s]; [done|]. unfold toTime.
  destruct (ParseTimeOnly (x :: s)) as [c|] eqn:E; [|done]. intros [= <-]. exists c. split; [by eapply ParseTimeOnly_bound|].
  unfold ChangeLocation, civil. cbn [loc unix]. by rewrite utc_civil.
Qed.

Lemma one_interval_clock l off f t i :
  fixed_offset l off → is_text f → is_text t → Forall (clock_interval l) (one_interval l f t i).
Proof.
  intros Hl Hf Ht. unfold one_interval. destruct (toTime f l) as [f'|] eqn:Ef; [|constructor].
  destruct (toTime t l) as [t'|] eqn:Et; [|constructor]. case_match; [|constructor]. constructor; [|constructor].
  split; [by eapply (toTime_clock l off f)|by eapply (toTime_clock l off t)].
Qed.

Lemma map_get_text m k v :
  Forall (λ kv, kv.1 ≠ [] ∧ (kv.1 = key_interval ∨ is_text kv.2)) m → k ≠ key_interval → map_get m k = Some v → is_text v.
Proof.
  intros Hm Hk. unfold map_get. destruct (List.find _ m) as [[k' v']|] eqn:E; [|done]. cbn. intros [= <-].
  apply find_some in E as [Hin Hk']. apply bool_decide_eq_true in Hk'. cbn in Hk'. subst.
  rewrite Forall_forall in Hm. apply list_elem_of_In in Hin. destruct (Hm _ Hin) as [_ [?|?]]; done.
Qed.

Lemma map_intervals_clock l off d v :
  fixed_offset l off → texts_in v → Forall (clock_interval l) (map_intervals d l v).
Proof.
  intros Hl Hv. unfold map_intervals. destruct v as [|m| |]; try constructor. cbn in Hv. apply Forall_app. split.
  - destruct (map_get m key_from) as [f|] eqn:Ef; [|constructor]. destruct (map_get m key_to) as [t|] eqn:Et; [|constructor].
    apply (one_interval_clock l off); [done|apply (map_get_text m key_from)|apply (map_get_text m key_to)]; try done.
  - apply Forall_concat, Forall_fmap, Forall_forall. intros [k v] Hin. cbn. unfold map_delete in Hin.
    apply list_elem_of_In, filter_In in Hin as [Hin Hk]. apply filter_In in Hin as [Hin _]. apply filter_In in Hin as [Hin _].
    cbn in Hk. apply negb_true_iff, bool_decide_eq_false in Hk. rewrite Forall_forall in Hv. apply list_elem_of_In in Hin.
    destruct (Hv _ Hin) as [Hne [?|Ht]]; [done|]. apply (one_interval_clock l off); [done| |done]. cbn in Hne. by destruct k.
Qed.

(** Reading the intervals of a map or a slice of maps whose times are texts ends
    after at most two rounds of cutting overlaps, in a location whose clocks stood the
    same all of the day of times without a date; the result are the intervals that can
    be read, sorted by their beginnings, each with its beginning and duration. *)
Theorem intervals_terminate l off d v n :
  fixed_offset l off → texts v →
  ∃ ivs, intervals (S (S n)) d v l = Done ivs ∧ Forall2 same_start (sortIntervals (entries d v l)) ivs.
Proof.
  intros Hl Hv. unfold intervals. destruct (entries d v l) as [|iv ivs] eqn:E; [exists []; split; [done|constructor]|].
  assert (Forall (clock_interval l) (entries d v l)) as Hc.
  { unfold entries. apply Forall_concat, Forall_fmap. destruct v as [s|m|a|]; try constructor.
    - destruct m; constructor; [by apply (map_intervals_clock l off)|constructor].
    - cbn in Hv. apply Forall_forall. intros x Hx. rewrite Forall_forall in Hv. apply (map_intervals_clock l off); auto. }
  rewrite <- E. destruct (sortIntervals_sorted _ _ Hc) as [_ Hs]. unfold rectifyToIntarvals.
  rewrite (rectify_two l off) by done. eexists. split; [done|]. apply rectify_round_start.
Qed.
End theory.

(** * Instances *)

(** Locations that are a fixed number of nanoseconds ahead; durations in seconds. *)
#[export] Instance fixed_zones : TimeZones := {|
  Location := Z; UTC := 0; Local := 0;
  civil_of l u := u + l;
  unix_of l c := c - l;
  LoadLocation _ := inl 0;
  ParseDuration s := match digits_of (removelast s) 0 with Some n => n * sec_ns | None => 0 end;
  utc_civil u := Z.add_0_r u |}.

Definition utc : @Location fixed_zones := 0.

(** The day that began [n] days after 1970, at [s] seconds. *)
Definition at_time (n s : Z) : Time := MkTime (n * day_ns + s * sec_ns) utc.

Example days_and_months :
  (month_day 0, month_day 58, month_day 59, month_day 19782, Weekday (at_time 19782 0)) = ((1, 1), (2, 28), (3, 1), (2, 29), 4).
Proof. by vm_compute. Qed.

Definition demo_entries : jval :=
  JArr [JMap [(txt "10:00:00", JStr (txt "12:00:00"))]; JMap [(key_from, JStr (txt "08:00:00")); (key_to, JStr (txt "10:30:00")); (key_interval, JStr (txt "60s"))]].

Definition demo_ops : list cop :=
  [OpSet [JMap [(txt "Daily", demo_entries); (txt "monday", JMap [(txt "09:00:00", JStr (txt "09:30:00"))])]];
   OpClearWeek [txt "mon"]].

(** Two intervals, the first one cut at the beginning of the second. *)
Definition demo_calendar : Calendar :=
  set_daily NewCalendar
    [MkInterval (MkTime (year0 + 28800 * sec_ns) utc) (MkTime (year0 + 36000 * sec_ns) utc) (60 * sec_ns);
     MkInterval (MkTime (year0 + 36000 * sec_ns) utc) (MkTime (year0 + 43200 * sec_ns) utc) (10 * sec_ns)].

Lemma calendar_invariant_witness : ∃ c, Some demo_calendar = Some c ∧ calendar_ok c.
Proof. apply (calendar_invariant 5 demo_ops). by vm_compute. Defined.

Lemma checkTick_next_witness :
  let iv := MkInterval (MkTime (year0 + 28800 * sec_ns) utc) (MkTime (year0 + 36000 * sec_ns) utc) (60 * sec_ns) in
  ∃ k nt, checkTick (at_time 19782 28859) (at_time 19782 28860) [iv] = Done (true, nt) ∧
    unix nt = unix (Today (at_time 19782 28860) (from iv)) + k * intrval iv ∧
    UnixNano (at_time 19782 28860) < UnixNano nt ≤ UnixNano (at_time 19782 28860) + intrval iv.
Proof.
  intros iv. apply (checkTick_next (at_time 19782 28859) (at_time 19782 28860) iv); split + idtac; vm_compute; done || (split; done).
Defined.

Lemma fixed_zero : fixed_offset utc 0.
Proof. split; [by vm_compute|]. intros c _. cbn -[year0]. unfold utc. split; lia. Qed.

Lemma intervals_terminate_witness :
  ∃ ivs, intervals 2 (txt "10s") demo_entries utc = Done ivs ∧ Forall2 same_start (sortIntervals (entries (txt "10s") demo_entries utc)) ivs.
Proof.
  apply (intervals_terminate utc 0 (txt "10s") demo_entries 0 fixed_zero).
  repeat constructor; vm_compute; try done; by (left || right).
Defined.

(** An end that is no text is a time of the year 1, which no round brings before the
    next beginning: [Set] does not return. *)
Definition bad_entries : jval :=
  JArr [JMap [(key_from, JStr (txt "01:00:00")); (key_to, JOther)]; JMap [(txt "02:00:00", JStr (txt "03:00:00"))]].

Definition bad_sorted : list Interval := sortIntervals (entries (txt "10s") bad_entries utc).

Lemma bad_end_first : (rectify_round bad_sorted).1 = true.
Proof. by vm_compute. Qed.

Lemma bad_end_stays : rectify_round (rectify_round bad_sorted).2 = (true, (rectify_round bad_sorted).2).
Proof. by vm_compute. Qed.

Lemma rectify_stuck r fuel : rectify_round r = (true, r) → rectify fuel r = NoFuel.
Proof. intros E. induction fuel as [|fuel IH]; [done|]. cbn [rectify]. by rewrite E. Qed.

Lemma bad_end_hangs fuel : intervals fuel (txt "10s") bad_entries utc = NoFuel.
Proof.
  change (rectify fuel bad_sorted = NoFuel). destruct fuel as [|fuel]; [done|]. cbn [rectify]. pose proof bad_end_first as E1.
  destruct (rectify_round bad_sorted) as [b r] eqn:E. cbn [fst] in E1. subst b. apply rectify_stuck. pose proof bad_end_stays as E2.
  by rewrite E in E2.
Qed.

(** Clearing the first of three intervals also drops the third. *)
Definition three : Calendar :=
  set_daily NewCalendar (map (λ h, MkInterval (MkTime (year0 + h * 3600 * sec_ns) utc) (MkTime (year0 + (h + 1) * 3600 * sec_ns) utc) sec_ns) [1; 2; 3]).

Example clearing_drops_the_rest :
  (let* o := ClearDaily 20 (at_time 19782 0) (Some three) [txt "01:00:00"] in
   Done (match o with Some c => map (λ iv, clock (from iv) / (3600 * sec_ns)) (daily c) | None => [] end)) = Done [2].
Proof. by vm_compute. Qed.

(** Clearing the last interval panics. *)
Example clearing_the_last_panics : ClearDaily 20 (at_time 19782 0) (Some three) [txt "03:00:00"] = Panic.
Proof. by vm_compute. Qed.

(** At the end of the day the next time of the last of two intervals is put on the same
    day, before now. *)
Example next_before_now :
  let iv f t := MkInterval (MkTime (year0 + f * sec_ns) utc) (MkTime (year0 + t * sec_ns) utc) (10 * sec_ns) in
  checkTick (at_time 19782 86394) (at_time 19782 86395) [iv 0 3600; iv 86390 86399] = Done (true, at_time 19782 0).
Proof. by vm_compute. Qed.
