(* ===== verification/Statement.v ===== *)
(** src/dbms/statement.go: how a query with named arguments [@name@] becomes the
    statements and the positional arguments a database driver is given, and which calls
    to the driver a statement makes.

    Strings are their bytes.  What an argument of type [interface{}] is beyond a string
    or nil does not matter here.  The parameters a statement takes values from are known
    by an interface ([ParamsInterface]), which the request parameters implement; the
    database, the files of queries and the reader of such a file are arguments. *)

From S2P Require Import Prelude Runes GoStrings Readers RuneReaders Buffer BufferCursor BuffReader Texts Parsing Parameters.
From stdpp Require Import gmap.
#[local] Open Scope Z_scope.

(** What a statement asks of parameters: their names, and the values of a name. *)
Class ParamsInterface (P : Type) := {
  params_Keys : P → exec (list (list Z));
  params_Get : P → list Z → list (list Z) }.

#[export] Instance Parameters_params `{UnicodeCase} : ParamsInterface (option parameters) :=
  {| params_Keys := Parameters.Keys; params_Get o n := Parameters.Get o n [] |}.

Inductive value := VNil | VStr (s : list Z) | VOther (n : Z).

#[export] Instance value_eq_dec : EqDecision value.
Proof. solve_decision. Defined.

(** Rows: their columns, or the error of asking for them, and the row they are at. *)
Record Rows := MkRows { Columns : list (list Z) * option goerr; Data : list value }.

(** The interfaces of the world a statement lives in: parameters, files of queries, a
    database and a connection to it. *)
Class World := {
  Params : Type;
  Params_interface :: ParamsInterface Params;
  FileInfo : Type;
  fi_Reader : FileInfo → anyrdr;
  DB : Type;
  Conn : Type;
  Net : Type;
  db_Conn : DB → Net → (Conn + goerr) * Net;
  db_Query : DB → list Z → list value → Net → (Rows + goerr) * Net;
  cn_Query : Conn → list Z → list value → Net → (Rows + goerr) * Net;
  cn_Exec : Conn → list Z → list value → Net → option goerr * Net }.

Section statement.
Context `{UnicodeCase} `{World}.

#[local] Abbreviation Stat := (list Z → option FileInfo).
#[local] Abbreviation Fireader := (Stat → FileInfo → Buffer → exec Buffer).

(** [db], [dbcn] and the handles [rdr] and [rcrd] of a Reader and a Record, which are
    only kept. *)
Record statement := MkStatement {
  db : option DB;
  dbcn : option Conn;
  rows : option Rows;
  driver : list Z;
  initquery : list Z;
  query : list (list Z);
  queryargs : option (gmap Z (list value));
  fsys : option Stat;
  fireader : option Fireader;
  params : option Params;
  rdr : option Z;
  rcrd : option Z;
  args : option (gmap (list Z) value);
  prssqlarg : option (Z → list Z) }.

(** The arguments of a statement [prepairSqlStatement] tells apart. *)
Inductive qarg :=
| AParams (p : Params)
| AReader (r : Z)
| ARecord (r : Z)
| AFireader (f : option Fireader)
| AStrings (m : gmap (list Z) (list Z))
| AValues (m : gmap (list Z) value)
| AOther (v : value).

Definition or_first {A} (a b : option A) : option A := match a with Some _ => a | None => b end.

Definition upper (s : list Z) : list Z := encode_all (ToUpper (utf8.runes s)).

(** The order in which [range] goes over a map. *)
Context (range : gmap (list Z) value → list (list Z * value)).

Definition add_default (m : gmap (list Z) value) (kv : list Z * value) := <[upper kv.1 := kv.2]> m.

(** Named values: the first that are given are kept. *)
Definition take_args (s : statement) (dflt argd : gmap (list Z) value) : statement * gmap (list Z) value :=
  match args s with
  | None =>
    if bool_decide (argd = ∅) then (s, dflt)
    else (MkStatement (db s) (dbcn s) (rows s) (driver s) (initquery s) (query s) (queryargs s) (fsys s) (fireader s)
            (params s) (rdr s) (rcrd s) (Some argd) (prssqlarg s),
          fold_left add_default (range argd) dflt)
  | Some _ => (s, dflt)
  end.

(** An argument of a known kind is taken out; the first of each kind is kept. *)
Definition take_arg (sd : statement * gmap (list Z) value) (a : qarg) : statement * gmap (list Z) value :=
  let '(s, dflt) := sd in
  let set p r c f := MkStatement (db s) (dbcn s) (rows s) (driver s) (initquery s) (query s) (queryargs s) (fsys s)
                       f p r c (args s) (prssqlarg s) in
  match a with
  | AParams p => (set (or_first (params s) (Some p)) (rdr s) (rcrd s) (fireader s), dflt)
  | AReader r => (set (params s) (or_first (rdr s) (Some r)) (rcrd s) (fireader s), dflt)
  | ARecord r => (set (params s) (rdr s) (or_first (rcrd s) (Some r)) (fireader s), dflt)
  | AFireader f => (set (params s) (rdr s) (rcrd s) (or_first (fireader s) f), dflt)
  | AStrings m => take_args s dflt (VStr <$> m)
  | AValues m => take_args s dflt m
  | AOther _ => sd
  end.

(** ** The text of the query *)

Definition sql_ext : list Z := [46; 115; 113; 108].

(** [strings.LastIndex(s, ".")] *)
Fixpoint LastIndexByte (s : list Z) (c : Z) : Z :=
  match s with
  | [] => -1
  | x :: s' => let i := LastIndexByte s' c in if 0 <=? i then i + 1 else if x =? c then 0 else -1
  end.

Definition without_ext (tstquery : list Z) : list Z :=
  let si := LastIndexByte tstquery 46 in
  if (0 <? si) && bool_decide (drop (Z.to_nat si) tstquery = sql_ext) then take (Z.to_nat si) tstquery else tstquery.

Definition no_fsys (s : statement) : statement :=
  MkStatement (db s) (dbcn s) (rows s) (driver s) (initquery s) (query s) (queryargs s) None (fireader s) (params s)
    (rdr s) (rcrd s) (args s) (prssqlarg s).

Definition print_string (fuel : nat) (t : list Z) (b : Buffer) : exec Buffer :=
  let* '(_, b') := Print fuel b [PString t] in Done b'.

(** The file the query names, with or without the driver in its name, or the query
    itself; nothing without a file system. *)
Definition load_query (fuel : nat) (s : statement) (qrybf : Buffer) : exec (statement * Buffer) :=
  match fsys s with
  | None => Done (s, qrybf)
  | Some stat =>
    let s1 := no_fsys s in
    let tstquery := without_ext (initquery s) in
    let fi := or_first (stat (tstquery ++ sql_ext)) (stat (tstquery ++ 46 :: driver s ++ sql_ext)) in
    let* b := match fi with
      | Some fi => match fireader s with
                   | Some f => f stat fi qrybf
                   | None => let* '(_, b) := Print fuel qrybf [PRuneReader (fi_Reader fi)] in Done b
                   end
      | None => print_string fuel (initquery s) qrybf
      end in
    Done (s1, b)
  end.

(** ** The arguments that were found *)

(** The closures that will give the value of an argument: of a parameter, of a column,
    of the named values; with the default the named values give to its name. *)
Inductive argval :=
| FromParam (pnme : list Z) (dflt : option value)
| FromColumn (dv : value) (dflt : option value)
| FromDefault (dv : value).

Definition as_string (v : option value) : list Z := match v with Some (VStr s) => s | _ => [] end.

Definition eval_arg (ps : option Params) (a : argval) : value :=
  match a with
  | FromParam pnme dflt =>
    let prmsv := match ps with Some p => params_Get p pnme | None => [] end in
    match prmsv with
    | [] => VStr (as_string dflt)
    | _ =>
      let prmsvs := GoStrings.Join prmsv [] in
      if bool_decide (prmsvs = []) then match dflt with Some _ => VStr (as_string dflt) | None => VStr prmsvs end
      else VStr prmsvs
    end
  | FromColumn dv dflt =>
    match dv with
    | VStr dvs => VStr (if bool_decide (dvs = []) then as_string dflt else dvs)
    | VNil => default VNil dflt
    | VOther _ => dv
    end
  | FromDefault dv => dv
  end.

(** The state of the parser's callbacks. *)
Record prep := MkPrep {
  qrybf : Buffer;
  prmnme : list Z;
  prmargvalsfnd : gmap Z argval;
  prmargsfnd : list Z;
  perr : option goerr }.

Definition with_buf (u : prep) (b : Buffer) : prep := MkPrep b (prmnme u) (prmargvalsfnd u) (prmargsfnd u) (perr u).
Definition with_name (u : prep) (n : list Z) : prep := MkPrep (qrybf u) n (prmargvalsfnd u) (prmargsfnd u) (perr u).
Definition with_err (u : prep) (e : option goerr) : prep := MkPrep (qrybf u) (prmnme u) (prmargvalsfnd u) (prmargsfnd u) e.

(** The text outside of names goes to the query, the text inside is the name. *)
Definition query_pre (rns : list Z) (u : prep) (p : Parsing) : exec (prep * Parsing) :=
  let* '(_, _, b) := WriteRunes (qrybf u) rns in Done (with_buf u b, p).
Definition query_post (canreset : bool) (rns : list Z) (u : prep) (p : Parsing) : exec (bool * prep * Parsing) :=
  Done (false, with_name u (prmnme u ++ rns), p).

Section found.
Context (fuel : nat) (s : statement) (prssql : Z → list Z) (dfltargs : gmap (list Z) value).

(** A name that was found: its argument is noted under the number of arguments before
    it, and the driver's text for that number goes to the query. *)
Definition found (u : prep) (a : argval) : exec prep :=
  let prmfndl := len (prmargsfnd u) in
  let* b := print_string fuel (prssql prmfndl) (qrybf u) in
  Done (MkPrep b [] (<[prmfndl := a]> (prmargvalsfnd u)) (prmargsfnd u ++ [prmfndl]) (perr u)).

Definition find_param (tstnme : list Z) : exec (option (list Z)) :=
  match params s with
  | None => Done None
  | Some p => let* ks := params_Keys p in
              Done (List.find (λ k, EqualFold (utf8.runes k) (utf8.runes tstnme)) ks)
  end.

Fixpoint find_column (cols : list (list Z)) (data : list value) (tstnme : list Z) : option (list Z * value) :=
  match cols, data with
  | col :: cols', dv :: data' =>
    if EqualFold (utf8.runes tstnme) (utf8.runes col) then Some (col, dv) else find_column cols' data' tstnme
  | _, _ => None
  end.

(** The end of a name: a parameter, a column of the row, a named value, or null. *)
Definition query_close (u : prep) (p : Parsing) : exec (bool * prep * Parsing) :=
  let done_ (m : exec prep) := let* u' := m in Done (false, u', p) in
  match prmnme u with
  | [] => Done (false, u, p)
  | _ =>
    let tstnme := encode_all (TrimFunc IsSpace (prmnme u)) in
    if bool_decide (tstnme = []) then Done (false, u, p)
    else
      let* pnme := find_param tstnme in
      match pnme with
      | Some pnme => done_ (found u (FromParam pnme (dfltargs !! upper pnme)))
      | None =>
        let u1 := match rows s with Some rw => with_err u (Columns rw).2 | None => u end in
        let colfound := match rows s with
                        | Some rw => if len (Data rw) =? len (Columns rw).1 then find_column (Columns rw).1 (Data rw) tstnme else None
                        | None => None
                        end in
        match rows s, perr u1 with
        | Some _, Some _ => Done (false, u1, p)
        | _, _ =>
          match colfound with
          | Some (col, dv) => done_ (found u1 (FromColumn dv (dfltargs !! upper col)))
          | None =>
            match dfltargs !! upper tstnme with
            | Some dv => done_ (found u1 (FromDefault dv))
            | None => done_ (let* b := print_string fuel [110; 117; 108; 108] (qrybf u1) in Done (with_name (with_buf u1 b) []))
            end
          end
        end
      end
  end.

Definition query_events : events prep :=
  MkEvents None (Some query_pre) None None (Some query_post) (Some query_close).

(** The values of the arguments found, under the number of their statement. *)
Definition store_args (u : prep) (n : Z) (prpdargs : option (gmap Z (list value))) : exec (option (gmap Z (list value)) * prep) :=
  if 0 <? len (prmargsfnd u) then
    let fix values ids := match ids with
      | [] => Done []
      | i :: ids' => match prmargvalsfnd u !! i with
                     | Some a => let* vs := values ids' in Done (eval_arg (params s) a :: vs)
                     | None => Panic
                     end
      end in
    let* vs := values (prmargsfnd u) in
    Done (Some (<[n := vs]> (default ∅ prpdargs)), MkPrep (qrybf u) (prmnme u) (prmargvalsfnd u) [] (perr u))
  else Done (prpdargs, u).

(** A semicolon: the text so far is a statement. *)
Definition cut_statement (u : prep) (qry : list (list Z)) (prpdargs : option (gmap Z (list value)))
  : exec (prep * list (list Z) * option (gmap Z (list value))) :=
  let* '(cln, b) := Buffer.Clone (Some (qrybf u)) true in
  let u1 := with_buf u (default (qrybf u) b) in
  let* r := Reader (Some cln) NoContext true [] in
  let* '(prds, _) := SubString fuel r [0] in
  if bool_decide (prds = []) then Done (u1, qry, prpdargs)
  else
    let qry1 := qry ++ [encode_all (prds ++ [59])] in
    let* '(prpdargs1, u2) := store_args u1 (len qry1 - 1) prpdargs in
    Done (u2, qry1, prpdargs1).

(** The runes of the query, read from a reader of what was loaded. *)
Fixpoint query_loop (n : nat) (rd : option BuffReader) (u : prep) (p : Parsing) (qry : list (list Z))
    (prpdargs : option (gmap Z (list value))) : exec (prep * Parsing * list (list Z) * option (gmap Z (list value))) :=
  match n with
  | O => NoFuel
  | S n' =>
    let* '(rn, rs, rerr, rd') := read_rune rd in
    let* '(u1, p1, qry1, args1) :=
      if 0 <? rs then
        if rn =? 59 then
          let* '(u', qry', args') := cut_statement u qry prpdargs in Done (u', p, qry', args')
        else let* '(u', p') := Parse query_events [rn] u p in Done (u', p', qry, prpdargs)
      else Done (u, p, qry, prpdargs) in
    match rerr with
    | Some _ => Done (u1, p1, qry1, args1)
    | None => query_loop n' rd' u1 p1 qry1 args1
    end
  end.
End found.

Definition at_label : list Z := [64].

(** The error of a name that does not end. *)
Definition failed_parsing : goerr := OtherErr 1.

(** The last statement: what is left, unless it is a lone semicolon. *)
Definition last_statement (fuel : nat) (b : Buffer) (qry : list (list Z)) : exec (list (list Z)) :=
  if Buffer.Empty (Some b) then Done qry
  else
    let* r := Reader (Some b) NoContext true [] in
    let* '(prds, _) := SubString fuel r [0] in
    Done (if negb (bool_decide (prds = [])) && negb (bool_decide (prds = [59])) then qry ++ [encode_all prds] else qry).

Definition prepairSqlStatement (fuel : nat) (o : option statement) (a : list qarg)
  : exec (list (list Z) * option (gmap Z (list value)) * option goerr * option statement) :=
  match o with
  | None => Done ([], None, None, None)
  | Some s0 =>
    match prssqlarg s0 with
    | None => Done ([], None, None, o)
    | Some prssql =>
      let '(s1, dfltargs) := fold_left take_arg a (s0, ∅) in
      let* '(s, b) := load_query fuel s1 (empty_buffer chunk_size) in
      let* hasat := Contains (Some b) at_label in
      let* parsed := if (hasat : bool) then Done true else Contains (Some b) [59] in
      if (parsed : bool) then
        let* '(cln, b') := Buffer.Clone (Some b) true in
        let* rd := Reader (Some cln) NoContext true [] in
        let* '(u, p, qry, prpdargs) :=
          query_loop fuel s prssql dfltargs fuel rd (MkPrep (default b b') [] ∅ [] None)
            (New InOther at_label at_label false false).2 [] None in
        if Busy (Some p) then Done (qry, prpdargs, Some failed_parsing, Some s)
        else
          let* '(prpdargs1, u1) := store_args s u (len qry) prpdargs in
          let* qry1 := last_statement fuel (qrybf u1) qry in
          Done (qry1, prpdargs1, perr u1, Some s)
      else
        let* qry := last_statement fuel b [] in
        Done (qry, None, None, Some s)
    end
  end.

(** ** Running a statement *)

Definition with_rows (s : statement) (q : list (list Z)) (r : option Rows) : statement :=
  MkStatement (db s) (dbcn s) r (driver s) (initquery s) q (queryargs s) (fsys s) (fireader s) (params s)
    (rdr s) (rcrd s) (args s) (prssqlarg s).
Definition with_prepared (s : statement) (q : list (list Z)) (qa : option (gmap Z (list value))) : statement :=
  MkStatement (db s) (dbcn s) (rows s) (driver s) (initquery s) q qa (fsys s) (fireader s) (params s)
    (rdr s) (rcrd s) (args s) (prssqlarg s).

Definition args_of (qa : option (gmap Z (list value))) (n : Z) : list value :=
  match qa with Some m => default [] (m !! n) | None => [] end.

(** The rows of a query are kept; the Reader that is returned reads them. *)
Definition rows_result (s : statement) (q : list (list Z)) (res : Rows + goerr)
  : option Rows * option goerr * option statement :=
  match res with
  | inl r => (Some r, None, Some (with_rows s q (Some r)))
  | inr e => (None, Some e, Some (with_rows s q (rows s)))
  end.

Definition QueryContext (o : option statement) (net : Net)
  : exec (option Rows * option goerr * option statement * Net) :=
  match o with
  | None => Done (None, None, None, net)
  | Some s =>
    match db s, dbcn s, rows s with
    | None, None, _ | _, _, Some _ => Done (None, None, o, net)
    | odb, ocn, None =>
      let q := match query s with
               | [] => if bool_decide (initquery s = []) then [] else [initquery s]
               | q => q
               end in
      match q with
      | [q0] =>
        match odb, ocn with
        | Some d, _ => let '(res, net') := db_Query d q0 (args_of (queryargs s) 0) net in Done (rows_result s q res, net')
        | None, Some c => let '(res, net') := cn_Query c q0 (args_of (queryargs s) 0) net in Done (rows_result s q res, net')
        | None, None => Done (None, None, Some (with_rows s q None), net)
        end
      | _ =>
        match ocn with
        | None => Done (None, None, Some (with_rows s q None), net)
        | Some c =>
          let qryl := len q in
          let exeargs := concat (map (λ i, args_of (queryargs s) (Z.of_nat i)) (seq 0 (Z.to_nat (qryl - 1)))) in
          let* first := slice q 0 (qryl - 1) in
          let '(exeerr, net1) := cn_Exec c (GoStrings.Join first []) exeargs net in
          match exeerr with
          | Some e => Done (None, Some e, Some (with_rows s q None), net1)
          | None =>
            let* lastq := index q (qryl - 1) in
            let '(res, net2) := cn_Query c lastq (args_of (queryargs s) (qryl - 1)) net1 in
            Done (rows_result s q res, net2)
          end
        end
      end
    end
  end.

(** With a nil context a background context is used. *)
Definition Query (o : option statement) (net : Net) := QueryContext o net.

(** Only a single statement is executed, with the arguments given now. *)
Definition ExecuteContext (o : option statement) (a : list value) (net : Net) : option goerr * Net :=
  match o with
  | Some s =>
    match dbcn s, query s with
    | Some c, [q0] => cn_Exec c q0 a net
    | _, _ => (None, net)
    end
  | None => (None, net)
  end.
Definition Execute (o : option statement) (a : list value) (net : Net) := ExecuteContext o a net.

Definition statement_Rows (o : option statement) : option Rows := match o with Some s => rows s | None => None end.

Definition statement_Close (o : option statement) : option statement :=
  match o with
  | Some s => Some (MkStatement None None None (driver s) (initquery s) [] ((λ _, ∅) <$> queryargs s) None None None None None None None)
  | None => None
  end.

(** ** nextstatement *)

Record Driver := MkDriver { Name : list Z; FSys : option Stat; ParseSqlArg : Z → list Z }.

(** The drivers whose queries are not prepared. *)
Definition csv : list Z := [99; 115; 118].
Definition dlv : list Z := [100; 108; 118].

(** What an argument, and the file system of a driver, is as a value. *)
Context (as_value : qarg → value) (fsys_value : value).

Definition nextstatement (fuel : nat) (d : DB) (dvr : option Driver) (q : list Z) (fs : option Stat) (a : list qarg)
    (net : Net) : exec (option statement * option goerr * Net) :=
  match dvr with
  | None => Done (None, None, net)
  | Some dvr =>
    let fs1 := or_first fs (FSys dvr) in
    let new odb ocn := MkStatement odb ocn None (Name dvr) q [] None fs1 None None None None None (Some (ParseSqlArg dvr)) in
    if negb (bool_decide (Name dvr = csv)) && negb (bool_decide (Name dvr = dlv)) then
      let '(res, net1) := db_Conn d net in
      match res with
      | inr e => Done (None, Some e, net1)
      | inl c =>
        let* '(qry, prpdargs, err, o) := prepairSqlStatement fuel (Some (new None (Some c))) a in
        match err with
        | Some e => Done (None, Some e, net1)
        | None => Done ((λ s, with_prepared s qry prpdargs) <$> o, None, net1)
        end
      end
    else
      match FSys dvr with
      | Some _ => Done (Some (with_prepared (new (Some d) None) [q] (Some {[ 0 := map as_value a ++ [fsys_value] ]})), None, net)
      | None => Done (None, None, net)
      end
  end.
End statement.

(** * Theory *)

(** ** The reference: what a query becomes *)

Section reference.
Context `{UnicodeCase} `{World}.
Context (s : statement) (prssql : Z → list Z) (dfltargs : gmap (list Z) value) (ks : list (list Z)).

(** Where the value of a name comes from: the first parameter of that name, else the
    column of the row, else the named values. *)
Definition column_named (tstnme : list Z) : option (list Z * value) :=
  match rows s with
  | Some rw => if len (Data rw) =? len (Columns rw).1 then find_column (Columns rw).1 (Data rw) tstnme else None
  | None => None
  end.

Definition argument_of (tstnme : list Z) : option argval :=
  match List.find (λ k, EqualFold (utf8.runes k) (utf8.runes tstnme)) ks with
  | Some k => Some (FromParam k (dfltargs !! upper k))
  | None =>
    match column_named tstnme with
    | Some (col, dv) => Some (FromColumn dv (dfltargs !! upper col))
    | None => FromDefault <$> dfltargs !! upper tstnme
    end
  end.

(** A query so far, in runes: the text of the statement, the name being read, whether
    one is, the arguments found; the statements and their arguments. *)
Record qview := MkView {
  q_text : list Z;
  q_name : list Z;
  q_inside : bool;
  q_found : list argval;
  q_stmts : list (list Z);
  q_args : option (gmap Z (list value)) }.

Definition qview0 : qview := MkView [] [] false [] [] None.

Definition null : list Z := [110; 117; 108; 108].

(** The end of a name: a placeholder with the number of its argument in its statement,
    or null for an unknown name; nothing for a name of spaces. *)
Definition q_close (v : qview) : qview :=
  let tstnme := encode_all (TrimFunc IsSpace (q_name v)) in
  if bool_decide (tstnme = []) then MkView (q_text v) (q_name v) false (q_found v) (q_stmts v) (q_args v)
  else match argument_of tstnme with
       | Some a => MkView (q_text v ++ utf8.runes (prssql (len (q_found v)))) [] false (q_found v ++ [a]) (q_stmts v) (q_args v)
       | None => MkView (q_text v ++ null) [] false (q_found v) (q_stmts v) (q_args v)
       end.

Definition q_store (n : Z) (v : qview) : option (gmap Z (list value)) :=
  match q_found v with
  | [] => q_args v
  | l => Some (<[n := map (eval_arg (params s)) l]> (default ∅ (q_args v)))
  end.

Definition q_cut (v : qview) : qview :=
  match q_text v with
  | [] => v
  | t => MkView [] (q_name v) (q_inside v) [] (q_stmts v ++ [encode_all (t ++ [59])]) (q_store (len (q_stmts v)) v)
  end.

Definition q_step (v : qview) (r : Z) : qview :=
  if r =? 59 then q_cut v
  else if r =? 64 then
    if q_inside v then q_close v else MkView (q_text v) (q_name v) true (q_found v) (q_stmts v) (q_args v)
  else if q_inside v then MkView (q_text v) (q_name v ++ [r]) true (q_found v) (q_stmts v) (q_args v)
  else MkView (q_text v ++ [r]) (q_name v) false (q_found v) (q_stmts v) (q_args v).

Definition q_run (rs : list Z) : qview := fold_left q_step rs qview0.

(** The statements, their arguments, and the error of a name that does not end. *)
Definition prepared (rs : list Z) : list (list Z) * option (gmap Z (list value)) * option goerr :=
  let v := q_run rs in
  if q_inside v then (q_stmts v, q_args v, Some failed_parsing)
  else
    (if bool_decide (q_text v = []) || bool_decide (q_text v = [59]) then q_stmts v else q_stmts v ++ [encode_all (q_text v)],
     q_store (len (q_stmts v)) v, None).
End reference.

Section theory.
Context `{UnicodeCase} `{World}.

Lemma print_string_is fuel b l t :
  buf_is (Some b) l → is_bytes t → ∃ b', print_string fuel t b = Done b' ∧ buf_is (Some b') (l ++ utf8.runes t).
Proof.
  intros Hb Ht. unfold print_string.
  destruct (Print_appends fuel b [PString t] (encode_all (utf8.runes t) ++ [])) as (b' & -> & Ha); [apply Hb| |].
  - repeat constructor. done.
  - cbn [exec_bind]. exists b'. split; [done|]. rewrite app_nil_r in Ha. by eapply buf_is_appended.
Qed.

(** ** The callbacks against the reference *)

Section callbacks.
Context (fuel : nat) (s : statement) (prssql : Z → list Z) (dfltargs : gmap (list Z) value) (ks : list (list Z)).
Context (Hsql : ∀ n, is_bytes (prssql n)).
Context (Hkeys : match params s with Some p => params_Keys p = Done ks | None => ks = [] end).
Context (Hcols : match rows s with Some rw => (Columns rw).2 = None | None => True end).

Record shows (u : prep) (v : qview) : Prop := {
  sh_text : buf_is (Some (qrybf u)) (q_text v);
  sh_valid : valid_runes (q_text v);
  sh_name : prmnme u = q_name v;
  sh_err : perr u = None;
  sh_ids : prmargsfnd u = map Z.of_nat (seq 0 (length (q_found v)));
  sh_vals i a : q_found v !! i = Some a → prmargvalsfnd u !! Z.of_nat i = Some a }.

Lemma found_is u v a :
  shows u v → perr u = None →
  ∃ u', found fuel prssql u a = Done u' ∧
    shows u' (MkView (q_text v ++ utf8.runes (prssql (len (q_found v)))) [] false (q_found v ++ [a]) (q_stmts v) (q_args v)).
Proof.
  intros [Ht Hv Hn He Hi Ha] _. unfold found. rewrite Hi, length_map, length_seq.
  destruct (print_string_is fuel (qrybf u) (q_text v) (prssql (len (q_found v))) Ht (Hsql _)) as (b & -> & Hb).
  cbn [exec_bind]. eexists. split; [done|]. split; cbn; [done| |done|done| |].
  - apply Forall_app. split; [done|]. by apply runes_valid.
  - rewrite length_app. cbn [length]. by rewrite seq_app, map_app.
  - intros i x. rewrite lookup_app_Some. intros [Hx|[Hge Hx]].
    + rewrite lookup_insert_ne; [by apply Ha|]. apply lookup_lt_Some in Hx. lia.
    + destruct (i - length (q_found v))%nat as [|k] eqn:E; [|by destruct k]. injection Hx as <-.
      replace i with (length (q_found v)) by lia. apply lookup_insert_eq.
Qed.

Lemma find_param_is tstnme :
  find_param s tstnme = Done (List.find (λ k, EqualFold (utf8.runes k) (utf8.runes tstnme)) ks).
Proof. unfold find_param. destruct (params s); [by rewrite Hkeys|]. by rewrite Hkeys. Qed.

Lemma null_is u v : shows u v →
  ∃ u', (let* b := print_string fuel [110; 117; 108; 108] (qrybf u) in Done (with_name (with_buf u b) [])) = Done u' ∧
    shows u' (MkView (q_text v ++ null) [] false (q_found v) (q_stmts v) (q_args v)).
Proof.
  intros [Ht Hv Hn He Hi Ha].
  destruct (print_string_is fuel (qrybf u) (q_text v) null Ht) as (b & Eb & Hb); [by repeat constructor|].
  unfold null in Eb at 1. rewrite Eb. cbn [exec_bind]. eexists. split; [done|]. split; cbn; try done.
  apply Forall_app. split; [done|]. by repeat constructor.
Qed.

Lemma query_close_is u v p :
  shows u v → ∃ u', query_close fuel s prssql dfltargs u p = Done (false, u', p) ∧ shows u' (q_close s prssql dfltargs ks v).
Proof.
  intros Hs. pose proof Hs as [Ht Hv Hn He Hi Ha]. unfold query_close, q_close. rewrite Hn.
  destruct (q_name v) as [|x n] eqn:En.
  { exists u. split; [done|]. by split; cbn; rewrite ?Hn, ?En. }
  set (tst := encode_all _). case_bool_decide as Etst.
  { exists u. split; [done|]. by split; cbn; rewrite ?Hn, ?En. }
  rewrite find_param_is. cbn [exec_bind]. unfold argument_of.
  destruct (List.find _ ks) as [k|]; [destruct (found_is u v (FromParam k (dfltargs !! upper k)) Hs He) as (u' & -> & Hu'); by exists u'|].
  assert (match rows s with Some rw => with_err u (Columns rw).2 | None => u end = u) as ->.
  { destruct (rows s); [|done]. unfold with_err. rewrite Hcols, <- He. by destruct u. }
  fold (column_named s tst). rewrite He. destruct (rows s); cbv iota.
  all: destruct (column_named s tst) as [[col dv]|];
    [destruct (found_is u v (FromColumn dv (dfltargs !! upper col)) Hs He) as (u' & -> & Hu'); by exists u'|].
  all: destruct (dfltargs !! upper tst) as [dv|]; cbn [fmap option_fmap option_map];
    [destruct (found_is u v (FromDefault dv) Hs He) as (u' & -> & Hu'); by exists u'|].
  all: destruct (null_is u v Hs) as (u' & -> & Hu'); by exists u'.
Qed.

(** The reference on the tokens of a parser. *)
Definition q_tok (v : qview) (t : tok) : qview :=
  match t with
  | TLit r => MkView (q_text v ++ [r]) (q_name v) false (q_found v) (q_stmts v) (q_args v)
  | TOpen => MkView (q_text v) (q_name v) true (q_found v) (q_stmts v) (q_args v)
  | TKey r => MkView (q_text v) (q_name v ++ [r]) true (q_found v) (q_stmts v) (q_args v)
  | TClose => q_close s prssql dfltargs ks v
  end.
Definition q_toks (v : qview) (ts : list tok) : qview := fold_left q_tok ts v.

Lemma q_toks_app v a b : q_toks v (a ++ b) = q_toks (q_toks v a) b.
Proof. apply fold_left_app. Qed.

Lemma q_toks_lits v rns : q_toks v (map TLit rns) = match rns with [] => v | _ => MkView (q_text v ++ rns) (q_name v) false (q_found v) (q_stmts v) (q_args v) end.
Proof.
  revert v. induction rns as [|r rns IH]; intros v; [done|]. cbn [map]. change (q_toks v (TLit r :: map TLit rns)) with (q_toks (q_tok v (TLit r)) (map TLit rns)).
  rewrite IH. destruct rns; [done|]. cbn. by rewrite <- app_assoc.
Qed.

Lemma q_toks_keys v rns : q_toks v (map TKey rns) = match rns with [] => v | _ => MkView (q_text v) (q_name v ++ rns) true (q_found v) (q_stmts v) (q_args v) end.
Proof.
  revert v. induction rns as [|r rns IH]; intros v; [done|]. cbn [map]. change (q_toks v (TKey r :: map TKey rns)) with (q_toks (q_tok v (TKey r)) (map TKey rns)).
  rewrite IH. destruct rns; [done|]. cbn. by rewrite <- app_assoc.
Qed.

Lemma shows_inside u v i : shows u v → shows u (MkView (q_text v) (q_name v) i (q_found v) (q_stmts v) (q_args v)).
Proof. by intros []. Qed.

Lemma query_handles v0 :
  handles (λ r, utf8.ValidRune r = true) (λ _, True) (query_events fuel s prssql dfltargs) (λ u ts, shows u (q_toks v0 ts)) None.
Proof.
  split; [done|done|done| | | |].
  - eexists. split; [done|]. intros rns u p ts Hv Hne Hs _. rewrite q_toks_app, q_toks_lits. destruct rns as [|r rns]; [done|].
    destruct Hs as [Ht Hvt Hn He Hi Ha]. unfold query_pre.
    destruct (WriteRunes_appends (qrybf u) (r :: rns)) as (b & -> & Hb); [apply Ht|done|]. cbn [exec_bind].
    eexists. split; [done|]. split; cbn; try done.
    + by eapply buf_is_appended.
    + by apply Forall_app.
  - intros u p ts Hs _. exists u. split; [done|]. rewrite q_toks_app. by apply shows_inside.
  - eexists. split; [done|]. intros c rns u p ts out Hv Hne Hs _. subst out.
    rewrite bool_decide_eq_false_2, andb_false_r by by intros [? ?].
    rewrite q_toks_app, q_toks_keys. destruct rns as [|r rns]; [done|]. destruct Hs as [Ht Hvt Hn He Hi Ha].
    eexists. split; [done|]. split; cbn; try done. by rewrite Hn.
  - eexists. split; [done|]. intros u p ts Hs _. rewrite q_toks_app.
    destruct (query_close_is u _ p Hs) as (u' & -> & Hu'). by exists false, u'.
Qed.

Definition mode_of (inside : bool) : mode := if inside then Inside 0 None else Outside 0.

Lemma machine_at inside r :
  machine at_label at_label None false (mode_of inside) r =
    if r =? 64 then (mode_of (negb inside), [if inside then TClose else TOpen])
    else (mode_of inside, [if inside then TKey r else TLit r]).
Proof.
  assert (bool_decide (at_label !! 0%nat = Some r) = (r =? 64)) as E.
  { destruct (Z.eqb_spec r 64) as [->|Hr]; [by apply bool_decide_eq_true|]. apply bool_decide_eq_false. intros [= ?]. congruence. }
  destruct inside; cbn [mode_of machine quote_step andb]; [|unfold outside]; rewrite E; by destruct (r =? 64).
Qed.

Lemma q_close_outside v : q_inside (q_close s prssql dfltargs ks v) = false.
Proof. unfold q_close. case_bool_decide; [done|]. by destruct (argument_of _ _ _ _). Qed.

Definition parser_at (p : Parsing) (inside : bool) : Prop :=
  parser_for false at_label at_label p ∧ at_mode false at_label p (mode_of inside).

(** One rune that is not a semicolon. *)
Lemma Parse_rune_is u v p r :
  shows u v → parser_at p (q_inside v) → utf8.ValidRune r = true → r ≠ 59 →
  ∃ u' p', Parse (query_events fuel s prssql dfltargs) [r] u p = Done (u', p') ∧
    shows u' (q_step s prssql dfltargs ks v r) ∧ parser_at p' (q_inside (q_step s prssql dfltargs ks v r)).
Proof.
  intros Hs [Hp Hm] Hr Hne.
  destruct (Parse_machine (query_events fuel s prssql dfltargs) _ None at_label at_label false false _ _ (query_handles v)
    ltac:(done) ltac:(by repeat constructor) ltac:(by repeat constructor) [r] (mode_of (q_inside v)) u p [])
    as (u' & p' & E & Hp' & Hm' & Hs'); try done; [destruct (q_inside v); cbn; lia|cbn; lia|cbn; lia|by repeat constructor|].
  exists u', p'. split; [done|]. cbn [machine_run app] in Hm', Hs'. rewrite machine_at in Hm', Hs'.
  unfold q_step. rewrite (proj2 (Z.eqb_neq r 59)) by done. unfold parser_at.
  destruct (r =? 64), (q_inside v) eqn:Ei; cbn in Hm', Hs' |- *; rewrite ?q_close_outside; split; try done.
  all: destruct v; cbn in *; subst; done.
Qed.

Lemma store_args_is u v n qa :
  shows u v → q_args v = qa →
  ∃ u', store_args s u n qa = Done (q_store s n v, u') ∧
    shows u' (MkView (q_text v) (q_name v) (q_inside v) [] (q_stmts v) (q_store s n v)) ∧ qrybf u' = qrybf u ∧ perr u' = perr u.
Proof.
  intros Hs <-. pose proof Hs as [Ht Hv Hn He Hi Ha]. unfold store_args, q_store. rewrite Hi, length_map, length_seq.
  destruct (q_found v) as [|a l] eqn:Ef; [by exists u|].
  change (0 <? Z.of_nat (length (a :: l))) with true. cbv iota.
  match goal with |- context [exec_bind (?f _) _] => set (values := f) end.
  assert (∀ k m, (∀ i x, m !! i = Some x → prmargvalsfnd u !! Z.of_nat (k + i) = Some x) →
    values (map Z.of_nat (seq k (length m))) = Done (map (eval_arg (params s)) m)) as Hval.
  { intros k m. revert k. induction m as [|x m IH]; intros k Hm; [done|]. cbn [length seq map].
    cbn [values]. pose proof (Hm 0%nat x eq_refl) as Hx. rewrite Nat.add_0_r in Hx. rewrite Hx, IH; [done|].
    intros i y Hy. rewrite Nat.add_succ_comm. by apply (Hm (S i)). }
  rewrite (Hval 0%nat (a :: l)) by done. cbn [exec_bind]. eexists. split; [done|]. split; [|done].
  split; cbn; done.
Qed.

Lemma cut_statement_is u v :
  shows u v → len (q_text v) < Z.of_nat fuel →
  ∃ u', cut_statement fuel s u (q_stmts v) (q_args v) = Done (u', q_stmts (q_cut s v), q_args (q_cut s v)) ∧ shows u' (q_cut s v).
Proof.
  intros Hs Hf. pose proof Hs as [(Hw & Hl & Hc) Hv Hn He Hi Ha]. unfold cut_statement.
  destruct (Clone_spec (qrybf u) true Hw Hl) as (b1 & b2 & -> & Hw1 & Hw2 & Hc1 & Hc2 & Hl1 & Hl2). cbn [exec_bind].
  destruct (SubString_is b1 (q_text v) true fuel) as (r & o & -> & Hsub); [|done|done|].
  { split; [done|]. split; [done|]. by rewrite Hc1. }
  cbn [exec_bind]. rewrite Hsub. cbn [exec_bind default from_option id].
  assert (shows (with_buf u b2) (MkView [] (q_name v) (q_inside v) (q_found v) (q_stmts v) (q_args v))) as Hs2.
  { split; cbn; try done. split; [done|]. split; [done|]. rewrite Hc2. by case_bool_decide. }
  unfold q_cut. destruct (q_text v) as [|x t] eqn:Et.
  - rewrite bool_decide_eq_true_2 by done. exists (with_buf u b2). split; [done|]. destruct v. cbn in *. by subst.
  - rewrite bool_decide_eq_false_2 by done. rewrite length_app. cbn [length].
    replace (Z.of_nat (length (q_stmts v) + 1) - 1) with (len (q_stmts v)) by lia.
    destruct (store_args_is _ _ (len (q_stmts v)) (q_args v) Hs2 eq_refl) as (u' & E & Hu' & _).
    rewrite E. cbn [exec_bind].
    exists u'. split; [done|]. by destruct Hu'.
Qed.

(** The text stays below the fuel. *)
Fixpoint text_below (n : nat) (v : qview) (rs : list Z) : Prop :=
  len (q_text v) < Z.of_nat n ∧ match rs with [] => True | r :: rs' => text_below n (q_step s prssql dfltargs ks v r) rs' end.

Lemma query_loop_is n rd u v p rs :
  closing_pending rd rs → shows u v → parser_at p (q_inside v) → valid_runes rs →
  (length rs < n)%nat → text_below fuel v rs →
  ∃ u' p', query_loop fuel s prssql dfltargs n rd u p (q_stmts v) (q_args v) =
      Done (u', p', q_stmts (fold_left (q_step s prssql dfltargs ks) rs v), q_args (fold_left (q_step s prssql dfltargs ks) rs v)) ∧
    shows u' (fold_left (q_step s prssql dfltargs ks) rs v) ∧ parser_at p' (q_inside (fold_left (q_step s prssql dfltargs ks) rs v)).
Proof.
  revert rd u v p rs. induction n as [|n IH]; intros rd u v p rs Hrd Hs Hp Hv Hn Hb; [lia|]. cbn [query_loop].
  destruct rs as [|r rs].
  - destruct (pending_nil (RuneSource := BuffReader_closing_source) rd Hrd) as (x & rd' & -> & _). cbn [exec_bind fold_left].
    change (0 <? 0) with false. cbv iota. cbn [exec_bind]. by exists u, p.
  - destruct (pending_cons (RuneSource := BuffReader_closing_source) rd r rs Hrd) as (k & rd' & -> & Hk & Hrd').
    cbn [exec_bind fold_left]. rewrite (proj2 (Z.ltb_lt 0 k)) by done. inversion Hv as [|? ? Hr Hv']; subst.
    destruct Hb as [Hb1 Hb2]. destruct (Z.eqb_spec r 59) as [->|Hne].
    + destruct (cut_statement_is u v Hs Hb1) as (u' & -> & Hu'). cbn [exec_bind].
      assert (q_step s prssql dfltargs ks v 59 = q_cut s v) as Ecut by done. rewrite Ecut in *.
      apply IH; [done|done| |done|cbn in Hn; lia|done].
      replace (q_inside (q_cut s v)) with (q_inside v); [done|]. unfold q_cut. by destruct (q_text v).
    + destruct (Parse_rune_is u v p r Hs Hp Hr Hne) as (u' & p' & -> & Hu' & Hp'). cbn [exec_bind].
      assert (q_stmts (q_step s prssql dfltargs ks v r) = q_stmts v ∧ q_args (q_step s prssql dfltargs ks v r) = q_args v) as [<- <-].
      { unfold q_step, q_close. rewrite (proj2 (Z.eqb_neq r 59)) by done.
        destruct (r =? 64), (q_inside v); try done. case_bool_decide; [done|]. by destruct (argument_of _ _ _ _). }
      apply IH; [done|done|done|done|cbn in Hn; lia|done].
Qed.

Lemma text_below_enough v rs : ∃ N, ∀ n, (N ≤ n)%nat → text_below n v rs.
Proof.
  revert v. induction rs as [|r rs IH]; intros v.
  - exists (S (length (q_text v))). intros n Hn. cbn. lia.
  - destruct (IH (q_step s prssql dfltargs ks v r)) as (N & HN). exists (Nat.max (S (length (q_text v))) N).
    intros n Hn. cbn. split; [lia|]. apply HN. lia.
Qed.
End callbacks.

(** The last statement. *)
Lemma last_statement_is fuel b l qry :
  buf_is (Some b) l → valid_runes l → len l < Z.of_nat fuel →
  last_statement fuel b qry =
    Done (if bool_decide (l = []) || bool_decide (l = [59]) then qry else qry ++ [encode_all l]).
Proof.
  intros Hb Hv Hf. unfold last_statement. rewrite (Empty_is (Some b) l Hb Hv). case_bool_decide as E; [done|].
  destruct (SubString_is b l true fuel Hb Hv Hf) as (r & o & -> & Hsub). cbn [exec_bind]. rewrite Hsub.
  cbn [exec_bind]. rewrite (bool_decide_eq_false_2 _ E). cbn [negb orb andb]. by case_bool_decide.
Qed.

(** ** The query that is loaded *)

(** The text of the query: of the file, as its reader or the statement's own function
    for files delivers it, or the query itself; none without a file system. *)
Inductive loaded (s : statement) : list Z → Prop :=
| loaded_nothing : fsys s = None → loaded s []
| loaded_query stat : fsys s = Some stat → is_bytes (initquery s) →
    stat (without_ext (initquery s) ++ sql_ext) = None →
    stat (without_ext (initquery s) ++ 46 :: driver s ++ sql_ext) = None → loaded s (utf8.runes (initquery s))
| loaded_file stat fi l : fsys s = Some stat → fireader s = None →
    or_first (stat (without_ext (initquery s) ++ sql_ext)) (stat (without_ext (initquery s) ++ 46 :: driver s ++ sql_ext)) = Some fi →
    runeReaderSlice.any_pending (fi_Reader fi) l → valid_runes l → loaded s l
| loaded_by stat fi f l : fsys s = Some stat → fireader s = Some f →
    or_first (stat (without_ext (initquery s) ++ sql_ext)) (stat (without_ext (initquery s) ++ 46 :: driver s ++ sql_ext)) = Some fi →
    (∀ b, buf_is (Some b) [] → ∃ b', f stat fi b = Done b' ∧ buf_is (Some b') l) → valid_runes l → loaded s l.

Definition after_load (s : statement) : statement := match fsys s with Some _ => no_fsys s | None => s end.

Lemma load_query_is fuel s l :
  loaded s l → len l < Z.of_nat fuel →
  valid_runes l ∧ ∃ b, load_query fuel s (empty_buffer chunk_size) = Done (after_load s, b) ∧ buf_is (Some b) l.
Proof.
  pose proof new_is as Hnew. intros Hl Hf. unfold load_query, after_load.
  destruct Hl as [->|stat -> Hq H1 H2|stat fi l -> -> -> Hp Hv|stat fi f l -> -> -> Hb Hv].
  - split; [constructor|]. by eexists.
  - split; [by apply runes_valid|]. rewrite H1, H2. cbn [or_first].
    destruct (print_string_is fuel _ [] (initquery s) Hnew Hq) as (b & -> & Hb). by exists b.
  - split; [done|]. destruct (Print_appends fuel (empty_buffer chunk_size) [PRuneReader (fi_Reader fi)] (encode_all l ++ [])) as (b & -> & Ha).
    + apply Hnew.
    + apply prints_cons; [by apply prints_reader|apply prints_none].
    + cbn [exec_bind]. exists b. split; [done|]. rewrite app_nil_r in Ha. by apply (buf_is_appended _ _ _ _ Hnew).
  - split; [done|]. destruct (Hb _ Hnew) as (b & -> & Hb'). by exists b.
Qed.

Lemma occursb_absent c l : c < 128 → 0 ≤ c → occursb [c] (encode_all l) = false → c ∉ l.
Proof.
  intros Hc Hc0 Ho Hin. enough (occursb [c] (encode_all l) = true) by congruence. apply occursb_spec.
  apply list_elem_of_split in Hin as (l1 & l2 & ->). exists (encode_all l1), (encode_all l2).
  rewrite encode_all_app, encode_all_cons. do 2 f_equal. unfold utf8.encode.
  repeat zcase; try lia. done.
Qed.

Lemma q_run_plain s prssql dflt ks l v :
  59 ∉ l → 64 ∉ l → q_inside v = false →
  fold_left (q_step s prssql dflt ks) l v =
    match l with [] => v | _ => MkView (q_text v ++ l) (q_name v) false (q_found v) (q_stmts v) (q_args v) end.
Proof.
  revert v. induction l as [|r l IH]; intros v H59 H64 Hi; [done|]. cbn [fold_left].
  apply not_elem_of_cons in H59 as [? ?]. apply not_elem_of_cons in H64 as [? ?].
  assert (q_step s prssql dflt ks v r = MkView (q_text v ++ [r]) (q_name v) false (q_found v) (q_stmts v) (q_args v)) as ->.
  { unfold q_step. rewrite (proj2 (Z.eqb_neq r 59)), (proj2 (Z.eqb_neq r 64)), Hi by congruence. done. }
  rewrite IH by done. destruct l; [done|]. cbn. by rewrite <- app_assoc.
Qed.

(** ** Preparing a statement *)

(** What the keys and columns of a statement are, when asking for them succeeds. *)
Definition names_known (s : statement) (ks : list (list Z)) : Prop :=
  match params s with Some p => params_Keys p = Done ks | None => ks = [] end ∧
  match rows s with Some rw => (Columns rw).2 = None | None => True end.

Lemma prepared_answers range s0 a prssql s1 dflt ks l :
  prssqlarg s0 = Some prssql → (∀ n, is_bytes (prssql n)) →
  fold_left (take_arg range) a (s0, ∅) = (s1, dflt) → names_known s1 ks → loaded s1 l →
  ∃ N, ∀ fuel, (N ≤ fuel)%nat →
    prepairSqlStatement range fuel (Some s0) a = Done (prepared (after_load s1) prssql dflt ks l, Some (after_load s1)).
Proof.
  intros Hp Hsql Ea Hk Hl. set (s := after_load s1).
  destruct (text_below_enough s prssql dflt ks qview0 l) as (N1 & HN1).
  destruct (text_below_enough s prssql dflt ks (q_run s prssql dflt ks l) []) as (N2 & HN2).
  exists (N1 + N2 + S (length l))%nat. intros fuel Hf. unfold prepairSqlStatement. rewrite Hp, Ea.
  destruct (load_query_is fuel s1 l Hl) as (Hv & b & -> & Hb); [lia|]. cbn [exec_bind]. fold s.
  assert (names_known s ks) as [Hkeys Hcols].
  { unfold s, after_load. destruct (fsys s1); exact Hk. }
  rewrite (Contains_mark b at_label l), (Contains_mark b [59] l) by (done || by apply head_onceb_once). cbn [exec_bind].
  unfold prepared. destruct (occursb at_label (encode_all l) || occursb [59] (encode_all l)) eqn:Eo.
  - assert ((if occursb at_label (encode_all l) then Done true else Done (occursb [59] (encode_all l))) = Done true) as ->.
    { destruct (occursb at_label _); [done|]. cbn [orb] in Eo. by rewrite Eo. }
    cbn [exec_bind]. assert (l ≠ []) as Hne by (by intros ->).
    destruct Hb as (Hw & Hlen & Hc).
    destruct (Clone_spec b true Hw Hlen) as (b1 & b2 & -> & Hw1 & Hw2 & Hc1 & Hc2 & Hl1 & Hl2). cbn [exec_bind].
    destruct (Reader_closing b1 true l) as (rd & -> & Hrd); [split; [done|rewrite Hl1; done]|congruence|done|done|].
    cbn [exec_bind default from_option id].
    assert (shows (MkPrep b2 [] ∅ [] None) qview0) as Hs.
    { split; cbn; try done. split; [done|]. split; [done|]. rewrite Hc2. by case_bool_decide. }
    destruct (query_loop_is fuel s prssql dflt ks Hsql Hkeys Hcols fuel (Some rd) _ qview0
      (New InOther at_label at_label false false).2 l Hrd Hs) as (u & p & E & Hu & Hp');
      [split; [by apply nextparsing_for|by apply nextparsing_at]|done|lia|apply HN1; lia|].
    change (q_stmts qview0) with (@nil (list Z)) in E. change (q_args qview0) with (@None (gmap Z (list value))) in E.
    rewrite E. cbn [exec_bind]. fold (q_run s prssql dflt ks l) in *. set (v := q_run s prssql dflt ks l) in *.
    assert (Busy (Some p) = q_inside v) as ->.
    { destruct Hp' as [[_ EpL _ EpostL _ _] Hm]. unfold Busy. rewrite EpL, EpostL. destruct (q_inside v); cbn in Hm.
      - destruct Hm as (-> & -> & _). done.
      - destruct Hm as (-> & _). done. }
    destruct (q_inside v); [done|].
    destruct (store_args_is s u v (len (q_stmts v)) (q_args v) Hu eq_refl) as (u' & -> & Hu' & _ & He'). cbn [exec_bind].
    destruct Hu' as [Ht' Hv' _ Herr _ _]. rewrite (last_statement_is fuel (qrybf u') (q_text v)); [|done|done|apply HN2; lia].
    cbn [exec_bind]. by rewrite Herr.
  - destruct (occursb at_label (encode_all l)) eqn:E1; [done|]. cbn [orb] in Eo. rename Eo into E2. rewrite E2. cbn [exec_bind].
    rewrite (last_statement_is fuel b l) by (done || lia). cbn [exec_bind].
    apply occursb_absent in E1; [|done|done]. apply occursb_absent in E2; [|done|done].
    assert (q_run s prssql dflt ks l = MkView l [] false [] [] None) as ->.
    { unfold q_run. rewrite q_run_plain by done. by destruct l. }
    done.
Qed.

(** C22: preparing a statement gives, for enough fuel, what the reference makes of the
    loaded query: the text cut into statements at each semicolon, each name between two
    [@] replaced by the driver's placeholder for its number in its statement, or by null
    when nothing has that name; and for each statement the values of its arguments in
    the order of their placeholders, a parameter before a column before a named value,
    with the named value as the default. *)
Theorem prepare_equals_reference range s0 a prssql s1 dflt ks l :
  prssqlarg s0 = Some prssql → (∀ n, is_bytes (prssql n)) →
  fold_left (take_arg range) a (s0, ∅) = (s1, dflt) → names_known s1 ks → loaded s1 l →
  ∃ N, ∀ fuel, (N ≤ fuel)%nat →
    prepairSqlStatement range fuel (Some s0) a = Done (prepared (after_load s1) prssql dflt ks l, Some (after_load s1)).
Proof. apply prepared_answers. Qed.

(** ** The error *)

Lemma q_step_inside s prssql dflt ks v r :
  q_inside (q_step s prssql dflt ks v r) = xorb (q_inside v) (r =? 64).
Proof.
  unfold q_step. destruct (Z.eqb_spec r 59) as [->|].
  - unfold q_cut. destruct (q_text v); by destruct (q_inside v).
  - destruct (r =? 64), (q_inside v) eqn:E; try done. apply q_close_outside.
Qed.

Lemma q_run_inside s prssql dflt ks l v :
  q_inside (fold_left (q_step s prssql dflt ks) l v) = xorb (q_inside v) (Nat.odd (count_occ Z.eq_dec l 64)).
Proof.
  revert v. induction l as [|r l IH]; intros v; [cbn; by rewrite xorb_false_r|]. cbn [fold_left]. rewrite IH, q_step_inside.
  cbn [count_occ]. destruct (Z.eq_dec r 64) as [->|Hne].
  - rewrite Nat.odd_succ, <- Nat.negb_odd, Z.eqb_refl. by destruct (q_inside v), (Nat.odd _).
  - rewrite (proj2 (Z.eqb_neq r 64)) by done. by rewrite xorb_false_r.
Qed.

(** C24: preparing a statement fails exactly when the number of [@] in its query is
    odd, wherever they stand - also in quoted text and behind semicolons. *)
Theorem prepare_fails_iff_odd range s0 a prssql s1 dflt ks l :
  prssqlarg s0 = Some prssql → (∀ n, is_bytes (prssql n)) →
  fold_left (take_arg range) a (s0, ∅) = (s1, dflt) → names_known s1 ks → loaded s1 l →
  ∃ N, ∀ fuel, (N ≤ fuel)%nat →
    ∃ qs qargs, prepairSqlStatement range fuel (Some s0) a =
      Done (qs, qargs, if Nat.odd (count_occ Z.eq_dec l 64) then Some failed_parsing else None, Some (after_load s1)).
Proof.
  intros Hp Hsql Ea Hk Hl. destruct (prepared_answers _ _ _ _ _ _ _ _ Hp Hsql Ea Hk Hl) as (N & HN). exists N.
  intros fuel Hf. rewrite HN by done. unfold prepared, q_run. rewrite q_run_inside. change (q_inside qview0) with false.
  rewrite xorb_false_l. destruct (Nat.odd _); eauto.
Qed.

(** ** Values are not part of the text *)

Definition with_params (s : statement) (p : Params) : statement :=
  MkStatement (db s) (dbcn s) (rows s) (driver s) (initquery s) (query s) (queryargs s) (fsys s) (fireader s) (Some p)
    (rdr s) (rcrd s) (args s) (prssqlarg s).

(** Views that differ at most in the values of the arguments. *)
Definition same_text (v w : qview) : Prop :=
  q_text v = q_text w ∧ q_name v = q_name w ∧ q_inside v = q_inside w ∧ q_found v = q_found w ∧ q_stmts v = q_stmts w.

Lemma q_step_same s p prssql dflt ks v w r :
  same_text v w → same_text (q_step s prssql dflt ks v r) (q_step (with_params s p) prssql dflt ks w r).
Proof.
  intros (Ht & Hn & Hi & Hf & Hs). unfold q_step, q_cut, q_close. rewrite Ht, Hn, Hi, Hf, Hs.
  change (argument_of (with_params s p) dflt ks) with (argument_of s dflt ks).
  destruct (r =? 59); [destruct (q_text w) eqn:E; [by repeat split; congruence|done]|].
  destruct (r =? 64), (q_inside w); try done.
  case_bool_decide; [done|]. by destruct (argument_of _ _ _ _).
Qed.

Lemma q_run_same s p prssql dflt ks l v w :
  same_text v w → same_text (fold_left (q_step s prssql dflt ks) l v) (fold_left (q_step (with_params s p) prssql dflt ks) l w).
Proof. revert v w. induction l as [|r l IH]; intros v w Hvw; [done|]. cbn. by apply IH, q_step_same. Qed.

Lemma prepared_same s p prssql dflt ks l :
  (prepared (with_params s p) prssql dflt ks l).1.1 = (prepared s prssql dflt ks l).1.1 ∧
  (prepared (with_params s p) prssql dflt ks l).2 = (prepared s prssql dflt ks l).2.
Proof.
  destruct (q_run_same s p prssql dflt ks l qview0 qview0) as (Ht & _ & Hi & _ & Hs); [done|]. unfold prepared, q_run.
  rewrite <- Hi. destruct (q_inside _); cbn; rewrite <- ?Ht, <- Hs; done.
Qed.

Lemma loaded_params s p l : loaded s l → loaded (with_params s p) l.
Proof.
  intros Hl. destruct Hl as [Hf|stat Hf Hq H1 H2|stat fi l Hf Hr Ho Hp Hv|stat fi f l Hf Hr Ho Hb Hv].
  - by apply loaded_nothing.
  - by apply (loaded_query (with_params s p) stat).
  - by apply (loaded_file (with_params s p) stat fi).
  - by apply (loaded_by (with_params s p) stat fi f).
Qed.

Lemma take_arg_params range a s p d :
  is_Some (params s) →
  fold_left (take_arg range) a (with_params s p, d) =
    (with_params (fold_left (take_arg range) a (s, d)).1 p, (fold_left (take_arg range) a (s, d)).2) ∧
  params (fold_left (take_arg range) a (s, d)).1 = params s.
Proof.
  revert s d. induction a as [|x a IH]; intros s d [q Hq]; [done|]. cbn [fold_left].
  assert (∃ s' d', take_arg range (s, d) x = (s', d') ∧ take_arg range (with_params s p, d) x = (with_params s' p, d') ∧ params s' = params s)
    as (s' & d' & -> & -> & Hs').
  { destruct x as [y|y|y|f|m|m|y]; unfold take_arg; rewrite ?Hq; unfold take_args; cbn [with_params params args].
    5,6: destruct (args s); [by eexists _, _|]; case_bool_decide; by eexists _, _.
    all: eexists _, _; split; [reflexivity|]; split; done. }
  rewrite <- Hs'. apply IH. rewrite Hs'. eauto.
Qed.

(** C23: the texts of the prepared statements, and whether preparing fails, depend on
    the names of the parameters and never on their values: whatever values a request
    gives, no part of them becomes part of a statement's text. *)
Theorem values_stay_out range s0 a prssql s1 dflt p1 p2 ks l :
  prssqlarg s0 = Some prssql → (∀ n, is_bytes (prssql n)) →
  params s0 = Some p1 → params_Keys p1 = Done ks → params_Keys p2 = Done ks →
  fold_left (take_arg range) a (s0, ∅) = (s1, dflt) →
  match rows s1 with Some rw => (Columns rw).2 = None | None => True end → loaded s1 l →
  ∃ N, ∀ fuel, (N ≤ fuel)%nat →
    ∃ qs err args1 args2 o1 o2,
      prepairSqlStatement range fuel (Some s0) a = Done (qs, args1, err, o1) ∧
      prepairSqlStatement range fuel (Some (with_params s0 p2)) a = Done (qs, args2, err, o2).
Proof.
  intros Hp Hsql H1 Hk1 Hk2 Ea Hr Hl.
  destruct (take_arg_params range a s0 p2 ∅) as [E2 Hp1]; [eauto|]. rewrite Ea in E2, Hp1. cbn [fst snd] in E2, Hp1.
  destruct (prepared_answers range s0 a prssql s1 dflt ks l Hp Hsql Ea) as (N1 & HN1); [|done|].
  { split; [|done]. by rewrite Hp1, H1. }
  destruct (prepared_answers range (with_params s0 p2) a prssql (with_params s1 p2) dflt ks l Hp Hsql E2) as (N2 & HN2); [by split| |].
  { by apply loaded_params. }
  exists (N1 + N2)%nat. intros fuel Hf. rewrite HN1, HN2 by lia.
  assert (after_load (with_params s1 p2) = with_params (after_load s1) p2) as Eal by (unfold after_load; cbn; by destruct (fsys s1)).
  rewrite Eal.
  destruct (prepared_same (after_load s1) p2 prssql dflt ks l) as [Hq He].
  destruct (prepared (with_params (after_load s1) p2) prssql dflt ks l) as [[qs2 args2] err2].
  destruct (prepared (after_load s1) prssql dflt ks l) as [[qs1 args1] err1]. cbn in Hq, He. subst.
  by eexists _, _, _, _, _, _.
Qed.

(** ** Running what was prepared *)

(** Querying a statement of several parts over a connection executes the parts
    but the last as one text with all their arguments, and then, unless that failed,
    queries the last with its own; an error of either is returned and leaves no rows. *)
Theorem QueryContext_parts s c qs q net :
  db s = None → dbcn s = Some c → rows s = None → query s = qs ++ [q] → qs ≠ [] →
  QueryContext (Some s) net =
    match cn_Exec c (concat qs) (concat (map (λ i, args_of (queryargs s) (Z.of_nat i)) (seq 0 (length qs)))) net with
    | (Some e, net1) => Done (None, Some e, Some s, net1)
    | (None, net1) =>
      match cn_Query c q (args_of (queryargs s) (len qs)) net1 with
      | (inl r, net2) => Done (Some r, None, Some (with_rows s (query s) (Some r)), net2)
      | (inr e, net2) => Done (None, Some e, Some s, net2)
      end
    end.
Proof.
  intros Hd Hc Hr Hq Hne. unfold QueryContext. rewrite Hd, Hc, Hr, Hq.
  assert (with_rows s (qs ++ [q]) None = s) as Es by (unfold with_rows; rewrite <- Hq, <- Hr; by destruct s).
  destruct (qs ++ [q]) as [|q0 [|q1 t]] eqn:E; [by destruct qs|by destruct qs as [|? [|]]|]. rewrite <- E.
  rewrite length_app. cbn [length]. replace (Z.of_nat (length qs + 1) - 1) with (len qs) by lia. rewrite Nat2Z.id.
  unfold slice at 1. rewrite length_app, (proj2 (Z.leb_le 0 0)), (proj2 (Z.leb_le 0 (len qs))), (proj2 (Z.leb_le (len qs) _)) by lia.
  unfold sub at 1. cbn [andb exec_bind]. rewrite Z.sub_0_r, Nat2Z.id, drop_0, take_app_length.
  assert (∀ l : list (list Z), GoStrings.Join l [] = concat l) as Hj.
  { induction l as [|x [|y l] IH]; [done|cbn; by rewrite app_nil_r|]. change (GoStrings.Join (x :: y :: l) []) with (x ++ [] ++ GoStrings.Join (y :: l) []). by rewrite IH. }
  rewrite Hj. destruct (cn_Exec _ _ _ _) as [[e|] net1]; [by rewrite E, Es|].
  rewrite (index_lookup (qs ++ [q]) (len qs) q) by (lia || by rewrite Nat2Z.id, list_lookup_middle).
  cbn [exec_bind]. destruct (cn_Query _ _ _ _) as [[r|e] net2]; cbn [rows_result]; [done|]. by rewrite Hr, E, Es.
Qed.
End theory.

(** * Instances *)

(** A database that answers no rows and keeps what it was asked. *)
#[export] Instance demo_world : World := {|
  Params := option parameters;
  FileInfo := anyrdr;
  fi_Reader r := r;
  DB := unit;
  Conn := unit;
  Net := list (list Z * list value);
  db_Conn _ net := (inl tt, net);
  db_Query _ q a net := (inl (MkRows ([], None) []), net ++ [(q, a)]);
  cn_Query _ q a net := (inl (MkRows ([], None) []), net ++ [(q, a)]);
  cn_Exec _ q a net := (None, net ++ [(q, a)]) |}.

Definition no_order : gmap (list Z) value → list (list Z * value) := map_to_list.
Definition marks (n : Z) : list Z := [36; 49 + n `mod` 9].

(** The query [x@a@,@b@,@c@;y@ A @], where [a] is a parameter and [b] a named value. *)
Definition demo_text : list Z := [120; 64; 97; 64; 44; 64; 98; 64; 44; 64; 99; 64; 59; 121; 64; 32; 65; 32; 64].
Definition demo_statement : statement :=
  MkStatement None (Some tt) None [] demo_text [] None (Some (λ _, None)) None (Some (Some Parameters.demo)) None None None (Some marks).
Definition demo_args : list qarg := [AStrings {[ [98] := [53] ]}; AOther VNil].
Definition demo_taken : statement * gmap (list Z) value := fold_left (take_arg no_order) demo_args (demo_statement, ∅).

Lemma marks_bytes n : is_bytes (marks n).
Proof. pose proof (Z.mod_pos_bound n 9). repeat constructor; lia. Qed.

Lemma demo_loaded : loaded demo_taken.1 demo_text.
Proof.
  change demo_text with (utf8.runes demo_text). apply (loaded_query demo_taken.1 (λ _, None)); [done| |done|done].
  repeat constructor; done.
Qed.

Lemma demo_names : names_known demo_taken.1 [[65]].
Proof. by split. Qed.

Lemma prepare_equals_reference_witness :
  ∃ N, ∀ fuel, (N ≤ fuel)%nat →
    prepairSqlStatement no_order fuel (Some demo_statement) demo_args =
      Done (prepared (after_load demo_taken.1) marks demo_taken.2 [[65]] demo_text, Some (after_load demo_taken.1)).
Proof.
  apply (prepare_equals_reference no_order demo_statement demo_args marks demo_taken.1 demo_taken.2 [[65]] demo_text);
    [reflexivity|exact marks_bytes|reflexivity|exact demo_names|exact demo_loaded].
Defined.

(** What the reference makes of it: [x$1,$2,null;] with 12 and 5, [y$1] with 12. *)
Example demo_prepared :
  prepared (after_load demo_taken.1) marks demo_taken.2 [[65]] demo_text =
    ([[120; 36; 49; 44; 36; 50; 44; 110; 117; 108; 108; 59]; [121; 36; 49]],
     Some {[ 0 := [VStr [49; 50]; VStr [53]]; 1 := [VStr [49; 50]] ]}, None).
Proof. by vm_compute. Qed.

Lemma prepare_fails_iff_odd_witness :
  ∃ N, ∀ fuel, (N ≤ fuel)%nat →
    ∃ qs qargs, prepairSqlStatement no_order fuel (Some demo_statement) demo_args =
      Done (qs, qargs, None, Some (after_load demo_taken.1)).
Proof.
  apply (prepare_fails_iff_odd no_order demo_statement demo_args marks demo_taken.1 demo_taken.2 [[65]] demo_text);
    [reflexivity|exact marks_bytes|reflexivity|exact demo_names|exact demo_loaded].
Defined.

(** The same names with other values. *)
Definition other_values : option parameters := Parameters.Set_ (Some Parameters.demo) [97] true [[39; 59; 64]].

Lemma values_stay_out_witness :
  ∃ N, ∀ fuel, (N ≤ fuel)%nat →
    ∃ qs err args1 args2 o1 o2,
      prepairSqlStatement no_order fuel (Some demo_statement) demo_args = Done (qs, args1, err, o1) ∧
      prepairSqlStatement no_order fuel (Some (with_params demo_statement other_values)) demo_args = Done (qs, args2, err, o2).
Proof.
  apply (values_stay_out no_order demo_statement demo_args marks demo_taken.1 demo_taken.2 (Some Parameters.demo) other_values [[65]] demo_text);
    [reflexivity|exact marks_bytes|reflexivity|by vm_compute|by vm_compute|reflexivity|exact I|exact demo_loaded].
Defined.

Definition ready_statement : statement :=
  MkStatement None (Some tt) None [] [] [[97; 59]; [98; 59]; [99]] (Some {[ 1 := [VStr [49]]; 2 := [VStr [50]] ]}) None None None None None None None.

Lemma QueryContext_parts_witness :
  QueryContext (Some ready_statement) [] =
    Done (Some (MkRows ([], None) []), None, Some (with_rows ready_statement (query ready_statement) (Some (MkRows ([], None) []))),
          [([97; 59; 98; 59], [VStr [49]]); ([99], [VStr [50]])]).
Proof.
  exact (QueryContext_parts ready_statement tt [[97; 59]; [98; 59]] [99] [] eq_refl eq_refl eq_refl eq_refl ltac:(done)).
Defined.

(** A statement that is cut in the middle of a quoted text. *)
Example semicolon_in_quotes :
  (prepared (after_load demo_taken.1) marks ∅ [] [39; 59; 39]).1.1 = [[39; 59]; [39]].
Proof. by vm_compute. Qed.

(** The placeholders of two statements that are executed as one text have the same
    numbers. *)
Example placeholders_restart :
  (prepared (after_load demo_taken.1) marks ∅ [[65]] [64; 97; 64; 59; 64; 97; 64; 59; 120]).1.1 =
    [[36; 49; 59]; [36; 49; 59]; [120]].
Proof. by vm_compute. Qed.

(** Nothing to query: the empty query panics, and several parts are not executed. *)
Example empty_query_panics :
  QueryContext (Some (with_prepared ready_statement [] None)) [] = Panic.
Proof. reflexivity. Qed.

Example parts_not_executed : ExecuteContext (Some ready_statement) [] [] = (None, []).
Proof. reflexivity. Qed.

(** Without a file system the query is not prepared: it is sent as it is. *)
Example unprepared_without_files :
  (let* '(o, _, net) := nextstatement no_order (λ _, VNil) VNil 100 tt (Some (MkDriver [112] None marks)) demo_text None
       [AParams (Some Parameters.demo)] [] in
   let* '(_, _, _, net') := QueryContext o net in Done net') = Done [(demo_text, [])].
Proof. reflexivity. Qed.

(** A query through a driver, from its text to the calls. *)
Example query_runs :
  (let* '(o, _, net) := nextstatement no_order (λ _, VNil) VNil 100 tt (Some (MkDriver [112] (Some (λ _, None)) marks)) demo_text None
       (AParams (Some Parameters.demo) :: demo_args) [] in
   let* '(_, _, _, net') := QueryContext o net in Done net') =
    Done [([120; 36; 49; 44; 36; 50; 44; 110; 117; 108; 108; 59], [VStr [49; 50]; VStr [53]]); ([121; 36; 49], [VStr [49; 50]])].
Proof. reflexivity. Qed.
