(* ===== verification/Rows.v ===== *)
(** src/dbms/rows.go, reader.go and record.go: the rows of a query, read one ahead so that
    the last one is known, and the reader of records over them.

    The rows of the database are the interface [IRows].  A callback that selects rows is a
    code [F] with an interpretation, which may change the rows and threads a state of its
    own.  The slices of a row are their values, copied as the code copies them.  What is told
    to the handler of errors is kept in the rows, what a reader closes and tells in its log.
    A reader has one record and one events object in its life; they are kept when it lets
    go of them.  Goroutines and contexts are left out. *)

From S2P Require Import Prelude GoStrings.
#[local] Open Scope Z_scope.

(** The rows a database gives. *)
Class IRows (S V CT : Type) := {
  ir_Next : S → bool * S;
  ir_Err : S → option goerr;
  ir_Scan : list V → S → option goerr * list V * S;
  ir_ColumnTypes : S → list CT * option goerr;
  ir_Columns : S → exec (list (list Z) * option goerr);
  ir_Close : S → S;
  ct_Name : CT → list Z }.

(** Go's [copy]. *)
Definition copy {A} (dst src : list A) : list A := take (length dst) src ++ drop (length src) dst.

Section rows.
Context {S V CT F T : Type} `{!IRows S V CT}.
(** The value of a column before anything was read: nil. *)
Context (nil_value : V).

(** [sctltd] is [Some None] when it is [dummyslct]; [opened] says that [IRows] is not nil, and
    [irows] is what it was. *)
Record rows := MkRows {
  cols : list (list Z);
  coltpes : list CT;
  dta : list V;
  lstdta : list V;
  nxtdta : list V;
  swpdta : bool;
  sctltd : option (option F);
  opened : bool;
  irows : S;
  lsterr : option goerr;
  started : bool;
  first : bool;
  last : bool;
  rwnr : Z;
  evnts : option bool;
  errs : list (option goerr) }.

(** What a callback does. *)
Context (call : F → rows → T → exec (bool * rows * T)).

(** [&rows{IRows: ...}] *)
Definition new_rows (s : S) : rows := MkRows [] [] [] [] [] false None true s None false false false 0 None [].

Definition with_irows (r : rows) (s : S) : rows :=
  MkRows (cols r) (coltpes r) (dta r) (lstdta r) (nxtdta r) (swpdta r) (sctltd r) (opened r) s (lsterr r) (started r) (first r) (last r) (rwnr r) (evnts r) (errs r).
Definition with_err (r : rows) (e : option goerr) : rows :=
  MkRows (cols r) (coltpes r) (dta r) (lstdta r) (nxtdta r) (swpdta r) (sctltd r) (opened r) (irows r) e (started r) (first r) (last r) (rwnr r) (evnts r) (errs r).
Definition with_flags (r : rows) (swp st fst lst : bool) : rows :=
  MkRows (cols r) (coltpes r) (dta r) (lstdta r) (nxtdta r) swp (sctltd r) (opened r) (irows r) (lsterr r) st fst lst (rwnr r) (evnts r) (errs r).
Definition with_data (r : rows) (d l n : list V) (nr : Z) : rows :=
  MkRows (cols r) (coltpes r) d l n (swpdta r) (sctltd r) (opened r) (irows r) (lsterr r) (started r) (first r) (last r) nr (evnts r) (errs r).
Definition with_cols (r : rows) (c : list (list Z)) (ct : list CT) : rows :=
  MkRows c ct (dta r) (lstdta r) (nxtdta r) (swpdta r) (sctltd r) (opened r) (irows r) (lsterr r) (started r) (first r) (last r) (rwnr r) (evnts r) (errs r).
Definition with_select (r : rows) (f : option F) : rows :=
  MkRows (cols r) (coltpes r) (dta r) (lstdta r) (nxtdta r) (swpdta r) (Some f) (opened r) (irows r) (lsterr r) (started r) (first r) (last r) (rwnr r) (evnts r) (errs r).
(** [rsevt.Error = ...]: a handler of errors. *)
Definition with_handler (r : rows) (h : bool) : rows :=
  MkRows (cols r) (coltpes r) (dta r) (lstdta r) (nxtdta r) (swpdta r) (sctltd r) (opened r) (irows r) (lsterr r) (started r) (first r) (last r) (rwnr r) (Some h) (errs r).
(** The handler of errors is told. *)
Definition tell_err (r : rows) (e : option goerr) : rows :=
  MkRows (cols r) (coltpes r) (dta r) (lstdta r) (nxtdta r) (swpdta r) (sctltd r) (opened r) (irows r) (lsterr r) (started r) (first r) (last r) (rwnr r) (evnts r) (errs r ++ [e]).

Definition rows_RowNR (o : option rows) : Z := match o with None => -1 | Some r => if swpdta r then rwnr r + 1 else rwnr r end.
Definition rows_Data (o : option rows) : list V := match o with None => [] | Some r => if swpdta r then nxtdta r else dta r end.
Definition rows_First (o : option rows) : bool := match o with None => false | Some r => first r end.
Definition rows_Last (o : option rows) : bool := match o with None => false | Some r => last r end.
Definition rows_Err (o : option rows) : option goerr := match o with None => None | Some r => lsterr r end.
Definition NextResultSet (o : option rows) : exec bool := Panic.
Definition rows_Scan (o : option rows) (dest : list V) : exec (option goerr) := Panic.

(** [Close]: an error is forgotten.  The readers among the values are closed too. *)
Definition Close (r : rows) : rows :=
  MkRows [] (coltpes r) [] (lstdta r) (nxtdta r) (swpdta r) (sctltd r) false (if opened r then ir_Close (irows r) else irows r) None (started r) (first r) (last r) (rwnr r) (evnts r) (errs r).

(** [readRow]: on to the next row, its error told and kept. *)
Definition readRow (r : rows) : bool * rows :=
  let '(nxt, s) := ir_Next (irows r) in
  let err := ir_Err s in
  let r := with_irows r s in
  let r := match err, evnts r with Some _, Some true => tell_err r err | _, _ => r end in
  (nxt, with_err r err).

(** [scanRow]: the handler is told without an error too. *)
Definition scanRow (r : rows) : rows :=
  let '(err, d, s) := ir_Scan (nxtdta r) (irows r) in
  let r := with_data (with_irows r s) (dta r) (lstdta r) d (rwnr r) in
  let r := match evnts r with Some true => tell_err r err | _ => r end in
  with_err r err.

(** [rescn]: on to the next row that is selected. *)
Inductive rescanned := Failed | Selected | Ended.

Definition run_select (r : rows) (t : T) : exec (bool * rows * T) :=
  match sctltd r with Some (Some f) => call f r t | Some None => Done (true, r, t) | None => Panic end.

Fixpoint rescan (n : nat) (r : rows) (t : T) : exec (rescanned * rows * T) :=
  match n with
  | O => NoFuel
  | Datatypes.S n' =>
    let r := scanRow r in
    match lsterr r with
    | Some _ => Done (Failed, Close r, t)
    | None =>
      let* '(sel, r, t) := run_select r t in
      if (sel : bool) then Done (Selected, r, t)
      else
        let '(rdrc, r) := readRow r in
        match lsterr r with
        | Some _ => Done (Failed, Close r, t)
        | None => if rdrc then rescan n' r t else Done (Ended, r, t)
        end
    end
  end.

(** The row in [lstdta] is the one to give. *)
Definition give (lst : bool) (r : rows) : rows :=
  with_data (with_flags r false (started r) (first r) (lst || last r)) (copy (dta r) (lstdta r)) (lstdta r) (nxtdta r) (rwnr r).

(** The row after the one in [lstdta] is read, or that one is the last. *)
Definition ahead (n : nat) (r : rows) (t : T) : exec (bool * rows * T) :=
  let '(rdrc, r) := readRow r in
  match lsterr r with
  | Some _ => Done (false, Close r, t)
  | None =>
    if rdrc then
      let* '(res, r, t) := rescan n (with_flags r true (started r) (first r) (last r)) t in
      match res with
      | Failed => Done (false, r, t)
      | Ended => Done (true, give true r, t)
      | Selected => Done (true, give false r, t)
      end
    else Done (true, give true r, t)
  end.

Definition nextRec (n : nat) (r : rows) (t : T) : exec (bool * rows * T) :=
  if last r then Done (false, r, t)
  else
    let step r := with_data r (dta r) (copy (lstdta r) (nxtdta r)) (nxtdta r) (rwnr r + 1) in
    if started r then ahead n (step (with_flags r (swpdta r) true false (last r))) t
    else
      let '(rdrc, r) := readRow (with_flags r (swpdta r) true true (last r)) in
      match lsterr r with
      | Some _ => Done (false, Close r, t)
      | None =>
        if rdrc then
          let* '(res, r, t) := rescan n (with_flags r true (started r) (first r) (last r)) t in
          match res with
          | Failed => Done (false, r, t)
          | Ended => Done (false, Close r, t)
          | Selected => ahead n (step r) t
          end
        else Done (false, Close r, t)
      end.

Definition Columns (o : option rows) : exec (list (list Z) * option goerr * option rows) :=
  match o with
  | None => Done ([], None, None)
  | Some r =>
    match cols r with
    | _ :: _ => Done (cols r, None, o)
    | [] =>
      if opened r then
        let told r := match evnts r, lsterr r with Some true, Some _ => tell_err r (lsterr r) | _, _ => r end in
        let '(cltpes, err) := ir_ColumnTypes (irows r) in
        match err, cltpes with
        | Some _, _ => Done ([], err, Some (told (with_err r err)))
        | None, _ :: _ =>
          let n := length cltpes in
          let made l := if Nat.eqb (length l) n then l else replicate n nil_value in
          let r := with_cols r (map ct_Name cltpes) cltpes in
          let r := with_data r (made (dta r)) (made (lstdta r)) (made (nxtdta r)) (rwnr r) in
          Done (cols r, None, Some r)
        | None, [] =>
          let* '(c, err) := ir_Columns (irows r) in
          let r := with_err r err in
          match err with
          | Some _ => Done ([], err, Some (told r))
          | None => Done (c, None, Some (with_cols r c (coltpes r)))
          end
        end
      else Done ([], None, o)
    end
  end.

Definition ColumnTypes (o : option rows) : exec (list CT * option goerr * option rows) :=
  match o with
  | None => Done ([], None, None)
  | Some r =>
    let* o := match cols r with
              | [] => if opened r then let* '(_, _, o) := Columns o in Done o else Done o
              | _ :: _ => Done o
              end in
    Done (match o with Some r => coltpes r | None => [] end, rows_Err o, o)
  end.

(** [slctd] of nil is [None]. *)
Definition SelectNext (n : nat) (slctd : option F) (o : option rows) (t : T) : exec (bool * option rows * T) :=
  match o with
  | None => Done (false, None, t)
  | Some r0 =>
    let asked := match cols r0 with [] => true | _ => false end in
    let* o := if (asked : bool) then let* '(_, _, o) := Columns o in Done o else Done o in
    let r := default r0 o in
    if asked && bool_decide (lsterr r ≠ None) then Done (false, Some r, t)
    else
      let r := if started r then r
               else match sctltd r with None => with_select r slctd | Some _ => r end in
      if opened r then let* '(nxt, r, t) := nextRec n r t in Done (nxt, Some r, t)
      else Done (false, Some r, t)
  end.
Definition rows_Next (n : nat) : option rows → T → exec (bool * option rows * T) := SelectNext n None.

(** [Events] of nil goes through it. *)
Definition rows_Events (o : option rows) : exec (bool * option rows) :=
  match o with
  | None => Panic
  | Some r => match evnts r with Some h => Done (h, o) | None => Done (false, Some (with_handler r false)) end
  end.
End rows.

(** ** dbirows: the rows of database/sql *)

(** [*sql.Rows] *)
Class SqlRows (D V CT : Type) := {
  sql_Next : D → bool * D;
  sql_Err : D → option goerr;
  sql_Scan : list V → D → option goerr * list V * D;
  sql_ColumnTypes : D → list CT * option goerr;
  sql_NextResultSet : D → bool * D;
  sql_Close : D → option goerr * D;
  sql_Name : CT → list Z }.

Section dbirows.
Context {D V CT : Type} `{!SqlRows D V CT}.

(** [dbrows] of nil is [None]; what it was before it was closed is kept in [gone].  The
    references of [dtarefs] are always those to the values that are scanned. *)
Record dbirows := MkDbirows { dbrows : option D; gone : option D }.

Definition dbirows_Close (o : option dbirows) : option goerr * option dbirows :=
  match o with
  | Some (MkDbirows (Some d) _) => let '(err, d) := sql_Close d in (err, Some (MkDbirows None (Some d)))
  | _ => (None, o)
  end.

Definition dbirows_ColumnTypes (o : option dbirows) : list CT * option goerr :=
  match o with
  | Some (MkDbirows (Some d) _) =>
    let '(dbcltps, err) := sql_ColumnTypes d in
    match err with Some _ => ([], err) | None => (dbcltps, None) end
  | _ => ([], None)
  end.

(** [Columns] asks itself. *)
Fixpoint dbirows_Columns (n : nat) (o : option dbirows) : exec (list (list Z) * option goerr) :=
  match n with
  | O => NoFuel
  | S n' =>
    match o with
    | Some (MkDbirows (Some _) _) => dbirows_Columns n' o
    | _ => Done ([], None)
    end
  end.

Definition dbirows_Err (o : option dbirows) : option goerr :=
  match o with Some (MkDbirows (Some d) _) => sql_Err d | _ => None end.

Definition dbirows_Next (o : option dbirows) : bool * option dbirows :=
  match o with Some (MkDbirows (Some d) g) => let '(b, d) := sql_Next d in (b, Some (MkDbirows (Some d) g)) | _ => (false, o) end.

Definition dbirows_NextResultSet (o : option dbirows) : bool * option dbirows :=
  match o with Some (MkDbirows (Some d) g) => let '(b, d) := sql_NextResultSet d in (b, Some (MkDbirows (Some d) g)) | _ => (false, o) end.

Definition dbirows_Scan (dest : list V) (o : option dbirows) : option goerr * list V * option dbirows :=
  match o with
  | Some (MkDbirows (Some d) g) =>
    match dest with
    | [] => (None, dest, o)
    | _ => let '(err, dest, d) := sql_Scan dest d in (err, dest, Some (MkDbirows (Some d) g))
    end
  | _ => (None, dest, o)
  end.

#[global] Instance dbirows_IRows (fuel : nat) : IRows (option dbirows) V CT := {
  ir_Next := dbirows_Next; ir_Err := dbirows_Err; ir_Scan := dbirows_Scan; ir_ColumnTypes := dbirows_ColumnTypes;
  ir_Columns := dbirows_Columns fuel; ir_Close o := (dbirows_Close o).2; ct_Name := sql_Name }.
End dbirows.
Arguments dbirows : clear implicits.

(** * Theory *)

(** Rows of a database whose columns have the types [types]: [rest] is what [Next] has still to come
    to before the rows end, or fail with the error [fin]. *)
Class RowSource {S V CT : Type} `{!IRows S V CT} (types : list CT) (fin : option goerr) (rest : S → list (list V) → Prop) := {
  rest_none s : rest s [] → ∃ b s', ir_Next s = (b, s') ∧ ir_Err s' = fin ∧ (fin = None → b = false);
  rest_some s d ds : rest s (d :: ds) → length d = length types ∧ ∃ s', ir_Next s = (true, s') ∧ ir_Err s' = None ∧
    ∀ old, length old = length types → ∃ s'', ir_Scan old s' = (None, d, s'') ∧ rest s'' ds;
  rest_types s ds : rest s ds → types ≠ [] ∧ ir_ColumnTypes s = (types, None) }.

Lemma copy_same {A} (dst src : list A) : length dst = length src → copy dst src = src.
Proof. intros E. unfold copy. rewrite E, firstn_all, drop_ge by lia. apply app_nil_r. Qed.

Section deliver.
Context {S V CT F T : Type} `{!IRows S V CT} (nil_value : V) (call : F → rows (S := S) (V := V) (CT := CT) (F := F) → T → exec (bool * rows (S := S) (V := V) (CT := CT) (F := F) * T)).
Context (types : list CT) (fin : option goerr) (rest : S → list (list V) → Prop) `{!RowSource types fin rest}.
#[local] Abbreviation n := (length types).
Implicit Types (r : rows (S := S) (V := V) (CT := CT) (F := F)) (t : T).
(** A callback that looks at the values of a row and leaves the rows alone, as long as its
    own state is in [I]. *)
Context (p : list V → bool) (f : option F) (I : T → Prop) (h : option bool).
Context (pure : ∀ r t, types ≠ [] → cols r = map ct_Name types → coltpes r = types → sctltd r = Some f → lsterr r = None → I t → ∃ t', run_select call r t = Done (p (rows_Data (Some r)), r, t') ∧ I t').

Definition at_row (s : S) (d : list V) (ds : list (list V)) : Prop :=
  length d = n ∧ ∀ old, length old = n → ∃ s'', ir_Scan old s = (None, d, s'') ∧ rest s'' ds.

(** The rows while they are read: no error, a callback, slices of the right length. *)
Record reading r : Prop := {
  rd_types : types ≠ [];
  rd_cols : cols r = map ct_Name types;
  rd_coltpes : coltpes r = types;
  rd_open : opened r = true;
  rd_err : lsterr r = None;
  rd_sel : sctltd r = Some f;
  rd_evnts : evnts r = h;
  rd_dta : length (dta r) = n;
  rd_lst : length (lstdta r) = n;
  rd_nxt : length (nxtdta r) = n }.

(** What stays of the rows while one is looked for. *)
Record same_but r r' : Prop := {
  sb_cols : cols r' = cols r; sb_coltpes : coltpes r' = coltpes r; sb_dta : dta r' = dta r; sb_lst : lstdta r' = lstdta r; sb_started : started r' = started r;
  sb_first : first r' = first r; sb_last : last r' = last r; sb_rwnr : rwnr r' = rwnr r; sb_swp : swpdta r' = swpdta r }.

Lemma same_trans r1 r2 r3 : same_but r1 r2 → same_but r2 r3 → same_but r1 r3.
Proof. intros [] []. split; congruence. Qed.

Lemma reading_flags r a b c d : reading r → reading (with_flags r a b c d).
Proof. intros []. by split. Qed.

Lemma scanRow_reading r d ds : reading r → at_row (irows r) d ds →
  reading (scanRow r) ∧ same_but r (scanRow r) ∧ nxtdta (scanRow r) = d ∧ rest (irows (scanRow r)) ds.
Proof.
  intros [? ? ? ? ? ? ? ? ? H] (Hd & Hs). destruct (Hs (nxtdta r) H) as (s'' & E & Hr). unfold scanRow. rewrite E. cbn [evnts with_data with_irows].
  destruct (evnts r) as [[]|] eqn:?; (split; [split; cbn; first [done|congruence]|]); (split; [by split|]); done.
Qed.

Lemma readRow_some r d ds : reading r → rest (irows r) (d :: ds) →
  ∃ r', readRow r = (true, r') ∧ reading r' ∧ same_but r r' ∧ nxtdta r' = nxtdta r ∧ at_row (irows r') d ds.
Proof.
  intros [] Hr. destruct (rest_some _ d ds Hr) as (Hd & s' & E & Ee & Hs). unfold readRow. rewrite E, Ee. cbn [evnts with_irows].
  eexists. split; [done|]. split; [by split|]. split; [by split|]. by split.
Qed.

(** The rows after their end or an error: closed, and the error told and forgotten. *)
Record closed r : Prop := {
  cl_cols : cols r = [];
  cl_opened : opened r = false;
  cl_err : lsterr r = None;
  cl_told : fin ≠ None → h = Some true → List.last (errs r) None = fin }.

Lemma readRow_none r : reading r → rest (irows r) [] → ∃ b r', readRow r = (b, r') ∧ lsterr r' = fin ∧
  match fin with None => b = false ∧ reading r' ∧ same_but r r' | Some _ => closed (Close r') end.
Proof.
  intros [] Hr. destruct (rest_none _ Hr) as (b & s' & E & Ee & Hb). unfold readRow. rewrite E, Ee. cbn [evnts with_irows].
  eexists _, _. split; [done|]. split; [done|]. destruct fin as [e|] eqn:Hfin; [|split; [by apply Hb|]; split; [by split|]; by split].
  split; try done. intros _ Hh. rewrite rd_evnts0, Hh, Hfin. apply last_last.
Qed.

(** Looking for a row that is selected. *)
Lemma rescan_finds k r t d ds :
  reading r → swpdta r = true → at_row (irows r) d ds → (length ds < k)%nat → I t →
  ∃ res r' t', rescan call k r t = Done (res, r', t') ∧ I t' ∧
    match List.filter p (d :: ds) with
    | [] => match fin with None => res = Ended ∧ reading r' ∧ same_but r r' | Some _ => res = Failed ∧ closed r' end
    | x :: xs => res = Selected ∧ reading r' ∧ same_but r r' ∧ nxtdta r' = x ∧ ∃ ds', rest (irows r') ds' ∧ List.filter p ds' = xs ∧ (length ds' ≤ length ds)%nat
    end.
Proof.
  revert r t d ds. induction k as [|k IH]; intros r t d ds Hr Hsw Ha Hk HI; [lia|]. cbn [rescan].
  destruct (scanRow_reading r d ds Hr Ha) as (Hr1 & Hs1 & Hn1 & Hrest). set (r1 := scanRow r) in *.
  rewrite (rd_err _ Hr1). destruct (pure r1 t) as (t1 & -> & HI1); [apply Hr1..|done|]. cbn [exec_bind].
  assert (rows_Data (Some r1) = d) as -> by (cbn; by rewrite (sb_swp _ _ Hs1), Hsw).
  cbn [List.filter]. destruct (p d).
  { eexists _, _, _. split; [done|]. split; [done|]. split_and!; [done..|]. by exists ds. }
  destruct ds as [|d2 ds].
  - destruct (readRow_none r1 Hr1 Hrest) as (b & r2 & -> & -> & H2). cbn [List.filter]. destruct fin as [e|].
    + eexists _, _, _. by split.
    + destruct H2 as (-> & Hr2 & Hs2). eexists _, _, _. split; [done|]. split; [done|]. split; [done|]. split; [done|]. by eapply same_trans.
  - destruct (readRow_some r1 d2 ds Hr1 Hrest) as (r2 & -> & Hr2 & Hs2 & _ & Ha2). rewrite (rd_err _ Hr2).
    destruct (IH r2 t1 d2 ds) as (res & r' & t' & -> & HI' & Hf); [done| |done|cbn in Hk; lia|done|].
    { by rewrite (sb_swp _ _ Hs2), (sb_swp _ _ Hs1). }
    eexists _, _, _. split; [done|]. split; [done|]. pose proof (same_trans _ _ _ Hs1 Hs2) as Hs. destruct (List.filter p (d2 :: ds)).
    + destruct fin; [done|]. destruct Hf as (? & ? & ?). split_and!; [done..|]. by eapply same_trans.
    + destruct Hf as (? & ? & ? & ? & ds' & ? & ? & ?). split_and!; [done|done|by eapply same_trans|done|]. exists ds'. cbn [length]. split_and!; [done..|lia].
Qed.

(** The rows between two calls, when the rows of [xs] are still to come: the first of them was
    read already. *)
Record resting (k : nat) (xs : list (list V)) r : Prop := {
  rt_reading : reading r;
  rt_started : started r = true;
  rt_swp : swpdta r = false;
  rt_more : match xs with
    | [] => last r = true
    | x :: xs => last r = false ∧ nxtdta r = x ∧ ∃ ds, rest (irows r) ds ∧ List.filter p ds = xs ∧ (length ds < k)%nat
    end }.

(** Row number [i], with the rows of [xs] still to come. *)
Record gives (x : list V) (i : Z) (fst : bool) (k : nat) (xs : list (list V)) r : Prop := {
  gv_data : rows_Data (Some r) = x;
  gv_nr : rows_RowNR (Some r) = i;
  gv_first : rows_First (Some r) = fst;
  gv_last : rows_Last (Some r) = match xs with [] => true | _ => false end;
  gv_rest : resting k xs r }.

Lemma give_reading lst r : reading r → reading (give lst r).
Proof. intros []. split; cbn; try done. rewrite copy_same; congruence. Qed.

Lemma give_gives lst r k xs :
  reading r → started r = true → last r = false → lst = match xs with [] => true | _ => false end →
  match xs with [] => True | x :: xs => nxtdta r = x ∧ ∃ ds, rest (irows r) ds ∧ List.filter p ds = xs ∧ (length ds < k)%nat end →
  gives (lstdta r) (rwnr r) (first r) k xs (give lst r).
Proof.
  intros Hr Hst Hl -> Hxs. pose proof (give_reading (match xs with [] => true | _ => false end) r Hr) as Hg. destruct Hr.
  split; cbn; [apply copy_same; congruence|done|done|rewrite Hl; apply orb_false_r|]. split; [done|done|done|]. destruct xs; [done|]. cbn. by rewrite Hl.
Qed.

(** A row to give, unless the rows failed after it. *)
Definition given (x : list V) (i : Z) (fst : bool) (k : nat) (xs : list (list V)) (ok : bool) r : Prop :=
  match xs, fin with [], Some _ => ok = false ∧ closed r | _, _ => ok = true ∧ gives x i fst k xs r end.

Lemma given_last x i b k r : fin = None → gives x i b k [] r → given x i b k [] true r.
Proof. intros E H. unfold given. by rewrite E. Qed.

Lemma given_more x i b k y ys r : gives x i b k (y :: ys) r → given x i b k (y :: ys) true r.
Proof. by split. Qed.

(** The row in [lstdta] is delivered, and what comes after it is known. *)
Lemma ahead_delivers k r t ds :
  reading r → rest (irows r) ds → (length ds < k)%nat → started r = true → last r = false → I t →
  ∃ ok r' t', ahead call k r t = Done (ok, r', t') ∧ given (lstdta r) (rwnr r) (first r) k (List.filter p ds) ok r' ∧ I t'.
Proof.
  intros Hr Hrest Hk Hst Hl HI. unfold ahead. destruct ds as [|d1 ds].
  - destruct (readRow_none r Hr Hrest) as (b & r1 & -> & -> & H1). cbn [List.filter]. destruct fin as [e|] eqn:Hfin.
    + eexists _, _, t. split; [done|]. split; [|done]. unfold given. rewrite Hfin. by split.
    + destruct H1 as (-> & Hr1 & []). eexists _, _, t. split; [done|]. split; [|done]. apply given_last; [done|].
      rewrite <- sb_lst0, <- sb_rwnr0, <- sb_first0. apply give_gives; [done|congruence|congruence|done|done].
  - destruct (readRow_some r d1 ds Hr Hrest) as (r1 & -> & Hr1 & [] & _ & Ha). rewrite (rd_err _ Hr1).
    destruct (rescan_finds k (with_flags r1 true (started r1) (first r1) (last r1)) t d1 ds) as (res & r3 & t' & -> & HI' & Hf);
      [by apply reading_flags|done|done|cbn in Hk; lia|done|]. cbn [exec_bind].
    destruct (List.filter p (d1 :: ds)) as [|x xs]; [destruct fin as [e|] eqn:Hfin|].
    + destruct Hf as (-> & Hc). eexists _, _, t'. split; [done|]. split; [|done]. unfold given. rewrite Hfin. by split.
    + destruct Hf as (-> & Hr3 & []). cbn in sb_lst1, sb_rwnr1, sb_first1, sb_started1, sb_last1. eexists _, _, t'. split; [done|]. split; [|done].
      apply given_last; [done|]. rewrite sb_lst0 in sb_lst1. rewrite <- sb_rwnr0, <- sb_first0, <- sb_lst1, <- sb_rwnr1, <- sb_first1.
      apply give_gives; [done|congruence|congruence|done|done].
    + destruct Hf as (-> & Hr3 & [] & Hn & ds' & ? & ? & ?). cbn in sb_lst1, sb_rwnr1, sb_first1, sb_started1, sb_last1. eexists _, _, t'. split; [done|]. split; [|done].
      apply given_more. rewrite sb_lst0 in sb_lst1. rewrite <- sb_rwnr0, <- sb_first0, <- sb_lst1, <- sb_rwnr1, <- sb_first1.
      apply give_gives; [done|congruence|congruence|done|]. split; [done|]. exists ds'. cbn in Hk. split_and!; [done|done|lia].
Qed.

Lemma SelectNext_cols k r t : reading r → SelectNext nil_value call k f (Some r) t = let* '(nxt, r, t) := nextRec call k r t in Done (nxt, Some r, t).
Proof.
  intros []. unfold SelectNext. destruct (cols r) as [|c cs]; [by destruct types|]. cbn [exec_bind default andb]. cbn. rewrite rd_sel0.
  destruct (started r); by rewrite rd_open0.
Qed.

(** The next of the rows still to come. *)
Lemma next_more k x xs r t : resting k (x :: xs) r → I t →
  ∃ ok r' t', SelectNext nil_value call k f (Some r) t = Done (ok, Some r', t') ∧ given x (rwnr r + 1) false k xs ok r' ∧ I t'.
Proof.
  intros [Hr Hst Hsw (Hl & Hx & ds & Hrest & Hf & Hk)] HI. rewrite SelectNext_cols by done. unfold nextRec. rewrite Hl, Hst.
  assert (copy (lstdta r) (nxtdta r) = x) as Ecp by (rewrite copy_same; destruct Hr; congruence).
  match goal with |- context [ahead call k ?r1 t] => destruct (ahead_delivers k r1 t ds) as (ok & r2 & t2 & E & Hg & HI2); [|exact Hrest|exact Hk|done|done|done|] end.
  { destruct Hr. split; cbn -[copy]; try done. by rewrite Ecp, <- Hx. }
  rewrite E. cbn [exec_bind]. eexists _, _, _. split; [done|]. split; [|done]. rewrite Hf in Hg. cbn -[copy given] in Hg. by rewrite Ecp in Hg.
Qed.

Lemma next_end k r t : resting k [] r → SelectNext nil_value call k f (Some r) t = Done (false, Some r, t).
Proof. intros [Hr _ _ Hl]. rewrite SelectNext_cols by done. unfold nextRec. by rewrite Hl. Qed.

Lemma next_closed k r t : closed r → ∃ r', SelectNext nil_value call k f (Some r) t = Done (false, Some r', t) ∧ lsterr r' = None.
Proof.
  intros []. unfold SelectNext, Columns. rewrite cl_cols0, cl_opened0. cbn [exec_bind from_option id]. rewrite bool_decide_eq_false_2 by (intros H; by apply H).
  cbn [andb]. destruct (started r); [by exists r; rewrite cl_opened0|]. destruct (sctltd r); cbn; rewrite cl_opened0; by eexists.
Qed.

(** Rows before the first call. *)
Definition fresh (s : S) (e : list (option goerr)) : rows (S := S) (V := V) (CT := CT) (F := F) :=
  MkRows [] [] [] [] [] false None true s None false false false 0 h e.

Lemma new_columns s e ds : rest s ds →
  Columns nil_value (Some (fresh s e)) =
    Done (map ct_Name types, None, Some (with_data (with_cols (fresh s e) (map ct_Name types) types) (replicate n nil_value) (replicate n nil_value) (replicate n nil_value) 0)).
Proof.
  intros Hr. destruct (rest_types s ds Hr) as (Hn & E). unfold Columns. cbn [cols opened irows fresh]. rewrite E. cbn. by destruct types.
Qed.

(** The first of the rows. *)
Lemma next_first k s e ds t : rest s ds → (length ds < k)%nat → I t →
  ∃ r' t', I t' ∧
    match List.filter p ds with
    | [] => SelectNext nil_value call k f (Some (fresh s e)) t = Done (false, Some r', t') ∧ closed r'
    | x :: xs => ∃ ok, SelectNext nil_value call k f (Some (fresh s e)) t = Done (ok, Some r', t') ∧ given x 1 true k xs ok r'
    end.
Proof.
  intros Hrest Hk HI. unfold SelectNext. cbn [cols fresh]. rewrite (new_columns s e ds Hrest). cbn [exec_bind from_option id andb].
  cbn [lsterr with_data with_cols fresh started sctltd opened]. set (r0 := with_select _ f).
  rewrite bool_decide_eq_false_2 by (intros H; by apply H). change (opened r0) with true. cbv iota.
  assert (reading r0) as Hr0 by (destruct (rest_types s ds Hrest); split; cbn; try done; apply length_replicate). unfold nextRec. change (last r0) with false. change (started r0) with false. cbv iota zeta.
  set (r1 := with_flags r0 (swpdta r0) true true false). assert (reading r1) as Hr1 by by apply reading_flags. change s with (irows r1) in Hrest.
  destruct ds as [|d ds].
  - destruct (readRow_none r1 Hr1 Hrest) as (b & r2 & -> & -> & H2). cbn [List.filter]. destruct fin as [e'|] eqn:Hfin; [by eexists _, t|].
    destruct H2 as (-> & Hr2 & _). eexists _, t. split; [done|]. split; [done|]. by split.
  - destruct (readRow_some r1 d ds Hr1 Hrest) as (r2 & -> & Hr2 & Hs2 & _ & Ha). rewrite (rd_err _ Hr2).
    destruct (rescan_finds k (with_flags r2 true (started r2) (first r2) (last r2)) t d ds) as (res & r4 & t4 & -> & HI4 & Hf);
      [by apply reading_flags|done|done|cbn in Hk; lia|done|].
    cbn [exec_bind]. destruct (List.filter p (d :: ds)) as [|x xs].
    { destruct fin as [e'|] eqn:Hfin; [destruct Hf as (-> & ?); by eexists _, t4|]. destruct Hf as (-> & _). eexists _, t4. split; [done|]. split; [done|]. by split. }
    destruct Hf as (-> & Hr4 & [_ _ _ _ Es4 Ef4 El4 En4 _] & Hx & ds5 & Hrest5 & Hf5 & Hle). destruct Hs2 as [_ _ _ _ Es2 Ef2 El2 En2 _]. cbn in Es4, Ef4, El4, En4.
    assert (copy (lstdta r4) (nxtdta r4) = x) as Ecp by (rewrite copy_same; destruct Hr4; congruence).
    match goal with |- context [ahead call k ?r5 t4] => destruct (ahead_delivers k r5 t4 ds5) as (ok & r6 & t6 & E & Hg & HI6) end.
    { destruct Hr4. split; cbn -[copy]; try done. by rewrite Ecp, <- Hx. }
    { done. } { cbn in Hk; lia. } { cbn. by rewrite Es4, Es2. } { cbn. by rewrite El4, El2. } { done. }
    rewrite E. cbn [exec_bind]. eexists _, _. split; [exact HI6|]. eexists. split; [done|]. cbn -[copy given] in Hg. by rewrite Ecp, Hf5, En4, En2, Ef4, Ef2 in Hg.
Qed.

Definition delivered : Type := bool * bool * Z * list V.

(** Calls [SelectNext] until it answers false, at most [m] times. *)
Fixpoint collect (k m : nat) (o : option (rows (S := S) (V := V) (CT := CT) (F := F))) (t : T) : exec (list delivered * option (rows (S := S) (V := V) (CT := CT) (F := F)) * T) :=
  match m with
  | O => NoFuel
  | Datatypes.S m' =>
    let* '(nxt, o, t) := SelectNext nil_value call k f o t in
    if (nxt : bool) then
      let* '(l, o', t) := collect k m' o t in Done ((rows_First o, rows_Last o, rows_RowNR o, rows_Data o) :: l, o', t)
    else Done ([], o, t)
  end.

(** Rows in their order: the first one, the last one, and their numbers.  Rows that fail lose
    the one before. *)
Fixpoint numbered (i : Z) (fst : bool) (l : list (list V)) : list delivered :=
  match l, fin with
  | [], _ | [_], Some _ => []
  | d :: l', _ => (fst, match l' with [] => true | _ => false end, i, d) :: numbered (i + 1) false l'
  end.

(** No error is left; the handler was told of the one there was. *)
Definition over (o : option (rows (S := S) (V := V) (CT := CT) (F := F))) : Prop :=
  rows_Err o = None ∧ (fin ≠ None → h = Some true → ∃ r, o = Some r ∧ List.last (errs r) None = fin).

Lemma closed_over r : closed r → over (Some r).
Proof. intros []. split; [done|]. intros. exists r. by eauto. Qed.

Lemma given_cases x i b k xs ok r : given x i b k xs ok r →
  (ok = false ∧ closed r ∧ numbered i b (x :: xs) = []) ∨
  (ok = true ∧ gives x i b k xs r ∧ (xs = [] → fin = None) ∧ numbered i b (x :: xs) = (b, match xs with [] => true | _ => false end, i, x) :: numbered (i + 1) false xs).
Proof. intros Hg. unfold given in Hg. cbn [numbered]. destruct xs, fin; destruct Hg as [-> Hg]; [by left|by right..]. Qed.

Lemma collect_step k x xs i b o t ok r' t' :
  SelectNext nil_value call k f o t = Done (ok, Some r', t') → given x i b k xs ok r' →
  (resting k xs r' → (xs = [] → fin = None) → ∃ o2 t2, collect k (Datatypes.S (length xs)) (Some r') t' = Done (numbered (rwnr r' + 1) false xs, o2, t2) ∧ over o2) →
  ∃ o2 t2, collect k (Datatypes.S (length (x :: xs))) o t = Done (numbered i b (x :: xs), o2, t2) ∧ over o2.
Proof.
  intros E Hg IH. change (length (x :: xs)) with (Datatypes.S (length xs)). cbn [collect]. rewrite E. cbn [exec_bind].
  destruct (given_cases _ _ _ _ _ _ _ Hg) as [(-> & Hc & ->)|(-> & [Hd Hi Hb Hl Hr] & He & ->)].
  - eexists _, _. split; [done|]. by apply closed_over.
  - destruct (IH Hr He) as (o2 & t2 & E2 & Ho). cbn [collect] in E2. rewrite E2. cbn [exec_bind]. rewrite Hd, Hi, Hb, Hl. eexists _, _. split; [|exact Ho].
    cbn in Hi. rewrite (rt_swp _ _ _ Hr) in Hi. by subst i.
Qed.

Lemma collect_more k xs r t : resting k xs r → (xs = [] → fin = None) → I t →
  ∃ o t', collect k (Datatypes.S (length xs)) (Some r) t = Done (numbered (rwnr r + 1) false xs, o, t') ∧ over o.
Proof.
  revert r t. induction xs as [|x xs IH]; intros r t Hr He HI.
  - cbn [collect length]. rewrite next_end by done. cbn [exec_bind]. eexists _, _. split; [done|]. split; [apply Hr|]. by rewrite He.
  - destruct (next_more k x xs r t Hr HI) as (ok & r2 & t2 & E & Hg & HI2). eapply collect_step; [done|done|]. intros. by apply IH.
Qed.

(** C29: the rows of a database are delivered one by one and in their order: calling
    [SelectNext] with a callback that looks at the values of a row answers true for exactly
    the rows it selects, gives their values, numbers them from 1, tells the first one as the
    first and - by reading one row ahead - the last one as the last; then it answers false.
    When the database fails after these rows the row before the failure is not delivered, no
    row is told to be the last, and [Err] is nil; only the handler of errors is told. *)
Theorem rows_deliver k s e ds t :
  rest s ds → (length ds < k)%nat → I t →
  ∃ o t', collect k (Datatypes.S (length (List.filter p ds))) (Some (fresh s e)) t = Done (numbered 1 true (List.filter p ds), o, t') ∧ over o.
Proof.
  intros Hrest Hk HI. destruct (next_first k s e ds t Hrest Hk HI) as (r & t1 & HI1 & H). destruct (List.filter p ds) as [|x xs].
  - cbn [collect length]. destruct H as [-> Hc]. cbn [exec_bind]. eexists _, _. split; [done|]. by apply closed_over.
  - destruct H as (ok & E & Hg). eapply collect_step; [done|done|]. intros. by apply collect_more.
Qed.
End deliver.

(** ** The rows of database/sql *)

(** What database/sql promises of rows with columns of the types [types]. *)
Class SqlSource {D V CT : Type} `{!SqlRows D V CT} (types : list CT) (fin : option goerr) (rest : D → list (list V) → Prop) := {
  sql_none d : rest d [] → ∃ d', sql_Next d = (false, d') ∧ sql_Err d' = fin;
  sql_some d v vs : rest d (v :: vs) → length v = length types ∧ ∃ d', sql_Next d = (true, d') ∧ sql_Err d' = None ∧
    ∀ old, length old = length types → ∃ d'', sql_Scan old d' = (None, v, d'') ∧ rest d'' vs;
  sql_types d vs : rest d vs → types ≠ [] ∧ sql_ColumnTypes d = (types, None) }.

Section sql.
Context {D V CT : Type} `{!SqlRows D V CT} (types : list CT) (fin : option goerr) (rest : D → list (list V) → Prop) `{!SqlSource types fin rest}.

Definition sql_rest (o : option (dbirows D)) (vs : list (list V)) : Prop := ∃ d g, o = Some (MkDbirows (Some d) g) ∧ rest d vs.

(** The rows of database/sql are rows to read. *)
#[global] Instance dbirows_source (fuel : nat) : @RowSource _ V CT (dbirows_IRows fuel) types fin sql_rest.
Proof.
  split.
  - intros o (d & g & -> & H). destruct (sql_none d H) as (d' & E & Ee). cbn. rewrite E. eexists _, _. split; [done|]. by split.
  - intros o v vs (d & g & -> & H). destruct (sql_some d v vs H) as (Hl & d' & E & Ee & Hs). destruct (sql_types d _ H) as (Hn & _).
    split; [done|]. cbn. rewrite E. eexists. split; [done|]. split; [done|]. intros old Ho. destruct (Hs old Ho) as (d'' & E' & Hr).
    destruct old; [by destruct types|]. cbn. rewrite E'. eexists. split; [done|]. by eexists _, _.
  - intros o vs (d & g & -> & H). destruct (sql_types d _ H) as (Hn & E). cbn. by rewrite E.
Qed.

(** Rows without types of columns are never named. *)
Lemma dbirows_Columns_diverges fuel d g : dbirows_Columns fuel (Some (MkDbirows (D := D) (Some d) g)) = NoFuel.
Proof. induction fuel as [|fuel IH]; [done|]. exact IH. Qed.
End sql.

(** ** Rows in a list, which may fail in the end *)

Record feed := MkFeed { fd_rows : list (list Z); fd_at : list Z; fd_fin : option goerr; fd_err : option goerr; fd_types : list Z }.

#[global] Instance feed_sql : SqlRows feed Z Z := {
  sql_Next fd := match fd_rows fd with
    | d :: ds => (true, MkFeed ds d (fd_fin fd) None (fd_types fd))
    | [] => (false, MkFeed [] [] (fd_fin fd) (fd_fin fd) (fd_types fd)) end;
  sql_Err := fd_err;
  sql_Scan _ fd := (None, fd_at fd, fd);
  sql_ColumnTypes fd := (fd_types fd, None);
  sql_NextResultSet fd := (false, fd);
  sql_Close fd := (None, fd);
  sql_Name c := [c] }.

Definition feed_rest (types : list Z) (fin : option goerr) (fd : feed) (ds : list (list Z)) : Prop :=
  fd_rows fd = ds ∧ Forall (λ d, length d = length types) ds ∧ fd_fin fd = fin ∧ fd_types fd = types.

#[global] Instance feed_source t ts fin : SqlSource (t :: ts) fin (feed_rest (t :: ts) fin).
Proof.
  split.
  - intros [ds a f e ts'] (E & _ & Ef & _). cbn in E, Ef. subst. by eexists.
  - intros [ds a f e ts'] v vs (E & Hl & Ef & Hn). cbn in E, Ef, Hn. subst. inversion Hl as [|? ? Hv Hvs]. split; [done|]. eexists. split; [done|].
    split; [done|]. intros old Ho. eexists. by split.
  - intros [ds a f e ts'] vs (_ & _ & _ & Hn). cbn in Hn. by subst.
Qed.

Definition demo_feed (fin : option goerr) : option (dbirows feed) := Some (MkDbirows (Some (MkFeed [[1; 2]; [3; 4]; [5; 6]; [7; 8]] [] fin None [65; 66])) None).
(** Selects the rows whose first value is not 3, and counts the rows it saw. *)
Definition demo_call (f : unit) (r : rows (S := option (dbirows feed)) (V := Z) (CT := Z) (F := unit)) (seen : Z) : exec (bool * rows * Z) :=
  Done (match rows_Data (Some r) with 3 :: _ => false | _ => true end, r, seen + 1).
Definition demo_picks (d : list Z) : bool := match d with 3 :: _ => false | _ => true end.

Lemma rows_deliver_witness :
  (sql_rest (feed_rest [65; 66] (Some EOF)) (demo_feed (Some EOF)) [[1; 2]; [3; 4]; [5; 6]; [7; 8]]) ∧
  ∃ o t', @collect _ _ _ _ _ (dbirows_IRows 0) 0 demo_call (Some tt) 5 4 (Some (fresh (Some true) (demo_feed (Some EOF)) [])) 0 =
    Done ([(true, false, 1, [1; 2]); (false, false, 2, [5; 6])], o, t') ∧ over (Some EOF) (Some true) o.
Proof.
  assert (sql_rest (feed_rest [65; 66] (Some EOF)) (demo_feed (Some EOF)) [[1; 2]; [3; 4]; [5; 6]; [7; 8]]) as H.
  { eexists _, _. split; [reflexivity|]. split; [reflexivity|]. split; [by repeat constructor|]. by split. }
  split; [exact H|].
  exact (@rows_deliver _ _ _ _ _ (dbirows_IRows 0) 0 demo_call [65; 66] (Some EOF) _ (dbirows_source [65; 66] (Some EOF) (feed_rest [65; 66] (Some EOF)) 0)
    demo_picks (Some tt) (λ _, True) (Some true)
    (λ r t _ _ _ Hs _ _, ltac:(exists (t + 1); unfold run_select; rewrite Hs; done)) 5 (demo_feed (Some EOF)) [] _ 0 H ltac:(cbn; lia) I).
Defined.

Definition demo_collect r := @collect _ _ _ _ _ (dbirows_IRows 0) 0 demo_call (Some tt) 5 4 (Some r) 0.

(** The same rows without a failure: the last one is told to be the last. *)
Example rows_all : match demo_collect (new_rows (demo_feed None)) with
  | Done (l, _, seen) => l = [(true, false, 1, [1; 2]); (false, false, 2, [5; 6]); (false, true, 3, [7; 8])] ∧ seen = 4
  | _ => False end.
Proof. vm_compute. by split. Qed.

(** The handler is told without an error once for every row. *)
Example scan_tells_nil : match demo_collect (with_handler (new_rows (demo_feed None)) true) with
  | Done (_, Some r, _) => errs r = [None; None; None; None]
  | _ => False end.
Proof. vm_compute. reflexivity. Qed.

(** Rows without columns: the first [Next] does not return. *)
Example no_columns fuel n : @rows_Next _ _ _ _ _ (dbirows_IRows fuel) 0 demo_call n (Some (new_rows (Some (MkDbirows (Some (MkFeed [] [] None None [])) None)))) 0 = NoFuel.
Proof. unfold rows_Next, SelectNext, Columns. cbn [cols opened new_rows ir_ColumnTypes ir_Columns dbirows_IRows irows exec_bind]. cbn -[dbirows_Columns]. by rewrite dbirows_Columns_diverges. Qed.

(** [Events] of no rows goes through nil. *)
Example Events_nil : rows_Events (S := feed) (V := Z) (CT := Z) (F := unit) None = Panic.
Proof. reflexivity. Qed.
