(* ===== verification/Connections.v ===== *)
(** src/dbms/driver.go, drivers.go, connection.go, connections.go, dbmshandler.go and dbms.go:
    the registries of drivers and connections, and how a query finds its way through them to
    the statements of [Statement].

    Drivers, connections and readers are shared by pointers: numbers from 1, in the order of
    their making, and 0 for nil.  The registries are maps of [IterMap]; what their events do is
    done with them, before the operation returns, though the code leaves it to goroutines.
    Databases that are closed in goroutines are in a list.  Both registries are there, as
    [NewDBMS] makes them. *)

From S2P Require Import Prelude Runes GoStrings Buffer Parameters Statement IterMap.
From stdpp Require Import gmap.
#[local] Open Scope Z_scope.

(** Pointers in a map with names. *)
#[export] Instance pointer_entries : Entries (list Z) Z := {
  empty_name k := bool_decide (k = []);
  value_Equal a b := Done (a =? b);
  zero_value := 0 }.

#[local] Abbreviation pointers := (itermap (K := list Z) (V := Z)).

Section dbms.
Context `{UnicodeCase} `{World}.
Context (range : gmap (list Z) value → list (list Z * value)) (as_value : qarg → value) (fsys_value : value) (fuel : nat).
#[local] Abbreviation Stat := (list Z → option FileInfo).

(** ** driver.go *)

(** What opens a database: it may answer no database and no error. *)
Definition invoker : Type := list Z → option Stat → Net → option DB * option goerr * Net.

Record driver := MkDrv {
  invokedb : option invoker;
  parseSqlArg : option (Z → list Z);
  drv_name : list Z;
  drv_fsys : option Stat;
  datasource : list Z }.

Definition no_datasource : goerr := OtherErr 4.

Definition drv_FSys (o : option driver) : option Stat := match o with Some d => drv_fsys d | None => None end.
Definition DataSource (o : option driver) : list Z := match o with Some d => datasource d | None => [] end.
Definition drv_Name (o : option driver) : list Z := match o with Some d => drv_name d | None => [] end.
Definition drv_ParseSqlArg (o : option driver) (n : Z) : list Z :=
  match o with Some d => match parseSqlArg d with Some f => f n | None => [] end | None => [] end.

Definition Invoke (o : option driver) (ds : list Z) (fs : option Stat) (net : Net) : option DB * option goerr * Net :=
  match o with
  | Some d =>
    match invokedb d with
    | Some f =>
      let ds := match ds with [] => datasource d | _ => ds end in
      match ds with [] => (None, Some no_datasource, net) | _ => f ds fs net end
    | None => (None, None, net)
    end
  | None => (None, None, net)
  end.

(** An argument of [Register]: the first of these it is. *)
Inductive regarg := RInvoke (f : option invoker) | RParse (p : option (Z → list Z)) | RFsys (f : Stat) | ROther.

Definition NewDriver (name : list Z) (f : option invoker) (p : option (Z → list Z)) (a : list regarg) : driver :=
  MkDrv f p name (fold_left (λ fs x, match x with RFsys g => or_first fs (Some g) | _ => fs end) a None) [].

(** ** The state of a dbms *)

Record connection := MkConnection { db : option DB; cn_datasource : list Z; dvr : Z; cn_fsys : option Stat }.

Record dbms := MkDbms {
  drivers : list driver;
  drvrs : option pointers;
  dfltinvkbl : option (list Z → option invoker * option (Z → list Z));
  connections : list connection;
  cnctns : option pointers;
  has_drvrs : bool;
  c_fsys : option Stat;
  closed : list DB;
  readers : list Rows;
  net : Net }.

Definition with_net (d : dbms) (w : Net) : dbms :=
  MkDbms (drivers d) (drvrs d) (dfltinvkbl d) (connections d) (cnctns d) (has_drvrs d) (c_fsys d) (closed d) (readers d) w.
Definition with_drvrs (d : dbms) (l : list driver) (m : option pointers) : dbms :=
  MkDbms l m (dfltinvkbl d) (connections d) (cnctns d) (has_drvrs d) (c_fsys d) (closed d) (readers d) (net d).
Definition with_cnctns (d : dbms) (l : list connection) (m : option pointers) (cl : list DB) : dbms :=
  MkDbms (drivers d) (drvrs d) (dfltinvkbl d) l m (has_drvrs d) (c_fsys d) cl (readers d) (net d).

(** [NewDBMS]: the connections ask for the events of their map. *)
Definition NewDBMS (fs : option Stat) (w : Net) : dbms :=
  MkDbms [] (Some MapIterator) None [] (Some (MkIterMap (Some ∅) (Some (MkEvents true true true true)))) true fs [] [] w.

(** What a pointer is to. *)
Definition at_pointer {A} (l : list A) (p : Z) : option A := if 1 <=? p then l !! Z.to_nat (p - 1) else None.
Definition set_pointer {A} (l : list A) (p : Z) (x : A) : list A := if 1 <=? p then <[Z.to_nat (p - 1) := x]> l else l.

Definition the_driver (d : dbms) (p : Z) : option driver := at_pointer (drivers d) p.

(** ** drivers.go *)

Definition drivers_Empty (d : dbms) : bool := match drvrs d with Some _ => IterMap.Empty (drvrs d) | None => true end.
Definition drivers_Exist (d : dbms) (name : list Z) : bool := match drvrs d with Some _ => IterMap.Contains (drvrs d) name | None => true end.
Definition drivers_Contains (d : dbms) (name : list Z) : bool := match drvrs d with Some _ => IterMap.Contains (drvrs d) name | None => false end.
Definition drivers_Get (d : dbms) (name : list Z) : Z * bool := match drvrs d with Some _ => IterMap.Get (drvrs d) name | None => (0, false) end.
Definition DefaultInvokable (d : dbms) (f : option (list Z → option invoker * option (Z → list Z))) : dbms :=
  match f with
  | Some _ => MkDbms (drivers d) (drvrs d) f (connections d) (cnctns d) (has_drvrs d) (c_fsys d) (closed d) (readers d) (net d)
  | None => d
  end.
Definition drivers_Clear (d : dbms) : dbms := match drvrs d with Some _ => with_drvrs d (drivers d) (IterMap.Clear (drvrs d)).1 | None => d end.
Definition drivers_Close (d : dbms) : dbms := with_drvrs d (drivers d) None.
Definition drivers_Iterate {X} (d : dbms) (yield : list Z → Z → X → bool * X) (x : X) : X := IterMap.Iterate (drvrs d) yield x.
Definition drivers_Events (d : dbms) : dbms * option MapIterateEvents :=
  match drvrs d with Some _ => let '(m, e) := IterMap.Events (drvrs d) in (with_drvrs d (drivers d) m, e) | None => (d, None) end.

(** The first of each kind among the arguments. *)
Definition first_invoke (a : list regarg) : option invoker := fold_left (λ o x, match x with RInvoke f => or_first o f | _ => o end) a None.
Definition first_parse (a : list regarg) : option (Z → list Z) := fold_left (λ o x, match x with RParse f => or_first o f | _ => o end) a None.

Definition drivers_Register (d : dbms) (alias : list Z) (a : list regarg) : exec (Z * dbms) :=
  match drvrs d with
  | None => Done (0, d)
  | Some _ =>
    let '(inv, prs) :=
      match a with
      | _ :: _ => (first_invoke a, first_parse a)
      | [] => match dfltinvkbl d with Some f => f alias | None => (None, None) end
      end in
    match inv with
    | Some _ =>
      let p := len (drivers d) + 1 in
      let* '(m, _) := IterMap.Set_ (drvrs d) alias p in
      Done (p, with_drvrs d (drivers d ++ [NewDriver alias inv prs a]) m)
    | None => Done (0, d)
    end
  end.

(** ** connection.go *)

Definition NewConnection (p : Z) (ds : list Z) (fs : option Stat) : connection := MkConnection None ds p fs.

(** [go db.Close()] *)
Definition close_db (o : option DB) (d : dbms) : dbms :=
  match o with Some x => with_cnctns d (connections d) (cnctns d) (closed d ++ [x]) | None => d end.

Definition set_connection (d : dbms) (p : Z) (c : connection) : dbms := with_cnctns d (set_pointer (connections d) p c) (cnctns d) (closed d).

(** [Close] of nil goes through it. *)
Definition connection_Close (d : dbms) (p : Z) : exec dbms :=
  match at_pointer (connections d) p with
  | None => Panic
  | Some c => Done (close_db (db c) (set_connection d p (MkConnection None (cn_datasource c) 0 None)))
  end.

Definition Driver_ (d : dbms) (p : Z) : Z := match at_pointer (connections d) p with Some c => dvr c | None => 0 end.

Definition Reload (d : dbms) (p : Z) (ds : list Z) (drvr : option Z) : dbms :=
  match at_pointer (connections d) p with
  | None => d
  | Some c =>
    let changed q := close_db (db c) (set_connection d p (MkConnection None ds q (cn_fsys c))) in
    let same := if bool_decide (cn_datasource c = ds) then d else changed (dvr c) in
    match drvr with
    | Some q => if (1 <=? q) && negb (dvr c =? q) then changed q else same
    | None => same
    end
  end.

(** The database of a connection, opened when there is none; the error of opening it. *)
Definition nextdb (d : dbms) (p : Z) : option DB * Z * option goerr * dbms :=
  match at_pointer (connections d) p with
  | None => (None, 0, None, d)
  | Some c =>
    if 1 <=? dvr c then
      match db c with
      | Some x => (Some x, dvr c, None, d)
      | None =>
        let '(x, err, w) := Invoke (the_driver d (dvr c)) (cn_datasource c) (cn_fsys c) (net d) in
        let d := with_net d w in
        match err with
        | Some _ => (x, dvr c, err, d)
        | None => (x, dvr c, None, set_connection d p (MkConnection x (cn_datasource c) (dvr c) (cn_fsys c)))
        end
      end
    else (None, 0, None, d)
  end.

(** The driver as the statements see it. *)
Definition as_driver (o : option driver) : Driver := MkDriver (drv_Name o) (drv_FSys o) (drv_ParseSqlArg o).

(** [if cn.db == db { cn.db = nil }] and [go db.Close()] *)
Definition drop_db (d : dbms) (p : Z) (x : DB) : dbms :=
  match at_pointer (connections d) p with
  | Some c => close_db (Some x) (set_connection d p (MkConnection None (cn_datasource c) (dvr c) (cn_fsys c)))
  | None => d
  end.

Definition fsys_of (d : dbms) (p : Z) : option Stat := match at_pointer (connections d) p with Some c => cn_fsys c | None => None end.

(** The answer is a reader. *)
Definition connection_QueryContext (d : dbms) (p : Z) (q : list Z) (a : list qarg) : exec (Z * option goerr * dbms) :=
  let '(odb, pd, dberr, d) := nextdb d p in
  match dberr, odb with
  | None, Some x =>
    let* '(s, serr, w) := nextstatement range as_value fsys_value fuel x (Some (as_driver (the_driver d pd))) q (fsys_of d p) a (net d) in
    let d := with_net d w in
    match serr with
    | Some _ => Done (0, serr, drop_db d p x)
    | None =>
      let* '(rws, err, _, w) := Statement.QueryContext s (net d) in
      let d := with_net d w in
      match rws with
      | Some r => Done (len (readers d) + 1, err, MkDbms (drivers d) (drvrs d) (dfltinvkbl d) (connections d) (cnctns d) (has_drvrs d) (c_fsys d) (closed d) (readers d ++ [r]) (net d))
      | None => Done (0, err, d)
      end
    end
  | _, _ => Done (0, None, d)
  end.

Definition connection_ExecuteContext (d : dbms) (p : Z) (q : list Z) (a : list qarg) : exec (option goerr * dbms) :=
  let '(odb, pd, dberr, d) := nextdb d p in
  match dberr, odb with
  | None, Some x =>
    let* '(s, serr, w) := nextstatement range as_value fsys_value fuel x (Some (as_driver (the_driver d pd))) q (fsys_of d p) a (net d) in
    let d := with_net d w in
    match serr with
    | Some _ => Done (serr, d)
    | None =>
      let '(err, w) := Statement.ExecuteContext s (map as_value a) (net d) in
      let d := with_net d w in
      match err with Some _ => Done (err, drop_db d p x) | None => Done (None, d) end
    end
  | _, _ => Done (None, d)
  end.

(** ** connections.go *)

(** The handlers of the events: connections that leave the map are closed. *)
Fixpoint close_all (d : dbms) (l : list (list Z * Z)) : exec dbms :=
  match l with
  | [] => Done d
  | (alias, p) :: l' =>
    if negb (bool_decide (alias = [])) && (1 <=? p) then let* d := connection_Close d p in close_all d l' else close_all d l'
  end.

Fixpoint handle (d : dbms) (es : list (event (K := list Z) (V := Z))) : exec dbms :=
  match es with
  | [] => Done d
  | Deleted mp :: es' | Disposed mp :: es' => let* d := close_all d (map_to_list mp) in handle d es'
  | _ :: es' => handle d es'
  end.

Definition connections_Contains (d : dbms) (name : list Z) : bool := match cnctns d with Some _ => IterMap.Contains (cnctns d) name | None => false end.
Definition connections_Get (d : dbms) (name : list Z) : Z * bool := match cnctns d with Some _ => IterMap.Get (cnctns d) name | None => (0, false) end.
Definition connections_Iterate {X} (d : dbms) (yield : list Z → Z → X → bool * X) (x : X) : X := IterMap.Iterate (cnctns d) yield x.
Definition connections_Events (d : dbms) : option MapIterateEvents := (IterMap.Events (cnctns d)).2.

(** The map goes through the state of the events, then they are handled. *)
Definition on_map (d : dbms) (op : option pointers → option pointers * list (event (K := list Z) (V := Z))) : exec dbms :=
  match cnctns d with
  | Some _ => let '(m, es) := op (cnctns d) in handle (with_cnctns d (connections d) m (closed d)) es
  | None => Done d
  end.
Definition connections_Clear (d : dbms) : exec dbms := on_map d IterMap.Clear.
Definition connections_Delete (d : dbms) (names : list (list Z)) : exec dbms := on_map d (λ m, IterMap.Delete m names).

(** [Close]: the registries are let go of. *)
Definition connections_Close (d : dbms) : exec dbms :=
  match cnctns d with
  | Some _ =>
    let es := (IterMap.Close (cnctns d)).2 in
    let* d := handle (with_cnctns d (connections d) None (closed d)) es in
    Done (MkDbms (drivers d) (drvrs d) (dfltinvkbl d) (connections d) (cnctns d) false (c_fsys d) (closed d) (readers d) (net d))
  | None => Done (MkDbms (drivers d) (drvrs d) (dfltinvkbl d) (connections d) None false (c_fsys d) (closed d) (readers d) (net d))
  end.

(** [Set], [Add] and [Changed] do nothing. *)
Definition connections_Set (d : dbms) (name : list Z) (p : Z) : dbms := d.

Definition unregistered_driver : goerr := OtherErr 5.
Definition unable_to_register : goerr := OtherErr 6.

(** [c.drvrs.Get]; [c.drvrs] is nil when the connections were closed. *)
Definition get_driver (d : dbms) (name : list Z) : exec Z := if has_drvrs d then Done (drivers_Get d name).1 else Panic.

(** A new connection in the map. *)
Definition add_connection (d : dbms) (alias : list Z) (c : connection) : exec dbms :=
  let* '(m, es) := IterMap.Set_ (cnctns d) alias (len (connections d) + 1) in
  handle (with_cnctns d (connections d ++ [c]) m (closed d)) es.

Definition connections_Register (d : dbms) (alias drvname ds : list Z) (a : list regarg) : exec (bool * option goerr * dbms) :=
  match cnctns d with
  | None => Done (false, Some unable_to_register, d)
  | Some _ =>
    let '(cn, known) := IterMap.Get (cnctns d) alias in
    if (known : bool) then
      let cndvr := Driver_ d cn in
      let* cndvr := if (1 <=? cndvr) && negb (bool_decide (drv_Name (the_driver d cndvr) = alias)) then get_driver d alias else Done cndvr in
      if 1 <=? cndvr then Done (true, None, Reload d cn ds (Some cndvr))
      else
        let* d := connections_Delete d [alias] in
        let* cndvr := get_driver d alias in
        if 1 <=? cndvr then
          let* d := add_connection d alias (NewConnection cndvr ds (c_fsys d)) in Done (true, None, d)
        else Done (false, Some unregistered_driver, d)
    else
      let* cndvr := get_driver d drvname in
      if 1 <=? cndvr then
        let fs := fold_left (λ fs x, match x with RFsys g => or_first fs (Some g) | _ => fs end) a None in
        let* d := add_connection d alias (NewConnection cndvr ds (or_first fs (c_fsys d))) in Done (true, None, d)
      else Done (false, Some unregistered_driver, d)
  end.

(** ** dbmshandler.go *)

Inductive told := ToldAttached (rdr : Z) | ToldDetached (rdr : Z) | ToldQueryError (e : goerr) | ToldExecuteError (e : goerr) | ToldDisposed.

(** Which handlers are set. *)
Record hevents := MkHEvents { AttachedReader : bool; DetachedReader : bool; QueryError : bool; ExecuteError : bool; HDisposed : bool }.

(** [h_closed]: the readers that were closed, in their order. *)
Record dbmshandler := MkHandler {
  rdrs : option (gset Z);
  h_params : option Statement.Params;
  fiqryreader : option (Stat → FileInfo → Buffer → exec Buffer);
  h_evnts : option hevents;
  h_told : list told;
  h_closed : list Z }.

(** Among the arguments the first parameters and the first reader of files. *)
Definition NewDBMSHandler (a : list qarg) : dbmshandler :=
  let ps := fold_left (λ o x, match x with AParams p => or_first o (Some p) | _ => o end) a None in
  let fr := fold_left (λ o x, match x with AFireader f => or_first o f | _ => o end) a None in
  MkHandler (Some ∅) ps fr None [] [].

Definition with_rdrs (h : dbmshandler) (s : option (gset Z)) (t : list told) : dbmshandler :=
  MkHandler s (h_params h) (fiqryreader h) (h_evnts h) t (h_closed h).
Definition tell (h : dbmshandler) (set : hevents → bool) (t : told) : list told :=
  match h_evnts h with Some e => if set e then h_told h ++ [t] else h_told h | None => h_told h end.

Definition AttachReader (h : dbmshandler) (r : Z) : dbmshandler :=
  match rdrs h with Some s => with_rdrs h (Some ({[ r ]} ∪ s)) (tell h AttachedReader (ToldAttached r)) | None => h end.
Definition DettachReader (h : dbmshandler) (r : Z) : dbmshandler :=
  match rdrs h with
  | Some s => if bool_decide (r ∈ s) then with_rdrs h (Some (s ∖ {[ r ]})) (tell h DetachedReader (ToldDetached r)) else h
  | None => h
  end.

(** [append(a, dh.params, dh.fiqryreader)] *)
Definition more_args (h : dbmshandler) (a : list qarg) : list qarg :=
  a ++ [match h_params h with Some p => AParams p | None => AOther VNil end; AFireader (fiqryreader h)].

Definition handler_QueryContext (d : dbms) (h : dbmshandler) (alias q : list Z) (a : list qarg) : exec (Z * option goerr * dbms * dbmshandler) :=
  let '(cn, known) := connections_Get d alias in
  if (known : bool) then
    let* '(r, err, d) := connection_QueryContext d cn q (more_args h a) in
    match err with
    | None => Done (r, None, d, if 1 <=? r then AttachReader h r else h)
    | Some e => Done (r, err, d, with_rdrs h (rdrs h) (tell h QueryError (ToldQueryError e)))
    end
  else Done (0, None, d, h).

Definition handler_ExecuteContext (d : dbms) (h : dbmshandler) (alias q : list Z) (a : list qarg) : exec (option goerr * dbms * dbmshandler) :=
  let '(cn, known) := connections_Get d alias in
  if (known : bool) then
    let* '(err, d) := connection_ExecuteContext d cn q (more_args h a) in
    match err with
    | Some e => Done (err, d, with_rdrs h (rdrs h) (tell h ExecuteError (ToldExecuteError e)))
    | None => Done (None, d, h)
    end
  else Done (None, d, h).

(** [Close]: the readers are closed in the order of the map. *)
Definition handler_Close (h : dbmshandler) : dbmshandler :=
  let closing := match rdrs h with Some s => elements s | None => [] end in
  MkHandler None (h_params h) (fiqryreader h) None (tell h HDisposed ToldDisposed) (h_closed h ++ closing).

(** ** dbms.go *)

(** The reader of a query without a handler is marked to own the one that is made for it. *)
Definition dbms_QueryContext (d : dbms) (alias q : list Z) (a : list qarg) : exec (Z * option goerr * dbms * dbmshandler) :=
  let* '(r, err, d, h) := handler_QueryContext d (NewDBMSHandler a) alias q a in
  Done (match err with Some _ => 0 | None => r end, err, d, h).

Definition dbms_ExecuteContext (d : dbms) (alias q : list Z) (a : list qarg) : exec (option goerr * dbms * dbmshandler) :=
  let* '(err, d, h) := handler_ExecuteContext d (NewDBMSHandler a) alias q a in Done (err, d, handler_Close h).

(** A value of a configuration; the maps in the order Go goes over them.  Functions and file
    systems come as arguments of [Register]. *)
Inductive jval := JStr (s : list Z) | JStrs (l : list (list Z)) | JArr (l : list jval) | JMap (l : list (list Z * jval)) | JArg (a : regarg) | JOther.

Definition k_connections : list Z := [99; 111; 110; 110; 101; 99; 116; 105; 111; 110; 115].
Definition k_conns : list Z := [99; 111; 110; 110; 115].
Definition k_drivers : list Z := [100; 114; 105; 118; 101; 114; 115].
Definition k_driver : list Z := [100; 114; 105; 118; 101; 114].
(** [datasource], [datassrc], [connectionstring], [cnstring] *)
Definition k_sources : list (list Z) :=
  [[100; 97; 116; 97; 115; 111; 117; 114; 99; 101]; [100; 97; 116; 97; 115; 115; 114; 99];
   [99; 111; 110; 110; 101; 99; 116; 105; 111; 110; 115; 116; 114; 105; 110; 103]; [99; 110; 115; 116; 114; 105; 110; 103]].

(** [m[k].(string)] *)
Definition string_at (l : list (list Z * jval)) (k : list Z) : list Z :=
  match List.find (λ kv, bool_decide (kv.1 = k)) l with Some (_, JStr s) => s | _ => [] end.

(** [config[ck] = cv] *)
Definition put_key (l : list (list Z * jval)) (kv : list Z * jval) : list (list Z * jval) :=
  if existsb (λ x, bool_decide (x.1 = kv.1)) l then map (λ x, if bool_decide (x.1 = kv.1) then kv else x) l else l ++ [kv].

(** The configurations as one: the first that is not empty, with the others put into it. *)
Definition merge (confs : list (list (list Z * jval))) : list (list Z * jval) :=
  fold_left (λ c m, match c with [] => m | _ => fold_left put_key m c end) confs [].

Fixpoint load_connections (d : dbms) (l : list (list Z * jval)) : exec dbms :=
  match l with
  | [] => Done d
  | (cnme, JMap ((_ :: _) as c)) :: l' =>
    let dtasrc := default [] (List.find (λ s, negb (bool_decide (s = []))) (map (string_at c) k_sources)) in
    let dv := string_at c k_driver in
    if negb (bool_decide (dtasrc = [])) && negb (bool_decide (dv = [])) then
      let* '(_, _, d) := connections_Register d cnme dv dtasrc [] in load_connections d l'
    else load_connections d l'
  | _ :: l' => load_connections d l'
  end.

Definition as_regarg (v : jval) : regarg := match v with JArg a => a | _ => ROther end.

Fixpoint load_drivers (d : dbms) (l : list (list Z * list regarg)) : exec dbms :=
  match l with
  | [] => Done d
  | (name, a) :: l' => let* '(_, d) := drivers_Register d name a in load_drivers d l'
  end.

(** The names of an array. *)
Definition names_in (l : list jval) : list (list Z) :=
  concat (map (λ v, match v with JStr ((_ :: _) as s) => [s] | _ => [] end) l).

Fixpoint load_all (d : dbms) (config : list (list Z * jval)) : exec dbms :=
  match config with
  | [] => Done d
  | (k, v) :: config' =>
    let* d :=
      if bool_decide (k = k_connections) || bool_decide (k = k_conns) then
        match v with JMap l => load_connections d l | _ => Done d end
      else if bool_decide (k = k_drivers) then
        match v with
        | JMap l => load_drivers d (concat (map (λ kv, match kv.2 with JArr ((_ :: _) as a) => [(kv.1, map as_regarg a)] | _ => [] end) l))
        | JArr l => load_drivers d (map (λ n, (n, [])) (names_in l))
        | _ => Done d
        end
      else Done d in
    load_all d config'
  end.

(** [Load] of configurations; texts to be read as JSON are left out. *)
Definition Load (d : dbms) (confs : list (list (list Z * jval))) : exec dbms := load_all d (merge confs).

(** An argument of [Unload]: a configuration or something else. *)
Inductive uarg := UConf (c : list (list Z * jval)) | UOther.

(** The loop over the arguments stays at one that is no configuration. *)
Fixpoint take_confs (n : nat) (a : list uarg) (confs : list (list (list Z * jval))) : exec (list (list (list Z * jval))) :=
  match n with
  | O => NoFuel
  | Datatypes.S n' =>
    match a with
    | [] => Done confs
    | UConf c :: a' => take_confs n' a' (confs ++ [c])
    | UOther :: _ => take_confs n' a confs
    end
  end.

(** Waiting for an event that was told, or for one that never comes. *)
Definition wait (es : list (event (K := list Z) (V := Z))) : exec unit := match es with [] => NoFuel | _ => Done tt end.

Definition names_of (v : jval) : list (list Z) :=
  match v with
  | JStrs l => List.filter (λ s, negb (bool_decide (s = []))) l
  | JArr l => names_in l
  | _ => []
  end.

(** [Events] of a registry that was closed is nil, which is no [*MapIterateEvents]. *)
Definition assert_events (e : option MapIterateEvents) : exec MapIterateEvents := match e with Some e => Done e | None => Panic end.
Definition set_disposed (o : option pointers) : option pointers :=
  match o with Some m => match mpevents m with Some e => Some (MkIterMap (orgsncmp m) (Some (MkEvents (EventDeleted e) true (EventChanged e) (EventAdd e)))) | None => o end | None => None end.
Definition set_deleted (o : option pointers) : option pointers :=
  match o with Some m => match mpevents m with Some e => Some (MkIterMap (orgsncmp m) (Some (MkEvents true (EventDisposed e) (EventChanged e) (EventAdd e)))) | None => o end | None => None end.

(** Everything: first the connections, then the drivers. *)
Definition unload_all (d : dbms) : exec dbms :=
  let* _ := assert_events (connections_Events d) in
  let d := with_cnctns d (connections d) (set_disposed (cnctns d)) (closed d) in
  let es := (IterMap.Close (cnctns d)).2 in
  let* d := connections_Close d in
  let* _ := wait es in
  let '(d, e) := drivers_Events d in
  let* _ := assert_events e in
  let d := with_drvrs d (drivers d) (set_disposed (drvrs d)) in
  let es := (IterMap.Close (drvrs d)).2 in
  let d := drivers_Close d in
  let* _ := wait es in
  Done d.

Definition unload_named (d : dbms) (delcons deldrvrs : list (list Z)) : exec dbms :=
  let* d :=
    match delcons with
    | [] => Done d
    | _ =>
      let* _ := assert_events (connections_Events d) in
      let d := with_cnctns d (connections d) (set_deleted (cnctns d)) (closed d) in
      let es := (IterMap.Delete (cnctns d) delcons).2 in
      let* d := connections_Delete d delcons in
      let* _ := wait es in Done d
    end in
  match deldrvrs with
  | [] => Done d
  | _ =>
    let '(d, e) := drivers_Events d in
    let* _ := assert_events e in
    let '(m, es) := IterMap.Delete (set_deleted (drvrs d)) deldrvrs in
    let d := with_drvrs d (drivers d) m in
    let* _ := wait es in Done d
  end.

Definition Unload (n : nat) (d : dbms) (a : list uarg) : exec dbms :=
  match a with
  | [] | [UConf []] => unload_all d
  | _ =>
    let* confs := take_confs n a [] in
    let c := merge confs in
    let listed k := concat (map (λ kv, if existsb (λ x, bool_decide (kv.1 = x)) k then names_of kv.2 else []) c) in
    unload_named d (listed [k_connections; k_conns]) (listed [k_drivers])
  end.
End dbms.

(** * Theory *)

Section theory.
Context `{UnicodeCase} `{World}.
Context (range : gmap (list Z) value → list (list Z * value)) (as_value : qarg → value) (fsys_value : value) (fuel : nat).
Implicit Types d : dbms.

(** What is known of a registry: its pointers are to things that were made, the connections
    know drivers, and their map has an event handler for as long as it is there. *)
Record dbms_ok d : Prop := {
  ok_conns imp : cnctns d = Some imp → has_drvrs d = true ∧ is_Some (mpevents imp) ∧ ∃ m, orgsncmp imp = Some m ∧
    ∀ k p, m !! k = Some p → k ≠ [] ∧ 1 ≤ p ≤ len (connections d);
  ok_drvs imp : drvrs d = Some imp → ∃ m, orgsncmp imp = Some m ∧ ∀ k p, m !! k = Some p → k ≠ [] ∧ 1 ≤ p ≤ len (drivers d);
  ok_dvr i c : connections d !! i = Some c → 0 ≤ dvr c ≤ len (drivers d) }.

Lemma at_pointer_Some {A} (l : list A) p x : at_pointer l p = Some x ↔ 1 ≤ p ∧ l !! Z.to_nat (p - 1) = Some x.
Proof. unfold at_pointer. destruct (Z.leb_spec 1 p); [tauto|]. split; [done|lia]. Qed.

Lemma at_pointer_valid {A} (l : list A) p : 1 ≤ p ≤ len l → is_Some (at_pointer l p).
Proof. intros Hp. unfold at_pointer. rewrite (proj2 (Z.leb_le _ _)) by lia. apply lookup_lt_is_Some. lia. Qed.

Lemma length_set_pointer {A} (l : list A) p x : length (set_pointer l p x) = length l.
Proof. unfold set_pointer. destruct (1 <=? p); [apply length_insert|done]. Qed.

Lemma set_pointer_same {A} (l : list A) p x : 1 ≤ p ≤ len l → at_pointer (set_pointer l p x) p = Some x.
Proof. intros Hp. unfold at_pointer, set_pointer. rewrite (proj2 (Z.leb_le _ _)) by lia. apply list_lookup_insert_eq. lia. Qed.

Lemma set_pointer_other {A} (l : list A) p q x : p ≠ q → at_pointer (set_pointer l p x) q = at_pointer l q.
Proof.
  intros Hpq. unfold at_pointer, set_pointer. destruct (Z.leb_spec 1 p), (Z.leb_spec 1 q); try done. apply list_lookup_insert_ne. lia.
Qed.

Lemma at_pointer_app {A} (l : list A) x : at_pointer (l ++ [x]) (len l + 1) = Some x.
Proof. apply at_pointer_Some. split; [lia|]. replace (Z.to_nat (len l + 1 - 1)) with (length l) by lia. by apply list_lookup_middle. Qed.

Lemma at_pointer_app_old {A} (l : list A) x p : p ≤ len l → at_pointer (l ++ [x]) p = at_pointer l p.
Proof.
  intros Hp. unfold at_pointer. destruct (Z.leb_spec 1 p); [|done]. apply lookup_app_l. lia.
Qed.

(** What stays when connections are changed one by one: the maps and the number of things. *)
Record frame d d' : Prop := {
  fr_drivers : drivers d' = drivers d; fr_drvrs : drvrs d' = drvrs d; fr_cnctns : cnctns d' = cnctns d; fr_has : has_drvrs d' = has_drvrs d;
  fr_len : length (connections d') = length (connections d); fr_fsys : c_fsys d' = c_fsys d; fr_dflt : dfltinvkbl d' = dfltinvkbl d;
  fr_dvr : (∀ i c, connections d !! i = Some c → 0 ≤ dvr c ≤ len (drivers d)) → ∀ i c, connections d' !! i = Some c → 0 ≤ dvr c ≤ len (drivers d) }.

Lemma frame_refl d : frame d d.
Proof. by split. Qed.

Lemma frame_trans d1 d2 d3 : frame d1 d2 → frame d2 d3 → frame d1 d3.
Proof.
  intros [] []. split; try congruence. intros H1 i c. rewrite <- fr_drivers0. apply fr_dvr1. intros j c'. rewrite fr_drivers0. by apply fr_dvr0.
Qed.

Lemma frame_ok d d' : frame d d' → dbms_ok d → dbms_ok d'.
Proof.
  intros [] []. split.
  - intros imp E. rewrite fr_has0, fr_len0. apply ok_conns0. congruence.
  - intros imp E. rewrite fr_drivers0. apply ok_drvs0. congruence.
  - intros i c E. rewrite fr_drivers0. by eapply fr_dvr0.
Qed.

Lemma frame_set d p c l : 0 ≤ dvr c ≤ len (drivers d) → frame d (with_cnctns d (set_pointer (connections d) p c) (cnctns d) l).
Proof.
  intros Hc. split; try done; [apply length_set_pointer|]. intros H1 i c' E. cbn in E. unfold set_pointer in E. destruct (1 <=? p); [|by eapply H1].
  apply list_lookup_insert_Some in E as [(Hi & <- & _)|(_ & E)]; [done|by eapply H1].
Qed.

Lemma frame_close_db d x : frame d (close_db x d).
Proof. destruct x; [by split|apply frame_refl]. Qed.

Lemma frame_net d w : frame d (with_net d w).
Proof. by split. Qed.

Lemma connection_Close_ok d p : 1 ≤ p ≤ len (connections d) → ∃ d' c, at_pointer (connections d) p = Some c ∧ connection_Close d p = Done d' ∧ frame d d' ∧
  closed d' = closed d ++ option_list (db c) ∧ at_pointer (connections d') p = Some (MkConnection None (cn_datasource c) 0 None) ∧
  (∀ q, q ≠ p → at_pointer (connections d') q = at_pointer (connections d) q) ∧ net d' = net d ∧ readers d' = readers d.
Proof.
  intros Hp. destruct (at_pointer_valid (connections d) p Hp) as [c Ec]. unfold connection_Close. rewrite Ec. eexists _, c. split; [done|]. split; [done|]. split.
  - eapply frame_trans; [|apply frame_close_db]. apply frame_set. cbn. lia.
  - destruct (db c); cbn; rewrite ?app_nil_r; split_and!; try done; try (by apply set_pointer_same); intros q Hq; by apply set_pointer_other.
Qed.

Lemma close_all_ok l : ∀ d, (∀ k p, (k, p) ∈ l → p ≤ len (connections d)) → ∃ d', close_all d l = Done d' ∧ frame d d'.
Proof.
  induction l as [|[k p] l IH]; intros d Hl; cbn [close_all]; [exists d; split; [done|apply frame_refl]|].
  assert (∀ d', length (connections d') = length (connections d) → ∀ k p, (k, p) ∈ l → p ≤ len (connections d')) as Hl'.
  { intros d' E k' p' Hin. rewrite E. eapply Hl. by right. }
  destruct (negb (bool_decide (k = [])) && (1 <=? p)) eqn:E; [|by apply IH, Hl'].
  apply andb_prop in E as [_ E]. apply Z.leb_le in E.
  assert (p ≤ len (connections d)) as Hp by (eapply Hl; by left).
  destruct (connection_Close_ok d p) as (d1 & c & _ & -> & Hf & _); [lia|]. cbn [exec_bind].
  destruct (IH d1) as (d2 & -> & Hf2); [apply Hl'; apply Hf|]. exists d2. split; [done|]. by eapply frame_trans.
Qed.

(** The events of a map whose pointers are to connections. *)
Definition event_ok (n : nat) (e : event (K := list Z) (V := Z)) : Prop :=
  match e with Deleted mp | Disposed mp => ∀ k p, mp !! k = Some p → p ≤ Z.of_nat n | _ => True end.

Lemma handle_ok es : ∀ d, Forall (event_ok (length (connections d))) es → ∃ d', handle d es = Done d' ∧ frame d d'.
Proof.
  induction es as [|e es IH]; intros d Hes; [exists d; split; [done|apply frame_refl]|]. inversion Hes as [|? ? He Hes']. subst.
  assert (∀ mp, (∀ k p, mp !! k = Some p → p ≤ len (connections d)) →
    ∃ d', (let* d := close_all d (map_to_list mp) in handle d es) = Done d' ∧ frame d d') as Hgo.
  { intros mp Hmp. destruct (close_all_ok (map_to_list mp) d) as (d1 & -> & Hf).
    { intros k p Hin. apply elem_of_map_to_list in Hin. by eapply Hmp. }
    cbn [exec_bind]. destruct (IH d1) as (d2 & -> & Hf2); [by rewrite (fr_len _ _ Hf)|]. exists d2. split; [done|]. by eapply frame_trans. }
  destruct e as [mp|name old new|mp|name new]; cbn [handle]; [by apply Hgo|by apply IH|by apply Hgo|by apply IH].
Qed.

Lemma send_ok n imp e : event_ok n e → Forall (event_ok n) (send imp e).
Proof. intros He. unfold send. destruct (mpevents imp); [by constructor|constructor]. Qed.

Lemma send_map_ok n imp mk mp : event_ok n (mk mp) → Forall (event_ok n) (send_map imp mk mp).
Proof. intros He. unfold send_map. case_bool_decide; [constructor|by apply send_ok]. Qed.

(** ** The maps of pointers *)

Definition pointers_ok (n : nat) (imp : itermap (K := list Z) (V := Z)) : Prop :=
  ∃ m, orgsncmp imp = Some m ∧ ∀ k p, m !! k = Some p → k ≠ [] ∧ 1 ≤ p ≤ Z.of_nat n.

Lemma pointers_more n n' imp : (n ≤ n')%nat → pointers_ok n imp → pointers_ok n' imp.
Proof. intros Hn (m & E & Hm). exists m. split; [done|]. intros k p Ek. destruct (Hm k p Ek). split; [done|lia]. Qed.

Lemma Set_pointers n imp k p : pointers_ok n imp → 1 ≤ p ≤ Z.of_nat n →
  ∃ imp' es, IterMap.Set_ (Some imp) k p = Done (Some imp', es) ∧ pointers_ok n imp' ∧ mpevents imp' = mpevents imp ∧ Forall (event_ok n) es.
Proof.
  intros (m & Em & Hm) Hp. unfold IterMap.Set_. cbn [empty_name pointer_entries]. case_bool_decide as Hk.
  { exists imp, []. split; [done|]. split; [by exists m|]. split; [done|constructor]. }
  rewrite Em. assert (pointers_ok n (MkIterMap (Some (<[k := p]> m)) (mpevents imp))) as Hok.
  { eexists. split; [done|]. intros k' p' E. apply lookup_insert_Some in E as [[<- <-]|[_ E]]; [done|by eapply Hm]. }
  destruct (m !! k) as [old|].
  - cbn [value_Equal pointer_entries exec_bind]. destruct (old =? p).
    + exists imp, []. split; [done|]. split; [by exists m|]. split; [done|constructor].
    + eexists _, _. split; [done|]. split; [done|]. split; [done|]. by apply send_ok.
  - eexists _, _. split; [done|]. split; [done|]. split; [done|]. by apply send_ok.
Qed.

Lemma Delete_pointers n imp ns : pointers_ok n imp →
  ∃ imp' es, IterMap.Delete (Some imp) ns = (Some imp', es) ∧ pointers_ok n imp' ∧ mpevents imp' = mpevents imp ∧ Forall (event_ok n) es.
Proof.
  intros (m & Em & Hm). unfold IterMap.Delete. destruct (List.filter _ ns) as [|k ks]; [exists imp, []; split; [done|]; split; [by exists m|]; split; [done|constructor]|].
  rewrite Em. eexists _, _. split; [done|]. split; [|split; [done|]].
  - eexists. split; [done|]. intros k' p E. apply map_lookup_filter_Some in E as [E _]. by eapply Hm.
  - apply send_map_ok. intros k' p E. apply map_lookup_filter_Some in E as [E _]. by destruct (Hm k' p E) as [_ [_ ?]].
Qed.

Lemma Clear_pointers n imp : pointers_ok n imp →
  ∃ imp' es, IterMap.Clear (Some imp) = (Some imp', es) ∧ pointers_ok n imp' ∧ mpevents imp' = mpevents imp ∧ Forall (event_ok n) es.
Proof.
  intros (m & Em & Hm). unfold IterMap.Clear. rewrite Em. eexists _, _. split; [done|]. split; [|split; [done|]].
  - exists ∅. split; [done|]. intros k p E. by rewrite lookup_empty in E.
  - apply send_map_ok. intros k p E. by destruct (Hm k p E) as [_ [_ ?]].
Qed.
(** ** Every operation keeps the registries *)

Lemma ok_pointers d imp : dbms_ok d → cnctns d = Some imp → has_drvrs d = true ∧ is_Some (mpevents imp) ∧ pointers_ok (length (connections d)) imp.
Proof. intros [Hc _ _] E. destruct (Hc imp E) as (? & ? & m & Em & Hm). split; [done|]. split; [done|]. by exists m. Qed.

(** The map of the connections is replaced by one of pointers to what there is now. *)
Lemma with_map_ok d l imp cl : dbms_ok d → (length (connections d) ≤ length l)%nat → (∀ i c, l !! i = Some c → 0 ≤ dvr c ≤ len (drivers d)) →
  (∀ i, imp = Some i → has_drvrs d = true ∧ is_Some (mpevents i) ∧ pointers_ok (length l) i) → dbms_ok (with_cnctns d l imp cl).
Proof.
  intros [Hc Hd Hv] Hl Hlv Hi. split; cbn.
  - intros i E. destruct (Hi i E) as (? & ? & m & Em & Hm). split; [done|]. split; [done|]. by exists m.
  - exact Hd.
  - exact Hlv.
Qed.

Lemma handled_ok d imp es n : dbms_ok d → n = length (connections d) → (∀ i, imp = Some i → has_drvrs d = true ∧ is_Some (mpevents i) ∧ pointers_ok n i) → Forall (event_ok n) es →
  ∃ d', handle (with_cnctns d (connections d) imp (closed d)) es = Done d' ∧ dbms_ok d' ∧ frame (with_cnctns d (connections d) imp (closed d)) d'.
Proof.
  intros Hd -> Hi Hes. destruct (handle_ok es (with_cnctns d (connections d) imp (closed d)) Hes) as (d' & E & Hf). exists d'. split; [done|]. split; [|done].
  eapply frame_ok; [exact Hf|]. apply with_map_ok; [done|done|apply Hd|done].
Qed.

Lemma on_map_ok d op : dbms_ok d →
  (∀ n imp, pointers_ok n imp → ∃ imp' es, op (Some imp) = (Some imp', es) ∧ pointers_ok n imp' ∧ mpevents imp' = mpevents imp ∧ Forall (event_ok n) es) →
  ∃ d', on_map d op = Done d' ∧ dbms_ok d' ∧ drivers d' = drivers d ∧ drvrs d' = drvrs d ∧ has_drvrs d' = has_drvrs d ∧
    length (connections d') = length (connections d) ∧ cnctns d' = match cnctns d with Some _ => (op (cnctns d)).1 | None => None end ∧ c_fsys d' = c_fsys d.
Proof.
  intros Hd Hop. unfold on_map. destruct (cnctns d) as [imp|] eqn:E; [|by exists d].
  destruct (ok_pointers d imp Hd E) as (Hh & Hev & Hp). destruct (Hop _ imp Hp) as (imp' & es & Eop & Hp' & Hev' & Hes). rewrite Eop.
  destruct (handled_ok d (Some imp') es _ Hd eq_refl) as (d' & E' & Hok & []); [|done|].
  { intros i [= <-]. by rewrite Hev'. }
  exists d'. split_and!; done.
Qed.

Lemma connections_Delete_ok d ns : dbms_ok d →
  ∃ d', connections_Delete d ns = Done d' ∧ dbms_ok d' ∧ drivers d' = drivers d ∧ drvrs d' = drvrs d ∧ has_drvrs d' = has_drvrs d ∧
    length (connections d') = length (connections d) ∧ cnctns d' = match cnctns d with Some _ => (IterMap.Delete (cnctns d) ns).1 | None => None end ∧ c_fsys d' = c_fsys d.
Proof. intros Hd. apply on_map_ok; [done|]. intros n imp Hi. by apply Delete_pointers. Qed.

Lemma connections_Clear_ok d : dbms_ok d → ∃ d', connections_Clear d = Done d' ∧ dbms_ok d'.
Proof.
  intros Hd. destruct (on_map_ok d IterMap.Clear Hd) as (d' & E & Hok & _); [intros n imp; apply Clear_pointers|]. by exists d'.
Qed.

(** Nothing is left in the map of closed connections. *)
Lemma connections_Close_ok d : dbms_ok d → ∃ d', connections_Close d = Done d' ∧ dbms_ok d' ∧ cnctns d' = None ∧ drvrs d' = drvrs d ∧ drivers d' = drivers d.
Proof.
  intros Hd. unfold connections_Close. destruct (cnctns d) as [imp|] eqn:E.
  - destruct (ok_pointers d imp Hd E) as (Hh & Hev & Hp). destruct (handled_ok d None (IterMap.Close (Some imp)).2 _ Hd eq_refl) as (d' & -> & [Hc1 Hd1 Hv1] & []); [done| |].
    { cbn. destruct Hp as (m & -> & Hm). apply send_map_ok. intros k p Ek. by destruct (Hm k p Ek) as [_ [_ ?]]. }
    cbn in fr_cnctns0, fr_drvrs0, fr_drivers0. cbn [exec_bind]. eexists. split; [done|]. split; [|by split_and!]. split; cbn; [|exact Hd1|exact Hv1]. intros i Ei. congruence.
  - eexists. split; [done|]. split; [|by split_and!]. destruct Hd. split; cbn; [done|done|done].
Qed.

Lemma get_driver_ok d name : dbms_ok d → has_drvrs d = true → ∃ p, get_driver d name = Done p ∧ (drivers_Get d name).1 = p ∧ 0 ≤ p ≤ len (drivers d).
Proof.
  intros [_ Hd _] Hh. unfold get_driver. rewrite Hh. eexists. split; [done|]. split; [done|]. unfold drivers_Get. destruct (drvrs d) as [imp|] eqn:E; [|cbn; lia].
  destruct (Hd imp eq_refl) as (m & Em & Hm). unfold IterMap.Get. cbn [empty_name pointer_entries]. case_bool_decide; [cbn; lia|]. rewrite Em.
  destruct (m !! name) as [p|] eqn:Ep; [|cbn; lia]. destruct (Hm name p Ep). cbn. lia.
Qed.

Lemma add_connection_ok d alias c : dbms_ok d → is_Some (cnctns d) → 0 ≤ dvr c ≤ len (drivers d) →
  ∃ d', add_connection d alias c = Done d' ∧ dbms_ok d' ∧ drivers d' = drivers d ∧ drvrs d' = drvrs d.
Proof.
  intros Hd [imp E] Hc. unfold add_connection. rewrite E. destruct (ok_pointers d imp Hd E) as (Hh & Hev & Hp).
  destruct (Set_pointers (length (connections d ++ [c])) imp alias (len (connections d) + 1)) as (imp' & es & -> & Hp' & Hev' & Hes).
  { eapply pointers_more; [|exact Hp]. rewrite length_app. lia. } { rewrite length_app. cbn. lia. }
  cbn [exec_bind]. assert (dbms_ok (with_cnctns d (connections d ++ [c]) (Some imp') (closed d))) as Hd1.
  { apply with_map_ok; [done|rewrite length_app; lia| |].
    - intros i c' Ei. apply lookup_app_Some in Ei as [Ei|[_ Ei]]; [by eapply ok_dvr|]. by apply list_lookup_singleton_Some in Ei as [_ <-].
    - intros i [= <-]. by rewrite Hev'. }
  destruct (handle_ok es (with_cnctns d (connections d ++ [c]) (Some imp') (closed d)) Hes) as (d' & -> & Hf). exists d'. split; [done|]. split; [by eapply frame_ok|].
  destruct Hf. split; done.
Qed.

Lemma Reload_frame d p ds drvr : dbms_ok d → match drvr with Some q => q ≤ len (drivers d) | None => True end → frame d (Reload d p ds drvr).
Proof.
  intros Hd Hq. unfold Reload. destruct (at_pointer (connections d) p) as [c|] eqn:Ec; [|apply frame_refl]. apply at_pointer_Some in Ec as [_ Ec].
  pose proof (ok_dvr d Hd _ _ Ec) as Hv.
  assert (∀ q, 0 ≤ q ≤ len (drivers d) → frame d (close_db (db c) (set_connection d p (MkConnection None ds q (cn_fsys c))))) as Hch.
  { intros q Hq'. eapply frame_trans; [|apply frame_close_db]. by apply frame_set. }
  destruct drvr as [q|]; [destruct ((1 <=? q) && negb (dvr c =? q)) eqn:E; [apply Hch; apply andb_prop in E as [E _]; apply Z.leb_le in E; lia|]|];
    (case_bool_decide; [apply frame_refl|by apply Hch]).
Qed.

Lemma connections_Register_ok d alias drvname ds a : dbms_ok d → ∃ b err d', connections_Register d alias drvname ds a = Done (b, err, d') ∧ dbms_ok d'.
Proof.
  intros Hd. unfold connections_Register. destruct (cnctns d) as [imp|] eqn:E; [|by eexists _, _, _].
  destruct (ok_pointers d imp Hd E) as (Hh & _ & _). destruct (IterMap.Get (Some imp) alias) as [cn known].
  assert (0 ≤ Driver_ d cn ≤ len (drivers d)) as Hv.
  { unfold Driver_. destruct (at_pointer (connections d) cn) as [c|] eqn:Ec; [|lia]. apply at_pointer_Some in Ec as [_ Ec]. by eapply ok_dvr. }
  destruct known.
  - assert (∃ q, (if (1 <=? Driver_ d cn) && negb (bool_decide (drv_Name (the_driver d (Driver_ d cn)) = alias)) then get_driver d alias else Done (Driver_ d cn)) = Done q ∧ 0 ≤ q ≤ len (drivers d)) as (q & -> & Hq).
    { destruct (_ && _); [|by eexists]. destruct (get_driver_ok d alias Hd Hh) as (q & -> & _ & ?). by exists q. }
    cbn [exec_bind]. destruct (1 <=? q); [eexists _, _, _; split; [done|]; eapply frame_ok; [|done]; apply Reload_frame; [done|lia]|].
    destruct (connections_Delete_ok d [alias] Hd) as (d1 & -> & Hd1 & Edr & _ & Ehas & _ & Ecn & _). cbn [exec_bind].
    destruct (get_driver_ok d1 alias Hd1) as (q2 & -> & _ & Hq2); [congruence|]. cbn [exec_bind]. destruct (1 <=? q2); [|by eexists _, _, _].
    destruct (add_connection_ok d1 alias (NewConnection q2 ds (c_fsys d1))) as (d2 & -> & Hd2 & _); [done| |done|by eexists _, _, _].
    rewrite Ecn, E. unfold IterMap.Delete. destruct (List.filter _ _); [done|]. by destruct (orgsncmp imp).
  - destruct (get_driver_ok d drvname Hd Hh) as (q & -> & _ & Hq). cbn [exec_bind]. destruct (1 <=? q); [|by eexists _, _, _].
    match goal with |- context [add_connection d alias ?c] => destruct (add_connection_ok d alias c) as (d2 & -> & Hd2 & _) end; [done|by rewrite E|done|by eexists _, _, _].
Qed.

Lemma drivers_Register_ok d alias a : dbms_ok d → ∃ p d', drivers_Register d alias a = Done (p, d') ∧ dbms_ok d'.
Proof.
  intros Hd. unfold drivers_Register. destruct (drvrs d) as [imp|] eqn:E; [|by eexists _, _].
  destruct (match a with _ :: _ => _ | [] => _ end) as [[f|] prs]; [|by eexists _, _].
  destruct (ok_drvs d Hd imp E) as (m & Em & Hm). set (x := NewDriver alias (Some f) prs a).
  destruct (Set_pointers (length (drivers d ++ [x])) imp alias (len (drivers d) + 1)) as (imp' & es & -> & (m' & Em' & Hm') & _ & _).
  { eapply pointers_more; [|by exists m]. rewrite length_app. lia. } { rewrite length_app. cbn. lia. }
  cbn [exec_bind]. eexists _, _. split; [done|]. destruct Hd as [Hc _ Hv]. split; cbn.
  - exact Hc.
  - intros imp2 [= <-]. by exists m'.
  - intros i c Ei. specialize (Hv i c Ei). rewrite length_app. lia.
Qed.

Lemma drivers_Clear_ok d : dbms_ok d → dbms_ok (drivers_Clear d).
Proof.
  intros Hd. unfold drivers_Clear. destruct (drvrs d) as [imp|] eqn:E; [|done]. destruct Hd as [Hc Hd Hv]. destruct (Hd imp E) as (m & Em & Hm).
  split; [exact Hc| |exact Hv]. cbn. rewrite Em. intros imp' [= <-]. exists ∅. split; [done|]. intros k p Ek. by rewrite lookup_empty in Ek.
Qed.

Lemma drivers_Close_ok d : dbms_ok d → dbms_ok (drivers_Close d).
Proof. intros [Hc Hd Hv]. split; [exact Hc|done|exact Hv]. Qed.

Lemma DefaultInvokable_ok d f : dbms_ok d → dbms_ok (DefaultInvokable d f).
Proof. intros [Hc Hd Hv]. destruct f; split; done. Qed.

Lemma nextdb_frame d p : dbms_ok d → frame d (nextdb d p).2.
Proof.
  intros Hd. unfold nextdb. destruct (at_pointer (connections d) p) as [c|] eqn:Ec; [|apply frame_refl]. apply at_pointer_Some in Ec as [_ Ec].
  destruct (1 <=? dvr c); [|apply frame_refl]. destruct (db c); [apply frame_refl|]. destruct (Invoke _ _ _ _) as [[x err] w]. destruct err; [apply frame_net|].
  eapply frame_trans; [apply frame_net|]. apply frame_set. exact (ok_dvr d Hd _ _ Ec).
Qed.

Lemma NewDBMS_ok fs w : dbms_ok (NewDBMS fs w).
Proof.
  split; cbn.
  - intros imp [= <-]. split; [done|]. split; [done|]. exists ∅. split; [done|]. intros k p E. by rewrite lookup_empty in E.
  - intros imp [= <-]. exists ∅. split; [done|]. intros k p E. by rewrite lookup_empty in E.
  - done.
Qed.

Lemma load_connections_ok l : ∀ d, dbms_ok d → ∃ d', load_connections d l = Done d' ∧ dbms_ok d'.
Proof.
  induction l as [|[k v] l IH]; intros d Hd; [by exists d|]. cbn [load_connections]. destruct v as [| | |[|x c]| |]; try by apply IH.
  destruct (_ && _); [|by apply IH]. match goal with |- context [connections_Register d k ?a ?b []] => destruct (connections_Register_ok d k a b [] Hd) as (? & ? & d1 & -> & Hd1) end.
  cbn [exec_bind]. by apply IH.
Qed.

Lemma load_drivers_ok l : ∀ d, dbms_ok d → ∃ d', load_drivers d l = Done d' ∧ dbms_ok d'.
Proof.
  induction l as [|[k a] l IH]; intros d Hd; [by exists d|]. cbn [load_drivers]. destruct (drivers_Register_ok d k a Hd) as (? & d1 & -> & Hd1). by apply IH.
Qed.

Lemma load_all_ok config : ∀ d, dbms_ok d → ∃ d', load_all d config = Done d' ∧ dbms_ok d'.
Proof.
  induction config as [|[k v] config IH]; intros d Hd; [by exists d|]. cbn [load_all].
  assert (∃ d1, (if bool_decide (k = k_connections) || bool_decide (k = k_conns) then match v with JMap l => load_connections d l | _ => Done d end
    else if bool_decide (k = k_drivers) then match v with
        | JMap l => load_drivers d (concat (map (λ kv, match kv.2 with JArr ((_ :: _) as a) => [(kv.1, map as_regarg a)] | _ => [] end) l))
        | JArr l => load_drivers d (map (λ n, (n, [])) (names_in l)) | _ => Done d end else Done d) = Done d1 ∧ dbms_ok d1) as (d1 & -> & Hd1).
  { destruct (_ || _).
    - destruct v; first [by apply load_connections_ok|by exists d].
    - destruct (bool_decide _); [|by exists d]. destruct v; first [by apply load_drivers_ok|by exists d]. }
  cbn [exec_bind]. by apply IH.
Qed.
(** What may be done to the registries, in any order.  A connection is reloaded and opened
    by one who asked for it and was told that it is found. *)
Inductive dop :=
| DDriver (alias : list Z) (a : list regarg)
| DDefault (f : option (list Z → option invoker * option (Z → list Z)))
| DClearDrivers
| DCloseDrivers
| DRegister (alias drvname ds : list Z) (a : list regarg)
| DReload (alias ds : list Z)
| DOpen (alias : list Z)
| DDelete (names : list (list Z))
| DClear
| DClose
| DLoad (confs : list (list (list Z * jval))).

Definition run_dop (op : dop) d : exec dbms :=
  match op with
  | DDriver alias a => let* '(_, d) := drivers_Register d alias a in Done d
  | DDefault f => Done (DefaultInvokable d f)
  | DClearDrivers => Done (drivers_Clear d)
  | DCloseDrivers => Done (drivers_Close d)
  | DRegister alias drvname ds a => let* '(_, _, d) := connections_Register d alias drvname ds a in Done d
  | DReload alias ds => match connections_Get d alias with (cn, true) => Done (Reload d cn ds None) | _ => Done d end
  | DOpen alias => match connections_Get d alias with (cn, true) => Done (nextdb d cn).2 | _ => Done d end
  | DDelete names => connections_Delete d names
  | DClear => connections_Clear d
  | DClose => connections_Close d
  | DLoad confs => Load d confs
  end.

Fixpoint run_dops (ops : list dop) d : exec dbms :=
  match ops with [] => Done d | op :: ops' => let* d := run_dop op d in run_dops ops' d end.

Lemma run_dop_ok op d : dbms_ok d → ∃ d', run_dop op d = Done d' ∧ dbms_ok d'.
Proof.
  intros Hd. destruct op as [alias a|f| | |alias drvname ds a|alias ds|alias|names| | |confs]; cbn [run_dop].
  - destruct (drivers_Register_ok d alias a Hd) as (p & d' & -> & ?). by exists d'.
  - eexists. split; [done|]. by apply DefaultInvokable_ok.
  - eexists. split; [done|]. by apply drivers_Clear_ok.
  - eexists. split; [done|]. by apply drivers_Close_ok.
  - destruct (connections_Register_ok d alias drvname ds a Hd) as (b & err & d' & -> & ?). by exists d'.
  - destruct (connections_Get d alias) as [cn []]; (eexists; split; [done|]); [|done]. eapply frame_ok; [|done]. by apply Reload_frame.
  - destruct (connections_Get d alias) as [cn []]; (eexists; split; [done|]); [|done]. eapply frame_ok; [|done]. by apply nextdb_frame.
  - destruct (connections_Delete_ok d names Hd) as (d' & -> & ? & _). by exists d'.
  - by apply connections_Clear_ok.
  - destruct (connections_Close_ok d Hd) as (d' & -> & ? & _). by exists d'.
  - by apply load_all_ok.
Qed.

(** C28: the registries of a new dbms stay well formed through any sequence of registering
    drivers and connections, with new names or with known ones, reloading, opening, deleting,
    clearing, closing and loading configurations, and none of these panics: every name leads
    to a connection that was made, every connection to a driver that was, and the map of the
    connections keeps the handlers that close what leaves it. *)
Theorem registries_ok ops fs w : ∃ d, run_dops ops (NewDBMS fs w) = Done d ∧ dbms_ok d.
Proof.
  assert (∀ d, dbms_ok d → ∃ d', run_dops ops d = Done d' ∧ dbms_ok d') as Hgo; [|apply Hgo, NewDBMS_ok].
  induction ops as [|op ops IH]; intros d Hd; [by exists d|]. cbn [run_dops]. destruct (run_dop_ok op d Hd) as (d1 & -> & Hd1). by apply IH.
Qed.

(** ** Registering and asking *)

Lemma get_valid d alias cn : dbms_ok d → connections_Get d alias = (cn, true) → ∃ imp m, cnctns d = Some imp ∧ orgsncmp imp = Some m ∧ m !! alias = Some cn ∧ alias ≠ [] ∧
  1 ≤ cn ≤ len (connections d).
Proof.
  intros [Hc _ _]. unfold connections_Get. destruct (cnctns d) as [imp|]; [|done]. destruct (Hc imp eq_refl) as (_ & _ & m & Em & Hm).
  unfold IterMap.Get. cbn [empty_name pointer_entries]. case_bool_decide; [done|]. rewrite Em. destruct (m !! alias) as [p|] eqn:E; [|done]. intros [= <-].
  destruct (Hm alias p E). by exists imp, m.
Qed.

(** Registering a connection under a name that is known and is not the name of its
    driver, when there is no driver of that name either, does not change where it leads but
    loses it: the connection is closed with its database, the name is free, and the answer is
    that the driver is not registered, whatever driver was asked for. *)
Theorem Register_again_loses d alias drvname ds a cn c dr :
  dbms_ok d → connections_Get d alias = (cn, true) → at_pointer (connections d) cn = Some c → the_driver d (dvr c) = Some dr → drv_name dr ≠ alias →
  (drivers_Get d alias).1 = 0 →
  ∃ d', connections_Register d alias drvname ds a = Done (false, Some unregistered_driver, d') ∧ dbms_ok d' ∧
    connections_Get d' alias = (0, false) ∧ closed d' = closed d ++ option_list (db c) ∧ at_pointer (connections d') cn = Some (MkConnection None (cn_datasource c) 0 None).
Proof.
  intros Hd Hg Hc Hdr Hn Hno. destruct (get_valid d alias cn Hd Hg) as (imp & m & E & Em & Ea & Hal & Hcn).
  destruct (ok_pointers d imp Hd E) as (Hh & [ev Hev] & _). unfold connections_Register. unfold connections_Get in Hg. rewrite E in *. rewrite Hg.
  assert (Driver_ d cn = dvr c) as -> by (unfold Driver_; by rewrite Hc). pose proof Hdr as Hdr'. unfold the_driver in Hdr'. apply at_pointer_Some in Hdr' as [Hd1 _].
  rewrite Hdr. cbn [drv_Name]. rewrite bool_decide_eq_false_2 by done. rewrite (proj2 (Z.leb_le _ _)) by lia. cbn [negb andb].
  destruct (get_driver_ok d alias Hd Hh) as (q & -> & Eq & _). cbn [exec_bind]. rewrite Hno in Eq. subst q. cbn [Z.leb Z.compare].
  unfold connections_Delete, on_map. rewrite E. unfold IterMap.Delete. cbn [List.filter empty_name pointer_entries]. rewrite bool_decide_eq_false_2 by done. cbn [negb]. rewrite Em.
  assert (base.filter (λ kv : list Z * Z, kv.1 ∈ [alias]) m = {[ alias := cn ]}) as ->.
  { apply map_eq. intros k. rewrite map_lookup_filter. destruct (decide (k = alias)) as [->|Hk].
    - rewrite Ea, lookup_singleton_eq. cbn. rewrite option_guard_True; [done|by constructor].
    - rewrite lookup_singleton_ne by done. destruct (m !! k); [|done]. cbn. rewrite option_guard_False; [done|]. cbn. intros Hin. apply list_elem_of_singleton in Hin. done. }
  unfold send_map, send. rewrite Hev. rewrite bool_decide_eq_false_2 by (apply map_non_empty_singleton). cbn [handle]. rewrite map_to_list_singleton. cbn [close_all].
  rewrite bool_decide_eq_false_2 by done. rewrite (proj2 (Z.leb_le _ _)) by lia. cbn [negb andb].
  match goal with |- context [connection_Close ?d0 cn] => set (d1 := d0) end.
  destruct (connection_Close_ok d1 cn) as (d2 & c' & Ec' & -> & Hf & Hcl & Hcc & _); [done|]. change (connections d1) with (connections d) in Ec'. assert (c' = c) as -> by congruence.
  cbn [exec_bind]. assert (dbms_ok d2) as Hd2.
  { eapply frame_ok; [exact Hf|]. apply with_map_ok; [done|done|apply Hd|]. intros i [= <-]. split; [done|]. split; [done|]. eexists. split; [done|].
    intros k p Ek. apply map_lookup_filter_Some in Ek as [Ek _]. destruct Hd as [Hc0 _ _]. destruct (Hc0 imp E) as (_ & _ & m' & Em' & Hm). assert (m' = m) as -> by congruence. by eapply Hm. }
  destruct (get_driver_ok d2 alias Hd2) as (q & Eq1 & Eq2 & _); [by rewrite (fr_has _ _ Hf)|]. rewrite Eq1. cbn [exec_bind].
  assert (q = 0) as ->. { rewrite <- Eq2. unfold drivers_Get in *. by rewrite (fr_drvrs _ _ Hf). }
  cbn [Z.leb Z.compare]. eexists. split; [done|]. split; [done|]. split; [|by split].
  unfold connections_Get. rewrite (fr_cnctns _ _ Hf). cbn. unfold IterMap.Get. cbn [empty_name pointer_entries orgsncmp]. rewrite bool_decide_eq_false_2 by done.
  rewrite (proj2 (map_lookup_filter_None _ _ _)); [done|]. right. cbn. intros x _ Hx. apply Hx. by constructor.
Qed.

(** A connection opens its database once. *)
Lemma nextdb_once d p x q d' : nextdb d p = (Some x, q, None, d') → dbms_ok d → nextdb d' p = (Some x, q, None, d').
Proof.
  unfold nextdb. destruct (at_pointer (connections d) p) as [c|] eqn:Ec; [|done]. destruct (1 <=? dvr c) eqn:Ev; [|done]. destruct (db c) eqn:Edb.
  - intros [= <- <- <-] _. rewrite Ec, Ev. by rewrite Edb.
  - destruct (Invoke _ _ _ _) as [[y err] w]. destruct err; [done|]. intros [= -> <- <-] Hd. apply at_pointer_Some in Ec as [Hp1 Ec]. apply lookup_lt_Some in Ec.
    cbn [connections set_connection with_cnctns]. rewrite set_pointer_same by (cbn; lia). cbn [dvr db]. by rewrite Ev.
Qed.

(** C27: a query finds its way: once a connection is registered under a new name with a
    driver that is known, a query under that name opens the database of its data source
    through the driver, runs the statement prepared from the query on it, and answers a new
    reader of its rows, which the handler made for the query knows; the next query finds
    the database open. *)
Theorem query_reaches_database d alias drvname ds q a p dr f x w s w1 r s' w2 :
  dbms_ok d → is_Some (cnctns d) → (connections_Get d alias).2 = false → alias ≠ [] →
  (drivers_Get d drvname).1 = p → the_driver d p = Some dr → invokedb dr = Some f → ds ≠ [] →
  f ds (c_fsys d) (net d) = (Some x, None, w) →
  nextstatement range as_value fsys_value fuel x (Some (as_driver (Some dr))) q (c_fsys d) (more_args (NewDBMSHandler a) a) w = Done (s, None, w1) →
  Statement.QueryContext s w1 = Done (Some r, None, s', w2) →
  ∃ d1 d2 h, connections_Register d alias drvname ds [] = Done (true, None, d1) ∧
    dbms_QueryContext range as_value fsys_value fuel d1 alias q a = Done (len (readers d) + 1, None, d2, h) ∧
    readers d2 = readers d ++ [r] ∧ net d2 = w2 ∧ rdrs h = Some {[ len (readers d) + 1 ]} ∧
    nextdb d2 (connections_Get d2 alias).1 = (Some x, p, None, d2).
Proof.
  intros Hd [imp E] Hg Hal Hp Hdr Hf Hds Hinv Hst Hq. pose proof (ok_pointers d imp Hd E) as (Hh & [ev Hev] & m & Em & Hm).
  assert (1 ≤ p) as Hp1 by (apply at_pointer_Some in Hdr as [? _]; done).
  assert (m !! alias = None) as Hnone.
  { unfold connections_Get in Hg. rewrite E in Hg. unfold IterMap.Get in Hg. cbn [empty_name pointer_entries] in Hg. rewrite bool_decide_eq_false_2, Em in Hg by done.
    by destruct (m !! alias). }
  set (n := len (connections d) + 1). set (c := NewConnection p ds (c_fsys d)).
  set (d1 := with_cnctns d (connections d ++ [c]) (Some (MkIterMap (Some (<[alias := n]> m)) (mpevents imp))) (closed d)).
  assert (connections_Register d alias drvname ds [] = Done (true, None, d1)) as Er.
  { unfold connections_Register. rewrite E. unfold IterMap.Get. cbn [empty_name pointer_entries]. rewrite bool_decide_eq_false_2, Em, Hnone by done.
    destruct (get_driver_ok d drvname Hd Hh) as (p' & -> & Ep & _). cbn [exec_bind]. assert (p' = p) as -> by congruence. rewrite (proj2 (Z.leb_le _ _)) by lia.
    cbn [fold_left or_first]. unfold add_connection. rewrite E. unfold IterMap.Set_. cbn [empty_name pointer_entries]. rewrite bool_decide_eq_false_2, Em, Hnone by done.
    cbn [exec_bind]. unfold send. rewrite Hev. cbn [handle exec_bind]. subst d1. by rewrite Hev. }
  assert (∀ d' l, cnctns d' = cnctns d1 → connections d' = l → connections_Get d' alias = (n, true)) as Hget.
  { intros d' l E1 _. unfold connections_Get. rewrite E1. cbn. unfold IterMap.Get. cbn [empty_name pointer_entries orgsncmp]. rewrite bool_decide_eq_false_2 by done.
    by rewrite lookup_insert_eq. }
  set (c1 := MkConnection (Some x) ds p (c_fsys d)).
  assert (at_pointer (connections d1) n = Some c) as Ec by apply at_pointer_app.
  assert (1 ≤ n ≤ len (connections d1)) as Hn by (cbn; rewrite length_app; cbn; lia).
  set (d2 := MkDbms (drivers d) (drvrs d) (dfltinvkbl d) (set_pointer (connections d1) n c1) (cnctns d1) (has_drvrs d) (c_fsys d) (closed d) (readers d ++ [r]) w2).
  assert (at_pointer (connections d2) n = Some c1) as Ec2 by by apply set_pointer_same.
  exists d1, d2, (AttachReader (NewDBMSHandler a) (len (readers d) + 1)). split; [exact Er|].
  assert (connection_QueryContext range as_value fsys_value fuel d1 n q (more_args (NewDBMSHandler a) a) = Done (len (readers d) + 1, None, d2)) as Eq.
  { unfold connection_QueryContext, nextdb. rewrite Ec. cbn [dvr c NewConnection db cn_datasource cn_fsys]. rewrite (proj2 (Z.leb_le _ _)) by lia.
    change (the_driver d1 p) with (the_driver d p). change (net d1) with (net d). rewrite Hdr. unfold Invoke. rewrite Hf. destruct ds as [|y ds]; [done|]. rewrite Hinv.
    unfold fsys_of, set_connection. cbn [connections with_cnctns with_net net the_driver]. change (set_pointer (connections d ++ [c])) with (set_pointer (connections d1)).
    rewrite set_pointer_same by done. cbn [cn_fsys]. unfold the_driver. cbn [drivers with_cnctns with_net d1]. unfold the_driver in Hdr. rewrite Hdr, Hst. cbn [exec_bind net with_net]. rewrite Hq. done. }
  split.
  { unfold dbms_QueryContext, handler_QueryContext. rewrite (Hget d1 _ eq_refl eq_refl), Eq. cbn [exec_bind]. by rewrite (proj2 (Z.leb_le _ _)) by lia. }
  split; [done|]. split; [done|]. split; [cbn; f_equal; apply (right_id_L ∅ (∪))|]. rewrite (Hget d2 _ eq_refl eq_refl). cbn [fst]. unfold nextdb. rewrite Ec2. cbn [dvr c1 db]. by rewrite (proj2 (Z.leb_le _ _)) by lia.
Qed.

(** Unloading everything waits for the registries to tell what they disposed of, which
    an empty one never does: [Unload] without arguments does not return when there are no
    connections, or none but no drivers, however long it is given; with both it returns, and
    the registries are gone. *)
Theorem Unload_waits n d : dbms_ok d → is_Some (cnctns d) → is_Some (drvrs d) →
  (IterMap.content (cnctns d) = ∅ ∨ IterMap.content (drvrs d) = ∅ → Unload n d [] = NoFuel) ∧
  (IterMap.content (cnctns d) ≠ ∅ → IterMap.content (drvrs d) ≠ ∅ → ∃ d', Unload n d [] = Done d' ∧ cnctns d' = None ∧ drvrs d' = None).
Proof.
  intros Hd [imp E] [dimp Ed]. pose proof (ok_pointers d imp Hd E) as (Hh & [ev Hev] & m & Em & Hm). destruct (ok_drvs d Hd dimp Ed) as (dm & Edm & Hdm).
  rewrite E, Ed. cbn [IterMap.content default from_option id]. rewrite Em, Edm. cbn [default from_option id]. unfold Unload, unload_all, connections_Events. rewrite E. unfold IterMap.Events. rewrite Hev.
  cbn [assert_events snd exec_bind]. cbn [set_disposed]. rewrite Hev, Em. set (d0 := with_cnctns d _ _ _).
  assert (dbms_ok d0) as Hd0.
  { apply with_map_ok; [done|done|apply Hd|]. intros i [= <-]. split; [done|]. split; [done|]. by exists m. }
  destruct (connections_Close_ok d0 Hd0) as (d1 & -> & Hd1 & Ec1 & Edr1 & _). cbn [exec_bind]. cbn [cnctns d0 with_cnctns IterMap.Close snd orgsncmp]. unfold send_map, send. cbn [mpevents].
  destruct (decide (m = ∅)) as [Hm0|Hm0].
  { rewrite bool_decide_eq_true_2 by done. cbn [wait exec_bind]. split; [done|]. intros H1. by destruct (H1 Hm0). }
  rewrite bool_decide_eq_false_2 by done. cbn [wait exec_bind]. unfold drivers_Events. rewrite Edr1. cbn [d0 with_cnctns drvrs]. rewrite Ed.
  assert (∃ imp' e', IterMap.Events (Some dimp) = (Some imp', Some e') ∧ orgsncmp imp' = Some dm ∧ mpevents imp' = Some e') as (imp' & e' & -> & Eo & Ee).
  { unfold IterMap.Events. destruct (mpevents dimp) eqn:Ev; eexists _, _; (split; [done|]); by split. }
  cbn [exec_bind assert_events with_drvrs drvrs set_disposed]. rewrite Ee, Eo. cbn [IterMap.Close snd orgsncmp]. unfold send_map, send. cbn [mpevents].
  destruct (decide (dm = ∅)) as [Hdm0|Hdm0].
  - rewrite bool_decide_eq_true_2 by done. cbn [wait exec_bind]. split; [done|]. intros _ H1. by destruct (H1 Hdm0).
  - rewrite bool_decide_eq_false_2 by done. cbn [wait exec_bind]. split; [intros [|]; done|]. intros _ _. eexists. split; [done|]. by split.
Qed.
End theory.

(** * Instances *)

(** A driver whose databases open, one whose databases do not, and a connection. *)
Definition demo_invoke : @invoker demo_world := λ ds fs w, (Some tt, None, w ++ [(ds, [])]).
Definition demo_refuse : @invoker demo_world := λ ds fs w, (None, Some (OtherErr 7), w).
Definition w_pg : list Z := [112; 103].
Definition w_bad : list Z := [98; 97; 100].
Definition w_main : list Z := [109; 97; 105; 110].
Definition w_source : list Z := [100; 115].
Definition w_query : list Z := [115; 101; 108].
Definition demo_new : @dbms demo_world := NewDBMS None [].
Definition demo_drivers : list (@dop demo_world) := [DDriver w_pg [RInvoke (Some demo_invoke); RParse (Some marks)]; DDriver w_bad [RInvoke (Some demo_refuse)]].
Definition after (ops : list (@dop demo_world)) : @dbms demo_world := match run_dops ops demo_new with Done d => d | _ => demo_new end.

Lemma after_ok ops : dbms_ok (after ops).
Proof.
  unfold after. assert (∀ d : @dbms demo_world, dbms_ok d → ∃ d', run_dops ops d = Done d' ∧ dbms_ok d') as Hgo.
  { induction ops as [|op ops IH]; intros d Hd; [by exists d|]. cbn [run_dops]. destruct (run_dop_ok op d Hd) as (d1 & -> & Hd1). by apply IH. }
  destruct (Hgo demo_new (NewDBMS_ok None _)) as (d & -> & Hd). exact Hd.
Qed.

#[local] Abbreviation run_query := (dbms_QueryContext no_order (λ _, VNil) VNil 100).

Lemma query_reaches_database_witness :
  ∃ d1 d2 h, connections_Register (after demo_drivers) w_main w_pg w_source [] = Done (true, None, d1) ∧
    run_query d1 w_main w_query [] = Done (1, None, d2, h) ∧ readers d2 = [MkRows ([], None) []] ∧ net d2 = [(w_source, []); (w_query, [])] ∧
    rdrs h = Some {[ 1 ]} ∧ nextdb d2 (connections_Get d2 w_main).1 = (Some tt, 1, None, d2).
Proof.
  exact (query_reaches_database no_order (λ _, VNil) VNil 100 (after demo_drivers) w_main w_pg w_source w_query [] 1 _ demo_invoke tt [(w_source, [])] _ [(w_source, [])] (MkRows ([], None) []) _ [(w_source, []); (w_query, [])]
    (after_ok demo_drivers) ltac:(vm_compute; by eexists) eq_refl ltac:(done) eq_refl eq_refl eq_refl ltac:(done) eq_refl eq_refl eq_refl).
Defined.

Definition demo_open : list (@dop demo_world) := demo_drivers ++ [DRegister w_main w_pg w_source []; DOpen w_main].

Lemma Register_again_loses_witness :
  ∃ d', connections_Register (after demo_open) w_main w_pg w_query [] = Done (false, Some unregistered_driver, d') ∧ dbms_ok d' ∧
    connections_Get d' w_main = (0, false) ∧ closed d' = [tt] ∧ at_pointer (connections d') 1 = Some (MkConnection None w_source 0 None).
Proof.
  exact (Register_again_loses (after demo_open) w_main w_pg w_query [] 1 (MkConnection (Some tt) w_source 1 None) _
    (after_ok demo_open) eq_refl eq_refl eq_refl ltac:(done) eq_refl).
Defined.

Lemma demo_registries : is_Some (cnctns (after demo_drivers)) ∧ is_Some (drvrs (after demo_drivers)) ∧ is_Some (cnctns (after demo_open)) ∧ is_Some (drvrs (after demo_open)).
Proof. vm_compute. split_and!; by eexists. Qed.

Lemma demo_contents : IterMap.content (cnctns (after demo_drivers)) = ∅ ∧ IterMap.content (cnctns (after demo_open)) ≠ ∅ ∧ IterMap.content (drvrs (after demo_open)) ≠ ∅.
Proof. vm_compute. split_and!; discriminate || reflexivity. Qed.

Lemma Unload_waits_witness :
  Unload 5 (after demo_drivers) [] = NoFuel ∧ ∃ d', Unload 5 (after demo_open) [] = Done d' ∧ cnctns d' = None ∧ drvrs d' = None.
Proof.
  destruct demo_registries as (R1 & R2 & R3 & R4). destruct demo_contents as (C1 & C2 & C3).
  destruct (Unload_waits 5 (after demo_drivers) (after_ok demo_drivers) R1 R2) as [U1 _]. destruct (Unload_waits 5 (after demo_open) (after_ok demo_open) R3 R4) as [_ U2].
  split; [exact (U1 (or_introl C1))|exact (U2 C2 C3)].
Defined.

(** A database that does not open: no reader and no error. *)
Example open_error_lost :
  match run_query (after (demo_drivers ++ [DRegister w_main w_bad w_source []])) w_main w_query [] with
  | Done (r, err, _, _) => r = 0 ∧ err = None
  | _ => False end.
Proof. vm_compute. by split. Qed.

(** An alias that no connection has: no reader and no error. *)
Example unknown_alias :
  match run_query (after demo_drivers) w_main w_query [] with Done (r, err, _, _) => r = 0 ∧ err = None | _ => False end.
Proof. vm_compute. by split. Qed.

(** A configuration is loaded in the order of a Go map: connections that come before their
    driver are not registered. *)
Definition conf_connections : list Z * @jval demo_world := (k_connections, JMap [(w_main, JMap [(nth 0 k_sources [], JStr w_source); (k_driver, JStr w_pg)])]).
Definition conf_drivers : list Z * @jval demo_world := (k_drivers, JMap [(w_pg, JArr [JArg (RInvoke (Some demo_invoke))])]).
Example Load_order :
  connections_Contains (after [DLoad [[conf_drivers; conf_connections]]]) w_main = true ∧
  connections_Contains (after [DLoad [[conf_connections; conf_drivers]]]) w_main = false.
Proof. by vm_compute. Qed.

(** Unloading names that are not there waits for ever, as an argument that is no configuration
    does. *)
Example Unload_unknown_hangs n : Unload (S (S n)) (after demo_open) [UConf [(k_conns, JStrs [w_query])]] = NoFuel.
Proof. reflexivity. Qed.

Example Unload_text_hangs n : Unload n (after demo_open) [UOther] = NoFuel.
Proof.
  unfold Unload. assert (∀ n confs, take_confs n [UOther] confs = NoFuel) as ->; [|done]. intros k. induction k as [|k IH]; intros confs; [done|]. apply IH.
Qed.

(** Unloading once more, when the connections are gone, asks nil for its events. *)
Lemma Unload_again `{UnicodeCase} `{World} n d : cnctns d = None → Unload n d [] = Panic.
Proof. intros E. unfold Unload, unload_all, connections_Events. by rewrite E. Qed.

(** [Close] of a connection that is nil goes through it; a closed registry of drivers has every
    driver. *)
Example connection_Close_nil : connection_Close (after []) 0 = Panic.
Proof. reflexivity. Qed.
Example closed_drivers_exist : drivers_Exist (after [DCloseDrivers]) w_bad = true.
Proof. reflexivity. Qed.
