(* ===== verification/Records.v ===== *)
(** src/dbms/reader.go and record.go: the reader of the records of a query, over the rows of
    [Rows], and the fields of a record.

    A reader and its rows are two values here: [rws] and [stmnt] say whether the reader, and
    its statement, have the rows.  A reader makes one record and one events object in its
    life; they are kept here when it lets go of them, as the program keeps them when they
    were handed out.  What a reader closes and tells is in its log; the rows, which its
    statement closes in a goroutine of its own, are left as they are. *)

From S2P Require Import Prelude Runes GoStrings Rows.
#[local] Open Scope Z_scope.

(** What a field is asked by: a string, an int, or something else. *)
Inductive fieldref := RName (s : list Z) | RIndex (i : Z) | ROther.

Section record.
Context `{UnicodeCase} {V CT RD : Type} (as_reader : V → option RD).

Record record := MkRecord { rc_rwnr : Z; rc_dta : list V; rc_cols : list (list Z); rc_coltpes : list CT; rc_first : bool; rc_last : bool }.

Definition record_First (o : option record) : bool := match o with Some rc => rc_first rc | None => false end.
Definition record_Last (o : option record) : bool := match o with Some rc => rc_last rc | None => false end.
Definition record_RowNR (o : option record) : Z := match o with Some rc => rc_rwnr rc | None => 0 end.
Definition record_Data (o : option record) : list V := match o with Some rc => rc_dta rc | None => [] end.
Definition record_Columns (o : option record) : list (list Z) := match o with Some rc => rc_cols rc | None => [] end.
Definition record_ColumnTypes (o : option record) : list CT := match o with Some rc => rc_coltpes rc | None => [] end.

(** [for ci, c := range rc.cols]: the first column with the name, from [i]. *)
Fixpoint column_index (i : nat) (s : list Z) (cs : list (list Z)) : option nat :=
  match cs with
  | [] => None
  | c :: cs' => if EqualFold (utf8.runes c) (utf8.runes s) then Some i else column_index (S i) s cs'
  end.

Definition field_value (ref : fieldref) (rc : record) : option V :=
  match match ref with RName ((_ :: _) as s) => column_index 0 s (rc_cols rc) | _ => None end with
  | Some ci => rc_dta rc !! ci
  | None =>
    let idx := match ref with RIndex i => i | _ => 0 end in
    if (-1 <? idx) && (idx <? len (rc_dta rc)) then rc_dta rc !! Z.to_nat idx else None
  end.

Definition Field (o : option record) (ref : fieldref) : option V := o ≫= field_value ref.
Definition record_Reader (o : option record) (ref : fieldref) : option RD := o ≫= λ rc, field_value ref rc ≫= as_reader.
End record.
Arguments record : clear implicits.

Section reader.
Context {S V CT U : Type} `{!IRows S V CT} (nil_value : V).

Definition sel : Type := record V CT → U → exec (bool * U).

(** [ReaderEvents]: whether there are handlers of errors and of the end. *)
Record revents := MkEvents { ReaderError : bool; Select_ : option sel; Disposed : bool }.

Inductive effect := StatementClosed | HandlerClosed (h : Z) | ReaderDetached (h : Z) | DisposedTold.

(** [stmnt] of [Some b]: a statement that has the rows if [b]. *)
Record reader := MkReader {
  stmnt : option bool;
  rws : bool;
  dbhndlr : option Z;
  dsphndlr : bool;
  has_evnts : bool;
  evs : revents;
  has_rc : bool;
  the_rc : record V CT;
  log : list effect }.

#[local] Abbreviation rowsT := (rows (S := S) (V := V) (CT := CT) (F := unit)).

Definition with_rws (d : reader) : reader := MkReader (stmnt d) true (dbhndlr d) (dsphndlr d) (has_evnts d) (evs d) (has_rc d) (the_rc d) (log d).
Definition with_rc (d : reader) (rc : record V CT) : reader := MkReader (stmnt d) (rws d) (dbhndlr d) (dsphndlr d) (has_evnts d) (evs d) true rc (log d).
Definition with_events (d : reader) (e : revents) : reader := MkReader (stmnt d) (rws d) (dbhndlr d) (dsphndlr d) true e (has_rc d) (the_rc d) (log d).

(** [&reader{stmnt: s, rws: s.rows}] *)
Definition new_reader : reader := MkReader (Some true) true None false false (MkEvents false None false) false (MkRecord 0 [] [] [] false false) [].

Definition Record_ (o : option reader) : option (record V CT) := match o with Some d => if has_rc d then Some (the_rc d) else None | None => None end.
Definition reader_First (o : option reader) : bool := record_First (Record_ o).
Definition reader_Last (o : option reader) : bool := record_Last (Record_ o).
Definition reader_Data (o : option reader) : list V := record_Data (Record_ o).

Definition AttachHandler (o : option reader) (h : option Z) : option reader :=
  match o with
  | Some d => if decide (dbhndlr d = h) then o else Some (MkReader (stmnt d) (rws d) h (dsphndlr d) (has_evnts d) (evs d) (has_rc d) (the_rc d) (log d))
  | None => None
  end.

(** [Events]; its answer is [evs] when there are events then. *)
Definition reader_Events (r : rowsT) (o : option reader) : exec (bool * rowsT * option reader) :=
  match o with
  | None => Done (false, r, None)
  | Some d =>
    if has_evnts d then Done (true, r, o)
    else if rws d then
      let* '(_, r') := rows_Events (Some r) in
      Done (true, with_handler (default r r') true, Some (with_events d (MkEvents false None false)))
    else Done (false, r, o)
  end.

(** [Close]: a reader that owns its handler returns before the rest. *)
Definition reader_Close (d : reader) : reader :=
  let done := match stmnt d with Some _ => [StatementClosed] | None => [] end in
  match dbhndlr d, dsphndlr d with
  | Some h, true => MkReader None false None true false (evs d) false (the_rc d) (log d ++ done ++ [HandlerClosed h])
  | _, _ =>
    let detached := match dbhndlr d with Some h => [ReaderDetached h] | None => [] end in
    let rc := if has_rc d then MkRecord (rc_rwnr (the_rc d)) [] [] [] (rc_first (the_rc d)) (rc_last (the_rc d)) else the_rc d in
    let told := if has_evnts d && Disposed (evs d) then [DisposedTold] else [] in
    MkReader None false None (dsphndlr d) false (evs d) false rc (log d ++ done ++ detached ++ told)
  end.

(** The rows, taken from the statement when the reader has none. *)
Definition take_rows (d : reader) : bool * reader :=
  if rws d then (true, d) else match stmnt d with Some true => (true, with_rws d) | _ => (false, d) end.

Definition reader_Columns (r : rowsT) (d : reader) : exec (list (list Z) * rowsT * reader) :=
  let '(got, d) := take_rows d in
  if got then
    let* '(c, err, o) := Columns nil_value (Some r) in
    Done (match err with None => c | Some _ => [] end, default r o, d)
  else Done ([], r, d).

Definition reader_ColumnTypes (r : rowsT) (d : reader) : exec (list CT * rowsT * reader) :=
  let '(got, d) := take_rows d in
  if got then
    let* '(c, err, o) := ColumnTypes nil_value (Some r) in
    Done (match err with None => c | Some _ => [] end, default r o, d)
  else Done ([], r, d).

(** [prepRecord] with the rows of the reader. *)
Definition prepRecord (r : rowsT) (d : reader) : exec (bool * rowsT * reader) :=
  if has_rc d then
    Done (true, r, with_rc d (MkRecord (rows_RowNR (Some r)) (rows_Data (Some r)) (rc_cols (the_rc d)) (rc_coltpes (the_rc d)) (rows_First (Some r)) (rows_Last (Some r))))
  else
    let* '(c, r, d) := reader_Columns r d in
    let* '(ct, r, d) := reader_ColumnTypes r d in
    if rws d then
      match rows_Err (Some r) with
      | Some _ => Done (false, r, reader_Close d)
      | None => Done (true, r, with_rc d (MkRecord (rows_RowNR (Some r)) (rows_Data (Some r)) c ct (rows_First (Some r)) (rows_Last (Some r))))
      end
    else Panic.

(** [calselect] *)
Definition calselect (e : revents) (rc : record V CT) (u : U) : exec (bool * U) :=
  match Select_ e with Some s => s rc u | None => Done (true, u) end.

(** The callback of [SelectNext]. *)
Definition picks (f : unit) (r : rowsT) (t : reader * U) : exec (bool * rowsT * (reader * U)) :=
  let '(d, u) := t in
  let* '(ok, r, d) := prepRecord r d in
  if (ok : bool) then let* '(b, u) := calselect (evs d) (the_rc d) u in Done (b, r, (d, u))
  else Done (false, r, (d, u)).

Definition reader_Next (n : nat) (r : rowsT) (d : reader) (u : U) : exec (bool * rowsT * reader * U) :=
  let '(got, d) := take_rows d in
  if got then
    let slctd := if has_evnts d then match Select_ (evs d) with Some _ => Some tt | None => None end else None in
    let* '(nxt, o, (d, u)) := SelectNext nil_value picks n slctd (Some r) (d, u) in
    let r := default r o in
    if (nxt : bool) then
      let* '(ok, r, d) := prepRecord r d in
      if ok && bool_decide (rows_Err (Some r) = None) then Done (true, r, d, u) else Done (false, r, reader_Close d, u)
    else Done (false, r, reader_Close d, u)
  else Done (false, r, reader_Close d, u).

(** [Records]: [nxtrc] is the body of the loop over the records. *)
Fixpoint records_loop (m n : nat) (nxtrc : sel) (r : rowsT) (d : reader) (u : U) : exec (rowsT * reader * U) :=
  match m with
  | O => NoFuel
  | Datatypes.S m' =>
    let* '(nxt, r, d, u) := reader_Next n r d u in
    if (nxt : bool) then
      let* '(go, u) := nxtrc (the_rc d) u in
      if (go : bool) then records_loop m' n nxtrc r d u else Done (r, d, u)
    else Done (r, d, u)
  end.

(** [whereslct(r) && selectevt(r)] *)
Definition and_then (a b : sel) : sel := λ rc u, let* '(ok, u) := a rc u in if (ok : bool) then b rc u else Done (false, u).

(** [where] of [Some]: there is a first condition and it is not nil. *)
Definition Records (m n : nat) (where_ : option sel) (nxtrc : sel) (r : rowsT) (o : option reader) (u : U) : exec (rowsT * option reader * U) :=
  match o with
  | None => Done (r, None, u)
  | Some d =>
    let* d :=
      match where_ with
      | None => Done d
      | Some w =>
        if has_evnts d then
          let s := match Select_ (evs d) with None => w | Some s => and_then w s end in
          Done (with_events d (MkEvents (ReaderError (evs d)) (Some s) (Disposed (evs d))))
        else Panic
      end in
    if rws d && bool_decide (rows_Err (Some r) = None) then
      let* '(r, d, u) := records_loop m n nxtrc r d u in Done (r, Some d, u)
    else Done (r, Some d, u)
  end.
End reader.

(** * Theory *)

Section yield.
Context {S V CT U : Type} `{!IRows S V CT} (nil_value : V).
Context (types : list CT) (fin : option goerr) (rest : S → list (list V) → Prop) `{!RowSource types fin rest}.
(** How a handler of errors was set, the reader before, and the rows its condition selects. *)
Context (h : option bool) (d0 : reader (V := V) (CT := CT) (U := U)) (q : list V → bool).
#[local] Abbreviation rowsT := (rows (S := S) (V := V) (CT := CT) (F := unit)).
#[local] Abbreviation readerT := (reader (V := V) (CT := CT) (U := U)).
Implicit Types (r : rowsT) (d : readerT) (u : U).

Definition selects (s : option (sel (V := V) (CT := CT) (U := U))) (q : list V → bool) : Prop :=
  match s with Some s => ∀ rc u, s rc u = Done (q (rc_dta rc), u) | None => ∀ v, q v = true end.

(** The condition that counts. *)
Definition condition d : option (sel (V := V) (CT := CT) (U := U)) := if has_evnts d then Select_ (evs d) else None.
Definition callback d : option unit := match condition d with Some _ => Some tt | None => None end.

Context (Hq : selects (condition d0) q).

(** The reader while it reads. *)
Record good d : Prop := {
  gd_rws : rws d = true;
  gd_same : (stmnt d, dbhndlr d, dsphndlr d, has_evnts d, evs d, log d) = (stmnt d0, dbhndlr d0, dsphndlr d0, has_evnts d0, evs d0, log d0);
  gd_rc : has_rc d = true → rc_cols (the_rc d) = map ct_Name types ∧ rc_coltpes (the_rc d) = types }.

Definition record_of (x : bool * bool * Z * list V) : record V CT :=
  let '(fst, lst, nr, v) := x in MkRecord nr v (map ct_Name types) types fst lst.

Definition row_of r := (rows_First (Some r), rows_Last (Some r), rows_RowNR (Some r), rows_Data (Some r)).

Lemma good_condition d : good d → condition d = condition d0.
Proof. intros [_ E _]. unfold condition. injection E as _ _ _ Eh Ee _. by rewrite Eh, Ee. Qed.

Lemma good_rc d x : good d → good (with_rc d (record_of x)).
Proof. intros [H E _]. split; [done|exact E|]. by destruct x as [[[??]?]?]. Qed.

Lemma prepRecord_done r d : types ≠ [] → cols r = map ct_Name types → coltpes r = types → lsterr r = None → good d →
  prepRecord nil_value r d = Done (true, r, with_rc d (record_of (row_of r))).
Proof.
  intros Ht Hc Hct He [Hw _ Hrc]. unfold prepRecord. destruct (has_rc d).
  - by destruct Hrc as [-> ->].
  - unfold reader_Columns, reader_ColumnTypes, take_rows, Columns, ColumnTypes. destruct types as [|t ts] eqn:Et; [done|]. rewrite Hw. cbn [exec_bind].
    rewrite Hc. cbn [map exec_bind from_option id]. rewrite Hw. cbn [exec_bind]. rewrite Hc. cbn [map exec_bind from_option id rows_Err]. rewrite He, Hct, Hw.
    unfold record_of, row_of. by rewrite Et.
Qed.

Lemma picks_pure u r t : types ≠ [] → cols r = map ct_Name types → coltpes r = types → sctltd r = Some (callback d0) → lsterr r = None →
  good t.1 ∧ t.2 = u → ∃ t', run_select (picks nil_value) r t = Done (q (rows_Data (Some r)), r, t') ∧ good t'.1 ∧ t'.2 = u.
Proof.
  destruct t as [d u']. cbn [fst snd]. intros Ht Hc Hct Hs He (Hd & ->). unfold run_select. rewrite Hs. unfold callback, selects in *.
  pose proof (good_condition d Hd) as Ec. destruct (condition d0) as [s|].
  - unfold picks. rewrite prepRecord_done by done. cbn [exec_bind]. pose proof (good_rc d (row_of r) Hd) as Hd'.
    unfold calselect. unfold condition in Ec. cbn [evs with_rc]. destruct (has_evnts d); [|done]. rewrite Ec, Hq. cbn [exec_bind]. by eexists (_, _).
  - rewrite Hq. by eexists (_, _).
Qed.

Lemma reader_Next_is n r d u : good d →
  reader_Next nil_value n r d u =
    let* '(nxt, o, (d, u)) := SelectNext nil_value (picks nil_value) n (callback d0) (Some r) (d, u) in
    let r := default r o in
    if (nxt : bool) then
      let* '(ok, r, d) := prepRecord nil_value r d in
      if ok && bool_decide (rows_Err (Some r) = None) then Done (true, r, d, u) else Done (false, r, reader_Close d, u)
    else Done (false, r, reader_Close d, u).
Proof.
  intros Hd. unfold reader_Next, take_rows. rewrite (gd_rws _ Hd). unfold callback. rewrite <- (good_condition d Hd). unfold condition. by destruct (has_evnts d).
Qed.

(** What a reader ends with. *)
Definition ended (r : rowsT) d : Prop := ∃ d', good d' ∧ d = reader_Close d' ∧ over fin h (Some r).

Context (put : record V CT → U → U) (nxtrc : sel (V := V) (CT := CT) (U := U)) (Hnxt : ∀ rc u, nxtrc rc u = Done (true, put rc u)).

Definition take_all (l : list (bool * bool * Z * list V)) u : U := fold_left (λ u x, put (record_of x) u) l u.

Lemma loop_step k x xs i b r d u ok r' d' :
  good d → SelectNext nil_value (picks nil_value) k (callback d0) (Some r) (d, u) = Done (ok, Some r', (d', u)) → good d' →
  given types fin rest q (callback d0) h x i b k xs ok r' →
  (∀ d u, good d → resting types rest q (callback d0) h k xs r' → (xs = [] → fin = None) →
    ∃ r2 d2, records_loop nil_value (Datatypes.S (length xs)) k nxtrc r' d u = Done (r2, d2, take_all (numbered fin (rwnr r' + 1) false xs) u) ∧ ended r2 d2) →
  ∃ r2 d2, records_loop nil_value (Datatypes.S (length (x :: xs))) k nxtrc r d u = Done (r2, d2, take_all (numbered fin i b (x :: xs)) u) ∧ ended r2 d2.
Proof.
  intros Hd E Hd' Hg IH. change (length (x :: xs)) with (Datatypes.S (length xs)). cbn [records_loop]. rewrite reader_Next_is by done. rewrite E. cbn [exec_bind from_option id].
  destruct (given_cases _ _ _ _ _ _ _ _ _ _ _ _ _ Hg) as [(-> & Hc & ->)|(-> & [Hv Hi Hb Hl Hr] & He & ->)].
  - cbn [exec_bind]. eexists _, _. split; [done|]. exists d'. split; [done|]. split; [done|]. by eapply closed_over.
  - pose proof (rt_reading _ _ _ _ _ _ _ _ Hr) as [Ht Hc Hct _ Herr _ _ _ _ _]. rewrite prepRecord_done by done. cbn [exec_bind rows_Err andb]. rewrite Herr.
    rewrite bool_decide_eq_true_2 by done. cbn [exec_bind the_rc with_rc]. rewrite Hnxt. cbn [exec_bind].
    assert (row_of r' = (b, match xs with [] => true | _ => false end, i, x)) as Erow by (unfold row_of; by rewrite Hv, Hi, Hb, Hl).
    rewrite Erow. destruct (IH (with_rc d' (record_of (b, match xs with [] => true | _ => false end, i, x))) (put (record_of (b, match xs with [] => true | _ => false end, i, x)) u)) as (r2 & d2 & E2 & Ho);
      [by apply good_rc|done|done|]. cbn [records_loop] in E2. rewrite E2. eexists _, _. split; [|exact Ho].
    cbn in Hi. rewrite (rt_swp _ _ _ _ _ _ _ _ Hr) in Hi. by subst i.
Qed.

Lemma loop_more k xs r d u : good d → resting types rest q (callback d0) h k xs r → (xs = [] → fin = None) →
  ∃ r2 d2, records_loop nil_value (Datatypes.S (length xs)) k nxtrc r d u = Done (r2, d2, take_all (numbered fin (rwnr r + 1) false xs) u) ∧ ended r2 d2.
Proof.
  revert r d u. induction xs as [|x xs IH]; intros r d u Hd Hr He.
  - cbn [records_loop length]. rewrite reader_Next_is by done. rewrite (next_end nil_value (picks nil_value) types fin rest q (callback d0) (λ t, good t.1 ∧ t.2 = u) h (picks_pure u) k r (d, u) Hr). cbn [exec_bind from_option id]. eexists _, _.
    split; [done|]. exists d. split; [done|]. split; [done|]. split; [by apply Hr|]. by rewrite He.
  - edestruct (next_more nil_value (picks nil_value) types fin rest q (callback d0) (λ t, good t.1 ∧ t.2 = u) h (picks_pure u) k x xs r (d, u))
      as (ok & r2 & [d2 u2] & E & Hg & Hd2 & Hu2); [done|done|]. cbn in Hd2, Hu2. subst u2.
    eapply loop_step; [done|done|done|exact Hg|]. intros. by apply IH.
Qed.

Lemma records_loop_done k s e ds d u : rest s ds → (length ds < k)%nat → good d →
  ∃ r2 d2, records_loop nil_value (Datatypes.S (length (List.filter q ds))) k nxtrc (fresh h s e) d u =
    Done (r2, d2, take_all (numbered fin 1 true (List.filter q ds)) u) ∧ ended r2 d2.
Proof.
  intros Hrest Hk Hd.
  destruct (next_first nil_value (picks nil_value) types fin rest q (callback d0) (λ t, good t.1 ∧ t.2 = u) h (picks_pure u) k s e ds (d, u) Hrest Hk)
    as (r & [d1 u1] & [Hd1 Hu1] & H); [done|]. cbn in Hd1, Hu1. subst u1. destruct (List.filter q ds) as [|x xs].
  - destruct H as [E Hc]. cbn [records_loop length]. rewrite reader_Next_is by done. rewrite E. cbn [exec_bind from_option id]. eexists _, _. split; [done|].
    exists d1. split; [done|]. split; [done|]. by eapply closed_over.
  - destruct H as (ok & E & Hg). eapply loop_step; [done|done|done|exact Hg|]. intros. by apply loop_more.
Qed.
End yield.

(** What closing a reader does. *)
Definition closing {V CT U} (d : reader (V := V) (CT := CT) (U := U)) : list effect :=
  match stmnt d with Some _ => [StatementClosed] | None => [] end ++
  match dbhndlr d, dsphndlr d with
  | Some h, true => [HandlerClosed h]
  | o, _ => match o with Some h => [ReaderDetached h] | None => [] end ++ (if has_evnts d && Disposed (evs d) then [DisposedTold] else [])
  end.

Lemma reader_Close_is {V CT U} (d : reader (V := V) (CT := CT) (U := U)) :
  rws (reader_Close d) = false ∧ stmnt (reader_Close d) = None ∧ has_rc (reader_Close d) = false ∧ log (reader_Close d) = log d ++ closing d.
Proof. unfold reader_Close, closing. destruct (dbhndlr d), (dsphndlr d); split_and!; done. Qed.

Lemma selects_and {V CT U} (w : sel (V := V) (CT := CT) (U := U)) s q1 q2 :
  selects (Some w) q2 → selects s q1 → selects (Some (match s with None => w | Some s => and_then w s end)) (λ v, q2 v && q1 v).
Proof.
  intros Hw Hs. destruct s as [s|]; cbn in *; intros rc u.
  - unfold and_then. rewrite Hw. cbn [exec_bind]. destruct (q2 _); [by rewrite Hs|done].
  - rewrite Hw, Hs. by rewrite andb_true_r.
Qed.

(** C30: [Records] tells its body the records of a query that the condition of the call and
    the [Select] of the events pick, one by one and in their order, each with the columns, its
    number and whether it is the first and the last, and then closes the reader once: its
    statement is closed, its handler closed or left, and the end told.  When the database
    fails the record before the failure is missing, and no error is left. *)
Theorem Records_yields {S V CT U} `{!IRows S V CT} (nil_value : V) types fin rest `{!RowSource types fin rest} h s e ds k where_ q1 q2 put nxtrc
    (d : reader (V := V) (CT := CT) (U := U)) u :
  rest s ds → (length ds < k)%nat → rws d = true → has_rc d = false → where_ = None ∨ has_evnts d = true →
  selects (condition d) q1 → selects where_ q2 → (∀ rc u, nxtrc rc u = Done (true, put rc u)) →
  let l := List.filter (λ v, q2 v && q1 v) ds in
  ∃ r' d', Records nil_value (Datatypes.S (length l)) k where_ nxtrc (fresh h s e) (Some d) u = Done (r', Some d', take_all types put (numbered fin 1 true l) u) ∧
    over fin h (Some r') ∧ rws d' = false ∧ stmnt d' = None ∧ log d' = log d ++ closing d.
Proof.
  intros Hrest Hk Hw Hrc Hev H1 H2 Hnxt l. unfold Records.
  assert (∃ d1, match where_ with None => Done d
      | Some w => if has_evnts d then Done (with_events d (MkEvents (ReaderError (evs d)) (Some match Select_ (evs d) with None => w | Some s => and_then w s end) (Disposed (evs d)))) else Panic
      end = Done d1 ∧ rws d1 = true ∧ has_rc d1 = false ∧ log d1 = log d ∧ closing d1 = closing d ∧ selects (condition d1) (λ v, q2 v && q1 v)) as (d1 & -> & Hw1 & Hrc1 & Hl1 & Hcl1 & Hs1).
  { destruct where_ as [w|].
    - destruct Hev as [|Hev]; [done|]. rewrite Hev. eexists. split; [done|]. split; [done|]. split; [done|]. split; [done|]. unfold condition in *. rewrite Hev in *.
      split; [unfold closing; cbn; by rewrite Hev|]. by apply selects_and.
    - exists d. split_and!; try done. cbn in H2. destruct (condition d); cbn in *; [intros rc u0|intros v]; rewrite ?H1, H2; [done|done]. }
  cbn [exec_bind fresh rows_Err lsterr]. rewrite Hw1. rewrite bool_decide_eq_true_2 by done. cbn [andb].
  assert (good types d1 d1) as Hg by (split; [done|done|by rewrite Hrc1]).
  destruct (records_loop_done nil_value types fin rest h d1 _ Hs1 put nxtrc Hnxt k s e ds d1 u Hrest Hk Hg) as (r2 & d2 & E & d' & Hg' & -> & Ho).
  fold l in E. rewrite E. cbn [exec_bind]. destruct (reader_Close_is d') as (? & ? & _ & El). eexists _, _. split; [done|]. split; [done|]. split; [done|]. split; [done|].
  rewrite El. destruct Hg' as [_ Es _]. injection Es as Es1 Es2 Es3 Es4 Es5 Es6. rewrite Es6, Hl1, <- Hcl1. unfold closing. by rewrite Es1, Es2, Es3, Es4, Es5.
Qed.

(** ** Concrete readers *)

#[local] Abbreviation demo_rows := (option (dbirows feed)).
#[local] Instance demo_IRows : IRows demo_rows Z Z := dbirows_IRows 0.
#[local] Abbreviation demo_reader := (reader (V := Z) (CT := Z) (U := list (list Z))).

Definition demo_put (rc : record Z Z) (u : list (list Z)) : list (list Z) := u ++ [rc_dta rc].
Definition demo_body : sel (V := Z) (CT := Z) (U := list (list Z)) := λ rc u, Done (true, demo_put rc u).
Definition demo_where : sel (V := Z) (CT := Z) (U := list (list Z)) := λ rc u, Done (demo_picks (rc_dta rc), u).
Definition with_handler_of (d : demo_reader) (h : Z) (own : bool) : demo_reader :=
  MkReader (stmnt d) (rws d) (Some h) own (has_evnts d) (evs d) (has_rc d) (the_rc d) (log d).
Definition demo_disposed : demo_reader := with_events new_reader (MkEvents false None true).

Lemma Records_yields_witness :
  sql_rest (feed_rest [65; 66] None) (demo_feed None) [[1; 2]; [3; 4]; [5; 6]; [7; 8]] ∧
  ∃ r' d', Records 0 4 5 (Some demo_where) demo_body (fresh None (demo_feed None) []) (Some (with_handler_of demo_disposed 7 false)) [] =
      Done (r', Some d', [[1; 2]; [5; 6]; [7; 8]]) ∧
    over None None (Some r') ∧ rws d' = false ∧ stmnt d' = None ∧ log d' = [StatementClosed; ReaderDetached 7; DisposedTold].
Proof.
  assert (sql_rest (feed_rest [65; 66] None) (demo_feed None) [[1; 2]; [3; 4]; [5; 6]; [7; 8]]) as H.
  { eexists _, _. split; [reflexivity|]. split; [reflexivity|]. split; [by repeat constructor|]. by split. }
  split; [exact H|].
  exact (@Records_yields _ _ _ _ demo_IRows 0 [65; 66] None _ (dbirows_source [65; 66] None (feed_rest [65; 66] None) 0)
    None (demo_feed None) [] _ 5 (Some demo_where) (λ _, true) demo_picks demo_put demo_body (with_handler_of demo_disposed 7 false) []
    H ltac:(cbn; lia) eq_refl eq_refl (or_intror eq_refl) ltac:(done) ltac:(done) ltac:(done)).
Defined.

(** A reader that owns its handler does not tell its end. *)
Example owner_not_disposed :
  match Records 0 4 5 (Some demo_where) demo_body (new_rows (demo_feed None)) (Some (with_handler_of demo_disposed 7 true)) [] with
  | Done (_, Some d, l) => l = [[1; 2]; [5; 6]; [7; 8]] ∧ log d = [StatementClosed; HandlerClosed 7]
  | _ => False end.
Proof. vm_compute. by split. Qed.

(** A condition for a reader whose events were never asked for goes through nil. *)
Example Records_no_events :
  Records 0 4 5 (Some demo_where) demo_body (new_rows (demo_feed None)) (Some new_reader) [] = Panic.
Proof. reflexivity. Qed.

(** A condition that comes after the first [Next] does nothing. *)
Example Records_late_condition :
  match reader_Next 0 5 (new_rows (demo_feed None)) demo_disposed [] with
  | Done (_, r, d, u) =>
    match Records 0 4 5 (Some demo_where) demo_body r (Some d) u with Done (_, _, l) => l = [[3; 4]; [5; 6]; [7; 8]] | _ => False end
  | _ => False end.
Proof. vm_compute. reflexivity. Qed.

(** The record that was handed out has no values after the end. *)
Example record_emptied :
  match Records 0 5 5 None demo_body (new_rows (demo_feed None)) (Some new_reader) [] with
  | Done (_, Some d, _) => rc_dta (the_rc d) = [] ∧ rc_rwnr (the_rc d) = 4
  | _ => False end.
Proof. vm_compute. by split. Qed.

(** A failure: the records before it less one, and no error. *)
Example failure_loses_record :
  match Records 0 5 5 None demo_body (new_rows (demo_feed (Some (OtherErr 9)))) (Some new_reader) [] with
  | Done (r, Some d, l) => l = [[1; 2]; [3; 4]; [5; 6]] ∧ rows_Err (Some r) = None
  | _ => False end.
Proof. vm_compute. by split. Qed.

(** ** Fields *)

Lemma column_index_spec `{UnicodeCase} i s cs :
  match column_index i s cs with
  | Some k => ∃ j c, k = (i + j)%nat ∧ cs !! j = Some c ∧ EqualFold (utf8.runes c) (utf8.runes s) = true ∧
      Forall (λ c, EqualFold (utf8.runes c) (utf8.runes s) = false) (take j cs)
  | None => Forall (λ c, EqualFold (utf8.runes c) (utf8.runes s) = false) cs
  end.
Proof.
  revert i. induction cs as [|c cs IH]; intros i; [by constructor|]. cbn. destruct (EqualFold _ _) eqn:E.
  - exists 0%nat, c. split; [lia|]. split_and!; [done|done|by constructor].
  - specialize (IH (Datatypes.S i)). destruct (column_index _ s cs) as [k|].
    + destruct IH as (j & c' & -> & Hj & Hc & Hall). exists (Datatypes.S j), c'. split; [lia|]. split_and!; [done|done|]. by constructor.
    + by constructor.
Qed.

(** A name that no column has is answered with the first value. *)
Example Field_unknown :
  Field (Some (MkRecord 1 [11; 12] [[97]; [98]] [7; 7] true true)) (RName [66]) = Some 12 ∧
  Field (Some (MkRecord 1 [11; 12] [[97]; [98]] [7; 7] true true)) (RName [120]) = Some 11.
Proof. by vm_compute. Qed.
