(* ===== verification/Csv.v ===== *)
(** src/dbdvl/gocsvreader.go: the rows of a CSV file as the rows of a database/sql driver.

    What encoding/csv makes of the file is the interface [CsvSource]; the slices it returns
    share their array from one record to the next, since the code asks for that
    ([ReuseRecord]), and so they are slices of arrays here.  Strings are bytes. *)

From S2P Require Import Prelude Runes GoStrings.
#[local] Open Scope Z_scope.

(** ** Strings as bytes *)

(** [for n, r := range s]: the runes with their offsets. *)
Fixpoint ranged (n : nat) (at_ : Z) (s : list Z) : list (Z * Z) :=
  match n, s with
  | S n', _ :: _ => let '(r, sz) := utf8.DecodeRune s in (at_, r) :: ranged n' (at_ + sz) (drop (Z.to_nat sz) s)
  | _, _ => []
  end.
Definition range_string (s : list Z) : list (Z * Z) := ranged (length s) 0 s.

(** [utf8.DecodeLastRuneInString] of bytes in reverse: at most four are looked at. *)
Fixpoint last_start (n : nat) (back : list Z) (k : nat) : nat :=
  match n, back with
  | S n', b :: back' => if utf8.cont b then last_start n' back' (S k) else k
  | _, _ => k - 1
  end.
Definition DecodeLastRune (s : list Z) : Z * Z :=
  match reverse s with
  | [] => (utf8.RuneError, 0)
  | b :: back =>
    if b <? 128 then (b, 1)
    else
      let k := if utf8.cont b then last_start 3 back 2 else 1%nat in
      let '(r, sz) := utf8.DecodeRune (drop (length s - k) s) in
      if sz =? Z.of_nat k then (r, sz) else (utf8.RuneError, 1)
  end.

(** [strings.TrimFunc] *)
Fixpoint trim_left (n : nat) (f : Z → bool) (s : list Z) : list Z :=
  match n, s with
  | S n', _ :: _ => let '(r, sz) := utf8.DecodeRune s in if f r then trim_left n' f (drop (Z.to_nat sz) s) else s
  | _, _ => s
  end.
Fixpoint trim_right (n : nat) (f : Z → bool) (s : list Z) : list Z :=
  match n, s with
  | S n', _ :: _ => let '(r, sz) := DecodeLastRune s in if f r then trim_right n' f (take (length s - Z.to_nat sz) s) else s
  | _, _ => s
  end.
Definition string_TrimFunc (f : Z → bool) (s : list Z) : list Z :=
  let s := trim_left (length s) f s in trim_right (length s) f s.

(** The digits of [fmt]'s [%d] for a number that is not negative. *)
Fixpoint digits (n : nat) (i : Z) : list Z :=
  match n with
  | O => []
  | S n' => (if 9 <? i then digits n' (i / 10) else []) ++ [48 + i mod 10]
  end.

(** ["Column"] *)
Definition column_word : list Z := [67; 111; 108; 117; 109; 110].
Definition column_name (cn : nat) : list Z := column_word ++ digits 20 (Z.of_nat cn + 1).

(** ** Trimming a value in place *)

(** [for n, r := range v]: no space at [n], a space at [lim-1], or only spaces. *)
Inductive led := Blank | From (n : Z) | Spaces.
Fixpoint lead (lim : Z) (l : list (Z * Z)) : led :=
  match l with
  | [] => Spaces
  | (n, r) :: l' => if IsSpace r then if n =? lim - 1 then Blank else lead lim l' else From n
  end.

(** [for tn := range w]: the bytes are looked at from the end. *)
Fixpoint trail (w : list Z) (l : list (Z * Z)) : exec (list Z * bool) :=
  match l with
  | [] => Done (w, false)
  | (tn, _) :: l' =>
    let* b := index w (len w - (tn + 1)) in
    if IsSpace b then if tn =? len w - 1 then Done ([], false) else trail w l'
    else let* w := slice w 0 (len w - tn) in Done (w, true)
  end.

(** The value as it is stored, and what the destination is set to, if it is. *)
Definition trim_value (lim : Z) (v : list Z) : exec (list Z * option (list Z)) :=
  match lead lim (range_string v) with
  | Spaces => Done (v, None)
  | Blank => Done ([], None)
  | From n =>
    let* w := slice v n (len v) in
    let* '(w, set) := trail w (range_string w) in
    Done (w, if (set : bool) then Some (string_TrimFunc IsSpace w) else None)
  end.

(** ** The reader *)

(** What encoding/csv reads: the fields of a record, with an error or without, or the end. *)
Class CsvSource (R : Type) := {
  csv_next : R → option (list (list Z) * option goerr) * R;
  csv_new : R → Z → Z → R }.

(** [ErrFieldCount] *)
Definition ErrFieldCount : goerr := OtherErr 3.

Section csv.
Context {R : Type} `{!CsvSource R}.

(** A slice: an array and a length. *)
Definition strs : Type := option (nat * nat).

Record gocvsreader := MkCsv {
  Reader : bool;
  source : R;
  FieldsPerRecord : Z;
  lastRecord : strs;
  arrays : list (list (list Z));
  trimvals : bool;
  hdrs : bool;
  firstrecord : strs;
  record : strs;
  lsterr : option goerr;
  cols : strs;
  cr : bool;
  closes : nat }.

Definition with_source (g : gocvsreader) (s : R) (fpr : Z) (l : strs) (a : list (list (list Z))) : gocvsreader :=
  MkCsv (Reader g) s fpr l a (trimvals g) (hdrs g) (firstrecord g) (record g) (lsterr g) (cols g) (cr g) (closes g).
Definition with_arrays (g : gocvsreader) (a : list (list (list Z))) : gocvsreader := with_source g (source g) (FieldsPerRecord g) (lastRecord g) a.
Definition with_lsterr (g : gocvsreader) (e : option goerr) : gocvsreader :=
  MkCsv (Reader g) (source g) (FieldsPerRecord g) (lastRecord g) (arrays g) (trimvals g) (hdrs g) (firstrecord g) (record g) e (cols g) (cr g) (closes g).
Definition with_records (g : gocvsreader) (f r c : strs) : gocvsreader :=
  MkCsv (Reader g) (source g) (FieldsPerRecord g) (lastRecord g) (arrays g) (trimvals g) (hdrs g) f r (lsterr g) c (cr g) (closes g).

Definition slen (s : strs) : nat := match s with Some (_, n) => n | None => 0 end.
Definition strings (g : gocvsreader) (s : strs) : list (list Z) :=
  match s with Some (a, n) => take n (default [] (arrays g !! a)) | None => [] end.

Definition close (g : gocvsreader) : gocvsreader :=
  MkCsv false (source g) (FieldsPerRecord g) (lastRecord g) (arrays g) (trimvals g) (hdrs g) (firstrecord g) (record g) (lsterr g) (cols g) false
    (closes g + if cr g then 1 else 0).
Definition Close (o : option gocvsreader) : exec gocvsreader := match o with Some g => Done (close g) | None => Panic end.

(** [csv.Reader.Read] with [ReuseRecord]. *)
Definition Read (g : gocvsreader) : strs * option goerr * gocvsreader :=
  let '(res, s) := csv_next (source g) in
  match res with
  | None => (None, Some EOF, with_source g s (FieldsPerRecord g) None (arrays g))
  | Some (fs, err) =>
    let n := length fs in
    let '(dst, arrs) :=
      match lastRecord g with
      | Some (a, _) =>
        match arrays g !! a with
        | Some old => if Nat.leb n (length old) then ((a, n), <[a := fs ++ drop n old]> (arrays g)) else ((length (arrays g), n), arrays g ++ [fs])
        | None => ((length (arrays g), n), arrays g ++ [fs])
        end
      | None => ((length (arrays g), n), arrays g ++ [fs])
      end in
    let fpr := FieldsPerRecord g in
    let err := if (0 <? fpr) && negb (Z.of_nat n =? fpr) then match err with None => Some ErrFieldCount | _ => err end else err in
    (Some dst, err, with_source g s (if fpr =? 0 then Z.of_nat n else fpr) (Some dst) arrs)
  end.

(** [s[i] = v] *)
Definition set_string (g : gocvsreader) (s : strs) (i : nat) (v : list Z) : exec gocvsreader :=
  match s with
  | Some (a, n) => if Nat.ltb i n then Done (with_arrays g (alter (λ l, <[i := v]> l) a (arrays g))) else Panic
  | None => Panic
  end.

(** [for rn := range clsl]: every name is trimmed. *)
Fixpoint trim_names (k : nat) (rn : nat) (clsl : Z) (c : strs) (g : gocvsreader) : exec gocvsreader :=
  match k with
  | O => Done g
  | S k' =>
    let* v := index (strings g c) (Z.of_nat rn) in
    let* '(w, _) := trim_value clsl v in
    let* g := set_string g c rn w in
    trim_names k' (S rn) clsl c g
  end.

Definition Columns (o : option gocvsreader) : exec (strs * option gocvsreader) :=
  match o with
  | None => Done (None, None)
  | Some g =>
    match slen (cols g), lsterr g, Reader g with
    | O, None, true =>
      if negb (hdrs g) then
        let '(fr, err, g) := Read g in
        let g := with_records g fr (record g) (cols g) in
        match err with
        | Some _ => Done (cols g, Some (with_lsterr g err))
        | None =>
          if (0 <? slen fr)%nat then
            let c := Some (length (arrays g), slen fr) in
            Done (c, Some (with_records (with_arrays g (arrays g ++ [map column_name (seq 0 (slen fr))])) fr (record g) c))
          else Done (cols g, Some g)
        end
      else
        let '(c, err, g) := Read g in
        match err with
        | Some _ => Done (c, Some (with_lsterr g err))
        | None =>
          let* g := if trimvals g then trim_names (slen c) 0 (Z.of_nat (slen c)) c g else Done g in
          let g := with_records g (firstrecord g) (record g) c in
          Done (c, Some (with_source g (source g) (Z.of_nat (slen c)) (lastRecord g) (arrays g)))
        end
    | _, _, _ => Done (cols g, o)
    end
  end.

(** [for rn := range rcrdl]: the values go to the destination. *)
Fixpoint put_values (k : nat) (rn : nat) (rcrdl : Z) (rec : strs) (dest : list (option (list Z))) (g : gocvsreader)
    : exec (list (option (list Z)) * gocvsreader) :=
  match k with
  | O => Done (dest, g)
  | S k' =>
    let* v := index (strings g rec) (Z.of_nat rn) in
    if trimvals g then
      let* '(w, set) := trim_value rcrdl v in
      let* g := set_string g rec rn w in
      put_values k' (S rn) rcrdl rec (match set with Some d => <[rn := Some d]> dest | None => dest end) g
    else put_values k' (S rn) rcrdl rec (<[rn := Some v]> dest) g
  end.

Definition Next (o : option gocvsreader) (dest : list (option (list Z))) : exec (option goerr * list (option (list Z)) * option gocvsreader) :=
  match o with
  | None => Done (None, dest, None)
  | Some g0 =>
    let first := firstrecord g0 in
    let* '(clsl, err, g) :=
      match slen (cols g0) with
      | O => let* '(c, o) := Columns o in let g := default g0 o in Done (slen c, lsterr g, g)
      | n => Done (n, None, g0)
      end in
    match err with
    | Some _ => Done (err, dest, Some g)
    | None =>
      if Reader g0 then
        let '(rec, err, g) :=
          if Nat.eqb (slen first) clsl then (first, None, with_records g None (record g) (cols g)) else Read g in
        match err with
        | Some _ => Done (err, dest, Some (with_lsterr g err))
        | None =>
          let g := with_records g (firstrecord g) rec (cols g) in
          let n := slen rec in
          if (Nat.eqb n clsl) && (Nat.eqb (length dest) n) then
            let* '(dest, g) := put_values n 0 (Z.of_nat n) rec dest g in Done (None, dest, Some g)
          else Done (None, dest, Some g)
        end
      else Done (None, dest, Some g)
    end
  end.

(** ** newgoreader *)

(** A value of the configuration: a rune, a string, a bool, or something else. *)
Inductive confval := CRune (r : Z) | CString (s : list Z) | CBool (b : bool) | COther.

Record conf := MkConf { comma : Z; headers : bool; comment : Z; trim : bool }.

Definition rune_of (v : confval) (old : Z) : Z :=
  match v with CRune r => r | CString s => match utf8.runes s with r :: _ => r | [] => old end | _ => old end.

(** [coldelim], [comment], [headers] and [trim] *)
Definition k_coldelim : list Z := [99; 111; 108; 100; 101; 108; 105; 109].
Definition k_comment : list Z := [99; 111; 109; 109; 101; 110; 116].
Definition k_headers : list Z := [104; 101; 97; 100; 101; 114; 115].
Definition k_trim : list Z := [116; 114; 105; 109].

Definition configure `{UnicodeCase} (c : conf) (kv : list Z * confval) : conf :=
  let '(k, v) := kv in
  let named w := EqualFold (utf8.runes k) w in
  if named k_coldelim then MkConf (rune_of v (comma c)) (headers c) (comment c) (trim c)
  else if named k_comment then MkConf (comma c) (headers c) (rune_of v (comment c)) (trim c)
  else if named k_headers then MkConf (comma c) (match v with CBool b => b | _ => headers c end) (comment c) (trim c)
  else if named k_trim then MkConf (comma c) (headers c) (comment c) (match v with CBool b => b | _ => trim c end)
  else c.

(** The pairs come in the order in which Go goes over the map. *)
Definition newgoreader `{UnicodeCase} (r : R) (l : list (list Z * confval)) (closer : bool) : gocvsreader :=
  let c := fold_left configure l (MkConf 59 true 0 false) in
  MkCsv true (csv_new r (comma c) (if comma c =? comment c then 0 else comment c)) 0 None [] (trim c) (headers c) None None None None closer 0.
End csv.

(** * Theory *)

Abbreviation ascii v := (Forall (λ b, 0 ≤ b < 128) v).

(** ** Trimming *)

Fixpoint enum (at_ : Z) (v : list Z) : list (Z * Z) :=
  match v with [] => [] | b :: v' => (at_, b) :: enum (at_ + 1) v' end.

Lemma DecodeRune_ascii b v : b < 128 → utf8.DecodeRune (b :: v) = (b, 1).
Proof. intros H. cbn. by rewrite (proj2 (Z.ltb_lt _ _) H). Qed.

Lemma ranged_ascii n at_ v : ascii v → (length v ≤ n)%nat → ranged n at_ v = enum at_ v.
Proof.
  intros Hv. revert n at_. induction Hv as [|b v [_ Hb] Hv IH]; intros [|n] at_ Hn; try done; [cbn in Hn; lia|].
  cbn [ranged enum]. rewrite DecodeRune_ascii by done. change (drop (Z.to_nat 1) (b :: v)) with v. rewrite IH; [done|cbn in Hn; lia].
Qed.

Lemma range_string_ascii v : ascii v → range_string v = enum 0 v.
Proof. intros. by apply ranged_ascii. Qed.

Lemma lead_from lim at_ sp c t : Forall (λ b, IsSpace b = true) sp → IsSpace c = false → at_ + len sp < lim →
  lead lim (enum at_ (sp ++ c :: t)) = From (at_ + len sp).
Proof.
  intros Hsp Hc. revert at_. induction Hsp as [|b sp Hb Hsp IH]; intros at_ Hl; cbn [app enum lead].
  - rewrite Hc. f_equal. cbn. lia.
  - rewrite Hb. cbn [length] in Hl. destruct (Z.eqb_spec at_ (lim - 1)); [lia|]. rewrite IH by lia. f_equal. cbn [length]. lia.
Qed.

Lemma index_app_r {A} (l : list A) x r : index (l ++ x :: r) (len l) = Done x.
Proof. unfold index. destruct (Z.leb_spec 0 (len l)); [|lia]. by rewrite Nat2Z.id, list_lookup_middle. Qed.

Lemma trail_cut x c sp k s1 l : IsSpace c = false → Forall (λ b, IsSpace b = true) sp → sp = k ++ s1 → length l = length (x ++ c :: k) →
  trail (x ++ c :: sp) (enum (len s1) l) = Done (x ++ [c], true).
Proof.
  intros Hc Hsp. revert s1 l. induction k as [|b k IH] using rev_ind; intros s1 l E Hl.
  - cbn in E. subst s1. destruct l as [|y l]; [rewrite length_app in Hl; cbn in Hl; lia|]. cbn [enum trail].
    replace (len (x ++ c :: sp) - (len sp + 1)) with (len x) by (rewrite length_app; cbn; lia). rewrite index_app_r. cbn [exec_bind]. rewrite Hc.
    unfold slice. rewrite (proj2 (Z.leb_le _ _)) by lia. replace (len (x ++ c :: sp) - len sp) with (len (x ++ [c])) by (rewrite !length_app; cbn; lia).
    rewrite (proj2 (Z.leb_le _ _)), (proj2 (Z.leb_le _ _)) by (rewrite !length_app; cbn; lia). cbn [andb exec_bind]. unfold sub.
    rewrite drop_0, Z.sub_0_r, Nat2Z.id. change (c :: sp) with ([c] ++ sp). by rewrite app_assoc, take_app_length.
  - destruct l as [|y l]; [rewrite length_app in Hl; cbn in Hl; lia|]. cbn [enum trail].
    assert (x ++ c :: sp = (x ++ c :: k) ++ b :: s1) as Esp by (subst sp; by simplify_list_eq).
    assert (len (x ++ c :: sp) - (len s1 + 1) = len (x ++ c :: k)) as -> by (rewrite Esp, !length_app; cbn; lia).
    assert (index (x ++ c :: sp) (len (x ++ c :: k)) = Done b) as -> by (rewrite Esp; apply index_app_r). cbn [exec_bind].
    assert (IsSpace b = true) as ->. { subst sp. rewrite !Forall_app in Hsp. destruct Hsp as [[_ Hb] _]. by inversion Hb. }
    destruct (Z.eqb_spec (len s1) (len (x ++ c :: sp) - 1)) as [H|_]; [rewrite Esp, !length_app in H; cbn in H; lia|].
    replace (len s1 + 1) with (len (b :: s1)) by (cbn; lia). apply IH; [by simplify_list_eq|]. rewrite !length_app in *. cbn in *. rewrite length_app in Hl. cbn in Hl. lia.
Qed.

Lemma trim_left_head n f b v : b < 128 → f b = false → trim_left n f (b :: v) = b :: v.
Proof. intros Hb Hf. destruct n; [done|]. cbn [trim_left]. rewrite DecodeRune_ascii by done. by rewrite Hf. Qed.

Lemma trim_right_last n f v b : b < 128 → f b = false → trim_right n f (v ++ [b]) = v ++ [b].
Proof.
  intros Hb Hf. destruct n; [done|]. cbn [trim_right]. destruct (v ++ [b]) as [|y l] eqn:E; [done|]. rewrite <- E. unfold DecodeLastRune.
  rewrite reverse_app. cbn. by rewrite (proj2 (Z.ltb_lt _ _) Hb), Hf.
Qed.

(** Spaces, a text that begins and ends with none, and spaces. *)
Lemma trimmed_split f v : TrimFunc f v ≠ [] → ∃ sp x c sp2, v = sp ++ x ++ [c] ++ sp2 ∧ Forall (λ b, f b = true) sp ∧ Forall (λ b, f b = true) sp2 ∧
  f c = false ∧ match x with b :: _ => f b = false | [] => True end ∧ TrimFunc f v = x ++ [c] ∧ TrimLeftFunc f v = x ++ [c] ++ sp2.
Proof.
  intros H. destruct (TrimLeftFunc_split f v) as (sp & E & Hsp). pose proof (TrimLeftFunc_head f v) as Hh. set (w := TrimLeftFunc f v) in *.
  destruct (TrimRightFunc_split f w) as (sp2 & E2 & Hsp2). pose proof (TrimRightFunc_head f w Hh) as Hh2. change (TrimFunc f v) with (TrimRightFunc f w) in *.
  destruct (exists_last H) as (x & c & Ex). rewrite Ex in E2, Hh2. exists sp, x, c, sp2. rewrite <- app_assoc in E2. split_and!; try done.
  - by rewrite <- E2.
  - pose proof (TrimLeftFunc_head f (reverse w)) as Hr. assert (TrimLeftFunc f (reverse w) = reverse (x ++ [c])) as Er.
    { rewrite <- Ex. unfold TrimRightFunc. by rewrite reverse_involutive. }
    rewrite Er, reverse_app in Hr. exact Hr.
  - by destruct x.
Qed.

(** A value of ASCII is trimmed as [strings.TrimFunc] trims it, when fewer spaces are before
    its text than the record has values. *)
Lemma trim_value_ascii lim v : ascii v → TrimFunc IsSpace v ≠ [] → len v - len (TrimLeftFunc IsSpace v) < lim →
  trim_value lim v = Done (TrimFunc IsSpace v, Some (TrimFunc IsSpace v)).
Proof.
  intros Ha Hn Hl. destruct (trimmed_split IsSpace v Hn) as (sp & x & c & sp2 & E & Hsp & Hsp2 & Hc & Hx & Et & Ew). rewrite Et. rewrite Ew in Hl.
  assert (ascii (x ++ [c])) as Hxc by (rewrite E, app_assoc in Ha; rewrite (app_assoc x) in E; rewrite E in *; rewrite !Forall_app in *; tauto).
  assert (∃ b w, x ++ [c] ++ sp2 = b :: w ∧ IsSpace b = false) as (b & w & Ebw & Hb) by (destruct x as [|b x]; eexists _, _; by split).
  unfold trim_value. rewrite range_string_ascii by done. rewrite E, Ebw.
  rewrite lead_from; [|done|done|]. 2: { rewrite E, (length_app sp) in Hl. lia. }
  rewrite Z.add_0_l. assert (slice (sp ++ b :: w) (len sp) (len (sp ++ b :: w)) = Done (b :: w)) as ->.
  { unfold slice. rewrite length_app. rewrite (proj2 (Z.leb_le _ _)), (proj2 (Z.leb_le _ _)), (proj2 (Z.leb_le _ _)) by lia. cbn [andb]. f_equal.
    rewrite <- length_app, sub_to_end by lia. rewrite Nat2Z.id. apply drop_app_length. }
  cbn [exec_bind]. rewrite range_string_ascii by (rewrite <- Ebw, app_assoc, Forall_app; rewrite E, !Forall_app in Ha; tauto). rewrite <- Ebw.
  change ([c] ++ sp2) with (c :: sp2). change (enum 0 (x ++ c :: sp2)) with (enum (len (@nil Z)) (x ++ c :: sp2)).
  rewrite (trail_cut x c sp2 sp2 [] (x ++ c :: sp2) Hc Hsp2 (eq_sym (app_nil_r sp2)) eq_refl). cbn [exec_bind]. do 3 f_equal.
  unfold string_TrimFunc. assert (∀ n, trim_left n IsSpace (x ++ [c]) = x ++ [c]) as ->.
  { intros n. destruct x as [|y x]; apply trim_left_head; try done; inversion Hxc; lia. }
  apply trim_right_last; [|done]. rewrite Forall_app in Hxc. destruct Hxc as [_ Hxc]. inversion Hxc as [|? ? []]. lia.
Qed.

(** ** Rows *)

(** A file with the records [recs] still to read. *)
Class CsvRecords {R} `{!CsvSource R} (rest : R → list (list (list Z)) → Prop) := {
  csv_end r : rest r [] → ∃ r', csv_next r = (None, r');
  csv_more r fs recs : rest r (fs :: recs) → ∃ r', csv_next r = (Some (fs, None), r') ∧ rest r' recs }.

Lemma insert_alter {A} (f : A → A) (l : list A) a v : <[a := v]> (alter f a l) = <[a := v]> l.
Proof. revert a. induction l as [|x l IH]; intros [|a]; try done. cbn. f_equal. apply IH. Qed.

Section rows.
Context {R : Type} `{!CsvSource R} (rest : R → list (list (list Z)) → Prop) `{!CsvRecords rest} (n : nat) (trims : bool).
Implicit Types g : gocvsreader (R := R).

(** What a value becomes, and when trimming works as it should. *)
Definition clean (v : list Z) : list Z := if trims then TrimFunc IsSpace v else v.
Definition cleanable (v : list Z) : Prop :=
  trims = true → ascii v ∧ TrimFunc IsSpace v ≠ [] ∧ len v - len (TrimLeftFunc IsSpace v) < Z.of_nat n.

Lemma trim_value_clean v : trims = true → cleanable v → trim_value (Z.of_nat n) v = Done (clean v, Some (clean v)).
Proof. intros Ht Hv. unfold clean. rewrite Ht. destruct (Hv Ht) as (? & ? & ?). by apply trim_value_ascii. Qed.

(** The array of the records, once one was read. *)
Definition arrays_ok g : Prop :=
  match lastRecord g with
  | None => True
  | Some (a, _) => ∃ old, arrays g !! a = Some old ∧ length old = n
  end.

Lemma Read_ok g fs recs : rest (source g) (fs :: recs) → length fs = n → FieldsPerRecord g = 0 ∨ FieldsPerRecord g = Z.of_nat n → arrays_ok g →
  ∃ a s arrs, Read g = (Some (a, n), None, with_source g s (Z.of_nat n) (Some (a, n)) arrs) ∧ arrs !! a = Some fs ∧ rest s recs.
Proof.
  intros Hr Hn Hf Ha. destruct (csv_more _ _ _ Hr) as (s & E & Hs). unfold Read. rewrite E, Hn.
  assert ((if FieldsPerRecord g =? 0 then Z.of_nat n else FieldsPerRecord g) = Z.of_nat n) as -> by (destruct Hf as [-> | ->]; [done|by destruct (_ =? 0)]).
  assert ((0 <? FieldsPerRecord g) && negb (Z.of_nat n =? FieldsPerRecord g) = false) as ->.
  { destruct Hf as [-> | ->]; [done|]. by rewrite Z.eqb_refl, andb_false_r. }
  assert ((arrays g ++ [fs]) !! length (arrays g) = Some fs) as Hnew by by apply list_lookup_middle.
  unfold arrays_ok in Ha. destruct (lastRecord g) as [[a k]|].
  - destruct Ha as (old & Eo & Hl). rewrite Eo, Hl, Nat.leb_refl. eexists _, _, _. split; [done|]. split; [|done].
    rewrite list_lookup_insert_eq by (by eapply lookup_lt_Some). by rewrite drop_ge, app_nil_r by lia.
  - by eexists _, _, _.
Qed.

(** The loop over the values of a record. *)
Lemma put_values_clean a todo : ∀ done_ ddone dtodo g, trimvals g = trims → arrays g !! a = Some (done_ ++ todo) → length (done_ ++ todo) = n →
  length ddone = length done_ → length dtodo = length todo → Forall cleanable todo →
  put_values (length todo) (length done_) (Z.of_nat n) (Some (a, n)) (ddone ++ dtodo) g =
    Done (ddone ++ map (λ v, Some (clean v)) todo, with_arrays g (<[a := done_ ++ map clean todo]> (arrays g))).
Proof.
  induction todo as [|v todo IH]; intros done_ ddone dtodo g Ht Ha Hn Hd Hd2 Hc.
  - destruct dtodo; [|done]. cbn. rewrite list_insert_id by done. by destruct g.
  - destruct dtodo as [|d dtodo]; [done|]. inversion Hc as [|? ? Hv Hvs]. subst. cbn [length put_values].
    assert (index (strings g (Some (a, n))) (len done_) = Done v) as ->.
    { cbn [strings]. rewrite Ha. cbn [from_option id]. rewrite take_ge by lia. apply index_app_r. }
    cbn [exec_bind]. assert (<[length done_ := Some (clean v)]> (ddone ++ d :: dtodo) = (ddone ++ [Some (clean v)]) ++ dtodo) as Ed.
    { rewrite <- Hd, insert_app_r_alt, Nat.sub_diag by lia. cbn. by rewrite <- app_assoc. }
    assert (length (done_ ++ [clean v]) = S (length done_)) as El by (rewrite length_app; cbn; lia).
    specialize (IH (done_ ++ [clean v]) (ddone ++ [Some (clean v)]) dtodo).
    destruct (trimvals g) eqn:Et.
    + rewrite trim_value_clean by (congruence || done). cbn [exec_bind]. unfold set_string. rewrite (proj2 (Nat.ltb_lt _ _)) by (rewrite length_app in Hn; cbn in Hn; lia).
      cbn [exec_bind]. rewrite Ed, <- El. erewrite IH.
      * f_equal. f_equal; [by rewrite <- app_assoc|]. unfold with_arrays. cbn. f_equal. rewrite <- app_assoc. cbn.
        apply insert_alter.
      * cbn. congruence.
      * cbn. rewrite list_lookup_alter_eq, Ha. cbn. f_equal. rewrite insert_app_r_alt, Nat.sub_diag by lia. cbn. by rewrite <- app_assoc.
      * rewrite <- Hn, !length_app. cbn. lia.
      * rewrite !length_app. cbn. lia.
      * cbn in Hd2. lia.
      * done.
    + assert (clean v = v) as Ecv by (unfold clean; by rewrite <- Ht). rewrite Ecv in *. rewrite Ed, <- El. erewrite IH.
      * f_equal. f_equal; [rewrite <- app_assoc; cbn; by rewrite Ecv|]. f_equal. f_equal. rewrite <- app_assoc. cbn. by rewrite Ecv.
      * congruence.
      * by rewrite <- app_assoc.
      * rewrite <- Hn, !length_app. cbn. lia.
      * rewrite !length_app. cbn. lia.
      * cbn in Hd2. lia.
      * done.
Qed.

Lemma trim_names_clean a todo : ∀ done_ g, trims = true → arrays g !! a = Some (done_ ++ todo) → length (done_ ++ todo) = n → Forall cleanable todo →
  trim_names (length todo) (length done_) (Z.of_nat n) (Some (a, n)) g = Done (with_arrays g (<[a := done_ ++ map clean todo]> (arrays g))).
Proof.
  induction todo as [|v todo IH]; intros done_ g Ht Ha Hn Hc.
  - cbn. rewrite list_insert_id by done. by destruct g.
  - inversion Hc as [|? ? Hv Hvs]. subst. cbn [length trim_names].
    assert (index (strings g (Some (a, n))) (len done_) = Done v) as ->.
    { cbn [strings]. rewrite Ha. cbn [from_option id]. rewrite take_ge by lia. apply index_app_r. }
    cbn [exec_bind]. assert (length (done_ ++ [clean v]) = S (length done_)) as El by (rewrite length_app; cbn; lia).
    rewrite trim_value_clean by done. cbn [exec_bind]. unfold set_string. rewrite (proj2 (Nat.ltb_lt _ _)) by (rewrite length_app in Hn; cbn in Hn; lia).
    cbn [exec_bind]. rewrite <- El. specialize (IH (done_ ++ [clean v])). erewrite IH.
    + f_equal. unfold with_arrays. cbn. f_equal. rewrite <- app_assoc. cbn. apply insert_alter.
    + done.
    + cbn. rewrite list_lookup_alter_eq, Ha. cbn. f_equal. rewrite insert_app_r_alt, Nat.sub_diag by lia. cbn. by rewrite <- app_assoc.
    + rewrite <- Hn, !length_app. cbn. lia.
    + done.
Qed.

(** The reader between two rows, its columns named. *)
Record reading (recs : list (list (list Z))) g : Prop := {
  cr_reader : Reader g = true;
  cr_rest : rest (source g) recs;
  cr_fpr : FieldsPerRecord g = Z.of_nat n;
  cr_arrays : arrays_ok g;
  cr_first : firstrecord g = None;
  cr_cols : slen (cols g) = n;
  cr_trim : trimvals g = trims }.

(** Calls [Next] with the same destination until it answers an error, as database/sql does. *)
Fixpoint next_all (m : nat) (o : option (gocvsreader (R := R))) (dest : list (option (list Z))) : exec (list (list (option (list Z))) * goerr) :=
  match m with
  | O => NoFuel
  | S m' =>
    let* '(err, dest, o) := Next o dest in
    match err with
    | Some e => Done ([], e)
    | None => let* '(l, e) := next_all m' o dest in Done (dest :: l, e)
    end
  end.

Definition cleaned (fs : list (list Z)) : list (option (list Z)) := map (λ v, Some (clean v)) fs.

(** The values of a record that was read go to the destination. *)
Lemma put_record a fs recs dest g : n ≠ 0%nat → arrays g !! a = Some fs → length fs = n → Forall cleanable fs → length dest = n →
  Reader g = true → rest (source g) recs → FieldsPerRecord g = Z.of_nat n → lastRecord g = Some (a, n) → slen (cols g) = n → trimvals g = trims →
  firstrecord g = None →
  ∃ g', put_values n 0 (Z.of_nat n) (Some (a, n)) dest (with_records g (firstrecord g) (Some (a, n)) (cols g)) = Done (cleaned fs, g') ∧ reading recs g'.
Proof.
  intros Hn0 Ha Hf Hc Hd Hre Hr Hfp Hl Hcl Ht Hfr. pose proof (put_values_clean a fs [] [] dest (with_records g (firstrecord g) (Some (a, n)) (cols g))) as H.
  rewrite Hf in H. cbn in H. rewrite H; try done. eexists. split; [done|]. split; try done.
  unfold arrays_ok. cbn. rewrite Hl. eexists. rewrite list_lookup_insert_eq by (by eapply lookup_lt_Some). split; [done|]. by rewrite length_map.
Qed.

Lemma Next_row fs recs dest g : n ≠ 0%nat → reading (fs :: recs) g → length fs = n → Forall cleanable fs → length dest = n →
  ∃ g', Next (Some g) dest = Done (None, cleaned fs, Some g') ∧ reading recs g'.
Proof.
  intros Hn0 [] Hf Hc Hd. unfold Next. rewrite cr_cols0. destruct n as [|n'] eqn:En; [done|]. rewrite <- En in *. cbn [exec_bind].
  rewrite cr_reader0, cr_first0. cbn [slen]. rewrite (proj2 (Nat.eqb_neq _ _)) by lia.
  destruct (Read_ok g fs recs) as (a & s & arrs & -> & Ea & Hs); [done|done|by right|done|]. cbn [slen]. rewrite <- Hd, !Nat.eqb_refl. cbn [andb]. rewrite Hd.
  destruct (put_record a fs recs dest (with_source g s (Z.of_nat n) (Some (a, n)) arrs)) as (g' & E & Hg'); try done.
  rewrite E. cbn [exec_bind]. by eexists.
Qed.

Lemma next_all_rows recs : ∀ g dest, n ≠ 0%nat → reading recs g → Forall (λ fs, length fs = n) recs → Forall (Forall cleanable) recs → length dest = n →
  next_all (S (length recs)) (Some g) dest = Done (map cleaned recs, EOF).
Proof.
  induction recs as [|fs recs IH]; intros g dest Hn0 Hg Hl Hc Hd.
  - cbn [next_all length]. unfold Next. destruct Hg. rewrite cr_cols0. destruct n as [|n'] eqn:En; [done|]. cbn [exec_bind]. rewrite cr_reader0, cr_first0. cbn [slen Nat.eqb].
    destruct (csv_end _ cr_rest0) as (r' & E). unfold Read. by rewrite E.
  - inversion Hl. inversion Hc. subst. destruct (Next_row fs recs dest g) as (g' & E & Hg'); try done.
    change (length (fs :: recs)) with (S (length recs)). cbn [next_all]. rewrite E. cbn [exec_bind]. specialize (IH g' (cleaned fs)).
    cbn [next_all] in IH. rewrite IH; try done. unfold cleaned. by rewrite length_map.
Qed.

(** C31: the rows of a CSV file: [Columns] answers the values of the first record, or Column1,
    Column2 and so on when the file has no headers, and [Next] gives the records that follow,
    or all of them, in their order and then [io.EOF].  With trimming the names and values are
    trimmed as [strings.TrimFunc] trims them, provided that they are ASCII, not blank, and have
    fewer spaces before their text than the record has values. *)
Theorem csv_delivers r closer named fs recs dest :
  rest r (fs :: recs) → n ≠ 0%nat → Forall (λ fs, length fs = n) (fs :: recs) → Forall (Forall cleanable) (fs :: recs) → length dest = n →
  ∃ c g, Columns (Some (MkCsv true r 0 None [] trims named None None None None closer 0)) = Done (c, Some g) ∧
    strings g c = (if named then map clean fs else map column_name (seq 0 n)) ∧
    next_all (S (length (if named then recs else fs :: recs))) (Some g) dest = Done (map cleaned (if named then recs else fs :: recs), EOF).
Proof.
  intros Hr Hn0 Hl Hc Hd. inversion Hl as [|? ? Hf Hls]. inversion Hc as [|? ? Hcf Hcs]. subst x x0 l l0. unfold Columns. cbn [slen cols lsterr Reader hdrs].
  destruct (Read_ok (MkCsv true r 0 None [] trims named None None None None closer 0) fs recs) as (a & s & arrs & E & Ea & Hs); [done|done|by left|done|].
  rewrite E. destruct named; cbn [negb].
  - assert (∃ arr, (if trims then trim_names n 0 (Z.of_nat n) (Some (a, n)) (with_source (MkCsv true r 0 None [] trims true None None None None closer 0) s (Z.of_nat n) (Some (a, n)) arrs)
        else Done (with_source (MkCsv true r 0 None [] trims true None None None None closer 0) s (Z.of_nat n) (Some (a, n)) arrs)) =
        Done (with_arrays (MkCsv true s (Z.of_nat n) (Some (a, n)) [] trims true None None None None closer 0) arr) ∧ arr !! a = Some (map clean fs)) as (arr & Eg & Hg).
    { destruct trims eqn:Et.
      - pose proof (trim_names_clean a fs [] (with_source (MkCsv true r 0 None [] true true None None None None closer 0) s (Z.of_nat n) (Some (a, n)) arrs)) as H.
        rewrite Hf in H. cbn in H. rewrite H; try done. eexists. split; [done|]. apply list_lookup_insert_eq. by eapply lookup_lt_Some.
      - exists arrs. split; [done|]. rewrite Ea. f_equal. unfold clean. rewrite Et. by rewrite map_id. }
    cbn [trimvals with_source slen]. cbn [with_source] in Eg. rewrite Eg. cbn [exec_bind]. eexists _, _. split; [done|]. split.
    + cbn. rewrite Hg. cbn. apply take_ge. by rewrite length_map, Hf.
    + apply next_all_rows; try done. split; try done. unfold arrays_ok. cbn. eexists. split; [exact Hg|]. by rewrite length_map.
  - cbn [slen]. rewrite (proj2 (Nat.ltb_lt _ _)) by lia. eexists _, _. split; [done|]. split.
    + cbn. rewrite list_lookup_middle by done. cbn. apply take_ge. by rewrite length_map, length_seq.
    + match goal with |- next_all _ (Some ?g1) _ = _ => assert (∃ g', Next (Some g1) dest = Done (None, cleaned fs, Some g') ∧ reading recs g') as (g' & E' & Hg') end.
      { unfold Next. cbn [cols with_records slen exec_bind]. destruct n as [|n'] eqn:En; [done|]. rewrite <- En in *. cbn [exec_bind].
        cbn [Reader firstrecord with_records with_arrays with_source slen]. rewrite <- Hd, !Nat.eqb_refl. cbn [andb slen]. rewrite Hd.
        match goal with |- context [put_values n 0 (Z.of_nat n) (Some (a, n)) dest (with_records ?g0 _ _ _)] =>
          destruct (put_record a fs recs dest g0) as (g' & E' & Hg'); try done end.
        { cbn. by apply lookup_app_l_Some. }
        rewrite E'. by eexists. }
      change (length (fs :: recs)) with (S (length recs)). cbn [next_all]. rewrite E'. cbn [exec_bind].
      pose proof (next_all_rows recs g' (cleaned fs) Hn0 Hg' Hls Hcs) as H. cbn [next_all] in H. rewrite H; [done|]. unfold cleaned. by rewrite length_map.
Qed.
End rows.

(** ** Concrete files: the records themselves *)

#[local] Instance list_source : CsvSource (list (list (list Z))) := {
  csv_next r := match r with fs :: r' => (Some (fs, None), r') | [] => (None, []) end;
  csv_new r _ _ := r }.

#[local] Instance list_records : CsvRecords (λ r recs, r = recs).
Proof. split; [intros r ->; by eexists|intros r fs recs ->; by eexists]. Qed.

(** [ID], [ Name ] and the rows [1], [ Ada ] and [2 ], [Bob]. *)
Definition demo_file : list (list (list Z)) := [[[73; 68]; [32; 78; 97; 109; 101; 32]]; [[49]; [32; 65; 100; 97; 32]]; [[50; 32]; [66; 111; 98]]].
Definition demo_conf : list (list Z * confval) := [([84; 114; 105; 109], CBool true)].

Lemma csv_delivers_witness :
  2%nat ≠ 0%nat ∧ newgoreader demo_file demo_conf false = MkCsv true demo_file 0 None [] true true None None None None false 0 ∧
  ∃ c g, Columns (Some (newgoreader demo_file demo_conf false)) = Done (c, Some g) ∧ strings g c = [[73; 68]; [78; 97; 109; 101]] ∧
    next_all 3 (Some g) [None; None] = Done ([[Some [49]; Some [65; 100; 97]]; [Some [50]; Some [66; 111; 98]]], EOF).
Proof.
  split; [done|]. split; [reflexivity|].
  refine (csv_delivers (λ r recs, r = recs) 2 true demo_file false true [[73; 68]; [32; 78; 97; 109; 101; 32]]
    [[[49]; [32; 65; 100; 97; 32]]; [[50; 32]; [66; 111; 98]]] [None; None] eq_refl ltac:(done) _ _ eq_refl); [by repeat constructor|].
  repeat (apply List.Forall_cons || apply List.Forall_nil); intros _; (split; [repeat (apply List.Forall_cons; [lia|]); apply List.Forall_nil|]);
    (split; [by vm_compute|by vm_compute]).
Defined.

(** As many spaces before a text as the record has values: the text is lost. *)
Example leading_spaces_lose : trim_value 2 [32; 32; 97; 98] = Done ([], None).
Proof. reflexivity. Qed.

(** A text that ends in a letter whose last byte is 160, as a with grave accent: not set. *)
Example accent_not_set : trim_value 2 [195; 160] = Done ([195; 160], None).
Proof. reflexivity. Qed.
(** After another letter it is cut in two. *)
Example accent_cut : trim_value 2 [98; 195; 160] = Done ([98; 195], Some [98; 195]).
Proof. reflexivity. Qed.

Definition file_rows (file : list (list (list Z))) (c : list (list Z * confval)) : exec (list (list (option (list Z))) * goerr) :=
  let* '(_, o) := Columns (Some (newgoreader file c false)) in next_all 9 o [None; None].

(** With trimming, an empty value repeats the value of the row before. *)
Example empty_repeats : file_rows [[[97]; [98]]; [[49]; [50]]; [[51]; []]] demo_conf =
  Done ([[Some [49]; Some [50]]; [Some [51]; Some [50]]], EOF).
Proof. vm_compute. reflexivity. Qed.

(** The names of the columns become the values of the row that was read. *)
Example names_overwritten :
  match Columns (Some (newgoreader [[[97]; [98]]; [[49]; [50]]] [] false)) with
  | Done (c, Some g) =>
    strings g c = [[97]; [98]] ∧
    match Next (Some g) [None; None] with
    | Done (_, _, Some g) => match Columns (Some g) with Done (c, Some g) => strings g c = [[49]; [50]] | _ => False end
    | _ => False end
  | _ => False end.
Proof. vm_compute. by split. Qed.

(** Without headers and before [Columns] the first two rows change places, and the first has
    the values of the second, whose slice it shares. *)
Example first_row_lost :
  match newgoreader [[[97]; [98]]; [[49]; [50]]; [[51]; [52]]] [([104; 101; 97; 100; 101; 114; 115], CBool false)] false with
  | g => next_all 9 (Some g) [None; None] = Done ([[Some [49]; Some [50]]; [Some [49]; Some [50]]; [Some [51]; Some [52]]], EOF)
  end.
Proof. vm_compute. reflexivity. Qed.

(** [Close] of nil goes through it. *)
Example Close_nil : Close (R := list (list (list Z))) None = Panic.
Proof. reflexivity. Qed.
