(* ===== verification/Dlv.v ===== *)
(** src/dbdvl/driver.go, connection.go and stmt.go: the driver that makes the rows of a query
    from a CSV file or a reader ([Csv]).

    What a connection finds its files with, and the readers, are types of their own; the
    connections of a driver are numbers, their order of making, in the map of [IterMap]. *)

From S2P Require Import Prelude Runes GoStrings IterMap Csv.
From stdpp Require Import gmap.
#[local] Open Scope Z_scope.

(** A connection is known by its number, none is 0. *)
#[export] Instance conn_entries : Entries (list Z) Z := {
  empty_name k := bool_decide (k = []);
  value_Equal a b := Done (a =? b);
  zero_value := 0 }.

Section dlv.
Context `{UnicodeCase}.
(** A file system is known by what it finds; whether a reader can be closed. *)
Context {RD : Type} `{!CsvSource RD} (is_closer : RD → bool).
#[local] Abbreviation Stat := (list Z → option RD).

(** What an argument is: the first of these that holds. *)
Inductive darg := AFsys (f : Stat) | ARuneReader (r : RD) (is_reader : bool) | AIoReader (r : RD) | AConf (c : list (list Z * confval)) | AOther.

Record dvlConn := MkConn { lkupPath : list Z; has_dvr : bool }.

Record dlvStmnt := MkStmnt {
  fsys : option Stat;
  rdr : option RD;
  rnr : option RD;
  conn : option dvlConn;
  query : list Z;
  input : Z;
  conf_ : list (list Z * confval) }.

Definition stmnt_Close (o : option dlvStmnt) : option dlvStmnt :=
  match o with Some d => Some (MkStmnt None (rdr d) (rnr d) None (query d) (input d) (conf_ d)) | None => None end.
Definition NumInput (o : option dlvStmnt) : Z := match o with Some d => input d | None => -1 end.

(** The statement keeps the reader it found, which is a reader of runes too. *)
Definition stmnt_QueryContext (o : option dlvStmnt) : option (gocvsreader (R := RD)) * option dlvStmnt :=
  match o with
  | None => (None, None)
  | Some d =>
    let found := match fsys d, conn d with Some stat, Some c => stat (lkupPath c ++ 47 :: query d) | _, _ => None end in
    let d := match found with Some r => MkStmnt (fsys d) (Some r) (Some r) (conn d) (query d) (input d) (conf_ d) | None => d end in
    let close := match found with Some _ => true | None => false end in
    (match rdr d with Some r => Some (newgoreader r (conf_ d) (close && is_closer r)) | None => None end, Some d)
  end.

Definition conn_Close (o : option dvlConn) : option dvlConn := match o with Some c => Some (MkConn (lkupPath c) false) | None => None end.

Definition PrepareContext (o : option dvlConn) (q : list Z) : option dlvStmnt :=
  match o with Some c => Some (MkStmnt None None None (Some c) q 1 []) | None => None end.
Definition Prepare := PrepareContext.

(** The first of each kind is taken, the others of a kind that is known are dropped. *)
Definition or_else {A} (a b : option A) : option A := match a with Some _ => a | None => b end.
Definition take_darg (s : dlvStmnt) (a : darg) : dlvStmnt :=
  let set f r n c := MkStmnt f r n (conn s) (query s) (input s) c in
  match a with
  | AFsys f => set (or_else (fsys s) (Some f)) (rdr s) (rnr s) (conf_ s)
  | ARuneReader r isr =>
    match rnr s with
    | None => set (fsys s) (if (isr : bool) then or_else (rdr s) (Some r) else rdr s) (Some r) (conf_ s)
    | Some _ => s
    end
  | AIoReader r => set (fsys s) (or_else (rdr s) (Some r)) (rnr s) (conf_ s)
  | AConf c => set (fsys s) (rdr s) (rnr s) (match conf_ s with [] => c | _ => conf_ s end)
  | AOther => s
  end.

Definition conn_QueryContext (o : option dvlConn) (q : list Z) (args : list darg) : option (gocvsreader (R := RD)) :=
  match o, args with
  | Some c, _ :: _ => (stmnt_QueryContext (Some (fold_left take_darg args (MkStmnt None None None (Some c) q 0 [])))).1
  | _, _ => None
  end.
End dlv.

(** ** The driver *)

(** Its connections, by the name they are opened with and in the order of their making. *)
Record dvlDriver := MkDriver { names : option (itermap (K := list Z) (V := Z)); made : list dvlConn }.

Definition NewDriver : dvlDriver := MkDriver (Some MapIterator) [].

(** [Open]: the number of the connection, and 0 for none. *)
Definition Open (o : option dvlDriver) (name : list Z) : exec (Z * option dvlDriver) :=
  match o with
  | None => Done (0, None)
  | Some d =>
    match names d with
    | None => Done (0, o)
    | Some _ =>
      let '(cn, found) := IterMap.Get (names d) name in
      if (found : bool) then Done (cn, o)
      else
        let cn := len (made d) + 1 in
        let* '(itr, _) := IterMap.Set_ (names d) name cn in
        Done (cn, Some (MkDriver itr (made d ++ [MkConn name true])))
    end
  end.

Definition driver_Events (o : option dvlDriver) : option dvlDriver * option MapIterateEvents :=
  match o with
  | None => (None, None)
  | Some d =>
    match names d with
    | None => (o, None)
    | Some _ => let '(itr, e) := IterMap.Events (names d) in (Some (MkDriver itr (made d)), e)
    end
  end.

(** The methods that hide those of the map: Clear, Close, Contains, Delete, Get, Iterate, Set. *)
Definition unimplemented : exec unit := Panic.

(** * Theory *)

(** The map knows the connections that were made. *)
Definition driver_ok (d : dvlDriver) : Prop :=
  ∃ m ev, names d = Some (MkIterMap (Some m) ev) ∧
    ∀ name cn, m !! name = Some cn → name ≠ [] ∧ 1 ≤ cn ∧ ∃ b, made d !! Z.to_nat (cn - 1) = Some (MkConn name b).

Lemma Open_ok d name : driver_ok d →
  ∃ cn d', Open (Some d) name = Done (cn, Some d') ∧ driver_ok d' ∧ 1 ≤ cn ∧ (∃ b, made d' !! Z.to_nat (cn - 1) = Some (MkConn name b)) ∧
    (name ≠ [] → IterMap.Get (names d') name = (cn, true)).
Proof.
  intros (m & ev & En & Hm). unfold Open. rewrite En. unfold IterMap.Get, IterMap.Set_. cbn [orgsncmp empty_name conn_entries].
  assert (∃ b, made (MkDriver (Some (MkIterMap (Some m) ev)) (made d ++ [MkConn name true])) !! Z.to_nat (len (made d) + 1 - 1) = Some (MkConn name b)) as Hnew.
  { exists true. cbn. replace (Z.to_nat (len (made d) + 1 - 1)) with (length (made d)) by lia. by apply list_lookup_middle. }
  destruct (decide (name = [])) as [->|Hname].
  - rewrite bool_decide_eq_true_2 by done. cbn [exec_bind].
    eexists _, _. split; [done|]. split; [|split; [lia|]; by split]. exists m, ev. split; [done|]. intros name cn E. destruct (Hm name cn E) as (? & ? & b & Eb).
    split; [done|]. split; [done|]. exists b. cbn. by apply lookup_app_l_Some.
  - rewrite bool_decide_eq_false_2 by done. destruct (m !! name) as [cn|] eqn:E.
    + destruct (Hm name cn E) as (_ & Hcn & b & Eb). eexists _, _. split; [done|]. split; [by exists m, ev|]. split; [done|]. split; [by exists b|]. intros _. rewrite En.
      cbn. by rewrite ?E.
    + cbn [exec_bind]. eexists _, _. split; [done|]. split.
      * exists (<[name := len (made d) + 1]> m), ev. split; [done|]. intros name' cn' E'. apply lookup_insert_Some in E'. destruct E' as [[<- <-]|[_ E']].
        -- split; [done|]. split; [lia|]. exact Hnew.
        -- destruct (Hm name' cn' E') as (? & ? & b & Eb). split; [done|]. split; [done|]. exists b. cbn. by apply lookup_app_l_Some.
      * split; [lia|]. split; [exact Hnew|]. intros _. cbn [names orgsncmp]. by rewrite lookup_insert_eq.
Qed.

(** Opening a name again gives the same connection. *)
Lemma Open_again d name : driver_ok d → name ≠ [] →
  ∃ cn d', Open (Some d) name = Done (cn, Some d') ∧ Open (Some d') name = Done (cn, Some d').
Proof.
  intros Hd Hn. destruct (Open_ok d name Hd) as (cn & d' & E & (m & ev & En & _) & _ & _ & Hg). exists cn, d'. split; [done|]. unfold Open. rewrite Hg by done. by rewrite En.
Qed.

(** The file that is found is what the query reads, whatever readers are given. *)
Lemma query_reads_file `{UnicodeCase} {RD} `{!CsvSource RD} (is_closer : RD → bool) c q args stat r :
  fsys (fold_left take_darg args (MkStmnt None None None (Some c) q 0 [])) = Some stat → stat (lkupPath c ++ 47 :: q) = Some r →
  conn_QueryContext is_closer (Some c) q args =
    Some (newgoreader r (conf_ (fold_left take_darg args (MkStmnt None None None (Some c) q 0 []))) (is_closer r)).
Proof.
  intros Hf Hs. destruct args as [|a args]; [done|]. unfold conn_QueryContext, stmnt_QueryContext. set (s := fold_left _ _ _) in *.
  assert (conn s = Some c ∧ query s = q) as [-> ->].
  { subst s. clear. generalize (a :: args). intros l. assert (∀ s0 : dlvStmnt (RD := RD), conn s0 = Some c ∧ query s0 = q → conn (fold_left take_darg l s0) = Some c ∧ query (fold_left take_darg l s0) = q) as H0; [|by apply H0].
    induction l as [|x l IH]; [done|]. intros s0 [? ?]. cbn. apply IH. destruct x; cbn; try done. by destruct (rnr s0). }
  rewrite Hf, Hs. done.
Qed.
