(* ===== verification/Code.v ===== *)
(** src/template/code.go: the code a template is turned into.  The text outside the
    code marks goes to the page as it is until the first code; after that it becomes
    calls that print it, with the holes [{@ ... @}] in it as expressions of a
    template literal ([processInline]).

    The content parser a code parser belongs to is known here by its buffer [cbf] and
    by the element levels of it and of the parsers around it, which do not change
    while a text is parsed.  [fuel] bounds the readers that are read to their end;
    the results of the writes, which the code ignores, are ignored. *)

From S2P Require Import Prelude Runes Readers RuneReaders Buffer BufferCursor BuffReader MapReader Parsing.
From stdpp Require Import gmap.
#[local] Open Scope Z_scope.

Definition CdePre : list Z := [60; 37].
Definition CdePost : list Z := [37; 62].
Definition PsvPre : list Z := [123; 64].
Definition PsvPost : list Z := [64; 125].

(** ** processInline: the holes of a text *)

Definition write_runes (rns : list Z) (b : Buffer) : exec Buffer :=
  let* '(_, _, b') := WriteRunes b rns in Done b'.

Definition inline_pre (rns : list Z) (b : Buffer) (p : Parsing) : exec (Buffer * Parsing) :=
  let* b' := write_runes rns b in Done (b', p).

Definition inline_open (b : Buffer) (p : Parsing) : exec (Buffer * Parsing) :=
  let* b' := write_runes [36; 123] b in Done (b', p).

Definition inline_post (canreset : bool) (rns : list Z) (b : Buffer) (p : Parsing)
  : exec (bool * Buffer * Parsing) :=
  let* b1 := if canreset then write_runes rns b else Done b in
  let* b2 := write_runes rns b1 in Done (canreset, b2, p).

Definition inline_close (b : Buffer) (p : Parsing) : exec (bool * Buffer * Parsing) :=
  let* b' := write_runes [125] b in Done (false, b', p).

Definition inline_events : events Buffer :=
  MkEvents None (Some inline_pre) (Some inline_open) None (Some inline_post) (Some inline_close).

Definition print_text (fuel : nat) (s : list Z) (b : Buffer) : exec Buffer :=
  if bool_decide (s = []) then Done b
  else let* '(_, b') := Print fuel b [PString s] in Done b'.

Definition processInline {R} `{!RuneReader R} (fuel : nat) (pre post : list Z) (inrdr : R) (cdebf : Buffer)
  : exec Buffer :=
  let* b1 := print_text fuel pre cdebf in
  let* '(b2, _) := Process inline_events fuel (Some inrdr) b1 (nextparsing PsvPre PsvPost None None) in
  print_text fuel post b2.

(** ** codeparsing *)

Inductive ElemLevel := ElemUnkown | ElemStart | ElemSingle | ElemEnd.

Record codeparsing := MkCode {
  fndcde : bool;
  hsecde : bool;
  psvbf : option Buffer;
  cdebf : option Buffer;
  cbf : option Buffer }.

Definition set_flags (s : codeparsing) (fnd hse : bool) : codeparsing :=
  MkCode fnd hse (psvbf s) (cdebf s) (cbf s).
Definition set_psvbf (s : codeparsing) (b : option Buffer) : codeparsing :=
  MkCode (fndcde s) (hsecde s) b (cdebf s) (cbf s).
Definition set_cdebf (s : codeparsing) (b : option Buffer) : codeparsing :=
  MkCode (fndcde s) (hsecde s) (psvbf s) b (cbf s).
Definition set_cbf (s : codeparsing) (b : option Buffer) : codeparsing :=
  MkCode (fndcde s) (hsecde s) (psvbf s) (cdebf s) b.

Definition validLastCdeRune (cr : Z) : bool :=
  existsb (Z.eqb cr) [61; 40; 91; 44; 43; 47; 58].

(** The texts of a script's template literals: [`] and [${] escaped.  The keys of the
    map, in the order MapReplaceReader sorts them. *)
Definition text_map : gmap (list Z) mval :=
  {[ [96] := MStr [92; 96]; [36; 123] := MStr [92; 36; 92; 123] ]}.
Definition text_keys : list (list Z) := [[36; 123]; [96]].

(** A reader made with that map, maybe closed by an error.  No rune takes
    more than 16 rounds (see [escaper_read]). *)
Definition escaper := rdstate (mapreader anyrdr unit) unit.

#[export] Instance escaper_reader : RuneReader escaper := λ o,
  match o with
  | Open m => map_ReadRune text_map as_it_is 16 text_keys m
  | Closed t => Done (0, 0, Some EOF, Closed t)
  end.

Definition escaper_of (txtrdr : anyrdr) : exec escaper :=
  let* m := MapReplaceReader (Some txtrdr) text_map text_keys [] tt in
  Done match m with Plain _ m' => Open m' | PrePost _ => Closed tt end.

(** [ReadRuneFunc]: a rune already read, then the reader. *)
Record reread := MkReread { rr_r : Z; rr_size : Z; rr_rest : escaper }.

#[export] Instance reread_reader : RuneReader reread := λ x,
  if 0 <? rr_r x then Done (rr_r x, rr_size x, None, MkReread 0 (rr_size x) (rr_rest x))
  else let* '(r, n, err, rest) := read_rune (rr_rest x) in
       Done (r, n, err, MkReread (rr_r x) (rr_size x) rest).

Section code.
Context (levels : list ElemLevel) (fuel : nat).

(** The parser itself or one around it is inside an element. *)
Definition noncode : bool :=
  existsb (λ l, match l with ElemStart => true | _ => false end) levels.

(** [c.content()]: its buffer, made when there is none. *)
Definition to_content (f : Buffer → exec Buffer) (s : codeparsing) : exec codeparsing :=
  let* b := match cbf s with Some b => Done b | None => NewBuffer fuel [] end in
  let* b' := f b in Done (set_cbf s (Some b')).

Definition buffer_to (src : Buffer) (w : Buffer) : exec Buffer :=
  let* '(_, _, w') := Buffer.WriteTo (Some src) w in Done w'.

(** [cdebf.Print(pre, txtrdr, post)], without the texts that are empty here: Fprint
    reads the reader with ReadRunesFrom and stops at an error that is not the end. *)
Definition print_reader (pre : list Z) (e : escaper) (post : list Z) (b : Buffer) : exec Buffer :=
  let* b1 := print_text fuel pre b in
  let* '(_, err, b2, _) := ReadRunesFrom fuel b1 e in
  match err with
  | Some (OtherErr _) => Done b2
  | _ => print_text fuel post b2
  end.

(** [posttxtprs.alttxtr = '`'] *)
Definition set_alttxtr (p : Parsing) : Parsing :=
  set_txts p (pretxtprs p)
    match posttxtprs p with
    | Some t => Some (MkText 96 (txtr t) (txt_prvr t) (lstr t))
    | None => None
    end.

Definition texttocode (isinline : bool) (txtrdr : anyrdr) (s : codeparsing) (p : Parsing)
  : exec (codeparsing * Parsing) :=
  let* cde0 := match cdebf s with Some b => Done b | None => NewBuffer fuel [] end in
  let s0 := set_flags (set_cdebf s (Some cde0)) true (hsecde s) in
  let* lstr := LastByte (Some cde0) true in
  let* lb := LastByte (Some cde0) false in
  let isspace := IsSpace lb in
  let istxt := IsTxtPar lstr in
  let* e := escaper_of txtrdr in
  let wrote b := Done (set_cdebf s0 (Some b), p) in
  if istxt || (validLastCdeRune lstr && (negb (lstr =? 47) || ((lstr =? 47) && negb isspace))) then
    if istxt then
      if negb (lstr =? 96) then
        if isinline then
          let* '(r, sz, _, e') := read_rune e in
          if 0 <? sz then
            let* sub := SubBuffer fuel (Some cde0) [0; Buffer.Size (Some cde0) - 1] in
            let* b := processInline fuel [96] [] (MkReread r sz e') sub in
            Done (set_cdebf s0 (Some b), set_alttxtr p)
          else Done (s0, p)
        else let* b := print_reader [] e [] cde0 in wrote b
      else if isinline then let* b := processInline fuel [] [] e cde0 in wrote b
      else let* b := print_reader [] e [] cde0 in wrote b
    else if isinline then let* b := processInline fuel [96] [96] e cde0 in wrote b
    else let* b := print_reader [96] e [96] cde0 in wrote b
  else if isinline then
    let* b := processInline fuel [112; 114; 105; 110; 116; 40; 96] [96; 41; 59] e cde0 in wrote b
  else
    let* b := print_reader [112; 114; 105; 110; 116; 40; 96] e [96; 41; 59] cde0 in
    wrote b.

(** The text read so far goes to the page or to the code, and is cleared. *)
Definition flushPsv (s : codeparsing) (p : Parsing) : exec (codeparsing * Parsing) :=
  match psvbf s with
  | None => Done (s, p)
  | Some psv =>
    if Buffer.Empty (Some psv) then Done (s, p)
    else if noncode then
      let* s1 := to_content (buffer_to psv) s in
      Done (set_psvbf s1 (Buffer.Clear (Some psv)), p)
    else
      let* c1 := Contains (Some psv) PsvPre in
      let* contnsinle := if (c1 : bool) then Contains (Some psv) PsvPost else Done false in
      let fnd := fndcde s || contnsinle in
      let s0 := set_flags s fnd (hsecde s) in
      if negb fnd then
        let* s1 := to_content (buffer_to psv) s0 in
        Done (set_psvbf s1 (Buffer.Clear (Some psv)), p)
      else
        let* cde0 := match cdebf s0 with Some b => Done b | None => NewBuffer fuel [] end in
        let* '(cln, psv') := Clone (Some psv) true in
        let* rd := BuffReader.Reader (Some cln) NoContext true [] in
        let s1 := set_psvbf (set_cdebf s0 (Some cde0)) psv' in
        let* '(s2, p2) := texttocode contnsinle (AnyRdr (option BuffReader) _ rd) s1 p in
        Done (set_psvbf s2 (Buffer.Clear (psvbf s2)), p2)
  end.

Definition passiveRunes (rns : list Z) (s : codeparsing) (p : Parsing) : exec (codeparsing * Parsing) :=
  let s1 := set_flags s (fndcde s) false in
  let* b := match psvbf s1 with
            | Some psv => write_runes rns psv
            | None => NewBuffer fuel [PRunes rns]
            end in
  Done (set_psvbf s1 (Some b), p).

Definition startCaptureCode (s : codeparsing) (p : Parsing) : exec (codeparsing * Parsing) :=
  if noncode then
    let* '(s1, p1) := flushPsv s p in
    let* s2 := to_content (write_runes (prelbl p1)) s1 in Done (s2, p1)
  else Done (s, p).

Definition codeRunes (canreset : bool) (rns : list Z) (s : codeparsing) (p : Parsing)
  : exec (bool * codeparsing * Parsing) :=
  let* '(s1, p1) :=
    if hsecde s then Done (s, p)
    else
      let* '(s', p') := flushPsv (set_flags s (fndcde s) true) p in
      Done (set_flags s' true (hsecde s'), p') in
  let* b := match cdebf s1 with
            | Some cde => write_runes rns cde
            | None => NewBuffer fuel [PRunes rns]
            end in
  Done (false, set_cdebf s1 (Some b), p1).

Definition doneCaptureCode (s : codeparsing) (p : Parsing) : exec (bool * codeparsing * Parsing) :=
  if noncode then
    let* s1 :=
      match cdebf s with
      | Some cde =>
        if Buffer.Empty (Some cde) then Done s
        else let* s' := to_content (buffer_to cde) s in
             Done (set_cdebf s' (Buffer.Clear (Some cde)))
      | None => Done s
      end in
    let* s2 := to_content (write_runes (postlbl p)) s1 in Done (true, s2, p)
  else Done (true, s, p).

Definition code_events : events codeparsing :=
  MkEvents None (Some passiveRunes) (Some startCaptureCode) None (Some codeRunes) (Some doneCaptureCode).

Definition new_code : codeparsing := MkCode false false None None None.

Definition nextCodeParsing (parsepretxt parseposttxt : bool) (pre post : list Z) : codeparsing * Parsing :=
  (new_code,
   nextparsing pre post (if parsepretxt then Some new_text else None) (if parseposttxt then Some new_text else None)).

Definition code_Parse (rns : list Z) (s : codeparsing) (p : Parsing) : exec (codeparsing * Parsing) :=
  Parse code_events rns s p.

Definition code_reset (s : codeparsing) (p : Parsing) : codeparsing * Parsing :=
  (MkCode false false (Buffer.Clear (psvbf s)) (Buffer.Clear (cdebf s)) (cbf s), set_pos p 0 0 0).
End code.

(** * Theory *)

Lemma print_text_appends fuel s b :
  wf b → is_bytes s →
  ∃ b', print_text fuel s b = Done b' ∧ appended b (encode_all (utf8.runes s)) b'.
Proof.
  intros Hw Hs. unfold print_text. case_bool_decide as E.
  - subst s. exists b. split; [done|]. by apply appended_refl.
  - destruct (proj2 (Fprint_spec fuel) [PString s] (encode_all (utf8.runes s) ++ [])) with (w := b)
      as (b' & Hp & Ha); [|done|].
    + constructor; [by constructor|constructor].
    + unfold Print, Fprint. rewrite Hp. cbn [exec_bind]. rewrite app_nil_r in Ha. eauto.
Qed.

Lemma write_runes_appends rns b :
  wf b → valid_runes rns →
  ∃ b', write_runes rns b = Done b' ∧ appended b (encode_all rns) b'.
Proof.
  intros Hw Hv. unfold write_runes. destruct (WriteRunes_appends b rns Hw Hv) as (b' & -> & Ha). cbn. eauto.
Qed.

(** ** processInline *)

Definition inline_tok (t : tok) : list Z :=
  match t with TLit r => [r] | TOpen => [36; 123] | TKey r => [r] | TClose => [125] end.

Definition inline_text (ts : list tok) : list Z := concat (map inline_tok ts).

Lemma inline_text_app a b : inline_text (a ++ b) = inline_text a ++ inline_text b.
Proof. unfold inline_text. by rewrite map_app, concat_app. Qed.

Lemma inline_text_runes (f : Z → tok) rns :
  (∀ r, inline_tok (f r) = [r]) → inline_text (map f rns) = rns.
Proof. intros Hf. unfold inline_text. induction rns as [|r rns IH]; [done|]. cbn. by rewrite Hf, IH. Qed.

Definition inline_state (b0 b : Buffer) (ts : list tok) : Prop :=
  appended b0 (encode_all (inline_text ts)) b.

Lemma inline_write b0 b ts rns u :
  inline_state b0 b ts → valid_runes rns → inline_text u = rns →
  ∃ b', write_runes rns b = Done b' ∧ inline_state b0 b' (ts ++ u).
Proof.
  intros Hb Hv <-. destruct (write_runes_appends (inline_text u) b) as (b' & -> & Ha); [by eapply appended_wf|done|].
  exists b'. split; [done|]. unfold inline_state. rewrite inline_text_app, encode_all_app.
  by eapply appended_trans.
Qed.

(** A partial [@}] is written twice when it is given up. *)
Definition twice (l : list Z) : list Z := l ++ l.

Lemma inline_handles b0 :
  handles (λ r, utf8.ValidRune r = true) (λ _, True) inline_events (inline_state b0) (Some twice).
Proof.
  split; [done|done|done| | | |].
  - eexists; split; [done|]. intros rns b p ts Hv _ Hb _.
    destruct (inline_write b0 b ts rns (map TLit rns) Hb Hv) as (b' & E & Hb'); [by apply inline_text_runes|].
    exists b'. unfold inline_pre. by rewrite E.
  - intros b p ts Hb _.
    destruct (inline_write b0 b ts [36; 123] [TOpen] Hb) as (b' & E & Hb'); [by repeat constructor|done|].
    exists b'. cbn. unfold inline_open. by rewrite E.
  - eexists; split; [done|]. intros c rns b p ts out Hv _ Hb _. subst out.
    rewrite (bool_decide_eq_true_2 (is_Some _)) by eauto. rewrite andb_true_r. unfold inline_post.
    destruct c; cbn [exec_bind].
    + destruct (inline_write b0 b ts rns (map TKey rns) Hb Hv) as (b1 & -> & Hb1); [by apply inline_text_runes|].
      cbn [exec_bind].
      destruct (inline_write b0 b1 _ rns (map TKey rns) Hb1 Hv) as (b2 & -> & Hb2); [by apply inline_text_runes|].
      exists b2. split; [done|]. unfold twice. by rewrite map_app, app_assoc.
    + destruct (inline_write b0 b ts rns (map TKey rns) Hb Hv) as (b1 & -> & Hb1); [by apply inline_text_runes|].
      by exists b1.
  - eexists; split; [done|]. intros b p ts Hb _.
    destruct (inline_write b0 b ts [125] [TClose] Hb) as (b' & E & Hb'); [by repeat constructor|done|].
    exists false, b'. unfold inline_close. by rewrite E.
Qed.

(** What a text becomes, holes or not. *)
Definition inline_run (rs : list Z) : list Z :=
  inline_text (machine_run PsvPre PsvPost (Some twice) false (Outside 0) rs).2.

Lemma processInline_machine {R} `{RuneSource R} fuel pre post rd rs cdebf :
  wf cdebf → is_bytes pre → is_bytes post → pending rd rs → valid_runes rs → (length rs < fuel)%nat →
  ∃ b, processInline fuel pre post rd cdebf = Done b ∧
    appended cdebf (encode_all (utf8.runes pre) ++ encode_all (inline_run rs) ++ encode_all (utf8.runes post)) b.
Proof.
  intros Hw Hpre Hpost Hp Hv Hf. unfold processInline.
  destruct (print_text_appends fuel pre cdebf) as (b1 & -> & Hb1); [done..|]. cbn [exec_bind].
  pose proof (appended_wf _ _ _ Hb1) as Hw1.
  destruct (Process_machine inline_events (inline_state b1) (Some twice) PsvPre PsvPost false false
    (λ r, utf8.ValidRune r = true) (λ _, True) (inline_handles b1) ltac:(done) ltac:(by repeat constructor)
    ltac:(by repeat constructor) fuel rd rs (Outside 0) b1
    (nextparsing PsvPre PsvPost None None) []) as (b2 & p2 & -> & _ & _ & Hb2); try done.
  - unfold inline_state. by apply appended_refl.
  - by apply nextparsing_at.
  - cbn; lia.
  - cbn; lia.
  - cbn; lia.
  - cbn [exec_bind app] in *.
    destruct (print_text_appends fuel post b2) as (b3 & -> & Hb3); [by eapply appended_wf|done|].
    exists b3. split; [done|]. eapply appended_trans; [done|]. by eapply appended_trans.
Qed.

(** The holes become expressions; of the last text a [{] at its end is dropped. *)
Definition hole (g : list Z * list Z) : list Z := g.1 ++ [36; 123] ++ g.2 ++ [125].
Definition kept (l : list Z) : list Z := if decide (List.last l 0 = 123) then removelast l else l.
Definition inlined (gs : list (list Z * list Z)) (l : list Z) : list Z := concat (map hole gs) ++ kept l.

Lemma inline_text_toks gs : inline_text (toks gs) = concat (map hole gs).
Proof.
  unfold toks. induction gs as [|[l k] gs IH]; [done|]. cbn [map concat].
  rewrite inline_text_app, IH. f_equal. unfold seg_toks, hole. cbn [fst snd].
  rewrite !inline_text_app, !inline_text_runes by done. done.
Qed.

Lemma PsvPre_head : distinct_head PsvPre.
Proof. exists 123, [64]. split; [done|]. by apply not_elem_of_cons; split; [done|apply not_elem_of_nil]. Qed.

Lemma run_kept gs l :
  Forall (seg_ok PsvPre PsvPost false) gs → ¬ occurs_in PsvPre l → ∀ reset,
  ∃ m, machine_run PsvPre PsvPost reset false (Outside 0) (source PsvPre PsvPost gs ++ l) =
    (m, toks gs ++ map TLit (kept l)).
Proof.
  intros Hgs Hl reset. assert (Forall (unquoted false) PsvPost) as Hq by by repeat constructor.
  destruct (run_template PsvPre PsvPost reset false gs l) as (k & w & Hr & Hk & Hw);
    [apply PsvPre_head|done|cbn; lia|done|done|].
  exists (Outside k). rewrite Hr. do 3 f_equal. unfold kept.
  destruct k as [|[|k]]; [| |cbn in Hk; lia]; cbn in Hw.
  - rewrite app_nil_r in Hw. subst w. destruct (decide (List.last l 0 = 123)) as [E|E]; [|done]. exfalso.
    destruct l as [|x l _] using rev_ind; [done|]. rewrite List.last_last in E. subst x.
    rewrite machine_run_app, run_segs in Hr; [|apply PsvPre_head|done|cbn; lia|done].
    destruct (machine_run PsvPre PsvPost reset false (Outside 0) (l ++ [123])) as [m t] eqn:E.
    injection Hr as -> _. apply run_held in E; [lia|cbn; lia|done|].
    intros Ho. apply Hl. by apply occurs_in_prefix.
  - subst l. rewrite List.last_last, decide_True by done. by rewrite removelast_last.
Qed.

Lemma inline_run_segs gs l :
  Forall (seg_ok PsvPre PsvPost false) gs → ¬ occurs_in PsvPre l →
  inline_run (source PsvPre PsvPost gs ++ l) = inlined gs l.
Proof.
  intros Hgs Hl. unfold inline_run. destruct (run_kept gs l Hgs Hl (Some twice)) as (m & ->). cbn [snd].
  by rewrite inline_text_app, inline_text_toks, inline_text_runes by done.
Qed.

(** C14: processInline appends to the code the text before, the template with each
    hole [{@key@}] written as [${key}] and its text as it is, and the text after; of
    the last text only a [{] at its very end, which could begin a hole, is missing.  The
    template is of valid runes: texts in which [{@] does not occur, and holes in whose keys
    no [@] occurs ([inline_at_sign] has one in which it does). *)
Theorem processInline_expands {R} `{RuneSource R} fuel pre post rd gs l cdebf :
  wf cdebf → is_bytes pre → is_bytes post →
  Forall (seg_ok PsvPre PsvPost false) gs → ¬ occurs_in PsvPre l →
  pending rd (source PsvPre PsvPost gs ++ l) → valid_runes (source PsvPre PsvPost gs ++ l) →
  (length (source PsvPre PsvPost gs ++ l) < fuel)%nat →
  ∃ b, processInline fuel pre post rd cdebf = Done b ∧ wf b ∧
    contents b = contents cdebf ++ encode_all (utf8.runes pre) ++
      encode_all (concat (map hole gs) ++ kept l) ++ encode_all (utf8.runes post).
Proof.
  intros Hw Hpre Hpost Hgs Hl Hp Hv Hf.
  destruct (processInline_machine fuel pre post rd _ cdebf Hw Hpre Hpost Hp Hv Hf) as (b & E & Hb1 & _ & Hb3).
  exists b. split; [done|]. split; [done|]. by rewrite inline_run_segs in Hb3.
Qed.

(** ** The text of a template literal

    [`] and [${] are escaped; a [$] at the very end, which could begin [${], is lost. *)
Fixpoint escape (l : list Z) : list Z :=
  match l with
  | [] => []
  | x :: l1 =>
    if x =? 36 then
      match l1 with
      | [] => []
      | y :: l2 => if y =? 123 then [92; 36; 92; 123] ++ escape l2 else 36 :: escape l1
      end
    else if x =? 96 then [92; 96] ++ escape l1
    else x :: escape l1
  end.

(** What [OrgRune] still delivers. *)
Definition org_holds (m : mapreader anyrdr unit) (l : list Z) : Prop :=
  ∃ rs, l = orgrnes m ++ rs ∧ (length (orgrnes m) ≤ 1)%nat ∧ bfrdr m = None ∧
    (orgreadrne m = None ∧ rs = [] ∨ ∃ t, orgreadrne m = Some t ∧ pending t rs).

Lemma org_cons m r l :
  org_holds m (r :: l) → utf8.ValidRune r = true →
  ∃ n m', OrgRune m = Done (r, n, None, m') ∧ 0 < n ∧ org_holds m' l ∧ orgrnes m' = [] ∧ bfrnes m' = bfrnes m.
Proof.
  intros (rs & Hl & Hlen & Hbf & Hrd) Hv. unfold OrgRune. destruct (orgrnes m) as [|x org]; cbn in Hl, Hlen.
  - subst rs. destruct Hrd as [(_ & ?)|(t & -> & Hp)]; [done|].
    destruct (pending_cons t r l Hp) as (n & t' & -> & Hn & Hp'). cbn [exec_bind]. zsimp.
    eexists _, _. split; [done|]. split; [done|]. split; [|done]. exists l. split_and!; [done|cbn; lia|done|].
    right. eauto.
  - injection Hl as <- ->. destruct org; [|cbn in Hlen; lia]. pose proof (RuneLen_pos r Hv).
    eexists _, _. split; [done|]. split; [lia|]. split; [|done]. exists rs. split_and!; [done|cbn; lia|done|done].
Qed.

Lemma org_nil m :
  org_holds m [] → ∃ r m', OrgRune m = Done (r, 0, Some EOF, m') ∧ org_holds m' [] ∧ bfrnes m' = bfrnes m.
Proof.
  intros (rs & Hl & Hlen & Hbf & Hrd). symmetry in Hl. apply app_eq_nil in Hl as [Ho ->].
  unfold OrgRune. rewrite Ho. destruct Hrd as [(E & _)|(t & E & Hp)]; rewrite E.
  - exists 0, m. split; [done|]. split; [|done]. exists []. rewrite Ho. split_and!; [done|cbn; lia|done|by left].
  - destruct (pending_nil t Hp) as (r & t' & Hr & Hp').
    rewrite Hr. cbn [exec_bind]. zsimp.
    eexists _, _. split; [done|]. split; [|done]. exists []. split_and!; [done|cbn; lia|done|by left].
Qed.

Lemma org_holds_bfr m l bf : org_holds m l → org_holds (set_bfr m bf None) l.
Proof. intros (rs & ? & ? & ? & ?). by exists rs. Qed.

Lemma org_holds_back m l x : org_holds m l → orgrnes m = [] → org_holds (to_orgrnes m [x]) (x :: l).
Proof.
  intros (rs & -> & _ & ? & ?) E. rewrite E. exists rs. cbn. rewrite E. split_and!; [done|cbn; lia|done|done].
Qed.

#[local] Abbreviation from fuel l m := (map_ReadRune_from text_map as_it_is fuel text_keys l m).

Lemma capture_back_quote (m : mapreader anyrdr unit) :
  capture text_map as_it_is m [96] = Done (true, to_bfrnes m [92; 96]).
Proof. reflexivity. Qed.

Lemma capture_dollar (m : mapreader anyrdr unit) :
  capture text_map as_it_is m [36; 123] = Done (true, to_bfrnes m [92; 36; 92; 123]).
Proof. reflexivity. Qed.

(** A read of what a replacement left. *)
Lemma read_left fuel m x bf l :
  org_holds m l → bfrnes m = x :: bf → valid_runes (x :: bf) →
  ∃ m', from (S fuel) m_rdbf m = Done (x, utf8.RuneLen x, None, Open m') ∧ 0 < utf8.RuneLen x ∧
    org_holds m' l ∧ bfrnes m' = bf.
Proof.
  intros Ho Hb Hv. inversion Hv as [|? ? Hx _]; subst. pose proof (RuneLen_pos x Hx).
  cbn [map_ReadRune_from]. unfold read_buffered.
  pose proof Ho as (rs & _ & _ & Hbf & _). rewrite Hbf. cbn [exec_bind]. rewrite Hb. cbn [exec_bind].
  eexists. split; [done|]. split; [lia|]. split; [rewrite Hbf; by apply org_holds_bfr|done].
Qed.

Definition esc_result (res : exec (Z * Z * option goerr * rdstate (mapreader anyrdr unit) unit)) (out : list Z) (I : mapreader anyrdr unit → list Z → Prop) : Prop :=
  match out with
  | [] => ∃ r m', res = Done (r, 0, Some EOF, Open m') ∧ I m' []
  | x :: out' => ∃ n m', res = Done (x, n, None, Open m') ∧ 0 < n ∧ I m' out'
  end.

(** What an escaping reader delivers. *)
Definition esc_holds (m : mapreader anyrdr unit) (out : list Z) : Prop :=
  ∃ l, org_holds m l ∧ valid_runes l ∧ valid_runes (bfrnes m) ∧ out = bfrnes m ++ escape l.

Lemma esc_left fuel m bf x l :
  org_holds m l → valid_runes l → bfrnes m = x :: bf → valid_runes (x :: bf) →
  esc_result (from (S fuel) m_rdbf m) (x :: bf ++ escape l) esc_holds.
Proof.
  intros Ho Hl Hb Hv. destruct (read_left fuel m x bf l Ho Hb Hv) as (m' & E & Hn & Ho' & Hb').
  rewrite E. cbn. eexists _, m'. split; [done|]. split; [done|]. exists l. rewrite Hb'. inversion Hv. done.
Qed.

Lemma escape_dollar y l : y ≠ 123 → escape (36 :: y :: l) = 36 :: escape (y :: l).
Proof. intros Hy. change (escape (36 :: y :: l)) with (if y =? 123 then [92; 36; 92; 123] ++ escape l else 36 :: escape (y :: l)). by destruct (Z.eqb_spec y 123). Qed.

(** After a [$]. *)
Lemma esc_dollar fuel m l :
  org_holds m l → valid_runes l → orgrnes m = [] → bfrnes m = [] →
  esc_result (from (5 + fuel) (m_chnxtr [[36; 123]] [36] []) m) (escape (36 :: l)) esc_holds.
Proof.
  intros Ho Hl Horg Hb. cbn [Nat.add map_ReadRune_from narrow]. change (take (length [36]) [36; 123]) with [36].
  rewrite bool_decide_eq_true_2 by done. cbn [length Nat.eqb]. cbn [map_ReadRune_from].
  change (len [[36; 123]] =? 0) with false. cbv iota. destruct l as [|y l].
  - destruct (org_nil m Ho) as (r & m' & -> & Ho' & Hb'). cbn [exec_bind]. change (0 <? 0) with false. cbv iota.
    change (0 <? len (@nil Z)) with false. cbv iota. cbn. eexists _, m'. split; [done|].
    exists []. rewrite Hb', Hb. done.
  - inversion Hl as [|? ? Hy Hl']; subst.
    destruct (org_cons m y l Ho Hy) as (n & m' & -> & Hn & Ho' & Horg' & Hb'). cbn [exec_bind]. zsimp.
    cbn [map_ReadRune_from narrow app]. change (take (length [36; y]) [36; 123]) with [36; 123].
    destruct (decide (y = 123)) as [->|Hne].
    + rewrite bool_decide_eq_true_2 by done. cbn [length Nat.eqb from_option id map_ReadRune_from].
      change (len (@nil (list Z)) =? 0) with true. change (len [36; 123] =? 0) with false. cbv iota.
      change (len [36; 123] <? len [36; 123]) with false. cbv iota. rewrite capture_dollar. cbn [exec_bind].
      cbn [escape]. apply (esc_left fuel (to_bfrnes m' [92; 36; 92; 123]) [36; 92; 123] 92 l); [|done| |].
      * pose proof Ho' as (? & _ & _ & E & _). unfold to_bfrnes. rewrite E. by apply org_holds_bfr.
      * cbn. by rewrite Hb', Hb.
      * by repeat constructor.
    + rewrite bool_decide_eq_false_2 by congruence. cbn [length from_option id map_ReadRune_from].
      change (len (@nil (list Z)) =? 0) with true. change (len (@nil Z) =? 0) with true. cbv iota.
      rewrite escape_dollar by done.
      apply (esc_left fuel (to_orgrnes (to_bfrnes m' [36]) [y]) [] 36 (y :: l)); [|done| |].
      * apply org_holds_back; [|done]. pose proof Ho' as (? & _ & _ & E & _). unfold to_bfrnes. rewrite E.
        by apply org_holds_bfr.
      * cbn. by rewrite Hb', Hb.
      * by repeat constructor.
Qed.

(** A read of an escaping reader takes at most 16 rounds. *)
Lemma escaper_read m out :
  esc_holds m out → esc_result (map_ReadRune text_map as_it_is 16 text_keys m) out esc_holds.
Proof.
  intros (l & Ho & Hl & Hv & ->). unfold map_ReadRune. destruct (bfrnes m) as [|x bf] eqn:Hb.
  2:{ by apply esc_left. }
  change 16%nat with (S (S (5 + 9))). generalize 9%nat as k. intros k. cbn [map_ReadRune_from]. unfold read_buffered.
  pose proof Ho as (rs & _ & _ & Hbf & _). rewrite Hbf. cbn [exec_bind]. rewrite Hb. cbn [exec_bind app].
  destruct l as [|x l].
  - destruct (org_nil m Ho) as (r & m' & -> & Ho' & Hb'). cbn [exec_bind]. rewrite Z.ltb_irrefl.
    cbn. eexists _, m'. split; [done|]. exists []. rewrite Hb', Hb. done.
  - inversion Hl as [|? ? Hx Hl']; subst.
    destruct (org_cons m x l Ho Hx) as (n & m' & -> & Hn & Ho' & Horg & Hb'). cbn [exec_bind]. zsimp.
    change (existsb (λ k, len k =? 0) text_keys) with false. cbv iota.
    unfold text_keys. cbn [List.filter]. rewrite !(Z.eqb_sym _ x).
    destruct (Z.eqb_spec x 36) as [->|H36]; [|destruct (Z.eqb_spec x 96) as [->|H96]].
    + change (36 =? 96) with false. cbv iota. change (len [[36; 123]] =? 0) with false. cbv iota.
      rewrite Hb in Hb'. by apply (esc_dollar k).
    + change (len [[96]] =? 0) with false. cbv iota. cbn [Nat.add map_ReadRune_from narrow].
      change (take (length [96]) [96]) with [96]. rewrite bool_decide_eq_true_2 by done.
      cbn [length Nat.eqb from_option id map_ReadRune_from].
      change (len (@nil (list Z)) =? 0) with true. change (len [96] =? 0) with false. cbv iota.
      change (len [96] <? len [96]) with false. cbv iota. rewrite capture_back_quote. cbn [exec_bind].
      apply (esc_left (2 + k) (to_bfrnes m' [92; 96]) [96] 92 l); [|done| |].
      * pose proof Ho' as (? & _ & _ & E & _). unfold to_bfrnes. rewrite E. by apply org_holds_bfr.
      * cbn. by rewrite Hb', Hb.
      * by repeat constructor.
    + change (len (@nil (list Z)) =? 0) with true. cbv iota.
      assert (escape (x :: l) = x :: escape l) as -> by (cbn [escape]; destruct (Z.eqb_spec x 36), (Z.eqb_spec x 96); done).
      cbn. eexists _, m'. split; [done|]. split; [done|]. exists l. rewrite Hb', Hb. done.
Qed.

#[export] Instance escaper_source : RuneSource escaper.
Proof.
  refine {| pending o out := ∃ m, o = Open m ∧ esc_holds m out |}.
  - intros o r rs (m & -> & Hm). destruct (escaper_read m _ Hm) as (n & m' & E & Hn & Hm').
    unfold read_rune, escaper_reader. rewrite E. eauto 8.
  - intros o (m & -> & Hm). destruct (escaper_read m _ Hm) as (r & m' & E & Hm').
    unfold read_rune, escaper_reader. rewrite E. eauto 8.
Defined.

#[export] Instance reread_source : RuneSource reread.
Proof.
  refine {| pending x out := if 0 <? rr_r x then ∃ out', out = rr_r x :: out' ∧ 0 < rr_size x ∧ pending (rr_rest x) out'
                             else pending (rr_rest x) out |}.
  - intros [r n e] x out. cbn [rr_r rr_size rr_rest]. unfold read_rune at 1, reread_reader. cbn [rr_r rr_size rr_rest].
    destruct (0 <? r) eqn:Er.
    + intros (out' & [= -> ->] & Hn & Hp). eexists _, _. split; [done|]. split; [done|]. done.
    + intros Hp. destruct (pending_cons e x out Hp) as (k & e' & -> & Hk & Hp').
      cbn [exec_bind]. eexists _, _. split; [done|]. split; [done|]. cbn [rr_r rr_rest]. by rewrite Er.
  - intros [r n e]. cbn [rr_r rr_size rr_rest]. unfold read_rune at 1, reread_reader. cbn [rr_r rr_size rr_rest].
    destruct (0 <? r) eqn:Er.
    + by intros (? & ? & _).
    + intros Hp. destruct (pending_nil e Hp) as (k & e' & -> & Hp').
      cbn [exec_bind]. eexists _, _. split; [done|]. cbn [rr_r rr_rest]. by rewrite Er.
Defined.

Lemma escaper_of_pending rd rs :
  pending rd rs → valid_runes rs → ∃ e, escaper_of rd = Done e ∧ pending e (escape rs).
Proof.
  intros Hp Hv. eexists. split; [done|]. eexists. split; [done|]. exists rs. split; [|split_and!; [done|constructor|done]].
  exists rs. split_and!; [done|cbn; lia|done|]. right. eauto.
Qed.

Lemma escape_valid l : valid_runes l → valid_runes (escape l).
Proof.
  induction l as [l IH] using (induction_ltof1 _ (@length Z)); unfold ltof in IH. intros Hv.
  destruct l as [|x l]; [done|]. inversion Hv as [|? ? Hx Hl]; subst. cbn [escape].
  destruct (x =? 36); [destruct l as [|y l]; [constructor|inversion Hl; subst; destruct (y =? 123)]|destruct (x =? 96)];
    rewrite ?Forall_app; repeat first [apply IH; [cbn; lia|done] | constructor | split | done].
Qed.

Import strings.

Lemma not_occurs_decide pat l :
  forallb (λ i, negb (bool_decide (take (length pat) (drop i l) = pat))) (seq 0 (S (length l))) = true →
  ¬ occurs_in pat l.
Proof.
  intros Hf (l1 & l2 & ->). rewrite forallb_forall in Hf.
  specialize (Hf (length l1)). assert (In (length l1) (seq 0 (S (length (l1 ++ pat ++ l2))))) as Hin.
  { apply in_seq. rewrite length_app. lia. }
  specialize (Hf Hin).
  rewrite drop_app_length in Hf. rewrite take_app_length in Hf.
  rewrite bool_decide_eq_true_2 in Hf by done. done.
Qed.

Lemma processInline_expands_witness :
  ∃ b, processInline 40 [96] [96] (strings.MkReader [97; 123; 123; 64; 98; 64; 125; 99; 123]) (empty_buffer 16) = Done b ∧
    wf b ∧ contents b = contents (empty_buffer 16) ++ encode_all (utf8.runes [96]) ++
      encode_all (concat (map hole [([97; 123], [98])]) ++ kept [99; 123]) ++ encode_all (utf8.runes [96]).
Proof.
  apply processInline_expands.
  - by apply wf_empty.
  - by repeat constructor.
  - by repeat constructor.
  - constructor; [|constructor]. split; [by apply not_occurs_decide|reflexivity].
  - by apply not_occurs_decide.
  - reflexivity.
  - by repeat constructor.
  - cbn. lia.
Defined.

(** A [@] in a key that does not end it is doubled and closes the hole's text: of
    [{@a@b@}] the code is [${a@@b@}]. *)
Example inline_at_sign :
  (let* b := processInline 40 [] [] (strings.MkReader [123; 64; 97; 64; 98; 64; 125]) (empty_buffer 16) in
   Done (contents b)) = Done [36; 123; 97; 64; 64; 98; 64; 125].
Proof. vm_compute. reflexivity. Qed.

(** A [$] at the end of a text is lost. *)
Example dollar_at_end :
  map_Runes text_map as_it_is 9 16 text_keys
    (MkMap (Some (strings.MkReader [97; 36])) [] [] None tt) [] = Done [97].
Proof. vm_compute. reflexivity. Qed.
