(* ===== verification/Compile.v ===== *)
(** What src/template/code.go makes of a whole template outside elements: the page and
    the script, against a reference compiler ([compiled]) that says in a few lines what
    each text and each code becomes. *)

From S2P Require Import Prelude Runes Readers RuneReaders Buffer BufferCursor BuffReader Texts MapReader Parsing Code.
From stdpp Require Import gmap.
#[local] Open Scope Z_scope.

(** ** The reference compiler *)

(** A template so far, in runes: the text read and not yet placed, whether the last
    rune was code, whether there is any code, the script and the page. *)
Record view := MkView {
  v_text : list Z;
  v_sec : bool;
  v_fnd : bool;
  v_code : list Z;
  v_page : list Z }.

Definition view0 : view := MkView [] false false [] [].

(** A text with both marks of a hole. *)
Definition holes (t : list Z) : bool :=
  occursb PsvPre (encode_all t) && occursb PsvPost (encode_all t).

Definition last_shown (code : list Z) : Z := List.last (List.filter (lookable true) (encode_all code)) 0.
Definition last_byte (code : list Z) : Z := List.last (encode_all code) 0.

(** What a text becomes in the script: a part of the text literal the script is in, a
    literal where the script wants an operand, or a call that prints it. *)
Definition as_code (code : list Z) (inl : bool) (t : list Z) : list Z :=
  let lstr := last_shown code in
  let body := if inl then inline_run (escape t) else escape t in
  if IsTxtPar lstr then body
  else if validLastCdeRune lstr && (negb (lstr =? 47) || ((lstr =? 47) && negb (IsSpace (last_byte code))))
  then [96] ++ body ++ [96]
  else [112; 114; 105; 110; 116; 40; 96] ++ body ++ [96; 41; 59].

Definition flushed (v : view) : view :=
  match v_text v with
  | [] => v
  | t =>
    let inl := holes t in
    if v_fnd v || inl
    then MkView [] (v_sec v) true (v_code v ++ as_code (v_code v) inl t) (v_page v)
    else MkView [] (v_sec v) false (v_code v) (v_page v ++ t)
  end.

(** A text with holes in a script that ends in a text in single or double quotes is
    left out: there the code cuts the quote off. *)
Definition placeable (v : view) : bool :=
  negb (holes (v_text v)) || negb (IsTxtPar (last_shown (v_code v))) || (last_shown (v_code v) =? 96).

Definition with_text (v : view) (t : list Z) : view :=
  match t with [] => v | _ => MkView (v_text v ++ t) false (v_fnd v) (v_code v) (v_page v) end.

Definition with_code (v : view) (c : list Z) : view :=
  match c with
  | [] => v
  | _ =>
    let v' := if v_sec v then v else flushed v in
    MkView (v_text v') true true (v_code v' ++ c) (v_page v')
  end.

Definition compiled (v : view) (gs : list (list Z * list Z)) : view :=
  fold_left (λ v g, with_code (with_text v g.1) g.2) gs v.

(** *** Token by token *)

Definition step (v : view) (t : tok) : view :=
  match t with TLit r => with_text v [r] | TKey r => with_code v [r] | _ => v end.

Definition step_ok (v : view) (t : tok) : bool :=
  match t with TKey _ => v_sec v || placeable v | _ => true end.

Definition steps (v : view) (ts : list tok) : view := fold_left step ts v.

Fixpoint steps_ok (v : view) (ts : list tok) : bool :=
  match ts with [] => true | t :: ts' => step_ok v t && steps_ok (step v t) ts' end.

Lemma steps_app v a b : steps v (a ++ b) = steps (steps v a) b.
Proof. apply fold_left_app. Qed.

Lemma steps_ok_app v a b : steps_ok v (a ++ b) = steps_ok v a && steps_ok (steps v a) b.
Proof. revert v. induction a as [|t a IH]; intros v; cbn; [done|]. by rewrite IH, andb_assoc. Qed.

Lemma with_text_app v a b : with_text (with_text v a) b = with_text v (a ++ b).
Proof. destruct a as [|x a], b as [|y b]; cbn; try done; by rewrite ?app_nil_r, <- ?app_assoc. Qed.

Lemma with_code_app v a b : with_code (with_code v a) b = with_code v (a ++ b).
Proof. destruct a as [|x a], b as [|y b]; cbn; try done; by rewrite ?app_nil_r, <- ?app_assoc. Qed.

Lemma steps_lits v rns : steps v (map TLit rns) = with_text v rns.
Proof.
  revert v. induction rns as [|r rns IH]; intros v; [done|]. cbn [map]. change (steps v (TLit r :: map TLit rns)) with (steps (with_text v [r]) (map TLit rns)).
  by rewrite IH, with_text_app.
Qed.

Lemma steps_keys v rns : steps v (map TKey rns) = with_code v rns.
Proof.
  revert v. induction rns as [|r rns IH]; intros v; [done|]. cbn [map]. change (steps v (TKey r :: map TKey rns)) with (steps (with_code v [r]) (map TKey rns)).
  by rewrite IH, with_code_app.
Qed.

Lemma steps_toks v gs : steps v (toks gs) = compiled v gs.
Proof.
  revert v. induction gs as [|[t c] gs IH]; intros v; [done|]. unfold toks. cbn [map concat]. rewrite steps_app.
  change (concat (map seg_toks gs)) with (toks gs). rewrite IH. unfold seg_toks. cbn [fst snd].
  rewrite !steps_app, steps_lits, steps_keys. done.
Qed.

(** ** The state of the code against the view *)

Record shows (s : codeparsing) (v : view) : Prop := {
  sh_fnd : fndcde s = v_fnd v;
  sh_sec : hsecde s = v_sec v;
  sh_text : buf_is (psvbf s) (v_text v);
  sh_code : buf_is (cdebf s) (v_code v);
  sh_page : buf_is (cbf s) (v_page v);
  sh_valid : valid_runes (v_text v) }.

Lemma write_runes_is b l rns :
  buf_is (Some b) l → valid_runes rns → ∃ b', write_runes rns b = Done b' ∧ buf_is (Some b') (l ++ rns).
Proof.
  intros Hb Hv. destruct (write_runes_appends rns b) as (b' & E & Ha); [apply Hb|done|].
  exists b'. split; [done|]. by eapply buf_is_appended.
Qed.

(** A buffer copied to another. *)
Lemma buffer_to_is src w l r :
  buf_is (Some src) r → buf_is (Some w) l → ∃ w', buffer_to src w = Done w' ∧ buf_is (Some w') (l ++ r).
Proof.
  intros (Hs & _ & Hc) Hw. unfold buffer_to. destruct (WriteTo_sink src w []) as (w' & -> & _ & Ha); [done|apply Hw|].
  exists w'. split; [done|]. rewrite Hc in Ha. by eapply buf_is_appended.
Qed.

Lemma to_content_is fuel f s l r :
  buf_is (cbf s) l →
  (∀ b, buf_is (Some b) l → ∃ b', f b = Done b' ∧ buf_is (Some b') (l ++ r)) →
  ∃ b', to_content fuel f s = Done (set_cbf s (Some b')) ∧ buf_is (Some b') (l ++ r).
Proof.
  intros Hb Hf. unfold to_content. destruct (cbf s) as [b|].
  - cbn [exec_bind]. destruct (Hf b Hb) as (b' & -> & Hb'). cbn [exec_bind]. eauto.
  - cbn in Hb. subst l. change (NewBuffer fuel []) with (Done (empty_buffer chunk_size)). cbn [exec_bind].
    destruct (Hf _ new_is) as (b' & -> & Hb'). cbn [exec_bind]. eauto.
Qed.

Lemma length_escape l : (length (escape l) ≤ 2 * length l)%nat.
Proof.
  induction l as [l IH] using (induction_ltof1 _ (@length Z)); unfold ltof in IH.
  destruct l as [|x l]; [done|]. cbn [escape].
  destruct (x =? 36); [destruct l as [|y l]; [cbn; lia|destruct (y =? 123)]|destruct (x =? 96)].
  - pose proof (IH l ltac:(cbn; lia)). rewrite length_app. cbn. lia.
  - pose proof (IH (y :: l) ltac:(cbn; lia)). cbn [length] in *. lia.
  - pose proof (IH l ltac:(cbn; lia)). rewrite length_app. cbn. lia.
  - pose proof (IH l ltac:(cbn; lia)). cbn. lia.
Qed.

(** ** A text turned into code *)

Definition ascii (l : list Z) : Prop := is_bytes l ∧ encode_all (utf8.runes l) = encode_all l.

Lemma print_reader_is fuel pre e post b l out :
  buf_is (Some b) l → ascii pre → ascii post → pending e out → valid_runes out → len out < Z.of_nat fuel →
  ∃ b', print_reader fuel pre e post b = Done b' ∧ buf_is (Some b') (l ++ pre ++ out ++ post).
Proof.
  intros Hb [Hpre Epre] [Hpost Epost] Hp Hv Hf. unfold print_reader.
  destruct (print_text_appends fuel pre b) as (b1 & -> & Ha1); [apply Hb|done|]. rewrite Epre in Ha1.
  pose proof (buf_is_appended _ _ _ _ Hb Ha1) as Hb1. cbn [exec_bind].
  destruct (ReadRunesFrom_spec fuel b1 e out) as (n & b2 & e' & -> & Ha2); [apply Hb1|done..|].
  pose proof (buf_is_appended _ _ _ _ Hb1 Ha2) as Hb2. cbn [exec_bind].
  destruct (print_text_appends fuel post b2) as (b3 & -> & Ha3); [apply Hb2|done|]. rewrite Epost in Ha3.
  exists b3. split; [done|]. pose proof (buf_is_appended _ _ _ _ Hb2 Ha3) as Hb3.
  by rewrite <- !app_assoc in Hb3.
Qed.

Lemma processInline_is {R} `{RuneSource R} fuel pre post rd b l rs :
  buf_is (Some b) l → ascii pre → ascii post → pending rd rs → valid_runes rs → (length rs < fuel)%nat →
  ∃ b', processInline fuel pre post rd b = Done b' ∧ buf_is (Some b') (l ++ pre ++ inline_run rs ++ post).
Proof.
  intros Hb [Hpre Epre] [Hpost Epost] Hp Hv Hf.
  destruct (processInline_machine fuel pre post rd rs b) as (b' & -> & Ha); [apply Hb|done..|].
  exists b'. split; [done|]. rewrite Epre, Epost in Ha.
  rewrite <- !encode_all_app in Ha. by eapply buf_is_appended.
Qed.

Lemma ascii_nil : ascii [].
Proof. by split. Qed.
Lemma ascii_quote : ascii [96].
Proof. split; [by repeat constructor|reflexivity]. Qed.
Lemma ascii_print : ascii [112; 114; 105; 110; 116; 40; 96].
Proof. split; [by repeat constructor|reflexivity]. Qed.
Lemma ascii_printed : ascii [96; 41; 59].
Proof. split; [by repeat constructor|reflexivity]. Qed.
#[local] Hint Resolve ascii_nil ascii_quote ascii_print ascii_printed : core.

Lemma texttocode_is fuel inl rd t code s p :
  buf_is (cdebf s) code → pending rd t → valid_runes t → (2 * length t < fuel)%nat →
  negb inl || negb (IsTxtPar (last_shown code)) || (last_shown code =? 96) = true →
  ∃ b, texttocode fuel inl rd s p = Done (set_cdebf (set_flags s true (hsecde s)) (Some b), p) ∧
    buf_is (Some b) (code ++ as_code code inl t).
Proof.
  intros Hb Hp Hv Hf Hq. unfold texttocode.
  assert (∃ b0, match cdebf s with Some b => Done b | None => NewBuffer fuel [] end = Done b0 ∧ buf_is (Some b0) code)
    as (b0 & -> & Hb0).
  { destruct (cdebf s) as [b|]; [by exists b|]. cbn in Hb. subst code. eexists. split; [reflexivity|]. apply new_is. }
  cbn [exec_bind]. rewrite !(LastByte_is b0 code) by done. cbn [exec_bind]. rewrite lookable_all.
  change (List.last (List.filter (lookable true) (encode_all code)) 0) with (last_shown code).
  change (List.last (encode_all code) 0) with (last_byte code).
  destruct (escaper_of_pending rd t Hp Hv) as (e & -> & He). cbn [exec_bind].
  pose proof (escape_valid t Hv) as Hve. pose proof (length_escape t) as Hle.
  unfold as_code. destruct (IsTxtPar (last_shown code)).
  - destruct (Z.eqb_spec (last_shown code) 96) as [E|E]; cbn [orb negb andb].
    + destruct inl.
      * destruct (processInline_is fuel [] [] e b0 code (escape t)) as (b & -> & Hb'); [auto with lia..|].
        exists b. split; [done|]. by rewrite app_nil_r in Hb'.
      * destruct (print_reader_is fuel [] e [] b0 code (escape t)) as (b & -> & Hb'); [auto with lia..|].
        exists b. split; [done|]. by rewrite app_nil_r in Hb'.
    + destruct inl; [done|].
      destruct (print_reader_is fuel [] e [] b0 code (escape t)) as (b & -> & Hb'); [auto with lia..|].
      exists b. split; [done|]. by rewrite app_nil_r in Hb'.
  - cbn [orb]. destruct (_ && _), inl.
    + destruct (processInline_is fuel [96] [96] e b0 code (escape t)) as (b & -> & Hb'); [auto with lia..|]. eauto.
    + destruct (print_reader_is fuel [96] e [96] b0 code (escape t)) as (b & -> & Hb'); [auto with lia..|]. eauto.
    + destruct (processInline_is fuel [112; 114; 105; 110; 116; 40; 96] [96; 41; 59] e b0 code (escape t))
        as (b & -> & Hb'); [auto with lia..|]. eauto.
    + destruct (print_reader_is fuel [112; 114; 105; 110; 116; 40; 96] e [96; 41; 59] b0 code (escape t))
        as (b & -> & Hb'); [auto with lia..|]. eauto.
Qed.

(** ** The text read so far, placed *)

Lemma head_once_marks : head_once PsvPre ∧ head_once PsvPost.
Proof. split; apply head_onceb_once; reflexivity. Qed.

Definition flush_ok (fuel : nat) (v : view) : Prop :=
  placeable v = true ∧ (v_fnd v || holes (v_text v) = true → (2 * length (v_text v) < fuel)%nat).

Lemma flushPsv_is levels fuel s p v :
  noncode levels = false → shows s v → flush_ok fuel v →
  ∃ s', flushPsv levels fuel s p = Done (s', p) ∧ shows s' (flushed v).
Proof.
  intros Hn [Hfnd Hsec Htext Hcode Hpage Hv] [Hpl Hf]. unfold flushPsv, flushed.
  pose proof (Empty_is _ _ Htext Hv) as He. destruct (psvbf s) as [psv|] eqn:Epsv.
  2:{ cbn in Htext. rewrite Htext. exists s. split; [done|]. by split; rewrite ?Epsv. }
  rewrite He. destruct (v_text v) as [|x t] eqn:Et.
  { rewrite bool_decide_eq_true_2 by done. exists s. split; [done|]. split; rewrite ?Epsv, ?Et; done. }
  rewrite bool_decide_eq_false_2 by done. rewrite Hn. set (txt := x :: t) in *.
  destruct head_once_marks as [H1 H2]. rewrite (Contains_mark psv PsvPre txt) by done. cbn [exec_bind].
  assert ((if occursb PsvPre (encode_all txt) then Contains (Some psv) PsvPost else Done false) = Done (holes txt)) as ->.
  { unfold holes. destruct (occursb PsvPre _); [|done]. by rewrite (Contains_mark psv PsvPost txt). }
  cbn [exec_bind]. rewrite Hfnd. destruct (v_fnd v || holes txt) eqn:Ef; cbn [negb].
  - assert (∃ b0, match cdebf (set_flags s true (hsecde s)) with Some b => Done b | None => NewBuffer fuel [] end = Done b0 ∧
      buf_is (Some b0) (v_code v)) as (b0 & -> & Hb0).
    { cbn [set_flags cdebf]. destruct (cdebf s) as [b|]; [by exists b|]. cbn in Hcode. rewrite Hcode.
      eexists. split; [reflexivity|]. apply new_is. }
    assert (2 * length txt < fuel)%nat as Hlen by by apply Hf.
    cbn [exec_bind]. destruct Htext as (Hw & Hl & Hc).
    destruct (Clone_spec psv true Hw Hl) as (b1 & b2 & -> & Hw1 & Hw2 & Hc1 & Hc2 & Hl1 & Hl2). cbn [exec_bind].
    destruct (Reader_closing b1 true txt) as (r & -> & Hr); [split; [done|rewrite Hl1; done]|congruence|done|done|].
    cbn [exec_bind].
    destruct (texttocode_is fuel (holes txt) (AnyRdr (option BuffReader) _ (Some r)) txt (v_code v)
      (set_psvbf (set_cdebf (set_flags s true (hsecde s)) (Some b0)) (Some b2)) p) as (b & -> & Hb); try done.
    { by exists BuffReader_closing_source. }
    { unfold placeable in Hpl. by rewrite Et in Hpl. }
    cbn [exec_bind]. eexists. split; [done|].
    split; cbn; try done.
    assert (buf_is (Some b2) []) as Hb2.
    { split; [done|]. split; [done|]. rewrite Hc2, Hc. rewrite bool_decide_eq_false_2; [done|].
      intros E. by pose proof (runes_encode_all txt Hv) as E2; rewrite E in E2. }
    by apply (cleared_is _ _ Hb2).
  - destruct (to_content_is fuel (buffer_to psv) (set_flags s false (hsecde s)) (v_page v) txt) as (b & -> & Hb);
      [done|intros; by apply buffer_to_is|].
    cbn [exec_bind]. eexists. split; [done|]. split; cbn; try done.
    apply (cleared_is (Some psv) txt Htext).
Qed.

(** ** The events *)

Definition set_sec (v : view) (b : bool) : view := MkView (v_text v) b (v_fnd v) (v_code v) (v_page v).

Lemma flushed_sec v b : flushed (set_sec v b) = set_sec (flushed v) b.
Proof. unfold flushed. cbn. destruct (v_text v); [done|]. by destruct (v_fnd v || _). Qed.

Lemma passiveRunes_is fuel rns s p v :
  shows s v → valid_runes rns → rns ≠ [] →
  ∃ s', passiveRunes fuel rns s p = Done (s', p) ∧ shows s' (with_text v rns).
Proof.
  intros [Hfnd Hsec Htext Hcode Hpage Hval] Hv Hne. unfold passiveRunes.
  assert (∃ b, match psvbf (set_flags s (fndcde s) false) with
    | Some psv => write_runes rns psv | None => NewBuffer fuel [PRunes rns] end = Done b ∧
    buf_is (Some b) (v_text v ++ rns)) as (b & -> & Hb).
  { cbn [set_flags psvbf]. destruct (psvbf s) as [psv|]; [by apply write_runes_is|].
    cbn in Htext. rewrite Htext. by apply NewBuffer_is. }
  cbn [exec_bind]. eexists. split; [done|]. destruct rns as [|r rns]; [done|].
  split; cbn; try done. by apply Forall_app.
Qed.

Lemma codeRunes_is levels fuel c rns s p v :
  noncode levels = false → shows s v → valid_runes rns → rns ≠ [] →
  (v_sec v = true → v_fnd v = true) → (v_sec v = false → flush_ok fuel v) →
  ∃ s', codeRunes levels fuel c rns s p = Done (false, s', p) ∧ shows s' (with_code v rns).
Proof.
  intros Hn Hs Hv Hne Hinv Hf. unfold codeRunes. rewrite (sh_sec _ _ Hs).
  set (v' := if v_sec v then v else flushed v).
  assert (∃ s1, (if v_sec v then Done (s, p)
    else let* '(s', p') := flushPsv levels fuel (set_flags s (fndcde s) true) p in
         Done (set_flags s' true (hsecde s'), p')) = Done (s1, p) ∧
    shows s1 (MkView (v_text v') true true (v_code v') (v_page v'))) as (s1 & -> & [H1 H2 H3 H4 H5 H6]).
  { subst v'. destruct (v_sec v) eqn:Es.
    - exists s. split; [done|]. destruct Hs as [E1 E2 ? ? ? ?]. split; cbn; try done; [by rewrite E1, Hinv|by rewrite E2].
    - assert (shows (set_flags s (fndcde s) true) (set_sec v true)) as Hs1 by (destruct Hs; by split).
      destruct (flushPsv_is levels fuel _ p _ Hn Hs1 (Hf eq_refl)) as (s1 & -> & [E1 E2 E3 E4 E5 E6]).
      rewrite flushed_sec in *. cbn [exec_bind]. eexists. split; [done|]. by split. }
  cbn [exec_bind v_text v_sec v_fnd v_code v_page] in *.
  assert (∃ b, match cdebf s1 with Some cde => write_runes rns cde | None => NewBuffer fuel [PRunes rns] end = Done b ∧
    buf_is (Some b) (v_code v' ++ rns)) as (b & -> & Hb).
  { destruct (cdebf s1) as [cde|]; [by apply write_runes_is|]. cbn in H4. rewrite H4. by apply NewBuffer_is. }
  cbn [exec_bind]. eexists. split; [done|]. destruct rns as [|r rns]; [done|]. unfold with_code. fold v'.
  by split.
Qed.

Lemma with_text_inv v t : (v_sec v = true → v_fnd v = true) → v_sec (with_text v t) = true → v_fnd (with_text v t) = true.
Proof. destruct t; cbn; auto. done. Qed.

Lemma with_code_inv v c : (v_sec v = true → v_fnd v = true) → v_sec (with_code v c) = true → v_fnd (with_code v c) = true.
Proof. by destruct c; cbn. Qed.

Lemma steps_inv ts v : (v_sec v = true → v_fnd v = true) → v_sec (steps v ts) = true → v_fnd (steps v ts) = true.
Proof.
  revert v. induction ts as [|t ts IH]; intros v Hv; [done|]. apply IH.
  destruct t; cbn [step]; auto using with_text_inv, with_code_inv.
Qed.

Lemma flushed_text v : v_text (flushed v) = [].
Proof. unfold flushed. destruct (v_text v) eqn:E; [done|]. by destruct (_ || _). Qed.

Lemma length_flushed v : (length (v_text (flushed v)) ≤ length (v_text v))%nat.
Proof. rewrite flushed_text. cbn. lia. Qed.

Lemma length_text ts v : (length (v_text (steps v ts)) ≤ length (v_text v) + length ts)%nat.
Proof.
  revert v. induction ts as [|t ts IH]; intros v; cbn [length]; [cbn; lia|].
  change (steps v (t :: ts)) with (steps (step v t) ts). pose proof (IH (step v t)) as H.
  assert (length (v_text (step v t)) ≤ length (v_text v) + 1)%nat; [|lia].
  destruct t; cbn; rewrite ?length_app; cbn; try lia. pose proof (length_flushed v). destruct (v_sec v); lia.
Qed.

(** The tokens the code can take: every text can be placed, and [fuel] is enough to
    read its escaped form. *)
Definition placed (fuel : nat) (ts : list tok) : Prop := steps_ok view0 ts = true ∧ (2 * length ts < fuel)%nat.

Lemma code_handles levels fuel :
  noncode levels = false →
  handles (λ r, utf8.ValidRune r = true) (placed fuel) (code_events levels fuel) (λ s ts, shows s (steps view0 ts)) None.
Proof.
  intros Hn. split; [| done|done| | | |].
  - intros a b [H1 H2]. rewrite steps_ok_app, length_app in *. apply andb_prop in H1 as [H1 _]. split; [done|lia].
  - eexists. split; [done|]. intros rns s p ts Hv Hne Hs _.
    destruct (passiveRunes_is fuel rns s p _ Hs Hv Hne) as (s' & -> & Hs'). exists s'.
    by rewrite steps_app, steps_lits.
  - intros s p ts Hs _. exists s. cbn. unfold startCaptureCode. rewrite Hn. by rewrite steps_app.
  - eexists. split; [done|]. intros c rns s p ts out Hv Hne Hs [H1 H2]. subst out.
    rewrite bool_decide_eq_false_2, andb_false_r by by intros [? ?].
    destruct (codeRunes_is levels fuel c rns s p _ Hn Hs Hv Hne) as (s' & -> & Hs').
    + by apply steps_inv.
    + intros Hsec. destruct rns as [|r rns]; [done|]. rewrite steps_ok_app in H1. apply andb_prop in H1 as [_ H1].
      cbn [map steps_ok step_ok] in H1. rewrite Hsec in H1. apply andb_prop in H1 as [H1 _]. split; [done|].
      pose proof (length_text ts view0). rewrite length_app in H2. cbn in *. lia.
    + exists s'. by rewrite steps_app, steps_keys.
  - eexists. split; [done|]. intros s p ts Hs _. exists true, s. unfold doneCaptureCode. rewrite Hn.
    by rewrite steps_app.
Qed.

(** ** A whole template *)

Fixpoint compilable (v : view) (gs : list (list Z * list Z)) : bool :=
  match gs with
  | [] => true
  | (t, c) :: gs' =>
    let v1 := with_text v t in
    (bool_decide (c = []) || v_sec v1 || placeable v1) && compilable (with_code v1 c) gs'
  end.

Lemma steps_ok_lits v l : steps_ok v (map TLit l) = true.
Proof. revert v. induction l as [|r l IH]; intros v; [done|]. cbn. apply IH. Qed.

Lemma steps_ok_keys v c : steps_ok v (map TKey c) = bool_decide (c = []) || v_sec v || placeable v.
Proof.
  destruct c as [|r c]; [done|]. cbn [map steps_ok step_ok]. rewrite bool_decide_eq_false_2 by done.
  assert (∀ w, v_sec w = true → steps_ok w (map TKey c) = true) as H.
  { induction c as [|r' c IH]; intros w Hw; [done|]. cbn [map steps_ok step_ok]. rewrite Hw. by apply IH. }
  rewrite H by done. by rewrite andb_true_r.
Qed.

Lemma steps_ok_toks v gs : steps_ok v (toks gs) = compilable v gs.
Proof.
  revert v. induction gs as [|[t c] gs IH]; intros v; [done|]. unfold toks. cbn [map concat compilable].
  change (concat (map seg_toks gs)) with (toks gs). unfold seg_toks. cbn [fst snd].
  rewrite !steps_ok_app, !steps_app, IH, steps_ok_lits, steps_lits, steps_keys, steps_ok_keys. cbn. by rewrite andb_true_r.
Qed.

Lemma length_toks pre post gs :
  (0 < length pre)%nat → (0 < length post)%nat → (length (toks gs) ≤ length (source pre post gs))%nat.
Proof.
  intros. induction gs as [|[t c] gs IH]; [done|]. unfold toks, source in *. cbn [map concat].
  rewrite !length_app. unfold seg_toks at 1, seg_source at 1. cbn [fst snd]. rewrite !length_app, !length_map. cbn [length]. lia.
Qed.

Lemma compile_run levels fuel pre post gs l :
  noncode levels = false → distinct_head pre → post ≠ [] → Forall (unquoted true) post →
  valid_runes pre → valid_runes post → valid_runes (source pre post gs ++ l) →
  Forall (seg_ok pre post true) gs → ¬ occurs_in pre l →
  compilable view0 gs = true → (2 * length (source pre post gs ++ l) < fuel)%nat →
  ∃ s p w k, code_Parse levels fuel (source pre post gs ++ l) (nextCodeParsing false true pre post).1
      (nextCodeParsing false true pre post).2 = Done (s, p) ∧
    w ++ take k pre = l ∧ (k < length pre)%nat ∧ shows s (with_text (compiled view0 gs) w).
Proof.
  intros Hn Hd Hpo Hq Hvpre Hvpost Hv Hgs Hl Hc Hf.
  assert (0 < length pre)%nat as Hlpre by (destruct Hd as (? & ? & -> & _); cbn; lia).
  assert (0 < length post)%nat as Hlpost by (destruct post; [done|cbn; lia]).
  destruct (run_template pre post None true gs l) as (k & w & Hr & Hk & Hw); [done..|].
  pose proof (Parse_machine (code_events levels fuel) _ None pre post false true _ _ (code_handles levels fuel Hn)
    ltac:(done) Hvpre Hvpost (source pre post gs ++ l) (Outside 0) new_code
    (nextparsing pre post None (Some new_text)) []) as Hrun.
  rewrite Hr in Hrun. cbn [app snd] in Hrun.
  destruct Hrun as (s & p & E & _ & _ & Hs); try done.
  - by apply nextparsing_at.
  - split.
    + by rewrite steps_ok_app, steps_ok_toks, Hc, steps_ok_lits.
    + pose proof (length_toks pre post gs Hlpre Hlpost). rewrite length_app in Hf. rewrite length_app, length_map.
      pose proof (f_equal length Hw) as Hwl. rewrite length_app in Hwl. lia.
  - rewrite steps_app, steps_toks, steps_lits in Hs. exists s, p, w, k. done.
Qed.


(** [a<%f("%>",%>b`<%);%>c]: the page is [a], the script f("%>",`b\``);print(`c`); *)
Definition demo_segs : list (list Z * list Z) :=
  [([97], [102; 40; 34; 37; 62; 34; 44]); ([98; 96], [41; 59])].

Example demo_script :
  v_code (flushed (with_text (compiled view0 demo_segs) [99])) =
  [102; 40; 34; 37; 62; 34; 44; 96; 98; 92; 96; 96; 41; 59; 112; 114; 105; 110; 116; 40; 96; 99; 96; 41; 59].
Proof. vm_compute. reflexivity. Qed.

