(* ===== verification/Elements.v ===== *)
(** src/template/content.go and markup.go: templates whose elements are other files.

    A template is read rune by rune by the content parser on top of a stack; an element
    [<name .../>] that names a file puts a parser for that file on the stack, parses the
    file's text with the element's attributes in place of [[#name#]], and gives what comes
    out to the parser below; [<name>...</name>] first collects what stands between its tags.
    An element that names no file goes out as it was read.

    Parsers are shared by pointers: [heap] holds them, [cntntprsngs] is the stack of their
    positions, [prvc] is the parser an element stands in.  A parser's buffer of content is
    part of its code parser ([cbf] of Code).  The files are an argument: what [Stat] finds.
    Strings are their runes.  A label parser that is in the middle of a rune is handed to the
    callback and back ([events_of]), since parsing goes on in it from inside the callback. *)

From S2P Require Import Prelude Runes GoStrings Readers RuneReaders Buffer BufferCursor BuffReader Texts MapReader Parsing Attributes Code.
From stdpp Require Import gmap.
From Stdlib Require Strings.String.
Import Stdlib.Strings.String.StringSyntax.
#[local] Open Scope Z_scope.

Definition str (s : String.string) : list Z := map (λ a, Z.of_N (Ascii.N_of_ascii a)) (String.list_ascii_of_string s).
Declare Scope string_scope.
#[local] Delimit Scope string_scope with string.
#[local] Arguments str s%_string.

(** What is used of a file; without a reader its text is empty. *)
Record fileinfo := MkFile {
  fi_path : list Z;
  fi_root : list Z;
  fi_base : list Z;
  fi_ext : list Z;
  fi_reader : option anyrdr }.

Definition attributes := gmap (list Z) mval.

Record contentparsing := MkContent {
  parsing : Parsing;
  elmlvl : ElemLevel;
  elmname : list Z;
  elmroot : list Z;
  elmbase : list Z;
  root : list Z;
  base : list Z;
  path : list Z;
  c_tstname : list Z;
  tstr : Z;
  c_tstlvl : ElemLevel;
  tstatrbs : option (attributeparser * Parsing);
  lstattrbs : option attributes;
  attrbs : option attributes;
  cde : codeparsing;
  cde_parsing : Parsing;
  fi : option fileinfo;
  prvc : option nat }.

(** [fi] of a closed parser is nil, and so is its template. *)
Record markuptemplate := MkMarkup {
  heap : list contentparsing;
  cntntprsngs : gmap Z nat;
  prsix : Z;
  invalidElem : gmap (list Z) bool;
  validElem : gmap (list Z) fileinfo;
  cntntbf : option Buffer;
  m_cdebf : option Buffer }.

Definition set_parsing (p : Parsing) (c : contentparsing) : contentparsing :=
  MkContent p (elmlvl c) (elmname c) (elmroot c) (elmbase c) (root c) (base c) (path c) (c_tstname c) (tstr c) (c_tstlvl c)
    (tstatrbs c) (lstattrbs c) (attrbs c) (cde c) (cde_parsing c) (fi c) (prvc c).
Definition set_elmlvl (l : ElemLevel) (c : contentparsing) : contentparsing :=
  MkContent (parsing c) l (elmname c) (elmroot c) (elmbase c) (root c) (base c) (path c) (c_tstname c) (tstr c) (c_tstlvl c)
    (tstatrbs c) (lstattrbs c) (attrbs c) (cde c) (cde_parsing c) (fi c) (prvc c).
Definition set_test (n : list Z) (r : Z) (l : ElemLevel) (a : option (attributeparser * Parsing)) (c : contentparsing) : contentparsing :=
  MkContent (parsing c) (elmlvl c) (elmname c) (elmroot c) (elmbase c) (root c) (base c) (path c) n r l
    a (lstattrbs c) (attrbs c) (cde c) (cde_parsing c) (fi c) (prvc c).
Definition set_lstattrbs (a : option attributes) (c : contentparsing) : contentparsing :=
  MkContent (parsing c) (elmlvl c) (elmname c) (elmroot c) (elmbase c) (root c) (base c) (path c) (c_tstname c) (tstr c) (c_tstlvl c)
    (tstatrbs c) a (attrbs c) (cde c) (cde_parsing c) (fi c) (prvc c).
Definition set_attrbs (a : option attributes) (c : contentparsing) : contentparsing :=
  MkContent (parsing c) (elmlvl c) (elmname c) (elmroot c) (elmbase c) (root c) (base c) (path c) (c_tstname c) (tstr c) (c_tstlvl c)
    (tstatrbs c) (lstattrbs c) a (cde c) (cde_parsing c) (fi c) (prvc c).
Definition set_cde (s : codeparsing) (p : Parsing) (c : contentparsing) : contentparsing :=
  MkContent (parsing c) (elmlvl c) (elmname c) (elmroot c) (elmbase c) (root c) (base c) (path c) (c_tstname c) (tstr c) (c_tstlvl c)
    (tstatrbs c) (lstattrbs c) (attrbs c) s p (fi c) (prvc c).
Definition set_fi (f : option fileinfo) (c : contentparsing) : contentparsing :=
  MkContent (parsing c) (elmlvl c) (elmname c) (elmroot c) (elmbase c) (root c) (base c) (path c) (c_tstname c) (tstr c) (c_tstlvl c)
    (tstatrbs c) (lstattrbs c) (attrbs c) (cde c) (cde_parsing c) f (prvc c).

Definition set_heap (w : markuptemplate) (h : list contentparsing) : markuptemplate :=
  MkMarkup h (cntntprsngs w) (prsix w) (invalidElem w) (validElem w) (cntntbf w) (m_cdebf w).
Definition set_stack (w : markuptemplate) (s : gmap Z nat) (i : Z) : markuptemplate :=
  MkMarkup (heap w) s i (invalidElem w) (validElem w) (cntntbf w) (m_cdebf w).
Definition add_invalid (w : markuptemplate) (n : list Z) : markuptemplate :=
  MkMarkup (heap w) (cntntprsngs w) (prsix w) (<[n := true]> (invalidElem w)) (validElem w) (cntntbf w) (m_cdebf w).
Definition add_valid (w : markuptemplate) (n : list Z) (f : fileinfo) : markuptemplate :=
  MkMarkup (heap w) (cntntprsngs w) (prsix w) (invalidElem w) (<[n := f]> (validElem w)) (cntntbf w) (m_cdebf w).
Definition set_cntntbf (w : markuptemplate) (b : option Buffer) : markuptemplate :=
  MkMarkup (heap w) (cntntprsngs w) (prsix w) (invalidElem w) (validElem w) b (m_cdebf w).
Definition set_m_cdebf (w : markuptemplate) (b : option Buffer) : markuptemplate :=
  MkMarkup (heap w) (cntntprsngs w) (prsix w) (invalidElem w) (validElem w) (cntntbf w) b.

(** A pointer to no parser is nil. *)
Definition get (w : markuptemplate) (id : nat) : exec contentparsing :=
  match heap w !! id with Some c => Done c | None => Panic end.
Definition upd (w : markuptemplate) (id : nat) (f : contentparsing → contentparsing) : markuptemplate :=
  set_heap w (alter f id (heap w)).

Definition current (w : markuptemplate) : option nat := cntntprsngs w !! prsix w.

(** The element levels of a parser and those around it; [n] bounds their number. *)
Fixpoint chain (n : nat) (h : list contentparsing) (o : option nat) : list ElemLevel :=
  match n, o with
  | S n', Some id => match h !! id with Some c => elmlvl c :: chain n' h (prvc c) | None => [] end
  | _, _ => []
  end.
Definition levels_of (w : markuptemplate) (id : nat) : list ElemLevel := chain (S (length (heap w))) (heap w) (Some id).

(** [noncode] of the parser on top, if there is one. *)
Definition top_noncode (w : markuptemplate) : bool :=
  match current w with Some id => noncode (levels_of w id) | None => false end.

(** ** Names *)

Definition to_path (s : list Z) : list Z := Replace s 58 [47].
Definition to_name (s : list Z) : list Z := Replace s 47 [58].

(** [filepath.Ext]: from the last dot after the last slash. *)
Fixpoint ext_rev (s acc : list Z) : list Z :=
  match s with
  | [] => []
  | r :: s' => if r =? 47 then [] else if r =? 46 then r :: acc else ext_rev s' (r :: acc)
  end.
Definition filepath_Ext (s : list Z) : list Z := ext_rev (reverse s) [].

Definition ArgPre : list Z := str "[#".
Definition ArgPost : list Z := str "#]".
Definition namepp : list Z := str "::".

(** Files whose text may be quoted. *)
Definition scripted (ext : list Z) : bool :=
  bool_decide (ext = str ".js") || bool_decide (ext = str ".json") || bool_decide (ext = str ".css").

(** ** What is parsed

    [Parse] reads from a reader, through a reader that replaces [[#name#]] by attributes
    for the page itself ([RootMap]), for an element's file ([FileMap]) and for the text
    between an element's tags ([InnerMap]). *)
Inductive mapkind := RootMap | FileMap | InnerMap.

Inductive source :=
| Raw (r : anyrdr)
| Mapped (k : mapkind) (mp : attributes) (o : rdstate (mapprepostreader (R := anyrdr) (T := markuptemplate)) markuptemplate)
| Nothing.

Section elements.
Context (fuel : nat) (Stat : list Z → option fileinfo).

(** *** The code parser of a content parser *)

Definition with_cde (f : list ElemLevel → codeparsing → Parsing → exec (codeparsing * Parsing)) (id : nat) (w : markuptemplate)
  : exec markuptemplate :=
  let* c := get w id in
  let* '(s, p) := f (levels_of w id) (cde c) (cde_parsing c) in
  Done (upd w id (set_cde s p)).

Definition cde_parse (r : Z) : nat → markuptemplate → exec markuptemplate :=
  with_cde (λ levels, parse_one (code_events levels fuel) r).
Definition cde_Parse (rns : list Z) : nat → markuptemplate → exec markuptemplate :=
  with_cde (λ levels, code_Parse levels fuel rns).
Definition cde_flushPsv : nat → markuptemplate → exec markuptemplate :=
  with_cde (λ levels, flushPsv levels fuel).
Definition resetCdeParsing : nat → markuptemplate → exec markuptemplate :=
  with_cde (λ _ s p, Done (code_reset s p)).

Fixpoint preRunes (id : nat) (rns : list Z) (w : markuptemplate) : exec markuptemplate :=
  match rns with
  | [] => Done w
  | r :: rns' => let* w1 := cde_parse r id w in preRunes id rns' w1
  end.

(** *** An element that is not one *)

(** What was read of it. *)
Definition as_read (c : contentparsing) (rns : list Z) : list Z :=
  let raw := match tstatrbs c with Some (a, _) => raw a | None => [] end in
  match c_tstlvl c with
  | ElemSingle => prelbl (parsing c) ++ c_tstname c ++ raw ++ [47] ++ rns
  | ElemEnd => prelbl (parsing c) ++ [47] ++ c_tstname c ++ raw ++ rns
  | _ => prelbl (parsing c) ++ c_tstname c ++ raw ++ rns
  end.

(** [resetTest]: the element read is forgotten, and with [parse] goes out as text.  The
    attribute parser is closed; nothing holds it any more. *)
Definition resetTest (id : nat) (parse : bool) (rns : list Z) (w : markuptemplate) : exec markuptemplate :=
  let* c := get w id in
  let w1 := upd w id (set_test [] 0 ElemUnkown None) in
  if parse then preRunes id (as_read c rns) w1 else Done w1.

(** *** Attributes *)

(** [setArributeValue]: a value without a name is added to [pre] or [post]. *)
Definition add_found (l : ElemLevel) (f : foundvalue) (lst : option attributes) : attributes :=
  let m := match lst with Some m => m | None => {[ fv_name f := MRunes (fv_value f) ]} end in
  if 0 <? len (fv_name f) then <[fv_name f := MRunes (fv_value f)]> m
  else if (len (fv_name f) =? 0) && negb (fv_empty f) then
    let tstnme := match l with ElemEnd => str "post" | _ => str "pre" end in
    if 0 <? len (fv_value f) then
      let crntvl := match m !! tstnme with Some (MRunes v) => v | _ => [] end in
      <[tstnme := MRunes (crntvl ++ fv_value f)]> m
    else m
  else m.
Definition setArributeValue (f : foundvalue) (c : contentparsing) : contentparsing :=
  set_lstattrbs (Some (add_found (c_tstlvl c) f (lstattrbs c))) c.

(** A rune for the attribute parser; the values it finds are told as it goes. *)
Definition attribute_rune (r : Z) (a : attributeparser) (p : Parsing) (c : contentparsing)
  : exec (contentparsing * attributeparser) :=
  let* '(a', p') := attr_Parse [r] a p in
  let found := drop (length (values a)) (values a') in
  let c1 := fold_left (λ c f, setArributeValue f c) found c in
  Done (set_test (c_tstname c1) (tstr c1) (c_tstlvl c1) (Some (a', p')) c1, a').

(** *** The runes between < and > *)

Fixpoint post_runes (id : nat) (fndspace : bool) (rns : list Z) (w : markuptemplate) : exec (bool * markuptemplate) :=
  match rns with
  | [] => Done (false, w)
  | r :: rns' =>
    let* c := get w id in
    let abandon prs w :=
      let* w1 := resetTest id true prs w in
      Done (true, upd w1 id (λ c, set_parsing (set_bufdrns (parsing c) rns') c)) in
    let to n v l a := post_runes id fndspace rns' (upd w id (set_test n v l a)) in
    match c_tstlvl c with
    | ElemUnkown =>
      if r =? 47 then to (c_tstname c) (tstr c) ElemEnd (tstatrbs c)
      else if (validElemChar (tstr c) r).1 then to (c_tstname c ++ [r]) r ElemStart (tstatrbs c)
      else abandon [r] w
    | ElemStart =>
      match tstatrbs c with
      | Some (a, p) =>
        if Busy (Some p) then
          let* '(c', _) := attribute_rune r a p c in post_runes id fndspace rns' (upd w id (λ _, c'))
        else if (bool_decide (tstlvl a = AttribUknown) || bool_decide (tstlvl a = AttribContinue)) && (r =? 47) then
          to (c_tstname c) (tstr c) ElemSingle (tstatrbs c)
        else
          let* '(c', a') := attribute_rune r a p c in
          if invdl a' then abandon [r] (upd w id (λ _, c'))
          else post_runes id fndspace rns' (upd w id (λ _, c'))
      | None =>
        if r =? 47 then to (c_tstname c) (tstr c) ElemSingle None
        else
          let '(valid, space) := validElemChar (tstr c) r in
          if (valid : bool) then to (c_tstname c ++ [r]) r ElemStart None
          else if (fndspace || space) && (0 <? len (c_tstname c)) then
            let '(a, p) := nextattrbprsr AttrPre AttrPost in
            let a' := MkAttr (txttst a) [r] (rawl a) (invdl a) (tstlvl a) (tstname a) (tstvalue a) (tstprvr a) (atvrnes a) (values a) in
            post_runes id true rns' (upd w id (set_test (c_tstname c) (tstr c) ElemStart (Some (a', p))))
          else abandon [r] w
      end
    | ElemSingle => abandon [47; r] w
    | ElemEnd =>
      if (validElemChar (tstr c) r).1 then to (c_tstname c ++ [r]) r ElemEnd (tstatrbs c)
      else abandon [r] w
    end
  end.

Definition postRunes (id : nat) (canreset : bool) (rns : list Z) (w : markuptemplate) : exec (bool * markuptemplate) :=
  if canreset then let* w1 := resetTest id true rns w in Done (true, w1) else post_runes id false rns w.

(** *** Readers of a text with its attributes *)

Definition string_rdr (s : list Z) : anyrdr := runeReaderSlice.string_reader (encode_all s).

(** [capturekeyval]: inside code the value becomes part of the script. *)
Definition capturekeyval : capturing markuptemplate := λ w key orgval,
  match current w with
  | None => Panic
  | Some id =>
    let* c := get w id in
    if noncode (levels_of w id) then Done (orgval, true, w)
    else if Busy (Some (cde_parsing c)) then
      let to_code v inline rd :=
        let* w' := with_cde (λ _, texttocode fuel inline rd) id w in Done (v, false, w') in
      match orgval with
      | MStr vs =>
        if bool_decide (vs = []) then Done (MStr [], false, w)
        else to_code MOther (occursb PsvPre vs && occursb PsvPost vs) (string_rdr vs)
      | MBuf vbf =>
        if Buffer.Empty (Some vbf) then Done (MOther, false, w)
        else
          let* c1 := Contains (Some vbf) PsvPre in
          let* inline := if (c1 : bool) then Contains (Some vbf) PsvPost else Done false in
          let* rd := BuffReader.Reader (Some vbf) NoContext false [] in
          to_code MOther inline (AnyRdr (option BuffReader) _ rd)
      | _ => Done (orgval, true, w)
      end
    else Done (orgval, true, w)
  end.

(** Whether a key without a value goes out as it is. *)
Definition flushunmtchd (k : mapkind) (w : markuptemplate) (_ : list Z) : bool :=
  match k with
  | RootMap =>
    if top_noncode w then true
    else match current w with
         | Some id => match heap w !! id with
                      | Some c => if Busy (Some (cde_parsing c)) then top_noncode w else false
                      | None => false
                      end
         | None => false
         end
  | _ => top_noncode w
  end.

Definition cptrkeyval (k : mapkind) : capturing markuptemplate :=
  match k with FileMap => capturekeyval | _ => as_it_is end.

(** A reader made by MapReplaceReader with the two marks. *)
Definition mapped (k : mapkind) (mp : attributes) (rd : option anyrdr) (w : markuptemplate) : exec source :=
  let* m := MapReplaceReader rd mp [] [ArgPre; ArgPost] w in
  Done match m with PrePost p => Mapped k mp (Open p) | Plain _ _ => Nothing end.

(** One rune of a source; the template goes through the reader's callbacks. *)
Definition read_source (src : source) (w : markuptemplate) : exec (Z * Z * option goerr * source * markuptemplate) :=
  match src with
  | Nothing => Done (0, 0, Some EOF, Nothing, w)
  | Raw rd => let* '(r, size, err, rd') := read_rune rd in Done (r, size, err, Raw rd', w)
  | Mapped k mp o =>
    let o1 := match o with
              | Open p => Open (MapReader.set_base p (set_cptrst (MapReader.base p) w))
              | Closed _ => Closed w
              end in
    let* '(r, size, err, o') := MapReader.ReadRune mp (cptrkeyval k) validNameChar (flushunmtchd k) fuel o1 in
    Done (r, size, err, Mapped k mp o', match o' with Open p => cptrst (MapReader.base p) | Closed w' => w' end)
  end.

(** *** A parser for a file *)

Definition page_attributes (f : fileinfo) (name : list Z) : attributes :=
  let elm s := MStr (to_name s) in
  <[str "p-e-base" := elm (fi_base f)]> (<[str "p-e-root" := elm (fi_root f)]> (
  <[str "p-base" := MStr (fi_base f)]> (<[str "p-root" := MStr (fi_root f)]> (
  <[str "root" := MStr (fi_root f)]> (<[str "base" := MStr (fi_base f)]> (
  <[str "e-name" := MStr name]> (<[str "e-base" := elm (fi_base f)]> (<[str "e-root" := elm (fi_root f)]> ∅)))))))).

(** The name an element of the file has: its path, without its extension, with colons. *)
Definition element_name (f : fileinfo) : exec (list Z) :=
  if bool_decide (fi_ext f = []) then Done (to_name (fi_path f))
  else if bool_decide (fi_path f = fi_root f ++ str "index" ++ fi_ext f) then Done (to_name (fi_root f))
  else let* p := slice (fi_path f) 0 (len (fi_path f) - len (fi_ext f)) in Done (to_name p).

Definition nextContentParsing (o : option nat) (w : markuptemplate) (f : fileinfo) (lvl : ElemLevel) : exec contentparsing :=
  let* labels :=
    match o with
    | Some id => let* p := get w id in Done (prelbl (cde_parsing p), postlbl (cde_parsing p))
    | None => Done (CdePre, CdePost)
    end in
  let '(s, p) := nextCodeParsing (scripted (fi_ext f)) true labels.1 labels.2 in
  let '(s, p) := code_reset s p in
  let* name := element_name f in
  Done (MkContent (nextparsing (str "<") (str ">") (if scripted (fi_ext f) then Some new_text else None) (Some new_text))
    lvl name (to_name (fi_root f)) (to_name (fi_base f)) (fi_root f) (fi_base f) (fi_path f)
    [] 0 ElemUnkown None None
    (if bool_decide (cntntprsngs w = ∅) then Some (page_attributes f (to_name (fi_path f))) else None)
    s p (Some f) o).

Definition appendCntntParsing (o : option nat) (f : fileinfo) (lvl : ElemLevel) (w : markuptemplate) : exec (nat * markuptemplate) :=
  let ix := Z.of_nat (size (cntntprsngs w)) in
  let* c := nextContentParsing o w f lvl in
  let id := length (heap w) in
  Done (id, set_stack (set_heap w (heap w ++ [c])) (<[ix := id]> (cntntprsngs w)) ix).

(** *** Parsing on from inside a parser

    [reparse] parses a source to its end ([parse_source] below, with less fuel). *)
Context (reparse : source → markuptemplate → exec markuptemplate).

(** [m.Parse] of a reader: the page's attributes are replaced when only the page is open. *)
Definition Parse_reader (rd : anyrdr) (w : markuptemplate) : exec markuptemplate :=
  if prsix w =? 0 then
    match current w with
    | Some id =>
      let* c := get w id in
      let* src := mapped RootMap (default ∅ (attrbs c)) (Some rd) w in reparse src w
    | None => reparse (Raw rd) w
    end
  else reparse (Raw rd) w.

Definition Parse_buffer (b : Buffer) (w : markuptemplate) : exec markuptemplate :=
  let* rd := BuffReader.Reader (Some b) NoContext true [] in
  Parse_reader (AnyRdr (option BuffReader) _ rd) w.

(** [Close]: what the parser made goes to the one below, or is the template's result. *)
Definition close_content (id : nat) (w : markuptemplate) : exec markuptemplate :=
  let* w1 := cde_flushPsv id w in
  let* c := get w1 id in
  let cbuf := cbf (cde c) in
  let was_open := bool_decide (is_Some (fi c)) in
  let w2 := upd w1 id (λ c, set_fi None (set_cde (set_cbf (cde c) None) (cde_parsing c) c)) in
  if negb was_open then Done w2
  else
    let on_top := (0 <? prsix w2) && bool_decide (cntntprsngs w2 !! prsix w2 = Some id) in
    let w3 := if on_top then set_stack w2 (delete (prsix w2) (cntntprsngs w2)) (prsix w2 - 1) else w2 in
    let below := if on_top then cntntprsngs w3 !! prsix w3 else Some id in
    let same := bool_decide (below = Some id) in
    let* w4 :=
      match cbuf with
      | Some b => if Buffer.Empty (Some b) then Done w3
                  else if same then Done (set_cntntbf w3 (Some b)) else Parse_buffer b w3
      | None => Done w3
      end in
    let* c4 := get w4 id in
    let* w5 :=
      match cdebf (cde c4) with
      | Some b =>
        if Buffer.Empty (Some b) then Done w4
        else if same then Done (set_m_cdebf w4 (Some b))
        else match below with
             | Some bid =>
               let* w5 := if noncode (levels_of w4 bid) then Done w4 else cde_flushPsv bid w4 in
               let* cb := get w5 bid in
               let* w6 := if Busy (Some (cde_parsing cb)) then Done w5 else cde_Parse (prelbl (cde_parsing cb)) bid w5 in
               let* w7 := Parse_buffer b w6 in
               let* cb7 := get w7 bid in
               cde_Parse (postlbl (cde_parsing cb7)) bid w7
             | None => Panic
             end
      | None => Done w4
      end in
    Done (upd w5 id (set_attrbs None)).

(** *** The end of a tag *)

(** The name with attributes in place of [::name::]. *)
Definition replace_name (unm : list Z → bool) (mp : attributes) (name : list Z) : exec (list Z) :=
  if bool_decide (name = []) then Done []
  else
    let* m := MapReplaceReader (Some (string_rdr name)) mp [] [namepp; namepp] tt in
    match m with
    | PrePost p => MapReader.Runes mp as_it_is validNameChar (λ _, unm) fuel fuel (Open p) []
    | Plain _ _ => Panic
    end.

Definition test_name (w : markuptemplate) (c : contentparsing) : exec (list Z) :=
  let name := c_tstname c in
  match attrbs c, c_tstlvl c with
  | Some mp, (ElemStart | ElemSingle) => replace_name (λ _, false) mp name
  | Some mp, ElemEnd =>
    if prsix w =? 0 then replace_name (λ _, false) mp name
    else
      match cntntprsngs w !! (prsix w - 1) with
      | Some id =>
        let* below := get w id in
        let* name1 := replace_name (λ k, bool_decide (is_Some (mp !! k))) (default ∅ (attrbs below)) name in
        replace_name (λ _, false) mp name1
      | None => Panic
      end
  | _, _ => Done name
  end.

(** The file an element is in: nil after [Close]. *)
Definition file_of (c : contentparsing) : exec fileinfo :=
  match fi c with Some f => Done f | None => Panic end.

Definition full_name (w : markuptemplate) (c : contentparsing) (name : list Z) : exec (list Z) :=
  let* r := index name 0 in
  if r =? 58 then Done name
  else
    let* f := file_of c in
    let rooted := to_name (fi_root f) ++ name in
    match c_tstlvl c, elmlvl c, prvc c with
    | ElemEnd, ElemStart, Some id =>
      let* p := get w id in
      Done (if bool_decide (elmroot p ++ name = elmname c) then elmname c else rooted)
    | _, _, _ => Done rooted
    end.

(** The file of an element: from the root, or from the base of the file it is in. *)
Definition find_in (f : fileinfo) (fullname : list Z) : exec (option fileinfo) :=
  let fullpath := to_path fullname in
  let* '(fullpath, ext) :=
    match filepath_Ext fullpath with
    | [] => Done (fullpath, fi_ext f)
    | ext => let* p := slice fullpath 0 (len fullpath - len ext) in Done (p, ext)
    end in
  let* r := index fullpath 0 in
  if r =? 47 then
    let* l := index fullpath (len fullpath - 1) in
    let* rest := slice fullpath 1 (len fullpath) in
    let tail := if l =? 47 then str "index" ++ ext else ext in
    Done match Stat (fullpath ++ tail) with
         | Some f' => Some f'
         | None => Stat (fi_base f ++ rest ++ tail)
         end
  else Done None.

Definition find_file (c : contentparsing) (fullname : list Z) : exec (option fileinfo) :=
  let* f := file_of c in find_in f fullname.

(** The names an element's text may use besides its attributes. *)
Definition file_names (c pgec : contentparsing) (mp : attributes) : attributes :=
  <[str "p-base" := MStr (base pgec)]> (<[str "p-root" := MStr (root pgec)]> (
  <[str "p-e-base" := MStr (elmbase pgec)]> (<[str "p-e-root" := MStr (elmroot pgec)]> (
  <[str "base" := MStr (base c)]> (<[str "root" := MStr (root c)]> (
  <[str "e-base" := MStr (elmbase c)]> (<[str "e-root" := MStr (elmroot c)]> mp))))))).

Definition page (w : markuptemplate) : exec contentparsing :=
  match cntntprsngs w !! 0 with Some id => get w id | None => Panic end.

(** The reader of a file's text; a nil one has nothing to read. *)
Definition parse_file (k : mapkind) (mp : attributes) (rd : option anyrdr) (w : markuptemplate) : exec markuptemplate :=
  let* src := mapped k mp rd w in reparse src w.

(** Not an element: it goes out as it was read. *)
Definition not_an_element (id : nat) (c : contentparsing) (name : list Z) (w : markuptemplate) : exec (bool * markuptemplate) :=
  let w1 := upd w id (λ c', set_test name (tstr c') (c_tstlvl c) (tstatrbs c) c') in
  let* c1 := get w1 id in
  let* w2 := resetTest id true (postlbl (parsing c1)) w1 in Done (false, w2).

Definition reset_parsing (c : contentparsing) : contentparsing := set_parsing (set_pos (parsing c) 0 0 0) c.

Definition open_element (id : nat) (c : contentparsing) (name fullname : list Z) (w : markuptemplate) : exec (bool * markuptemplate) :=
  let* found := find_file c fullname in
  match found with
  | None => not_an_element id c name (add_invalid w fullname)
  | Some f =>
    let fullname := ReplaceAll fullname (str "..:") [] in
    let w1 := upd (add_valid w fullname f) id reset_parsing in
    let* w2 := resetTest id false [] w1 in
    let* w3 := cde_flushPsv id w2 in
    let* '(nid, w4) := appendCntntParsing (Some id) f (c_tstlvl c) w3 in
    let w5 := upd w4 nid (set_attrbs (lstattrbs c)) in
    match c_tstlvl c with
    | ElemSingle =>
      let* nxtc := get w5 nid in
      let* pgec := page w5 in
      let mp := <[str "e-name" := MStr (elmname nxtc)]> (<[str "cntnt" := MStr []]>
                  (file_names nxtc pgec (default ∅ (attrbs nxtc)))) in
      let w6 := upd w5 nid (set_attrbs (Some mp)) in
      let* w7 := parse_file FileMap mp (fi_reader f) w6 in
      let* w8 := close_content nid w7 in
      Done (false, w8)
    | _ => Done (false, w5)
    end
  end.

Definition close_element (id : nat) (c : contentparsing) (name fullname : list Z) (w : markuptemplate) : exec (bool * markuptemplate) :=
  let* _ := file_of c in
  let* w1 := resetTest id false [] (upd w id reset_parsing) in
  let fullname := ReplaceAll fullname (str "..:") [] in
  let* c1 := get w1 id in
  let* first := if (0 <? prsix w1) && bool_decide (current w1 = Some id) then
                  let* r := match fullname with [] => Panic | r :: _ => Done r end in
                  Done (((r =? 58) && bool_decide (elmname c1 = elmbase c1 ++ drop 1 fullname)) || bool_decide (fullname = elmname c1))
                else Done false in
  if first && match elmlvl c1 with ElemStart => true | _ => false end then
    let* w2 := cde_flushPsv id w1 in
    let* pgec := page w2 in
    let* c2 := get w2 id in
    let cbuf := cbf (cde c2) in
    let mp := file_names c2 pgec (default ∅ (attrbs c2)) in
    let w3 := upd w2 id (λ c, set_attrbs (Some mp) (set_cde (set_cbf (cde c) None) (cde_parsing c) c)) in
    let* w4 := resetCdeParsing id w3 in
    let* rd := BuffReader.Reader cbuf NoContext true [] in
    let* w5 := parse_file InnerMap mp (Some (AnyRdr (option BuffReader) _ rd)) w4 in
    let* w6 := cde_flushPsv id w5 in
    let* c6 := get w6 id in
    let cbuf := cbf (cde c6) in
    let cntnt := match cbuf with Some b => if Buffer.Empty (Some b) then MStr [] else MBuf b | None => MStr [] end in
    let mp := <[str "cntnt" := cntnt]> mp in
    let w7 := upd w6 id (λ c, set_attrbs (Some mp) (set_elmlvl ElemSingle (set_cde (set_cbf (cde c) None) (cde_parsing c) c))) in
    let* f := file_of c6 in
    let* w8 := parse_file FileMap mp (fi_reader f) w7 in
    let* w9 := close_content id w8 in
    Done (false, w9)
  else not_an_element id c name w1.

Definition matchPost (id : nat) (w : markuptemplate) : exec (bool * markuptemplate) :=
  let* c := get w id in
  if len (c_tstname c) =? 0 then
    let* w1 := resetTest id true (postlbl (parsing c)) w in Done (false, w1)
  else
    let* name := test_name w c in
    let w1 := upd w id (λ c', set_lstattrbs None (set_test [] (tstr c') ElemUnkown None c')) in
    let* fullname := full_name w c name in
    match c_tstlvl c with
    | ElemStart | ElemSingle => open_element id c name fullname w1
    | ElemEnd => close_element id c name fullname w1
    | ElemUnkown => Done (false, w1)
    end.

(** *** One rune *)

(** A callback of the content parser's label parser [p]: parsing may go on in [p] while it
    runs. *)
Definition with_parsing {A} (id : nat) (f : markuptemplate → exec (A * markuptemplate)) (w : markuptemplate) (p : Parsing)
  : exec (A * markuptemplate * Parsing) :=
  let* '(a, w1) := f (upd w id (set_parsing p)) in
  let* c := get w1 id in Done (a, w1, parsing c).

Definition events_of (id : nat) : events markuptemplate :=
  MkEvents None
    (Some (λ rns w p, let* '(_, w', p') := with_parsing id (λ w, let* w' := preRunes id rns w in Done (tt, w')) w p in Done (w', p')))
    (Some (λ w p, Done (w, p)))
    None
    (Some (λ canreset rns w p, with_parsing id (postRunes id canreset rns) w p))
    (Some (λ w p, with_parsing id (matchPost id) w p)).

Definition content_parse (id : nat) (r : Z) (w : markuptemplate) : exec markuptemplate :=
  let* c := get w id in
  if Busy (Some (cde_parsing c)) then cde_parse r id w
  else
    let* '(w1, p) := parse_one (events_of id) r w (parsing c) in
    Done (upd w1 id (set_parsing p)).

Definition parseRune (r : Z) (w : markuptemplate) : exec markuptemplate :=
  match current w with Some id => content_parse id r w | None => Done w end.
End elements.

(** ** Parsing to the end

    [n] bounds the runes still read and how deep elements are in each other. *)
Section parse.
Context (fuel : nat) (Stat : list Z → option fileinfo).

Fixpoint parse_source (n : nat) (src : source) (w : markuptemplate) : exec markuptemplate :=
  match n with
  | O => NoFuel
  | S n' =>
    let* '(r, size, err, src', w1) := read_source fuel src w in
    if (size =? 0) || bool_decide (is_Some err) then Done w1
    else let* w2 := parseRune fuel Stat (parse_source n') r w1 in parse_source n' src' w2
  end.

(** [Parse]: a reader, a string, or a buffer; [args] are added to the page's attributes. *)
Inductive parse_in := InRdr (r : anyrdr) | InStr (s : list Z) | InBuf (b : Buffer) | InNothing.

Definition add_args (args : attributes) (w : markuptemplate) : exec markuptemplate :=
  match current w with
  | Some id =>
    if (prsix w =? 0) && negb (bool_decide (args = ∅)) then
      let* c := get w id in
      match attrbs c with
      | Some mp => Done (upd w id (set_attrbs (Some (args ∪ mp))))
      | None => Panic
      end
    else Done w
  | None => Done w
  end.

Definition Parse (n : nat) (i : parse_in) (args : attributes) (w : markuptemplate) : exec markuptemplate :=
  let go rd := let* w1 := add_args args w in Parse_reader (parse_source n) rd w1 in
  match i with
  | InRdr r => go r
  | InStr s => go (string_rdr s)
  | InBuf b =>
    if Buffer.Empty (Some b) then add_args args w
    else let* rd := BuffReader.Reader (Some b) NoContext false [] in go (AnyRdr (option BuffReader) _ rd)
  | InNothing => Done w
  end.

Definition Wrapup (n : nat) (w : markuptemplate) : exec markuptemplate :=
  if (size (cntntprsngs w) =? 1)%nat && (prsix w =? 0) then
    match current w with Some id => close_content fuel (parse_source n) id w | None => Panic end
  else Done w.
End parse.

Definition MarkupTemplate (f : fileinfo) : exec markuptemplate :=
  let* '(_, w) := appendCntntParsing None f ElemSingle (MkMarkup [] ∅ 0 ∅ ∅ None None) in Done w.

Definition Content (o : option markuptemplate) : option Buffer := match o with Some m => cntntbf m | None => None end.
Definition markup_Code (o : option markuptemplate) : option Buffer := match o with Some m => m_cdebf m | None => None end.
Definition InvalidElements (o : option markuptemplate) : gmap (list Z) bool := match o with Some m => invalidElem m | None => ∅ end.
Definition ValidElements (o : option markuptemplate) : gmap (list Z) fileinfo := match o with Some m => validElem m | None => ∅ end.
