(* ===== verification/Tags.v ===== *)
(** A tag in a template (src/template/content.go): what the content parser of Elements does
    with the runes of [<name attributes>] when the tag names no file: it goes out as it was
    read.  [quiet] are the runes a parser handles without parsing a file in between;
    Templates has the tags that name one. *)

From S2P Require Import Prelude Runes GoStrings Readers RuneReaders Buffer BufferCursor BuffReader Texts MapReader Parsing Attributes Code Compile Elements.
From stdpp Require Import gmap.
From Stdlib Require Strings.String.
Import Stdlib.Strings.String.StringSyntax.
#[local] Open Scope Z_scope.
#[local] Delimit Scope string_scope with string.
#[local] Arguments str s%_string.

(** ** Worlds with one parser at work *)

Definition put (w : markuptemplate) (id : nat) (c : contentparsing) : markuptemplate := set_heap w (<[id := c]> (heap w)).

Lemma get_put w id c : (id < length (heap w))%nat → get (put w id c) id = Done c.
Proof. intros Hid. unfold get, put. cbn. by rewrite list_lookup_insert_eq. Qed.

Lemma put_put w id c c' : put (put w id c) id c' = put w id c'.
Proof. unfold put. cbn. by rewrite list_insert_insert_eq. Qed.

Lemma upd_put w id c f : (id < length (heap w))%nat → upd (put w id c) id f = put w id (f c).
Proof.
  intros Hid. unfold upd, put, set_heap. cbn. f_equal. apply list_eq. intros j. destruct (decide (j = id)) as [->|Hj].
  - rewrite list_lookup_alter_eq, !list_lookup_insert_eq by done. done.
  - by rewrite list_lookup_alter_ne, !list_lookup_insert_ne by done.
Qed.

Lemma put_get w id c : heap w !! id = Some c → put w id c = w.
Proof. intros E. unfold put. rewrite list_insert_id by done. by destruct w. Qed.

Lemma length_put w id c : length (heap (put w id c)) = length (heap w).
Proof. unfold put. cbn. apply length_insert. Qed.

(** A code parser outside code with the text [v]. *)
Definition cde_ok (s : codeparsing) (p : Parsing) (v : view) : Prop :=
  parser_for false CdePre CdePost p ∧ at_mode true CdePre p (Outside 0) ∧ shows s v.

Definition is_lit (t : tok) : Prop := match t with TLit _ => True | _ => False end.

Lemma text_handles levels fuel v :
  handles (λ r, utf8.ValidRune r = true) (Forall is_lit) (code_events levels fuel) (λ s ts, shows s (steps v ts)) None.
Proof.
  assert (∀ (ts : list tok) t, Forall is_lit (ts ++ [t]) → is_lit t) as Hl.
  { intros ts t Hts. apply Forall_app in Hts as [_ Hts]. by inversion Hts. }
  split; [| done|done| | | |].
  - intros a b Hab. by apply Forall_app in Hab as [? _].
  - eexists. split; [done|]. intros rns s p ts Hv Hne Hs _.
    destruct (passiveRunes_is fuel rns s p _ Hs Hv Hne) as (s' & -> & Hs'). exists s'.
    by rewrite steps_app, steps_lits.
  - intros s p ts _ Hg. by apply Hl in Hg.
  - eexists. split; [done|]. intros c rns s p ts out _ Hne _ Hg. subst out. apply Forall_app in Hg as [_ Hg].
    destruct rns; [done|]. by inversion Hg.
  - eexists. split; [done|]. intros s p ts _ Hg. by apply Hl in Hg.
Qed.

(** Text without a code mark. *)
Definition tame (rns : list Z) : Prop :=
  valid_runes rns ∧ machine_run CdePre CdePost None true (Outside 0) rns = (Outside 0, map TLit rns).

Section theory.
Context (fuel : nat) (Stat : list Z → option fileinfo).

Lemma preRunes_run rns id w c m v ts :
  (id < length (heap w))%nat → valid_runes rns →
  parser_for false CdePre CdePost (cde_parsing c) → at_mode true CdePre (cde_parsing c) m → mode_ok CdePre CdePost m →
  shows (cde c) (steps v ts) → Forall is_lit (ts ++ (machine_run CdePre CdePost None true m rns).2) →
  ∃ s p, preRunes fuel id rns (put w id c) = Done (put w id (set_cde s p c)) ∧
    parser_for false CdePre CdePost p ∧ at_mode true CdePre p (machine_run CdePre CdePost None true m rns).1 ∧
    shows s (steps v (ts ++ (machine_run CdePre CdePost None true m rns).2)).
Proof.
  intros Hid Hv. revert c m ts. induction rns as [|r rns IH]; intros c m ts Hp Hm Hok Hs Hl.
  { exists (cde c), (cde_parsing c). cbn in *. rewrite app_nil_r. split; [|done]. by destruct c. }
  inversion Hv as [|? ? Hr Hv']; subst. cbn [preRunes]. unfold cde_parse, with_cde. rewrite get_put by done. cbn [exec_bind].
  cbn [machine_run] in Hl |- *.
  pose proof (parse_machine _ _ None CdePre CdePost false true (λ r, utf8.ValidRune r = true) (Forall is_lit)
    (text_handles (levels_of (put w id c) id) fuel v) ltac:(done) ltac:(by repeat constructor) ltac:(by repeat constructor) m r (cde c) (cde_parsing c) ts) as Hstep.
  pose proof (machine_ok CdePre CdePost None true m r ltac:(cbn; lia) ltac:(cbn; lia) Hok) as Hok1.
  destruct (machine CdePre CdePost None true m r) as [m1 t1]. cbn [fst snd] in *.
  specialize (IH Hv'). 
  destruct Hstep as (s1 & p1 & -> & Hp1 & Hm1 & Hs1); try done.
  { cbn; lia. } { cbn; lia. }
  { destruct (machine_run CdePre CdePost None true m1 rns) as [m2 t2]. cbn in Hl. rewrite app_assoc in Hl. by apply Forall_app in Hl as [? _]. }
  cbn [exec_bind]. rewrite upd_put by done.
  destruct (IH (set_cde s1 p1 c) m1 (ts ++ t1)) as (s & p & E & Hp2 & Hm2 & Hs2); try done.
  { destruct (machine_run CdePre CdePost None true m1 rns) as [m2 t2]. cbn in *. by rewrite <- app_assoc. }
  exists s, p. rewrite E. destruct (machine_run CdePre CdePost None true m1 rns) as [m2 t2]. cbn [fst snd] in *.
  split; [done|]. by rewrite app_assoc.
Qed.

(** Text goes to the code parser. *)
Lemma preRunes_text rns id w c v :
  (id < length (heap w))%nat → tame rns → cde_ok (cde c) (cde_parsing c) v →
  ∃ s p, preRunes fuel id rns (put w id c) = Done (put w id (set_cde s p c)) ∧ cde_ok s p (with_text v rns).
Proof.
  intros Hid [Hv Hr] (Hp & Hm & Hs).
  destruct (preRunes_run rns id w c (Outside 0) v []) as (s & p & E & Hp' & Hm' & Hs'); try done.
  { cbn; lia. }
  { rewrite Hr. cbn. apply Forall_fmap, Forall_forall. done. }
  exists s, p. split; [done|]. rewrite Hr in Hm', Hs'. cbn [fst snd app] in *. rewrite steps_lits in Hs'. done.
Qed.
End theory.

(** ** Text without a code mark *)

Lemma run_plain l : 60 ∉ l → machine_run CdePre CdePost None true (Outside 0) l = (Outside 0, map TLit l).
Proof.
  induction l as [|r l IH]; intros Hl; [done|]. apply not_elem_of_cons in Hl as [Hr Hl]. cbn [machine_run machine].
  unfold outside. cbn [lookup list_lookup CdePre]. rewrite bool_decide_eq_false_2 by congruence. cbn. by rewrite IH.
Qed.

Lemma tame_plain l : valid_runes l → 60 ∉ l → tame l.
Proof. intros Hv Hl. split; [done|by apply run_plain]. Qed.

(** A [<] that does not begin a code mark. *)
Lemma tame_tag x l : valid_runes (60 :: x :: l) → x ≠ 37 → 60 ∉ x :: l → tame (60 :: x :: l).
Proof.
  intros Hv Hx Hl. split; [done|]. apply not_elem_of_cons in Hl as [Hx2 Hl]. cbn [machine_run machine]. unfold outside at 1.
  rewrite bool_decide_eq_true_2 by done. cbn [Nat.eqb length CdePre]. cbn [machine]. unfold outside.
  rewrite bool_decide_eq_false_2 by (cbn; congruence). cbn [Nat.eqb].
  rewrite bool_decide_eq_false_2 by (cbn; congruence). rewrite run_plain by done. done.
Qed.

Lemma tame_app a b : tame a → tame b → tame (a ++ b).
Proof.
  intros [Hva Ha] [Hvb Hb]. split; [by apply Forall_app|]. by rewrite machine_run_app, Ha, Hb, map_app.
Qed.

(** ** A label parser with labels of one rune *)

Section one_rune.
Context {U : Type} (ev : events U) (x y : Z).
Hypothesis can_pre : EventCanPreParse ev = None.
Hypothesis can_post : EventCanPostParse ev = None.

Lemma outside_call f r u p :
  EventPreRunes ev = Some f → parser_for false [x] [y] p → at_mode true [x] p (Outside 0) → r ≠ x →
  parse_one ev r u p = f [r] u (set_pos p 0 r 0).
Proof.
  intros Hf [E1 E2 E3 E4 E5 E6] (M1 & M2 & M3 & _) Hr. unfold parse_one. cbn [parse]. rewrite M1, M2, E2.
  change ((0 =? 0) && (Z.of_nat 0 <? len [x])) with true. cbv iota. unfold parse_pre.
  rewrite (pre_text_off ev false) by (done || by destruct (pretxtprs p) as [?|]; [destruct E6|]). cbn [exec_bind].
  unfold CanPreParse. rewrite can_pre. unfold pre_label, pre_broken. rewrite M1. change (0 <? Z.of_nat 0) with false. cbv iota.
  assert ((if negb (isText (pretxtprs p)) then true else true) = true) as -> by by destruct (negb _).
  cbn [exec_bind]. rewrite E1, M1. change (index [x] (Z.of_nat 0)) with (Done x). cbn [exec_bind].
  rewrite (proj2 (Z.eqb_neq x r)) by congruence. cbn [exec_bind]. unfold pre_rune. rewrite M1. change (0 <? Z.of_nat 0) with false.
  cbv iota. unfold evtpre. by rewrite Hf, M2.
Qed.

Lemma open_call g u p :
  EventMatchedPre ev = Some g → parser_for false [x] [y] p → at_mode true [x] p (Outside 0) →
  parse_one ev x u p = (let* '(u', p') := g u (set_pos p 1 (prvr p) 0) in Done (u', p')).
Proof.
  intros Hg [E1 E2 E3 E4 E5 E6] (M1 & M2 & M3 & _). unfold parse_one. cbn [parse]. rewrite M1, M2, E2.
  change ((0 =? 0) && (Z.of_nat 0 <? len [x])) with true. cbv iota. unfold parse_pre.
  assert (pre_text ev x u p = Done (false, u, p)) as ->.
  { unfold pre_text, txt_Parse. destruct (pretxtprs p) as [t|] eqn:Ep; [by destruct E6|]. cbn. f_equal. f_equal. by destruct p; cbn in *; subst. }
  cbn [exec_bind]. unfold CanPreParse. rewrite can_pre.
  assert ((if negb (isText (pretxtprs p)) then true else true) = true) as -> by by destruct (negb _).
  unfold pre_label, pre_broken. rewrite M1. change (0 <? Z.of_nat 0) with false. cbv iota. cbn [exec_bind].
  rewrite E1, M1. change (index [x] (Z.of_nat 0)) with (Done x). cbn [exec_bind]. rewrite Z.eqb_refl, E2.
  change (Z.of_nat 0 + 1 =? len [x]) with true. cbv iota. unfold evtmtchpre. rewrite Hg, M2.
  change (Z.of_nat 0 + 1) with 1. by destruct (g u _) as [[u' p']| |].
Qed.

(** Inside, a rune of a quoted text or one that is not the mark. *)
Definition texted (p : Parsing) (r : Z) : Parsing := set_txts p (pretxtprs p) (txt_Parse (posttxtprs p) r).2.

Lemma inside_call f q r u p :
  EventPostRunes ev = Some f → parser_for false [x] [y] p → at_mode true [x] p (Inside 0 q) → (q = None → r ≠ y) →
  parse_one ev r u p = (let* '(reset, u', p') := f false [r] u (texted p r) in Done (u', if (reset : bool) then set_pos p' 0 0 0 else p')).
Proof.
  intros Hf [E1 E2 E3 E4 E5 E6] (M1 & M2 & M3) Hr. unfold parse_one. cbn [parse]. rewrite M1, M2, E2, E4.
  change (len [x]) with 1. change (len [y]) with 1. change ((Z.of_nat 0 =? 0) && (1 <? 1)) with false.
  change ((1 =? 1) && (Z.of_nat 0 <? 1)) with true. cbv iota. unfold post_text, texted.
  pose proof (txt_Parse_at true (posttxtprs p) q r M3) as Ht.
  destruct (quote_step true q r) as [q'|] eqn:Eq.
  - destruct Ht as (t & -> & Hl & Ht). rewrite Hf. cbn [snd]. rewrite Hl. unfold evtpost.
    destruct (f false [r] u _) as [[[rs u'] p']| |]; cbn [exec_bind]; by try destruct rs.
  - destruct Ht as [-> ->]. cbn [exec_bind snd].
    assert (set_txts p (pretxtprs p) (posttxtprs p) = p) as -> by by destruct p.
    unfold post_label, CanPostParse. rewrite can_post.
    assert ((if negb (isText (posttxtprs p)) then true else true) = true) as -> by by destruct (negb _).
    rewrite E3, M2. change (index [y] (Z.of_nat 0)) with (Done y). cbn [exec_bind].
    rewrite (proj2 (Z.eqb_neq y r)) by (intros ->; by apply Hr). cbn [exec_bind]. unfold post_rune. rewrite Hf, M2.
    change (0 <? Z.of_nat 0) with false. cbv iota. unfold evtpost.
    destruct (f false [r] u _) as [[[rs u'] p']| |]; cbn [exec_bind]; by try destruct rs.
Qed.

Lemma texted_at q r p :
  parser_for false [x] [y] p → at_mode true [x] p (Inside 0 q) →
  parser_for false [x] [y] (texted p r) ∧ at_mode true [x] (texted p r) (Inside 0 (default q (quote_step true q r))).
Proof.
  intros [E1 E2 E3 E4 E5 E6] (M1 & M2 & M3). pose proof (txt_Parse_at true (posttxtprs p) q r M3) as Ht. unfold texted.
  destruct (quote_step true q r) as [q'|].
  - destruct Ht as (t & -> & _ & Ht). by split.
  - destruct Ht as [-> ->]. by split.
Qed.

Lemma close_call g u p :
  EventMatchedPost ev = Some g → parser_for false [x] [y] p → at_mode true [x] p (Inside 0 None) → IsTxtPar y = false →
  parse_one ev y u p = (let* '(_, u', p') := g u (set_pos p 1 (prvr p) 1) in Done (u', set_pos p' 0 0 0)).
Proof.
  intros Hg [E1 E2 E3 E4 E5 E6] (M1 & M2 & M3) Hy. unfold parse_one. cbn [parse]. rewrite M1, M2, E2, E4.
  change (len [x]) with 1. change (len [y]) with 1. change ((Z.of_nat 0 =? 0) && (1 <? 1)) with false.
  change ((1 =? 1) && (Z.of_nat 0 <? 1)) with true. cbv iota. unfold post_text.
  pose proof (txt_Parse_at true (posttxtprs p) None y M3) as Ht. unfold quote_step in Ht. rewrite Hy in Ht. cbn [andb] in Ht.
  destruct Ht as [-> _]. cbn [exec_bind].
  assert (set_txts p (pretxtprs p) (posttxtprs p) = p) as -> by by destruct p.
  unfold post_label, CanPostParse. rewrite can_post.
  assert ((if negb (isText (posttxtprs p)) then true else true) = true) as -> by by destruct (negb _).
  rewrite E3, M2. change (index [y] (Z.of_nat 0)) with (Done y). cbn [exec_bind]. rewrite Z.eqb_refl, Hg, M1. cbn [posti set_pos postL].
  rewrite E4. change (Z.of_nat 0 + 1 =? len [y]) with true. cbv iota. change (Z.of_nat 0 + 1) with 1. change (len [x]) with 1.
  destruct (g u _) as [[[b u'] p']| |]; done.
Qed.
End one_rune.

(** ** One parser at work *)

Definition same_static (c c' : contentparsing) : Prop :=
  elmlvl c' = elmlvl c ∧ elmname c' = elmname c ∧ elmroot c' = elmroot c ∧ elmbase c' = elmbase c ∧ root c' = root c ∧
  base c' = base c ∧ path c' = path c ∧ attrbs c' = attrbs c ∧ fi c' = fi c ∧ prvc c' = prvc c.

Lemma same_static_refl c : same_static c c.
Proof. done. Qed.

Lemma same_static_trans c1 c2 c3 : same_static c1 c2 → same_static c2 c3 → same_static c1 c3.
Proof. unfold same_static. intuition congruence. Qed.

(** The test of an element: its name, last rune, level and attributes so far. *)
Record tagging (c : contentparsing) (m : mode) (n : list Z) (r : Z) (l : ElemLevel) (a : option (attributeparser * Parsing))
    (lst : option attributes) (v : view) : Prop := {
  tg_prs : parser_for false [60] [62] (parsing c);
  tg_at : at_mode true [60] (parsing c) m;
  tg_n : c_tstname c = n;
  tg_r : tstr c = r;
  tg_l : c_tstlvl c = l;
  tg_a : tstatrbs c = a;
  tg_lst : lstattrbs c = lst;
  tg_cde : cde_ok (cde c) (cde_parsing c) v }.

(** Outside an element. *)
Definition resting (c : contentparsing) (v : view) : Prop := tagging c (Outside 0) [] 0 ElemUnkown None None v.

Lemma cde_ok_idle s p v : cde_ok s p v → Busy (Some p) = false.
Proof. intros ([_ E _ E2 _ _] & (M1 & _) & _). cbn. by rewrite E, E2, M1. Qed.

(** All elements are single ones; the parser [id] is on top of the stack, and the one
    below it is there. *)
Definition singles (w : markuptemplate) : Prop := ∀ j c, heap w !! j = Some c → elmlvl c = ElemSingle.

Record working (w : markuptemplate) (id : nat) : Prop := {
  wk_top : current w = Some id;
  wk_in : (id < length (heap w))%nat;
  wk_single : singles w;
  wk_below : prsix w = 0 ∨ ∃ j, cntntprsngs w !! (prsix w - 1) = Some j ∧ j ≠ id ∧ (j < length (heap w))%nat }.

Lemma singles_put w id c : singles w → elmlvl c = ElemSingle → singles (put w id c).
Proof.
  intros Hs Hc j c' E. unfold put in E. cbn in E. apply list_lookup_insert_Some in E as [(-> & -> & _)|[_ E]]; eauto.
Qed.

Lemma working_put w id c : working w id → elmlvl c = ElemSingle → working (put w id c) id.
Proof.
  intros [H1 H2 H3 H4] Hc. split; [done|by rewrite length_put|by apply singles_put|].
  destruct H4 as [?|(j & ? & ? & ?)]; [by left|]. right. exists j. by rewrite length_put.
Qed.

Lemma chain_single h n o : (∀ j c, h !! j = Some c → elmlvl c = ElemSingle) → noncode (chain n h o) = false.
Proof.
  intros Hh. revert o. induction n as [|n IH]; intros o; [done|]. cbn [chain]. destruct o as [j|]; [|done].
  destruct (h !! j) as [c|] eqn:E; [|done]. unfold noncode in *. cbn [existsb]. rewrite (Hh j c E). cbn. apply IH.
Qed.

Lemma levels_single w id : singles w → noncode (levels_of w id) = false.
Proof. intros Hs. by apply chain_single. Qed.

Section runes.
Context (fuel : nat) (Stat : list Z → option fileinfo).

(** A world in which the readers' callbacks do nothing. *)
Definition calm (w : markuptemplate) : Prop :=
  singles w ∧ ∃ id c, current w = Some id ∧ heap w !! id = Some c ∧ Busy (Some (cde_parsing c)) = false.

(** Runes that need no parsing on from inside. *)
Inductive quiet : list Z → markuptemplate → markuptemplate → Prop :=
| quiet_nil w : quiet [] w w
| quiet_cons r rs w w1 w2 :
    calm w → (∀ reparse, parseRune fuel Stat reparse r w = Done w1) → quiet rs w1 w2 → quiet (r :: rs) w w2.

Lemma quiet_app a b w1 w2 w3 : quiet a w1 w2 → quiet b w2 w3 → quiet (a ++ b) w1 w3.
Proof. induction 1; intros; cbn; [done|]. econstructor; eauto. Qed.

Lemma calm_put w id c : working w id → elmlvl c = ElemSingle → Busy (Some (cde_parsing c)) = false → calm (put w id c).
Proof.
  intros [H1 H2 H3 _] Hc Hb. split; [by apply singles_put|]. exists id, c. split; [done|]. split; [|done].
  unfold put. cbn. by rewrite list_lookup_insert_eq.
Qed.

(** One rune of the parser at work. *)
Lemma quiet_one r w w' id c c' p m n rr l a lst v :
  working w id → elmlvl c = ElemSingle → tagging c m n rr l a lst v →
  (∀ reparse, parse_one (events_of fuel Stat reparse id) r (put w id c) (parsing c) = Done (put w' id c', p)) →
  (id < length (heap w'))%nat → quiet [r] (put w id c) (put w' id (set_parsing p c')).
Proof.
  intros Hw Hc Ht Hp Hid. econstructor; [apply calm_put; [done|done|by eapply cde_ok_idle, tg_cde]| |constructor].
  intros reparse. unfold parseRune. rewrite (wk_top _ _ (working_put w id c Hw Hc)).
  unfold content_parse. rewrite get_put by apply Hw. cbn [exec_bind].
  rewrite (cde_ok_idle _ _ _ (tg_cde _ _ _ _ _ _ _ _ Ht)). rewrite Hp. cbn [exec_bind].
  by rewrite upd_put.
Qed.

Lemma set_parsing_same c : set_parsing (parsing c) c = c.
Proof. by destruct c. Qed.

(** Text. *)
Lemma text_rune r w id c v :
  working w id → elmlvl c = ElemSingle → resting c v → r ≠ 60 → utf8.ValidRune r = true →
  ∃ c', quiet [r] (put w id c) (put w id c') ∧ resting c' (with_text v [r]) ∧ same_static c c'.
Proof.
  intros Hw Hc Ht Hr Hv. pose proof (wk_in _ _ Hw) as Hid. set (p1 := set_pos (parsing c) 0 r 0).
  destruct (preRunes_text fuel [r] id w (set_parsing p1 c) v Hid) as (s & p & E & Hok).
  { apply tame_plain; [by repeat constructor|]. by rewrite list_elem_of_singleton. }
  { apply Ht. }
  exists (set_cde s p (set_parsing p1 c)). split.
  - change (set_cde s p (set_parsing p1 c)) with (set_parsing p1 (set_cde s p (set_parsing p1 c))).
    eapply quiet_one; [done|done|done| |done]. intros reparse.
    pose proof Ht as [T1 T2 _ _ _ _ _ _].
    rewrite (outside_call (events_of fuel Stat reparse id) 60 62 eq_refl _ r _ _ eq_refl T1 T2 Hr). unfold with_parsing. rewrite upd_put by done.
    unfold p1 in E. rewrite E. cbn [exec_bind]. rewrite get_put by done. done.
  - destruct Ht as [T1 T2 T3 T4 T5 T6 T7 T8]. split; [|done].
    assert (parser_for false [60] [62] p1) as Hp1 by by apply set_pos_parser.
    assert (at_mode true [60] p1 (Outside 0)) as Hm1 by (destruct T2 as (? & ? & ? & ?); split_and!; [done|done|done|lia]).
    by split.
Qed.

(** The beginning of a tag. *)
Lemma open_rune w id c v :
  working w id → elmlvl c = ElemSingle → resting c v →
  ∃ c', quiet [60] (put w id c) (put w id c') ∧ tagging c' (Inside 0 None) [] 0 ElemUnkown None None v ∧ same_static c c'.
Proof.
  intros Hw Hc Ht. pose proof (wk_in _ _ Hw) as Hid. set (p1 := set_pos (parsing c) 1 (prvr (parsing c)) 0).
  exists (set_parsing p1 c). pose proof Ht as [T1 T2 T3 T4 T5 T6 T7 T8]. split.
  - econstructor; [apply calm_put; [done|done|by eapply cde_ok_idle]| |constructor].
    intros reparse. unfold parseRune. rewrite (wk_top _ _ (working_put w id c Hw Hc)).
    unfold content_parse. rewrite get_put by done. cbn [exec_bind]. rewrite (cde_ok_idle _ _ _ T8).
    rewrite (open_call (events_of fuel Stat reparse id) 60 62 eq_refl _ _ _ eq_refl T1 T2). cbn [exec_bind]. by rewrite upd_put by done.
  - split; [|done]. assert (parser_for false [60] [62] p1) as Hp1 by by apply set_pos_parser.
    split; try done. destruct T2 as (? & ? & ? & ?). split_and!; done.
Qed.

(** A rune of a tag. *)
Lemma tag_rune r w id c q n rr l a lst n' rr' l' a' lst' v :
  working w id → elmlvl c = ElemSingle → tagging c (Inside 0 q) n rr l a lst v → (q = None → r ≠ 62) →
  (∀ c1, c_tstname c1 = n → tstr c1 = rr → c_tstlvl c1 = l → tstatrbs c1 = a → lstattrbs c1 = lst →
    post_runes fuel id false [r] (put w id c1) = Done (false, put w id (set_lstattrbs lst' (set_test n' rr' l' a' c1)))) →
  ∃ c', quiet [r] (put w id c) (put w id c') ∧
    tagging c' (Inside 0 (default q (quote_step true q r))) n' rr' l' a' lst' v ∧ same_static c c'.
Proof.
  intros Hw Hc Ht Hr Hp. pose proof (wk_in _ _ Hw) as Hid. pose proof Ht as [T1 T2 T3 T4 T5 T6 T7 T8].
  destruct (texted_at 60 62 q r (parsing c) T1 T2) as [Hp1 Hm1].
  exists (set_lstattrbs lst' (set_test n' rr' l' a' (set_parsing (texted (parsing c) r) c))). split; [|split; [by split|done]].
  econstructor; [apply calm_put; [done|done|by eapply cde_ok_idle]| |constructor].
  intros reparse. unfold parseRune. rewrite (wk_top _ _ (working_put w id c Hw Hc)).
  unfold content_parse. rewrite get_put by done. cbn [exec_bind]. rewrite (cde_ok_idle _ _ _ T8).
  rewrite (inside_call (events_of fuel Stat reparse id) 60 62 eq_refl _ q r _ _ eq_refl T1 T2 Hr). unfold with_parsing. rewrite upd_put by done.
  cbn [postRunes]. rewrite Hp by done. cbn [exec_bind]. rewrite get_put by done. cbn [exec_bind].
  by rewrite upd_put by done.
Qed.
End runes.

(** ** Tags *)

Record tag := MkTag { t_level : ElemLevel; t_name : list Z; t_attrs : list attribute; t_space : bool }.

Definition attr_text (t : tag) : list Z := concat (map written (t_attrs t)) ++ (if t_space t then [32] else []).

(** What stands between < and >. *)
Definition tag_inner (t : tag) : list Z :=
  (match t_level t with ElemEnd => [47] | _ => [] end) ++ t_name t ++ attr_text t ++
  (match t_level t with ElemSingle => [47] | _ => [] end).
Definition tag_text (t : tag) : list Z := 60 :: tag_inner t ++ [62].

(** Text without an element, a key, a code or a hole. *)
Definition ordinary (r : Z) : Prop := utf8.ValidRune r = true ∧ r ≠ 60 ∧ r ≠ 91 ∧ r ≠ 123.

Record tag_ok (t : tag) : Prop := {
  tk_level : t_level t ≠ ElemUnkown;
  tk_name : t_name t ≠ [];
  tk_chars : Forall (λ r, validElmchar r = true ∧ r ≠ 58) (t_name t);
  tk_attrs : Forall attribute_ok (t_attrs t);
  tk_values : Forall (λ a, Forall ordinary (at_value a)) (t_attrs t);
  tk_end : t_level t = ElemEnd → t_attrs t = [] ∧ t_space t = false }.

(** *** Runes of names *)

Lemma elmchar_range r : validElmchar r = true → 45 <= r < 123 ∧ r ≠ 47 ∧ r ≠ 60 ∧ r ≠ 62 ∧ r ≠ 61 ∧ r ≠ 91 ∧ r ≠ 96.
Proof.
  unfold validElmchar. rewrite !orb_true_iff, !andb_true_iff, ?Z.eqb_eq, ?Z.leb_le, ?Z.ltb_lt. lia.
Qed.

Lemma elmchar_quote r : validElmchar r = true → IsTxtPar r = false.
Proof.
  intros H%elmchar_range. apply not_true_iff_false. intros (q & Hq & ->%Z.eqb_eq)%existsb_exists.
  repeat destruct Hq as [<-|Hq]; try done; lia.
Qed.

Lemma elmchar_valid r : validElmchar r = true → utf8.ValidRune r = true.
Proof. intros H%elmchar_range. unfold utf8.ValidRune. repeat zcase; cbn; try done; lia. Qed.

Lemma valid_char rr r : rr = 0 ∨ validElmchar rr = true → validElmchar r = true → validElemChar rr r = (true, false).
Proof.
  intros Hrr Hr. pose proof (valid_name_char r Hr) as E. unfold validElemChar in *. destruct (IsSpace r); [done|].
  destruct Hrr as [->|Hrr]; [done|]. rewrite Hrr, Hr. by destruct (0 <? rr).
Qed.

Lemma quote_none r : IsTxtPar r = false → default None (quote_step true None r) = None.
Proof. intros Hr. unfold quote_step. by rewrite Hr. Qed.

Section tags.
Context (fuel : nat) (Stat : list Z → option fileinfo).
#[local] Abbreviation quiet := (quiet fuel Stat).

Lemma name_rune r w id c n rr l v :
  working w id → elmlvl c = ElemSingle → l = ElemStart ∨ l = ElemEnd → rr = 0 ∨ validElmchar rr = true → validElmchar r = true →
  tagging c (Inside 0 None) n rr l None None v →
  ∃ c', quiet [r] (put w id c) (put w id c') ∧ tagging c' (Inside 0 None) (n ++ [r]) r l None None v ∧ same_static c c'.
Proof.
  intros Hw Hc Hl Hrr Hr Ht. pose proof (elmchar_range r Hr) as Hrange. pose proof (valid_char rr r Hrr Hr) as Hvc.
  destruct (tag_rune fuel Stat r w id c None n rr l None None (n ++ [r]) r l None None v Hw Hc Ht) as (c' & Hq & Ht' & Hs).
  - intros _. lia.
  - intros c1 <- <- <- E4 E5. cbn [post_runes]. rewrite get_put by apply Hw. cbn [exec_bind]. rewrite E4, Hvc.
    destruct Hl as [-> | ->]; rewrite ?(proj2 (Z.eqb_neq r 47)) by lia; cbn [fst]; rewrite upd_put by apply Hw; do 3 f_equal;
      rewrite <- E5; by destruct c1.
  - exists c'. rewrite quote_none in Ht' by by apply elmchar_quote. done.
Qed.

Lemma name_runes k w id c n rr l v :
  working w id → elmlvl c = ElemSingle → l = ElemStart ∨ l = ElemEnd → rr = 0 ∨ validElmchar rr = true →
  Forall (λ r, validElmchar r = true) k → tagging c (Inside 0 None) n rr l None None v →
  ∃ c' rr', quiet k (put w id c) (put w id c') ∧ tagging c' (Inside 0 None) (n ++ k) rr' l None None v ∧ same_static c c'.
Proof.
  intros Hw Hc Hl. revert c n rr Hc. induction k as [|r k IH]; intros c n rr Hc Hrr Hk Ht.
  - exists c, rr. rewrite app_nil_r. split; [constructor|done].
  - inversion Hk as [|? ? Hr Hk']; subst.
    destruct (name_rune r w id c n rr l v Hw Hc Hl Hrr Hr Ht) as (c1 & Hq & Ht1 & Hs1).
    destruct (IH c1 (n ++ [r]) r) as (c2 & rr2 & Hq2 & Ht2 & Hs2); [destruct Hs1; congruence|by right|done|done|].
    exists c2, rr2. split; [by eapply (quiet_app _ _ [r])|]. split; [by rewrite <- app_assoc in Ht2|]. by eapply same_static_trans.
Qed.

(** The name of a tag that opens an element. *)
Lemma start_name k w id c v :
  working w id → elmlvl c = ElemSingle → k ≠ [] → Forall (λ r, validElmchar r = true) k →
  tagging c (Inside 0 None) [] 0 ElemUnkown None None v →
  ∃ c' rr', quiet k (put w id c) (put w id c') ∧ tagging c' (Inside 0 None) k rr' ElemStart None None v ∧ same_static c c'.
Proof.
  intros Hw Hc Hne Hk Ht. destruct k as [|r k]; [done|]. inversion Hk as [|? ? Hr Hk']; subst.
  pose proof (elmchar_range r Hr) as Hrange. pose proof (valid_char 0 r (or_introl eq_refl) Hr) as Hvc.
  destruct (tag_rune fuel Stat r w id c None [] 0 ElemUnkown None None [r] r ElemStart None None v Hw Hc Ht) as (c1 & Hq & Ht1 & Hs1).
  - intros _. lia.
  - intros c1 E1 E2 E3 E4 E5. cbn [post_runes]. rewrite get_put by apply Hw. cbn [exec_bind]. rewrite E2, E3, Hvc.
    rewrite (proj2 (Z.eqb_neq r 47)) by lia. cbn [fst]. rewrite upd_put by apply Hw. do 3 f_equal. rewrite E1, E4, <- E5. by destruct c1.
  - rewrite quote_none in Ht1 by by apply elmchar_quote.
    destruct (name_runes k w id c1 [r] r ElemStart v) as (c2 & rr2 & Hq2 & Ht2 & Hs2); auto; [destruct Hs1; congruence|].
    exists c2, rr2. split; [by eapply (quiet_app _ _ [r])|]. split; [done|]. by eapply same_static_trans.
Qed.

(** The slash and the name of a tag that closes one. *)
Lemma slash_rune w id c n rr l l' a v lst :
  working w id → elmlvl c = ElemSingle →
  (l = ElemUnkown ∧ l' = ElemEnd ∨ l = ElemStart ∧ l' = ElemSingle ∧
    match a with Some (x, p) => Busy (Some p) = false ∧ (tstlvl x = AttribUknown ∨ tstlvl x = AttribContinue) | None => True end) →
  tagging c (Inside 0 None) n rr l a lst v →
  ∃ c', quiet [47] (put w id c) (put w id c') ∧ tagging c' (Inside 0 None) n rr l' a lst v ∧ same_static c c'.
Proof.
  intros Hw Hc Hl Ht.
  destruct (tag_rune fuel Stat 47 w id c None n rr l a lst n rr l' a lst v Hw Hc Ht) as (c1 & Hq & Ht1 & Hs1).
  - done.
  - intros c1 E1 E2 E3 E4 E5. cbn [post_runes]. rewrite get_put by apply Hw. cbn [exec_bind]. rewrite E3.
    destruct Hl as [(-> & ->)|(-> & -> & Ha)].
    + change (47 =? 47) with true. cbv iota. rewrite upd_put by apply Hw. do 3 f_equal. rewrite E1, E2, E4, <- E5. by destruct c1.
    + rewrite E4. destruct a as [[x p]|].
      * destruct Ha as [-> Ha]. change (47 =? 47) with true.
        assert (bool_decide (tstlvl x = AttribUknown) || bool_decide (tstlvl x = AttribContinue) = true) as ->.
        { destruct Ha as [-> | ->]; done. }
        cbn [andb]. rewrite upd_put by apply Hw. do 3 f_equal. rewrite E1, E2, <- E5. by destruct c1.
      * change (47 =? 47) with true. cbv iota. rewrite upd_put by apply Hw. do 3 f_equal. rewrite E1, E2, <- E5. by destruct c1.
  - by exists c1.
Qed.
End tags.

(** *** Attributes *)

Definition quote_next (q : option (Z * Z)) (r : Z) : option (Z * Z) := default q (quote_step true q r).

Definition add_raw (a : attributeparser) (x : list Z) : attributeparser :=
  MkAttr (txttst a) (raw a ++ x) (rawl a + len x) (invdl a) (tstlvl a) (tstname a) (tstvalue a) (tstprvr a) (atvrnes a) (values a).

Lemma pass_add_raw a x r : pass (add_raw a x) r = add_raw (pass a r) x.
Proof.
  destruct a as [t rw rl iv lv nm vl pv av vs]. unfold pass, passive_rune. cbn [add_raw tstlvl tstprvr tstname tstvalue txttst].
  destruct lv, (validElemChar pv r) as [[] []], (r =? 61), (isText t), (IsSpace r), (txt_Parse t r) as [[] t']; try reflexivity;
    destruct (isText t'); reflexivity.
Qed.

Lemma pass_values a r : ∃ new, values (pass a r) = values a ++ new.
Proof.
  unfold pass, passive_rune. repeat case_match; cbn; first [by eexists|by exists []; rewrite app_nil_r].
Qed.

(** Runes for the attribute parser at [a], in the quoted text [q] or none. *)
Fixpoint feed_ok (q : option (Z * Z)) (a : attributeparser) (rs : list Z) : Prop :=
  match rs with
  | [] => True
  | r :: rs' =>
    (q = None → r ≠ 62) ∧ r ≠ 91 ∧ (r = 47 → tstlvl a = AttribAssign) ∧ invdl (pass a r) = false ∧
    feed_ok (quote_next q r) (pass a r) rs'
  end.

Lemma feed_app q a rs1 rs2 :
  feed_ok q a rs1 → feed_ok (fold_left quote_next rs1 q) (fold_left pass rs1 a) rs2 → feed_ok q a (rs1 ++ rs2).
Proof.
  revert q a. induction rs1 as [|r rs1 IH]; intros q a H1 H2; [done|]. destruct H1 as (H3 & H4 & H5 & H6 & H7). cbn. split_and!; auto.
Qed.

Lemma feed_name n q a m :
  tstprvr a = 0 → invdl a = false → q = None → Forall (λ r, validElmchar r = true) n →
  feed_ok q (in_name a m) n ∧ fold_left quote_next n q = None.
Proof.
  intros Hp Hi -> Hn. revert m. induction Hn as [|r n Hr Hn IH]; intros m; [done|]. pose proof (elmchar_range r Hr) as Hrange.
  assert (pass (in_name a m) r = in_name a (m ++ [r])) as E.
  { unfold pass, passive_rune. cbn [in_name set_level tstlvl tstprvr]. by rewrite Hp, (valid_name_char r Hr). }
  cbn [feed_ok fold_left]. unfold quote_next at 1 3. rewrite quote_none by by apply elmchar_quote. rewrite E. destruct (IH (m ++ [r])) as [H1 H2].
  split; [|done]. split_and!; [lia|lia|lia|done|done].
Qed.

Lemma feed_value v q a n pv l w :
  0 < q → invdl a = false → value_ok q pv v = true → 91 ∉ v →
  feed_ok (Some (q, pv)) (in_value a n q pv l w) v ∧ ∃ pv', fold_left quote_next v (Some (q, pv)) = Some (q, pv') ∧ pv' ≠ 92.
Proof.
  intros Hq Hi. revert pv l w. induction v as [|r v IH]; intros pv l w Hv H91.
  - split; [done|]. exists pv. split; [done|]. cbn in Hv. by apply negb_true_iff, Z.eqb_neq in Hv.
  - cbn [value_ok] in Hv. apply andb_true_iff in Hv as [Hr Hv]. apply negb_true_iff in Hr. apply not_elem_of_cons in H91 as [Hr91 H91].
    assert (pass (in_value a n q pv l w) r = in_value a n q r r (w ++ [r])) as E.
    { unfold pass, passive_rune. cbn [in_value set_level tstlvl txttst isText txtr]. rewrite (proj2 (Z.ltb_lt 0 q)) by done. cbn [negb].
      unfold txt_Parse. cbn [txtr txt_prvr alttxtr]. rewrite (proj2 (Z.eqb_neq q 0)) by lia. rewrite Hr. cbn [isText txtr].
      rewrite (proj2 (Z.ltb_lt 0 q)) by done. done. }
    cbn [feed_ok fold_left]. assert (quote_next (Some (q, pv)) r = Some (q, r)) as ->.
    { unfold quote_next, quote_step. by rewrite Hr. }
    rewrite E. destruct (IH r r (w ++ [r]) Hv H91) as [H1 H2]. split; [|done]. split_and!; first [done|congruence].
Qed.

Lemma quote_range q : IsTxtPar q = true → 0 < q ∧ q ≠ 62 ∧ q ≠ 91 ∧ q ≠ 47 ∧ q ≠ 92 ∧ q ≠ 60.
Proof. unfold IsTxtPar. intros (x & Hx & ->%Z.eqb_eq)%existsb_exists. by repeat destruct Hx as [<-|Hx]. Qed.

Lemma quote_space q : IsTxtPar q = true → IsSpace q = false.
Proof. unfold IsTxtPar. intros (x & Hx & ->%Z.eqb_eq)%existsb_exists. by repeat destruct Hx as [<-|Hx]. Qed.

Lemma feed_attribute t a :
  awaits a → invdl a = false → attribute_ok t →
  feed_ok None a (written t) ∧ fold_left quote_next (written t) None = None.
Proof.
  intros [Hl Hn Hv Hp (l & Ht)] Hi (Hne & Hname & Hq & Hval & H91). pose proof (quote_range _ Hq) as (Hq0 & Hq62 & Hq91 & Hq47 & Hq92 & _).
  unfold written. cbn [feed_ok fold_left]. change (quote_next None 32) with (@None (Z * Z)). assert (pass a 32 = a) as ->.
  { unfold pass, passive_rune. rewrite Hp. by destruct Hl as [-> | ->]. }
  destruct (at_name t) as [|c n] eqn:En; [done|]. inversion Hname as [|? ? Hc Hname']; subst. pose proof (elmchar_range c Hc) as Hrange.
  cbn [app feed_ok fold_left]. unfold quote_next at 1 3. rewrite quote_none by by apply elmchar_quote.
  assert (pass a c = in_name a [c]) as ->.
  { unfold pass, passive_rune. rewrite Hp, (valid_name_char c Hc), Hn. by destruct Hl as [-> | ->]. }
  destruct (feed_name n None a [c] Hp Hi eq_refl Hname') as [Hf1 Hq1]. rewrite fold_left_app, Hq1.
  assert (pass (in_name a ([c] ++ n)) 61 = set_level a (txttst a) AttribAssign (c :: n) (tstvalue a)) as E61.
  { unfold pass, passive_rune. cbn [in_name set_level tstlvl tstprvr]. rewrite Hp. done. }
  assert (pass (set_level a (txttst a) AttribAssign (c :: n) (tstvalue a)) (at_quote t) = in_value a (c :: n) (at_quote t) 0 (at_quote t) []) as Eq.
  { unfold pass, passive_rune. cbn [set_level tstlvl txttst]. rewrite Ht. cbn [isText txtr]. change (0 <? 0) with false. cbn [negb].
    rewrite quote_space by done.
    unfold txt_Parse. cbn [txtr]. rewrite Z.eqb_refl, Hq. cbn [isText txtr]. rewrite (proj2 (Z.ltb_lt 0 _)) by done.
    cbn [fst snd]. unfold in_value, set_txttst, set_level. cbn. by rewrite Hv. }
  destruct (feed_value (at_value t) (at_quote t) a (c :: n) 0 (at_quote t) [] Hq0 Hi Hval H91) as (Hf2 & pv & Hq2 & Hpv).
  destruct (pass_value (at_quote t) a (c :: n) (at_value t) 0 (at_quote t) [] Hq0 Hval) as (pv' & l' & Ev & Hpv').
  cbn [fold_left]. change (quote_next None 61) with (@None (Z * Z)).
  assert (quote_next None (at_quote t) = Some (at_quote t, 0)) as Eqq by (unfold quote_next, quote_step; by rewrite Hq).
  rewrite Eqq, fold_left_app, Hq2. cbn [fold_left].
  assert (quote_next (Some (at_quote t, pv)) (at_quote t) = None) as Eqc.
  { unfold quote_next, quote_step. by rewrite Z.eqb_refl, (proj2 (Z.eqb_neq pv 92)). }
  rewrite Eqc. split; [|done]. split; [lia|]. split; [done|]. split; [done|]. split; [done|].
  split; [lia|]. split; [lia|]. split; [lia|]. split; [done|].
  apply feed_app; [done|]. rewrite Hq1, (pass_name n a [c] Hp Hname'). cbn [feed_ok]. rewrite E61, Eq. change (quote_next None 61) with (@None (Z * Z)). rewrite Eqq.
  split_and!; try done. apply feed_app; [done|]. rewrite Hq2, Ev. cbn [feed_ok app]. split_and!; try done.
  unfold pass, passive_rune. cbn [in_value set_level tstlvl txttst isText txtr]. rewrite (proj2 (Z.ltb_lt 0 _)) by done. cbn [negb].
  unfold txt_Parse. cbn [txtr txt_prvr alttxtr]. rewrite (proj2 (Z.eqb_neq (at_quote t) 0)) by lia.
  by rewrite Z.eqb_refl, (proj2 (Z.eqb_neq pv' 92)) by done.
Qed.

Lemma feed_attributes ts a :
  awaits a → invdl a = false → Forall attribute_ok ts →
  feed_ok None a (concat (map written ts)) ∧ fold_left quote_next (concat (map written ts)) None = None.
Proof.
  intros Ha Hi Hts. revert a Ha Hi. induction Hts as [|t ts Ht Hts IH]; intros a Ha Hi; [done|]. cbn [map concat].
  destruct (feed_attribute t a Ha Hi Ht) as [H1 H2]. destruct (pass_attribute t a Ha Ht) as (Ha1 & _ & Hi1 & _).
  destruct (IH _ Ha1) as [H3 H4]; [congruence|]. rewrite fold_left_app, H2. split; [|done]. apply feed_app; [done|]. by rewrite H2.
Qed.

Definition found_list (vs : list foundvalue) : option attributes := fold_left (λ m f, Some (add_found ElemStart f m)) vs None.

Lemma add_raw_app a x y : add_raw (add_raw a x) y = add_raw a (x ++ y).
Proof. unfold add_raw. cbn. rewrite <- app_assoc, length_app. f_equal. lia. Qed.

Lemma pass_space a : awaits a → pass a 32 = a.
Proof. intros [[Hl|Hl] _ _ Hp _]; unfold pass, passive_rune; by rewrite Hl, Hp. Qed.

Lemma pass_raw a r : raw (pass a r) = raw a.
Proof. unfold pass, passive_rune. repeat case_match; done. Qed.

Lemma pass_raws rs a : raw (fold_left pass rs a) = raw a.
Proof. revert a. induction rs as [|r rs IH]; intros a; [done|]. cbn. by rewrite IH, pass_raw. Qed.

Lemma attr_one r a p :
  outside_marks p → r ≠ 91 → ∃ p', attr_Parse [r] a p = Done (pass (add_raw a [r]) r, p') ∧ outside_marks p'.
Proof.
  intros Hp Hr. unfold attr_Parse, Parsing.Parse. rewrite (om_buf _ Hp). change (0 <? len (@nil Z)) with false. cbv iota.
  destruct (parse_runes_outside [r] (add_raw a [r]) p Hp) as (p' & E & Hp'); [by rewrite list_elem_of_singleton|].
  exists p'. split; [|done]. exact E.
Qed.

Lemma found_fold c l new :
  c_tstlvl c = l →
  fold_left (λ c f, setArributeValue f c) new c = set_lstattrbs (fold_left (λ m f, Some (add_found l f m)) new (lstattrbs c)) c.
Proof.
  revert c. induction new as [|f new IH]; intros c Hl; cbn [fold_left]; [by destruct c|]. rewrite IH by done.
  unfold setArributeValue at 1 2. rewrite Hl. by destruct c.
Qed.

(** What the content parser does with a rune of the attributes. *)
Lemma attribute_rune_spec r a x p p' c :
  attr_Parse [r] (add_raw a x) p = Done (add_raw (pass a r) (x ++ [r]), p') →
  c_tstlvl c = ElemStart → lstattrbs c = found_list (values a) →
  attribute_rune r (add_raw a x) p c =
  Done (set_lstattrbs (found_list (values (pass a r))) (set_test (c_tstname c) (tstr c) ElemStart (Some (add_raw (pass a r) (x ++ [r]), p')) c),
        add_raw (pass a r) (x ++ [r])).
Proof.
  intros E Hl Hlst. unfold attribute_rune. rewrite E. cbn [exec_bind]. cbn [add_raw values].
  destruct (pass_values a r) as (new & En). rewrite En, drop_app_length. rewrite (found_fold c ElemStart) by done.
  unfold found_list. rewrite fold_left_app. cbn. rewrite Hlst, Hl. done.
Qed.

(** The attribute parser of an element before its first attribute. *)
Definition fresh_attrs : attributeparser := MkAttr (Some new_text) [] (-1) false AttribUknown [] [] 0 [] [].

Lemma fresh_awaits : awaits fresh_attrs.
Proof. split; cbn; auto. by eexists. Qed.

Section attribute_runes.
Context (fuel : nat) (Stat : list Z → option fileinfo).
#[local] Abbreviation quiet := (quiet fuel Stat).

Lemma attr_rune r w id c q n rr a x p v :
  working w id → elmlvl c = ElemSingle →
  tagging c (Inside 0 q) n rr ElemStart (Some (add_raw a x, p)) (found_list (values a)) v → outside_marks p →
  (q = None → r ≠ 62) → r ≠ 91 → (r = 47 → tstlvl a = AttribAssign) → invdl (pass a r) = false →
  ∃ c' p', quiet [r] (put w id c) (put w id c') ∧ outside_marks p' ∧
    tagging c' (Inside 0 (quote_next q r)) n rr ElemStart (Some (add_raw (pass a r) (x ++ [r]), p')) (found_list (values (pass a r))) v ∧
    same_static c c'.
Proof.
  intros Hw Hc Ht Hp Hq62 H91 H47 Hi. pose proof (wk_in _ _ Hw) as Hid.
  destruct (attr_one r (add_raw a x) p Hp H91) as (p' & E & Hp'). rewrite add_raw_app, pass_add_raw in E.
  destruct (tag_rune fuel Stat r w id c q n rr ElemStart _ _ n rr ElemStart (Some (add_raw (pass a r) (x ++ [r]), p'))
    (found_list (values (pass a r))) v Hw Hc Ht Hq62) as (c' & Hq & Ht' & Hs).
  - intros c1 E1 E2 E3 E4 E5. cbn [post_runes]. rewrite get_put by done. cbn [exec_bind]. rewrite E3, E4.
    assert (Busy (Some p) = false) as ->.
    { cbn. rewrite (om_preL _ Hp), (om_prei _ Hp). change (0 =? 2) with false. by rewrite andb_false_r. }
    assert ((bool_decide (tstlvl (add_raw a x) = AttribUknown) || bool_decide (tstlvl (add_raw a x) = AttribContinue)) && (r =? 47) = false) as ->.
    { destruct (Z.eqb_spec r 47) as [->|]; [|by rewrite andb_false_r]. cbn. by rewrite H47. }
    rewrite (attribute_rune_spec r a x p p' c1 E E3 E5). cbn [exec_bind]. change (invdl (add_raw (pass a r) (x ++ [r]))) with (invdl (pass a r)).
    rewrite Hi, upd_put by done. do 3 f_equal. by rewrite E1, E2.
  - exists c', p'. done.
Qed.

Lemma attr_runes rs w id c q n rr a x p v :
  working w id → elmlvl c = ElemSingle →
  tagging c (Inside 0 q) n rr ElemStart (Some (add_raw a x, p)) (found_list (values a)) v → outside_marks p → feed_ok q a rs →
  ∃ c' p', quiet rs (put w id c) (put w id c') ∧ outside_marks p' ∧
    tagging c' (Inside 0 (fold_left quote_next rs q)) n rr ElemStart (Some (add_raw (fold_left pass rs a) (x ++ rs), p'))
      (found_list (values (fold_left pass rs a))) v ∧ same_static c c'.
Proof.
  intros Hw. revert c q a x p. induction rs as [|r rs IH]; intros c q a x p Hc Ht Hp Hf.
  { exists c, p. rewrite app_nil_r. split; [constructor|done]. }
  destruct Hf as (H1 & H2 & H3 & H4 & H5).
  destruct (attr_rune r w id c q n rr a x p v Hw Hc Ht Hp H1 H2 H3 H4) as (c1 & p1 & Hq1 & Hp1 & Ht1 & Hs1).
  destruct (IH c1 _ _ _ p1 ltac:(destruct Hs1; congruence) Ht1 Hp1 H5) as (c2 & p2 & Hq2 & Hp2 & Ht2 & Hs2).
  exists c2, p2. split; [by eapply (quiet_app _ _ [r])|]. split; [done|]. rewrite <- app_assoc in Ht2. split; [done|]. by eapply same_static_trans.
Qed.

(** The space after the name. *)
Lemma space_rune w id c n rr v :
  working w id → elmlvl c = ElemSingle → n ≠ [] → tagging c (Inside 0 None) n rr ElemStart None None v →
  ∃ c' p', quiet [32] (put w id c) (put w id c') ∧ outside_marks p' ∧
    tagging c' (Inside 0 None) n rr ElemStart (Some (add_raw fresh_attrs [32], p')) (found_list []) v ∧ same_static c c'.
Proof.
  intros Hw Hc Hn Ht. pose proof (wk_in _ _ Hw) as Hid.
  destruct (tag_rune fuel Stat 32 w id c None n rr ElemStart None None n rr ElemStart (Some (add_raw fresh_attrs [32], (nextattrbprsr AttrPre AttrPost).2))
    None v Hw Hc Ht) as (c' & Hq & Ht' & Hs).
  - done.
  - intros c1 E1 E2 E3 E4 E5. cbn [post_runes]. rewrite get_put by done. cbn [exec_bind]. rewrite E3, E4. change (32 =? 47) with false. cbv iota.
    assert (validElemChar (tstr c1) 32 = (false, true)) as -> by (unfold validElemChar; done).
    rewrite E1. assert (0 <? len n = true) as -> by (destruct n; [done|cbn; apply Z.ltb_lt; lia]). cbn [orb andb nextattrbprsr].
    rewrite upd_put by done. do 3 f_equal. rewrite E2, <- E5. by destruct c1.
  - exists c', (nextattrbprsr AttrPre AttrPost).2. split; [done|]. split; [by split|]. split; [|done]. exact Ht'.
Qed.

(** All of a tag before its [>]. *)
Lemma attribute_text t w id c rr v :
  working w id → elmlvl c = ElemSingle → tag_ok t → tagging c (Inside 0 None) (t_name t) rr ElemStart None None v →
  ∃ c' a, quiet (attr_text t) (put w id c) (put w id c') ∧
    tagging c' (Inside 0 None) (t_name t) rr ElemStart a (found_list (map found_of (t_attrs t))) v ∧
    match a with Some (x, p) => raw x = attr_text t ∧ Busy (Some p) = false ∧ (tstlvl x = AttribUknown ∨ tstlvl x = AttribContinue)
               | None => attr_text t = [] end ∧ same_static c c'.
Proof.
  intros Hw Hc [_ Hn _ Ha _ _] Ht.
  assert (feed_ok None fresh_attrs (attr_text t) ∧ fold_left quote_next (attr_text t) None = None) as [Hf Hq].
  { destruct (feed_attributes (t_attrs t) fresh_attrs fresh_awaits eq_refl Ha) as [H1 H2]. unfold attr_text.
    destruct (pass_attributes (t_attrs t) fresh_attrs fresh_awaits Ha) as (Haw & _ & Hi & _).
    rewrite fold_left_app, H2. split; [|by destruct (t_space t)]. apply feed_app; [done|]. rewrite H2. destruct (t_space t); [|done].
    cbn [feed_ok]. rewrite pass_space by done. by split_and!. }
  assert (awaits (fold_left pass (attr_text t) fresh_attrs) ∧ values (fold_left pass (attr_text t) fresh_attrs) = map found_of (t_attrs t)) as [Haw Hvs].
  { destruct (pass_attributes (t_attrs t) fresh_attrs fresh_awaits Ha) as (Haw & Hv & _). unfold attr_text. rewrite fold_left_app.
    destruct (t_space t); [|done]. cbn [fold_left].
    by rewrite pass_space. }
  assert (attr_text t = [] ∧ t_attrs t = [] ∨ ∃ rest, attr_text t = 32 :: rest) as [[E E2]|(rest & E)].
  { unfold attr_text. destruct (t_attrs t) as [|at1 ats]; [|by right; unfold written; cbn; eexists].
    destruct (t_space t); [by right; eexists|by left]. }
  - rewrite E, E2. exists c, None. split; [constructor|done].
  - destruct (space_rune w id c (t_name t) rr v Hw Hc Hn Ht) as (c1 & p1 & Hq1 & Hp1 & Ht1 & Hs1).
    rewrite E in Hf, Hq, Haw, Hvs |- *. cbn [feed_ok fold_left] in Hf, Hq, Haw, Hvs. change (pass fresh_attrs 32) with fresh_attrs in *.
    change (quote_next None 32) with (@None (Z * Z)) in *. destruct Hf as (_ & _ & _ & _ & Hf).
    destruct (attr_runes rest w id c1 None (t_name t) rr fresh_attrs [32] p1 v Hw ltac:(destruct Hs1; congruence) Ht1 Hp1 Hf)
      as (c2 & p2 & Hq2 & Hp2 & Ht2 & Hs2).
    rewrite Hq, Hvs in Ht2. eexists c2, _. split; [by eapply (quiet_app _ _ [32])|]. split; [done|]. split; [|by eapply same_static_trans].
    split; [cbn; by rewrite pass_raws|]. split; [cbn; rewrite (om_preL _ Hp2), (om_prei _ Hp2); change (0 =? 2) with false; by rewrite andb_false_r|apply Haw].
Qed.
End attribute_runes.

(** *** A whole tag *)

Section whole.
Context (fuel : nat) (Stat : list Z → option fileinfo).
#[local] Abbreviation quiet := (quiet fuel Stat).

Lemma tag_name_ok t : tag_ok t → Forall (λ r, validElmchar r = true) (t_name t).
Proof. intros Ht. eapply Forall_impl; [apply Ht|]. by intros ? []. Qed.

Lemma tag_runes t w id c v :
  working w id → elmlvl c = ElemSingle → tag_ok t → resting c v →
  ∃ c' rr a, quiet (60 :: tag_inner t) (put w id c) (put w id c') ∧
    tagging c' (Inside 0 None) (t_name t) rr (t_level t) a (found_list (map found_of (t_attrs t))) v ∧
    match a with Some (x, _) => raw x | None => [] end = attr_text t ∧ same_static c c'.
Proof.
  intros Hw Hc Htag Ht. pose proof (tag_name_ok t Htag) as Hname. pose proof Htag as [Hl Hne _ _ _ Hend].
  destruct (open_rune fuel Stat w id c v Hw Hc Ht) as (c1 & Hq1 & Ht1 & Hs1).
  assert (elmlvl c1 = ElemSingle) as Hc1 by (destruct Hs1; congruence).
  assert (t_level t = ElemEnd ∨ t_level t ≠ ElemEnd ∧ ∃ c3 rr a, quiet (60 :: t_name t ++ attr_text t) (put w id c) (put w id c3) ∧
    tagging c3 (Inside 0 None) (t_name t) rr ElemStart a (found_list (map found_of (t_attrs t))) v ∧
    match a with Some (x, p) => raw x = attr_text t ∧ Busy (Some p) = false ∧ (tstlvl x = AttribUknown ∨ tstlvl x = AttribContinue)
               | None => attr_text t = [] end ∧ same_static c c3) as [El|(Hnl & c3 & rr & a & Hq3 & Ht3 & Ha3 & Hs3)].
  { destruct (t_level t) eqn:El; [done| | |by left]; right; (split; [done|]).
    all: destruct (start_name fuel Stat (t_name t) w id c1 v Hw Hc1 Hne Hname Ht1) as (c2 & rr & Hq2 & Ht2 & Hs2).
    all: destruct (attribute_text fuel Stat t w id c2 rr v Hw ltac:(destruct Hs2; congruence) Htag Ht2) as (c3 & a & Hq3 & Ht3 & Ha & Hs3).
    all: exists c3, rr, a; split; [eapply (quiet_app _ _ [60]); [done|]; by eapply quiet_app|].
    all: split; [done|]; split; [done|]; eapply same_static_trans; [done|]; by eapply same_static_trans. }
  - destruct (Hend El) as [Ea Es]. unfold tag_inner, attr_text. rewrite El, Ea, Es. cbn [map concat app]. rewrite !app_nil_r.
    destruct (slash_rune fuel Stat w id c1 [] 0 ElemUnkown ElemEnd None v None Hw Hc1 ltac:(by left) Ht1) as (c2 & Hq2 & Ht2 & Hs2).
    destruct (name_runes fuel Stat (t_name t) w id c2 [] 0 ElemEnd v Hw ltac:(destruct Hs2; congruence) ltac:(by right) ltac:(by left) Hname Ht2)
      as (c3 & rr & Hq3 & Ht3 & Hs3).
    exists c3, rr, None. split; [eapply (quiet_app _ _ [60]); [done|]; by eapply (quiet_app _ _ [47])|].
    split; [done|]. split; [done|]. eapply same_static_trans; [done|]. by eapply same_static_trans.
  - unfold tag_inner. destruct (t_level t) eqn:El; [done| | |].
    + cbn [app]. rewrite app_nil_r. exists c3, rr, a. split; [done|]. split; [done|]. split; [|done]. by destruct a as [[x p]|]; [destruct Ha3|].
    + destruct (slash_rune fuel Stat w id c3 (t_name t) rr ElemStart ElemSingle a v _ Hw ltac:(destruct Hs3; congruence)
        ltac:(right; split; [done|]; split; [done|]; by destruct a as [[x p]|]; [destruct Ha3|]) Ht3) as (c4 & Hq4 & Ht4 & Hs4).
      exists c4, rr, a. split.
      * cbn [app]. assert (60 :: t_name t ++ attr_text t ++ [47] = (60 :: t_name t ++ attr_text t) ++ [47]) as -> by (cbn; by rewrite <- app_assoc).
        by eapply quiet_app.
      * split; [done|]. split; [by destruct a as [[x p]|]; [destruct Ha3|]|]. by eapply same_static_trans.
    + done.
Qed.

(** A name without colons has no names to replace. *)
Lemma replace_plain unm mp name :
  name ≠ [] → Forall (λ r, validElmchar r = true ∧ r ≠ 58) name → (length name + 4 ≤ fuel)%nat → replace_name fuel unm mp name = Done name.
Proof.
  intros Hne Hn Hf. unfold replace_name. rewrite bool_decide_eq_false_2 by done. cbn [MapReplaceReader].
  assert (valid_runes name) as Hv by (eapply Forall_impl; [done|]; intros r [? _]; by apply elmchar_valid).
  unfold MapReplaceReader. change (take 2 (List.filter (λ s, 0 <? len s) [namepp; namepp])) with [namepp; namepp]. cbn [exec_bind].
  cbv beta iota zeta. set (seg := [Lit name]).
  assert (expansion mp (λ _ v, (v, true)) unm namepp namepp seg = name) as Ex by (unfold expansion; cbn; by rewrite app_nil_r).
  assert (MapReader.source namepp namepp seg = name) as Es by (unfold MapReader.source; cbn; by rewrite app_nil_r).
  rewrite (Runes_at (R := anyrdr) tt mp as_it_is (λ _ v, (v, true)) validNameChar (λ _, unm) unm namepp namepp (as_it_is_captures tt) (λ _, eq_refl)
    ltac:(done) ltac:(done) ltac:(done) ltac:(by repeat constructor) ltac:(by repeat constructor) fuel fuel _ [] seg []).
  - by rewrite Ex.
  - eexists _, 0. split; [done|]. split; [|split; [|constructor]].
    + rewrite Es. unfold string_rdr. pose proof (runeReaderSlice.string_reader_pending (encode_all name)) as Hp. by rewrite runes_encode_all in Hp.
    + repeat constructor. intros r Hr. cbn. intros [= <-]. rewrite Forall_forall in Hn. by apply Hn in Hr as [_ ?].
  - unfold MapReader.steps. rewrite Es. cbn. lia.
  - cbn [app]. rewrite Ex. lia.
Qed.
End whole.

(** *** A tag that names no file goes out as it was read *)

Definition rooted (f : fileinfo) (name : list Z) : list Z := Elements.to_name (fi_root f) ++ name.

Lemma ReplaceAll_nonempty s old new : s ≠ [] → last s ≠ last old → old ≠ [] → ReplaceAll s old new ≠ [].
Proof.
  intros Hs Hl Ho. unfold ReplaceAll. remember (length s) as n eqn:En. assert (length s ≤ n)%nat as Hn by lia. clear En.
  revert s Hs Hl Hn. induction n as [|n IH]; intros s Hs Hl Hn; [by destruct s|]. destruct s as [|r s]; [done|]. cbn [ReplaceAll_from].
  case_bool_decide as E; [|done]. intros [_ E2]%app_eq_nil. revert E2. apply IH.
  - intros E3. apply Hl. rewrite <- E. rewrite take_ge; [done|]. apply (f_equal length) in E3. rewrite length_drop in E3. cbn [length] in *. lia.
  - intros E3. apply Hl. rewrite <- E3. rewrite <- (take_drop (length old) (r :: s)) at 1. rewrite last_app.
    destruct (last (drop (length old) (r :: s))) eqn:El; [done|]. symmetry in E3. by apply last_None in E3.
  - rewrite length_drop. cbn [length] in *. destruct old; [done|]. cbn [length]. lia.
Qed.

#[export] Instance ElemLevel_eq_dec : EqDecision ElemLevel.
Proof. solve_decision. Defined.

Section plain.
Context (fuel : nat) (Stat : list Z → option fileinfo).
#[local] Abbreviation quiet := (quiet fuel Stat).

Lemma not_an_element_is t w id c4 c5 v :
  (id < length (heap w))%nat → parser_for false [60] [62] (parsing c5) → c_tstlvl c4 = t_level t → t_level t ≠ ElemUnkown →
  match tstatrbs c4 with Some (x, _) => raw x | None => [] end = attr_text t →
  cde_ok (cde c5) (cde_parsing c5) v → tame (tag_text t) → (t_level t = ElemEnd → attr_text t = []) →
  ∃ s p, not_an_element fuel id c4 (t_name t) (put w id c5) = Done (false, put w id (set_cde s p (set_test [] 0 ElemUnkown None c5))) ∧
    cde_ok s p (with_text v (tag_text t)).
Proof.
  intros Hid Hp Hl Hne Ha Hc Htame Hend. unfold not_an_element. rewrite upd_put, get_put by done. cbn [exec_bind].
  unfold resetTest. rewrite get_put by done. cbn [exec_bind]. rewrite upd_put by done.
  assert (as_read (set_test (t_name t) (tstr c5) (c_tstlvl c4) (tstatrbs c4) c5) (postlbl (parsing (set_test (t_name t) (tstr c5) (c_tstlvl c4) (tstatrbs c4) c5)))
    = tag_text t) as ->.
  { unfold as_read. cbn [set_test tstatrbs c_tstlvl parsing c_tstname]. rewrite Ha, Hl, (pf_pre _ _ _ _ Hp), (pf_post _ _ _ _ Hp).
    unfold tag_text, tag_inner. destruct (t_level t) eqn:El; [done| | |].
    - cbn. by rewrite app_nil_r, <- app_assoc.
    - cbn. by rewrite <- !app_assoc.
    - rewrite Hend by done. cbn. by rewrite !app_nil_r. }
  destruct (preRunes_text fuel (tag_text t) id w (set_test [] 0 ElemUnkown None c5) v Hid Htame Hc) as (s & p & E & Hok).
  exists s, p. split; [|done]. 
  change (set_test [] 0 ElemUnkown None (set_test (t_name t) (tstr c5) (c_tstlvl c4) (tstatrbs c4) c5)) with (set_test [] 0 ElemUnkown None c5).
  rewrite E. done.
Qed.

Lemma test_name_plain w id c mp :
  working w id → c_tstname c ≠ [] → Forall (λ r, validElmchar r = true ∧ r ≠ 58) (c_tstname c) → (length (c_tstname c) + 4 ≤ fuel)%nat →
  attrbs c = Some mp → test_name fuel (put w id c) c = Done (c_tstname c).
Proof.
  intros [H1 H2 H3 H4] Hne Hn Hf Ha. unfold test_name. rewrite Ha. destruct (c_tstlvl c); [done|by apply replace_plain..|].
  change (prsix (put w id c)) with (prsix w). change (cntntprsngs (put w id c)) with (cntntprsngs w).
  destruct H4 as [->|(j & Hj & Hjid & Hjl)]; [by apply replace_plain|].
  destruct (prsix w =? 0); [by apply replace_plain|]. rewrite Hj. unfold get, put. cbn. rewrite list_lookup_insert_ne by done.
  destruct (lookup_lt_is_Some_2 (heap w) j Hjl) as [below ->]. cbn [exec_bind]. rewrite replace_plain by done. cbn [exec_bind].
  by apply replace_plain.
Qed.

Lemma full_name_plain w id c f name :
  fi c = Some f → elmlvl c = ElemSingle → name ≠ [] → Forall (λ r, validElmchar r = true ∧ r ≠ 58) name →
  full_name (put w id c) c name = Done (rooted f name).
Proof.
  intros Hf Hc Hne Hn. unfold full_name. destruct name as [|r name]; [done|]. inversion Hn as [|? ? [_ Hr] _]; subst.
  change (index (r :: name) 0) with (Done r). cbn [exec_bind]. rewrite (proj2 (Z.eqb_neq r 58)) by done. unfold file_of. rewrite Hf. cbn [exec_bind].
  rewrite Hc. by destruct (c_tstlvl c).
Qed.

(** The end of a tag, when its name is not a key. *)
Lemma match_at reparse t w id c rr a lst v f mp p1 :
  working w id → elmlvl c = ElemSingle → tag_ok t → (length (t_name t) + 4 ≤ fuel)%nat →
  tagging c (Inside 0 None) (t_name t) rr (t_level t) a lst v → fi c = Some f → attrbs c = Some mp →
  let c4 := set_parsing p1 c in
  let w5 := put w id (set_lstattrbs None (set_test [] (tstr c4) ElemUnkown None c4)) in
  matchPost fuel Stat reparse id (put w id c4) =
    match t_level t with
    | ElemEnd => close_element fuel reparse id c4 (t_name t) (rooted f (t_name t)) w5
    | _ => open_element fuel Stat reparse id c4 (t_name t) (rooted f (t_name t)) w5
    end.
Proof.
  intros Hw Hc [Htl Htn Htc Hta _ Hte] Hfuel [T1 T2 T3 T4 T5 T6 T7 T8] Hf Hmp c4 w5. pose proof (wk_in _ _ Hw) as Hid.
  unfold matchPost. rewrite get_put by done. cbn [exec_bind]. change (c_tstname c4) with (c_tstname c). rewrite T3.
  assert (len (t_name t) =? 0 = false) as -> by (destruct (t_name t); [done|apply Z.eqb_neq; cbn; lia]).
  rewrite (test_name_plain w id c4 mp) by (done || by (cbn; rewrite T3)). cbn [exec_bind]. change (c_tstname c4) with (c_tstname c). rewrite T3.
  rewrite (full_name_plain w id c4 f) by done. cbn [exec_bind]. change (c_tstlvl c4) with (c_tstlvl c). rewrite T5, upd_put by done.
  by destruct (t_level t).
Qed.

Lemma match_plain t w id c rr a lst v f mp p1 :
  working w id → elmlvl c = ElemSingle → tag_ok t → tame (tag_text t) → (length (t_name t) + 4 ≤ fuel)%nat →
  tagging c (Inside 0 None) (t_name t) rr (t_level t) a lst v → match a with Some (x, _) => raw x | None => [] end = attr_text t →
  fi c = Some f → attrbs c = Some mp → (t_level t ≠ ElemEnd → find_in Stat f (rooted f (t_name t)) = Done None) →
  p1 = set_pos (parsing c) 1 (prvr (parsing c)) 1 →
  ∃ w' s p pos, (w' = w ∨ ∃ n, w' = add_invalid w n) ∧ cde_ok s p (with_text v (tag_text t)) ∧
    (pos = p1 ∨ pos = set_pos p1 0 0 0) ∧
    ∀ reparse, matchPost fuel Stat reparse id (put w id (set_parsing p1 c)) =
      Done (false, put w' id (set_cde s p (set_test [] 0 ElemUnkown None (set_lstattrbs None (set_parsing pos c))))).
Proof.
  intros Hw Hc [Htl Htn Htc Hta Htv Hte] Htame Hfuel [T1 T2 T3 T4 T5 T6 T7 T8] Ha Hf Hmp Hno ->. pose proof (wk_in _ _ Hw) as Hid.
  set (p1 := set_pos (parsing c) 1 (prvr (parsing c)) 1). assert (parser_for false [60] [62] p1) as Hp1 by by apply set_pos_parser.
  set (c4 := set_parsing p1 c). set (c5 := set_lstattrbs None (set_test [] (tstr c4) ElemUnkown None c4)).
  assert (t_level t = ElemEnd → attr_text t = []) as Hat.
  { intros E. destruct (Hte E) as [E1 E2]. unfold attr_text. by rewrite E1, E2. }
  assert (tag_ok t) as Htag by by split.
  pose proof (λ reparse, match_at reparse t w id c rr a lst v f mp p1 Hw Hc Htag Hfuel ltac:(by split) Hf Hmp) as E. cbv zeta in E.
  fold c4 c5 in E.
  destruct (decide (t_level t = ElemEnd)) as [El|El].
  - destruct (not_an_element_is t w id c4 (set_test [] 0 ElemUnkown None (reset_parsing c5)) v Hid) as (s & p & En & Hok); try done.
    + by apply set_pos_parser.
    + by cbn; rewrite T6.
    + exists w, s, p, (set_pos p1 0 0 0). split; [by left|]. split; [done|]. split; [by right|]. intros reparse. rewrite E, El.
      unfold close_element. assert (file_of c4 = Done f) as -> by (unfold file_of; by rewrite (Hf : fi c4 = Some f)). cbn [exec_bind]. unfold resetTest. rewrite upd_put, get_put by done.
      cbn [exec_bind]. rewrite upd_put, get_put by done. cbn [exec_bind].
      assert (∃ r l, ReplaceAll (rooted f (t_name t)) (str "..:") [] = r :: l) as (r & l & ->).
      { destruct (ReplaceAll (rooted f (t_name t)) (str "..:") []) as [|r l] eqn:Er; [|eauto]. exfalso. revert Er. apply ReplaceAll_nonempty; [| |done].
        - unfold rooted. intros [_ ?]%app_eq_nil. done.
        - change (last (str "..:")) with (Some 58). unfold rooted. rewrite last_app. destruct (last (t_name t)) as [x|] eqn:Ex; [|by apply last_None in Ex].
          intros [= ->]. rewrite Forall_forall in Htc. apply last_Some_elem_of in Ex. by apply Htc in Ex as [_ ?]. }
      match goal with |- context [if ?b then exec_bind _ _ else Done false] => destruct b end; cbn [exec_bind].
      all: change (elmlvl (set_test [] 0 ElemUnkown None (reset_parsing c5))) with (elmlvl c); rewrite Hc, andb_false_r.
      all: rewrite En; done.
  - destruct (not_an_element_is t (add_invalid w (rooted f (t_name t))) id c4 c5 v Hid) as (s & p & En & Hok); try done.
    + by cbn; rewrite T6.
    + exists (add_invalid w (rooted f (t_name t))), s, p, p1. split; [by right; eexists|]. split; [done|]. split; [by left|].
      intros reparse. rewrite E. assert (open_element fuel Stat reparse id c4 (t_name t) (rooted f (t_name t)) (put w id c5) =
        not_an_element fuel id c4 (t_name t) (add_invalid (put w id c5) (rooted f (t_name t)))) as Eo.
      { unfold open_element, find_file, file_of. rewrite (Hf : fi c4 = Some f). cbn [exec_bind]. rewrite Hno by done. done. }
      change (add_invalid (put w id c5) (rooted f (t_name t))) with (put (add_invalid w (rooted f (t_name t))) id c5) in Eo. rewrite En in Eo.
      rewrite Eo. by destruct (t_level t).
Qed.
End plain.
