(* ===== verification/Templates.v ===== *)
(** What the templates of Elements come to: pages whose elements are files.  [expands] is
    the specification - a relation between the text of a file and what it comes to - and
    [templates_expand] says that MarkupTemplate, Parse and Wrapup implement it, that
    parsing ends, and that it never fails. *)

From S2P Require Import Prelude Runes GoStrings Readers RuneReaders Buffer BufferCursor BuffReader Texts MapReader Parsing Attributes Code Compile Elements Tags.
From stdpp Require Import gmap.
From Stdlib Require Strings.String.
Import Stdlib.Strings.String.StringSyntax.
#[local] Open Scope Z_scope.
#[local] Delimit Scope string_scope with string.
#[local] Arguments str s%_string.

(** ** Whole tags *)

Lemma attribute_text_plain a :
  attribute_ok a → Forall ordinary (at_value a) → Forall (λ r, utf8.ValidRune r = true ∧ r ≠ 60 ∧ r ≠ 91 ∧ r ≠ 123) (written a).
Proof.
  intros (Hne & Hn & Hq & _) Hv. unfold written. apply Forall_cons. split; [by split|]. apply Forall_app. split.
  - eapply Forall_impl; [done|]. intros r Hr. pose proof (elmchar_range r Hr). split; [by apply elmchar_valid|lia].
  - pose proof (quote_range _ Hq). assert (utf8.ValidRune (at_quote a) = true ∧ at_quote a ≠ 123) as [Hqv Hq3].
    { unfold IsTxtPar in Hq. apply existsb_exists in Hq as (x & Hx & ->%Z.eqb_eq). by repeat destruct Hx as [<-|Hx]. }
    repeat (apply Forall_cons; split; [by split_and!; try lia|]). apply Forall_app. split; [done|].
    repeat constructor; by try lia.
Qed.

(** No [<] but the first one, no [[] and no hole. *)
Lemma tag_inner_plain t : tag_ok t → Forall (λ r, utf8.ValidRune r = true ∧ r ≠ 60 ∧ r ≠ 91 ∧ r ≠ 123) (tag_inner t).
Proof.
  intros [Hl Hne Hn Ha Hv _]. unfold tag_inner, attr_text. rewrite !Forall_app. split_and!.
  - destruct (t_level t); by repeat constructor.
  - eapply Forall_impl; [done|]. cbn. intros r [Hr _]. pose proof (elmchar_range r Hr). split; [by apply elmchar_valid|lia].
  - clear Hl Hne Hn. induction (t_attrs t) as [|a l IH]; [constructor|]. inversion Ha; inversion Hv; subst. cbn [map concat].
    apply Forall_app. split; [by apply attribute_text_plain|by apply IH].
  - destruct (t_space t); by repeat constructor.
  - destruct (t_level t); by repeat constructor.
Qed.

Lemma tag_tame t : tag_ok t → tame (tag_text t).
Proof.
  intros Ht. pose proof (tag_inner_plain t Ht) as Hp. destruct Ht as [Hl Hne Hn _ _ _]. unfold tag_text.
  assert (∃ x l, tag_inner t = x :: l ∧ x ≠ 37) as (x & l & E & Hx).
  { unfold tag_inner. destruct (t_level t); cbn [app]; try (by exists 47, (t_name t ++ (concat (map written (t_attrs t)) ++ if t_space t then [32] else []) ++ [])).
    all: destruct (t_name t) as [|x n]; [done|]; apply Forall_cons in Hn as [[Hr _] _]; pose proof (elmchar_range x Hr);
      exists x; eexists; split; [reflexivity|lia]. }
  rewrite E in *. cbn [app]. apply tame_tag; [|done|].
  - apply Forall_cons. split; [done|]. apply Forall_cons in Hp as [[Hxv _] Hp]. apply Forall_cons. split; [done|]. apply Forall_app. split; [eapply Forall_impl; [exact Hp|]; by intros ? []|by repeat constructor].
  - rewrite app_comm_cons, not_elem_of_app. split; [|by rewrite list_elem_of_singleton].
    intros Hin. rewrite Forall_forall in Hp. by apply Hp in Hin as (_ & ? & _).
Qed.

Section tags.
Context (fuel : nat) (Stat : list Z → option fileinfo).
#[local] Abbreviation quiet := (quiet fuel Stat).

(** A tag that names no file: it goes out as it is. *)
Lemma plain_tag t w id c v f mp :
  working w id → elmlvl c = ElemSingle → tag_ok t → (length (t_name t) + 4 ≤ fuel)%nat → resting c v →
  fi c = Some f → attrbs c = Some mp → (t_level t ≠ ElemEnd → find_in Stat f (rooted f (t_name t)) = Done None) →
  ∃ w' c', (w' = w ∨ ∃ n, w' = add_invalid w n) ∧ quiet (tag_text t) (put w id c) (put w' id c') ∧
    resting c' (with_text v (tag_text t)) ∧ same_static c c'.
Proof.
  intros Hw Hc Ht Hfuel Hr Hf Ha Hno.
  destruct (tag_runes fuel Stat t w id c v Hw Hc Ht Hr) as (c1 & rr & a & Hq1 & Ht1 & Ea & Hs1).
  assert (elmlvl c1 = ElemSingle ∧ fi c1 = Some f ∧ attrbs c1 = Some mp) as (Hc1 & Hf1 & Ha1) by (destruct Hs1; intuition congruence).
  destruct (match_plain fuel Stat t w id c1 rr a _ v f mp _ Hw Hc1 Ht (tag_tame t Ht) Hfuel Ht1 Ea Hf1 Ha1 Hno eq_refl)
    as (w' & s & p & pos & Hw' & Hok & Hpos & E).
  set (c2 := set_cde s p (set_test [] 0 ElemUnkown None (set_lstattrbs None (set_parsing pos c1)))) in *.
  exists w', (set_parsing (set_pos pos 0 0 0) c2). split; [done|]. pose proof Ht1 as [T1 T2 T3 T4 T5 T6 T7 T8].
  assert (length (heap w') = length (heap w)) as Hlen by by destruct Hw' as [->|(n & ->)].
  assert (set_pos pos 0 0 0 = set_pos (parsing c1) 0 0 0) as Epos by by destruct Hpos as [->| ->].
  split; [|split].
  - unfold tag_text. eapply (quiet_app _ _ (60 :: tag_inner t)); [done|].
    eapply quiet_one; [done|done|done| |rewrite Hlen; apply Hw]. intros reparse.
    rewrite (close_call (events_of fuel Stat reparse id) 60 62 eq_refl _ _ _ eq_refl T1 T2 eq_refl). unfold with_parsing.
    rewrite upd_put by apply Hw. rewrite E. cbn [exec_bind]. rewrite get_put by (rewrite Hlen; apply Hw). done.
  - rewrite Epos. split; try done; [by apply set_pos_parser|]. destruct T2 as (? & ? & ?). split_and!; [done|done|done|lia].
  - done.
Qed.
End tags.

(** ** Readers in a calm world *)

Section sources.
Context (fuel : nat) (Stat : list Z → option fileinfo).

(** A source that gives the runes [l] and then its end, whatever a calm world is. *)
Fixpoint yields (src : source) (l : list Z) : Prop :=
  match l with
  | [] => ∀ w, calm w → ∃ r size err src', read_source fuel src w = Done (r, size, err, src', w) ∧
            (size =? 0) || bool_decide (is_Some err) = true
  | r :: l' => ∀ w, calm w → ∃ size src', read_source fuel src w = Done (r, size, None, src', w) ∧ 0 < size ∧ yields src' l'
  end.

Lemma yields_raw rd l : pending rd l → yields (Raw rd) l.
Proof.
  revert rd. induction l as [|r l IH]; intros rd Hp w _; cbn [read_source].
  - destruct (pending_nil rd Hp) as (r & rd' & -> & _). cbn [exec_bind]. by eexists _, _, _, _.
  - destruct (pending_cons rd r l Hp) as (n & rd' & -> & Hn & Hp'). cbn [exec_bind]. eexists _, _. split; [done|]. auto.
Qed.

Lemma calm_levels w : calm w → ∃ id c, current w = Some id ∧ heap w !! id = Some c ∧
  Busy (Some (cde_parsing c)) = false ∧ noncode (levels_of w id) = false.
Proof. intros (Hs & id & c & Hid & Hc & Hb). exists id, c. split_and!; try done. by apply levels_single. Qed.

Lemma calm_captures k w : calm w → captures w (cptrkeyval fuel k) (λ _ v, (v, true)).
Proof.
  intros (id & c & Hid & Hc & Hb & Hn)%calm_levels key v. destruct k; [done| |done]. cbn [cptrkeyval]. unfold capturekeyval.
  rewrite Hid. unfold get. rewrite Hc. cbn [exec_bind]. by rewrite Hn, Hb.
Qed.

Lemma calm_unmatched k w key : calm w → flushunmtchd k w key = false.
Proof.
  intros (id & c & Hid & Hc & Hb & Hn)%calm_levels. unfold flushunmtchd, top_noncode. rewrite Hid, Hn, Hc, Hb. by destruct k.
Qed.

(** The text of a file: literal text and names in [[#] and [#]]. *)
Definition segments_ok (mp : attributes) (gs : list MapReader.seg) : Prop := Forall (MapReader.seg_ok mp (λ _ v, (v, true)) validNameChar ArgPre ArgPost) gs.
Definition file_text (gs : list MapReader.seg) : list Z := MapReader.source ArgPre ArgPost gs.
Definition with_values (mp : attributes) (gs : list MapReader.seg) : list Z := MapReader.expansion mp (λ _ v, (v, true)) (λ _, false) ArgPre ArgPost gs.

Lemma yields_mapped k mp p st bf gs l :
  at_seg (R := anyrdr) st mp (λ _ v, (v, true)) validNameChar ArgPre ArgPost p bf gs → (MapReader.steps ArgPre ArgPost gs + 3 ≤ fuel)%nat →
  l = bf ++ with_values mp gs → yields (Mapped k mp (Open p)) l.
Proof.
  revert p st bf gs. induction l as [|r l IH]; intros p st bf gs Hat Hf El w Hw; cbn [read_source].
  all: assert (at_seg (R := anyrdr) w mp (λ _ v, (v, true)) validNameChar ArgPre ArgPost
    (MapReader.set_base p (set_cptrst (MapReader.base p) w)) bf gs) as Hat'
    by (destruct Hat as (rd & v & -> & ? & ? & ?); by exists rd, v).
  all: pose proof (deliver (R := anyrdr) w mp (cptrkeyval fuel k) (λ _ v, (v, true)) validNameChar (flushunmtchd k) (λ _, false) ArgPre ArgPost
    (calm_captures k w Hw) (λ key, calm_unmatched k w key Hw) ltac:(done) ltac:(done) ltac:(done) ltac:(by repeat constructor)
    ltac:(by repeat constructor) fuel _ bf gs Hat' Hf) as Hd.
  all: unfold with_values in El; rewrite <- El in Hd; cbn [MapReader.ReadRune].
  - unfold delivers in Hd. rewrite Hd. cbn [exec_bind]. by eexists _, _, _, _.
  - destruct Hd as (n & p' & -> & Hn & bf' & gs' & Hat2 & E2 & Hst). cbn [exec_bind]. eexists _, _. split.
    { do 3 f_equal. by destruct Hat2 as (rd & v & -> & _). }
    split; [done|]. apply (IH p' w bf' gs'); [done|lia|done].
Qed.

Lemma yields_file k mp rd gs w :
  pending rd (file_text gs) → segments_ok mp gs → (MapReader.steps ArgPre ArgPost gs + 3 ≤ fuel)%nat →
  ∃ src, mapped k mp (Some rd) w = Done src ∧ yields src (with_values mp gs).
Proof.
  intros Hp Hgs Hf. unfold mapped, MapReplaceReader. change (take 2 (List.filter (λ s, 0 <? len s) [ArgPre; ArgPost])) with [ArgPre; ArgPost].
  cbn [exec_bind]. eexists. split; [done|]. eapply (yields_mapped _ _ _ w []); [|done|done]. by exists rd, 0.
Qed.

(** Text without [[] as it is. *)
Lemma plain_values mp l : 91 ∉ l → segments_ok mp [MapReader.Lit l] ∧ file_text [MapReader.Lit l] = l ∧ with_values mp [MapReader.Lit l] = l.
Proof.
  intros Hl. split; [|split; unfold file_text, with_values, MapReader.source, MapReader.expansion; cbn; by rewrite app_nil_r].
  constructor; [|constructor]. intros r Hr. cbn. intros [= <-]. done.
Qed.

(** A world after quiet runes, with the rest of the source. *)
Lemma quiet_source rs w w' src l :
  quiet fuel Stat rs w w' → yields src (rs ++ l) →
  ∃ src', yields src' l ∧ ∀ n, parse_source fuel Stat (length rs + n) src w = parse_source fuel Stat n src' w'.
Proof.
  intros Hq. revert src. induction Hq as [w|r rs w w1 w2 Hc Hr _ IH]; intros src Hs; [by exists src|].
  cbn [app yields] in Hs. destruct (Hs w Hc) as (size & src1 & E & Hz & Hs1). destruct (IH src1 Hs1) as (src' & Hs' & E').
  exists src'. split; [done|]. intros n. cbn [length Nat.add parse_source]. rewrite E. cbn [exec_bind].
  rewrite (proj2 (Z.eqb_neq size 0)) by lia. cbn [orb]. rewrite bool_decide_eq_false_2 by (by intros []). rewrite Hr. cbn [exec_bind].
  apply E'.
Qed.

(** The end of a source. *)
Lemma source_end src w n : yields src [] → calm w → parse_source fuel Stat (S n) src w = Done w.
Proof. intros Hs Hw. destruct (Hs w Hw) as (r & size & err & src' & E & Hb). cbn [parse_source]. rewrite E. cbn [exec_bind]. by rewrite Hb. Qed.
End sources.

(** ** Worlds of single elements *)

(** A text so far with no code in it: all of it is on the page or not yet placed. *)
Definition vtext (v : view) : list Z := v_page v ++ v_text v.
Definition plain (v : view) : Prop := v_fnd v = false ∧ v_sec v = false ∧ v_code v = [] ∧ 123 ∉ v_text v ∧ valid_runes (vtext v).

Lemma plain_with_text v t : plain v → valid_runes t → 123 ∉ t → plain (with_text v t) ∧ vtext (with_text v t) = vtext v ++ t.
Proof.
  intros (H1 & H2 & H3 & H4 & H5) Hv Ht. destruct t as [|r t]; cbn [with_text]; [by rewrite app_nil_r|].
  unfold plain, vtext in *. cbn [v_page v_text v_fnd v_sec v_code]. rewrite app_assoc. split; [|done]. split_and!; try done.
  - by rewrite not_elem_of_app.
  - by apply Forall_app.
Qed.

(** A byte below 128 is the rune. *)
Lemma encode_ascii r : Forall (λ b, b < 128 → b = r) (utf8.encode r).
Proof.
  unfold utf8.encode, utf8.enc3, utf8.RuneError, utf8.ValidRune.
  repeat zcase; simpl; repeat apply List.Forall_cons; try apply List.Forall_nil; Z.to_euclidean_division_equations; lia.
Qed.

Lemma encode_no_brace l : valid_runes l → 123 ∉ l → 123 ∉ encode_all l.
Proof.
  intros Hv Hl. induction Hv as [|r l Hr Hv IH]; [done|]. apply not_elem_of_cons in Hl as [Hr1 Hl]. unfold encode_all. cbn [map concat].
  rewrite not_elem_of_app. split; [|by apply IH]. intros Hb. apply Hr1. pose proof (encode_ascii r) as H. rewrite Forall_forall in H. by apply H.
Qed.

Lemma plain_holes v : plain v → holes (v_text v) = false.
Proof.
  intros (_ & _ & _ & H & Hv). unfold holes. apply andb_false_iff. left. apply not_true_iff_false. intros Ho.
  apply occursb_spec in Ho as (a & b & Ho). apply Forall_app in Hv as [_ Hv]. apply (encode_no_brace _ Hv H). rewrite Ho.
  unfold PsvPre. rewrite !elem_of_app, elem_of_cons. auto.
Qed.

Lemma plain_flushed v : plain v → plain (flushed v) ∧ v_page (flushed v) = vtext v ∧ v_text (flushed v) = [].
Proof.
  intros Hp. pose proof (plain_holes v Hp) as Hh. destruct Hp as (H1 & H2 & H3 & H4 & H5). unfold flushed, plain, vtext in *.
  destruct (v_text v) as [|r t] eqn:E.
  - rewrite app_nil_r in *. rewrite E, app_nil_r. done.
  - cbv zeta. rewrite H1, Hh. cbn [orb v_page v_text v_fnd v_sec v_code]. rewrite app_nil_r. split_and!; try done. set_solver.
Qed.

Lemma plain_flush_ok fuel v : plain v → flush_ok fuel v.
Proof.
  intros Hp. pose proof (plain_holes v Hp) as Hh. destruct Hp as (H1 & _). split; [by unfold placeable; rewrite Hh|]. by rewrite H1, Hh.
Qed.

(** The names of the file a parser is for. *)
Definition of_file (c : contentparsing) (f : fileinfo) : Prop :=
  root c = fi_root f ∧ base c = fi_base f ∧ elmroot c = Elements.to_name (fi_root f) ∧ elmbase c = Elements.to_name (fi_base f).

Definition file_values (g pg : fileinfo) (mp : attributes) : attributes :=
  <[str "p-base" := MStr (fi_base pg)]> (<[str "p-root" := MStr (fi_root pg)]> (
  <[str "p-e-base" := MStr (Elements.to_name (fi_base pg))]> (<[str "p-e-root" := MStr (Elements.to_name (fi_root pg))]> (
  <[str "base" := MStr (fi_base g)]> (<[str "root" := MStr (fi_root g)]> (
  <[str "e-base" := MStr (Elements.to_name (fi_base g))]> (<[str "e-root" := MStr (Elements.to_name (fi_root g))]> mp))))))).

Lemma file_names_is c g pc pg mp : of_file c g → of_file pc pg → file_names c pc mp = file_values g pg mp.
Proof. intros (E1 & E2 & E3 & E4) (F1 & F2 & F3 & F4). unfold file_names, file_values. by rewrite E1, E2, E3, E4, F1, F2, F3, F4. Qed.

Lemma same_of_file c c' f : same_static c c' → of_file c f → of_file c' f.
Proof. unfold same_static, of_file. intuition congruence. Qed.

(** The parsers on the stack are at the places up to [prsix]. *)
Record stacked (w : markuptemplate) : Prop := {
  st_size : Z.of_nat (size (cntntprsngs w)) = prsix w + 1;
  st_dom : ∀ i, is_Some (cntntprsngs w !! i) → 0 ≤ i ≤ prsix w }.

Definition page_is (w : markuptemplate) (pg : fileinfo) : Prop :=
  ∃ pid pc, cntntprsngs w !! 0 = Some pid ∧ heap w !! pid = Some pc ∧ of_file pc pg.

(** The parser [id], with the text [v] so far, is at work between two tags of [f]. *)
Record here (pg f : fileinfo) (w : markuptemplate) (id : nat) (c : contentparsing) (v : view) : Prop := {
  h_get : heap w !! id = Some c;
  h_working : working w id;
  h_stacked : stacked w;
  h_page : page_is w pg;
  h_fi : fi c = Some f;
  h_attrs : is_Some (attrbs c);
  h_resting : resting c v;
  h_plain : plain v }.

Lemma h_single pg f w id c v : here pg f w id c v → elmlvl c = ElemSingle.
Proof. intros H. exact (wk_single _ _ (h_working _ _ _ _ _ _ H) id c (h_get _ _ _ _ _ _ H)). Qed.

Lemma h_put pg f w id c v : here pg f w id c v → put w id c = w.
Proof. intros H. apply put_get, H. Qed.

Lemma h_calm pg f w id c v : here pg f w id c v → calm w.
Proof.
  intros H. rewrite <- (h_put _ _ _ _ _ _ H). apply calm_put; [apply H|by eapply h_single|].
  eapply cde_ok_idle, tg_cde, H.
Qed.

(** What parsing in [id] leaves as it is. *)
Record kept (id : nat) (w w' : markuptemplate) : Prop := {
  kp_stack : cntntprsngs w' = cntntprsngs w;
  kp_ix : prsix w' = prsix w;
  kp_bf : cntntbf w' = cntntbf w;
  kp_cde : m_cdebf w' = m_cdebf w;
  kp_heap : ∀ j c, j ≠ id → heap w !! j = Some c → heap w' !! j = Some c;
  kp_len : (length (heap w) ≤ length (heap w'))%nat }.

Lemma kept_refl id w : kept id w w.
Proof. by split. Qed.

Lemma kept_trans id w1 w2 w3 : kept id w1 w2 → kept id w2 w3 → kept id w1 w3.
Proof. intros [] []. split; try congruence; [auto|lia]. Qed.

Lemma kept_put id w c : kept id w (put w id c).
Proof.
  split; try done; [|by rewrite length_put]. intros j c' Hj Hc. unfold put. cbn. by rewrite list_lookup_insert_ne.
Qed.

(** Still there after parsing. *)
Lemma here_kept pg f w w' id c c' v v' :
  here pg f w id c v → kept id w w' → singles w' → heap w' !! id = Some c' → same_static c c' → resting c' v' → plain v' →
  here pg f w' id c' v'.
Proof.
  intros [H1 H2 H3 H4 H5 H6 H7 H8] [K1 K2 K3 K4 K5 K6] Hs Hc' Hst Hr Hp. split; try done.
  - destruct H2 as [W1 W2 W3 W4]. split; [unfold current in *; congruence|by eapply lookup_lt_Some|done|].
    destruct W4 as [W4|(j & Hj & Hne & Hl)]; [left; congruence|]. right. exists j. rewrite K1, K2. split_and!; [done|done|lia].
  - destruct H3 as [S1 S2]. by split; rewrite K1, K2.
  - destruct H4 as (pid & pc & P1 & P2 & P3). destruct (decide (pid = id)) as [->|Hne].
    + exists id, c'. rewrite K1. split_and!; try done. eapply same_of_file; [done|]. congruence.
    + exists pid, pc. rewrite K1. split_and!; try done. auto.
  - destruct Hst as (_ & _ & _ & _ & _ & _ & _ & _ & -> & _). done.
  - destruct Hst as (_ & _ & _ & _ & _ & _ & _ & -> & _). done.
Qed.

(** ** A parser for a file *)

Definition fresh_cde : codeparsing * Parsing :=
  let '(s, p) := nextCodeParsing false true CdePre CdePost in code_reset s p.

Definition fresh_parser (g : fileinfo) (nm : list Z) (o : option nat) (mp : option attributes) : contentparsing :=
  MkContent (nextparsing [60] [62] None (Some new_text)) ElemSingle nm
    (Elements.to_name (fi_root g)) (Elements.to_name (fi_base g)) (fi_root g) (fi_base g) (fi_path g)
    [] 0 ElemUnkown None None mp fresh_cde.1 fresh_cde.2 (Some g) o.

Lemma fresh_cde_ok : cde_ok fresh_cde.1 fresh_cde.2 view0.
Proof. split; [by split|]. split; [cbn; split_and!; done || lia|]. split; try done. Qed.

Lemma fresh_resting g nm o mp : resting (fresh_parser g nm o mp) view0.
Proof. split; try done; [cbn; split_and!; done || lia|apply fresh_cde_ok]. Qed.

Lemma plain_view0 : plain view0.
Proof. split_and!; try done. set_solver. Qed.

(** A parser put on the stack. *)
Definition child (w : markuptemplate) (cn : contentparsing) : markuptemplate :=
  set_stack (set_heap w (heap w ++ [cn])) (<[prsix w + 1 := length (heap w)]> (cntntprsngs w)) (prsix w + 1).

Lemma stack_free w : stacked w → cntntprsngs w !! (prsix w + 1) = None.
Proof. intros [_ Hd]. destruct (cntntprsngs w !! (prsix w + 1)) as [j|] eqn:E; [|done]. specialize (Hd (prsix w + 1)). rewrite E in Hd. destruct Hd; [by eexists|lia]. Qed.

Lemma here_child pg f g w id c v nm mp :
  here pg f w id c v → here pg g (child w (fresh_parser g nm (Some id) (Some mp))) (length (heap w)) (fresh_parser g nm (Some id) (Some mp)) view0.
Proof.
  intros H. pose proof H as [H1 [W1 W2 W3 W4] Hst Hp H5 H6 H7 H8]. pose proof (stack_free w Hst) as Hfree. destruct Hst as [S1 S2].
  pose proof (proj1 (S2 (prsix w) ltac:(by eexists))) as Hix0.
  set (cn := fresh_parser g nm (Some id) (Some mp)). split; try done.
  - unfold child. cbn. by rewrite lookup_app_r, Nat.sub_diag by lia.
  - split.
    + unfold current, child. cbn. apply lookup_insert_eq.
    + unfold child. cbn. rewrite length_app. cbn. lia.
    + intros j c' E. unfold child in E. cbn in E. apply lookup_app_Some in E as [E|[_ E]]; [by eapply W3|]. by apply list_lookup_singleton_Some in E as [_ <-].
    + right. exists id. unfold child. cbn. rewrite Z.add_simpl_r, lookup_insert_ne by lia. split_and!; [done|lia|rewrite length_app; cbn; lia].
  - split; unfold child; cbn.
    + rewrite map_size_insert_None by done. lia.
    + intros i [j Hj]. apply lookup_insert_Some in Hj as [[<- _]|[_ Hj]]; [lia|]. specialize (S2 i ltac:(by eexists)). lia.
  - destruct Hp as (pid & pc & P1 & P2 & P3). exists pid, pc. unfold child. cbn. rewrite lookup_insert_ne by (specialize (S2 0 ltac:(by eexists)); lia).
    split_and!; [done| |done]. by apply lookup_app_l_Some.
  - apply fresh_resting.
  - apply plain_view0.
Qed.

(** What an element's text may name. *)
Definition element_values (pg g : fileinfo) (nm : list Z) (t : tag) : attributes :=
  <[str "e-name" := MStr nm]> (<[str "cntnt" := MStr []]> (file_values g pg (default ∅ (found_list (map found_of (t_attrs t)))))).

Section element.
Context (fuel : nat) (Stat : list Z → option fileinfo).

Lemma flush_here w id c v :
  (id < length (heap w))%nat → singles w → elmlvl c = ElemSingle → cde_ok (cde c) (cde_parsing c) v → plain v →
  ∃ s, cde_flushPsv fuel id (put w id c) = Done (put w id (set_cde s (cde_parsing c) c)) ∧ cde_ok s (cde_parsing c) (flushed v).
Proof.
  intros Hid Hs Hc (Hp & Hm & Hsh) Hv. unfold cde_flushPsv, with_cde. rewrite get_put by done. cbn [exec_bind].
  destruct (flushPsv_is (levels_of (put w id c) id) fuel (cde c) (cde_parsing c) v) as (s & -> & Hsh').
  - by apply levels_single, singles_put.
  - done.
  - by apply plain_flush_ok.
  - cbn [exec_bind]. rewrite upd_put by done. exists s. done.
Qed.

(** The end of a tag whose name is a file: a parser for it is put on the stack, reads the
    file and is closed. *)
Lemma open_file pg t w id c c1 rr a v f g rd nm :
  here pg f w id c v → same_static c c1 → tag_ok t → t_level t = ElemSingle →
  tagging c1 (Inside 0 None) (t_name t) rr ElemSingle a (found_list (map found_of (t_attrs t))) v →
  find_in Stat f (rooted f (t_name t)) = Done (Some g) → fi_reader g = Some rd → scripted (fi_ext g) = false → element_name g = Done nm →
  ∃ c7 wp, kept id w wp ∧ here pg f wp id c7 (flushed v) ∧ same_static c c7 ∧
    ∀ reparse p1, p1 = set_pos (parsing c1) 1 (prvr (parsing c1)) 1 →
      let c4 := set_parsing p1 c1 in
      open_element fuel Stat reparse id c4 (t_name t) (rooted f (t_name t)) (put w id (set_lstattrbs None (set_test [] (tstr c4) ElemUnkown None c4))) =
      let mp := element_values pg g nm t in
      let* src := mapped FileMap mp (Some rd) (child wp (fresh_parser g nm (Some id) (Some mp))) in
      let* w7 := reparse src (child wp (fresh_parser g nm (Some id) (Some mp))) in
      let* w8 := close_content fuel reparse (length (heap wp)) w7 in Done (false, w8).
Proof.
  intros H Hst Ht Hl [T1 T2 T3 T4 T5 T6 T7 T8] Hfind Hrd Hscr Hnm.
  pose proof (h_working _ _ _ _ _ _ H) as Hw. pose proof (wk_in _ _ Hw) as Hid. pose proof (h_single _ _ _ _ _ _ H) as Hc.
  assert (elmlvl c1 = ElemSingle ∧ fi c1 = Some f) as [Hc1 Hf1] by (pose proof (h_fi _ _ _ _ _ _ H); destruct Hst; intuition congruence).
  set (p0 := set_pos (parsing c1) 0 0 0). set (c6 := set_lstattrbs None (set_test [] 0 ElemUnkown None (set_parsing p0 c1))).
  set (fn := ReplaceAll (rooted f (t_name t)) (str "..:") []).
  destruct (flush_here (add_valid w fn g) id c6 v) as (s & Efl & Hok); [done|apply Hw|done|done|apply H|].
  set (c7 := set_cde s (cde_parsing c6) c6). set (wp := put (add_valid w fn g) id c7).
  assert (same_static c c7) as Hst7 by done.
  assert (kept id w wp) as Hk.
  { eapply kept_trans; [|apply kept_put]. by split. }
  assert (here pg f wp id c7 (flushed v)) as H7.
  { eapply here_kept; [done|done| | |done| |].
    - apply singles_put; [apply Hw|done].
    - unfold wp, put. cbn. by rewrite list_lookup_insert_eq.
    - split; try done; [by apply set_pos_parser|]. destruct T2 as (? & ? & ?). split_and!; [done|done|done|lia].
    - apply plain_flushed, H. }
  exists c7, wp. split; [done|]. split; [done|]. split; [done|]. intros reparse p1 -> c4.
  unfold open_element, find_file, file_of. rewrite (Hf1 : fi c4 = Some f). cbn [exec_bind]. rewrite Hfind. cbn [exec_bind]. fold fn.
  change (add_valid (put w id ?x) fn g) with (put (add_valid w fn g) id x). rewrite upd_put by done. unfold resetTest. rewrite get_put by done. cbn [exec_bind].
  rewrite upd_put by done. cbn [exec_bind]. 
  change (set_test [] 0 ElemUnkown None (reset_parsing (set_lstattrbs None (set_test [] (tstr c4) ElemUnkown None c4)))) with c6.
  rewrite Efl. cbn [exec_bind]. fold c7 wp.
  assert (appendCntntParsing (Some id) g (c_tstlvl c4) wp =
    Done (length (heap wp), child wp (fresh_parser g nm (Some id) None))) as ->.
  { unfold appendCntntParsing, nextContentParsing. rewrite (st_size wp) by apply H7.
    unfold get at 1. rewrite (h_get _ _ _ _ _ _ H7). cbn [exec_bind].
    assert (prelbl (cde_parsing c7) = CdePre ∧ postlbl (cde_parsing c7) = CdePost) as [-> ->] by (destruct Hok as ([] & _); done).
    rewrite Hscr, Hnm.
    cbn [fst snd exec_bind]. rewrite bool_decide_eq_false_2.
    - change (c_tstlvl c4) with (c_tstlvl c1). rewrite T5. done.
    - intros E. pose proof (wk_top _ _ (h_working _ _ _ _ _ _ H7)) as E2. unfold current in E2. rewrite E in E2. done. }
  cbn [exec_bind]. change (c_tstlvl c4) with (c_tstlvl c1). rewrite T5.
  change (lstattrbs c4) with (lstattrbs c1). rewrite T7. set (lst := found_list (map found_of (t_attrs t))).
  assert (∀ cn F, upd (child wp cn) (length (heap wp)) F = child wp (F cn)) as Hupd.
  { intros cn F. unfold upd, child, set_heap, set_stack. cbn. f_equal. rewrite alter_app_r_alt by lia. by rewrite Nat.sub_diag. }
  assert (∀ cn, get (child wp cn) (length (heap wp)) = Done cn) as Hget.
  { intros cn. unfold get, child. cbn. by rewrite lookup_app_r, Nat.sub_diag by lia. }
  rewrite Hupd, Hget. cbn [exec_bind]. destruct (h_page _ _ _ _ _ _ H7) as (pid & pc & P1 & P2 & P3).
  assert (page (child wp (set_attrbs lst (fresh_parser g nm (Some id) None))) = Done pc) as ->.
  { unfold page, child, get. cbn [cntntprsngs set_stack set_heap heap].
    rewrite lookup_insert_ne by (pose proof (st_dom wp ltac:(apply H7) 0 ltac:(by eexists)); lia).
    rewrite P1. by rewrite (lookup_app_l_Some _ _ _ _ P2). }
  cbn [exec_bind]. rewrite (file_names_is _ g pc pg) by done. change (attrbs (set_attrbs lst _)) with lst. rewrite Hupd, Hrd.
  change (elmname (set_attrbs lst (fresh_parser g nm (Some id) None))) with nm. unfold parse_file.
  change (set_attrbs (Some ?m) (set_attrbs lst (fresh_parser g nm (Some id) None))) with (fresh_parser g nm (Some id) (Some m)).
  fold (element_values pg g nm t). cbv zeta. unfold element_values. fold lst.
  destruct (mapped _ _ _ _) as [src| |]; done.
Qed.
End element.

Section closing.
Context (fuel : nat) (Stat : list Z → option fileinfo).

(** A source for what a parser has made. *)
Lemma buffer_source b l w id c pg f v :
  here pg f w id c v → buf_is (Some b) l → valid_runes l → l ≠ [] → 91 ∉ l → (length l + 4 ≤ fuel)%nat →
  ∃ src, yields fuel src l ∧ ∀ reparse, Parse_buffer reparse b w = reparse src w.
Proof.
  intros H (Hw & Hl & Hc) Hv Hne H91 Hf.
  destruct (Reader_closing b true l) as (r & E & Hr); [split; [done|rewrite Hl; done]|done|done|done|].
  assert (pending (AnyRdr (option BuffReader) _ (Some r)) l) as Hp by by exists BuffReader_closing_source.
  unfold Parse_buffer. rewrite E. unfold exec_bind at 1. unfold Parse_reader. destruct (prsix w =? 0).
  - rewrite (wk_top w id) by apply H. unfold get. rewrite (h_get _ _ _ _ _ _ H). destruct (plain_values (default ∅ (attrbs c)) l H91) as (H1 & H2 & H3).
    destruct (yields_file fuel RootMap (default ∅ (attrbs c)) (AnyRdr (option BuffReader) _ (Some r)) [MapReader.Lit l] w) as (src & Es & Hs).
    + by rewrite H2.
    + done.
    + unfold MapReader.steps. unfold file_text in H2. rewrite H2. cbn. lia.
    + exists src. rewrite H3 in Hs. split; [done|]. intros reparse. cbn [exec_bind]. by rewrite Es.
  - eexists. split; [by apply yields_raw|done].
Qed.

(** [Close] of a parser on top of another: what it made is parsed on by that one. *)
Lemma close_file pg f g wp w7 id c7 v0 cn0 c' v' :
  here pg f wp id c7 v0 → kept (length (heap wp)) (child wp cn0) w7 → here pg g w7 (length (heap wp)) c' v' →
  91 ∉ vtext v' → (length (vtext v') + 4 ≤ fuel)%nat →
  ∃ w3 src c9, here pg f w3 id c7 v0 ∧ kept id wp w3 ∧ heap w3 !! length (heap wp) = Some c9 ∧ yields fuel src (vtext v') ∧
    ∀ reparse w4, reparse src w3 = Done w4 → (vtext v' = [] → w4 = w3) → heap w4 !! length (heap wp) = Some c9 →
      close_content fuel reparse (length (heap wp)) w7 = Done (upd w4 (length (heap wp)) (set_attrbs None)).
Proof.
  set (nid := length (heap wp)). intros Hwp Hk Hw7 H91 Hf. pose proof (h_working _ _ _ _ _ _ Hwp) as Wp. pose proof (h_working _ _ _ _ _ _ Hw7) as W7.
  pose proof (wk_in _ _ W7) as Hnid. pose proof (wk_in _ _ Wp) as Hid.
  destruct (flush_here fuel w7 nid c' v') as (s & Efl & Hok); [done|apply W7|by eapply h_single|apply Hw7|apply Hw7|].
  rewrite (h_put _ _ _ _ _ _ Hw7) in Efl. destruct (plain_flushed v') as (Hpl & Hpage & _); [apply Hw7|].
  set (c8 := set_cde s (cde_parsing c') c') in *. set (c9 := set_fi None (set_cde (set_cbf (cde c8) None) (cde_parsing c8) c8)).
  set (w3 := set_stack (put w7 nid c9) (cntntprsngs wp) (prsix wp)).
  assert (kept id wp w3) as Hk3.
  { destruct Hk as [K1 K2 K3 K4 K5 K6]. split; try done.
    - intros j c Hj E. assert (j < nid)%nat as Hjn by by apply lookup_lt_Some in E. unfold w3, put. cbn. rewrite list_lookup_insert_ne by lia.
      apply K5; [lia|]. unfold child. cbn. by apply lookup_app_l_Some.
    - unfold w3, put. cbn. rewrite length_insert. cbn in K6. rewrite length_app in K6. lia. }
  assert (heap w3 !! id = Some c7) as Hid3.
  { destruct Hk as [_ _ _ _ K5 _]. unfold w3, put. cbn. rewrite list_lookup_insert_ne by lia. apply K5; [lia|]. unfold child. cbn.
    apply lookup_app_l_Some, Hwp. }
  assert (here pg f w3 id c7 v0) as H3.
  { eapply here_kept; [done|done| |done|done|apply Hwp|apply Hwp].
    apply (singles_put w7 nid c9); [apply W7|]. apply (h_single _ _ _ _ _ _ Hw7). }
  destruct Hok as (_ & _ & [_ _ _ Hcode Hcbf _]). rewrite Hpage in Hcbf. destruct Hpl as (_ & _ & Ecode & _). rewrite Ecode in Hcode.
  assert (valid_runes (vtext v')) as Hval by apply Hw7.
  assert (∃ src, yields fuel src (vtext v') ∧ ∀ reparse w4, reparse src w3 = Done w4 → (vtext v' = [] → w4 = w3) →
    match cbf s with
      | Some b => if Buffer.Empty (Some b) then Done w3 else Parse_buffer reparse b w3
      | None => Done w3
      end = Done w4) as (src & Hsrc & Esrc).
  { destruct (decide (vtext v' = [])) as [E|E].
    - exists Nothing. rewrite E. split; [intros w _; by eexists _, _, _, _|]. intros reparse w4 _ ->; [|done]. destruct (cbf s) as [b|] eqn:Eb; [|done].
      by rewrite (Empty_is (Some b) (vtext v') Hcbf Hval), bool_decide_eq_true_2.
    - destruct (cbf s) as [b|] eqn:Eb; [|by cbn in Hcbf]. destruct (buffer_source b (vtext v') w3 id c7 pg f v0 H3 Hcbf Hval E H91 Hf) as (src & Hs & Es).
      exists src. split; [done|]. intros reparse w4 Hr _. rewrite (Empty_is (Some b) (vtext v') Hcbf Hval), bool_decide_eq_false_2 by done.
      by rewrite Es. }
  assert (heap w3 !! nid = Some c9) as E3 by (unfold w3, put; cbn; by rewrite list_lookup_insert_eq).
  exists w3, src, c9. split; [done|]. split; [done|]. split; [done|]. split; [done|]. intros reparse w4 Hr Hr' Hn4.
  unfold close_content. rewrite Efl. cbn [exec_bind]. rewrite get_put by done. cbn [exec_bind].
  rewrite (bool_decide_eq_true_2 (is_Some (fi c8))) by (rewrite (h_fi _ _ _ _ _ _ Hw7 : fi c8 = _); by eexists).
  cbn [negb]. rewrite upd_put by done. fold c9.
  pose proof (wk_top _ _ W7) as Etop. unfold current in Etop.
  assert (prsix w7 = prsix wp + 1 ∧ cntntprsngs w7 = <[prsix wp + 1 := nid]> (cntntprsngs wp)) as [Eix Estk] by by destruct Hk.
  pose proof (proj1 (st_dom wp ltac:(apply Hwp) (prsix wp) ltac:(eexists; apply Wp))) as Hix0.
  assert ((0 <? prsix (put w7 nid c9)) && bool_decide (cntntprsngs (put w7 nid c9) !! prsix (put w7 nid c9) = Some nid) = true) as ->.
  { apply andb_true_iff. split; [|by apply bool_decide_eq_true]. change (prsix (put w7 nid c9)) with (prsix w7). apply Z.ltb_lt. lia. }
  assert (set_stack (put w7 nid c9) (delete (prsix (put w7 nid c9)) (cntntprsngs (put w7 nid c9))) (prsix (put w7 nid c9) - 1) = w3) as ->.
  { unfold w3. change (prsix (put w7 nid c9)) with (prsix w7). change (cntntprsngs (put w7 nid c9)) with (cntntprsngs w7). rewrite Eix, Estk.
    f_equal; [|lia]. apply delete_insert_id, stack_free, Hwp. }
  cbv zeta. change (cntntprsngs w3 !! prsix w3) with (current wp). rewrite (wk_top _ _ Wp).
  rewrite (bool_decide_eq_false_2 (Some id = Some nid)) by (intros [= E]; lia).
  change (cbf (cde c8)) with (cbf s). rewrite (Esrc reparse w4 Hr Hr'). cbn [exec_bind].
  unfold get at 1. rewrite Hn4. cbn [exec_bind]. change (cdebf (cde c9)) with (cdebf s).
  destruct (cdebf s) as [b|] eqn:Eb; [|done]. rewrite (Empty_is (Some b) [] Hcode) by constructor. done.
Qed.
End closing.

(** ** Pages *)

(** A [<] before a rune that begins no name, and the rune. *)
Definition no_tag (r : Z) : Prop := ordinary r ∧ validElmchar r = false ∧ IsTxtPar r = false ∧ r ≠ 37 ∧ r ≠ 47 ∧ r ≠ 62.

Section expands.
Context (Stat : list Z → option fileinfo) (pg : fileinfo).

(** What the text [s] comes to in the file [f] of the page [pg]: a tag whose name is a file
    becomes that file's text with the tag's attributes for its names, expanded there and
    then once more where the tag is; all else stays as it is. *)
Inductive expands : fileinfo → list Z → list Z → Prop :=
| X_end f : expands f [] []
| X_text f r s o : ordinary r → expands f s o → expands f (r :: s) (r :: o)
| X_less f r s o : no_tag r → expands f s o → expands f (60 :: r :: s) (60 :: r :: o)
| X_tag f t s o :
    tag_ok t → (t_level t ≠ ElemEnd → find_in Stat f (rooted f (t_name t)) = Done None) →
    expands f s o → expands f (tag_text t ++ s) (tag_text t ++ o)
| X_element f t g rd nm gs b b' s o :
    tag_ok t → t_level t = ElemSingle → find_in Stat f (rooted f (t_name t)) = Done (Some g) →
    fi_reader g = Some rd → scripted (fi_ext g) = false → element_name g = Done nm →
    pending rd (file_text gs) → segments_ok (element_values pg g nm t) gs →
    expands g (with_values (element_values pg g nm t) gs) b → expands f b b' →
    expands f s o → expands f (tag_text t ++ s) (b' ++ o).

Definition clean (l : list Z) : Prop := Forall (λ r, utf8.ValidRune r = true ∧ r ≠ 91 ∧ r ≠ 123) l.

Lemma tag_clean t : tag_ok t → clean (tag_text t).
Proof.
  intros Ht. unfold tag_text. apply Forall_cons. split; [done|]. apply Forall_app. split; [|by repeat constructor].
  eapply Forall_impl; [by apply tag_inner_plain|]. cbn. intuition.
Qed.

Lemma expands_clean f s o : expands f s o → clean o.
Proof.
  induction 1 as [f|f r s o Hr _ IH|f r s o Hr _ IH|f t s o Ht _ _ IH|f t g rd nm gs b b' s o _ _ _ _ _ _ _ _ _ _ _ IH1 _ IH2].
  - constructor.
  - constructor; [|done]. destruct Hr as (? & ? & ? & ?). done.
  - destruct Hr as ((? & ? & ? & ?) & _). repeat (constructor; [done|]). done.
  - apply Forall_app. split; [by apply tag_clean|done].
  - by apply Forall_app.
Qed.

Lemma clean_facts l : clean l → valid_runes l ∧ 91 ∉ l ∧ 123 ∉ l.
Proof.
  intros H. split; [|split; intros Hin; unfold clean in H; rewrite Forall_forall in H; by apply H in Hin as (_ & ? & ?)].
  eapply Forall_impl; [exact H|]. by intros ? [].
Qed.

(** [s] is parsed and comes to [o]: with fuel from [N] on all of [s] is read and nothing
    else, and [o] is what the text of the parser at work gains. *)
Definition parsed (N : nat) (f : fileinfo) (s o : list Z) : Prop := ∀ fuel w id c v src l,
  (N ≤ fuel)%nat → here pg f w id c v → yields fuel src (s ++ l) →
  ∃ w' c' v' src', kept id w w' ∧ here pg f w' id c' v' ∧ same_static c c' ∧ vtext v' = vtext v ++ o ∧ yields fuel src' l ∧
    ∀ n, (N ≤ n)%nat → parse_source fuel Stat (length s + n) src w = parse_source fuel Stat n src' w'.

Lemma parsed_mono N N' f s o : (N ≤ N')%nat → parsed N f s o → parsed N' f s o.
Proof.
  intros Hle H fuel w id c v src l Hf Hh Hs. destruct (H fuel w id c v src l ltac:(lia) Hh Hs) as (w' & c' & v' & src' & H1 & H2 & H3 & H4 & H5 & H6).
  exists w', c', v', src'. split_and!; try done. intros n Hn. apply H6. lia.
Qed.

Lemma parsed_app N f s1 o1 s2 o2 : parsed N f s1 o1 → parsed N f s2 o2 → parsed N f (s1 ++ s2) (o1 ++ o2).
Proof.
  intros H1 H2 fuel w id c v src l Hf Hh Hs. rewrite <- app_assoc in Hs.
  destruct (H1 fuel w id c v src _ Hf Hh Hs) as (w1 & c1 & v1 & src1 & A1 & A2 & A3 & A4 & A5 & A6).
  destruct (H2 fuel w1 id c1 v1 src1 _ Hf A2 A5) as (w2 & c2 & v2 & src2 & B1 & B2 & B3 & B4 & B5 & B6).
  exists w2, c2, v2, src2. split_and!; try done.
  - by eapply kept_trans.
  - by eapply same_static_trans.
  - by rewrite B4, A4, app_assoc.
  - intros n Hn. rewrite length_app, <- Nat.add_assoc, A6 by lia. auto.
Qed.

Lemma parsed_quiet N f s o :
  (∀ fuel w id c v, (N ≤ fuel)%nat → here pg f w id c v → ∃ w' c' v', (w' = w ∨ ∃ n, w' = add_invalid w n) ∧
    quiet fuel Stat s w (put w' id c') ∧ resting c' v' ∧ same_static c c' ∧ plain v' ∧ vtext v' = vtext v ++ o) →
  parsed N f s o.
Proof.
  intros H fuel w id c v src l Hf Hh Hs. destruct (H fuel w id c v Hf Hh) as (w' & c' & v' & Hw' & Hq & Hr & Hst & Hp & Ho).
  destruct (quiet_source fuel Stat s w (put w' id c') src l Hq Hs) as (src' & Hs' & E).
  pose proof (wk_in _ _ (h_working _ _ _ _ _ _ Hh)) as Hid.
  assert (kept id w (put w' id c')) as Hk.
  { eapply kept_trans; [|apply kept_put]. destruct Hw' as [->|(n & ->)]; [apply kept_refl|by split]. }
  exists (put w' id c'), c', v', src'. split_and!; try done.
  eapply here_kept; [done|done| | |done|done|done].
  - apply singles_put; [|destruct Hst as (-> & _); by eapply h_single]. destruct Hw' as [->|(n & ->)]; apply Hh.
  - unfold put. cbn. rewrite list_lookup_insert_eq; [done|]. by destruct Hw' as [->|(n & ->)].
Qed.

Lemma parsed_nil f : parsed 0 f [] [].
Proof.
  apply parsed_quiet. intros fuel w id c v _ Hh. exists w, c, v. rewrite app_nil_r, (h_put _ _ _ _ _ _ Hh).
  split_and!; [by left|apply quiet_nil|apply Hh|done|apply Hh|done].
Qed.

Lemma parsed_text f r : ordinary r → parsed 0 f [r] [r].
Proof.
  intros (Hv & H60 & H91 & H123). apply parsed_quiet. intros fuel w id c v _ Hh.
  destruct (text_rune fuel Stat r w id c v) as (c' & Hq & Hr & Hst); [apply Hh|by eapply h_single|apply Hh|done|done|].
  rewrite (h_put _ _ _ _ _ _ Hh) in Hq. destruct (plain_with_text v [r]) as [Hp Ho]; [apply Hh|by repeat constructor|by rewrite list_elem_of_singleton|].
  exists w, c', (with_text v [r]). split_and!; try done. by left.
Qed.

Lemma parsed_tag f t :
  tag_ok t → (t_level t ≠ ElemEnd → find_in Stat f (rooted f (t_name t)) = Done None) → parsed (length (t_name t) + 4) f (tag_text t) (tag_text t).
Proof.
  intros Ht Hno. apply parsed_quiet. intros fuel w id c v Hf Hh. destruct (h_attrs _ _ _ _ _ _ Hh) as [mp Hmp].
  destruct (plain_tag fuel Stat t w id c v f mp) as (w' & c' & Hw' & Hq & Hr & Hst); [apply Hh|by eapply h_single|done|done|apply Hh..|done|done|].
  rewrite (h_put _ _ _ _ _ _ Hh) in Hq. destruct (clean_facts _ (tag_clean t Ht)) as (H1 & H2 & H3).
  destruct (plain_with_text v (tag_text t)) as [Hp Ho]; [apply Hh|done|done|]. by exists w', c', (with_text v (tag_text t)).
Qed.

Lemma less_rune fuel r w id c v :
  working w id → elmlvl c = ElemSingle → resting c v → no_tag r →
  ∃ c', quiet fuel Stat [60; r] (put w id c) (put w id c') ∧ resting c' (with_text v [60; r]) ∧ same_static c c'.
Proof.
  intros Hw Hc Ht ((Hv & H60 & H91 & H123) & He & Hq & H37 & H47 & H62). pose proof (wk_in _ _ Hw) as Hid.
  destruct (open_rune fuel Stat w id c v Hw Hc Ht) as (c1 & Hq1 & Ht1 & Hs1). pose proof Ht1 as [T1 T2 T3 T4 T5 T6 T7 T8].
  assert (elmlvl c1 = ElemSingle) as Hc1 by (destruct Hs1; congruence).
  destruct (texted_at 60 62 None r (parsing c1) T1 T2) as [Hp1 Hm1].
  set (p1 := texted (parsing c1) r) in *. set (c2 := set_test [] 0 ElemUnkown None (set_parsing p1 c1)).
  destruct (preRunes_text fuel [60; r] id w c2 v Hid) as (s & p & E & Hok); [|done|].
  { apply tame_tag; [by repeat constructor|done|by rewrite list_elem_of_singleton]. }
  set (c3 := set_cde s p c2) in *.
  exists (set_parsing (set_pos (set_bufdrns p1 []) 0 0 0) c3). split; [|split].
  - eapply (quiet_app _ _ [60]); [done|]. 
    change (set_parsing (set_pos (set_bufdrns p1 []) 0 0 0) c3) with
      (set_parsing (set_pos (set_bufdrns p1 []) 0 0 0) (set_parsing (set_bufdrns p1 []) c3)).
    eapply quiet_one; [done|done|done| |done]. intros reparse.
    rewrite (inside_call (events_of fuel Stat reparse id) 60 62 eq_refl _ None r _ _ eq_refl T1 T2 (λ _, H62)). unfold with_parsing. rewrite upd_put by done.
    fold p1. cbn [postRunes post_runes]. rewrite get_put by done. cbn [exec_bind]. change (c_tstlvl (set_parsing p1 c1)) with (c_tstlvl c1). rewrite T5.
    rewrite (proj2 (Z.eqb_neq r 47)) by done. change (tstr (set_parsing p1 c1)) with (tstr c1). rewrite T4.
    assert ((validElemChar 0 r).1 = false) as -> by (unfold validElemChar; by destruct (IsSpace r), (0 <? 0)).
    unfold resetTest. rewrite get_put by done. cbn [exec_bind]. rewrite upd_put by done.
    assert (as_read (set_parsing p1 c1) [r] = [60; r]) as ->.
    { unfold as_read. change (c_tstlvl (set_parsing p1 c1)) with (c_tstlvl c1). change (tstatrbs (set_parsing p1 c1)) with (tstatrbs c1).
      change (c_tstname (set_parsing p1 c1)) with (c_tstname c1). rewrite T5, T6, T3. change (parsing (set_parsing p1 c1)) with p1.
      by rewrite (pf_pre _ _ _ _ Hp1). }
    fold c2. rewrite E. cbn [exec_bind]. fold c3. rewrite upd_put, get_put by done. done.
  - split; try done.
    + apply set_pos_parser. by destruct Hp1.
    + destruct Hm1 as (? & ? & Hm1). unfold quote_step in Hm1. rewrite Hq in Hm1. split_and!; [done|done|done|lia].
  - done.
Qed.

Lemma parsed_less f r : no_tag r → parsed 0 f [60; r] [60; r].
Proof.
  intros Hr. apply parsed_quiet. intros fuel w id c v _ Hh.
  destruct (less_rune fuel r w id c v) as (c' & Hq & Hrs & Hst); [apply Hh|by eapply h_single|apply Hh|done|].
  rewrite (h_put _ _ _ _ _ _ Hh) in Hq. destruct Hr as ((Hv & H60 & H91 & H123) & _).
  destruct (plain_with_text v [60; r]) as [Hp Ho]; [apply Hh|by repeat constructor| |].
  { rewrite !not_elem_of_cons. by split_and!; try apply not_elem_of_nil. }
  exists w, c', (with_text v [60; r]). split_and!; try done. by left.
Qed.
(** A whole source. *)
Lemma parsed_source N f s o fuel w id c v src :
  parsed N f s o → (N ≤ fuel)%nat → here pg f w id c v → yields fuel src s →
  ∃ w' c' v', kept id w w' ∧ here pg f w' id c' v' ∧ same_static c c' ∧ vtext v' = vtext v ++ o ∧
    (∀ n, (length s + N + 1 ≤ n)%nat → parse_source fuel Stat n src w = Done w') ∧ (s = [] → w' = w).
Proof.
  intros H Hf Hh Hs. destruct (H fuel w id c v src [] Hf Hh) as (w' & c' & v' & src' & H1 & H2 & H3 & H4 & H5 & H6); [by rewrite app_nil_r|].
  exists w', c', v'. pose proof (h_calm _ _ _ _ _ _ H2) as Hcalm. pose proof (h_calm _ _ _ _ _ _ Hh) as Hcalm0.
  assert (∀ n, (length s + N + 1 ≤ n)%nat → parse_source fuel Stat n src w = Done w') as E.
  { intros n Hn. replace n with (length s + S (n - length s - 1))%nat by lia. rewrite H6 by lia. by apply source_end. }
  split_and!; try done. intros ->. specialize (E (S N) ltac:(cbn; lia)).
  rewrite (source_end _ _ src w N Hs Hcalm0) in E. by injection E.
Qed.

(** The end of a tag whose name is a file. *)
Lemma element_end t f g rd nm gs b b' N1 N2 fuel w id c c1 rr a v :
  let mp := element_values pg g nm t in
  let body := with_values mp gs in
  tag_ok t → t_level t = ElemSingle → find_in Stat f (rooted f (t_name t)) = Done (Some g) →
  fi_reader g = Some rd → scripted (fi_ext g) = false → element_name g = Done nm → pending rd (file_text gs) → segments_ok mp gs →
  clean b → parsed N1 g body b → parsed N2 f b b' →
  (length (t_name t) + 4 ≤ fuel)%nat → (MapReader.steps ArgPre ArgPost gs + 3 ≤ fuel)%nat → (length b + 4 ≤ fuel)%nat → (N1 ≤ fuel)%nat → (N2 ≤ fuel)%nat →
  here pg f w id c v → same_static c c1 → tagging c1 (Inside 0 None) (t_name t) rr ElemSingle a (found_list (map found_of (t_attrs t))) v →
  ∃ w' c' v', kept id w w' ∧ here pg f w' id c' v' ∧ same_static c c' ∧ vtext v' = vtext v ++ b' ∧
    ∀ n, (length body + N1 + 1 ≤ n)%nat → (length b + N2 + 1 ≤ n)%nat →
      parseRune fuel Stat (parse_source fuel Stat n) 62 (put w id c1) = Done w'.
Proof.
  intros mp body Ht Hl Hfind Hrd Hscr Hnm Hp Hgs Hb HP1 HP2 F1 F2 F3 F4 F5 Hh Hst Htag.
  pose proof (h_working _ _ _ _ _ _ Hh) as Hw. pose proof (wk_in _ _ Hw) as Hid. destruct (clean_facts b Hb) as (_ & Hb91 & _).
  destruct (open_file fuel Stat pg t w id c c1 rr a v f g rd nm) as (c7 & wp & Hk7 & Hh7 & Hst7 & Eopen); [done..|].
  pose proof (here_child pg f g wp id c7 (flushed v) nm mp Hh7) as Hhc. set (cn := fresh_parser g nm (Some id) (Some mp)) in *.
  destruct (yields_file fuel FileMap mp rd gs (child wp cn)) as (src & Esrc & Hsrc); [done..|].
  destruct (parsed_source N1 g body b fuel (child wp cn) _ cn view0 src HP1 F4 Hhc Hsrc) as (w7 & cd & vd & Hk1 & Hhd & _ & Hvd & E1 & _).
  cbn [vtext view0 v_page v_text app] in Hvd.
  destruct (close_file fuel pg f g wp w7 id c7 (flushed v) cn cd vd Hh7 Hk1 Hhd) as (w3 & src2 & c9 & Hh3 & Hk3 & E9 & Hs2 & Eclose); [by rewrite Hvd..|].
  rewrite Hvd in Hs2, Eclose.
  destruct (parsed_source N2 f b b' fuel w3 id c7 (flushed v) src2 HP2 F5 Hh3 Hs2) as (w4 & c4 & v4 & Hk4 & Hh4 & Hst4 & Hv4 & E4 & Enil).
  set (nid := length (heap wp)) in *. assert (nid ≠ id) as Hne by (pose proof (wk_in _ _ (h_working _ _ _ _ _ _ Hh7)); lia).
  assert (heap w4 !! nid = Some c9) as E49 by by apply Hk4.
  set (w5 := upd w4 nid (set_attrbs None)) in *.
  assert (kept id w w5) as Hk5.
  { eapply kept_trans; [exact Hk7|]. destruct (kept_trans _ _ _ _ Hk3 Hk4) as [K1 K2 K3 K4 K5 K6]. split; try done.
    - intros j cj Hj E. unfold w5, upd. cbn. rewrite list_lookup_alter_ne; [by apply K5|]. apply lookup_lt_Some in E. lia.
    - unfold w5, upd. cbn. by rewrite length_alter. }
  assert (heap w5 !! id = Some c4) as E54 by (unfold w5, upd; cbn; rewrite list_lookup_alter_ne by done; apply Hh4).
  assert (singles w5) as Hs5.
  { intros j cj E. unfold w5, upd in E. cbn in E. pose proof (wk_single _ _ (h_working _ _ _ _ _ _ Hh4)) as Hs4.
    destruct (decide (j = nid)) as [->|Hj]; [|rewrite list_lookup_alter_ne in E by done; by eapply Hs4].
    rewrite list_lookup_alter_eq, E49 in E. injection E as <-. by apply (Hs4 nid c9). }
  assert (same_static c c4) as Hst' by by eapply same_static_trans.
  set (c' := set_parsing (set_pos (parsing c4) 0 0 0) c4).
  assert (here pg f (put w5 id c') id c' v4) as Hh'.
  { eapply here_kept; [exact Hh|by eapply kept_trans, kept_put| | |exact Hst'| |apply Hh4].
    - apply singles_put; [done|]. apply (h_single _ _ _ _ _ _ Hh4).
    - unfold put. cbn. rewrite list_lookup_insert_eq; [done|]. by eapply lookup_lt_Some.
    - destruct (h_resting _ _ _ _ _ _ Hh4) as [T1 (M1 & M2 & M3 & M4) T3 T4 T5 T6 T7 T8]. split; try done; [by apply set_pos_parser|].
      split_and!; [done|done|done|lia]. }
  exists (put w5 id c'), c', v4. split; [by eapply kept_trans, kept_put|]. split; [done|]. split; [done|]. split.
  { rewrite Hv4. f_equal. destruct (plain_flushed v) as (_ & Epg & Etx); [apply Hh|]. unfold vtext at 1. by rewrite Epg, Etx, app_nil_r. }
  intros n L1 L2. specialize (E1 n L1). specialize (E4 n L2). pose proof (Eclose (parse_source fuel Stat n) w4 E4 Enil E49) as Ec. fold w5 in Ec.
  pose proof Htag as [T1 T2 T3 T4 T5 T6 T7 T8]. assert (elmlvl c1 = ElemSingle) as Hc1 by (destruct Hst as (-> & _); by eapply h_single).
  unfold parseRune. rewrite (wk_top _ _ (working_put w id c1 Hw Hc1)). unfold content_parse. rewrite get_put by done. cbn [exec_bind].
  rewrite (cde_ok_idle _ _ _ T8).
  rewrite (close_call (events_of fuel Stat (parse_source fuel Stat n) id) 60 62 eq_refl _ _ _ eq_refl T1 T2 eq_refl). unfold with_parsing. rewrite upd_put by done.
  destruct (h_attrs _ _ _ _ _ _ Hh) as [mpa Hmpa].
  assert (fi c1 = Some f ∧ attrbs c1 = Some mpa) as [Hf1 Ha1] by (pose proof (h_fi _ _ _ _ _ _ Hh); destruct Hst; intuition congruence).
  assert (tagging c1 (Inside 0 None) (t_name t) rr (t_level t) a (found_list (map found_of (t_attrs t))) v) as Htag' by by rewrite Hl.
  rewrite (match_at fuel Stat _ t w id c1 rr a _ v f mpa _ Hw Hc1 Ht F1 Htag' Hf1 Ha1), Hl.
  specialize (Eopen (parse_source fuel Stat n) _ eq_refl). cbv zeta in Eopen. rewrite Eopen. fold mp cn. rewrite Esrc. cbn [exec_bind].
  rewrite E1. cbn [exec_bind]. fold nid. rewrite Ec. cbn [exec_bind]. unfold get. rewrite E54. cbn [exec_bind].
  unfold upd, put. f_equal. f_equal. apply list_eq. intros j. destruct (decide (j = id)) as [->|Hj].
  - rewrite list_lookup_alter_eq, E54, list_lookup_insert_eq; [done|]. by eapply lookup_lt_Some.
  - by rewrite list_lookup_alter_ne, list_lookup_insert_ne by done.
Qed.

Lemma parsed_element t f g rd nm gs b b' N1 N2 :
  tag_ok t → t_level t = ElemSingle → find_in Stat f (rooted f (t_name t)) = Done (Some g) →
  fi_reader g = Some rd → scripted (fi_ext g) = false → element_name g = Done nm →
  pending rd (file_text gs) → segments_ok (element_values pg g nm t) gs → clean b →
  parsed N1 g (with_values (element_values pg g nm t) gs) b → parsed N2 f b b' → ∃ N, parsed N f (tag_text t) b'.
Proof.
  intros Ht Hl Hfind Hrd Hscr Hnm Hp Hgs Hb HP1 HP2. set (body := with_values (element_values pg g nm t) gs) in *.
  exists (length (t_name t) + MapReader.steps ArgPre ArgPost gs + length b + length body + N1 + N2 + 4)%nat.
  intros fuel w id c v src l Hf Hh Hs. pose proof (h_working _ _ _ _ _ _ Hh) as Hw. pose proof (h_single _ _ _ _ _ _ Hh) as Hc.
  destruct (tag_runes fuel Stat t w id c v Hw Hc Ht) as (c1 & rr & a & Hq & Htag & _ & Hst); [apply Hh|]. rewrite Hl in Htag.
  rewrite (h_put _ _ _ _ _ _ Hh) in Hq. unfold tag_text in Hs. rewrite app_comm_cons, <- app_assoc in Hs.
  destruct (quiet_source fuel Stat _ w (put w id c1) src ([62] ++ l) Hq Hs) as (src1 & Hs1 & E1).
  assert (calm (put w id c1)) as Hcalm by (apply calm_put; [done|by destruct Hst as (-> & _)|by eapply cde_ok_idle, tg_cde]).
  destruct (Hs1 _ Hcalm) as (size & src2 & Er & Hz & Hs2).
  destruct (element_end t f g rd nm gs b b' N1 N2 fuel w id c c1 rr a v) as (w' & c' & v' & K & H & S & V & E2); [done || lia..|].
  fold body in E2. exists w', c', v', src2. split_and!; try done. intros n Hn. unfold tag_text. rewrite app_comm_cons, length_app, <- Nat.add_assoc, E1.
  cbn [length Nat.add parse_source]. rewrite Er. cbn [exec_bind]. rewrite (proj2 (Z.eqb_neq size 0)) by lia. cbn [orb].
  rewrite bool_decide_eq_false_2 by (by intros []). by rewrite E2 by lia.
Qed.

Lemma expands_parsed f s o : expands f s o → ∃ N, parsed N f s o.
Proof.
  induction 1 as [f|f r s o Hr _ [N IH]|f r s o Hr _ [N IH]|f t s o Ht Hno _ [N IH]
    |f t g rd nm gs b b' s o Ht Hl Hfind Hrd Hscr Hnm Hp Hgs Hb [N1 IH1] _ [N2 IH2] _ [N3 IH3]].
  - exists 0%nat. apply parsed_nil.
  - exists N. apply (parsed_app N f [r] [r]); [|done]. apply (parsed_mono 0); [lia|by apply parsed_text].
  - exists N. apply (parsed_app N f [60; r] [60; r]); [|done]. apply (parsed_mono 0); [lia|by apply parsed_less].
  - exists (N + (length (t_name t) + 4))%nat. apply parsed_app.
    + eapply parsed_mono; [|by apply parsed_tag]. lia.
    + eapply parsed_mono; [|exact IH]. lia.
  - destruct (parsed_element t f g rd nm gs b b' N1 N2) as (N & HN); [done..|by eapply expands_clean|done|done|].
    exists (N + N3)%nat. apply parsed_app; (eapply parsed_mono; [|eassumption]); lia.
Qed.
End expands.

(** ** A template from beginning to end *)

Section whole_page.
Context (fuel : nat) (Stat : list Z → option fileinfo).

Definition page_world (pg : fileinfo) (nm : list Z) (mp : attributes) : markuptemplate :=
  MkMarkup [fresh_parser pg nm None (Some mp)] {[0 := 0%nat]} 0 ∅ ∅ None None.

Lemma page_here pg nm mp : here pg pg (page_world pg nm mp) 0 (fresh_parser pg nm None (Some mp)) view0.
Proof.
  split; try done.
  - split; [done|cbn; lia| |by left]. intros j c E. cbn in E. by apply list_lookup_singleton_Some in E as [_ <-].
  - split; [by vm_compute|]. intros i [j E]. cbn in E. apply lookup_singleton_Some in E as [<- _]. cbn. lia.
  - by exists 0%nat, (fresh_parser pg nm None (Some mp)).
  - apply fresh_resting.
  - apply plain_view0.
Qed.

Lemma MarkupTemplate_is pg nm :
  scripted (fi_ext pg) = false → element_name pg = Done nm →
  MarkupTemplate pg = Done (page_world pg nm (page_attributes pg (Elements.to_name (fi_path pg)))).
Proof.
  intros Hs Hn. unfold MarkupTemplate, appendCntntParsing, nextContentParsing. cbn [exec_bind fst snd]. rewrite Hs, Hn. cbn [exec_bind].
  reflexivity.
Qed.

Lemma add_args_is args pg nm mp : add_args args (page_world pg nm mp) = Done (page_world pg nm (args ∪ mp)).
Proof.
  unfold add_args. change (current (page_world pg nm mp)) with (Some 0%nat). change (prsix (page_world pg nm mp) =? 0) with true. cbn [andb].
  case_bool_decide as E; cbn [negb].
  - subst args. by rewrite (left_id_L ∅ (∪)).
  - reflexivity.
Qed.

(** What the parser of the page has made is the template's content. *)
Lemma close_page reparse pg w c v :
  here pg pg w 0 c v → prsix w = 0 → size (cntntprsngs w) = 1%nat → cntntbf w = None → m_cdebf w = None →
  ∃ w', close_content fuel reparse 0 w = Done w' ∧ buf_is (cntntbf w') (vtext v) ∧ m_cdebf w' = None.
Proof.
  intros Hh Hix Hsz Hbf Hcd. pose proof (h_working _ _ _ _ _ _ Hh) as Hw. pose proof (wk_in _ _ Hw) as Hid.
  destruct (flush_here fuel w 0 c v) as (s & Efl & Hok); [done|apply Hw|by eapply h_single|apply Hh|apply Hh|].
  rewrite (h_put _ _ _ _ _ _ Hh) in Efl. destruct (plain_flushed v) as (Hpl & Hpage & _); [apply Hh|].
  set (c8 := set_cde s (cde_parsing c) c) in *. set (c9 := set_fi None (set_cde (set_cbf (cde c8) None) (cde_parsing c8) c8)).
  destruct Hok as (_ & _ & [_ _ _ Hcode Hcbf _]). rewrite Hpage in Hcbf. destruct Hpl as (_ & _ & Ecode & _). rewrite Ecode in Hcode.
  assert (valid_runes (vtext v)) as Hval by apply Hh.
  unfold close_content. rewrite Efl. cbn [exec_bind]. rewrite get_put by done. cbn [exec_bind].
  rewrite (bool_decide_eq_true_2 (is_Some (fi c8))) by (rewrite (h_fi _ _ _ _ _ _ Hh : fi c8 = _); by eexists).
  cbn [negb]. rewrite upd_put by done. fold c9. change (prsix (put w 0 c9)) with (prsix w). rewrite Hix. change (0 <? 0) with false. cbn [andb].
  cbv zeta. rewrite bool_decide_eq_true_2 by done. change (cbf (cde c8)) with (cbf s).
  set (w4 := match cbf s with Some b => if Buffer.Empty (Some b) then put w 0 c9 else set_cntntbf (put w 0 c9) (Some b) | None => put w 0 c9 end).
  assert (match cbf s with Some b => if Buffer.Empty (Some b) then Done (put w 0 c9) else Done (set_cntntbf (put w 0 c9) (Some b))
          | None => Done (put w 0 c9) end = Done w4) as -> by (unfold w4; by destruct (cbf s) as [b|]; [destruct (Buffer.Empty (Some b))|]).
  assert (heap w4 !! 0%nat = Some c9 ∧ m_cdebf w4 = None ∧ buf_is (cntntbf w4) (vtext v)) as (E9 & Ecd & Ebf).
  { assert (heap (put w 0 c9) !! 0%nat = Some c9) by (unfold put; cbn; by rewrite list_lookup_insert_eq).
    unfold w4. destruct (cbf s) as [b|] eqn:Eb.
    - rewrite (Empty_is (Some b) (vtext v) Hcbf Hval). case_bool_decide as E; split_and!; try done. cbn. by rewrite Hbf, E.
    - split_and!; try done. cbn in *. by rewrite Hbf. }
  cbn [exec_bind]. unfold get at 1. rewrite E9. cbn [exec_bind]. change (cdebf (cde c9)) with (cdebf s).
  exists (upd w4 0 (set_attrbs None)). split; [|done].
  destruct (cdebf s) as [b|] eqn:Eb; [|done]. by rewrite (Empty_is (Some b) [] Hcode) by constructor.
Qed.
End whole_page.

(** Parsing a page ends with what it expands to; how much fuel is enough does not depend on
    the reader of its text. *)
Lemma page_expands Stat pg nm args gs o :
  scripted (fi_ext pg) = false → element_name pg = Done nm →
  segments_ok (args ∪ page_attributes pg (Elements.to_name (fi_path pg))) gs →
  expands Stat pg pg (with_values (args ∪ page_attributes pg (Elements.to_name (fi_path pg))) gs) o →
  ∃ N, ∀ rd fuel n, pending rd (file_text gs) → (N ≤ fuel)%nat → (N ≤ n)%nat →
    ∃ w0 w1 w2, MarkupTemplate pg = Done w0 ∧ Elements.Parse fuel Stat n (InRdr rd) args w0 = Done w1 ∧
      Wrapup fuel Stat n w1 = Done w2 ∧ buf_is (Content (Some w2)) o ∧ markup_Code (Some w2) = None.
Proof.
  intros Hs Hn Hgs He. set (mp := args ∪ page_attributes pg (Elements.to_name (fi_path pg))) in *.
  destruct (expands_parsed _ _ _ _ _ He) as (N & HN).
  exists (length (with_values mp gs) + N + MapReader.steps ArgPre ArgPost gs + 3)%nat. intros rd fuel n Hp Hf Hm.
  pose proof (page_here pg nm mp) as Hh.
  destruct (yields_file fuel RootMap mp rd gs (page_world pg nm mp)) as (src & Esrc & Hsrc); [done|done|lia|].
  destruct (parsed_source Stat pg N pg _ o fuel (page_world pg nm mp) 0 _ view0 src HN ltac:(lia) Hh Hsrc)
    as (w1 & c1 & v1 & [K1 K2 K3 K4 K5 K6] & Hh1 & _ & Hv1 & E1 & _).
  destruct (close_page fuel (parse_source fuel Stat n) pg w1 c1 v1) as (w2 & E2 & Hb & Hcd); [done|done|by rewrite K1|done|done|].
  exists (page_world pg nm (page_attributes pg (Elements.to_name (fi_path pg)))), w1, w2.
  split; [by apply MarkupTemplate_is|]. split; [|split; [|split; [|done]]].
  - unfold Elements.Parse. rewrite add_args_is. fold mp. cbn [exec_bind]. unfold Parse_reader. change (prsix (page_world pg nm mp) =? 0) with true. cbv iota.
    change (current (page_world pg nm mp)) with (Some 0%nat). cbv iota. change (get (page_world pg nm mp) 0) with (Done (fresh_parser pg nm None (Some mp))).
    cbn [exec_bind]. change (default ∅ (attrbs (fresh_parser pg nm None (Some mp)))) with mp. rewrite Esrc. cbn [exec_bind]. apply E1. lia.
  - unfold Wrapup. rewrite K1, K2. change (size (cntntprsngs (page_world pg nm mp)) =? 1)%nat with true. change (prsix (page_world pg nm mp) =? 0) with true.
    cbn [andb]. unfold current. rewrite K1, K2. change (cntntprsngs (page_world pg nm mp) !! prsix (page_world pg nm mp)) with (Some 0%nat). done.
  - rewrite Hv1 in Hb. exact Hb.
Qed.

(** C3: a template of a page comes to what [expands] says: parsing ends, for every
    [N] or more of fuel, without a failure, and the content is the text in which every
    name has its value and every tag whose name is a file is that file's text, with the
    tag's attributes for its names, and all else is as it was; there is no script. *)
Theorem templates_expand Stat pg nm args rd gs o :
  scripted (fi_ext pg) = false → element_name pg = Done nm → pending rd (file_text gs) →
  segments_ok (args ∪ page_attributes pg (Elements.to_name (fi_path pg))) gs →
  expands Stat pg pg (with_values (args ∪ page_attributes pg (Elements.to_name (fi_path pg))) gs) o →
  ∃ N, ∀ fuel n, (N ≤ fuel)%nat → (N ≤ n)%nat →
    ∃ w0 w1 w2, MarkupTemplate pg = Done w0 ∧ Elements.Parse fuel Stat n (InRdr rd) args w0 = Done w1 ∧
      Wrapup fuel Stat n w1 = Done w2 ∧ buf_is (Content (Some w2)) o ∧ markup_Code (Some w2) = None.
Proof.
  intros Hs Hn Hp Hgs He. destruct (page_expands Stat pg nm args gs o) as (N & HN); [done..|]. exists N. eauto.
Qed.

(** *** A page with an element that has one itself *)

Lemma X_texts Stat pg f l s o : Forall ordinary l → expands Stat pg f s o → expands Stat pg f (l ++ s) (l ++ o).
Proof. intros Hl Hs. induction Hl as [|r l Hr _ IH]; [done|]. by constructor. Qed.

Definition ordinaryb (r : Z) : bool := utf8.ValidRune r && negb (r =? 60) && negb (r =? 91) && negb (r =? 123).

Lemma ordinaryb_all l : forallb ordinaryb l = true → Forall ordinary l.
Proof.
  induction l as [|r l IH]; [constructor|]. cbn [forallb]. intros [Hr Hl]%andb_true_iff. constructor; [|auto].
  unfold ordinaryb in Hr. apply andb_true_iff in Hr as [Hr H4]. apply andb_true_iff in Hr as [Hr H3]. apply andb_true_iff in Hr as [H1 H2].
  split; [done|]. repeat split; apply Z.eqb_neq; by apply negb_true_iff.
Qed.

Definition tag_okb (t : tag) : bool :=
  negb (bool_decide (t_level t = ElemUnkown)) && negb (bool_decide (t_name t = [])) &&
  forallb (λ r, validElmchar r && negb (r =? 58)) (t_name t) &&
  forallb (λ a, negb (bool_decide (at_name a = [])) && forallb validElmchar (at_name a) && IsTxtPar (at_quote a) &&
    value_ok (at_quote a) 0 (at_value a) && forallb ordinaryb (at_value a)) (t_attrs t) &&
  (negb (bool_decide (t_level t = ElemEnd)) || bool_decide (t_attrs t = []) && negb (t_space t)).

Lemma forallb_Forall {A} (f : A → bool) l : forallb f l = true → Forall (λ x, f x = true) l.
Proof. intros H. apply Forall_forall. intros x Hx. rewrite forallb_forall in H. apply H, list_elem_of_In, Hx. Qed.

Lemma tag_okb_ok t : tag_okb t = true → tag_ok t.
Proof.
  unfold tag_okb. intros [[[[H1 H2]%andb_true_iff H3]%andb_true_iff H4]%andb_true_iff H5]%andb_true_iff.
  apply negb_true_iff, bool_decide_eq_false in H1, H2. apply forallb_Forall in H3, H4. split; try done.
  - eapply Forall_impl; [exact H3|]. cbn. intros r [Hr Hr2]%andb_true_iff. split; [done|]. by apply Z.eqb_neq, negb_true_iff.
  - eapply Forall_impl; [exact H4|]. cbn. intros a [[[[A1 A2]%andb_true_iff A3]%andb_true_iff A4]%andb_true_iff A5]%andb_true_iff.
    apply negb_true_iff, bool_decide_eq_false in A1. apply forallb_Forall in A2. apply ordinaryb_all in A5. split_and!; try done.
    intros Hin. rewrite Forall_forall in A5. by apply A5 in Hin as (_ & _ & ? & _).
  - eapply Forall_impl; [exact H4|]. cbn. intros a [_ A5]%andb_true_iff. by apply ordinaryb_all.
  - intros E. apply orb_true_iff in H5 as [H5|H5]; [apply negb_true_iff, bool_decide_eq_false in H5; done|].
    apply andb_true_iff in H5 as [H5 H6]. apply bool_decide_eq_true in H5. by apply negb_true_iff in H6.
Qed.

Definition demo_file (name : list Z) (gs : list MapReader.seg) : fileinfo :=
  MkFile (str "/a/" ++ name ++ str ".html") (str "/a/") (str "/a/") (str ".html") (Some (string_rdr (file_text gs))).

Definition dot_segs : list MapReader.seg := [MapReader.Lit (str ".")].
Definition menu_segs : list MapReader.seg :=
  [MapReader.Lit (str "<i>"); MapReader.Key (str "t"); MapReader.Lit (str "</i><dot/>")].
Definition page_segs : list MapReader.seg :=
  [MapReader.Lit (str "Hi "); MapReader.Key (str "u"); MapReader.Lit (str ", <b class='x'>go</b> <menu t='q' />! 1 < 2")].

Definition demo_stat (p : list Z) : option fileinfo :=
  if bool_decide (p = str "/a/menu.html") then Some (demo_file (str "menu") menu_segs)
  else if bool_decide (p = str "/a/dot.html") then Some (demo_file (str "dot") dot_segs)
  else None.

Definition demo_page : fileinfo := demo_file (str "p") page_segs.
Definition demo_args : attributes := {[ str "u" := MStr (str "me") ]}.
Definition demo_out : list Z := str "Hi me, <b class='x'>go</b> <i>q</i>.! 1 < 2".

Definition tag_b : tag := MkTag ElemStart (str "b") [MkAttribute (str "class") 39 (str "x")] false.
Definition tag_b_end : tag := MkTag ElemEnd (str "b") [] false.
Definition tag_i : tag := MkTag ElemStart (str "i") [] false.
Definition tag_i_end : tag := MkTag ElemEnd (str "i") [] false.
Definition tag_dot : tag := MkTag ElemSingle (str "dot") [] false.
Definition tag_menu : tag := MkTag ElemSingle (str "menu") [MkAttribute (str "t") 39 (str "q")] true.

Lemma plain_key mp k : match mp !! k with Some (MStr s) => forallb utf8.ValidRune s | Some (MRunes s) => forallb utf8.ValidRune s | None => true | _ => false end = true →
  text_key mp (λ _ v, (v, true)) k.
Proof.
  intros Hk. unfold text_key, key_text, text_of. destruct (mp !! k) as [[s|s|b|r|]|] eqn:E; try done; split_and!; try done; cbn.
  all: intros t; destruct (bool_decide (s = [])); try done; intros [= <-]; by apply forallb_Forall.
Qed.

Definition seg_okb (mp : attributes) (g : MapReader.seg) : bool :=
  match g with
  | MapReader.Lit s => forallb (λ r, negb (r =? 91)) s
  | MapReader.Key k => forallb (λ r, negb (r =? 35) && validNameChar 0 r && utf8.ValidRune r) k &&
      match mp !! k with Some (MStr s) => forallb utf8.ValidRune s | Some (MRunes s) => forallb utf8.ValidRune s | None => true | _ => false end
  end.

Lemma seg_okb_ok mp gs : forallb (seg_okb mp) gs = true → segments_ok mp gs.
Proof.
  intros H. apply forallb_Forall in H. eapply Forall_impl; [exact H|]. intros [s|k]; cbn [seg_okb].
  - intros Hs r Hr. rewrite forallb_forall in Hs. apply list_elem_of_In in Hr. apply Hs in Hr. cbn. intros [= <-]. done.
  - intros [Hk Hv]%andb_true_iff. apply forallb_Forall in Hk. split_and!.
    + intros r Hr. rewrite Forall_forall in Hk. apply Hk in Hr. apply andb_true_iff in Hr as [Hr _]. apply andb_true_iff in Hr as [H1 H2].
      split; [|done]. cbn. intros [= <-]. done.
    + by apply plain_key.
    + eapply Forall_impl; [exact Hk|]. by intros r [_ ?]%andb_true_iff.
Qed.

Lemma demo_pending gs : forallb utf8.ValidRune (file_text gs) = true → pending (string_rdr (file_text gs)) (file_text gs).
Proof.
  intros H. unfold string_rdr. pose proof (runeReaderSlice.string_reader_pending (encode_all (file_text gs))) as Hp.
  rewrite runes_encode_all in Hp; [done|]. by apply forallb_Forall.
Qed.

(** [<i>q</i>] and what follows it, where [i] is no file. *)
Lemma demo_italic pg f s o :
  fi_root f = str "/a/" → fi_base f = str "/a/" → fi_ext f = str ".html" → expands demo_stat pg f s o →
  expands demo_stat pg f (tag_text tag_i ++ str "q" ++ tag_text tag_i_end ++ s) (tag_text tag_i ++ str "q" ++ tag_text tag_i_end ++ o).
Proof.
  intros E1 E2 E3 Hs. apply X_tag; [by apply tag_okb_ok| |].
  { intros _. unfold find_in, rooted. rewrite E1, E2, E3. vm_compute. reflexivity. }
  apply X_texts; [by apply ordinaryb_all|]. apply X_tag; [by apply tag_okb_ok|done|done].
Qed.

Lemma demo_dot pg : expands demo_stat pg (demo_file (str "menu") menu_segs) (tag_text tag_dot ++ []) (str "." ++ []).
Proof.
  apply (X_element demo_stat pg (demo_file (str "menu") menu_segs) tag_dot (demo_file (str "dot") dot_segs) (string_rdr (file_text dot_segs))
    (str ":a:dot") dot_segs (str "." ++ []) (str ".")).
  - by apply tag_okb_ok.
  - done.
  - vm_compute. reflexivity.
  - done.
  - done.
  - vm_compute. reflexivity.
  - by apply demo_pending.
  - by apply seg_okb_ok.
  - apply (X_texts _ _ _ (str ".")); [by apply ordinaryb_all|constructor].
  - apply (X_texts _ _ _ (str ".") []); [by apply ordinaryb_all|constructor].
  - constructor.
Qed.

Definition menu_out : list Z := tag_text tag_i ++ str "q" ++ tag_text tag_i_end ++ str "." ++ [].

Lemma demo_menu : expands demo_stat demo_page demo_page (tag_text tag_menu ++ str "! 1 " ++ 60 :: 32 :: str "2" ++ [])
  (menu_out ++ str "! 1 " ++ 60 :: 32 :: str "2" ++ []).
Proof.
  apply (X_element demo_stat demo_page demo_page tag_menu (demo_file (str "menu") menu_segs) (string_rdr (file_text menu_segs))
    (str ":a:menu") menu_segs menu_out).
  - by apply tag_okb_ok.
  - done.
  - vm_compute. reflexivity.
  - done.
  - done.
  - vm_compute. reflexivity.
  - by apply demo_pending.
  - apply seg_okb_ok. by vm_compute.
  - assert (with_values (element_values demo_page (demo_file (str "menu") menu_segs) (str ":a:menu") tag_menu) menu_segs =
      tag_text tag_i ++ str "q" ++ tag_text tag_i_end ++ tag_text tag_dot ++ []) as -> by (vm_compute; reflexivity).
    apply demo_italic; try done. apply demo_dot.
  - apply demo_italic; try done. apply (X_texts _ _ _ (str ".") []); [by apply ordinaryb_all|constructor].
  - apply X_texts; [by apply ordinaryb_all|]. apply X_less; [by repeat split|].
    apply (X_texts _ _ _ (str "2") []); [by apply ordinaryb_all|constructor].
Qed.

Lemma demo_expands :
  expands demo_stat demo_page demo_page (with_values (demo_args ∪ page_attributes demo_page (Elements.to_name (fi_path demo_page))) page_segs) demo_out.
Proof.
  assert (with_values (demo_args ∪ page_attributes demo_page (Elements.to_name (fi_path demo_page))) page_segs =
    str "Hi me, " ++ tag_text tag_b ++ str "go" ++ tag_text tag_b_end ++ str " " ++ tag_text tag_menu ++ str "! 1 " ++ 60 :: 32 :: str "2" ++ []) as ->
    by (vm_compute; reflexivity).
  change demo_out with (str "Hi me, " ++ tag_text tag_b ++ str "go" ++ tag_text tag_b_end ++ str " " ++ menu_out ++ str "! 1 " ++ 60 :: 32 :: str "2" ++ []).
  apply X_texts; [by apply ordinaryb_all|]. apply X_tag; [by apply tag_okb_ok|by vm_compute|].
  apply X_texts; [by apply ordinaryb_all|]. apply X_tag; [by apply tag_okb_ok|done|].
  apply X_texts; [by apply ordinaryb_all|]. apply demo_menu.
Qed.

Lemma templates_expand_witness :
  ∃ N, ∀ fuel n, (N ≤ fuel)%nat → (N ≤ n)%nat →
    ∃ w0 w1 w2, MarkupTemplate demo_page = Done w0 ∧ Elements.Parse fuel demo_stat n (InRdr (string_rdr (file_text page_segs))) demo_args w0 = Done w1 ∧
      Wrapup fuel demo_stat n w1 = Done w2 ∧ buf_is (Content (Some w2)) demo_out ∧ markup_Code (Some w2) = None.
Proof.
  apply (templates_expand demo_stat demo_page (str ":a:p") demo_args (string_rdr (file_text page_segs)) page_segs demo_out).
  - by vm_compute.
  - by vm_compute.
  - by apply demo_pending.
  - apply seg_okb_ok. by vm_compute.
  - apply demo_expands.
Defined.

(** ** What lies outside the specification

    Pages that are not of the form above, in the folder of the files [box] and [menu]. *)

Definition box_stat (p : list Z) : option fileinfo :=
  let file name text := Some (MkFile p (str "/") (str "/") (str ".html") (Some (string_rdr text))) in
  if bool_decide (p = str "/menu.html") then file (str "menu") (str "<b>[#t#]</b>")
  else if bool_decide (p = str "/box.html") then file (str "box") (str "([#cntnt#])<menu t='x'/>")
  else if bool_decide (p = str "/cd.html") then file (str "cd") (str "a<%f([#t#])%>b")
  else None.

(** What the content and the code of a page come to. *)
Definition rendered (s : list Z) : exec (list Z * list Z) :=
  let shown o := match o with Some b => contents b | None => [] end in
  let* w0 := MarkupTemplate (MkFile (str "/p.html") (str "/") (str "/") (str ".html") None) in
  let* w1 := Elements.Parse 200 box_stat 2000 (InStr s) ∅ w0 in
  let* w2 := Wrapup 200 box_stat 2000 w1 in
  Done (shown (Content (Some w2)), shown (markup_Code (Some w2))).

(** An element with content, and an element's code. *)
Example box_content : rendered (str "a<box>in</box>b") = Done (str "a(in)<b>x</b>b", []).
Proof. vm_compute. reflexivity. Qed.

Example box_nested : rendered (str "a<box>in<menu t='y'/></box>b") = Done (str "a(in<b>y</b>)<b>x</b>b", []).
Proof. vm_compute. reflexivity. Qed.

Example element_code : rendered (str "a<cd t='q'/>b") = Done (str "aa", str "f(`q`)print(`b`);print(`b`);").
Proof. vm_compute. reflexivity. Qed.

(** The first rune of an attribute's value without quotes is written twice. *)
Example unquoted_value_doubled : rendered (str "<td width=10>") = Done (str "<td width=110>", []).
Proof. vm_compute. reflexivity. Qed.

(** So is a rune that ends the attributes, and a slash in a tag. *)
Example ampersand_doubled : rendered (str "a<b & c") = Done (str "a<b && c", []).
Proof. vm_compute. reflexivity. Qed.

Example slash_doubled : rendered (str "<a/b>") = Done (str "<a//b>", []).
Proof. vm_compute. reflexivity. Qed.

(** After a quote that begins no tag the next tag is not seen. *)
Example quote_hides_tag : rendered (str "a<'b<menu/>c") = Done (str "a<'b<menu//>c", []).
Proof. vm_compute. reflexivity. Qed.

(** The name of an element that is an unknown key. *)
Example empty_name_panics : rendered (str "<::x::/>") = Panic.
Proof. vm_compute. reflexivity. Qed.

(** An element that is never closed takes all of the page with it. *)
Example open_element_loses_page : rendered (str "a<box>in") = Done ([], []).
Proof. vm_compute. reflexivity. Qed.
