(* ===== verification/Active.v ===== *)
(** src/fs/active/active.go: pages that are parsed once and kept.

    An active file is parsed as a template ([Elements]) the first time it is asked for; its
    content, its compiled script and the names of its elements are kept under its path with
    its time of change.  When a file changes, appears or goes, the pages that name it are
    parsed again.

    Cached pages are shared by pointers: [infos] holds them, the map of [IterMap] has their
    positions, counted from 1; 0 is nil.  The map is gone over in the order [IterMap] gives
    it, and no event of it is asked for.  What [Stat] finds, the compiler of scripts and the
    time of files are arguments; a file is what [Stat] of a file system finds, which is
    never a cached page itself. *)

From S2P Require Import Prelude Runes GoStrings Readers RuneReaders Buffer BufferCursor BuffReader Texts MapReader Parsing Code IterMap Elements Tags Templates.
From stdpp Require Import gmap.
From Stdlib Require Strings.String.
Import Stdlib.Strings.String.StringSyntax.
#[local] Open Scope Z_scope.
#[local] Delimit Scope string_scope with string.
#[local] Arguments str s%_string.

(** What is used of a file: its names and its reader, its size and its time of change. *)
Record pagefile := MkPage { pf_info : fileinfo; pf_size : Z; pf_modtime : Z; pf_active : bool }.

Section active.
Context {P : Type}.

(** [cachedinfo]: without its [fileinfo] it was closed. *)
Record cachedinfo := MkCached {
  c_fileinfo : option (pagefile * Buffer);
  c_finfos : gmap (list Z) fileinfo;
  c_unmtchd : gmap (list Z) bool;
  c_code : option Buffer;
  c_cntnt : option Buffer;
  c_prgm : option P }.

#[global] Instance path_Entries : Entries (list Z) Z := {|
  empty_name k := bool_decide (k = []);
  value_Equal v1 v2 := Done (v1 =? v2);
  zero_value := 0 |}.

(** The cached pages and the map of their positions. *)
Record cache := MkCache { infos : list cachedinfo; chdinfos : option (itermap (K := list Z) (V := Z)) }.

Definition new_cache : cache := MkCache [] (Some MapIterator).

Definition info (w : cache) (p : Z) : exec cachedinfo :=
  if 0 <? p then match infos w !! Z.to_nat (p - 1) with Some c => Done c | None => Panic end else Panic.
Definition set_info (w : cache) (p : Z) (c : cachedinfo) : cache := MkCache (<[Z.to_nat (p - 1) := c]> (infos w)) (chdinfos w).
Definition set_map (w : cache) (m : option (itermap (K := list Z) (V := Z))) : cache := MkCache (infos w) m.

(** The fields of the embedded [fileinfo]: a nil pointer when it was closed. *)
Definition file_in (c : cachedinfo) : exec (pagefile * Buffer) := match c_fileinfo c with Some f => Done f | None => Panic end.

Definition Plain (c : cachedinfo) : bool := bool_decide (c_finfos c = ∅) && Buffer.Empty (c_code c).
Definition ContentSize (c : cachedinfo) : Z := Buffer.Size (c_cntnt c).
Definition CodeSize (c : cachedinfo) : Z := Buffer.Size (c_code c).
Definition cached_Reader (c : cachedinfo) (cx : context) : exec (option BuffReader) := BuffReader.Reader (c_cntnt c) cx false [].
(** [Content()] is [cntnt.Reader()]. *)
Definition Content (c : cachedinfo) : exec (option BuffReader) := cached_Reader c NoContext.

Definition cached_Close (c : cachedinfo) : cachedinfo := MkCached None (c_finfos c) (c_unmtchd c) None None None.

Section parsing.
Context (fuel : nat) (Stat : list Z → option fileinfo) (compile : Buffer → option P).

(** [fileInfoFromFi]: the file's text is read into a buffer. *)
Definition fileInfoFromFi (fi : pagefile) : exec (pagefile * Buffer) :=
  let* b := NewBuffer fuel [match fi_reader (pf_info fi) with Some r => PRuneReader r | None => PNil end] in
  Done (fi, b).

(** The page as the template sees it: its reader reads the content it has so far. *)
Definition as_file (c : cachedinfo) (f : pagefile) : exec fileinfo :=
  let* r := Content c in
  Done (MkFile (fi_path (pf_info f)) (fi_root (pf_info f)) (fi_base (pf_info f)) (fi_ext (pf_info f)) (Some (AnyRdr (option BuffReader) _ r))).

(** The name under which elements ask for the file of a path. *)
Definition sync_name (path : list Z) : list Z :=
  let tstname := to_name path in
  let tstext := filepath_Ext path in
  let index := str "index" ++ tstext in
  if bool_decide (drop (length tstname - length index) tstname = index) then take (length tstname - length index) tstname
  else if bool_decide (drop (length tstname - length tstext) tstname = tstext) then take (length tstname - length tstext) tstname
  else tstname.

(** Whether a page of [base] names it: by the name below its base, or by the whole name. *)
Definition names_it (has : list Z → bool) (base tstname : list Z) : exec bool :=
  let bsel := len base in
  if (bsel <? len tstname) && bool_decide (take (length base) tstname = to_name base) then
    let* below := slice tstname (bsel - 1) (len tstname) in
    Done (has below || has tstname)
  else Done (has tstname).

Section sync.
Context (reparse : Z → cache → exec cache).

(** One round of [internsync]. *)
Definition sync_one (tstname : list Z) (unmatched : bool) (p : Z) (w : cache) : exec cache :=
  let* c := info w p in
  let* w1 :=
    if bool_decide (c_unmtchd c = ∅) then Done w
    else
      let* '(f, _) := file_in c in
      let* hit := names_it (λ n, default false (c_unmtchd c !! n)) (fi_base (pf_info f)) tstname in
      if hit && unmatched then reparse p w else Done w in
  let* c := info w1 p in
  if bool_decide (c_finfos c = ∅) then Done w1
  else
    let* '(f, _) := file_in c in
    let* hit := names_it (λ n, bool_decide (is_Some (c_finfos c !! n))) (fi_base (pf_info f)) tstname in
    if (hit : bool) then reparse p w1 else Done w1.

Definition internsync (path : list Z) (unmatched : bool) (w : cache) : exec cache :=
  let ps := IterMap.Iterate (chdinfos w) (λ _ p ps, (true, ps ++ [p])) [] in
  fold_left (λ m p, let* w := m in sync_one (sync_name path) unmatched p w) ps (Done w).
End sync.

(** [internparse]: the text is parsed as a template, the script compiled, and the pages
    that name this one follow; [n] bounds how far that goes on.  A script that does not
    compile is told on the console, and the program is what [compile] gave. *)
Fixpoint internparse (n : nat) (p : Z) (w : cache) : exec cache :=
  match n with
  | O => NoFuel
  | S n' =>
    let* c := info w p in
    let* '(f, buf) := file_in c in
    let* pg := as_file c f in
    let* m0 := MarkupTemplate pg in
    let* m1 := Elements.Parse fuel Stat fuel (InBuf buf) ∅ m0 in
    let* m2 := Wrapup fuel Stat fuel m1 in
    let code := markup_Code (Some m2) in
    let prgm := match code with
                | Some b => if Buffer.Empty code then c_prgm c else compile b
                | None => c_prgm c
                end in
    let c' := MkCached (c_fileinfo c) (ValidElements (Some m2)) (InvalidElements (Some m2)) code (Elements.Content (Some m2)) prgm in
    internsync (internparse n') (fi_path (pf_info f)) true (set_info w p c')
  end.

Definition createcachedfileinfo (fi : pagefile) (w : cache) : exec (Z * cache) :=
  let* f := fileInfoFromFi fi in
  let p := len (infos w) + 1 in
  let* w1 := internparse fuel p (MkCache (infos w ++ [MkCached (Some f) ∅ ∅ None None None]) (chdinfos w)) in
  let* '(m, _) := IterMap.Set_ (chdinfos w1) (fi_path (pf_info fi)) p in
  Done (p, set_map w1 m).

(** What [Parse] does: the cached page it returns, the reader it prints to [out] and the
    program it runs.  [Valid] of a cached page looks for invalid ones among the files of
    its elements, which are none, so the goroutine that tests it does nothing. *)
Record served_page := MkServed { sp_info : option Z; sp_print : option (option BuffReader); sp_run : option P }.

Definition serve_cached (p : Z) (fi : pagefile) (out run : bool) (w : cache) : exec (served_page * cache) :=
  let* c := info w p in
  if (ContentSize c =? pf_size fi) && (CodeSize c =? 0) then Done (MkServed (Some p) None None, w)
  else
    let* r := Content c in
    Done (MkServed None (if out && bool_decide (is_Some r) then Some r else None)
            (if negb (Plain c) && run then c_prgm c else None), w).

Definition Parse (fi : pagefile) (out run : bool) (w : cache) : exec (served_page * cache) :=
  let path := fi_path (pf_info fi) in
  let '(p, found) := IterMap.Get (chdinfos w) path in
  let* '(hit, w1) :=
    if found && negb (p =? 0) then
      let* c := info w p in
      let* '(f, _) := file_in c in
      if pf_modtime f =? pf_modtime fi then Done (true, w)
      else Done (false, set_map (set_info w p (cached_Close c)) (IterMap.Delete (chdinfos w) [fi_path (pf_info f)]).1)
    else Done (false, w) in
  let* '(p, w2) := if (hit : bool) then Done (p, w1) else createcachedfileinfo fi w1 in
  serve_cached p fi out run w2.

(** *** What the file system tells: [update] *)

Inductive notify := NOTE_AMMEND | NOTE_CREATE | NOTE_REMOVE.

Definition close_at (p : Z) (w : cache) : exec cache := let* c := info w p in Done (set_info w p (cached_Close c)).

Definition update (fi : pagefile) (ntfy : notify) (w : cache) : exec cache :=
  if pf_active fi then
    let path := fi_path (pf_info fi) in
    let '(p, chdfiok) := IterMap.Get (chdinfos w) path in
    match ntfy with
    | NOTE_AMMEND | NOTE_CREATE =>
      let* w1 := if chdfiok then let* w1 := close_at p w in Done (set_map w1 (IterMap.Delete (chdinfos w1) [path]).1) else Done w in
      let* '(_, w2) := Parse fi false false w1 in Done w2
    | NOTE_REMOVE =>
      if chdfiok then
        let w1 := set_map w (IterMap.Delete (chdinfos w) [path]).1 in
        let* c := info w1 p in
        let* '(f, _) := file_in c in
        let* w2 := internsync (internparse fuel) (fi_path (pf_info f)) false w1 in
        close_at p w2
      else Done w
    end
  else Done w.

(** [ProcessActiveFile] on the active file system: the file itself when it is not active. *)
Definition ProcessActiveFile (fi : pagefile) (out run : bool) (w : cache) : exec (option pagefile * served_page * cache) :=
  if pf_active fi then let* '(s, w') := Parse fi out run w in Done (None, s, w')
  else Done (Some fi, MkServed None None None, w).

(** [ParseOnly] with arguments: of a cached page, of the one under its path, or of the
    file; nothing is kept. *)
Definition ParseOnly (fi : pagefile) (cached : option Z) (args : attributes) (w : cache)
  : exec (option Buffer * option Buffer * gmap (list Z) fileinfo * gmap (list Z) bool) :=
  let p := match cached with Some p => p | None => (IterMap.Get (chdinfos w) (fi_path (pf_info fi))).1 end in
  let* src :=
    if p =? 0 then Done (match fi_reader (pf_info fi) with Some r => InRdr r | None => InNothing end)
    else let* c := info w p in let* '(_, buf) := file_in c in Done (InBuf buf) in
  let* pg := match cached with
             | Some p => let* c := info w p in let* '(f, _) := file_in c in as_file c f
             | None => Done (pf_info fi)
             end in
  let* m0 := MarkupTemplate pg in
  let* m1 := Elements.Parse fuel Stat fuel src args m0 in
  let* m2 := Wrapup fuel Stat fuel m1 in
  Done (Elements.Content (Some m2), markup_Code (Some m2), ValidElements (Some m2), InvalidElements (Some m2)).
End parsing.
End active.

(** * Theory *)

(** A reader of a buffer that holds a text delivers the text; of an empty one there is none. *)
Lemma buffer_reader cx bf l :
  buf_is bf l → valid_runes l → cx = NoContext ∨ cx = Live →
  ∃ r, BuffReader.Reader bf cx false [] = Done r ∧ (if decide (l = []) then r = None else is_Some r ∧ closing_pending r l).
Proof.
  intros Hb Hv Hx. destruct (decide (l = [])) as [->|Hne].
  - unfold BuffReader.Reader. rewrite (Empty_is bf [] Hb) by constructor. rewrite bool_decide_eq_true_2 by done. eauto.
  - destruct bf as [b|]; [|done]. pose proof Hb as (Hw & Hl & Hc).
    destruct (Reader_closing_in cx b false l Hx) as (r & E & Hr); [split; [done|by rewrite Hl]|done|done|done|]. eauto.
Qed.

(** The text a reader delivers, none without one. *)
Definition reader_text (r : option BuffReader) (l : list Z) : Prop := if decide (l = []) then r = None else is_Some r ∧ closing_pending r l.

Section theory.
Context {P : Type}.
Implicit Types (w : cache (P := P)) (c : cachedinfo (P := P)).

(** [c] is the page kept for the file [fi], with the content [o] and no script. *)
Record keeps (fi : pagefile) (o : list Z) c : Prop := {
  kp_file : ∃ f b, c_fileinfo c = Some (f, b) ∧ pf_modtime f = pf_modtime fi ∧ fi_path (pf_info f) = fi_path (pf_info fi);
  kp_content : buf_is (c_cntnt c) o;
  kp_code : c_code c = None;
  kp_prgm : c_prgm c = None }.

(** What was served shows the text [o] and runs nothing: it is printed, or the page is
    returned to be printed by the one that asked. *)
Definition shows w (s : served_page (P := P)) (o : list Z) : Prop :=
  sp_run s = None ∧
  match sp_info s with
  | Some p => sp_print s = None ∧ ∃ c, info w p = Done c ∧ buf_is (c_cntnt c) o
  | None => reader_text (default None (sp_print s)) o
  end.

Lemma serve_keeps p fi o c run w :
  info w p = Done c → keeps fi o c → valid_runes o → ∃ s, serve_cached p fi true run w = Done (s, w) ∧ shows w s o.
Proof.
  intros Hp [Hf Hb Hc Hg] Hv. unfold serve_cached. rewrite Hp. cbn [exec_bind].
  destruct ((ContentSize c =? pf_size fi) && (CodeSize c =? 0)).
  { eexists. split; [done|]. split; [done|]. cbn. eauto. }
  destruct (buffer_reader NoContext (c_cntnt c) o Hb Hv) as (r & E & Hr); [by left|]. unfold Content, cached_Reader. rewrite E. cbn [exec_bind].
  eexists. split; [done|]. split; [cbn; by destruct (negb (Plain c) && run)|]. cbn [sp_info sp_print]. unfold reader_text.
  destruct (decide (o = [])); [by subst r|]. destruct Hr as [Hs Hr]. rewrite (bool_decide_eq_true_2 (is_Some r)) by done. done.
Qed.

(** The positions in the map. *)
Definition kept_map w : gmap (list Z) Z := match chdinfos w with Some im => default ∅ (orgsncmp im) | None => ∅ end.
Definition open_map w : Prop := ∃ im, chdinfos w = Some im ∧ is_Some (orgsncmp im).

Lemma Get_kept w path p : path ≠ [] → kept_map w !! path = Some p → IterMap.Get (chdinfos w) path = (p, true).
Proof.
  intros Hne. unfold kept_map, IterMap.Get. cbn [empty_name path_Entries]. rewrite bool_decide_eq_false_2 by done.
  destruct (chdinfos w) as [im|]; [|by rewrite lookup_empty]. destruct (orgsncmp im) as [g|]; cbn; [by intros ->|by rewrite lookup_empty].
Qed.

Lemma Get_not_kept w path : kept_map w !! path = None → (IterMap.Get (chdinfos w) path).2 = false.
Proof.
  unfold kept_map, IterMap.Get. destruct (empty_name path); [done|]. destruct (chdinfos w) as [im|]; [|done].
  destruct (orgsncmp im) as [g|]; [|done]. cbn. by intros ->.
Qed.

(** A page that is kept is served as it is, without parsing and whatever the files, the
    compiler and the fuel are. *)
Lemma Parse_kept fuel Stat (compile : Buffer → option P) fi o c p run w :
  fi_path (pf_info fi) ≠ [] → kept_map w !! fi_path (pf_info fi) = Some p → p ≠ 0 → info w p = Done c → keeps fi o c → valid_runes o →
  ∃ s, Parse fuel Stat compile fi true run w = Done (s, w) ∧ shows w s o.
Proof.
  intros Hne Hm Hp Hi Hk Hv. unfold Parse. rewrite (Get_kept _ _ _ Hne Hm). destruct (Z.eqb_spec p 0); [done|]. cbn [negb andb]. rewrite Hi. cbn [exec_bind].
  destruct (kp_file _ _ _ Hk) as (f & b & Hf & Ht & _). unfold file_in. rewrite Hf. cbn [exec_bind]. rewrite Ht, Z.eqb_refl. cbn [exec_bind].
  by eapply serve_keeps.
Qed.

(** No page that is kept names the file of [path]. *)
Definition unnamed w (path : list Z) : Prop :=
  ∀ k p, k ≠ path → kept_map w !! k = Some p →
  ∃ c, info w p = Done c ∧ ∀ has : list Z → bool,
    ((has = λ n, default false (c_unmtchd c !! n)) ∧ c_unmtchd c ≠ ∅ ∨ (has = λ n, bool_decide (is_Some (c_finfos c !! n))) ∧ c_finfos c ≠ ∅) →
    ∃ f b, c_fileinfo c = Some (f, b) ∧ names_it has (fi_base (pf_info f)) (sync_name path) = Done false.

Lemma sync_unnamed reparse name unmatched p w c :
  info w p = Done c →
  (∀ has : list Z → bool,
    ((has = λ n, default false (c_unmtchd c !! n)) ∧ c_unmtchd c ≠ ∅ ∨ (has = λ n, bool_decide (is_Some (c_finfos c !! n))) ∧ c_finfos c ≠ ∅) →
    ∃ f b, c_fileinfo c = Some (f, b) ∧ names_it has (fi_base (pf_info f)) name = Done false) →
  sync_one reparse name unmatched p w = Done w.
Proof.
  intros Hi H. unfold sync_one. rewrite Hi. cbn [exec_bind].
  assert ((if bool_decide (c_unmtchd c = ∅) then Done w
    else let* '(f, _) := file_in c in
         let* hit := names_it (λ n, default false (c_unmtchd c !! n)) (fi_base (pf_info f)) name in
         if hit && unmatched then reparse p w else Done w) = Done w) as ->.
  { case_bool_decide as E; [done|]. destruct (H _ (or_introl (conj eq_refl E))) as (f & b & Hf & Hn). unfold file_in. rewrite Hf. cbn [exec_bind].
    by rewrite Hn. }
  cbn [exec_bind]. rewrite Hi. cbn [exec_bind]. case_bool_decide as E; [done|].
  destruct (H _ (or_intror (conj eq_refl E))) as (f & b & Hf & Hn). unfold file_in. rewrite Hf. cbn [exec_bind]. by rewrite Hn.
Qed.

Lemma Iterate_values (m : option (itermap (K := list Z) (V := Z))) ps :
  IterMap.Iterate m (λ _ p ps, (true, ps ++ [p])) ps =
  ps ++ match m with Some im => match orgsncmp im with Some g => map snd (map_to_list g) | None => [] end | None => [] end.
Proof.
  unfold IterMap.Iterate. destruct m as [im|]; [|by rewrite app_nil_r]. destruct (orgsncmp im) as [g|]; [|by rewrite app_nil_r].
  generalize (map_to_list g). intros l. revert ps. induction l as [|[k v] l IH]; intros ps; cbn [yield_all map]; [by rewrite app_nil_r|].
  rewrite IH, <- app_assoc. done.
Qed.

Lemma internsync_unnamed reparse path unmatched w : kept_map w !! path = None → unnamed w path → internsync reparse path unmatched w = Done w.
Proof.
  intros Hno Hu. unfold internsync. rewrite Iterate_values. cbn [app].
  assert (match chdinfos w with Some im => match orgsncmp im with Some g => map snd (map_to_list g) | None => [] end | None => [] end =
    map snd (map_to_list (kept_map w))) as ->.
  { unfold kept_map. destruct (chdinfos w) as [im|]; [|by rewrite map_to_list_empty]. destruct (orgsncmp im); cbn; [done|by rewrite map_to_list_empty]. }
  assert (∀ p, p ∈ map snd (map_to_list (kept_map w)) → sync_one reparse (sync_name path) unmatched p w = Done w) as H.
  { intros p Hp. apply list_elem_of_fmap in Hp as ([k v] & -> & Hkv). apply elem_of_map_to_list in Hkv. cbn [snd].
    destruct (Hu k v ltac:(congruence) Hkv) as (c & Hc & Hn). by eapply sync_unnamed. }
  revert H. generalize (map snd (map_to_list (kept_map w))). intros l H. induction l as [|p l IH]; [done|]. cbn [fold_left exec_bind].
  rewrite H by by left. apply IH. intros q Hq. apply H. by right.
Qed.


(** *** A page that is parsed *)

(** The page as the template sees it the first time. *)
Definition as_page (fi : pagefile) : fileinfo :=
  MkFile (fi_path (pf_info fi)) (fi_root (pf_info fi)) (fi_base (pf_info fi)) (fi_ext (pf_info fi))
    (Some (AnyRdr (option BuffReader) BuffReader_ReadRune None)).
Definition page_names (fi : pagefile) : attributes := page_attributes (as_page fi) (Elements.to_name (fi_path (pf_info fi))).

(** The text of the file, with the names of the page for its keys, expands to [o]. *)
Definition expands_to (Stat : list Z → option fileinfo) (fi : pagefile) (o : list Z) : Prop :=
  ∃ rd gs nm, fi_reader (pf_info fi) = Some rd ∧ runeReaderSlice.any_pending rd (file_text gs) ∧ valid_runes (file_text gs) ∧ file_text gs ≠ [] ∧
    scripted (fi_ext (pf_info fi)) = false ∧ element_name (as_page fi) = Done nm ∧ segments_ok (page_names fi) gs ∧
    expands Stat (as_page fi) (as_page fi) (with_values (page_names fi) gs) o.

Lemma expands_to_valid Stat fi o : expands_to Stat fi o → valid_runes o.
Proof.
  intros (rd & gs & nm & _ & _ & _ & _ & _ & _ & _ & He). apply expands_clean in He. eapply Forall_impl; [exact He|]. by intros r (? & _).
Qed.

Lemma text_buffer fuel rd l :
  runeReaderSlice.any_pending rd l → valid_runes l → len l < Z.of_nat fuel → ∃ b, NewBuffer fuel [PRuneReader rd] = Done b ∧ buf_is (Some b) l.
Proof.
  intros Hr Hv Hf. unfold NewBuffer. cbn [length]. change (0 <? Z.of_nat 1) with true. cbv iota zeta.
  destruct (Print_appends fuel (empty_buffer chunk_size) [PRuneReader rd] (encode_all l ++ [])) as (b & -> & Ha); [apply new_is| |].
  - by repeat constructor.
  - exists b. split; [done|]. rewrite app_nil_r in Ha. by apply (buf_is_appended _ _ _ _ new_is).
Qed.

(** What the template makes of a buffer with the page's text. *)
Lemma template_of Stat fi o gs nm :
  valid_runes (file_text gs) → file_text gs ≠ [] → scripted (fi_ext (pf_info fi)) = false →
  element_name (as_page fi) = Done nm → segments_ok (page_names fi) gs → expands Stat (as_page fi) (as_page fi) (with_values (page_names fi) gs) o →
  ∃ N, ∀ b fuel, buf_is (Some b) (file_text gs) → (N ≤ fuel)%nat → ∃ m0 m1 m2, MarkupTemplate (as_page fi) = Done m0 ∧
    Elements.Parse fuel Stat fuel (InBuf b) ∅ m0 = Done m1 ∧ Wrapup fuel Stat fuel m1 = Done m2 ∧
    buf_is (Elements.Content (Some m2)) o ∧ markup_Code (Some m2) = None.
Proof.
  intros Hv Hne Hs Hn Hg He. pose proof (page_expands Stat (as_page fi) nm ∅ gs o Hs Hn) as HP.
  rewrite (left_id_L ∅ (∪)) in HP. destruct (HP Hg He) as (N & HN). exists N. intros b fuel Hb Hf.
  destruct (buffer_reader NoContext (Some b) _ Hb Hv) as (r & Er & Hr); [by left|]. rewrite decide_False in Hr by done. destruct Hr as [_ Hr].
  assert (runeReaderSlice.any_pending (AnyRdr (option BuffReader) BuffReader_ReadRune r) (file_text gs)) as Hp by by exists BuffReader_closing_source.
  destruct (HN _ fuel fuel Hp Hf Hf) as (m0 & m1 & m2 & E0 & E1 & E2 & Hc & Hcd). exists m0, m1, m2. split; [done|]. split; [|done].
  unfold Elements.Parse in *. rewrite (Empty_is _ _ Hb Hv), bool_decide_eq_false_2 by done. rewrite Er. exact E1.
Qed.

Lemma info_Done w p c : info w p = Done c → 0 < p ≤ len (infos w) ∧ infos w !! Z.to_nat (p - 1) = Some c.
Proof.
  unfold info. destruct (Z.ltb_spec 0 p); [|done]. destruct (infos w !! Z.to_nat (p - 1)) eqn:E; [|done]. intros [= <-]. split; [|done].
  apply lookup_lt_Some in E. lia.
Qed.

Lemma info_app w m l p c : info w p = Done c → info (MkCache (infos w ++ l) m) p = Done c.
Proof. intros [Hp E]%info_Done. unfold info. cbn [infos]. destruct (Z.ltb_spec 0 p); [|lia]. by rewrite lookup_app_l, E by (apply lookup_lt_Some in E; lia). Qed.

Lemma info_last l m c : info (MkCache (P := P) (l ++ [c]) m) (len l + 1) = Done c.
Proof.
  unfold info. cbn [infos]. destruct (Z.ltb_spec 0 (len l + 1)); [|lia]. replace (Z.to_nat (len l + 1 - 1)) with (length l) by lia.
  by rewrite list_lookup_middle.
Qed.

(** Every page that is kept is there, open, under its path. *)
Definition cache_ok w : Prop := ∀ k p, kept_map w !! k = Some p →
  k ≠ [] ∧ p ≠ 0 ∧ ∃ c f b, info w p = Done c ∧ c_fileinfo c = Some (f, b) ∧ fi_path (pf_info f) = k.

Lemma unnamed_app w path l m : kept_map (MkCache l m) = kept_map (MkCache (infos w) m) → unnamed (MkCache (infos w) m) path →
  unnamed (MkCache (infos w ++ l) m) path.
Proof.
  intros _ Hu k p Hk Hm. destruct (Hu k p Hk) as (c & Hc & H); [exact Hm|]. exists c. split; [|exact H]. by apply (info_app (MkCache (infos w) m)).
Qed.

Lemma Set_kept w path p l : open_map w → path ≠ [] →
  ∃ m es, IterMap.Set_ (chdinfos w) path p = Done (m, es) ∧ open_map (MkCache (P := P) l m) ∧ kept_map (MkCache (P := P) l m) = <[path := p]> (kept_map w).
Proof.
  intros (im & Him & g & Hg) Hne. unfold open_map, kept_map, IterMap.Set_. cbn [empty_name path_Entries]. rewrite bool_decide_eq_false_2 by done.
  rewrite Him, Hg. cbn [default from_option id]. destruct (g !! path) as [prv|] eqn:Ep; cbn [value_Equal path_Entries exec_bind].
  - destruct (Z.eqb_spec prv p) as [->|].
    + eexists _, _. split; [done|]. cbn [chdinfos]. split; [by exists im; rewrite Hg|]. rewrite Hg. cbn. by rewrite insert_id.
    + eexists _, _. split; [done|]. cbn [chdinfos orgsncmp]. split; [by eexists|done].
  - eexists _, _. split; [done|]. cbn [chdinfos orgsncmp]. split; [by eexists|done].
Qed.

Lemma createcached_spec Stat (compile : Buffer → option P) fi o w :
  expands_to Stat fi o → open_map w → fi_path (pf_info fi) ≠ [] → kept_map w !! fi_path (pf_info fi) = None → unnamed w (fi_path (pf_info fi)) →
  ∃ N, ∀ fuel, (N ≤ fuel)%nat → ∃ c m, keeps fi o c ∧ (∃ b, c_fileinfo c = Some (fi, b)) ∧
    createcachedfileinfo fuel Stat compile fi w = Done (len (infos w) + 1, MkCache (infos w ++ [c]) m) ∧
    open_map (MkCache (infos w ++ [c]) m) ∧ kept_map (MkCache (infos w ++ [c]) m) = <[fi_path (pf_info fi) := len (infos w) + 1]> (kept_map w).
Proof.
  intros (rd & gs & nm & Hrd & Hp & Hv & Hne & Hs & Hn & Hg & He) Ho Hpath Hno Hu.
  destruct (template_of Stat fi o gs nm Hv Hne Hs Hn Hg He) as (N & HN). exists (S (N + length (file_text gs))). intros [|fuel] Hf; [lia|].
  unfold createcachedfileinfo, fileInfoFromFi. rewrite Hrd. destruct (text_buffer (S fuel) rd (file_text gs) Hp Hv) as (b & -> & Hb); [lia|].
  cbn [exec_bind internparse]. rewrite info_last. cbn [exec_bind file_in c_fileinfo]. change (as_file (MkCached (P := P) (Some (fi, b)) ∅ ∅ None None None) fi) with (Done (as_page fi)).
  cbn [exec_bind]. destruct (HN b (S fuel) Hb) as (m0 & m1 & m2 & -> & E1 & E2 & Hc & Hcd); [lia|]. cbn [exec_bind]. rewrite E1. cbn [exec_bind].
  rewrite E2. cbn [exec_bind]. rewrite Hcd. cbv zeta iota. cbn [c_prgm].
  set (c := MkCached (Some (fi, b)) (ValidElements (Some m2)) (InvalidElements (Some m2)) None (Elements.Content (Some m2)) None).
  assert (set_info (MkCache (infos w ++ [MkCached (P := P) (Some (fi, b)) ∅ ∅ None None None]) (chdinfos w)) (len (infos w) + 1) c =
    MkCache (infos w ++ [c]) (chdinfos w)) as ->.
  { unfold set_info. cbn [infos chdinfos]. f_equal. replace (Z.to_nat (len (infos w) + 1 - 1)) with (length (infos w) + 0)%nat by lia.
    by rewrite insert_app_r. }
  rewrite internsync_unnamed; [|done|by apply unnamed_app]. cbn [exec_bind chdinfos].
  destruct (Set_kept w (fi_path (pf_info fi)) (len (infos w) + 1) (infos w ++ [c]) Ho Hpath) as (m & es & -> & Hom & Hkm). cbn [exec_bind].
  exists c, m. split; [|split; [by exists b|done]]. split; [by exists fi, b|done..].
Qed.

(** *** The property *)

Definition changed w (fi : pagefile) : Prop := ∀ p c f b,
  kept_map w !! fi_path (pf_info fi) = Some p → info w p = Done c → c_fileinfo c = Some (f, b) → pf_modtime f ≠ pf_modtime fi.

(** Closing and deleting the page of a path leaves the others as they were. *)
Lemma dropped_ok w path p c : cache_ok w → open_map w → kept_map w !! path = Some p → info w p = Done c →
  let w' := set_map (set_info w p (cached_Close c)) (IterMap.Delete (chdinfos w) [path]).1 in
  cache_ok w' ∧ open_map w' ∧ kept_map w' = delete path (kept_map w) ∧ (∀ k q d, k ≠ path → kept_map w !! k = Some q → info w q = Done d → info w' q = Done d).
Proof.
  intros Hok Ho Hk Hi w'. assert (path ≠ []) as Hne by apply (Hok _ _ Hk).
  destruct Ho as (im & Him & g & Hg). assert (open_map w' ∧ kept_map w' = delete path (kept_map w)) as [Ho' Hk'].
  { unfold w', open_map, kept_map. cbn [set_map chdinfos]. rewrite Him. unfold IterMap.Delete. cbn [List.filter empty_name path_Entries].
    rewrite bool_decide_eq_false_2 by done. cbn [negb]. rewrite Hg. cbn [fst orgsncmp default from_option id]. split; [by eexists|].
    apply map_eq. intros k. rewrite map_lookup_filter. destruct (decide (k = path)) as [->|Hkp].
    - rewrite lookup_delete_eq. destruct (g !! path); [|done]. cbn. rewrite option_guard_False; [done|]. cbn. set_solver.
    - rewrite lookup_delete_ne by done. destruct (g !! k); [|done]. cbn. rewrite option_guard_True; [done|]. cbn. set_solver. }
  assert (∀ k q d, k ≠ path → kept_map w !! k = Some q → info w q = Done d → info w' q = Done d) as Hinf.
  { intros k q d Hkp Hq Hd. assert (q ≠ p) as Hqp.
    { intros ->. destruct (Hok _ _ Hk) as (_ & _ & c1 & f1 & b1 & H1 & Hf1 & Hp1). destruct (Hok _ _ Hq) as (_ & _ & c2 & f2 & b2 & H2 & Hf2 & Hp2).
      rewrite H1 in H2. injection H2 as <-. rewrite Hf1 in Hf2. injection Hf2 as <- <-. congruence. }
    apply info_Done in Hd as [Hb Hd]. apply info_Done in Hi as [Hb' Hi]. unfold info, w'. cbn [infos set_map set_info].
    destruct (Z.ltb_spec 0 q); [|lia]. rewrite list_lookup_insert_ne by lia. by rewrite Hd. }
  split; [|done]. intros k q. rewrite Hk'. intros [Hkp Hq]%lookup_delete_Some. destruct (Hok _ _ Hq) as (? & ? & d & f & b & Hd & ?).
  split; [done|]. split; [done|]. exists d, f, b. split; [|done]. eapply Hinf; [|done|done]. congruence.
Qed.

Lemma created_ok w w' p fi c b m : cache_ok w → w' = MkCache (infos w ++ [c]) m → p = len (infos w) + 1 → fi_path (pf_info fi) ≠ [] →
  c_fileinfo c = Some (fi, b) → kept_map w' = <[fi_path (pf_info fi) := p]> (kept_map w) → cache_ok w'.
Proof.
  intros Hok -> -> Hne Hf Hk k q. rewrite Hk. intros [[<- <-]|[Hkp Hq]]%lookup_insert_Some.
  - split; [done|]. split; [lia|]. exists c, fi, b. split; [apply info_last|done].
  - destruct (Hok _ _ Hq) as (? & ? & d & f & b' & Hd & ?). split; [done|]. split; [done|]. exists d, f, b'. split; [by apply info_app|done].
Qed.

(** A page that is not kept as it is gets parsed, shown and kept. *)
Lemma Parse_shows Stat (compile : Buffer → option P) fi o run w :
  cache_ok w → open_map w → fi_path (pf_info fi) ≠ [] → unnamed w (fi_path (pf_info fi)) → changed w fi → expands_to Stat fi o →
  ∃ N, ∀ fuel, (N ≤ fuel)%nat → ∃ s w', Parse fuel Stat compile fi true run w = Done (s, w') ∧ shows w' s o ∧ cache_ok w' ∧ open_map w' ∧
    ∀ fuel' Stat' (compile' : Buffer → option P) fi' run',
      fi_path (pf_info fi') = fi_path (pf_info fi) → pf_modtime fi' = pf_modtime fi →
      ∃ s', Parse fuel' Stat' compile' fi' true run' w' = Done (s', w') ∧ shows w' s' o.
Proof.
  intros Hok Ho Hne Hu Hch He. pose proof (expands_to_valid _ _ _ He) as Hv. set (path := fi_path (pf_info fi)) in *.
  assert (∃ w1, cache_ok w1 ∧ open_map w1 ∧ kept_map w1 !! path = None ∧ unnamed w1 path ∧
    ∀ fuel, Parse fuel Stat compile fi true run w = let* '(p, w2) := createcachedfileinfo fuel Stat compile fi w1 in serve_cached p fi true run w2)
    as (w1 & Hok1 & Ho1 & Hno & Hu1 & EP).
  { destruct (kept_map w !! path) as [p|] eqn:Ek.
    - destruct (Hok _ _ Ek) as (_ & Hp & c & f & b & Hi & Hf & _). destruct (dropped_ok w path p c Hok Ho Ek Hi) as (A & B & C & D).
      eexists. split; [exact A|]. split; [exact B|]. split; [by rewrite C, lookup_delete_eq|]. split.
      + intros k q Hk Hq. rewrite C, lookup_delete_ne in Hq by done. destruct (Hu k q Hk Hq) as (d & Hd & H). exists d. split; [by eapply D|exact H].
      + intros fuel. unfold Parse. fold path. rewrite (Get_kept _ _ _ Hne Ek). destruct (Z.eqb_spec p 0); [done|]. cbn [negb andb]. rewrite Hi. cbn [exec_bind].
        unfold file_in. rewrite Hf. cbn [exec_bind]. destruct (Z.eqb_spec (pf_modtime f) (pf_modtime fi)) as [E|_]; [by destruct (Hch p c f b)|].
        cbn [exec_bind]. destruct (Hok _ _ Ek) as (_ & _ & c1 & f1 & b1 & Hi1 & Hf1 & Hp1). rewrite Hi in Hi1. injection Hi1 as <-.
        rewrite Hf in Hf1. injection Hf1 as <- <-. by rewrite Hp1.
    - exists w. split_and!; try done. intros fuel. unfold Parse. fold path. pose proof (Get_not_kept w path Ek) as Hg.
      destruct (IterMap.Get (chdinfos w) path) as [p found]. cbn in Hg. by subst found. }
  destruct (createcached_spec Stat compile fi o w1 He Ho1 Hne Hno Hu1) as (N & HN). exists N. intros fuel Hf.
  destruct (HN fuel Hf) as (c & m & Hk & (b & Hb) & Ec & Hom & Hkm). fold path in Hkm. set (w2 := MkCache (infos w1 ++ [c]) m) in *.
  destruct (serve_keeps (len (infos w1) + 1) fi o c run w2) as (s & Es & Hs); [apply info_last|done|done|].
  exists s, w2. split; [by rewrite EP, Ec; cbn [exec_bind]|]. split; [done|]. split; [by eapply created_ok|]. split; [done|].
  intros fuel' Stat' compile' fi' run' Hp' Ht'. apply (Parse_kept fuel' Stat' compile' fi' o c (len (infos w1) + 1)); [by rewrite Hp'| |lia|apply info_last| |done].
  - rewrite Hp'. fold path. rewrite Hkm. apply lookup_insert_eq.
  - destruct Hk as [_ H1 H2 H3]. split; [|done..]. exists fi, b. split; [done|]. by rewrite Ht', Hp'.
Qed.

(** C9: a page that is active and not kept, or kept with another time of change, is
    parsed: [Parse] ends, for every [N] or more of fuel, and what it shows is what the text
    of the page expands to; the page is kept, and from then on it is shown the same, with
    nothing parsed and nothing changed, as long as its own time of change is the same -
    whatever has become of the files of its elements meanwhile. *)
Theorem Parse_serves Stat (compile : Buffer → option P) fi o run w :
  cache_ok w → open_map w → fi_path (pf_info fi) ≠ [] → unnamed w (fi_path (pf_info fi)) → changed w fi → expands_to Stat fi o →
  ∃ N, ∀ fuel, (N ≤ fuel)%nat → ∃ s w', Parse fuel Stat compile fi true run w = Done (s, w') ∧ shows w' s o ∧ cache_ok w' ∧ open_map w' ∧
    ∀ fuel' Stat' (compile' : Buffer → option P) fi' run',
      fi_path (pf_info fi') = fi_path (pf_info fi) → pf_modtime fi' = pf_modtime fi →
      ∃ s', Parse fuel' Stat' compile' fi' true run' w' = Done (s', w') ∧ shows w' s' o.
Proof. apply Parse_shows. Qed.
End theory.

(** *** A page with an element *)

Definition demo_segs : list MapReader.seg := [MapReader.Lit (str "<dot/>!")].
Definition demo_pagefile : pagefile := MkPage (demo_file (str "q") demo_segs) 7 1 true.

Lemma demo_expands_to : expands_to demo_stat demo_pagefile (str ".!").
Proof.
  exists (string_rdr (file_text demo_segs)), demo_segs, (str ":a:q"). split; [done|]. split; [by apply demo_pending|]. split; [by repeat constructor|].
  split; [done|]. split; [by vm_compute|]. split; [by vm_compute|]. split; [apply seg_okb_ok; by vm_compute|].
  change (with_values _ _) with (tag_text tag_dot ++ str "!" ++ []). change (str ".!") with ((str "." ++ []) ++ str "!" ++ []).
  eapply (X_element demo_stat (as_page demo_pagefile) (as_page demo_pagefile) tag_dot (demo_file (str "dot") dot_segs) (string_rdr (file_text dot_segs))
    (str ":a:dot") dot_segs (str "." ++ []) (str "." ++ [])).
  - by apply tag_okb_ok.
  - done.
  - vm_compute. reflexivity.
  - done.
  - done.
  - vm_compute. reflexivity.
  - by apply demo_pending.
  - by apply seg_okb_ok.
  - apply (X_texts _ _ _ (str ".") []); [by apply ordinaryb_all|constructor].
  - apply (X_texts _ _ _ (str ".") []); [by apply ordinaryb_all|constructor].
  - apply (X_texts _ _ _ (str "!") []); [by apply ordinaryb_all|constructor].
Qed.

Lemma new_cache_ok : cache_ok (P := list Z) new_cache ∧ open_map (P := list Z) new_cache.
Proof. split; [|by eexists; split; [done|eexists]]. intros k p. change (kept_map new_cache) with (∅ : gmap (list Z) Z). by rewrite lookup_empty. Qed.

Lemma Parse_serves_witness :
  ∃ N, ∀ fuel, (N ≤ fuel)%nat → ∃ s w', Parse fuel demo_stat (λ b, Some (contents b)) demo_pagefile true true new_cache = Done (s, w') ∧ shows w' s (str ".!") ∧
    cache_ok w' ∧ open_map w' ∧
    ∀ fuel' Stat' (compile' : Buffer → option (list Z)) fi' run',
      fi_path (pf_info fi') = fi_path (pf_info demo_pagefile) → pf_modtime fi' = 1 →
      ∃ s', Parse fuel' Stat' compile' fi' true run' w' = Done (s', w') ∧ shows w' s' (str ".!").
Proof.
  apply (Parse_serves demo_stat (λ b, Some (contents b)) demo_pagefile (str ".!") true new_cache); [apply new_cache_ok|apply new_cache_ok|done| | |apply demo_expands_to].
  - intros k p _. change (kept_map new_cache) with (∅ : gmap (list Z) Z). by rewrite lookup_empty.
  - intros p c f b. change (kept_map new_cache) with (∅ : gmap (list Z) Z). by rewrite lookup_empty.
Defined.

(** ** What keeping pages leads to *)

Definition ex_file (name txt : list Z) : fileinfo := MkFile (str "/" ++ name ++ str ".html") (str "/") (str "/") (str ".html") (Some (string_rdr txt)).
Definition ex_page (name txt : list Z) (time : Z) : pagefile := MkPage (ex_file name txt) (len txt) time true.
Definition ex_stat (files : list (list Z * list Z)) (p : list Z) : option fileinfo :=
  match List.find (λ f, bool_decide (p = str "/" ++ f.1 ++ str ".html")) files with Some f => Some (ex_file f.1 f.2) | None => None end.
Definition ex_compile (b : Buffer) : option (list Z) := Some (contents b).

(** What a request for a page shows: its text and the program that is run. *)
Definition ask (Stat : list Z → option fileinfo) (fi : pagefile) (w : cache) : exec ((list Z * option (list Z)) * cache) :=
  let* '(s, w') := Parse 60 Stat ex_compile fi true true w in
  match sp_info s with
  | Some p => let* c := info w' p in Done (match c_cntnt c with Some b => contents b | None => [] end, None, w')
  | None => Done (match sp_print s with Some (Some r) => match rbuffer r with Some b => contents b | None => [] end | _ => [] end, sp_run s, w')
  end.
Definition asked (Stat1 Stat2 : list Z → option fileinfo) (before : list pagefile) (fi : pagefile) (ntfy : option (pagefile * notify)) : exec (list Z * option (list Z)) :=
  let* '(_, w0) := fold_left (λ m f, let* '(_, w) := m in ask Stat1 f w) before (Done (([], None), new_cache)) in
  let* w1 := match ntfy with Some (f, n) => update 60 Stat2 ex_compile f n w0 | None => Done w0 end in
  let* '(x, _) := ask Stat2 fi w1 in Done x.

Definition page_p : pagefile := ex_page (str "p") (str "a<cd/>b") 1.
Definition page_cd : pagefile := ex_page (str "cd") (str "y") 2.
Definition with_code : list Z → option fileinfo := ex_stat [(str "cd", str "x<%f()%>")].
Definition without_code : list Z → option fileinfo := ex_stat [(str "cd", str "y")].

(** The file of an element changes, and nobody tells: the page stays. *)
Example untold : asked with_code without_code [page_p] page_p None = Done (str "ax", Some (str "f()print(`b`);")).
Proof. vm_compute. reflexivity. Qed.

(** The file of an element appears, and the file system tells: the page follows. *)
Example told_created : asked (ex_stat []) without_code [page_p] page_p (Some (page_cd, NOTE_CREATE)) = Done (str "ayb", None).
Proof. vm_compute. reflexivity. Qed.

(** A page that loses its script runs the old one after its new text. *)
Example old_program_runs : asked with_code without_code [page_p] page_p (Some (page_cd, NOTE_AMMEND)) = Done (str "ayb", Some (str "f()print(`b`);")).
Proof. vm_compute. reflexivity. Qed.

(** A file that goes is told to the pages that name it only when it was kept itself. *)
Example gone_untold : asked with_code (ex_stat []) [page_p] page_p (Some (page_cd, NOTE_REMOVE)) = Done (str "ax", Some (str "f()print(`b`);")).
Proof. vm_compute. reflexivity. Qed.
Example gone_told : asked with_code (ex_stat []) [page_p; page_cd] page_p (Some (page_cd, NOTE_REMOVE)) = Done (str "a<cd/>b", None).
Proof. vm_compute. reflexivity. Qed.
