(* ===== verification/Handler.v ===== *)
(** src/globalsession/globalsession.go: [HTTPSessionHandler], what is done with a request.

    The handler brings the parts of the server together: a session for the request is opened
    and put into the registry ([Sessions]), the file of its path is looked for, its type is
    found ([Mimes]), an active file is served as a page ([Active]), any other, or the part
    of it that was asked for, is copied ([Streams]) through the writer of the session
    ([Serving]), and the session is closed.

    The file system, the compiler and the running of scripts, the clock and the table of
    types are arguments.  A file is what [Stat] finds: what a page is made of, whether it is
    of a medium, and the reader it is read with, nil when it cannot be opened.  Closing that
    reader and the file afterwards changes nothing of the response and is left out.  A panic
    ends the request, after the session is closed; here it is [Panic]. *)

From S2P Require Import Prelude Runes GoStrings Readers RuneReaders Buffer BufferCursor Paths BuffReader Streams Serving Texts Mimetypes Mimes IterMap Code Elements Templates Active Sessions.
From stdpp Require Import gmap strings.
#[local] Open Scope Z_scope.

Section handler.
Context {P R : Type} `{!ByteReader R} `{!RuneReader R} `{!Seeker R}.

Record webfile := MkWebFile { wf_page : pagefile; wf_Media : bool; wf_Reader : option R }.

(** What the handler keeps between requests. *)
Record server := MkServer { srv_sessions : world; srv_mimes : mimes; srv_pages : cache (P := P) }.

(** The last offset and the length of the part of a file of [rqsize] bytes that is sent for
    an offset; both are between 0 and 2^63, so that no step leaves 64 bits. *)
Definition content_range (rangeOffset rqsize : Z) : Z * Z :=
  let maxoffset := rangeOffset + (rqsize - rangeOffset) in
  let '(maxoffset, maxlen) := if 0 <? maxoffset then (maxoffset - 1, maxoffset - rangeOffset) else (maxoffset, 0) in
  let '(maxoffset, maxlen) := if maxoffset <? rangeOffset then (rangeOffset, 0) else (maxoffset, maxlen) in
  if 1024 * 1024 <? maxlen then (rangeOffset + (1024 * 1024 - 1), 1024 * 1024) else (maxoffset, maxlen).

(** [fmt.Sprintf("%s %d-%d/%d", ...)] *)
Definition contentrange (rangeType : list Z) (rangeOffset maxoffset rqsize : Z) : list Z :=
  rangeType ++ text " " ++ FormatInt rangeOffset ++ text "-" ++ FormatInt maxoffset ++ text "/" ++ FormatInt rqsize.

Section request.
Context (fuel : nat) (csv : list Z) (Stat : list Z → option webfile)
  (ElemStat : list Z → option fileinfo) (compile : Buffer → option P)
  (RunProgram : P → writer → response → exec (writer * response)) (api : SessionAPI) (cx : context) (expires : list Z).

(** A file that is not active: a nil reader fails the assertion that it can seek. *)
Definition serve_static (hin : reader) (rqsize : Z) (rdr : option R) (q : writer) (w : response) : exec (writer * response) :=
  match rdr with
  | None => Panic
  | Some rd =>
    let rangeOffset := RangeOffset hin in
    if (-1 <? rangeOffset) && bool_decide (RangeType hin = text "bytes") then
      let* '(_, _, rd) := seek rd rangeOffset 0 in
      let '(maxoffset, maxlen) := content_range rangeOffset rqsize in
      let* '(q, w) := Set_Header q w (text "Content-Range") (contentrange (RangeType hin) rangeOffset maxoffset rqsize) in
      let* '(q, w) := Set_Header q w (text "Content-Length") (FormatInt maxlen) in
      let q := (MaxWriteSize q maxlen).2 in
      let* w := WriteHeader q w 206 in
      let* '(_, q, w) := BPrint (RR := R) fuel q w [WReader (MkLimited rd maxlen)] in Done (q, w)
    else
      let* '(q, w) := Set_Header q w (text "Accept-Ranges") (text "bytes") in
      let* '(q, w) := Set_Header q w (text "Content-Length") (FormatInt rqsize) in
      let q := (MaxWriteSize q rqsize).2 in
      let* '(_, q, w) := BPrint (R := R) fuel q w [WRuneReader rd] in Done (q, w)
  end.

(** An active file: what [ProcessActiveFile] prints and runs, and the page it returns when
    that is the file as it is. *)
Definition serve_active (pg : pagefile) (q : writer) (w : response) (ch : cache (P := P)) : exec (writer * response * cache (P := P)) :=
  let* '(rqfi, s, ch) := ProcessActiveFile fuel ElemStat compile pg true true ch in
  let* '(q, w) := match sp_print s with
                  | Some rd => let* '(_, q, w) := Fprint (R := R) fuel q w None [WRuneReader rd] in Done (q, w)
                  | None => Done (q, w)
                  end in
  let* '(q, w) := match sp_run s with Some prgm => RunProgram prgm q w | None => Done (q, w) end in
  match sp_info s with
  | Some p =>
    let* c := info ch p in
    let* rdr := cached_Reader c cx in
    let* '(_, q, w) := Print (R := R) fuel q w [WRuneReader rdr] in Done (q, w, ch)
  | None => Done (q, w, ch)
  end.

Definition serve_file (hin : reader) (wf : webfile) (q : writer) (w : response) (mm : mimes) (ch : cache (P := P))
  : exec (writer * response * mimes * cache (P := P)) :=
  let rqsize := pf_size (wf_page wf) in
  if 0 <? rqsize then
    let* '(mimetype, texttype, _, mm) := FindMimeType fuel csv mm (fi_ext (pf_info (wf_page wf))) None in
    let* '(q, w) := if (texttype : bool) then Set_Header q w (text "Expires") expires else Done (q, w) in
    let mimetype := if texttype || Paths.Contains mimetype (text "text/plain") then mimetype ++ text "; charset=utf-8" else mimetype in
    let* '(q, w) := Set_Header q w (text "Content-type") mimetype in
    if pf_active (wf_page wf) then
      let* '(q, w, ch) := serve_active (wf_page wf) q w ch in Done (q, w, mm, ch)
    else
      let* '(q, w) := serve_static hin rqsize (wf_Reader wf) q w in Done (q, w, mm, ch)
  else Done (q, w, mm, ch).

(** What closing the session does to the writer. *)
Fixpoint close_effects (es : list effect) (q : writer) (w : response) : exec (writer * response) :=
  match es with
  | [] => Done (q, w)
  | CloseWriter _ :: es' => let* '(q, w) := Serving.Close q w in close_effects es' q w
  | _ :: es' => close_effects es' q w
  end.

(** What is served to a session: nothing when there is no file. *)
Definition serve_request (s : session) (w : response) (mm : mimes) (ch : cache (P := P)) : exec (writer * response * mimes * cache (P := P)) :=
  match Stat (s_path s), s_in s with
  | None, _ => Done (NewWriter (W := response), w, mm, ch)
  | Some wf, Some hin => serve_file hin wf NewWriter w mm ch
  | Some _, None => Panic
  end.

(** [main] is the main session, which has neither a reader nor a writer of its own, and [r]
    its registry; the session's writer is made for the response [wt].  The tasks that the
    closing leaves to goroutines are given. *)
Definition HTTPSessionHandler (main r f wt now : Z) (rq : request) (w : response) (st : server) : exec (response * list task * server) :=
  let* '(ssn, sw) := NewSession main [ArgIoWriter wt; ArgRequest rq; ArgFsys f] (srv_sessions st) in
  let* sw := reg_Set r (UniqueKey now []) ssn sw in
  let* '(_, sw) := API ssn (Some api) sw in
  let* s := get_session sw ssn in
  let* '(q, w, mm, ch) := serve_request s w (srv_mimes st) (srv_pages st) in
  let* '(es, ts, sw) := Sessions.Close ssn sw in
  let* '(_, w) := close_effects es q w in
  Done (w, ts, MkServer sw mm ch).
End request.
End handler.
Arguments webfile : clear implicits.
Arguments server : clear implicits.

(** * Theory *)

(** ** The session of a request *)

Definition http_reader (rq : request) : reader :=
  let '(ty, off) := range_of (Header_Get (rq_Header rq) (text "Range")) in
  MkReader (rq_Method rq) (rq_Proto rq) (rq_RemoteAddr rq) (default [] (rq_LocalAddr rq)) (Some rq) (Some (rq_Header rq)) (rq_TLS rq) (rq_Path rq) ty off true.

Lemma http_reader_New rq : NewContextPathReader (Some (rq_LocalAddr rq)) (Some rq) (rq_Path rq) = Done (http_reader rq).
Proof.
  unfold NewContextPathReader, http_reader. destruct (range_of _) as [ty off]. do 2 f_equal; [by destruct (rq_LocalAddr rq)|by case_bool_decide].
Qed.

(** The main session and its registry. *)
Definition sessions_ok (main r : Z) (w : world) : Prop :=
  ∃ sp m, get_session w main = Done sp ∧ s_sessions sp = r ∧ s_in sp = None ∧ s_out sp = None ∧
    get_reg w r = Done (MkSessions main (Some (MkIterMap (Some m) None))).

(** The session of a request reads it and writes its response. *)
Definition of_request (rq : request) (wt : Z) (s : session) : Prop :=
  s_path s = rq_Path rq ∧ s_in s = Some (http_reader rq) ∧ s_dspserdr s = true ∧ s_out s = Some (MadeFor wt) ∧ s_dspsewtr s = true.

Lemma NewSession_http main sp f wt rq w ssn w' : get_session w main = Done sp → s_in sp = None → s_out sp = None →
  NewSession main [ArgIoWriter wt; ArgRequest rq; ArgFsys f] w = Done (ssn, w') → ∃ s, get_session w' ssn = Done s ∧ of_request rq wt s ∧ s_api s = None.
Proof.
  intros Hm Hin Hout. unfold NewSession. destruct (Db_kept w main sp Hm) as (d & w1 & -> & Hk & _). cbn [exec_bind].
  assert (main ≠ 0) as Hne by (apply session_at in Hm; lia). destruct (Z.eqb_spec main 0); [done|].
  destruct (Hk main sp Hne Hm) as (so & -> & Hv). unfold view in Hv. injection Hv as _ _ _ Hi _ Ho _. cbn [exec_bind].
  change (Some so ≫= s_in) with (s_in so). change (Some so ≫= s_out) with (s_out so). rewrite Hi, Ho, Hin, Hout.
  cbn -[NewContextPathReader get_session]. rewrite http_reader_New. cbn -[get_session http_reader]. intros [= <- <-].
  eexists. split; [apply session_newest|]. split; [|done]. split_and!; try done. cbn [s_path]. destruct (rq_Path rq) eqn:E; [|done].
  unfold http_reader. by destruct (range_of _).
Qed.

Lemma close_effects_rest es q w : (∀ o, CloseWriter o ∉ es) → close_effects es q w = Done (q, w).
Proof. induction es as [|e es IH]; intros H; [done|]. destruct e; cbn [close_effects]; [apply IH; set_solver|by destruct (H o); left|apply IH; set_solver]. Qed.

Section session_theory.
Context {P R : Type} `{!ByteReader R} `{!RuneReader R} `{!Seeker R}.
Context (fuel : nat) (csv : list Z) (Stat : list Z → option (webfile R)) (ElemStat : list Z → option fileinfo) (compile : Buffer → option P)
  (RunProgram : P → writer → response → exec (writer * response)) (api : SessionAPI) (cx : context) (expires : list Z).

(** Around the serving: the session is there for it, and gone afterwards but for a deletion
    left to a goroutine. *)
Lemma session_around main r f wt now rq w (st : server P) :
  sessions_ok main r (srv_sessions st) → reg_Get r (UniqueKey now []) (srv_sessions st) = Done (0, false) →
  ∃ s, of_request rq wt s ∧ ∀ q w1 mm ch q' w2,
    serve_request fuel csv Stat ElemStat compile RunProgram cx expires s w (srv_mimes st) (srv_pages st) = Done (q, w1, mm, ch) →
    Serving.Close q w1 = Done (q', w2) →
    ∃ ts sw, HTTPSessionHandler fuel csv Stat ElemStat compile RunProgram api cx expires main r f wt now rq w st =
      Done (w2, ts ++ [TaskDelete r (UniqueKey now [])], MkServer sw mm ch) ∧ sessions_ok main r sw.
Proof.
  intros (sp & m & Hm & Hsr & Hi & Ho & Hr) Hfresh. set (key := UniqueKey now []) in *. set (w0 := srv_sessions st) in *.
  assert (r ≠ 0) as Hr0 by (apply reg_at in Hr; lia). assert (key ≠ []) as Hk by exact (open_key_ok [] now).
  assert (m !! key = None) as Hmk.
  { unfold reg_Get in Hfresh. destruct (Z.eqb_spec r 0); [done|]. rewrite Hr in Hfresh. cbn [exec_bind IterateMap] in Hfresh.
    unfold IterMap.Get in Hfresh. cbn [empty_name session_Entries orgsncmp] in Hfresh. rewrite bool_decide_eq_false_2 in Hfresh by done.
    by destruct (m !! key). }
  destruct (NewSession_opens main sp [ArgIoWriter wt; ArgRequest rq; ArgFsys f] w0 Hm) as (w1 & s & HN & Hregs & Hkept & Hs & Hown & Hsub & Hready).
  destruct (NewSession_http main sp f wt rq w0 _ _ Hm Hi Ho HN) as (s1 & Hs1 & Hof & Hapi). rewrite Hs in Hs1. injection Hs1 as <-.
  set (ssn := len (heap w0) + 1) in *.
  destruct (registered w0 w1 main r m s ssn key Hr Hmk Hk Hkept Hregs Hs Hown Hsub Hready (session_old w0)) as (w2 & HS & Hk2 & Hr2 & Hcl2 & Hreg2 & Hs2);
    [by apply not_eq_sym; eapply session_old|].
  destruct (client_use (UseAPI (Some api)) w2 main r key ssn _ Hreg2 Hcl2) as (w3 & HA & Hk3 & Hr3 & Hcl3). cbn [run_use] in HA.
  assert (ssn ≠ 0) as Hs0 by (apply session_at in Hs; lia). apply Z.eqb_neq in Hs0. unfold API in HA. rewrite Hs0, Hs2 in HA. cbn [exec_bind set_key s_api] in HA. rewrite Hapi in HA.
  cbn [exec_bind default from_option id] in HA. injection HA as <-. set (s3 := set_api (set_key s key) (Some api)).
  assert (get_session (set_session w2 ssn s3) ssn = Done s3) as Hs3 by (rewrite (session_set _ _ _ _ _ Hs2); by case_decide).
  exists s3. split; [exact Hof|]. intros q w1' mm ch q' w2' Hserve Hclose.
  assert (kept ssn w0 (set_session w2 ssn s3)) as Hk03.
  { eapply (kept_then ssn ssn w0 w2); [by left| |exact Hk3]. intros q0 sq _ Hq. apply Hk2; [|done]. apply session_at in Hq; lia. }
  assert (main ≠ ssn) as Hms by (unfold ssn; by eapply session_old).
  destruct (Hk03 main sp Hms Hm) as (sp3 & Hm3 & Hv3). unfold view in Hv3. injection Hv3 as _ _ Hsr3 Hi3 _ Ho3 _.
  destruct (client_close _ main r key ssn sp3 Hr0 Hm3 ltac:(congruence) Hcl3) as (x & cs & ts & c & w4 & Hx & HC & Hcs & _ & Hk4 & Hr4 & Hcr & _).
  rewrite Hs3 in Hx. injection Hx as <-. destruct Hof as (Hpath & Hsin & Hd1 & Hsout & Hd2).
  exists ts, w4. split.
  - unfold HTTPSessionHandler. fold w0. rewrite HN. cbn [exec_bind]. fold key. rewrite HS. cbn [exec_bind]. unfold API. rewrite Hs0, Hs2. cbn [exec_bind].
    assert (s_api (set_key s key) = None) as -> by done. cbn [exec_bind default from_option id]. fold s3. rewrite Hs3. cbn [exec_bind]. rewrite Hserve. cbn [exec_bind].
    rewrite HC. cbn [exec_bind]. change (s_dspserdr s3) with (s_dspserdr s). change (s_dspsewtr s3) with (s_dspsewtr s).
    change (s_in s3) with (s_in s). change (s_out s3) with (s_out s). rewrite Hsin, Hd1, Hsout, Hd2. cbn [closings app close_effects]. rewrite Hclose.
    cbn [exec_bind]. by rewrite close_effects_rest.
  - destruct (Hk4 main sp3 Hms Hm3) as (sp4 & Hm4 & Hv4). unfold view in Hv4. injection Hv4 as _ _ Hsr4 Hi4 _ Ho4 _.
    exists sp4, (<[key := ssn]> m). split_and!; [done|congruence..|]. apply Hr4; [by apply not_eq_sym|]. apply Hr3; [done|exact Hreg2].
Qed.
End session_theory.

(** ** What the client receives *)

(** A response to which nothing was sent, with its header. *)
Definition unsent (h : header) : response := MkResponse h None ∅ None 0 [] None.

(** What has come to the client once the request is done: the status, fields of the header
    and the body.  A header that was not sent by then is sent with the status 200. *)
Definition answers (w : response) (status : Z) (fields : list (list Z * list Z)) (body : list Z) : Prop :=
  rs_status (sent w) = Some status ∧ Forall (λ f, Header_Get (rs_sent (sent w)) f.1 = f.2) fields ∧ rs_body (sent w) = body.

Lemma Set_Header_unsent q h key value : wheader q = TargetHeader → Set_Header q (unsent h) key value = Done (q, unsent (Header_Set h key value)).
Proof. unfold Set_Header. by intros ->. Qed.

Lemma Header_Get_Set h k v k' :
  Header_Get (Header_Set h k v) k' = if decide (CanonicalMIMEHeaderKey k' = CanonicalMIMEHeaderKey k) then v else Header_Get h k'.
Proof. unfold Header_Get, Header_Set. case_decide as E; [by rewrite E, lookup_insert_eq|]. by rewrite lookup_insert_ne by done. Qed.

Lemma WriteHeader_unsent status h n : 100 ≤ status ≤ 999 → Header_Get h (text "Content-Length") = FormatInt n → 0 ≤ n < 2 ^ 63 →
  response_WriteHeader status (unsent h) = Done (MkResponse h (Some status) h (Some n) 0 [] None).
Proof.
  intros Hs Hh Hn. unfold response_WriteHeader. cbn [rs_status unsent]. zsimp. cbn [orb]. cbn [rs_header rs_written rs_body rs_room unsent]. rewrite Hh, ParseInt_FormatInt by done. zsimp. done.
Qed.

(** A writer made for a target, used for nothing yet. *)
Lemma new_served m (w : response) bs : -1 ≤ m → takes w bs → served w (MaxWriteSize (NewWriter (W := response)) m).2 w [] bs.
Proof.
  intros Hm Ht. pose proof (NewWriter_served w bs Ht) as [A B C D F]. unfold MaxWriteSize. cbn [MaxSize NewWriter]. split; [done..|]. exact F.
Qed.

(** What is closed after everything was written. *)
Lemma closed_answers w0 q w body status fields :
  served w0 q w body [] → sent w0 = w0 → rs_status w0 = Some status → rs_body w0 = [] → Forall (λ f, Header_Get (rs_sent w0) f.1 = f.2) fields →
  ∃ q' w', Serving.Close q w = Done (q', w') ∧ answers w' status fields body.
Proof.
  intros Hq Hw Hs Hb Hf. destruct (Close_served _ _ _ _ _ Hq) as (q' & w' & -> & Hsent & _). eexists _, _. split; [done|].
  cbn [written og_sink response_OutgoingSink response_sink] in Hsent. unfold answers. rewrite Hsent, Hw. cbn. by rewrite Hs, Hb.
Qed.

(** The header that is sent with the status 200 when nothing else was told. *)
Lemma served_sent (w : response) q w' t rest : served w q w' t rest → served (sent w) q w' t rest.
Proof.
  intros [A B C D F]. split; [done..|]. destruct (buff q) as [b|].
  - destruct F as [? [? ? (out & Hw & ?)]]. split; [done|]. split; [done|done|]. exists out. split; [|done].
    cbn [written og_sink response_OutgoingSink response_sink] in *. by rewrite sent_sent.
  - destruct F as [Hw ?]. split; [|done]. cbn [written og_sink response_OutgoingSink response_sink] in *. by rewrite sent_sent.
Qed.

(** ** Files *)

Section static.
Context {R : Type} `{!ByteReader R} `{!RuneReader R} `{!Seeker R} `{!ByteSource R}.

(** The reader can be moved to the byte [k] of the content [c], and reads on from there. *)
Definition seeks (rd : R) (c : list Z) (k : Z) : Prop := ∃ n e rd', seek rd k 0 = Done (n, e, rd') ∧ bpending rd' (drop (Z.to_nat k) c).

Lemma content_range_in k size : 0 ≤ k < size → content_range k size = (k + Z.min (size - k) (1024 * 1024) - 1, Z.min (size - k) (1024 * 1024)).
Proof.
  intros Hk. unfold content_range. replace (k + (size - k)) with size by lia. zsimp. cbv zeta iota.
  destruct (Z.ltb_spec (1024 * 1024) (size - k)); f_equal; lia.
Qed.

(** The part of a file from [k] on, at most a megabyte of it. *)
Lemma serve_range_served fuel hin (rd : R) c k h : seeks rd c k → rangeoffset hin = k → rangetype hin = text "bytes" → 0 ≤ k < len c → len c < 2 ^ 63 →
  (length c < fuel)%nat →
  let n := Z.min (len c - k) (1024 * 1024) in
  let cr := contentrange (text "bytes") k (k + n - 1) (len c) in
  let h' := Header_Set (Header_Set h (text "Content-Range") cr) (text "Content-Length") (FormatInt n) in
  let w0 := MkResponse h' (Some 206) h' (Some n) 0 [] None in
  ∃ q w, serve_static fuel hin (len c) (Some rd) NewWriter (unsent h) = Done (q, w) ∧ served w0 q w (take (Z.to_nat n) (drop (Z.to_nat k) c)) [].
Proof.
  intros Hrd Hoff Hty Hk Hc Hf n cr h' w0. unfold serve_static, RangeOffset, RangeType. rewrite Hoff, Hty. rewrite bool_decide_eq_true_2 by done. zsimp. cbn [andb].
  destruct Hrd as (pos & err & rd' & -> & Hrd'). cbn [exec_bind]. rewrite content_range_in by done. fold n cr.
  rewrite Set_Header_unsent by done. cbn [exec_bind]. rewrite Set_Header_unsent by done. cbn [exec_bind]. fold h'.
  assert (0 ≤ n < 2 ^ 63) as Hn by (unfold n; lia). set (body := take (Z.to_nat n) (drop (Z.to_nat k) c)).
  assert (len body ≤ n) as Hbn by (unfold body; rewrite length_take; lia).
  assert (response_WriteHeader 206 (unsent h') = Done w0) as HW.
  { apply WriteHeader_unsent; [lia| |done]. unfold h'. rewrite Header_Get_Set. by rewrite decide_True. }
  change (WriteHeader (MaxWriteSize NewWriter n).2 (unsent h') 206) with (response_WriteHeader 206 (unsent h')). rewrite HW. cbn [exec_bind].
  assert (bpending (MkLimited rd' n) body) as Hp.
  { exists (drop (Z.to_nat k) c). by split. }
  assert (takes w0 body) as Ht by (split; [done|cbn; lia|done]).
  destruct (BPrint_served (RR := R) fuel w0 (MaxWriteSize (NewWriter (W := response)) n).2 w0 [] body (WReader (MkLimited rd' n)) (MkLimited rd' n))
    as (q & w & HB & Hq); [apply new_served; [lia|done]|done| |done|].
  { unfold body. rewrite length_take, length_drop. lia. }
  rewrite HB. cbn [exec_bind]. by eexists _, _.
Qed.

(** The whole file. *)
Lemma serve_whole_served fuel hin (rd : R) c h : bpending rd c → (-1 <? rangeoffset hin) && bool_decide (rangetype hin = text "bytes") = false →
  c ≠ [] → len c < 2 ^ 63 → (length c < fuel)%nat →
  let h' := Header_Set (Header_Set h (text "Accept-Ranges") (text "bytes")) (text "Content-Length") (FormatInt (len c)) in
  ∃ q w, serve_static fuel hin (len c) (Some rd) NewWriter (unsent h) = Done (q, w) ∧ served (MkResponse h' (Some 200) h' (Some (len c)) 0 [] None) q w c [].
Proof.
  intros Hrd Hno Hne Hc Hf h'. unfold serve_static, RangeOffset, RangeType. rewrite Hno.
  rewrite Set_Header_unsent by done. cbn [exec_bind]. rewrite Set_Header_unsent by done. cbn [exec_bind]. fold h'.
  assert (sent (unsent h') = MkResponse h' (Some 200) h' (Some (len c)) 0 [] None) as HW.
  { unfold sent. cbn [rs_status unsent]. fold (unsent h'). rewrite (WriteHeader_unsent 200 h' (len c)); [done|lia| |lia]. unfold h'. rewrite Header_Get_Set. by rewrite decide_True. }
  assert (takes (unsent h') c) as Ht by (cbn [takes og_sink response_OutgoingSink response_sink]; rewrite HW; split; [done|cbn; lia|done]).
  destruct (BPrint_served (R := R) fuel (unsent h') (MaxWriteSize (NewWriter (W := response)) (len c)).2 (unsent h') [] c (WRuneReader rd) rd)
    as (q & w & HB & Hq); [apply new_served; [lia|done]|exact Hrd|done|done|].
  eexists q, w. split; [by rewrite HB|]. rewrite <-HW. by apply served_sent.
Qed.
End static.

(** ** Pages *)

(** The reader of a page's content: none when it is empty. *)
Definition page_source : RuneSource (option BuffReader).
Proof.
  refine {| pending o rs := if decide (rs = []) then o = None ∨ closing_pending o [] else closing_pending o rs |}.
  - intros o r rs H. rewrite decide_False in H by done. destruct (pending_cons (RuneSource := BuffReader_closing_source) o r rs H) as (k & o' & E & Hk & H').
    exists k, o'. split; [done|]. split; [done|]. case_decide as Ers; [right; by rewrite Ers in H'|done].
  - intros o H. rewrite decide_True in H by done. destruct H as [->|H].
    + eexists _, _. split; [done|]. rewrite decide_True by done. by left.
    + destruct (pending_nil (RuneSource := BuffReader_closing_source) o H) as (y & o' & E & H'). exists y, o'. split; [done|]. rewrite decide_True by done. by right.
Defined.

Lemma buffer_page cx bf o : buf_is bf o → valid_runes o → cx = NoContext ∨ cx = Live →
  ∃ r, BuffReader.Reader bf cx false [] = Done r ∧ pending (RuneSource := page_source) r o.
Proof.
  intros Hb Hv Hcx. destruct (buffer_reader cx bf o Hb Hv Hcx) as (r & E & Hr). exists r. split; [done|]. cbn [pending page_source].
  destruct (decide (o = [])); [by left|apply Hr].
Qed.

Section pages.
Context {P R : Type} `{!ByteReader R} `{!RuneReader R} `{!Seeker R}.
Context (RunProgram : P → writer → response → exec (writer * response)).

(** What is shown is written. *)
Lemma shows_served fuel ElemStat (compile : Buffer → option P) cx pg (o : list Z) ch ch' s h :
  pf_active pg = true → Parse fuel ElemStat compile pg true true ch = Done (s, ch') → shows ch' s o → valid_runes o → (length o < fuel)%nat →
  cx = NoContext ∨ cx = Live → Header_Get h (text "Content-Length") = [] →
  ∃ q w, serve_active (R := R) fuel ElemStat compile RunProgram cx pg NewWriter (unsent h) ch = Done (q, w, ch') ∧
    served (MkResponse h (Some 200) h None 0 [] None) q w (encode_all o) [].
Proof.
  intros Ha HP [Hrun Hs] Hv Hf Hcx Hh. unfold serve_active, ProcessActiveFile. rewrite Ha, HP. cbn [exec_bind]. rewrite Hrun.
  assert (sent (unsent h) = MkResponse h (Some 200) h None 0 [] None) as HW by (unfold sent, response_WriteHeader; cbn [rs_status unsent rs_header]; by rewrite Hh).
  assert (served (unsent h) (NewWriter (W := response)) (unsent h) [] (encode_all o ++ [])) as Hnew.
  { apply NewWriter_served. cbn [takes og_sink response_OutgoingSink response_sink]. rewrite HW. by split. }
  rewrite <-HW. destruct s as [si spr sr]. cbn [sp_info sp_print sp_run] in *. subst sr. destruct si as [p|].
  - destruct Hs as (-> & c & Hc & Hb). cbn [exec_bind]. rewrite Hc. cbn [exec_bind]. unfold cached_Reader.
    destruct (buffer_page cx (c_cntnt c) o Hb Hv Hcx) as (r & -> & Hr). cbn [exec_bind].
    destruct (Print_served (R := R) (H0 := page_source) fuel _ _ _ [] r o [] Hnew) as (q & w & HPr & Hq); [done..|].
    eexists q, w. rewrite HPr. split; [done|]. by apply served_sent.
  - destruct spr as [rd|]; cbn [exec_bind].
    + destruct (Fprint_served (R := R) (H0 := page_source) fuel _ _ _ [] rd o [] Hnew) as (q & w & HPr & Hq & _); [done| |done|done|].
      { cbn [pending page_source]. unfold reader_text in Hs. cbn in Hs. destruct (decide (o = [])); [by left|apply Hs]. }
      rewrite HPr. cbn [exec_bind]. eexists q, w. split; [done|]. by apply served_sent.
    + unfold reader_text in Hs. cbn in Hs. destruct (decide (o = [])) as [->|]; [|by destruct Hs as [[] _]].
      eexists _, _. split; [done|]. by apply served_sent.
Qed.
End pages.

(** ** Requests *)

(** The type a file is sent with, and the header it is sent in. *)
Definition content_type (mt : list Z * bool * bool) : list Z :=
  let '(mimetype, texttype, _) := mt in
  if texttype || Paths.Contains mimetype (text "text/plain") then mimetype ++ text "; charset=utf-8" else mimetype.
Definition typed_header (mt : list Z * bool * bool) (expires : list Z) : header :=
  Header_Set (if mt.1.2 then Header_Set ∅ (text "Expires") expires else ∅) (text "Content-type") (content_type mt).

Ltac header_get :=
  repeat (rewrite Header_Get_Set; first [rewrite decide_True by reflexivity; try reflexivity | rewrite decide_False by (vm_compute; discriminate)]).

Lemma typed_type mt expires : Header_Get (typed_header mt expires) (text "Content-Type") = content_type mt.
Proof. unfold typed_header. by header_get. Qed.

Lemma typed_length mt expires : Header_Get (typed_header mt expires) (text "Content-Length") = [].
Proof. unfold typed_header. header_get. destruct mt.1.2; [by header_get|done]. Qed.

(** A file of the file system that is not active, with the content [c]. *)
Record is_file {R} (wf : webfile R) (rd : R) (c : list Z) : Prop := {
  if_active : pf_active (wf_page wf) = false;
  if_reader : wf_Reader wf = Some rd;
  if_size : pf_size (wf_page wf) = len c ∧ c ≠ [] ∧ len c < 2 ^ 63 }.

(** A reader with a position, at the beginning of its content. *)
Lemma at_start {R} `{SeekSource R} (rd : R) c : reads_at rd c 0 → bpending rd c ∧ ∀ k, 0 ≤ k < len c → seeks rd c k.
Proof.
  intros Hr. split; [by exists c, 0|]. intros k Hk. destruct (seek_start rd c 0 k Hr (proj1 Hk)) as (rd' & E & Hr').
  eexists _, _, _. split; [exact E|]. by exists c, k.
Qed.

Section requests.
Context {P R : Type} `{!ByteReader R} `{!RuneReader R} `{!Seeker R}.
Context (csv : list Z) (Stat : list Z → option (webfile R)) (ElemStat : list Z → option fileinfo) (compile : Buffer → option P)
  (RunProgram : P → writer → response → exec (writer * response)) (api : SessionAPI) (cx : context) (expires : list Z).

(** The server between requests. *)
Record server_ok (main r : Z) (st : server P) : Prop := {
  so_sessions : sessions_ok main r (srv_sessions st);
  so_mimes : mimes_ok csv (srv_mimes st) }.

Definition file_type (wf : webfile R) : list Z * bool * bool := mime_of csv (fi_ext (pf_info (wf_page wf))) None.

(** The type is found and the header is set before anything is served. *)
Lemma serve_file_typed fuel hin wf mm ch : table_ok csv → mimes_ok csv mm → (length csv < fuel)%nat → 0 < pf_size (wf_page wf) →
  ∃ mm', mimes_ok csv mm' ∧
    serve_file fuel csv ElemStat compile RunProgram cx expires hin wf NewWriter (unsent ∅) mm ch =
    let w := unsent (typed_header (file_type wf) expires) in
    if pf_active (wf_page wf) then
      let* '(q, w, ch) := serve_active (R := R) fuel ElemStat compile RunProgram cx (wf_page wf) NewWriter w ch in Done (q, w, mm', ch)
    else
      let* '(q, w) := serve_static fuel hin (pf_size (wf_page wf)) (wf_Reader wf) NewWriter w in Done (q, w, mm', ch).
Proof.
  intros Ht Hmm Hf Hs. unfold serve_file. zsimp.
  destruct (FindMimeType_finds fuel csv mm (fi_ext (pf_info (wf_page wf))) None Hmm Ht Hf) as (mm' & -> & Hmm').
  exists mm'. split; [done|]. fold (file_type wf). unfold typed_header, content_type. destruct (file_type wf) as [[tpe txt] media]. cbn [exec_bind fst snd].
  destruct txt; cbn [orb]; [rewrite Set_Header_unsent by done|]; cbn [exec_bind]; by rewrite Set_Header_unsent.
Qed.

(** From what is served to what the client receives. *)
Lemma delivered fuel main r f wt now rq (st : server P) wf (w0 : response) status fields body mm ch :
  server_ok main r st → reg_Get r (UniqueKey now []) (srv_sessions st) = Done (0, false) → Stat (rq_Path rq) = Some wf →
  (∃ q w, serve_file fuel csv ElemStat compile RunProgram cx expires (http_reader rq) wf NewWriter (unsent ∅) (srv_mimes st) (srv_pages st) =
     Done (q, w, mm, ch) ∧ served w0 q w body []) →
  mimes_ok csv mm → sent w0 = w0 → rs_status w0 = Some status → rs_body w0 = [] → Forall (λ f, Header_Get (rs_sent w0) f.1 = f.2) fields →
  ∃ w ts st', HTTPSessionHandler fuel csv Stat ElemStat compile RunProgram api cx expires main r f wt now rq (new_response None) st = Done (w, ts, st') ∧
    server_ok main r st' ∧ srv_pages st' = ch ∧ TaskDelete r (UniqueKey now []) ∈ ts ∧ answers w status fields body.
Proof.
  intros [Hses Hmim] Hfresh HS (q & w & Hsv & Hq) Hmm Hw0 Hst Hb Hfl.
  destruct (session_around fuel csv Stat ElemStat compile RunProgram api cx expires main r f wt now rq (new_response None) st Hses Hfresh)
    as (s & (Hp & Hi & _) & Haround).
  destruct (closed_answers w0 q w body status fields Hq Hw0 Hst Hb Hfl) as (q' & w' & HC & Ha).
  destruct (Haround q w mm ch q' w') as (ts & sw & HH & Hok); [unfold serve_request; rewrite Hp, HS, Hi; exact Hsv|exact HC|].
  exists w', (ts ++ [TaskDelete r (UniqueKey now [])]), (MkServer sw mm ch). split_and!; [exact HH|by split|done|set_solver|done].
Qed.

(** A page that [Parse] shows is what the client receives. *)
Lemma page_request fuel main r f wt now rq (st : server P) wf o s ch :
  server_ok main r st → table_ok csv → reg_Get r (UniqueKey now []) (srv_sessions st) = Done (0, false) → Stat (rq_Path rq) = Some wf →
  pf_active (wf_page wf) = true → 0 < pf_size (wf_page wf) → cx = NoContext ∨ cx = Live →
  Parse fuel ElemStat compile (wf_page wf) true true (srv_pages st) = Done (s, ch) → shows ch s o → valid_runes o →
  (length csv < fuel)%nat → (length o < fuel)%nat →
  ∃ w ts st', HTTPSessionHandler fuel csv Stat ElemStat compile RunProgram api cx expires main r f wt now rq (new_response None) st = Done (w, ts, st') ∧
    server_ok main r st' ∧ srv_pages st' = ch ∧ TaskDelete r (UniqueKey now []) ∈ ts ∧
    answers w 200 [(text "Content-Type", content_type (file_type wf))] (encode_all o).
Proof.
  intros Hst Ht Hfr HS Ha Hsz Hcx HP Hs Hv Hf1 Hf2.
  destruct (serve_file_typed fuel (http_reader rq) wf (srv_mimes st) (srv_pages st) Ht (so_mimes _ _ _ Hst) Hf1 Hsz) as (mm & Hmm & E).
  cbv zeta in E. rewrite Ha in E. set (h := typed_header (file_type wf) expires) in *.
  destruct (shows_served (R := R) RunProgram fuel ElemStat compile cx (wf_page wf) o (srv_pages st) ch s h) as (q & w & EA & Hq); [done..|apply typed_length|].
  rewrite EA in E. cbn [exec_bind] in E.
  eapply (delivered fuel main r f wt now rq st wf (MkResponse h (Some 200) h None 0 [] None) 200 _ (encode_all o) mm ch); [done|done|done|by eexists _, _|done|done|done|done|].
  constructor; [|constructor]. apply typed_type.
Qed.

(** What is served of a file that is not active, for a request. *)
Definition static_serves (fuel : nat) (rq : request) (wf : webfile R) (rd : R) (status : Z) (fields : list (list Z * list Z)) (body : list Z) : Prop :=
  ∃ w0 : response, sent w0 = w0 ∧ rs_status w0 = Some status ∧ rs_body w0 = [] ∧ Forall (λ f, Header_Get (rs_sent w0) f.1 = f.2) fields ∧
    ∃ q w, serve_static fuel (http_reader rq) (pf_size (wf_page wf)) (Some rd) NewWriter (unsent (typed_header (file_type wf) expires)) = Done (q, w) ∧
      served w0 q w body [].

(** It is what the client receives. *)
Lemma file_request fuel main r f wt now rq (st : server P) wf rd c status fields body :
  server_ok main r st → table_ok csv → reg_Get r (UniqueKey now []) (srv_sessions st) = Done (0, false) → Stat (rq_Path rq) = Some wf →
  is_file wf rd c → (length csv < fuel)%nat → static_serves fuel rq wf rd status fields body →
  ∃ w ts st', HTTPSessionHandler fuel csv Stat ElemStat compile RunProgram api cx expires main r f wt now rq (new_response None) st = Done (w, ts, st') ∧
    server_ok main r st' ∧ srv_pages st' = srv_pages st ∧ TaskDelete r (UniqueKey now []) ∈ ts ∧ answers w status fields body.
Proof.
  intros Hst Ht Hfr HS [Ha Hrd (Hsz & Hne & _)] Hf (w0 & Hw0 & Hs0 & Hb0 & Hfl & q & w & ES & Hq).
  assert (0 < pf_size (wf_page wf)) as Hpos by (rewrite Hsz; destruct c; [done|cbn; lia]).
  destruct (serve_file_typed fuel (http_reader rq) wf (srv_mimes st) (srv_pages st) Ht (so_mimes _ _ _ Hst) Hf Hpos) as (mm & Hmm & E).
  cbv zeta in E. rewrite Ha, Hrd, ES in E. cbn [exec_bind] in E.
  eapply (delivered fuel main r f wt now rq st wf w0 status fields body mm (srv_pages st)); [done|done|done|by eexists _, _|done|done|done|done|done].
Qed.

Lemma http_range rq k rest : Header_Get (rq_Header rq) (text "Range") = text "bytes=" ++ FormatInt k ++ text "-" ++ rest → 0 ≤ k < 2 ^ 63 →
  rangeoffset (http_reader rq) = k ∧ rangetype (http_reader rq) = text "bytes".
Proof. intros Hr Hk. unfold http_reader. by rewrite Hr, range_of_from. Qed.

(** The part of a file that is sent for a range from [k] on, and what is told of it. *)
Definition part (c : list Z) (k : Z) : list Z := take (Z.to_nat (Z.min (len c - k) (1024 * 1024))) (drop (Z.to_nat k) c).
Definition part_fields (wf : webfile R) (c : list Z) (k : Z) : list (list Z * list Z) :=
  let n := Z.min (len c - k) (1024 * 1024) in
  [(text "Content-Range", text "bytes " ++ FormatInt k ++ text "-" ++ FormatInt (k + n - 1) ++ text "/" ++ FormatInt (len c));
   (text "Content-Length", FormatInt n); (text "Content-Type", content_type (file_type wf))].

(** What is told of a whole file. *)
Definition whole_fields (wf : webfile R) (c : list Z) : list (list Z * list Z) :=
  [(text "Accept-Ranges", text "bytes"); (text "Content-Length", FormatInt (len c)); (text "Content-Type", content_type (file_type wf))].

Lemma range_serves `{!ByteSource R} fuel rq wf (rd : R) c k rest :
  is_file wf rd c → Header_Get (rq_Header rq) (text "Range") = text "bytes=" ++ FormatInt k ++ text "-" ++ rest → 0 ≤ k < len c → seeks rd c k →
  (length c < fuel)%nat → static_serves fuel rq wf rd 206 (part_fields wf c k) (part c k).
Proof.
  intros [Ha Hrd (Hsz & Hne & Hc)] Hrg Hk Hat Hf2. destruct (http_range rq k rest Hrg) as [Hoff Hty]; [lia|].
  destruct (serve_range_served fuel (http_reader rq) rd c k (typed_header (file_type wf) expires) Hat Hoff Hty Hk Hc Hf2) as (q & w & ES & Hq).
  eexists. split_and!; [| | | |exists q, w; rewrite Hsz; split; [exact ES|exact Hq]]; [done..|].
  cbn [rs_sent]. repeat constructor; cbn [fst snd]; header_get. apply typed_type.
Qed.

(** A request without a range of bytes that begins somewhere. *)
Definition no_range (rq : request) : Prop :=
  let ro := range_of (Header_Get (rq_Header rq) (text "Range")) in ro.1 ≠ text "bytes" ∨ ro.2 < 0.

Lemma whole_serves `{!ByteSource R} fuel rq wf (rd : R) c :
  is_file wf rd c → bpending rd c → no_range rq → (length c < fuel)%nat → static_serves fuel rq wf rd 200 (whole_fields wf c) c.
Proof.
  intros [Ha Hrd (Hsz & Hne & Hc)] Hat Hrg Hf2.
  assert ((-1 <? rangeoffset (http_reader rq)) && bool_decide (rangetype (http_reader rq) = text "bytes") = false) as Hno.
  { unfold http_reader. unfold no_range in Hrg. destruct (range_of _) as [ty off]. cbn [fst snd rangeoffset rangetype] in *.
    destruct Hrg as [?|?]; [rewrite bool_decide_eq_false_2 by done; apply andb_false_r|by zsimp]. }
  destruct (serve_whole_served fuel (http_reader rq) rd c (typed_header (file_type wf) expires) Hat Hno Hne Hc Hf2) as (q & w & ES & Hq).
  eexists. split_and!; [| | | |exists q, w; rewrite Hsz; split; [exact ES|exact Hq]]; [done..|].
  cbn [rs_sent]. repeat constructor; cbn [fst snd]; header_get. apply typed_type.
Qed.

(** C4: a request for a part of a file, bytes=k- with k in the file, is answered with the
    status 206, at most a megabyte of the file from its byte k on, whatever end the range
    has, and a header that tells exactly what is sent: Content-Range has the first and the
    last byte and the size of the file, Content-Length the number of bytes, Content-Type
    the type the table gives the extension, as it is read, or plain text; the request
    leaves no session but one whose deletion is left to a goroutine, and a server that is as
    good as before.  The file is not active, is shorter than 2^63 bytes and has a reader that
    can be moved to [k]; no session has the key of the request's. *)
Theorem range_delivered `{!ByteSource R} fuel main r f wt now rq (st : server P) wf rd c k rest :
  server_ok main r st → table_ok csv → reg_Get r (UniqueKey now []) (srv_sessions st) = Done (0, false) →
  Stat (rq_Path rq) = Some wf → is_file wf rd c →
  Header_Get (rq_Header rq) (text "Range") = text "bytes=" ++ FormatInt k ++ text "-" ++ rest → 0 ≤ k < len c → seeks rd c k →
  (length csv < fuel)%nat → (length c < fuel)%nat →
  ∃ w ts st', HTTPSessionHandler fuel csv Stat ElemStat compile RunProgram api cx expires main r f wt now rq (new_response None) st = Done (w, ts, st') ∧
    server_ok main r st' ∧ srv_pages st' = srv_pages st ∧ TaskDelete r (UniqueKey now []) ∈ ts ∧
    answers w 206 (part_fields wf c k) (part c k).
Proof. intros. eapply file_request; [done..|]. by eapply range_serves. Qed.

(** C6: a request for a file without a range of bytes is answered with the status 200,
    the whole file, its length and the type the table gives its extension, as it is read,
    or plain text, and the offer of ranges.  The file is not active and shorter than 2^63
    bytes; no session has the key of the request's. *)
Theorem file_delivered `{!ByteSource R} fuel main r f wt now rq (st : server P) wf rd c :
  server_ok main r st → table_ok csv → reg_Get r (UniqueKey now []) (srv_sessions st) = Done (0, false) →
  Stat (rq_Path rq) = Some wf → is_file wf rd c → bpending rd c → no_range rq →
  (length csv < fuel)%nat → (length c < fuel)%nat →
  ∃ w ts st', HTTPSessionHandler fuel csv Stat ElemStat compile RunProgram api cx expires main r f wt now rq (new_response None) st = Done (w, ts, st') ∧
    server_ok main r st' ∧ srv_pages st' = srv_pages st ∧ TaskDelete r (UniqueKey now []) ∈ ts ∧
    answers w 200 (whole_fields wf c) c.
Proof. intros. eapply file_request; [done..|]. by apply whole_serves. Qed.
End requests.

(** C5: a request for an active page that was not kept as it is, is answered with the
    status 200 and what the text of the page expands to, with its elements, in the type the
    table gives its extension, as it is read; the page is kept, and any later request for a
    page of the same path and time of change is answered the same, whatever has become of the
    files of its elements.  What the text expands to is what [expands_to] says; no session
    has the key of the requests'. *)
Theorem page_delivered {P R} `{!ByteReader R} `{!RuneReader R} `{!Seeker R} csv (Stat : list Z → option (webfile R)) ElemStat (compile : Buffer → option P)
    RunProgram api cx expires main r f wt now rq (st : server P) wf o :
  server_ok csv main r st → table_ok csv → reg_Get r (UniqueKey now []) (srv_sessions st) = Done (0, false) →
  Stat (rq_Path rq) = Some wf → pf_active (wf_page wf) = true → 0 < pf_size (wf_page wf) → cx = NoContext ∨ cx = Live →
  cache_ok (srv_pages st) → open_map (srv_pages st) → fi_path (pf_info (wf_page wf)) ≠ [] → unnamed (srv_pages st) (fi_path (pf_info (wf_page wf))) →
  changed (srv_pages st) (wf_page wf) → expands_to ElemStat (wf_page wf) o →
  ∃ N, ∀ fuel, (N ≤ fuel)%nat → ∃ w ts st',
    HTTPSessionHandler fuel csv Stat ElemStat compile RunProgram api cx expires main r f wt now rq (new_response None) st = Done (w, ts, st') ∧
    server_ok csv main r st' ∧ cache_ok (srv_pages st') ∧ open_map (srv_pages st') ∧
    answers w 200 [(text "Content-Type", content_type (file_type csv wf))] (encode_all o) ∧
    ∀ fuel2 (Stat2 : list Z → option (webfile R)) ElemStat2 (compile2 : Buffer → option P) now2 rq2 wf2,
      (N ≤ fuel2)%nat → reg_Get r (UniqueKey now2 []) (srv_sessions st') = Done (0, false) →
      Stat2 (rq_Path rq2) = Some wf2 → pf_active (wf_page wf2) = true → 0 < pf_size (wf_page wf2) →
      fi_path (pf_info (wf_page wf2)) = fi_path (pf_info (wf_page wf)) → pf_modtime (wf_page wf2) = pf_modtime (wf_page wf) →
      ∃ w2 ts2 st2,
        HTTPSessionHandler fuel2 csv Stat2 ElemStat2 compile2 RunProgram api cx expires main r f wt now2 rq2 (new_response None) st' = Done (w2, ts2, st2) ∧
        server_ok csv main r st2 ∧ srv_pages st2 = srv_pages st' ∧
        answers w2 200 [(text "Content-Type", content_type (file_type csv wf2))] (encode_all o).
Proof.
  intros Hst Ht Hfr HS Ha Hsz Hcx Hok Hom Hpath Hun Hch He. pose proof (expands_to_valid _ _ _ He) as Hv.
  destruct (Parse_shows ElemStat compile (wf_page wf) o true (srv_pages st) Hok Hom Hpath Hun Hch He) as (N & HN).
  exists (S (N + length csv + length o)). intros fuel Hf.
  destruct (HN fuel ltac:(lia)) as (s & ch & HP & Hs & Hok' & Hom' & Hlater).
  destruct (page_request csv Stat ElemStat compile RunProgram api cx expires fuel main r f wt now rq st wf o s ch) as (w & ts & st' & HH & Hst' & Hpg & _ & Han);
    [done..|lia|lia|].
  exists w, ts, st'. rewrite Hpg. split_and!; [done..|]. intros fuel2 Stat2 ElemStat2 compile2 now2 rq2 wf2 Hf2 Hfr2 HS2 Ha2 Hsz2 Hp2 Hm2.
  destruct (Hlater fuel2 ElemStat2 compile2 (wf_page wf2) true Hp2 Hm2) as (s2 & HP2 & Hs2). rewrite <-Hpg in HP2, Hs2.
  destruct (page_request csv Stat2 ElemStat2 compile2 RunProgram api cx expires fuel2 main r f wt now2 rq2 st' wf2 o s2 (srv_pages st'))
    as (w2 & ts2 & st2 & HH2 & Hst2 & Hpg2 & _ & Han2); [done..|lia|lia|].
  exists w2, ts2, st2. split_and!; [done|done|congruence|done].
Qed.

(** ** A server *)

Definition demo_world : world := match Sessions 1 main_world with Done (_, w) => w | _ => main_world end.
Definition demo_server : server (list Z) := MkServer demo_world new_mimes new_cache.
Definition demo_request (path : list Z) (h : header) : request := MkRequest path [] (text "GET") (text "HTTP/1.1") false h None.
Definition demo_film : webfile (contextreader osfile) :=
  MkWebFile (MkPage (MkFile (text "/film.mp4") (text "/") (text "/") (text ".mp4") None) 5 1 false) true
    (Some (ContextReader (os_Open [1; 2; 3; 4; 5]) NoContext true true)).
Definition demo_active : webfile (contextreader osfile) := MkWebFile demo_pagefile false None.
Definition demo_fsys (path : list Z) : option (webfile (contextreader osfile)) :=
  if decide (path = text "/film.mp4") then Some demo_film else if decide (path = text "/q") then Some demo_active else None.

Lemma demo_server_ok csv : server_ok csv 1 1 demo_server.
Proof. split; [|apply new_mimes_ok]. eexists _, _. by split_and!; vm_compute. Qed.

Definition demo_reader : contextreader osfile := ContextReader (os_Open [1; 2; 3; 4; 5]) NoContext true true.

Lemma demo_film_is : is_file demo_film demo_reader [1; 2; 3; 4; 5].
Proof. by split. Qed.

Lemma demo_at_start : bpending demo_reader [1; 2; 3; 4; 5] ∧ ∀ k, 0 ≤ k < 5 → seeks demo_reader [1; 2; 3; 4; 5] k.
Proof. apply (at_start demo_reader). by split_and!; [..|left| | |]. Qed.

(** What the demonstration server does with a request, with a table of types. *)
Definition handled {P R} `{!ByteReader R} `{!RuneReader R} `{!Seeker R} (fuel : nat) (csv : list Z) (Stat : list Z → option (webfile R)) (rq : request) (st : server P) :=
  HTTPSessionHandler fuel csv Stat demo_stat (λ _, None) (λ _ q w, Done (q, w)) (MkAPI None None) Live [] 1 1 0 0 7 rq (new_response None) st.

(** The types of the embedded table. *)
Lemma film_type : content_type (file_type mimetypescsv demo_film) = text "video/mp4".
Proof. vm_compute. reflexivity. Qed.
Lemma page_type : content_type (file_type mimetypescsv demo_active) = text "text/html; charset=utf-8".
Proof. vm_compute. reflexivity. Qed.
Lemma film_short : (length [1; 2; 3; 4; 5] < mimetypes_fuel)%nat.
Proof. pose proof mimetypes_fuel_100. cbn [length]. lia. Qed.
#[local] Opaque mimetypescsv mimetypes_fuel.

Lemma range_delivered_witness :
  ∃ w ts st', handled mimetypes_fuel mimetypescsv demo_fsys (demo_request (text "/film.mp4") (Header_Set ∅ (text "Range") (text "bytes=2-3"))) demo_server = Done (w, ts, st') ∧
    server_ok mimetypescsv 1 1 st' ∧ srv_pages st' = new_cache ∧ TaskDelete 1 (UniqueKey 7 []) ∈ ts ∧
    answers w 206 [(text "Content-Range", text "bytes 2-4/5"); (text "Content-Length", text "3"); (text "Content-Type", text "video/mp4")] [3; 4; 5].
Proof.
  rewrite <- film_type.
  exact (range_delivered mimetypescsv demo_fsys demo_stat (λ _, None) (λ _ q w, Done (q, w)) (MkAPI None None) Live [] mimetypes_fuel 1 1 0 0 7
    (demo_request (text "/film.mp4") (Header_Set ∅ (text "Range") (text "bytes=2-3"))) demo_server demo_film
    demo_reader [1; 2; 3; 4; 5] 2 (text "3")
    (demo_server_ok _) mimetypes_ok ltac:(vm_compute; reflexivity) ltac:(vm_compute; reflexivity) demo_film_is ltac:(vm_compute; reflexivity) ltac:(cbn; lia)
    (proj2 demo_at_start 2 ltac:(lia)) mimetypes_enough film_short).
Defined.

Lemma file_delivered_witness :
  ∃ w ts st', handled mimetypes_fuel mimetypescsv demo_fsys (demo_request (text "/film.mp4") ∅) demo_server = Done (w, ts, st') ∧
    server_ok mimetypescsv 1 1 st' ∧ srv_pages st' = new_cache ∧ TaskDelete 1 (UniqueKey 7 []) ∈ ts ∧
    answers w 200 [(text "Accept-Ranges", text "bytes"); (text "Content-Length", text "5"); (text "Content-Type", text "video/mp4")] [1; 2; 3; 4; 5].
Proof.
  rewrite <- film_type.
  exact (file_delivered mimetypescsv demo_fsys demo_stat (λ _, None) (λ _ q w, Done (q, w)) (MkAPI None None) Live [] mimetypes_fuel 1 1 0 0 7
    (demo_request (text "/film.mp4") ∅) demo_server demo_film demo_reader [1; 2; 3; 4; 5]
    (demo_server_ok _) mimetypes_ok ltac:(vm_compute; reflexivity) ltac:(vm_compute; reflexivity) demo_film_is (proj1 demo_at_start) ltac:(right; vm_compute; reflexivity)
    mimetypes_enough film_short).
Defined.

Lemma page_delivered_witness :
  ∃ N, ∀ fuel, (N ≤ fuel)%nat → ∃ w ts st', handled fuel mimetypescsv demo_fsys (demo_request (text "/q") ∅) demo_server = Done (w, ts, st') ∧
    server_ok mimetypescsv 1 1 st' ∧ cache_ok (srv_pages st') ∧ open_map (srv_pages st') ∧
    answers w 200 [(text "Content-Type", text "text/html; charset=utf-8")] (text ".!") ∧
    ∀ fuel2 (Stat2 : list Z → option (webfile (contextreader osfile))) ElemStat2 (compile2 : Buffer → option (list Z)) now2 rq2 wf2,
      (N ≤ fuel2)%nat → reg_Get 1 (UniqueKey now2 []) (srv_sessions st') = Done (0, false) →
      Stat2 (rq_Path rq2) = Some wf2 → pf_active (wf_page wf2) = true → 0 < pf_size (wf_page wf2) →
      fi_path (pf_info (wf_page wf2)) = fi_path (pf_info demo_pagefile) → pf_modtime (wf_page wf2) = 1 →
      ∃ w2 ts2 st2,
        HTTPSessionHandler fuel2 mimetypescsv Stat2 ElemStat2 compile2 (λ _ q w, Done (q, w)) (MkAPI None None) Live [] 1 1 0 0 now2 rq2 (new_response None) st' = Done (w2, ts2, st2) ∧
        server_ok mimetypescsv 1 1 st2 ∧ srv_pages st2 = srv_pages st' ∧
        answers w2 200 [(text "Content-Type", content_type (file_type mimetypescsv wf2))] (text ".!").
Proof.
  rewrite <- page_type.
  refine (page_delivered mimetypescsv demo_fsys demo_stat (λ _, None) (λ _ q w, Done (q, w)) (MkAPI None None) Live [] 1 1 0 0 7
    (demo_request (text "/q") ∅) demo_server demo_active (text ".!") (demo_server_ok _) mimetypes_ok
    ltac:(vm_compute; reflexivity) ltac:(vm_compute; reflexivity) eq_refl eq_refl ltac:(by right) (proj1 new_cache_ok) (proj2 new_cache_ok) ltac:(done) _ _ demo_expands_to).
  - intros k p _. change (kept_map (srv_pages demo_server)) with (∅ : gmap (list Z) Z). by rewrite lookup_empty.
  - intros p c f b. change (kept_map (srv_pages demo_server)) with (∅ : gmap (list Z) Z). by rewrite lookup_empty.
Defined.

(** What the client of the demonstration server is told: the status, the range and the
    length, and the body. *)
Definition told (Stat : list Z → option (webfile (contextreader osfile))) (path : list Z) (h : header) : exec (option Z * list Z * list Z * list Z) :=
  let* '(w, _, _) := handled 150 demo_csv Stat (demo_request path h) demo_server in
  let w := sent w in
  Done (rs_status w, Header_Get (rs_sent w) (text "Content-Range"), Header_Get (rs_sent w) (text "Content-Length"), rs_body w).

(** A path without a file is answered with the status 200 and nothing. *)
Example no_file : told demo_fsys (text "/none") ∅ = Done (Some 200, [], [], []).
Proof. vm_compute. reflexivity. Qed.

(** A range past the end of the file is answered as a part of no length. *)
Example past_the_end : told demo_fsys (text "/film.mp4") (Header_Set ∅ (text "Range") (text "bytes=9-")) = Done (Some 206, text "bytes 9-9/5", text "0", []).
Proof. vm_compute. reflexivity. Qed.

(** Without a beginning the range is ignored. *)
Example last_bytes : told demo_fsys (text "/film.mp4") (Header_Set ∅ (text "Range") (text "bytes=-2")) = Done (Some 200, [], text "5", [1; 2; 3; 4; 5]).
Proof. vm_compute. reflexivity. Qed.

(** A file that cannot be opened any more, between [Stat] and the reading, panics. *)
Example vanished : told (λ _, Some (MkWebFile (wf_page demo_film) true None)) (text "/film.mp4") ∅ = Panic.
Proof. vm_compute. reflexivity. Qed.
