(* ===== verification/Site.v ===== *)
(** The site: the files of the file systems behind the handler of requests.

    [HTTPSessionHandler] (src/globalsession/globalsession.go) asks the multi file system
    ([MultiFs]) for the file of the path, whose file systems ([FileSys]) answer a [FileInfo];
    its reader is that of a buffer, of a file of the operating system or of a file in an
    archive.  Here the three are put together.  The session is made before the file is
    looked for, and touches no file: the search is put first.

    What is in the files of the operating system and what is read from archives are
    arguments. *)

From S2P Require Import Prelude Runes GoStrings Readers RuneReaders Buffer BufferCursor Elements Tags Templates IterMap Paths MultiFs FileSys BuffReader Streams Serving Mimetypes Mimes Active Sessions Handler.
From stdpp Require Import gmap strings.
#[local] Open Scope Z_scope.

(** ** The reader of a file *)

Inductive filereader := OfBuffer (r : option BuffReader) | OfFile (f : contextreader osfile).

#[export] Instance filereader_Read : ByteReader filereader := λ rd n,
  match rd with
  | OfBuffer r => let* '(bs, e, r') := read_bytes r n in Done (bs, e, OfBuffer r')
  | OfFile f => let* '(bs, e, f') := read_bytes f n in Done (bs, e, OfFile f')
  end.
#[export] Instance filereader_ReadRune : RuneReader filereader := λ rd,
  match rd with
  | OfBuffer r => let* '(x, n, e, r') := read_rune r in Done (x, n, e, OfBuffer r')
  | OfFile f => let* '(x, n, e, f') := read_rune f in Done (x, n, e, OfFile f')
  end.
#[export] Instance filereader_Seek : Seeker filereader := λ rd offset whence,
  match rd with
  | OfBuffer r => let* '(n, r') := BuffReader.Seek r offset whence in Done (n, None, OfBuffer r')
  | OfFile f => let* '(n, e, f') := seek f offset whence in Done (n, e, OfFile f')
  end.

Section site.
Context {P : Type}.
Context (fuel : nat) (csv : list Z) (media : list Z → bool) (os_Stat : list Z → option osinfo)
  (os_data : list Z → option (list Z)) (archived : list Z → option Buffer).

(** [rdr(ctx...)] of a [FileInfo]; nil when the file cannot be opened. *)
Definition open_source (w : FileSys.world) (cx : BuffReader.context) (src : FileSys.source) : exec (option filereader) :=
  match src with
  | FromBuffer b => let* buf := the_buffer w b in let* r := BuffReader.Reader (Some buf) cx false [] in Done (Some (OfBuffer r))
  | FromOs path => Done ((λ data, OfFile (ContextReader (os_Open data) cx true true)) <$> os_data path)
  | FromArchive path =>
    match archived path with
    | Some bf => let* r := BuffReader.Reader (Some bf) cx false [] in Done (Some (OfBuffer r))
    | None => Done None
    end
  end.

(** What the handler sees of a file that [Stat] found. *)
Definition webfile_of (w : FileSys.world) (x : finfo) : exec (webfile filereader) :=
  match info_of x w with
  | None => Panic
  | Some fi =>
    let* rd := open_source w BuffReader.NoContext (i_rdr fi) in
    let page := Elements.MkFile (i_path fi) (i_root fi) (i_base fi) (i_ext fi) ((λ r, AnyRdr filereader filereader_ReadRune r) <$> rd) in
    Done (MkWebFile (MkPage page (i_size fi) (i_modfy fi) (i_active fi)) (i_media fi) rd)
  end.

(** A file that is set. *)
Definition site_Set {Ntfy} (m : multifilesys (Ntfy := Ntfy)) (path : list Z) (a : list parg) (w : FileSys.world) : exec (bool * FileSys.world) :=
  let _ := filesys_system fuel media os_Stat in Set__ (FI := finfo) (File := file) (Some m) path a w.

(** The file of a path. *)
Definition site_Stat {Ntfy} (m : multifilesys (Ntfy := Ntfy)) (path : list Z) (w : FileSys.world) : exec (option (webfile filereader) * FileSys.world) :=
  let _ := filesys_system fuel media os_Stat in
  let* '(x, w) := MultiFs.Stat (File := file) (Arg := parg) (Some m) path w in
  match x with
  | Some fi => let* wf := webfile_of w fi in Done (Some wf, w)
  | None => Done (None, w)
  end.

Context (ElemStat : list Z → option Elements.fileinfo) (compile : Buffer → option P)
  (RunProgram : P → writer → response → exec (writer * response)) (api : SessionAPI) (cx : BuffReader.context) (expires : list Z).

Definition serve_site {Ntfy} (m : multifilesys (Ntfy := Ntfy)) (main r f wt now : Z) (rq : request) (st : server P) (w : FileSys.world)
  : exec (response * list task * server P * FileSys.world) :=
  let* '(wf, w) := site_Stat m (rq_Path rq) w in
  let* '(resp, ts, st) := HTTPSessionHandler fuel csv (λ _, wf) ElemStat compile RunProgram api cx expires main r f wt now rq (new_response None) st in
  Done (resp, ts, st, w).
End site.

(** * Theory *)

#[export] Instance filereader_source : ByteSource filereader.
Proof.
  refine {| bpending rd bs := match rd with OfBuffer r => bpending r bs | OfFile f => bpending f bs end |}.
  - intros [r|f] bs n Hp Hne Hn; destruct (bpending_cons _ bs n Hp Hne Hn) as (k & r' & E & ?); exists k; unfold read_bytes, filereader_Read; rewrite E;
      eexists; by split.
  - intros [r|f] n Hp Hn; destruct (bpending_nil _ n Hp Hn) as (r' & E & ?); unfold read_bytes, filereader_Read; rewrite E; eexists; by split.
Defined.

(** A reader of a whole buffer is at its beginning, and can be moved to any byte that is
    not the last of a piece of the buffer. *)
Lemma buffer_reads b c : searchable b → contents b = c → c ≠ [] →
  ∃ r, BuffReader.Reader (Some b) BuffReader.NoContext false [] = Done r ∧ bpending (OfBuffer r) c ∧
    ∀ k, 0 ≤ k < len c → k mod len (bytes b) ≠ len (bytes b) - 1 → seeks (OfBuffer r) c k.
Proof.
  intros Hs <- Hne. destruct (Reader_range b 0 (len (contents b)) Hs Hne (good_range_whole b Hs Hne)) as (r & E & Hh & Hn & Hb & Hm & Hbs & Hi).
  rewrite sub_full in Hh. exists (Some r). rewrite Reader_all by done. split; [exact E|]. split; [exact Hh|]. intros k Hk Hmod.
  destruct (reader_holds_some _ _ Hh) as (r0 & c & [= <-] & Hc). destruct Hh as (r0 & c0 & l & bl & [= <-] & _ & _ & _ & Hpos & Hmax & Hcx & Hd1 & Hd2 & _).
  destruct (Seek_start_bytes b r c k) as (r' & ES & Hh' & _); [done..|]. rewrite Hm, Hi, Hbs in Hh'.
  eexists _, _, (OfBuffer (Some r')). unfold seek, filereader_Seek. rewrite ES. split; [done|exact Hh'].
Qed.

Section theory.
Context {P Ntfy : Type}.
Context (fuel : nat) (csv : list Z) (media : list Z → bool) (os_Stat : list Z → option osinfo)
  (os_data : list Z → option (list Z)) (archived : list Z → option Buffer).
Context (ElemStat : list Z → option Elements.fileinfo) (compile : Buffer → option P)
  (RunProgram : P → writer → response → exec (writer * response)) (api : SessionAPI) (cx : BuffReader.context) (expires : list Z).
Implicit Types (m : multifilesys (Ntfy := Ntfy)).

(** The site has a file at a path that was set, and is not active. *)
Definition site_has m (path t : list Z) (w : FileSys.world) : Prop :=
  ∃ f i fi buf, MultiFs.mapped m [47] = Some f ∧ holds_file w f path i fi buf ∧
    i_active fi = false ∧ i_size fi = len t ∧ i_ext fi = Ext path ∧ searchable buf ∧ len (bytes buf) = chunk_size ∧ contents buf = t.

Lemma site_finds m path t w :
  site_has m path t w → rooted path → up_free path → Ext path ≠ [] → t ≠ [] → len t < 2 ^ 63 →
  ∃ wf rd w', site_Stat fuel media os_Stat os_data archived m path w = Done (Some wf, w') ∧ site_has m path t w' ∧ is_file wf rd t ∧ bpending rd t ∧
    (∀ k, 0 ≤ k < len t → k mod chunk_size ≠ chunk_size - 1 → seeks rd t k) ∧ file_type csv wf = mime_of csv (Ext path) None.
Proof.
  intros (f & i & fi & buf & Hm & Hh & Ha & Hsz & Hex & Hs & Hlb & Hc) Hr Hu He Hne Ht.
  destruct (Stat_holds media os_Stat (Some false) f path w i fi buf Hr Hu He Hh) as (w' & HS & _ & _ & _ & Hh').
  destruct (buffer_reads buf t Hs Hc Hne) as (r & ER & Hp & Hk). rewrite Hlb in Hk.
  eexists _, (OfBuffer r), w'. split_and!; [|by exists f, i, fi, buf| |done|exact Hk|].
  - unfold site_Stat. set (sys := filesys_system fuel media os_Stat). unfold MultiFs.Stat.
    rewrite (Stat_root (File := file) (Arg := parg) (Some false) m f path w (FShared i) w') by done. cbn [exec_bind].
    destruct Hh' as (s & b & _ & _ & _ & Ei & Hrd & Eb). unfold webfile_of, info_of. rewrite Ei. cbn [exec_bind]. unfold open_source. rewrite Hrd. unfold the_buffer.
    rewrite Eb. cbn [exec_bind]. rewrite ER. cbn [exec_bind]. done.
  - by split.
  - unfold file_type. cbn. by rewrite Hex.
Qed.
(** *** What is set *)

Lemma Set_slash f name a w : 47 ∉ name → Ext name ≠ [] → FileSys.Set_ fuel media f name a w = FileSys.Set_ fuel media f (47 :: name) a w.
Proof.
  intros Hn He. unfold FileSys.Set_. rewrite Ext_root. change (47 =? 47) with true. rewrite (bool_decide_eq_false_2 (name = [])) by (by intros ->).
  rewrite (bool_decide_eq_false_2 (47 :: name = [])) by done. destruct name as [|x name]; [done|]. apply not_elem_of_cons in Hn as [Hx _].
  by rewrite (proj2 (Z.eqb_neq x 47)) by done.
Qed.

Lemma Set_has m f s name a t w :
  MultiFs.mapped m [47] = Some f → systems w !! f = Some s → 47 ∉ name → Ext name ≠ [] → Ext name ∉ activexts s →
  embed s !! (47 :: name) = None → cachedfiles s !! (47 :: name) = None → prints_list fuel a t →
  ∃ w1, site_Set fuel media os_Stat m (47 :: name) a w = Done (true, w1) ∧ site_has m (47 :: name) t w1.
Proof.
  intros Hm Es Hn He Hact Hemb Hch Hp. destruct (Set_new fuel media f (47 :: name) a t w s) as (w1 & buf & HS & Hh & Hwf & Hlb & Hc);
    [done|by exists name|by rewrite Ext_root|done|done|by right|].
  exists w1. split.
  - unfold site_Set. set (sys := filesys_system fuel media os_Stat). apply (Set_root (FI := finfo) (File := file) m f name a w _ Hm Hn).
    unfold fs_Set, sys, filesys_system. by rewrite Set_slash.
  - eexists f, _, _, buf. split_and!; [done|exact Hh| | | | |done|done].
    + unfold FileSys.set_info, NewFileInfo. rewrite Ext_root, (bool_decide_eq_false_2 (Ext name ∈ _)) by done. by destruct (mltypath s).
    + unfold FileSys.set_info, NewFileInfo. by destruct (mltypath s).
    + assert (last_slash (47 :: name) = 0) as E by (cbn [last_slash]; by rewrite last_slash_none).
      unfold FileSys.set_info, set_name, NewFileInfo. rewrite E. rewrite Ext_root. by destruct (mltypath s).
    + split; [done|]. rewrite Hlb. unfold chunk_size. lia.
Qed.

(** A request to the site is answered, and the site has the file as before. *)
Definition site_answers m (main r f wt now : Z) (rq : request) (st : server P) (w : FileSys.world) (path t : list Z)
    (status : Z) (fields : list (list Z * list Z)) (body : list Z) : Prop :=
  ∃ resp ts st' w', serve_site fuel csv media os_Stat os_data archived ElemStat compile RunProgram api cx expires m main r f wt now rq st w = Done (resp, ts, st', w') ∧
    site_has m path t w' ∧ server_ok csv main r st' ∧ TaskDelete r (UniqueKey now []) ∈ ts ∧ answers resp status fields body.

(** C7: what is set is what is served.  After [Set] of a file under the root of a site,
    that is not active and not there, any request for its path, now or as long as the site
    has the file, finds exactly the bytes that were set: without a range the whole of them,
    with the status 200, and for a range from the byte [k], which is not the last of a piece
    of the buffer, those from [k] on, with the status 206; and the site has the file still. *)
Theorem set_then_served m f s name a t w :
  MultiFs.mapped m [47] = Some f → systems w !! f = Some s → 47 ∉ name → Ext name ≠ [] → Ext name ∉ activexts s →
  embed s !! (47 :: name) = None → cachedfiles s !! (47 :: name) = None → prints_list fuel a t → t ≠ [] → len t < 2 ^ 63 →
  table_ok csv → (length csv < fuel)%nat → (length t < fuel)%nat →
  ∃ w1, site_Set fuel media os_Stat m (47 :: name) a w = Done (true, w1) ∧ site_has m (47 :: name) t w1 ∧
    ∀ w2 main r fs wt now rq st, site_has m (47 :: name) t w2 → server_ok csv main r st → reg_Get r (UniqueKey now []) (srv_sessions st) = Done (0, false) →
      rq_Path rq = 47 :: name →
      let answered := site_answers m main r fs wt now rq st w2 (47 :: name) t in
      let type := (text "Content-Type", content_type (mime_of csv (Ext name) None)) in
      (no_range rq → answered 200 [(text "Accept-Ranges", text "bytes"); (text "Content-Length", FormatInt (len t)); type] t) ∧
      ∀ k rest, Header_Get (rq_Header rq) (text "Range") = text "bytes=" ++ FormatInt k ++ text "-" ++ rest → 0 ≤ k < len t → k mod chunk_size ≠ chunk_size - 1 →
        let n := Z.min (len t - k) (1024 * 1024) in
        answered 206 [(text "Content-Range", text "bytes " ++ FormatInt k ++ text "-" ++ FormatInt (k + n - 1) ++ text "/" ++ FormatInt (len t));
          (text "Content-Length", FormatInt n); type] (take (Z.to_nat n) (drop (Z.to_nat k) t)).
Proof.
  intros Hm Es Hn He Hact Hemb Hch Hp Hne Ht Htab Hf1 Hf2. destruct (Set_has m f s name a t w) as (w1 & HS & Hh); [done..|].
  exists w1. split; [exact HS|]. split; [exact Hh|]. clear w1 HS Hh. intros w2 main r fs wt now rq st Hh Hst Hfr Hpath answered type.
  destruct (site_finds m (47 :: name) t w2 Hh) as (wf & rd & w3 & HSt & Hh3 & Hfile & Hbp & Hsk & Hty); [by exists name|by apply up_free_name|by rewrite Ext_root|done|done|].
  rewrite Ext_root in Hty. assert (∀ status fields body, static_serves (R := filereader) csv expires fuel rq wf rd status fields body → answered status fields body) as Hserve.
  { intros status fields body Hs.
    destruct (file_request csv (λ _, Some wf) ElemStat compile RunProgram api cx expires fuel main r fs wt now rq st wf rd t status fields body)
      as (resp & ts & st' & HH & Hst' & _ & Hts & Han); [done..|]. exists resp, ts, st', w3. split_and!; [|done..].
    unfold serve_site. rewrite Hpath, HSt. cbn [exec_bind]. by rewrite HH. }
  unfold type. rewrite <-Hty. split.
  - intros Hno. apply Hserve. by eapply whole_serves.
  - intros k rest Hrg Hk Hmod. apply Hserve. eapply range_serves; [done|done|done| |done]. by apply Hsk.
Qed.
End theory.

(** ** A site *)

Definition www_site : multifilesys (Ntfy := ()) := www_multi.

(** What the demonstration server answers a request: the status, the range, the length and
    the body. *)
Definition site_told (fuel : nat) (w : FileSys.world) (path : list Z) (h : header) : exec (option Z * list Z * list Z * list Z) :=
  let* '(resp, _, _, _) := serve_site fuel demo_csv no_media www (λ _, None) (λ _, None) demo_stat (λ _, None) (λ _ q w, Done (q, w))
    (MkAPI None None) BuffReader.Live [] www_site 1 1 0 0 7 (demo_request path h) demo_server w in
  let resp := sent resp in
  Done (rs_status resp, Header_Get (rs_sent resp) (text "Content-Range"), Header_Get (rs_sent resp) (text "Content-Length"), rs_body resp).

Definition range_header (s : string) : header := Header_Set ∅ (text "Range") (text s).

(** A file of 8195 bytes, as it is after it was set. *)
Definition long_text : list Z := replicate (Z.to_nat 8191) 97 ++ text "1234".
Definition long_buffer : Buffer := MkBuffer [replicate (Z.to_nat 8191) 97 ++ text "1"] (text "234" ++ replicate (Z.to_nat 8189) 97) 3 true false 0 (-1) (-1) None.
Definition long_world : FileSys.world :=
  FileSys.MkWorld [MkFs false (text "/") (text "/www") ∅ {[text "/x.txt" := (0%nat, 0%nat)]} ∅ ∅ {[text ".html"]} ∅ true] [long_buffer]
    [NewFileInfo (text "x.txt") 8195 0 7 false false true false (text "/x.txt") (text "/") (FromBuffer 0)] 7 [] [].

Lemma long_site : site_has www_site (text "/x.txt") long_text long_world.
Proof.
  exists 0%nat, 0%nat, (NewFileInfo (text "x.txt") 8195 0 7 false false true false (text "/x.txt") (text "/") (FromBuffer 0)), long_buffer.
  split; [vm_compute; reflexivity|]. split; [eexists _, 0%nat; split_and!; [vm_compute; reflexivity|vm_compute; reflexivity|by left|vm_compute; reflexivity..]|].
  split; [done|]. split; [vm_compute; reflexivity|]. split; [vm_compute; reflexivity|]. split; [|split; vm_compute; reflexivity].
  split; [|vm_compute; discriminate]. split; [done|split; [vm_compute; discriminate|vm_compute; reflexivity]|constructor; [vm_compute; reflexivity|constructor]].
Qed.

(** A range that begins at the last byte of a piece of the buffer, 8192 bytes long: the
    header tells of the bytes, and none are sent. *)
Example last_of_a_piece :
  site_told 150 long_world (text "/x.txt") (range_header "bytes=8191-") = Done (Some 206, text "bytes 8191-8194/8195", text "4", []) ∧
  site_told 150 long_world (text "/x.txt") (range_header "bytes=8190-") = Done (Some 206, text "bytes 8190-8194/8195", text "5", text "a1234").
Proof. split; vm_compute; reflexivity. Qed.

(** The demonstration server in front of that site. *)
Definition www_answers (w : FileSys.world) (h : header) : Z → list (list Z * list Z) → list Z → Prop :=
  site_answers mimetypes_fuel mimetypescsv no_media www (λ _, None) (λ _, None) demo_stat (λ _, None) (λ _ q w, Done (q, w)) (MkAPI None None) BuffReader.Live [] www_site
    1 1 0 0 7 (demo_request (text "/x.txt") h) demo_server w (text "/x.txt") (encode_all (text "hello") ++ []).

Lemma hello_prints fuel : prints_list fuel [PRunes (text "hello")] (encode_all (text "hello") ++ []).
Proof. apply prints_cons; [apply prints_runes; by repeat constructor|apply prints_none]. Qed.

Lemma hello_short : (length (encode_all (text "hello") ++ []) < 100)%nat.
Proof. vm_compute. lia. Qed.

Lemma txt_type : content_type (mime_of mimetypescsv (Ext (text "x.txt")) None) = text "text/plain; charset=utf-8".
Proof. vm_compute. reflexivity. Qed.
#[local] Opaque mimetypescsv mimetypes_fuel.

Lemma set_then_served_witness : ∃ w1, site_Set mimetypes_fuel no_media www www_site (text "/x.txt") [PRunes (text "hello")] one_world = Done (true, w1) ∧
  www_answers w1 ∅ 200 [(text "Accept-Ranges", text "bytes"); (text "Content-Length", text "5"); (text "Content-Type", text "text/plain; charset=utf-8")] (text "hello") ∧
  www_answers w1 (range_header "bytes=1-2") 206 [(text "Content-Range", text "bytes 1-4/5"); (text "Content-Length", text "4"); (text "Content-Type", text "text/plain; charset=utf-8")] (text "ello").
Proof.
  rewrite <- txt_type.
  destruct (set_then_served (P := list Z) mimetypes_fuel mimetypescsv no_media www (λ _, None) (λ _, None) demo_stat (λ _, None) (λ _ q w, Done (q, w)) (MkAPI None None) BuffReader.Live [] www_site
    0 plain_fs (text "x.txt") [PRunes (text "hello")] _ one_world
    ltac:(vm_compute; reflexivity) eq_refl ltac:(apply (bool_decide_unpack _); vm_compute; exact I) ltac:(vm_compute; discriminate)
    ltac:(apply (bool_decide_unpack _); vm_compute; exact I) ltac:(vm_compute; reflexivity) ltac:(vm_compute; reflexivity)
    (hello_prints _) ltac:(discriminate) ltac:(vm_compute; reflexivity)
    mimetypes_ok mimetypes_enough (Nat.lt_trans _ _ _ hello_short mimetypes_fuel_100)) as (w1 & HS & Hh & Hserve).
  exists w1. split; [exact HS|]. split.
  - destruct (Hserve w1 1 1 0 0 7 (demo_request (text "/x.txt") ∅) demo_server Hh (demo_server_ok _) ltac:(vm_compute; reflexivity) eq_refl) as [H _].
    apply H. right. vm_compute. reflexivity.
  - destruct (Hserve w1 1 1 0 0 7 (demo_request (text "/x.txt") (range_header "bytes=1-2")) demo_server Hh (demo_server_ok _) ltac:(vm_compute; reflexivity) eq_refl) as [_ H].
    apply (H 1 (text "2")); [vm_compute; reflexivity|vm_compute; split; [discriminate|reflexivity]|vm_compute; discriminate].
Defined.
